(* ===== verification/_CoqProject ===== *)
-Q . S2P
Prelude.v
Kernel.v
Spinlock.v
Memory.v
Libstr.v
Cprintf.v
Kalloc.v
Sched.v
SchedProps.v
Sleeplock.v
Vm.v
Uvm.v
Bio.v
BioProps.v
Log.v
LogProps.v
Inode.v
InodeProps.v
Console.v
Fs.v
Pipe.v
File.v
Proc.v
Syscall.v
Sysproc.v
Exec.v
Sysfile.v
Ide.v
Trap.v
Ulib.v
Uprogs.v
Grep.v
Umalloc.v
Sh.v
ShParse.v
ShRun.v
Uproc.v
Usertests.v
Mp.v
Apic.v
Boot.v
Main.v
Mkfs.v
FsProps.v
Ktests.v
FsWrite.v
Types.v
Safety.v
