(* ===== verification/Prelude.v ===== *)
(** * xv6 with a priority scheduler: a verification development

    ** The program

    src/Final is the xv6 teaching kernel for the x86 with the round-robin
    scheduler of proc.c replaced by one that keeps a priority per process,
    picks among the runnable processes of smallest priority value and moves
    the priority of a process after each of its turns; the system calls
    getpriority, setpriority and ssm were added. The kernel is a set of C
    files that share global tables under spin locks: processes (proc.c), page
    tables (vm.c) and the page allocator (kalloc.c), the console (console.c,
    kbd.c, uart.c), the buffer cache (bio.c) over a disk driver (memide.c or
    ide.c), the log (log.c), inodes, directories and paths (fs.c), pipes and
    open files (pipe.c, file.c), and on top of them the system calls
    (syscall.c, sysproc.c, sysfile.c, exec.c), entered through trap.c. The boot
    loader (bootmain.c) loads it, main.c starts it after finding the processors
    and interrupt controllers (mp.c, lapic.c, ioapic.c, picirq.c). mkfs.c builds
    the disk image. The user programs (sh.c, init.c, grep.c, the utilities and
    usertests.c) are linked with ulib.c, printf.c and umalloc.c.

    ** How it is modelled

    All the global variables are the fields of one record [kernel] (Kernel.v);
    a C function is a function in the state and error monad [M kernel] of this
    file, with one definition per C function (and one per loop body, named
    <function>_turn or after what it does). An outcome is [Ok] with a value,
    [Err] with a fault (a panic with its message, a processor fault such as a
    divide error or a page fault, a processor that spins for ever, or a bound
    that was too small) or [Swtch], the transfer to the scheduler: a function
    that sleeps ends there, and the code after its sleep() is what runs when
    the process is resumed ([resume] of Sched.v, and the loop around the
    sleep(), which is a definition of its own). C integers are [Z] with their
    wrap-around written out ([u32], [s32], ...). The kernel's memory is one
    byte per address; page tables live in it, and loads and stores of user
    addresses are translated through them. Disk blocks and buffers are lists
    of bytes.

    A user program is a computation in the monad [U W] of Ulib.v over any type
    [W] of worlds that has the system calls the program uses (the classes [Sys],
    [ShSys], [ProcSys] and [TestSys], a method per system call): it returns,
    exits, runs out of a bound or does what C leaves undefined. Worlds are
    instances: a process with a descriptor table for the shell, and for the
    tests the kernel itself, whose system calls are trap(). The boot loader,
    mkfs and the interrupt controllers use the same monad over the devices
    they drive. Main.v joins the kernel and the controllers in a [board].

    ** The files

    - Prelude.v: the monad, loops, C integers, tactics and the hint database.
    - Kernel.v: structures, constants and the global state, with setters.
    - Spinlock.v (spinlock.c, mycpu/myproc of proc.c): the operations on one
      processor, and acquire/release as a step relation of many processors.
    - Memory.v, Libstr.v: memory, address translation, string.c.
    - Cprintf.v, Console.v: console.c, kbd.c, uart.c.
    - Kalloc.v: kalloc.c. Vm.v and Uvm.v: vm.c and its page-table theory.
    - Sched.v, SchedProps.v (proc.c): scheduler(), sched, sleep, wakeup, kill,
      priorities, the CMOS clock. Sleeplock.v: sleeplock.c, alone and as a
      step relation of many processes.
    - Bio.v (bio.c, memide.c), Log.v (log.c), Inode.v and Fs.v (fs.c), Ide.v
      (ide.c): the file system. BioProps.v, LogProps.v, InodeProps.v, FsProps.v
      and FsWrite.v hold its theorems, from the buffer cache upwards.
    - Pipe.v, File.v: pipe.c, file.c. Proc.v: the life of processes in proc.c.
    - Syscall.v, Sysproc.v, Exec.v, Sysfile.v, Trap.v: the files of those names.
    - Types.v, Safety.v: the types of the kernel's tables, and that every entry
      into the kernel keeps them.
    - Mp.v, Apic.v, Boot.v, Main.v: mp.c, the interrupt controllers,
      bootmain.c, main.c with seginit() of vm.c.
    - Mkfs.v: mkfs.c.
    - Ulib.v, Umalloc.v: the library of the user programs. Uprogs.v (cat, wc,
      echo, ls, kill, ln, mkdir, rm), Grep.v, Uproc.v (init, zombie, forktest,
      stressfs, my_prog, my_prog0, my_prog1), Usertests.v.
    - Sh.v (sh.c), ShParse.v (its parser), ShRun.v (a pipeline).
    - Ktests.v: tests of Usertests.v run on the kernel.

    ** What the theorems show

    - Scheduler (SchedProps.v): which process a turn chooses, every way a turn
      fails, the rotation among equals, the priority feedback and its
      consequences (starvation, a crash that a user program can cause).
    - Locks (Spinlock.v, Sleeplock.v): mutual exclusion and exactness of
      holding() in every interleaving; no lost wakeup and no deadlock of sleep
      locks.
    - Safety (Safety.v): from the start of the machine, whatever enters the
      kernel, the tables keep their C types and no access leaves its table.
      Syscall.v: arguments are taken from the memory of the process only.
    - Memory (Kalloc.v, Vm.v, Uvm.v): no page is handed out twice; page-table
      operations map, copy and free exactly what they should, on success and on
      failure.
    - Disk (BioProps.v, LogProps.v): the buffer cache refines a disk with a view
      per block; a transaction is atomic, also when the machine stops between
      any two writes of commit() or of the recovery.
    - Files (InodeProps.v, FsProps.v, FsWrite.v): block allocation, the round
      trip of inodes, and readi() and writei() on every branch, with direct and
      indirect blocks. Mkfs.v: the image holds the files it was given; the
      kernel reads from it what was put there.
    - Pipes (Pipe.v): refinement of a bounded queue.
    - User programs: malloc() and free() never give overlapping blocks and keep
      what the holders wrote (Umalloc.v); the shell's parser inverts the
      printing of commands and ends on every line (ShParse.v), and a pipeline
      connects its processes as written (ShRun.v); grep's matcher accepts the
      language of its pattern (Grep.v).
    - Start (Boot.v, Main.v): the boot loader leaves the segments of the ELF
      file in memory; startothers() starts every other processor.
    - The whole (Ktests.v): on an image built by mkfs, nine tests of usertests.c
      run through trap(), system calls, log, cache and disk, and pass. The
      kernel's state there is rebuilt between calls by [settle], which is the
      identity ([settle_id]) and keeps the evaluation fast.

    ** Bounds and fuel

    A counted C loop is [for_range] or [for_acc] and needs no bound. A loop
    over data has a bound computed from the data ([while_fuel]: pages of a
    range, blocks of a file, entries of a directory, NBUF list links), and a
    loop over addresses or counters has 2^32 turns ([while32], executable for
    short runs whatever the bound). The theorems that a function returns show
    that these bounds are reached by no run they describe. Loops that poll a
    device (the CMOS clock, the disk's status port) take a bound [fuel] as an
    argument, since the device decides how long they run. Loops of user
    programs take such a bound too ([uwhile]); where a theorem says that a
    program ends it computes a bound from the input (the line for the parser,
    the ring of free blocks for malloc, the files for mkfs). trap() gets ten
    turns in Ktests.v for the one loop of it that polls, which no call there
    reaches.

    ** Not modelled

    The assembly (entry.S, entryother.S, bootasm.S, swtch.S, trapasm.S,
    initcode.S), which the outcome [Swtch], the trap frame and parameters of
    Main.v stand for; the debugging call stacks (getcallerpcs, a parameter of
    procdump), the printing done by panic(), and blah.c, an old text of
    scheduler() that is not compiled. Interrupts arrive between operations:
    trap() is modelled, its asynchronous arrival in the middle of another
    operation is not, except in the step relations of Spinlock.v and
    Sleeplock.v, which interleave single accesses. The processors that main()
    starts run mpenter() while the first one waits for them. Ktests.v has one
    process: the tests that fork are translated and not run there, since a
    second process would need the context switch inside a system call. *)
From stdpp Require Export prelude functions strings.
From Stdlib Require Export ZArith Lia FunctionalExtensionality.
Open Scope Z_scope.

(** ** C integers *)

(** The low 8, 16 and 32 bits, written so that concrete runs are fast. *)
Definition u8 (z : Z) : Z := Z.land z 255.
Definition u16 (z : Z) : Z := z `mod` 2 ^ 16.
Definition u32 (z : Z) : Z := if (0 <=? z) && (z <? 4294967296) then z else Z.land z 4294967295.

(** The int whose two's complement pattern is the low 32 bits of [z]. *)
Definition s32 (z : Z) : Z :=
  if (-2147483648 <=? z) && (z <? 2147483648) then z else (z + 2 ^ 31) `mod` 2 ^ 32 - 2 ^ 31.

(** The short whose pattern is the low 16 bits of [z]. *)
Definition s16 (z : Z) : Z := (z + 2 ^ 15) `mod` 2 ^ 16 - 2 ^ 15.

(** The signed char whose pattern is the low 8 bits of [z]. *)
Definition s8 (z : Z) : Z := (z + 2 ^ 7) `mod` 2 ^ 8 - 2 ^ 7.

Definition is_u8 (z : Z) : Prop := 0 <= z < 2 ^ 8.
Definition is_u32 (z : Z) : Prop := 0 <= z < 2 ^ 32.
Definition is_s32 (z : Z) : Prop := - 2 ^ 31 <= z < 2 ^ 31.
Definition is_s16 (z : Z) : Prop := - 2 ^ 15 <= z < 2 ^ 15.

(** A C truth value. *)
Definition truth (z : Z) : bool := negb (z =? 0).
Definition b2z (b : bool) : Z := if b then 1 else 0.

(** ** Results of kernel code *)

(** How the machine stops: panic(msg), a processor exception or an access
    outside an object ([CpuFault]), an endless wait with interrupts off
    ([Hang]), or the fuel of a bounded loop ran out ([NoFuel]). *)
Inductive fault : Type :=
| Panic (msg : string)
| CpuFault (what : string)
| Hang
| NoFuel.

Inductive res (S A : Type) : Type :=
| Ok (a : A) (s : S)
| Err (f : fault) (s : S)
| Swtch (s : S).
Arguments Ok {S A} a s.
Arguments Err {S A} f s.
Arguments Swtch {S A} s.

Definition M (S A : Type) : Type := S → res S A.

#[export] Instance M_ret {S} : MRet (M S) := λ A a s, Ok a s.
#[export] Instance M_bind {S} : MBind (M S) := λ A B f m s,
  match m s with
  | Ok a s' => f a s'
  | Err e s' => Err e s'
  | Swtch s' => Swtch s'
  end.

Definition get {S A} (f : S → A) : M S A := λ s, Ok (f s) s.
Definition modify {S} (f : S → S) : M S unit := λ s, Ok tt (f s).
Definition fail {S A} (f : fault) : M S A := λ s, Err f s.
Definition panic {S A} (msg : string) : M S A := fail (Panic msg).
Definition swtch_away {S A} : M S A := λ s, Swtch s.
Definition when {S} (b : bool) (m : M S unit) : M S unit :=
  if b then m else mret tt.

(** for(i = from; i < from+n; i++) body, where the body may return a value
    from the enclosing function ([Some]). *)
Fixpoint for_range {S R} (n from : nat) (body : nat → M S (option R)) : M S (option R) :=
  match n with
  | O => mret None
  | Datatypes.S n' =>
      r ← body from;
      match r with
      | Some v => mret (Some v)
      | None => for_range n' (Datatypes.S from) body
      end
  end.

(** for(i = from; i < from+n; i++) acc = body, a loop that always runs to the
    end and updates local variables. *)
Fixpoint for_acc {S A} (n from : nat) (body : nat → A → M S A) (acc : A) : M S A :=
  match n with
  | O => mret acc
  | Datatypes.S n' => acc' ← body from acc; for_acc n' (Datatypes.S from) body acc'
  end.

(** while(body) with at most [fuel] iterations; the body returns the next
    loop variables ([inl]) or leaves the loop ([inr]). *)
Fixpoint while_fuel {S L R} (fuel : nat) (body : L → M S (L + R)) (l : L) : M S R :=
  match fuel with
  | O => fail NoFuel
  | Datatypes.S fuel' =>
      r ← body l;
      match r with
      | inl l' => while_fuel fuel' body l'
      | inr v => mret v
      end
  end.

(** A loop of at most 2^k iterations: [inl] when it is still running. *)
Fixpoint while_pow {S L R} (k : nat) (body : L → M S (L + R)) (l : L) : M S (L + R) :=
  match k with
  | O => body l
  | Datatypes.S k' =>
      r ← while_pow k' body l;
      match r with
      | inl l' => while_pow k' body l'
      | inr v => mret (inr v)
      end
  end.

(** A loop over addresses or counters, of which there are 2^32. *)
Definition while32 {S L R} (body : L → M S (L + R)) (l : L) : M S R :=
  r ← while_pow 32 body l;
  match r with
  | inl _ => fail NoFuel
  | inr v => mret v
  end.

(** [m] run [n] times. *)
Fixpoint times {S} (n : nat) (m : M S unit) : M S unit :=
  match n with
  | O => mret tt
  | Datatypes.S n' => m;; times n' m
  end.

(** Reflexive-transitive closure of a step relation, for the state machines. *)
Inductive reach {S : Type} (init : S → Prop) (step : S → S → Prop) : S → Prop :=
| reach_init s : init s → reach init step s
| reach_step s s' : reach init step s → step s s' → reach init step s'.

(** ** Tactics *)

Create HintDb xv6.
Create Rewrite HintDb xv6.

(** Reduce the monad's plumbing. *)
Ltac mred :=
  cbn [mbind mret M_bind M_ret get modify fail panic swtch_away when] in *;
  unfold get, modify, panic, fail, swtch_away, when, mret, mbind, M_ret, M_bind in *.

(** Case analysis on the first boolean comparison in sight. *)
Ltac bsplit :=
  match goal with
  | |- context [Z.eqb ?a ?b] => destruct (Z.eqb_spec a b)
  | |- context [Z.ltb ?a ?b] => destruct (Z.ltb_spec a b)
  | |- context [Z.leb ?a ?b] => destruct (Z.leb_spec a b)
  | |- context [bool_decide ?P] => destruct (bool_decide_reflect P)
  end.

(** Reduce the wrap-around functions to [mod] and call [lia]. *)
Lemma u32_mod z : u32 z = z `mod` 2 ^ 32.
Proof.
  unfold u32. change 4294967295 with (Z.ones 32).
  destruct (Z.leb_spec 0 z), (Z.ltb_spec z 4294967296); cbn [andb]; try (by apply Z.land_ones). by rewrite Z.mod_small.
Qed.

Lemma u8_mod z : u8 z = z `mod` 2 ^ 8.
Proof. unfold u8. change 255 with (Z.ones 8). by apply Z.land_ones. Qed.

Lemma s32_mod z : s32 z = (z + 2 ^ 31) `mod` 2 ^ 32 - 2 ^ 31.
Proof.
  unfold s32. destruct (Z.leb_spec (-2147483648) z), (Z.ltb_spec z 2147483648); cbn [andb]; try done. rewrite Z.mod_small; lia.
Qed.

Ltac words_mod :=
  repeat match goal with
  | |- context [u8 _] => rewrite u8_mod
  | |- context [u32 _] => rewrite u32_mod
  | |- context [s32 _] => rewrite s32_mod
  | H : context [u8 _] |- _ => rewrite u8_mod in H
  | H : context [u32 _] |- _ => rewrite u32_mod in H
  | H : context [s32 _] |- _ => rewrite s32_mod in H
  end.

Ltac word_lia :=
  words_mod; unfold is_u32, is_s32, is_u8, u16, s8 in *;
  change (2 ^ 32) with 4294967296 in *; change (2 ^ 31) with 2147483648 in *;
  change (2 ^ 16) with 65536 in *; change (2 ^ 8) with 256 in *;
  change (2 ^ 7) with 128 in *;
  Z.to_euclidean_division_equations; lia.

(** ** Lemmas on integers *)

Lemma u32_small z : is_u32 z → u32 z = z.
Proof. intros. rewrite u32_mod. apply Z.mod_small, H. Qed.

Lemma u32_range z : is_u32 (u32 z).
Proof. rewrite u32_mod. apply Z.mod_pos_bound; lia. Qed.

Lemma u8_small z : is_u8 z → u8 z = z.
Proof. intros. rewrite u8_mod. apply Z.mod_small, H. Qed.

Lemma u8_range z : is_u8 (u8 z).
Proof. rewrite u8_mod. apply Z.mod_pos_bound; lia. Qed.

Lemma s32_small z : is_s32 z → s32 z = z.
Proof. intros. word_lia. Qed.

Lemma s32_range z : is_s32 (s32 z).
Proof. word_lia. Qed.

Lemma s16_range z : is_s16 (s16 z).
Proof. unfold is_s16, s16. pose proof (Z.mod_pos_bound (z + 2 ^ 15) (2 ^ 16)). lia. Qed.

Lemma u32_u32 z : u32 (u32 z) = u32 z.
Proof. apply u32_small, u32_range. Qed.

Lemma u32_s32 z : u32 (s32 z) = u32 z.
Proof.
  rewrite !u32_mod, s32_mod. rewrite Zminus_mod, Z.mod_mod by lia.
  rewrite <- Zminus_mod. f_equal. lia.
Qed.

Lemma u32_add_l a b : u32 (u32 a + b) = u32 (a + b).
Proof. rewrite !u32_mod. apply Zplus_mod_idemp_l. Qed.

Lemma u32_add_r a b : u32 (a + u32 b) = u32 (a + b).
Proof. rewrite !u32_mod. apply Zplus_mod_idemp_r. Qed.

Lemma u32_sub_l a b : u32 (u32 a - b) = u32 (a - b).
Proof. rewrite !u32_mod. apply Zminus_mod_idemp_l. Qed.

Lemma u32_sub_r a b : u32 (a - u32 b) = u32 (a - b).
Proof. rewrite !u32_mod. apply Zminus_mod_idemp_r. Qed.

(** A power of two below 2^32 divides 2^32: indices taken modulo it survive
    the wrap-around of the counter. *)
Lemma u32_mod_pow2 z k : 0 <= k <= 32 → (u32 z) `mod` 2 ^ k = z `mod` 2 ^ k.
Proof.
  intros. rewrite u32_mod. apply Z.mod_mod_divide.
  exists (2 ^ (32 - k)). rewrite <- Z.pow_add_r by lia. f_equal. lia.
Qed.

#[export] Hint Resolve u32_range u8_range s32_range s16_range : xv6.
#[export] Hint Rewrite u32_u32 u32_s32 u32_add_l u32_add_r u32_sub_l u32_sub_r : xv6.

(** ** Lemmas on the monad and the loops *)

Lemma bind_Ok {S A B} (m : M S A) (f : A → M S B) s a s' :
  m s = Ok a s' → (m ≫= f) s = f a s'.
Proof. intros E. unfold mbind, M_bind. by rewrite E. Qed.

Lemma bind_Err {S A B} (m : M S A) (f : A → M S B) s e s' :
  m s = Err e s' → (m ≫= f) s = Err e s'.
Proof. intros E. unfold mbind, M_bind. by rewrite E. Qed.

Lemma bind_Swtch {S A B} (m : M S A) (f : A → M S B) s s' :
  m s = Swtch s' → (m ≫= f) s = Swtch s'.
Proof. intros E. unfold mbind, M_bind. by rewrite E. Qed.

Lemma bind_Ok_inv {S A B} (m : M S A) (f : A → M S B) s b s' :
  (m ≫= f) s = Ok b s' → ∃ a s1, m s = Ok a s1 ∧ f a s1 = Ok b s'.
Proof. unfold mbind, M_bind. destruct (m s); intros; naive_solver. Qed.

(** An invariant of the loop body is an invariant of the loop. *)
Lemma for_range_inv {S R} (P : nat → S → Prop) (Q : R → S → Prop)
    (n from : nat) (body : nat → M S (option R)) s r s' :
  (∀ i s r s', (from <= i < from + n)%nat → P i s → body i s = Ok r s' →
     match r with Some v => Q v s' | None => P (Datatypes.S i) s' end) →
  P from s → for_range n from body s = Ok r s' →
  match r with Some v => Q v s' | None => P (from + n)%nat s' end.
Proof.
  revert from s. induction n as [|n IH]; intros from s Hb HP E.
  - inversion E; subst. by rewrite Nat.add_0_r.
  - cbn in E. apply bind_Ok_inv in E as (a & s1 & E1 & E2).
    pose proof (Hb from s a s1 ltac:(lia) HP E1) as Hb1.
    destruct a as [v|].
    + inversion E2; subst. done.
    + rewrite <- Nat.add_succ_comm. apply (IH (Datatypes.S from) s1); auto.
      intros i s0 r0 s0' Hi. apply Hb. lia.
Qed.

(** Running a loop step by step from both ends. *)
Lemma for_range_app {S R} n1 n2 from (body : nat → M S (option R)) s :
  for_range (n1 + n2) from body s =
  match for_range n1 from body s with
  | Ok None s' => for_range n2 (from + n1)%nat body s'
  | r => r
  end.
Proof.
  revert from s. induction n1 as [|n1 IH]; intros from s; cbn.
  - by rewrite Nat.add_0_r.
  - mred. destruct (body from s) as [[v|] s1|e s1|s1]; try done.
    rewrite IH. by rewrite <- Nat.add_succ_comm.
Qed.

(** A counted loop whose every turn re-establishes [P] runs to its end. *)
Lemma for_acc_inv {S} (P : nat → S → Prop) (n from : nat) (body : nat → unit → M S unit) s :
  (∀ i s, (from <= i < from + n)%nat → P i s → ∃ s', body i tt s = Ok tt s' ∧ P (Datatypes.S i) s') →
  P from s → ∃ s', for_acc n from body tt s = Ok tt s' ∧ P (from + n)%nat s'.
Proof.
  revert from s. induction n as [|n IH]; intros from s Hb HP; cbn.
  - exists s. by rewrite Nat.add_0_r.
  - destruct (Hb from s ltac:(lia) HP) as (s1 & E1 & HP1). rewrite (bind_Ok _ _ _ _ _ E1), <- Nat.add_succ_comm.
    apply IH; [|done]. intros i s0 Hi. apply Hb. lia.
Qed.

(** More fuel does not change the result of a loop that has returned. *)
Lemma while_fuel_mono {S L R} f1 f2 (body : L → M S (L + R)) l s v s' :
  (f1 <= f2)%nat → while_fuel f1 body l s = Ok v s' →
  while_fuel f2 body l s = Ok v s'.
Proof.
  revert f2 l s. induction f1 as [|f1 IH]; intros f2 l s Hle E; [done|].
  destruct f2 as [|f2]; [lia|]. cbn in *. mred.
  destruct (body l s) as [[l'|v'] s1|e s1|s1]; try done.
  apply IH; [lia|done].
Qed.

(** The outcome of a loop as one run of [while_pow]. *)
Definition left_loop {S L R} (r : res S R) : res S (L + R) :=
  match r with Ok v s => Ok (inr v) s | Err e s => Err e s | Swtch s => Swtch s end.

(** [while_pow] is [while_fuel] with the fuel counted in binary. *)
Lemma while_pow_run {S L R} k n (body : L → M S (L + R)) l s r :
  (n <= 2 ^ k)%nat → while_fuel n body l s = r → (∀ s', r ≠ Err NoFuel s') →
  while_pow k body l s = left_loop r.
Proof.
  assert (H : ∀ k n (l : L) s, (∀ s', while_fuel n body l s ≠ Err NoFuel s') →
    while_pow k body l s = left_loop (while_fuel n body l s) ∨
    ∃ l1 s1, while_pow k body l s = Ok (inl l1) s1 ∧ (2 ^ k < n)%nat ∧
      while_fuel (n - 2 ^ k) body l1 s1 = while_fuel n body l s).
  { clear. intros k. induction k as [|k IH]; intros n l s E.
    - destruct n as [|n]; [by destruct (E s)|]. cbn in *. unfold mbind, M_bind in *.
      destruct (body l s) as [[l1|v1] s1|e s1|s1]; [right|by left..].
      exists l1, s1. rewrite Nat.sub_0_r. destruct n as [|n]; [by destruct (E s1)|]. split_and!; [done|lia|done].
    - cbn [while_pow]. unfold mbind, M_bind. destruct (IH n l s E) as [H1|(l1 & s1 & H1 & Hn & E1)].
      + left. rewrite H1. by destruct (while_fuel n body l s).
      + rewrite <- E1 in E. rewrite H1. destruct (IH _ l1 s1 E) as [H2|(l2 & s2 & H2 & Hn2 & E2)]; [left|right].
        * by rewrite H2, E1.
        * exists l2, s2. rewrite H2. cbn [Nat.pow]. split_and!; [done|lia|].
          replace (n - 2 * 2 ^ k)%nat with (n - 2 ^ k - 2 ^ k)%nat by lia. by rewrite E2. }
  intros Hn <- Hr. destruct (H k n l s Hr) as [H1|(l1 & s1 & H1 & Hn1 & _)]; [done|lia].
Qed.

Lemma while32_run {S L R} n (body : L → M S (L + R)) l s r :
  Z.of_nat n <= 2 ^ 32 → while_fuel n body l s = r → (∀ s', r ≠ Err NoFuel s') → while32 body l s = r.
Proof.
  intros Hn E Hr. unfold while32, mbind, M_bind. rewrite (while_pow_run 32 n body l s r); [by destruct r| |done|done].
  apply Nat2Z.inj_le. rewrite Nat2Z.inj_pow. exact Hn.
Qed.

Lemma while32_fuel {S L R} n (body : L → M S (L + R)) l s v s' :
  Z.of_nat n <= 2 ^ 32 → while_fuel n body l s = Ok v s' → while32 body l s = Ok v s'.
Proof. intros Hn E. by apply (while32_run n). Qed.

(** An invariant of every step holds in every reachable state. *)
Lemma reach_inv {S} (init : S → Prop) (step : S → S → Prop) (I : S → Prop) s :
  (∀ s, init s → I s) → (∀ s s', I s → step s s' → I s') →
  reach init step s → I s.
Proof. intros Hi Hs. induction 1; eauto. Qed.

(** Run the first step of a bind: a primitive step, or one known by a lemma. *)
Tactic Notation "mstep" := erewrite bind_Ok by reflexivity; cbv beta.
Tactic Notation "mstep" "by" tactic3(t) := erewrite bind_Ok by t; cbv beta.

(** ** Lemmas on function update *)

Lemma fn_insert_same {A B} `{EqDecision A} (f : A → B) (a : A) :
  <[a := f a]> f = f.
Proof.
  apply functional_extensionality. intros x.
  destruct (decide (x = a)) as [->|]; by rewrite ?fn_lookup_insert, ?fn_lookup_insert_ne.
Qed.

Lemma fn_insert_insert {A B} `{EqDecision A} (f : A → B) (a : A) (b c : B) :
  <[a := b]> (<[a := c]> f) = <[a := b]> f.
Proof.
  apply functional_extensionality. intros x.
  destruct (decide (x = a)) as [->|]; by rewrite ?fn_lookup_insert, ?fn_lookup_insert_ne.
Qed.
