(* ===== verification/Kernel.v ===== *)
(** * The kernel's data and global state

    The structures of proc.h, spinlock.h, sleeplock.h, file.h, buf.h, fs.h,
    pipe.c, log.c, console.c, x86.h, mmu.h and param.h as records, and the global variables of the kernel as
    the fields of one record [kernel]. Pointers to objects of a static table
    (ptable.proc[i], cpus[i], ftable.file[i], bcache.buf[i]) are their indices, null is
    [None]; pointers to physical pages are 32-bit addresses; a lock and a
    sleep channel are named by the object whose address the code uses. Each
    field has a setter [set_<field>]. The operations on this state are in the
    files of the components. *)
From S2P Require Import Prelude.

(** ** Constants (param.h, mmu.h, memlayout.h) *)

Definition NPROC : nat := 64.
Definition KSTACKSIZE : Z := 4096.
Definition NOFILE : nat := 16.
Definition NFILE : nat := 100.
Definition NINODE : nat := 50.
Definition NDEV : Z := 10.
Definition ROOTDEV : Z := 1.
Definition ROOTINO : Z := 1.
Definition MAXARG : nat := 32.
Definition MAXOPBLOCKS : Z := 10.
Definition LOGSIZE : Z := MAXOPBLOCKS * 3.
Definition NBUF : nat := 30.
Definition BSIZE : Z := 512.
Definition NDIRECT : Z := 12.
Definition NINDIRECT : Z := BSIZE / 4.
Definition MAXFILE : Z := NDIRECT + NINDIRECT.
Definition DIRSIZ : Z := 14.
Definition CRTSIZE : Z := 25 * 80.
Definition INPUT_BUF : Z := 128.

Definition PGSIZE : Z := 4096.
Definition KERNBASE : Z := 0x80000000.
Definition EXTMEM : Z := 0x100000.
Definition PHYSTOP : Z := 0xE000000.
Definition DEVSPACE : Z := 0xFE000000.
Definition KERNLINK : Z := KERNBASE + EXTMEM.

Definition V2P (a : Z) : Z := u32 (a - KERNBASE).
Definition P2V (a : Z) : Z := u32 (a + KERNBASE).
Definition PGROUNDUP (sz : Z) : Z := Z.land (u32 (sz + PGSIZE - 1)) (u32 (Z.lnot (PGSIZE - 1))).
Definition PGROUNDDOWN (a : Z) : Z := Z.land (u32 a) (u32 (Z.lnot (PGSIZE - 1))).

Definition SEG_UCODE : Z := 3.
Definition SEG_UDATA : Z := 4.
Definition DPL_USER : Z := 3.
Definition FL_IF : Z := 0x200.

(** ** Names of spin locks and sleep channels *)

(** The sleep locks: one in each buffer and one in each cached inode. *)
Inductive slid : Type :=
| SBuf (n : nat)
| SInode (n : nat).

#[export] Instance slid_eq_dec : EqDecision slid.
Proof. solve_decision. Defined.

(** The address of a spin lock. [LPipe a] is the lock of the pipe in the page
    at [a]; [LSleep s] is the spin lock inside the sleep lock [s]. *)
Inductive lockid : Type :=
| LPtable | LTicks | LKmem | LFtable | LCons | LBcache | LIcache | LLog | LIde
| LPipe (a : Z)
| LSleep (s : slid).

#[export] Instance lockid_eq_dec : EqDecision lockid.
Proof. solve_decision. Defined.

(** The address a process sleeps on: null, &ticks, &input.r, &log, a struct
    proc, &p->nread and &p->nwrite of a pipe, a struct sleeplock, a struct buf. *)
Inductive chan_t : Type :=
| ChNull | ChTicks | ChInput | ChLog
| ChProc (i : nat)
| ChNread (a : Z) | ChNwrite (a : Z)
| ChSleep (s : slid)
| ChBuf (n : nat).

#[export] Instance chan_eq_dec : EqDecision chan_t.
Proof. solve_decision. Defined.

Definition chan_of_proc (p : option nat) : chan_t :=
  match p with Some i => ChProc i | None => ChNull end.

(** ** Locks and processors *)

(** struct spinlock, less the debugging call stack pcs[]. *)
Record spinlock : Type := mk_spinlock {
  locked : Z;  (* is the lock held? *)
  lk_name : string;
  lk_cpu : option nat;  (* the cpu holding the lock *)
}.

Definition set_locked (v : Z) (x : spinlock) : spinlock :=
  mk_spinlock v (x.(lk_name)) (x.(lk_cpu)).
Definition set_lk_name (v : string) (x : spinlock) : spinlock :=
  mk_spinlock (x.(locked)) v (x.(lk_cpu)).
Definition set_lk_cpu (v : option nat) (x : spinlock) : spinlock :=
  mk_spinlock (x.(locked)) (x.(lk_name)) v.

(** struct cpu: the fields the kernel's control flow reads or switchuvm() sets per process. *)
Record cpu : Type := mk_cpu {
  apicid : Z;  (* local APIC ID *)
  ncli : Z;  (* depth of pushcli nesting *)
  intena : bool;  (* were interrupts enabled before pushcli? *)
  cproc : option nat;  (* the process running on this cpu or null *)
  esp0 : Z;  (* ts.esp0: kernel stack for interrupts *)
}.

Definition set_apicid (v : Z) (x : cpu) : cpu :=
  mk_cpu v (x.(ncli)) (x.(intena)) (x.(cproc)) (x.(esp0)).
Definition set_ncli (v : Z) (x : cpu) : cpu :=
  mk_cpu (x.(apicid)) v (x.(intena)) (x.(cproc)) (x.(esp0)).
Definition set_intena (v : bool) (x : cpu) : cpu :=
  mk_cpu (x.(apicid)) (x.(ncli)) v (x.(cproc)) (x.(esp0)).
Definition set_cproc (v : option nat) (x : cpu) : cpu :=
  mk_cpu (x.(apicid)) (x.(ncli)) (x.(intena)) v (x.(esp0)).
Definition set_esp0 (v : Z) (x : cpu) : cpu :=
  mk_cpu (x.(apicid)) (x.(ncli)) (x.(intena)) (x.(cproc)) v.

(** The processors' registers, struct cpu cpus[] and every spin lock. *)
Record machine : Type := mk_machine {
  lapic : Z;  (* lapicid() of the processor that executes *)
  eflags_if : Z → bool;  (* FL_IF of the processor with a given APIC id *)
  cr3 : Z → Z;  (* page directory register, per APIC id *)
  cpus : list cpu;  (* cpus[0..ncpu-1] *)
  locks : lockid → spinlock;
}.

Definition set_lapic (v : Z) (x : machine) : machine :=
  mk_machine v (x.(eflags_if)) (x.(cr3)) (x.(cpus)) (x.(locks)).
Definition set_eflags_if (v : Z → bool) (x : machine) : machine :=
  mk_machine (x.(lapic)) v (x.(cr3)) (x.(cpus)) (x.(locks)).
Definition set_cr3 (v : Z → Z) (x : machine) : machine :=
  mk_machine (x.(lapic)) (x.(eflags_if)) v (x.(cpus)) (x.(locks)).
Definition set_cpus (v : list cpu) (x : machine) : machine :=
  mk_machine (x.(lapic)) (x.(eflags_if)) (x.(cr3)) v (x.(locks)).
Definition set_locks (v : lockid → spinlock) (x : machine) : machine :=
  mk_machine (x.(lapic)) (x.(eflags_if)) (x.(cr3)) (x.(cpus)) v.

(** ** Processes *)

Inductive procstate : Type := UNUSED | EMBRYO | SLEEPING | RUNNABLE | RUNNING | ZOMBIE.

#[export] Instance procstate_eq_dec : EqDecision procstate.
Proof. solve_decision. Defined.

(** struct trapframe (the padding words are left out). *)
Record trapframe : Type := mk_trapframe {
  tf_edi : Z;
  tf_esi : Z;
  tf_ebp : Z;
  tf_oesp : Z;
  tf_ebx : Z;
  tf_edx : Z;
  tf_ecx : Z;
  tf_eax : Z;
  tf_gs : Z;
  tf_fs : Z;
  tf_es : Z;
  tf_ds : Z;
  tf_trapno : Z;
  tf_err : Z;
  tf_eip : Z;
  tf_cs : Z;
  tf_eflags : Z;
  tf_esp : Z;
  tf_ss : Z;
}.

Definition set_tf_edi (v : Z) (x : trapframe) : trapframe :=
  mk_trapframe v (x.(tf_esi)) (x.(tf_ebp)) (x.(tf_oesp)) (x.(tf_ebx)) (x.(tf_edx)) (x.(tf_ecx))
    (x.(tf_eax)) (x.(tf_gs)) (x.(tf_fs)) (x.(tf_es)) (x.(tf_ds)) (x.(tf_trapno))
    (x.(tf_err)) (x.(tf_eip)) (x.(tf_cs)) (x.(tf_eflags)) (x.(tf_esp)) (x.(tf_ss)).
Definition set_tf_esi (v : Z) (x : trapframe) : trapframe :=
  mk_trapframe (x.(tf_edi)) v (x.(tf_ebp)) (x.(tf_oesp)) (x.(tf_ebx)) (x.(tf_edx)) (x.(tf_ecx))
    (x.(tf_eax)) (x.(tf_gs)) (x.(tf_fs)) (x.(tf_es)) (x.(tf_ds)) (x.(tf_trapno))
    (x.(tf_err)) (x.(tf_eip)) (x.(tf_cs)) (x.(tf_eflags)) (x.(tf_esp)) (x.(tf_ss)).
Definition set_tf_ebp (v : Z) (x : trapframe) : trapframe :=
  mk_trapframe (x.(tf_edi)) (x.(tf_esi)) v (x.(tf_oesp)) (x.(tf_ebx)) (x.(tf_edx)) (x.(tf_ecx))
    (x.(tf_eax)) (x.(tf_gs)) (x.(tf_fs)) (x.(tf_es)) (x.(tf_ds)) (x.(tf_trapno))
    (x.(tf_err)) (x.(tf_eip)) (x.(tf_cs)) (x.(tf_eflags)) (x.(tf_esp)) (x.(tf_ss)).
Definition set_tf_oesp (v : Z) (x : trapframe) : trapframe :=
  mk_trapframe (x.(tf_edi)) (x.(tf_esi)) (x.(tf_ebp)) v (x.(tf_ebx)) (x.(tf_edx)) (x.(tf_ecx))
    (x.(tf_eax)) (x.(tf_gs)) (x.(tf_fs)) (x.(tf_es)) (x.(tf_ds)) (x.(tf_trapno))
    (x.(tf_err)) (x.(tf_eip)) (x.(tf_cs)) (x.(tf_eflags)) (x.(tf_esp)) (x.(tf_ss)).
Definition set_tf_ebx (v : Z) (x : trapframe) : trapframe :=
  mk_trapframe (x.(tf_edi)) (x.(tf_esi)) (x.(tf_ebp)) (x.(tf_oesp)) v (x.(tf_edx)) (x.(tf_ecx))
    (x.(tf_eax)) (x.(tf_gs)) (x.(tf_fs)) (x.(tf_es)) (x.(tf_ds)) (x.(tf_trapno))
    (x.(tf_err)) (x.(tf_eip)) (x.(tf_cs)) (x.(tf_eflags)) (x.(tf_esp)) (x.(tf_ss)).
Definition set_tf_edx (v : Z) (x : trapframe) : trapframe :=
  mk_trapframe (x.(tf_edi)) (x.(tf_esi)) (x.(tf_ebp)) (x.(tf_oesp)) (x.(tf_ebx)) v (x.(tf_ecx))
    (x.(tf_eax)) (x.(tf_gs)) (x.(tf_fs)) (x.(tf_es)) (x.(tf_ds)) (x.(tf_trapno))
    (x.(tf_err)) (x.(tf_eip)) (x.(tf_cs)) (x.(tf_eflags)) (x.(tf_esp)) (x.(tf_ss)).
Definition set_tf_ecx (v : Z) (x : trapframe) : trapframe :=
  mk_trapframe (x.(tf_edi)) (x.(tf_esi)) (x.(tf_ebp)) (x.(tf_oesp)) (x.(tf_ebx)) (x.(tf_edx)) v
    (x.(tf_eax)) (x.(tf_gs)) (x.(tf_fs)) (x.(tf_es)) (x.(tf_ds)) (x.(tf_trapno))
    (x.(tf_err)) (x.(tf_eip)) (x.(tf_cs)) (x.(tf_eflags)) (x.(tf_esp)) (x.(tf_ss)).
Definition set_tf_eax (v : Z) (x : trapframe) : trapframe :=
  mk_trapframe (x.(tf_edi)) (x.(tf_esi)) (x.(tf_ebp)) (x.(tf_oesp)) (x.(tf_ebx)) (x.(tf_edx))
    (x.(tf_ecx)) v (x.(tf_gs)) (x.(tf_fs)) (x.(tf_es)) (x.(tf_ds)) (x.(tf_trapno))
    (x.(tf_err)) (x.(tf_eip)) (x.(tf_cs)) (x.(tf_eflags)) (x.(tf_esp)) (x.(tf_ss)).
Definition set_tf_gs (v : Z) (x : trapframe) : trapframe :=
  mk_trapframe (x.(tf_edi)) (x.(tf_esi)) (x.(tf_ebp)) (x.(tf_oesp)) (x.(tf_ebx)) (x.(tf_edx))
    (x.(tf_ecx)) (x.(tf_eax)) v (x.(tf_fs)) (x.(tf_es)) (x.(tf_ds)) (x.(tf_trapno))
    (x.(tf_err)) (x.(tf_eip)) (x.(tf_cs)) (x.(tf_eflags)) (x.(tf_esp)) (x.(tf_ss)).
Definition set_tf_fs (v : Z) (x : trapframe) : trapframe :=
  mk_trapframe (x.(tf_edi)) (x.(tf_esi)) (x.(tf_ebp)) (x.(tf_oesp)) (x.(tf_ebx)) (x.(tf_edx))
    (x.(tf_ecx)) (x.(tf_eax)) (x.(tf_gs)) v (x.(tf_es)) (x.(tf_ds)) (x.(tf_trapno))
    (x.(tf_err)) (x.(tf_eip)) (x.(tf_cs)) (x.(tf_eflags)) (x.(tf_esp)) (x.(tf_ss)).
Definition set_tf_es (v : Z) (x : trapframe) : trapframe :=
  mk_trapframe (x.(tf_edi)) (x.(tf_esi)) (x.(tf_ebp)) (x.(tf_oesp)) (x.(tf_ebx)) (x.(tf_edx))
    (x.(tf_ecx)) (x.(tf_eax)) (x.(tf_gs)) (x.(tf_fs)) v (x.(tf_ds)) (x.(tf_trapno))
    (x.(tf_err)) (x.(tf_eip)) (x.(tf_cs)) (x.(tf_eflags)) (x.(tf_esp)) (x.(tf_ss)).
Definition set_tf_ds (v : Z) (x : trapframe) : trapframe :=
  mk_trapframe (x.(tf_edi)) (x.(tf_esi)) (x.(tf_ebp)) (x.(tf_oesp)) (x.(tf_ebx)) (x.(tf_edx))
    (x.(tf_ecx)) (x.(tf_eax)) (x.(tf_gs)) (x.(tf_fs)) (x.(tf_es)) v (x.(tf_trapno))
    (x.(tf_err)) (x.(tf_eip)) (x.(tf_cs)) (x.(tf_eflags)) (x.(tf_esp)) (x.(tf_ss)).
Definition set_tf_trapno (v : Z) (x : trapframe) : trapframe :=
  mk_trapframe (x.(tf_edi)) (x.(tf_esi)) (x.(tf_ebp)) (x.(tf_oesp)) (x.(tf_ebx)) (x.(tf_edx))
    (x.(tf_ecx)) (x.(tf_eax)) (x.(tf_gs)) (x.(tf_fs)) (x.(tf_es)) (x.(tf_ds)) v
    (x.(tf_err)) (x.(tf_eip)) (x.(tf_cs)) (x.(tf_eflags)) (x.(tf_esp)) (x.(tf_ss)).
Definition set_tf_err (v : Z) (x : trapframe) : trapframe :=
  mk_trapframe (x.(tf_edi)) (x.(tf_esi)) (x.(tf_ebp)) (x.(tf_oesp)) (x.(tf_ebx)) (x.(tf_edx))
    (x.(tf_ecx)) (x.(tf_eax)) (x.(tf_gs)) (x.(tf_fs)) (x.(tf_es)) (x.(tf_ds))
    (x.(tf_trapno)) v (x.(tf_eip)) (x.(tf_cs)) (x.(tf_eflags)) (x.(tf_esp)) (x.(tf_ss)).
Definition set_tf_eip (v : Z) (x : trapframe) : trapframe :=
  mk_trapframe (x.(tf_edi)) (x.(tf_esi)) (x.(tf_ebp)) (x.(tf_oesp)) (x.(tf_ebx)) (x.(tf_edx))
    (x.(tf_ecx)) (x.(tf_eax)) (x.(tf_gs)) (x.(tf_fs)) (x.(tf_es)) (x.(tf_ds))
    (x.(tf_trapno)) (x.(tf_err)) v (x.(tf_cs)) (x.(tf_eflags)) (x.(tf_esp)) (x.(tf_ss)).
Definition set_tf_cs (v : Z) (x : trapframe) : trapframe :=
  mk_trapframe (x.(tf_edi)) (x.(tf_esi)) (x.(tf_ebp)) (x.(tf_oesp)) (x.(tf_ebx)) (x.(tf_edx))
    (x.(tf_ecx)) (x.(tf_eax)) (x.(tf_gs)) (x.(tf_fs)) (x.(tf_es)) (x.(tf_ds))
    (x.(tf_trapno)) (x.(tf_err)) (x.(tf_eip)) v (x.(tf_eflags)) (x.(tf_esp)) (x.(tf_ss)).
Definition set_tf_eflags (v : Z) (x : trapframe) : trapframe :=
  mk_trapframe (x.(tf_edi)) (x.(tf_esi)) (x.(tf_ebp)) (x.(tf_oesp)) (x.(tf_ebx)) (x.(tf_edx))
    (x.(tf_ecx)) (x.(tf_eax)) (x.(tf_gs)) (x.(tf_fs)) (x.(tf_es)) (x.(tf_ds))
    (x.(tf_trapno)) (x.(tf_err)) (x.(tf_eip)) (x.(tf_cs)) v (x.(tf_esp)) (x.(tf_ss)).
Definition set_tf_esp (v : Z) (x : trapframe) : trapframe :=
  mk_trapframe (x.(tf_edi)) (x.(tf_esi)) (x.(tf_ebp)) (x.(tf_oesp)) (x.(tf_ebx)) (x.(tf_edx))
    (x.(tf_ecx)) (x.(tf_eax)) (x.(tf_gs)) (x.(tf_fs)) (x.(tf_es)) (x.(tf_ds))
    (x.(tf_trapno)) (x.(tf_err)) (x.(tf_eip)) (x.(tf_cs)) (x.(tf_eflags)) v (x.(tf_ss)).
Definition set_tf_ss (v : Z) (x : trapframe) : trapframe :=
  mk_trapframe (x.(tf_edi)) (x.(tf_esi)) (x.(tf_ebp)) (x.(tf_oesp)) (x.(tf_ebx)) (x.(tf_edx))
    (x.(tf_ecx)) (x.(tf_eax)) (x.(tf_gs)) (x.(tf_fs)) (x.(tf_es)) (x.(tf_ds))
    (x.(tf_trapno)) (x.(tf_err)) (x.(tf_eip)) (x.(tf_cs)) (x.(tf_eflags)) (x.(tf_esp)) v.

Definition zero_tf : trapframe :=
  mk_trapframe 0 0 0 0 0 0 0 0 0 0 0 0 0 0 0 0 0 0 0.

(** A saved kernel context: where swtch() will return to in this thread, with
    the local variable intena of sched() when it is inside sched(). A process
    that was never run returns to forkret(). *)
Inductive context_t : Type :=
| CtxNone
| CtxForkret
| CtxYield (intena : bool)
| CtxSleep (lk : lockid) (intena : bool)
| CtxExit (intena : bool).

(** struct proc. *)
Record proc : Type := mk_proc {
  sz : Z;  (* size of process memory (bytes) *)
  pgdir : Z;  (* page table *)
  kstack : Z;  (* bottom of kernel stack for this process *)
  state : procstate;  (* process state *)
  pid : Z;  (* process ID *)
  parent : option nat;  (* parent process *)
  tf : trapframe;  (* trap frame for current syscall *)
  context : context_t;  (* swtch() here to run process *)
  chan : chan_t;  (* if non-zero, sleeping on chan *)
  killed : Z;  (* if non-zero, have been killed *)
  ofile : list (option nat);  (* open files *)
  cwd : option nat;  (* current directory *)
  name : list Z;  (* process name (debugging) *)
  prio : Z;  (* scheduling priority (uint) *)
}.

Definition set_sz (v : Z) (x : proc) : proc :=
  mk_proc v (x.(pgdir)) (x.(kstack)) (x.(state)) (x.(pid)) (x.(parent)) (x.(tf)) (x.(context))
    (x.(chan)) (x.(killed)) (x.(ofile)) (x.(cwd)) (x.(name)) (x.(prio)).
Definition set_pgdir (v : Z) (x : proc) : proc :=
  mk_proc (x.(sz)) v (x.(kstack)) (x.(state)) (x.(pid)) (x.(parent)) (x.(tf)) (x.(context))
    (x.(chan)) (x.(killed)) (x.(ofile)) (x.(cwd)) (x.(name)) (x.(prio)).
Definition set_kstack (v : Z) (x : proc) : proc :=
  mk_proc (x.(sz)) (x.(pgdir)) v (x.(state)) (x.(pid)) (x.(parent)) (x.(tf)) (x.(context))
    (x.(chan)) (x.(killed)) (x.(ofile)) (x.(cwd)) (x.(name)) (x.(prio)).
Definition set_state (v : procstate) (x : proc) : proc :=
  mk_proc (x.(sz)) (x.(pgdir)) (x.(kstack)) v (x.(pid)) (x.(parent)) (x.(tf)) (x.(context))
    (x.(chan)) (x.(killed)) (x.(ofile)) (x.(cwd)) (x.(name)) (x.(prio)).
Definition set_pid (v : Z) (x : proc) : proc :=
  mk_proc (x.(sz)) (x.(pgdir)) (x.(kstack)) (x.(state)) v (x.(parent)) (x.(tf)) (x.(context))
    (x.(chan)) (x.(killed)) (x.(ofile)) (x.(cwd)) (x.(name)) (x.(prio)).
Definition set_parent (v : option nat) (x : proc) : proc :=
  mk_proc (x.(sz)) (x.(pgdir)) (x.(kstack)) (x.(state)) (x.(pid)) v (x.(tf)) (x.(context))
    (x.(chan)) (x.(killed)) (x.(ofile)) (x.(cwd)) (x.(name)) (x.(prio)).
Definition set_tf (v : trapframe) (x : proc) : proc :=
  mk_proc (x.(sz)) (x.(pgdir)) (x.(kstack)) (x.(state)) (x.(pid)) (x.(parent)) v (x.(context))
    (x.(chan)) (x.(killed)) (x.(ofile)) (x.(cwd)) (x.(name)) (x.(prio)).
Definition set_context (v : context_t) (x : proc) : proc :=
  mk_proc (x.(sz)) (x.(pgdir)) (x.(kstack)) (x.(state)) (x.(pid)) (x.(parent)) (x.(tf)) v
    (x.(chan)) (x.(killed)) (x.(ofile)) (x.(cwd)) (x.(name)) (x.(prio)).
Definition set_chan (v : chan_t) (x : proc) : proc :=
  mk_proc (x.(sz)) (x.(pgdir)) (x.(kstack)) (x.(state)) (x.(pid)) (x.(parent)) (x.(tf))
    (x.(context)) v (x.(killed)) (x.(ofile)) (x.(cwd)) (x.(name)) (x.(prio)).
Definition set_killed (v : Z) (x : proc) : proc :=
  mk_proc (x.(sz)) (x.(pgdir)) (x.(kstack)) (x.(state)) (x.(pid)) (x.(parent)) (x.(tf))
    (x.(context)) (x.(chan)) v (x.(ofile)) (x.(cwd)) (x.(name)) (x.(prio)).
Definition set_ofile (v : list (option nat)) (x : proc) : proc :=
  mk_proc (x.(sz)) (x.(pgdir)) (x.(kstack)) (x.(state)) (x.(pid)) (x.(parent)) (x.(tf))
    (x.(context)) (x.(chan)) (x.(killed)) v (x.(cwd)) (x.(name)) (x.(prio)).
Definition set_cwd (v : option nat) (x : proc) : proc :=
  mk_proc (x.(sz)) (x.(pgdir)) (x.(kstack)) (x.(state)) (x.(pid)) (x.(parent)) (x.(tf))
    (x.(context)) (x.(chan)) (x.(killed)) (x.(ofile)) v (x.(name)) (x.(prio)).
Definition set_name (v : list Z) (x : proc) : proc :=
  mk_proc (x.(sz)) (x.(pgdir)) (x.(kstack)) (x.(state)) (x.(pid)) (x.(parent)) (x.(tf))
    (x.(context)) (x.(chan)) (x.(killed)) (x.(ofile)) (x.(cwd)) v (x.(prio)).
Definition set_prio (v : Z) (x : proc) : proc :=
  mk_proc (x.(sz)) (x.(pgdir)) (x.(kstack)) (x.(state)) (x.(pid)) (x.(parent)) (x.(tf))
    (x.(context)) (x.(chan)) (x.(killed)) (x.(ofile)) (x.(cwd)) (x.(name)) v.

Definition zero_proc : proc :=
  mk_proc 0 0 0 UNUSED 0 None zero_tf CtxNone ChNull 0
          (replicate NOFILE None) None (replicate 16%nat 0) 0.

(** The process table and the static variables of proc.c. *)
Record ptable : Type := mk_ptable {
  procs : list proc;  (* ptable.proc[NPROC] *)
  nextpid : Z;
  initproc : option nat;
  first : bool;  (* the static variable of forkret() *)
}.

Definition set_procs (v : list proc) (x : ptable) : ptable :=
  mk_ptable v (x.(nextpid)) (x.(initproc)) (x.(first)).
Definition set_nextpid (v : Z) (x : ptable) : ptable :=
  mk_ptable (x.(procs)) v (x.(initproc)) (x.(first)).
Definition set_initproc (v : option nat) (x : ptable) : ptable :=
  mk_ptable (x.(procs)) (x.(nextpid)) v (x.(first)).
Definition set_first (v : bool) (x : ptable) : ptable :=
  mk_ptable (x.(procs)) (x.(nextpid)) (x.(initproc)) v.

Lemma set_procs_id (x : ptable) : set_procs x.(procs) x = x.
Proof. by destruct x. Qed.

Lemma set_nextpid_id (x : ptable) : set_nextpid x.(nextpid) x = x.
Proof. by destruct x. Qed.

Lemma set_initproc_id (x : ptable) : set_initproc x.(initproc) x = x.
Proof. by destruct x. Qed.

Lemma set_first_id (x : ptable) : set_first x.(first) x = x.
Proof. by destruct x. Qed.

(** ** Memory, devices, pipes and files *)

(** struct kmem of kalloc.c; the lock is [LKmem]. *)
Record kmem_t : Type := mk_kmem {
  use_lock : Z;
  freelist : Z;  (* address of the first free page, 0 if none *)
}.

Definition set_use_lock (v : Z) (x : kmem_t) : kmem_t :=
  mk_kmem v (x.(freelist)).
Definition set_freelist (v : Z) (x : kmem_t) : kmem_t :=
  mk_kmem (x.(use_lock)) v.

Lemma set_use_lock_id (x : kmem_t) : set_use_lock x.(use_lock) x = x.
Proof. by destruct x. Qed.

Lemma set_freelist_id (x : kmem_t) : set_freelist x.(freelist) x = x.
Proof. by destruct x. Qed.

(** The CMOS real-time clock, a device: a function of the number of reads done. *)
Record rtc_t : Type := mk_rtc {
  rtc_reads : nat;  (* CMOS reads done so far *)
  rtc_port : nat → Z → Z;  (* what the n-th read of a register returns *)
}.

Definition set_rtc_reads (v : nat) (x : rtc_t) : rtc_t :=
  mk_rtc v (x.(rtc_port)).
Definition set_rtc_port (v : nat → Z → Z) (x : rtc_t) : rtc_t :=
  mk_rtc (x.(rtc_reads)) v.

(** struct pipe; its lock is [LPipe]. *)
Record pipe : Type := mk_pipe {
  p_data : list Z;  (* data[PIPESIZE] *)
  nread : Z;  (* number of bytes read *)
  nwrite : Z;  (* number of bytes written *)
  readopen : Z;  (* read fd is still open *)
  writeopen : Z;  (* write fd is still open *)
}.

Definition set_p_data (v : list Z) (x : pipe) : pipe :=
  mk_pipe v (x.(nread)) (x.(nwrite)) (x.(readopen)) (x.(writeopen)).
Definition set_nread (v : Z) (x : pipe) : pipe :=
  mk_pipe (x.(p_data)) v (x.(nwrite)) (x.(readopen)) (x.(writeopen)).
Definition set_nwrite (v : Z) (x : pipe) : pipe :=
  mk_pipe (x.(p_data)) (x.(nread)) v (x.(readopen)) (x.(writeopen)).
Definition set_readopen (v : Z) (x : pipe) : pipe :=
  mk_pipe (x.(p_data)) (x.(nread)) (x.(nwrite)) v (x.(writeopen)).
Definition set_writeopen (v : Z) (x : pipe) : pipe :=
  mk_pipe (x.(p_data)) (x.(nread)) (x.(nwrite)) (x.(readopen)) v.

(** A file is nothing, one end of a pipe or an open inode. *)
Inductive ftype : Type := FD_NONE | FD_PIPE | FD_INODE.

#[export] Instance ftype_eq_dec : EqDecision ftype.
Proof. solve_decision. Defined.

(** struct file. *)
Record file : Type := mk_file {
  f_type : ftype;
  f_ref : Z;  (* reference count *)
  f_readable : Z;
  f_writable : Z;
  f_pipe : Z;  (* the page that holds the struct pipe *)
  f_ip : option nat;
  f_off : Z;
}.

Definition set_f_type (v : ftype) (x : file) : file :=
  mk_file v (x.(f_ref)) (x.(f_readable)) (x.(f_writable)) (x.(f_pipe)) (x.(f_ip)) (x.(f_off)).
Definition set_f_ref (v : Z) (x : file) : file :=
  mk_file (x.(f_type)) v (x.(f_readable)) (x.(f_writable)) (x.(f_pipe)) (x.(f_ip)) (x.(f_off)).
Definition set_f_readable (v : Z) (x : file) : file :=
  mk_file (x.(f_type)) (x.(f_ref)) v (x.(f_writable)) (x.(f_pipe)) (x.(f_ip)) (x.(f_off)).
Definition set_f_writable (v : Z) (x : file) : file :=
  mk_file (x.(f_type)) (x.(f_ref)) (x.(f_readable)) v (x.(f_pipe)) (x.(f_ip)) (x.(f_off)).
Definition set_f_pipe (v : Z) (x : file) : file :=
  mk_file (x.(f_type)) (x.(f_ref)) (x.(f_readable)) (x.(f_writable)) v (x.(f_ip)) (x.(f_off)).
Definition set_f_ip (v : option nat) (x : file) : file :=
  mk_file (x.(f_type)) (x.(f_ref)) (x.(f_readable)) (x.(f_writable)) (x.(f_pipe)) v
    (x.(f_off)).
Definition set_f_off (v : Z) (x : file) : file :=
  mk_file (x.(f_type)) (x.(f_ref)) (x.(f_readable)) (x.(f_writable)) (x.(f_pipe)) (x.(f_ip)) v.

(** console.c and uart.c: the static variables and the two output devices. *)
Record cons_t : Type := mk_cons {
  locking : Z;  (* cons.locking *)
  panicked : Z;
  uart : Z;  (* is there a uart? *)
  uart_out : list Z;  (* bytes sent to the serial port, oldest first *)
  crt : Z → Z;  (* CGA memory, a 16-bit cell per index *)
  crt_pos : Z;  (* the cursor register of the CRT controller *)
  in_buf : list Z;  (* input.buf[INPUT_BUF] *)
  in_r : Z;  (* read index *)
  in_w : Z;  (* write index *)
  in_e : Z;  (* edit index *)
}.

Definition set_locking (v : Z) (x : cons_t) : cons_t :=
  mk_cons v (x.(panicked)) (x.(uart)) (x.(uart_out)) (x.(crt)) (x.(crt_pos)) (x.(in_buf))
    (x.(in_r)) (x.(in_w)) (x.(in_e)).
Definition set_panicked (v : Z) (x : cons_t) : cons_t :=
  mk_cons (x.(locking)) v (x.(uart)) (x.(uart_out)) (x.(crt)) (x.(crt_pos)) (x.(in_buf))
    (x.(in_r)) (x.(in_w)) (x.(in_e)).
Definition set_uart (v : Z) (x : cons_t) : cons_t :=
  mk_cons (x.(locking)) (x.(panicked)) v (x.(uart_out)) (x.(crt)) (x.(crt_pos)) (x.(in_buf))
    (x.(in_r)) (x.(in_w)) (x.(in_e)).
Definition set_uart_out (v : list Z) (x : cons_t) : cons_t :=
  mk_cons (x.(locking)) (x.(panicked)) (x.(uart)) v (x.(crt)) (x.(crt_pos)) (x.(in_buf))
    (x.(in_r)) (x.(in_w)) (x.(in_e)).
Definition set_crt (v : Z → Z) (x : cons_t) : cons_t :=
  mk_cons (x.(locking)) (x.(panicked)) (x.(uart)) (x.(uart_out)) v (x.(crt_pos)) (x.(in_buf))
    (x.(in_r)) (x.(in_w)) (x.(in_e)).
Definition set_crt_pos (v : Z) (x : cons_t) : cons_t :=
  mk_cons (x.(locking)) (x.(panicked)) (x.(uart)) (x.(uart_out)) (x.(crt)) v (x.(in_buf))
    (x.(in_r)) (x.(in_w)) (x.(in_e)).
Definition set_in_buf (v : list Z) (x : cons_t) : cons_t :=
  mk_cons (x.(locking)) (x.(panicked)) (x.(uart)) (x.(uart_out)) (x.(crt)) (x.(crt_pos)) v
    (x.(in_r)) (x.(in_w)) (x.(in_e)).
Definition set_in_r (v : Z) (x : cons_t) : cons_t :=
  mk_cons (x.(locking)) (x.(panicked)) (x.(uart)) (x.(uart_out)) (x.(crt)) (x.(crt_pos))
    (x.(in_buf)) v (x.(in_w)) (x.(in_e)).
Definition set_in_w (v : Z) (x : cons_t) : cons_t :=
  mk_cons (x.(locking)) (x.(panicked)) (x.(uart)) (x.(uart_out)) (x.(crt)) (x.(crt_pos))
    (x.(in_buf)) (x.(in_r)) v (x.(in_e)).
Definition set_in_e (v : Z) (x : cons_t) : cons_t :=
  mk_cons (x.(locking)) (x.(panicked)) (x.(uart)) (x.(uart_out)) (x.(crt)) (x.(crt_pos))
    (x.(in_buf)) (x.(in_r)) (x.(in_w)) v.

Lemma set_locking_id (x : cons_t) : set_locking x.(locking) x = x.
Proof. by destruct x. Qed.

Lemma set_panicked_id (x : cons_t) : set_panicked x.(panicked) x = x.
Proof. by destruct x. Qed.

Lemma set_uart_id (x : cons_t) : set_uart x.(uart) x = x.
Proof. by destruct x. Qed.

Lemma set_uart_out_id (x : cons_t) : set_uart_out x.(uart_out) x = x.
Proof. by destruct x. Qed.

Lemma set_crt_id (x : cons_t) : set_crt x.(crt) x = x.
Proof. by destruct x. Qed.

Lemma set_crt_pos_id (x : cons_t) : set_crt_pos x.(crt_pos) x = x.
Proof. by destruct x. Qed.

Lemma set_in_buf_id (x : cons_t) : set_in_buf x.(in_buf) x = x.
Proof. by destruct x. Qed.

Lemma set_in_r_id (x : cons_t) : set_in_r x.(in_r) x = x.
Proof. by destruct x. Qed.

Lemma set_in_w_id (x : cons_t) : set_in_w x.(in_w) x = x.
Proof. by destruct x. Qed.

Lemma set_in_e_id (x : cons_t) : set_in_e x.(in_e) x = x.
Proof. by destruct x. Qed.

(** ** The file system's state *)

(** struct sleeplock; its spin lock is [LSleep]. *)
Record sleeplock : Type := mk_sleeplock {
  sl_locked : Z;  (* is the lock held? *)
  sl_name : string;
  sl_pid : Z;  (* process holding lock *)
}.

Definition set_sl_locked (v : Z) (x : sleeplock) : sleeplock :=
  mk_sleeplock v (x.(sl_name)) (x.(sl_pid)).
Definition set_sl_name (v : string) (x : sleeplock) : sleeplock :=
  mk_sleeplock (x.(sl_locked)) v (x.(sl_pid)).
Definition set_sl_pid (v : Z) (x : sleeplock) : sleeplock :=
  mk_sleeplock (x.(sl_locked)) (x.(sl_name)) v.

(** A pointer of the buffer list: the head or one of the buffers. *)
Inductive bufptr : Type := BHead | BBuf (n : nat).

#[export] Instance bufptr_eq_dec : EqDecision bufptr.
Proof. solve_decision. Defined.

(** struct buf; its sleep lock is [SBuf]. *)
Record buf : Type := mk_buf {
  b_flags : Z;
  b_dev : Z;
  b_blockno : Z;
  b_refcnt : Z;
  b_prev : bufptr;  (* LRU cache list *)
  b_next : bufptr;
  b_qnext : option nat;  (* disk queue *)
  b_data : list Z;  (* data[BSIZE] *)
}.

Definition set_b_flags (v : Z) (x : buf) : buf :=
  mk_buf v (x.(b_dev)) (x.(b_blockno)) (x.(b_refcnt)) (x.(b_prev)) (x.(b_next)) (x.(b_qnext))
    (x.(b_data)).
Definition set_b_dev (v : Z) (x : buf) : buf :=
  mk_buf (x.(b_flags)) v (x.(b_blockno)) (x.(b_refcnt)) (x.(b_prev)) (x.(b_next))
    (x.(b_qnext)) (x.(b_data)).
Definition set_b_blockno (v : Z) (x : buf) : buf :=
  mk_buf (x.(b_flags)) (x.(b_dev)) v (x.(b_refcnt)) (x.(b_prev)) (x.(b_next)) (x.(b_qnext))
    (x.(b_data)).
Definition set_b_refcnt (v : Z) (x : buf) : buf :=
  mk_buf (x.(b_flags)) (x.(b_dev)) (x.(b_blockno)) v (x.(b_prev)) (x.(b_next)) (x.(b_qnext))
    (x.(b_data)).
Definition set_b_prev (v : bufptr) (x : buf) : buf :=
  mk_buf (x.(b_flags)) (x.(b_dev)) (x.(b_blockno)) (x.(b_refcnt)) v (x.(b_next))
    (x.(b_qnext)) (x.(b_data)).
Definition set_b_next (v : bufptr) (x : buf) : buf :=
  mk_buf (x.(b_flags)) (x.(b_dev)) (x.(b_blockno)) (x.(b_refcnt)) (x.(b_prev)) v
    (x.(b_qnext)) (x.(b_data)).
Definition set_b_qnext (v : option nat) (x : buf) : buf :=
  mk_buf (x.(b_flags)) (x.(b_dev)) (x.(b_blockno)) (x.(b_refcnt)) (x.(b_prev)) (x.(b_next)) v
    (x.(b_data)).
Definition set_b_data (v : list Z) (x : buf) : buf :=
  mk_buf (x.(b_flags)) (x.(b_dev)) (x.(b_blockno)) (x.(b_refcnt)) (x.(b_prev)) (x.(b_next))
    (x.(b_qnext)) v.

(** struct inode; its sleep lock is [SInode]. *)
Record inode : Type := mk_inode {
  i_dev : Z;
  i_inum : Z;
  i_ref : Z;  (* reference count *)
  i_valid : Z;  (* inode has been read from disk? *)
  i_type : Z;  (* copy of disk inode *)
  i_major : Z;
  i_minor : Z;
  i_nlink : Z;
  i_size : Z;
  i_addrs : list Z;  (* addrs[NDIRECT+1] *)
}.

Definition set_i_dev (v : Z) (x : inode) : inode :=
  mk_inode v (x.(i_inum)) (x.(i_ref)) (x.(i_valid)) (x.(i_type)) (x.(i_major)) (x.(i_minor))
    (x.(i_nlink)) (x.(i_size)) (x.(i_addrs)).
Definition set_i_inum (v : Z) (x : inode) : inode :=
  mk_inode (x.(i_dev)) v (x.(i_ref)) (x.(i_valid)) (x.(i_type)) (x.(i_major)) (x.(i_minor))
    (x.(i_nlink)) (x.(i_size)) (x.(i_addrs)).
Definition set_i_ref (v : Z) (x : inode) : inode :=
  mk_inode (x.(i_dev)) (x.(i_inum)) v (x.(i_valid)) (x.(i_type)) (x.(i_major)) (x.(i_minor))
    (x.(i_nlink)) (x.(i_size)) (x.(i_addrs)).
Definition set_i_valid (v : Z) (x : inode) : inode :=
  mk_inode (x.(i_dev)) (x.(i_inum)) (x.(i_ref)) v (x.(i_type)) (x.(i_major)) (x.(i_minor))
    (x.(i_nlink)) (x.(i_size)) (x.(i_addrs)).
Definition set_i_type (v : Z) (x : inode) : inode :=
  mk_inode (x.(i_dev)) (x.(i_inum)) (x.(i_ref)) (x.(i_valid)) v (x.(i_major)) (x.(i_minor))
    (x.(i_nlink)) (x.(i_size)) (x.(i_addrs)).
Definition set_i_major (v : Z) (x : inode) : inode :=
  mk_inode (x.(i_dev)) (x.(i_inum)) (x.(i_ref)) (x.(i_valid)) (x.(i_type)) v (x.(i_minor))
    (x.(i_nlink)) (x.(i_size)) (x.(i_addrs)).
Definition set_i_minor (v : Z) (x : inode) : inode :=
  mk_inode (x.(i_dev)) (x.(i_inum)) (x.(i_ref)) (x.(i_valid)) (x.(i_type)) (x.(i_major)) v
    (x.(i_nlink)) (x.(i_size)) (x.(i_addrs)).
Definition set_i_nlink (v : Z) (x : inode) : inode :=
  mk_inode (x.(i_dev)) (x.(i_inum)) (x.(i_ref)) (x.(i_valid)) (x.(i_type)) (x.(i_major))
    (x.(i_minor)) v (x.(i_size)) (x.(i_addrs)).
Definition set_i_size (v : Z) (x : inode) : inode :=
  mk_inode (x.(i_dev)) (x.(i_inum)) (x.(i_ref)) (x.(i_valid)) (x.(i_type)) (x.(i_major))
    (x.(i_minor)) (x.(i_nlink)) v (x.(i_addrs)).
Definition set_i_addrs (v : list Z) (x : inode) : inode :=
  mk_inode (x.(i_dev)) (x.(i_inum)) (x.(i_ref)) (x.(i_valid)) (x.(i_type)) (x.(i_major))
    (x.(i_minor)) (x.(i_nlink)) (x.(i_size)) v.

(** struct log. *)
Record log_t : Type := mk_log {
  lg_start : Z;
  lg_size : Z;
  lg_outstanding : Z;  (* how many FS sys calls are executing *)
  lg_committing : Z;  (* in commit(), please wait *)
  lg_dev : Z;
  lh_n : Z;  (* lh.n *)
  lh_block : list Z;  (* lh.block[LOGSIZE] *)
}.

Definition set_lg_start (v : Z) (x : log_t) : log_t :=
  mk_log v (x.(lg_size)) (x.(lg_outstanding)) (x.(lg_committing)) (x.(lg_dev)) (x.(lh_n))
    (x.(lh_block)).
Definition set_lg_size (v : Z) (x : log_t) : log_t :=
  mk_log (x.(lg_start)) v (x.(lg_outstanding)) (x.(lg_committing)) (x.(lg_dev)) (x.(lh_n))
    (x.(lh_block)).
Definition set_lg_outstanding (v : Z) (x : log_t) : log_t :=
  mk_log (x.(lg_start)) (x.(lg_size)) v (x.(lg_committing)) (x.(lg_dev)) (x.(lh_n))
    (x.(lh_block)).
Definition set_lg_committing (v : Z) (x : log_t) : log_t :=
  mk_log (x.(lg_start)) (x.(lg_size)) (x.(lg_outstanding)) v (x.(lg_dev)) (x.(lh_n))
    (x.(lh_block)).
Definition set_lg_dev (v : Z) (x : log_t) : log_t :=
  mk_log (x.(lg_start)) (x.(lg_size)) (x.(lg_outstanding)) (x.(lg_committing)) v (x.(lh_n))
    (x.(lh_block)).
Definition set_lh_n (v : Z) (x : log_t) : log_t :=
  mk_log (x.(lg_start)) (x.(lg_size)) (x.(lg_outstanding)) (x.(lg_committing)) (x.(lg_dev)) v
    (x.(lh_block)).
Definition set_lh_block (v : list Z) (x : log_t) : log_t :=
  mk_log (x.(lg_start)) (x.(lg_size)) (x.(lg_outstanding)) (x.(lg_committing)) (x.(lg_dev))
    (x.(lh_n)) v.

Lemma set_lg_start_id (x : log_t) : set_lg_start x.(lg_start) x = x.
Proof. by destruct x. Qed.

Lemma set_lg_size_id (x : log_t) : set_lg_size x.(lg_size) x = x.
Proof. by destruct x. Qed.

Lemma set_lg_outstanding_id (x : log_t) : set_lg_outstanding x.(lg_outstanding) x = x.
Proof. by destruct x. Qed.

Lemma set_lg_committing_id (x : log_t) : set_lg_committing x.(lg_committing) x = x.
Proof. by destruct x. Qed.

Lemma set_lg_dev_id (x : log_t) : set_lg_dev x.(lg_dev) x = x.
Proof. by destruct x. Qed.

Lemma set_lh_n_id (x : log_t) : set_lh_n x.(lh_n) x = x.
Proof. by destruct x. Qed.

Lemma set_lh_block_id (x : log_t) : set_lh_block x.(lh_block) x = x.
Proof. by destruct x. Qed.

(** struct superblock. *)
Record superblock : Type := mk_superblock {
  sb_size : Z;  (* size of file system image (blocks) *)
  sb_nblocks : Z;  (* number of data blocks *)
  sb_ninodes : Z;
  sb_nlog : Z;
  sb_logstart : Z;
  sb_inodestart : Z;
  sb_bmapstart : Z;
}.

Definition set_sb_size (v : Z) (x : superblock) : superblock :=
  mk_superblock v (x.(sb_nblocks)) (x.(sb_ninodes)) (x.(sb_nlog)) (x.(sb_logstart))
    (x.(sb_inodestart)) (x.(sb_bmapstart)).
Definition set_sb_nblocks (v : Z) (x : superblock) : superblock :=
  mk_superblock (x.(sb_size)) v (x.(sb_ninodes)) (x.(sb_nlog)) (x.(sb_logstart)) (x.(sb_inodestart))
    (x.(sb_bmapstart)).
Definition set_sb_ninodes (v : Z) (x : superblock) : superblock :=
  mk_superblock (x.(sb_size)) (x.(sb_nblocks)) v (x.(sb_nlog)) (x.(sb_logstart)) (x.(sb_inodestart))
    (x.(sb_bmapstart)).
Definition set_sb_nlog (v : Z) (x : superblock) : superblock :=
  mk_superblock (x.(sb_size)) (x.(sb_nblocks)) (x.(sb_ninodes)) v (x.(sb_logstart))
    (x.(sb_inodestart)) (x.(sb_bmapstart)).
Definition set_sb_logstart (v : Z) (x : superblock) : superblock :=
  mk_superblock (x.(sb_size)) (x.(sb_nblocks)) (x.(sb_ninodes)) (x.(sb_nlog)) v (x.(sb_inodestart))
    (x.(sb_bmapstart)).
Definition set_sb_inodestart (v : Z) (x : superblock) : superblock :=
  mk_superblock (x.(sb_size)) (x.(sb_nblocks)) (x.(sb_ninodes)) (x.(sb_nlog)) (x.(sb_logstart)) v
    (x.(sb_bmapstart)).
Definition set_sb_bmapstart (v : Z) (x : superblock) : superblock :=
  mk_superblock (x.(sb_size)) (x.(sb_nblocks)) (x.(sb_ninodes)) (x.(sb_nlog)) (x.(sb_logstart))
    (x.(sb_inodestart)) v.

(** The disk of memide.c. *)
Record disk_t : Type := mk_disk {
  disksize : Z;  (* in blocks *)
  dk_block : Z → list Z;  (* contents of each block *)
  dk_writes : list (Z * list Z);  (* every block write done so far, oldest first *)
}.

Definition set_disksize (v : Z) (x : disk_t) : disk_t :=
  mk_disk v (x.(dk_block)) (x.(dk_writes)).
Definition set_dk_block (v : Z → list Z) (x : disk_t) : disk_t :=
  mk_disk (x.(disksize)) v (x.(dk_writes)).
Definition set_dk_writes (v : list (Z * list Z)) (x : disk_t) : disk_t :=
  mk_disk (x.(disksize)) (x.(dk_block)) v.

(** Sleep locks, buffer cache, inode cache, log, super block and disk. *)
Record fsys : Type := mk_fsys {
  slocks : slid → sleeplock;
  bufs : list buf;  (* bcache.buf[NBUF] *)
  bhead_prev : bufptr;  (* bcache.head *)
  bhead_next : bufptr;
  inodes : list inode;  (* icache.inode[NINODE] *)
  log : log_t;
  sb : superblock;
  disk : disk_t;
}.

Definition set_slocks (v : slid → sleeplock) (x : fsys) : fsys :=
  mk_fsys v (x.(bufs)) (x.(bhead_prev)) (x.(bhead_next)) (x.(inodes)) (x.(log)) (x.(sb))
    (x.(disk)).
Definition set_bufs (v : list buf) (x : fsys) : fsys :=
  mk_fsys (x.(slocks)) v (x.(bhead_prev)) (x.(bhead_next)) (x.(inodes)) (x.(log)) (x.(sb))
    (x.(disk)).
Definition set_bhead_prev (v : bufptr) (x : fsys) : fsys :=
  mk_fsys (x.(slocks)) (x.(bufs)) v (x.(bhead_next)) (x.(inodes)) (x.(log)) (x.(sb))
    (x.(disk)).
Definition set_bhead_next (v : bufptr) (x : fsys) : fsys :=
  mk_fsys (x.(slocks)) (x.(bufs)) (x.(bhead_prev)) v (x.(inodes)) (x.(log)) (x.(sb))
    (x.(disk)).
Definition set_inodes (v : list inode) (x : fsys) : fsys :=
  mk_fsys (x.(slocks)) (x.(bufs)) (x.(bhead_prev)) (x.(bhead_next)) v (x.(log)) (x.(sb))
    (x.(disk)).
Definition set_log (v : log_t) (x : fsys) : fsys :=
  mk_fsys (x.(slocks)) (x.(bufs)) (x.(bhead_prev)) (x.(bhead_next)) (x.(inodes)) v (x.(sb))
    (x.(disk)).
Definition set_sb (v : superblock) (x : fsys) : fsys :=
  mk_fsys (x.(slocks)) (x.(bufs)) (x.(bhead_prev)) (x.(bhead_next)) (x.(inodes)) (x.(log)) v
    (x.(disk)).
Definition set_disk (v : disk_t) (x : fsys) : fsys :=
  mk_fsys (x.(slocks)) (x.(bufs)) (x.(bhead_prev)) (x.(bhead_next)) (x.(inodes)) (x.(log))
    (x.(sb)) v.

Lemma set_slocks_id (x : fsys) : set_slocks x.(slocks) x = x.
Proof. by destruct x. Qed.

Lemma set_bufs_id (x : fsys) : set_bufs x.(bufs) x = x.
Proof. by destruct x. Qed.

Lemma set_bhead_prev_id (x : fsys) : set_bhead_prev x.(bhead_prev) x = x.
Proof. by destruct x. Qed.

Lemma set_bhead_next_id (x : fsys) : set_bhead_next x.(bhead_next) x = x.
Proof. by destruct x. Qed.

Lemma set_inodes_id (x : fsys) : set_inodes x.(inodes) x = x.
Proof. by destruct x. Qed.

Lemma set_log_id (x : fsys) : set_log x.(log) x = x.
Proof. by destruct x. Qed.

Lemma set_sb_id (x : fsys) : set_sb x.(sb) x = x.
Proof. by destruct x. Qed.

Lemma set_disk_id (x : fsys) : set_disk x.(disk) x = x.
Proof. by destruct x. Qed.

(** ** Input devices and the disk controller *)

(** The keyboard, the receiving half of the serial port and %cr2. *)
Record dev_t : Type := mk_dev {
  kbd_shift : Z;  (* kbd.c: the modifier state of kbdgetc() *)
  kbd_in : list Z;  (* scan codes waiting in the keyboard controller *)
  uart_in : list Z;  (* characters waiting in the serial port *)
  cr2 : Z;  (* the faulting address of the last page fault *)
}.

Definition set_kbd_shift (v : Z) (x : dev_t) : dev_t :=
  mk_dev v (x.(kbd_in)) (x.(uart_in)) (x.(cr2)).
Definition set_kbd_in (v : list Z) (x : dev_t) : dev_t :=
  mk_dev (x.(kbd_shift)) v (x.(uart_in)) (x.(cr2)).
Definition set_uart_in (v : list Z) (x : dev_t) : dev_t :=
  mk_dev (x.(kbd_shift)) (x.(kbd_in)) v (x.(cr2)).
Definition set_cr2 (v : Z) (x : dev_t) : dev_t :=
  mk_dev (x.(kbd_shift)) (x.(kbd_in)) (x.(uart_in)) v.

Lemma set_kbd_shift_id (x : dev_t) : set_kbd_shift x.(kbd_shift) x = x.
Proof. by destruct x. Qed.

Lemma set_kbd_in_id (x : dev_t) : set_kbd_in x.(kbd_in) x = x.
Proof. by destruct x. Qed.

Lemma set_uart_in_id (x : dev_t) : set_uart_in x.(uart_in) x = x.
Proof. by destruct x. Qed.

Lemma set_cr2_id (x : dev_t) : set_cr2 x.(cr2) x = x.
Proof. by destruct x. Qed.

(** ide.c: its static variables and the controller's ports; the lock is [LIde]. *)
Record ide_t : Type := mk_ide {
  idequeue : option nat;  (* the buf now being read or written *)
  havedisk1 : Z;
  ide_out : list (Z * Z);  (* port writes (port, value) done so far, oldest first *)
  ide_reads : nat;  (* port reads done so far *)
  ide_port : nat → Z → Z;  (* what the n-th read of a port returns *)
}.

Definition set_idequeue (v : option nat) (x : ide_t) : ide_t :=
  mk_ide v (x.(havedisk1)) (x.(ide_out)) (x.(ide_reads)) (x.(ide_port)).
Definition set_havedisk1 (v : Z) (x : ide_t) : ide_t :=
  mk_ide (x.(idequeue)) v (x.(ide_out)) (x.(ide_reads)) (x.(ide_port)).
Definition set_ide_out (v : list (Z * Z)) (x : ide_t) : ide_t :=
  mk_ide (x.(idequeue)) (x.(havedisk1)) v (x.(ide_reads)) (x.(ide_port)).
Definition set_ide_reads (v : nat) (x : ide_t) : ide_t :=
  mk_ide (x.(idequeue)) (x.(havedisk1)) (x.(ide_out)) v (x.(ide_port)).
Definition set_ide_port (v : nat → Z → Z) (x : ide_t) : ide_t :=
  mk_ide (x.(idequeue)) (x.(havedisk1)) (x.(ide_out)) (x.(ide_reads)) v.

Lemma set_idequeue_id (x : ide_t) : set_idequeue x.(idequeue) x = x.
Proof. by destruct x. Qed.

Lemma set_havedisk1_id (x : ide_t) : set_havedisk1 x.(havedisk1) x = x.
Proof. by destruct x. Qed.

Lemma set_ide_out_id (x : ide_t) : set_ide_out x.(ide_out) x = x.
Proof. by destruct x. Qed.

Lemma set_ide_reads_id (x : ide_t) : set_ide_reads x.(ide_reads) x = x.
Proof. by destruct x. Qed.

Lemma set_ide_port_id (x : ide_t) : set_ide_port x.(ide_port) x = x.
Proof. by destruct x. Qed.

(** ** The whole state *)

(** The kernel's global state. *)
Record kernel : Type := mk_kernel {
  hw : machine;
  pt : ptable;
  ticks : Z;  (* trap.c *)
  rtc : rtc_t;
  kmem : kmem_t;  (* kalloc.c *)
  kpgdir : Z;  (* vm.c: for use in scheduler() *)
  kend : Z;  (* end: first address after the kernel image *)
  kdata : Z;  (* data: first address of the kernel's data *)
  mem : Z → Z;  (* physical memory through the kernel's map, a byte per address *)
  pipes : Z → pipe;  (* the struct pipe in the page at an address *)
  ftable : list file;  (* ftable.file[NFILE] *)
  cons : cons_t;
  fs : fsys;
  dev : dev_t;
  ide : ide_t;
}.

Definition set_hw (v : machine) (x : kernel) : kernel :=
  mk_kernel v (x.(pt)) (x.(ticks)) (x.(rtc)) (x.(kmem)) (x.(kpgdir)) (x.(kend)) (x.(kdata))
    (x.(mem)) (x.(pipes)) (x.(ftable)) (x.(cons)) (x.(fs)) (x.(dev)) (x.(ide)).
Definition set_pt (v : ptable) (x : kernel) : kernel :=
  mk_kernel (x.(hw)) v (x.(ticks)) (x.(rtc)) (x.(kmem)) (x.(kpgdir)) (x.(kend)) (x.(kdata))
    (x.(mem)) (x.(pipes)) (x.(ftable)) (x.(cons)) (x.(fs)) (x.(dev)) (x.(ide)).
Definition set_ticks (v : Z) (x : kernel) : kernel :=
  mk_kernel (x.(hw)) (x.(pt)) v (x.(rtc)) (x.(kmem)) (x.(kpgdir)) (x.(kend)) (x.(kdata))
    (x.(mem)) (x.(pipes)) (x.(ftable)) (x.(cons)) (x.(fs)) (x.(dev)) (x.(ide)).
Definition set_rtc (v : rtc_t) (x : kernel) : kernel :=
  mk_kernel (x.(hw)) (x.(pt)) (x.(ticks)) v (x.(kmem)) (x.(kpgdir)) (x.(kend)) (x.(kdata))
    (x.(mem)) (x.(pipes)) (x.(ftable)) (x.(cons)) (x.(fs)) (x.(dev)) (x.(ide)).
Definition set_kmem (v : kmem_t) (x : kernel) : kernel :=
  mk_kernel (x.(hw)) (x.(pt)) (x.(ticks)) (x.(rtc)) v (x.(kpgdir)) (x.(kend)) (x.(kdata))
    (x.(mem)) (x.(pipes)) (x.(ftable)) (x.(cons)) (x.(fs)) (x.(dev)) (x.(ide)).
Definition set_kpgdir (v : Z) (x : kernel) : kernel :=
  mk_kernel (x.(hw)) (x.(pt)) (x.(ticks)) (x.(rtc)) (x.(kmem)) v (x.(kend)) (x.(kdata))
    (x.(mem)) (x.(pipes)) (x.(ftable)) (x.(cons)) (x.(fs)) (x.(dev)) (x.(ide)).
Definition set_kend (v : Z) (x : kernel) : kernel :=
  mk_kernel (x.(hw)) (x.(pt)) (x.(ticks)) (x.(rtc)) (x.(kmem)) (x.(kpgdir)) v (x.(kdata))
    (x.(mem)) (x.(pipes)) (x.(ftable)) (x.(cons)) (x.(fs)) (x.(dev)) (x.(ide)).
Definition set_kdata (v : Z) (x : kernel) : kernel :=
  mk_kernel (x.(hw)) (x.(pt)) (x.(ticks)) (x.(rtc)) (x.(kmem)) (x.(kpgdir)) (x.(kend)) v
    (x.(mem)) (x.(pipes)) (x.(ftable)) (x.(cons)) (x.(fs)) (x.(dev)) (x.(ide)).
Definition set_mem (v : Z → Z) (x : kernel) : kernel :=
  mk_kernel (x.(hw)) (x.(pt)) (x.(ticks)) (x.(rtc)) (x.(kmem)) (x.(kpgdir)) (x.(kend))
    (x.(kdata)) v (x.(pipes)) (x.(ftable)) (x.(cons)) (x.(fs)) (x.(dev)) (x.(ide)).
Definition set_pipes (v : Z → pipe) (x : kernel) : kernel :=
  mk_kernel (x.(hw)) (x.(pt)) (x.(ticks)) (x.(rtc)) (x.(kmem)) (x.(kpgdir)) (x.(kend))
    (x.(kdata)) (x.(mem)) v (x.(ftable)) (x.(cons)) (x.(fs)) (x.(dev)) (x.(ide)).
Definition set_ftable (v : list file) (x : kernel) : kernel :=
  mk_kernel (x.(hw)) (x.(pt)) (x.(ticks)) (x.(rtc)) (x.(kmem)) (x.(kpgdir)) (x.(kend))
    (x.(kdata)) (x.(mem)) (x.(pipes)) v (x.(cons)) (x.(fs)) (x.(dev)) (x.(ide)).
Definition set_cons (v : cons_t) (x : kernel) : kernel :=
  mk_kernel (x.(hw)) (x.(pt)) (x.(ticks)) (x.(rtc)) (x.(kmem)) (x.(kpgdir)) (x.(kend))
    (x.(kdata)) (x.(mem)) (x.(pipes)) (x.(ftable)) v (x.(fs)) (x.(dev)) (x.(ide)).
Definition set_fs (v : fsys) (x : kernel) : kernel :=
  mk_kernel (x.(hw)) (x.(pt)) (x.(ticks)) (x.(rtc)) (x.(kmem)) (x.(kpgdir)) (x.(kend))
    (x.(kdata)) (x.(mem)) (x.(pipes)) (x.(ftable)) (x.(cons)) v (x.(dev)) (x.(ide)).
Definition set_dev (v : dev_t) (x : kernel) : kernel :=
  mk_kernel (x.(hw)) (x.(pt)) (x.(ticks)) (x.(rtc)) (x.(kmem)) (x.(kpgdir)) (x.(kend))
    (x.(kdata)) (x.(mem)) (x.(pipes)) (x.(ftable)) (x.(cons)) (x.(fs)) v (x.(ide)).
Definition set_ide (v : ide_t) (x : kernel) : kernel :=
  mk_kernel (x.(hw)) (x.(pt)) (x.(ticks)) (x.(rtc)) (x.(kmem)) (x.(kpgdir)) (x.(kend))
    (x.(kdata)) (x.(mem)) (x.(pipes)) (x.(ftable)) (x.(cons)) (x.(fs)) (x.(dev)) v.

Lemma set_hw_id (x : kernel) : set_hw x.(hw) x = x.
Proof. by destruct x. Qed.

Lemma set_pt_id (x : kernel) : set_pt x.(pt) x = x.
Proof. by destruct x. Qed.

Lemma set_ticks_id (x : kernel) : set_ticks x.(ticks) x = x.
Proof. by destruct x. Qed.

Lemma set_rtc_id (x : kernel) : set_rtc x.(rtc) x = x.
Proof. by destruct x. Qed.

Lemma set_kmem_id (x : kernel) : set_kmem x.(kmem) x = x.
Proof. by destruct x. Qed.

Lemma set_kpgdir_id (x : kernel) : set_kpgdir x.(kpgdir) x = x.
Proof. by destruct x. Qed.

Lemma set_kend_id (x : kernel) : set_kend x.(kend) x = x.
Proof. by destruct x. Qed.

Lemma set_kdata_id (x : kernel) : set_kdata x.(kdata) x = x.
Proof. by destruct x. Qed.

Lemma set_mem_id (x : kernel) : set_mem x.(mem) x = x.
Proof. by destruct x. Qed.

Lemma set_pipes_id (x : kernel) : set_pipes x.(pipes) x = x.
Proof. by destruct x. Qed.

Lemma set_ftable_id (x : kernel) : set_ftable x.(ftable) x = x.
Proof. by destruct x. Qed.

Lemma set_cons_id (x : kernel) : set_cons x.(cons) x = x.
Proof. by destruct x. Qed.

Lemma set_fs_id (x : kernel) : set_fs x.(fs) x = x.
Proof. by destruct x. Qed.

Lemma set_dev_id (x : kernel) : set_dev x.(dev) x = x.
Proof. by destruct x. Qed.

Lemma set_ide_id (x : kernel) : set_ide x.(ide) x = x.
Proof. by destruct x. Qed.

Abbreviation K := (M kernel).

(** ** Access to the tables *)

Definition upd_hw (f : machine → machine) : K unit := modify (λ k, set_hw (f k.(hw)) k).
Definition upd_pt (f : ptable → ptable) : K unit := modify (λ k, set_pt (f k.(pt)) k).
Definition upd_kmem (f : kmem_t → kmem_t) : K unit := modify (λ k, set_kmem (f k.(kmem)) k).

(** cpus[i]: an index outside the table is an access outside the object. *)
Definition cpu_get (i : nat) : K cpu := λ k,
  match k.(hw).(cpus) !! i with
  | Some c => Ok c k
  | None => Err (CpuFault "cpus") k
  end.

Definition alter_cpu (i : nat) (f : cpu → cpu) (h : machine) : machine :=
  set_cpus (alter f i h.(cpus)) h.

Definition cpu_upd (i : nat) (f : cpu → cpu) : K unit := upd_hw (alter_cpu i f).

(** ptable.proc[i]. *)
Definition proc_get (i : nat) : K proc := λ k,
  match k.(pt).(procs) !! i with
  | Some p => Ok p k
  | None => Err (CpuFault "ptable.proc") k
  end.

Definition alter_proc (i : nat) (f : proc → proc) (t : ptable) : ptable :=
  set_procs (alter f i t.(procs)) t.

Definition proc_upd (i : nat) (f : proc → proc) : K unit := upd_pt (alter_proc i f).

(** ** A concrete state

    The kernel's zero-initialised data with [n] processors (APIC ids 0..n-1),
    interrupts on, a clock chip that reads 0 and no free page. *)
Definition zero_lock : spinlock := mk_spinlock 0 "" None.

Definition boot_hw (n : nat) : machine :=
  mk_machine 0 (λ _, true) (λ _, 0)
    ((λ i, mk_cpu (Z.of_nat i) 0 false None 0) <$> seq 0 n) (λ _, zero_lock).

Definition boot_pt : ptable := mk_ptable (replicate NPROC zero_proc) 1 None true.

Definition zero_pipe : pipe := mk_pipe (replicate 512%nat 0) 0 0 0 0.

Definition zero_file : file := mk_file FD_NONE 0 0 0 0 None 0.

Definition boot_cons : cons_t := mk_cons 0 0 1 [] (λ _, 0) 0 (replicate 128%nat 0) 0 0 0.

Definition zero_buf : buf := mk_buf 0 0 0 0 BHead BHead None (replicate 512%nat 0).
Definition zero_inode : inode := mk_inode 0 0 0 0 0 0 0 0 0 (replicate 13%nat 0).
Definition zero_log : log_t := mk_log 0 0 0 0 0 0 (replicate 30%nat 0).
Definition zero_sb : superblock := mk_superblock 0 0 0 0 0 0 0.

Definition boot_fs : fsys :=
  mk_fsys (λ _, mk_sleeplock 0 "" 0) (replicate NBUF zero_buf) BHead BHead
    (replicate NINODE zero_inode) zero_log zero_sb (mk_disk 0 (λ _, []) []).

Definition boot_kernel (n : nat) : kernel :=
  mk_kernel (boot_hw n) boot_pt 0 (mk_rtc 0 (λ _ _, 0)) (mk_kmem 0 0) 0 0x80110000 0x80108000
    (λ _, 0) (λ _, zero_pipe) (replicate NFILE zero_file) boot_cons boot_fs
    (mk_dev 0 [] [] 0) (mk_ide None 1 [] 0 (λ _ _, 0x40)).
