(* ===== verification/Spinlock.v ===== *)
(** * Processors and spin locks (spinlock.c; cpuid, mycpu, myproc of proc.c)

    [acquire], [release], [holding], [pushcli] and [popcli] as the code of one
    processor, over the whole machine state. A processor that finds the lock
    taken spins with interrupts off until another processor stores 0 in it:
    run alone it hangs ([Hang]). How processors interleave inside these
    functions is the subject of the second half of the file, where
    [lock_step] runs the same code one shared-memory access at a time on any
    number of processors.

    The first group of lemmas gives each function's exact effect on the
    machine; [touch] is the effect of a balanced pushcli/popcli pair. *)
From S2P Require Import Prelude.
From S2P Require Import Kernel.

(** ** x86.h: the interrupt flag *)

Definition readeflags_IF : K bool := get (λ k, k.(hw).(eflags_if) k.(hw).(lapic)).

Definition write_IF (b : bool) (h : machine) : machine :=
  set_eflags_if (<[h.(lapic) := b]> h.(eflags_if)) h.

Definition cli : K unit := upd_hw (write_IF false).
Definition sti : K unit := upd_hw (write_IF true).

(** xchg(&lk->locked, newval) *)
Definition alter_lock (l : lockid) (f : spinlock → spinlock) (h : machine) : machine :=
  set_locks (<[l := f (h.(locks) l)]> h.(locks)) h.

Definition xchg_locked (l : lockid) (newval : Z) : K Z :=
  r ← get (λ k, (k.(hw).(locks) l).(locked));
  upd_hw (alter_lock l (set_locked newval));;
  mret r.

(** ** proc.c: the processor that runs this code *)

Definition mycpu : K nat :=
  iff ← readeflags_IF;
  if (iff : bool) then panic "mycpu called with interrupts enabled\n" else
  id ← get (λ k, k.(hw).(lapic));
  n ← get (λ k, length k.(hw).(cpus));
  r ← for_range n 0 (λ i,
        c ← cpu_get i;
        mret (if c.(apicid) =? id then Some i else None));
  match r with
  | Some i => mret i
  | None => panic "unknown apicid\n"
  end.

(** mycpu()-cpus *)
Definition cpuid : K nat := mycpu.

(** ** spinlock.c *)

Definition pushcli : K unit :=
  eflags ← readeflags_IF;
  cli;;
  i ← mycpu;
  c ← cpu_get i;
  when (c.(ncli) =? 0) (i' ← mycpu; cpu_upd i' (set_intena eflags));;
  i2 ← mycpu;
  cpu_upd i2 (λ c, set_ncli (s32 (c.(ncli) + 1)) c).

Definition popcli : K unit :=
  iff ← readeflags_IF;
  if (iff : bool) then panic "popcli - interruptible" else
  i ← mycpu;
  cpu_upd i (λ c, set_ncli (s32 (c.(ncli) - 1)) c);;
  c ← cpu_get i;
  if c.(ncli) <? 0 then panic "popcli" else
  i' ← mycpu;
  c' ← cpu_get i';
  when ((c'.(ncli) =? 0) && c'.(intena)) sti.

Definition myproc : K (option nat) :=
  pushcli;;
  i ← mycpu;
  c ← cpu_get i;
  popcli;;
  mret c.(cproc).

Definition initlock (l : lockid) (name : string) : K unit :=
  upd_hw (alter_lock l (λ _, mk_spinlock 0 name None)).

Definition holding (l : lockid) : K bool :=
  pushcli;;
  lk ← get (λ k, k.(hw).(locks) l);
  r ← (if truth lk.(locked) then
         i ← mycpu;
         mret (bool_decide (lk.(lk_cpu) = Some i))
       else mret false);
  popcli;;
  mret r.

Definition acquire (l : lockid) : K unit :=
  pushcli;;
  h ← holding l;
  if (h : bool) then panic "acquire" else
  r ← xchg_locked l 1;
  if truth r then fail Hang else
  i ← mycpu;
  upd_hw (alter_lock l (set_lk_cpu (Some i))).

Definition release (l : lockid) : K unit :=
  h ← holding l;
  if negb h then panic "release" else
  upd_hw (alter_lock l (set_lk_cpu None));;
  upd_hw (alter_lock l (set_locked 0));;
  popcli.

(** ** One lock, many processors

    The code of [acquire] and [release] on one lock, one access to shared
    memory per step. [holding] reads lk->locked and then lk->cpu, so it has a
    point between the two reads; [acquire] writes lk->cpu after the exchange,
    [release] clears it before the store that frees the lock. *)
Inductive lock_pc : Type :=
| Out                    (* not in acquire/release, does not have the lock *)
| AcqHold                (* acquire: holding() has read locked <> 0 *)
| Spin                   (* acquire: at the xchg loop *)
| Got                    (* acquire: the exchange returned 0 *)
| Crit                   (* between acquire and release *)
| RelHold                (* release: holding() has read locked <> 0 *)
| RelCpu                 (* release: past the panic test *)
| RelStore               (* release: lk->cpu cleared, locked not yet *)
| Panicked (msg : string).

Record lock_sys : Type := mk_lock_sys {
  ls_locked : Z;
  ls_cpu : option nat;
  ls_pc : nat → lock_pc;
}.

Definition lock_init (s : lock_sys) : Prop :=
  s.(ls_locked) = 0 ∧ s.(ls_cpu) = None ∧ ∀ i, s.(ls_pc) i = Out.

(** The next state when processor [i] executes its next access. *)
Definition lock_next (i : nat) (s : lock_sys) : lock_sys :=
  let at_pc (p : lock_pc) := mk_lock_sys s.(ls_locked) s.(ls_cpu) (<[i := p]> s.(ls_pc)) in
  match s.(ls_pc) i with
  | Out => if truth s.(ls_locked) then at_pc AcqHold else at_pc Spin
  | AcqHold => if bool_decide (s.(ls_cpu) = Some i) then at_pc (Panicked "acquire") else at_pc Spin
  | Spin => mk_lock_sys 1 s.(ls_cpu)
              (<[i := if truth s.(ls_locked) then Spin else Got]> s.(ls_pc))
  | Got => mk_lock_sys s.(ls_locked) (Some i) (<[i := Crit]> s.(ls_pc))
  | Crit => if truth s.(ls_locked) then at_pc RelHold else at_pc (Panicked "release")
  | RelHold => if bool_decide (s.(ls_cpu) = Some i) then at_pc RelCpu else at_pc (Panicked "release")
  | RelCpu => mk_lock_sys s.(ls_locked) None (<[i := RelStore]> s.(ls_pc))
  | RelStore => mk_lock_sys 0 s.(ls_cpu) (<[i := Out]> s.(ls_pc))
  | Panicked m => s
  end.

Definition lock_step (s s' : lock_sys) : Prop := ∃ i, s' = lock_next i s.

(** A processor owns the lock from the successful exchange to the store that
    frees it. *)
Definition owns (p : lock_pc) : bool :=
  match p with Got | Crit | RelHold | RelCpu | RelStore => true | _ => false end.

(** What holding() computes on processor [i] when it runs in state [s]. *)
Definition holding_now (i : nat) (s : lock_sys) : bool :=
  truth s.(ls_locked) && bool_decide (s.(ls_cpu) = Some i).

(** ** Effects on the machine, as functions *)

(** The executing processor is cpus[c], whose record is [x]. *)
Record cpu_is (h : machine) (c : nat) (x : cpu) : Prop := {
  ci_lookup : h.(cpus) !! c = Some x;
  ci_apic : x.(apicid) = h.(lapic);
  ci_first : ∀ j y, (j < c)%nat → h.(cpus) !! j = Some y → y.(apicid) ≠ h.(lapic);
}.

Definition IF_of (h : machine) : bool := h.(eflags_if) h.(lapic).

(** What a balanced pushcli()/popcli() pair leaves behind: intena is only
    meaningful while ncli > 0, and the outermost pushcli() overwrites it. *)
Definition touch (c : nat) (h : machine) : machine :=
  alter_cpu c (λ x, if x.(ncli) =? 0 then set_intena (IF_of h) x else x) h.

Definition push_hw (c : nat) (h : machine) : machine :=
  write_IF false (alter_cpu c (λ x, set_ncli (x.(ncli) + 1) x) (touch c h)).

Definition pop_hw (c : nat) (h : machine) : machine :=
  let h' := alter_cpu c (λ x, set_ncli (x.(ncli) - 1) x) h in
  match h'.(cpus) !! c with
  | Some x => if (x.(ncli) =? 0) && x.(intena) then write_IF true h' else h'
  | None => h'
  end.

(** The executing processor is cpus[c], at depth [n] of pushcli()/popcli();
    interrupts are on only outside every pair. *)
Definition cpu_at (h : machine) (c : nat) (n : Z) : Prop :=
  ∃ x, cpu_is h c x ∧ x.(ncli) = n ∧ 0 <= n ∧ (IF_of h = true → n = 0).

Definition lk_free (h : machine) (l : lockid) : Prop :=
  (h.(locks) l).(locked) = 0 ∧ (h.(locks) l).(lk_cpu) = None.

Definition lk_mine (h : machine) (c : nat) (l : lockid) : Prop :=
  (h.(locks) l).(locked) = 1 ∧ (h.(locks) l).(lk_cpu) = Some c.

Definition lock_it (c : nat) (l : lockid) (h : machine) : machine :=
  alter_lock l (λ k, mk_spinlock 1 k.(lk_name) (Some c)) h.

Definition unlock_it (l : lockid) (h : machine) : machine :=
  alter_lock l (λ k, mk_spinlock 0 k.(lk_name) None) h.

Definition acq_hw (c : nat) (l : lockid) (h : machine) : machine :=
  lock_it c l (push_hw c h).

Definition rel_hw (c : nat) (l : lockid) (h : machine) : machine :=
  pop_hw c (unlock_it l h).

(** ** Exact effect of each function *)

Lemma set_hw_set_hw a b k : set_hw a (set_hw b k) = set_hw a k.
Proof. done. Qed.

Lemma mycpu_scan (cs : list cpu) id n from k :
  k.(hw).(cpus) = cs → (from + n)%nat = length cs →
  for_range n from (λ i, c ← cpu_get i; mret (if c.(apicid) =? id then Some i else None)) k
  = Ok ((λ p, (from + p.1)%nat) <$> list_find (λ x, x.(apicid) = id) (drop from cs)) k.
Proof.
  intros Hcs. revert from. induction n as [|n IH]; intros from Hlen; cbn.
  - by rewrite drop_ge by lia.
  - destruct (lookup_lt_is_Some_2 cs from ltac:(lia)) as [x Hx].
    unfold mbind at 1, M_bind at 1. unfold mbind at 1, M_bind at 1.
    unfold cpu_get. rewrite Hcs, Hx. mred.
    rewrite (drop_S _ _ _ Hx). cbn.
    destruct (Z.eqb_spec x.(apicid) id) as [E|E]; [rewrite decide_True by done|rewrite decide_False by done].
    + cbn. by rewrite Nat.add_0_r.
    + rewrite IH by lia. f_equal. rewrite <- !option_fmap_compose.
      destruct (list_find _ _) as [[j y]|]; [|done]. cbn. do 2 f_equal. lia.
Qed.

Lemma mycpu_ok k c x : IF_of k.(hw) = false → cpu_is k.(hw) c x → mycpu k = Ok c k.
Proof.
  intros HIF [Hl Ha Hf]. unfold mycpu, readeflags_IF. mstep.
  unfold IF_of in HIF. rewrite HIF. do 2 mstep.
  mstep by (apply (mycpu_scan k.(hw).(cpus)); done). rewrite drop_0.
  rewrite (proj2 (list_find_Some _ _ c x)); [done|].
  split_and!; [done|done|]. intros j y Hy Hj. by eapply Hf.
Qed.

Lemma cpu_get_ok k c x : k.(hw).(cpus) !! c = Some x → cpu_get c k = Ok x k.
Proof. unfold cpu_get. by intros ->. Qed.

Lemma alter_cpu_lookup h c f x :
  h.(cpus) !! c = Some x → alter_cpu c f h = set_cpus (<[c := f x]> h.(cpus)) h.
Proof.
  intros Hx. unfold alter_cpu. f_equal. apply list_eq. intros i.
  destruct (decide (i = c)) as [->|].
  - rewrite list_lookup_alter_eq, Hx, list_lookup_insert_eq; [done|by eapply lookup_lt_Some].
  - by rewrite list_lookup_alter_ne, list_lookup_insert_ne by done.
Qed.

Lemma cpu_is_set_cpus h c x y :
  cpu_is h c x → y.(apicid) = x.(apicid) → cpu_is (set_cpus (<[c := y]> h.(cpus)) h) c y.
Proof.
  intros [Hl Ha Hf] E. split; cbn.
  - apply list_lookup_insert_eq. by eapply lookup_lt_Some.
  - congruence.
  - intros j z Hj. rewrite list_lookup_insert_ne by lia. by apply Hf.
Qed.

Lemma cpu_is_alter h c f x :
  cpu_is h c x → (f x).(apicid) = x.(apicid) → cpu_is (alter_cpu c f h) c (f x).
Proof.
  intros Hc E. rewrite (alter_cpu_lookup _ _ _ x) by apply Hc. by eapply cpu_is_set_cpus.
Qed.

Lemma cpu_is_write_IF h c x b : cpu_is h c x → cpu_is (write_IF b h) c x.
Proof. by intros [? ? ?]. Qed.

Lemma cpu_is_lock h c x l f : cpu_is h c x → cpu_is (alter_lock l f h) c x.
Proof. by intros [? ? ?]. Qed.

Lemma IF_write h b : IF_of (write_IF b h) = b.
Proof. apply fn_lookup_insert. Qed.

#[export] Hint Resolve cpu_is_write_IF cpu_is_lock cpu_is_alter IF_write : xv6.

Lemma write_IF_twice a b h : write_IF a (write_IF b h) = write_IF a h.
Proof. unfold write_IF. cbn. by rewrite fn_insert_insert. Qed.

Lemma write_IF_same h : write_IF (IF_of h) h = h.
Proof. unfold write_IF, IF_of. rewrite fn_insert_same. by destruct h. Qed.

Lemma alter_cpu_ext h c f g x :
  h.(cpus) !! c = Some x → f x = g x → alter_cpu c f h = alter_cpu c g h.
Proof. intros Hx E. rewrite !(alter_cpu_lookup _ _ _ x) by done. by rewrite E. Qed.

Lemma alter_cpu_id h c f x : h.(cpus) !! c = Some x → f x = x → alter_cpu c f h = h.
Proof.
  intros Hx E. rewrite (alter_cpu_lookup _ _ _ x), E, list_insert_id by done.
  by destruct h.
Qed.

Lemma pushcli_ok k c x :
  cpu_is k.(hw) c x → 0 <= x.(ncli) < 2 ^ 31 - 1 →
  pushcli k = Ok tt (set_hw (push_hw c k.(hw)) k).
Proof.
  intros Hc Hn. unfold pushcli. do 2 mstep. set (k1 := set_hw _ k).
  assert (Hc1 : cpu_is k1.(hw) c x) by (apply cpu_is_write_IF; done).
  assert (HI1 : IF_of k1.(hw) = false) by apply IF_write.
  mstep by (by eapply mycpu_ok). mstep by (apply cpu_get_ok, Hc1).
  set (G := λ y, if y.(ncli) =? 0 then set_intena (IF_of k.(hw)) y else y).
  assert (Hc2 : cpu_is (alter_cpu c G k1.(hw)) c (G x)).
  { apply cpu_is_alter; [done|]. unfold G. by destruct (x.(ncli) =? 0). }
  rewrite (bind_Ok _ _ _ tt (set_hw (alter_cpu c G k1.(hw)) k1)); cycle 1.
  { unfold when. destruct (x.(ncli) =? 0) eqn:E.
    - mstep by (by eapply mycpu_ok). unfold cpu_upd, upd_hw, modify. do 2 f_equal.
      apply (alter_cpu_ext _ _ _ _ x); [apply Hc1|]. unfold G. by rewrite E.
    - rewrite (alter_cpu_id _ _ _ x), set_hw_id; [done|apply Hc1|]. unfold G. by rewrite E. }
  mstep by (eapply mycpu_ok; [exact HI1|exact Hc2]).
  assert (alter_cpu c (λ y, set_ncli (s32 (y.(ncli) + 1)) y) (alter_cpu c G k1.(hw))
          = push_hw c k.(hw)) as <-; [|done].
  etrans; [apply (alter_cpu_ext _ _ _ (λ y, set_ncli (y.(ncli) + 1) y) (G x))|].
  - apply Hc2.
  - f_equal. unfold G. destruct (x.(ncli) =? 0); cbn; apply s32_small; word_lia.
  - done.
Qed.

Lemma popcli_ok k c x :
  cpu_is k.(hw) c x → IF_of k.(hw) = false → 0 < x.(ncli) < 2 ^ 31 →
  popcli k = Ok tt (set_hw (pop_hw c k.(hw)) k).
Proof.
  intros Hc HI Hn. unfold popcli, readeflags_IF. mstep. unfold IF_of in HI. rewrite HI.
  mstep by (by eapply mycpu_ok).
  set (h1 := alter_cpu c (λ x, set_ncli (x.(ncli) - 1) x) k.(hw)).
  assert (Hc1 : cpu_is h1 c (set_ncli (x.(ncli) - 1) x)) by (by apply (cpu_is_alter _ _ (λ x, _))).
  rewrite (bind_Ok _ _ _ tt (set_hw h1 k)); cycle 1.
  { unfold cpu_upd, upd_hw, modify. do 2 f_equal. apply (alter_cpu_ext _ _ _ _ x); [apply Hc|].
    f_equal. apply s32_small. word_lia. }
  mstep by (apply cpu_get_ok, Hc1). cbn [ncli set_ncli].
  destruct (Z.ltb_spec (x.(ncli) - 1) 0); [lia|].
  mstep by (eapply mycpu_ok; [exact HI|exact Hc1]). mstep by (apply cpu_get_ok, Hc1).
  unfold pop_hw. fold h1. rewrite (ci_lookup _ _ _ Hc1). cbn [ncli intena set_ncli].
  by destruct (_ && _).
Qed.

(** *** The effect of nested calls *)

Lemma cpu_is_fun h c x y : cpu_is h c x → cpu_is h c y → x = y.
Proof. intros [] []. congruence. Qed.

Lemma cpu_is_touch h c x :
  cpu_is h c x → cpu_is (touch c h) c (if x.(ncli) =? 0 then set_intena (IF_of h) x else x).
Proof.
  intros Hc. apply (cpu_is_alter _ _ (λ x, if x.(ncli) =? 0 then set_intena (IF_of h) x else x)); [done|].
  by destruct (_ =? _).
Qed.

Lemma cpu_at_touch h c n : cpu_at h c n → cpu_at (touch c h) c n.
Proof.
  intros (x & Hc & Hn & H0 & HI). eexists. split; [by apply cpu_is_touch|].
  change (IF_of (touch c h)) with (IF_of h). by destruct (_ =? _).
Qed.

Lemma cpu_at_IF h c n : cpu_at h c n → 0 < n → IF_of h = false.
Proof. intros (x & _ & _ & _ & HI) Hn. destruct (IF_of h); [lia|done]. Qed.

Lemma touch_cs h c n : cpu_at h c n → 0 < n → touch c h = h.
Proof.
  intros (x & Hc & Hx & H0 & HI) Hn. unfold touch. apply (alter_cpu_id _ _ _ x); [apply Hc|].
  destruct (Z.eqb_spec x.(ncli) 0); [lia|done].
Qed.

Lemma touch_touch h c n : cpu_at h c n → touch c (touch c h) = touch c h.
Proof.
  intros (x & Hc & _). unfold touch at 1. eapply alter_cpu_id; [apply cpu_is_touch, Hc|].
  change (IF_of (touch c h)) with (IF_of h).
  destruct (Z.eqb_spec x.(ncli) 0) as [E|E]; [|by apply Z.eqb_neq in E; rewrite E].
  cbn. by rewrite E.
Qed.

Lemma push_at h c n : cpu_at h c n → cpu_at (push_hw c h) c (n + 1).
Proof.
  intros (x & Hc & Hx & H0 & HI). eexists. split_and!.
  - apply cpu_is_write_IF, (cpu_is_alter _ _ (λ x, set_ncli (x.(ncli) + 1) x));
      [by apply cpu_is_touch|done].
  - cbn. destruct (_ =? _); cbn; lia.
  - lia.
  - unfold push_hw. by rewrite IF_write.
Qed.

Lemma set_ncli_back x a : set_ncli x.(ncli) (set_ncli a x) = x.
Proof. by destruct x. Qed.

Lemma pop_push h c n : cpu_at h c n → pop_hw c (push_hw c h) = touch c h.
Proof.
  intros (x & Hc & Hx & H0 & HI).
  pose proof (cpu_is_touch _ _ _ Hc) as Ht. set (x' := if _ =? 0 then _ else _) in Ht.
  assert (E1 : alter_cpu c (λ x, set_ncli (x.(ncli) - 1) x) (push_hw c h) = write_IF false (touch c h)).
  { unfold push_hw. change (alter_cpu c ?f (write_IF ?b ?g)) with (write_IF b (alter_cpu c f g)).
    f_equal. set (h1 := alter_cpu c (λ x, set_ncli _ x) (touch c h)).
    assert (Hc1 : cpu_is h1 c (set_ncli (x'.(ncli) + 1) x'))
      by (by apply (cpu_is_alter _ _ (λ x, set_ncli (x.(ncli) + 1) x))).
    rewrite (alter_cpu_lookup _ _ _ _ (ci_lookup _ _ _ Hc1)). unfold h1.
    rewrite (alter_cpu_lookup _ _ _ _ (ci_lookup _ _ _ Ht)). cbn.
    rewrite list_insert_insert_eq. replace (x'.(ncli) + 1 - 1) with x'.(ncli) by lia.
    rewrite set_ncli_back.
    rewrite list_insert_id by apply Ht. done. }
  unfold pop_hw. rewrite E1. cbn [cpus write_IF set_eflags_if].
  rewrite (ci_lookup _ _ _ Ht).
  assert (HIt : IF_of (touch c h) = IF_of h) by done.
  unfold x'. destruct (Z.eqb_spec x.(ncli) 0) as [E|E]; cbn.
  - rewrite E, Z.eqb_refl. cbn. destruct (IF_of h) eqn:EI.
    + rewrite write_IF_twice, <- HIt. apply write_IF_same.
    + rewrite <- HIt. apply write_IF_same.
  - apply Z.eqb_neq in E as E'. rewrite E'. cbn.
    replace false with (IF_of (touch c h)); [apply write_IF_same|].
    rewrite HIt. destruct (IF_of h); [by rewrite Hx, HI in E|done].
Qed.

Lemma pushcli_at k c n :
  cpu_at k.(hw) c n → n < 1000 → pushcli k = Ok tt (set_hw (push_hw c k.(hw)) k).
Proof. intros (x & Hc & Hx & H0 & HI) ?. eapply pushcli_ok; [done|lia]. Qed.

Lemma popcli_at k c n :
  cpu_at k.(hw) c n → 0 < n < 1002 → popcli k = Ok tt (set_hw (pop_hw c k.(hw)) k).
Proof.
  intros Hat ?. pose proof Hat as (x & Hc & Hx & H0 & HI).
  eapply popcli_ok; [done| |lia]. eapply cpu_at_IF; [done|lia].
Qed.

Lemma mycpu_at k c n : cpu_at k.(hw) c n → 0 < n → mycpu k = Ok c k.
Proof.
  intros Hat ?. pose proof Hat as (x & Hc & _).
  eapply mycpu_ok; [|done]. by eapply cpu_at_IF.
Qed.

Lemma cpu_at_nonneg h c n : cpu_at h c n → 0 <= n.
Proof. intros (? & ? & ? & ? & ?). lia. Qed.

Lemma holding_ok k c n l :
  cpu_at k.(hw) c n → n < 1000 →
  holding l k = Ok (truth (k.(hw).(locks) l).(locked) && bool_decide ((k.(hw).(locks) l).(lk_cpu) = Some c))
                   (set_hw (touch c k.(hw)) k).
Proof.
  intros Hat Hn. pose proof (push_at _ _ _ Hat) as Hp. unfold holding.
  pose proof (cpu_at_nonneg _ _ _ Hat).
  mstep by (by eapply pushcli_at). mstep.
  set (k1 := set_hw _ k).
  erewrite (bind_Ok _ _ _ (truth (k.(hw).(locks) l).(locked) &&
     bool_decide ((k.(hw).(locks) l).(lk_cpu) = Some c)) k1); cycle 1.
  { change (k1.(hw).(locks)) with (k.(hw).(locks)).
    destruct (truth _); [|done]. mstep by (eapply mycpu_at; [exact Hp|lia]). done. }
  mstep by (eapply popcli_at; [exact Hp|lia]). unfold mret, M_ret. f_equal.
  unfold k1. rewrite set_hw_set_hw. f_equal. cbn. by eapply pop_push.
Qed.

Lemma alter_lock_twice h l f g :
  alter_lock l f (alter_lock l g h) = alter_lock l (λ k, f (g k)) h.
Proof.
  unfold alter_lock. cbn. rewrite fn_lookup_insert, fn_insert_insert. done.
Qed.

Lemma cpu_at_lock h c n l f : cpu_at h c n → cpu_at (alter_lock l f h) c n.
Proof. intros (x & ? & ?). exists x. eauto with xv6. Qed.

Lemma acq_at h c n l : cpu_at h c n → cpu_at (acq_hw c l h) c (n + 1).
Proof. intros. by apply cpu_at_lock, push_at. Qed.

Lemma acq_mine h c l : lk_mine (acq_hw c l h) c l.
Proof. unfold lk_mine, acq_hw, lock_it, alter_lock. cbn. by rewrite fn_lookup_insert. Qed.

Lemma acq_other h c l l' : l' ≠ l → (acq_hw c l h).(locks) l' = h.(locks) l'.
Proof. intros. unfold acq_hw, lock_it, alter_lock. cbn. by rewrite fn_lookup_insert_ne. Qed.

Lemma acquire_ok k c n l :
  cpu_at k.(hw) c n → n < 999 → lk_free k.(hw) l →
  acquire l k = Ok tt (set_hw (acq_hw c l k.(hw)) k).
Proof.
  intros Hat Hn [Hf1 Hf2]. pose proof (push_at _ _ _ Hat) as Hp. unfold acquire.
  pose proof (cpu_at_nonneg _ _ _ Hat).
  mstep by (eapply pushcli_at; [done|lia]). set (k1 := set_hw _ k).
  mstep by (eapply (holding_ok k1); [exact Hp|lia]).
  change (k1.(hw).(locks)) with (k.(hw).(locks)). rewrite Hf1. cbn [truth Z.eqb negb andb].
  rewrite (touch_cs k1.(hw) _ _ Hp) by lia. rewrite set_hw_id.
  mstep by (unfold xchg_locked; mstep; reflexivity).
  change (k1.(hw).(locks)) with (k.(hw).(locks)). rewrite Hf1.
  cbn [truth Z.eqb negb].
  mstep by (eapply mycpu_at; [by apply cpu_at_lock|lia]).
  unfold upd_hw, modify. f_equal. unfold k1. cbn. rewrite !set_hw_set_hw. f_equal.
  by rewrite alter_lock_twice.
Qed.

Lemma release_ok k c n l :
  cpu_at k.(hw) c n → 0 < n < 1000 → lk_mine k.(hw) c l →
  release l k = Ok tt (set_hw (rel_hw c l k.(hw)) k).
Proof.
  intros Hat Hn [Hm1 Hm2]. unfold release.
  mstep by (eapply holding_ok; [done|lia]). rewrite Hm1, Hm2, bool_decide_true by done.
  cbn [truth Z.eqb negb andb]. rewrite (touch_cs _ _ _ Hat) by lia. rewrite set_hw_id.
  do 2 mstep. rewrite (popcli_at _ c n); [|by do 2 apply cpu_at_lock|lia].
  f_equal. cbn. rewrite !set_hw_set_hw. f_equal. by rewrite alter_lock_twice.
Qed.

(** A lock taken and given back leaves the machine as a balanced
    pushcli()/popcli() pair does. *)
Lemma rel_acq h c n l : cpu_at h c n → lk_free h l → rel_hw c l (acq_hw c l h) = touch c h.
Proof.
  intros Hat [Hf1 Hf2]. rewrite <- (pop_push h c n) by done.
  unfold rel_hw, acq_hw, unlock_it, lock_it. f_equal. rewrite alter_lock_twice.
  unfold alter_lock. cbn. destruct (h.(locks) l) as [lv nm cp] eqn:E. cbn in Hf1, Hf2. subst.
  cbn. rewrite <- E, fn_insert_same. done.
Qed.

Lemma myproc_ok k c n x :
  cpu_is k.(hw) c x → cpu_at k.(hw) c n → n < 1000 →
  myproc k = Ok x.(cproc) (set_hw (touch c k.(hw)) k).
Proof.
  intros Hx Hat Hn. pose proof (push_at _ _ _ Hat) as Hp. unfold myproc.
  pose proof (cpu_at_nonneg _ _ _ Hat).
  mstep by (by eapply pushcli_at).
  mstep by (eapply mycpu_at; [exact Hp|lia]).
  mstep by (apply cpu_get_ok, cpu_is_write_IF,
            (cpu_is_alter _ _ (λ x, set_ncli (x.(ncli) + 1) x)); [by apply cpu_is_touch|done]).
  mstep by (eapply popcli_at; [exact Hp|lia]).
  unfold mret, M_ret. rewrite set_hw_set_hw. cbn [hw set_hw].
  rewrite (pop_push _ _ n) by done. cbn. by destruct (_ =? _).
Qed.

(** What any number of balanced critical sections leaves behind. *)
Definition settled (c : nat) (h h' : machine) : Prop :=
  h' = h ∨ (∃ n, cpu_at h c n) ∧ h' = touch c h.

Lemma settled_refl c h : settled c h h.
Proof. by left. Qed.

Lemma settled_touch c h n : cpu_at h c n → settled c h (touch c h).
Proof. intros. right. eauto. Qed.

Lemma settled_trans c h1 h2 h3 : settled c h1 h2 → settled c h2 h3 → settled c h1 h3.
Proof.
  intros [->|[[n Hn] ->]] [->|[Hn2 ->]]; [by left|by right|right; eauto|].
  right. split; [by exists n|]. by eapply touch_touch.
Qed.

Lemma settled_at c h h' n : settled c h h' → cpu_at h c n → cpu_at h' c n.
Proof. intros [->|[_ ->]] Hat; [done|by apply cpu_at_touch]. Qed.

Lemma settled_locks c h h' : settled c h h' → h'.(locks) = h.(locks).
Proof. by intros [->|[_ ->]]. Qed.

Lemma settled_cr3 c h h' : settled c h h' → h'.(cr3) = h.(cr3) ∧ h'.(lapic) = h.(lapic).
Proof. by intros [->|[_ ->]]. Qed.

Lemma settled_free c h h' l : settled c h h' → lk_free h l → lk_free h' l.
Proof. unfold lk_free. by intros ->%settled_locks. Qed.

Lemma settled_mine c h h' l : settled c h h' → lk_mine h c l → lk_mine h' c l.
Proof. unfold lk_mine. by intros ->%settled_locks. Qed.

Lemma settled_cs c h h' n : cpu_at h c n → 0 < n → settled c h h' → h' = h.
Proof. intros Hat Hn [->|[_ ->]]; [done|by eapply touch_cs]. Qed.

(** The end of a critical section entered from machine [h]. *)
Lemma release_acquired h c n l g :
  cpu_at h c n → n < 900 → lk_free h l →
  release l (set_hw (acq_hw c l h) g) = Ok tt (set_hw (touch c h) g).
Proof.
  intros Hat Hn Hf. pose proof (cpu_at_nonneg _ _ _ Hat).
  rewrite (release_ok _ c (n + 1)); [|by apply acq_at|lia|apply acq_mine].
  cbn [hw set_hw]. by rewrite (rel_acq _ _ n), set_hw_set_hw by done.
Qed.

#[export] Hint Resolve settled_refl settled_trans settled_at settled_free settled_mine : xv6.

(** *** Error paths *)

Lemma acquire_held k c n l :
  cpu_at k.(hw) c n → n < 999 → lk_mine k.(hw) c l →
  acquire l k = Err (Panic "acquire") (set_hw (push_hw c k.(hw)) k).
Proof.
  intros Hat Hn [Hm1 Hm2]. pose proof (push_at _ _ _ Hat) as Hp. unfold acquire.
  pose proof (cpu_at_nonneg _ _ _ Hat).
  mstep by (eapply pushcli_at; [done|lia]). set (k1 := set_hw _ k).
  mstep by (eapply (holding_ok k1); [exact Hp|lia]).
  change (k1.(hw).(locks)) with (k.(hw).(locks)).
  rewrite Hm1, Hm2, bool_decide_true by done. cbn [truth Z.eqb negb andb].
  by rewrite (touch_cs k1.(hw) _ _ Hp), set_hw_id by lia.
Qed.

Lemma acquire_spins k c n l :
  cpu_at k.(hw) c n → n < 999 → (k.(hw).(locks) l).(locked) = 1 →
  (k.(hw).(locks) l).(lk_cpu) ≠ Some c →
  ∃ k', acquire l k = Err Hang k' ∧ (k'.(hw).(locks) l).(locked) = 1.
Proof.
  intros Hat Hn Hm1 Hm2. pose proof (push_at _ _ _ Hat) as Hp. unfold acquire.
  pose proof (cpu_at_nonneg _ _ _ Hat).
  mstep by (eapply pushcli_at; [done|lia]). set (k1 := set_hw _ k).
  mstep by (eapply (holding_ok k1); [exact Hp|lia]).
  change (k1.(hw).(locks)) with (k.(hw).(locks)).
  rewrite Hm1, bool_decide_false by done. cbn [truth Z.eqb negb andb].
  rewrite (touch_cs k1.(hw) _ _ Hp), set_hw_id by lia.
  mstep by (unfold xchg_locked; mstep; reflexivity).
  change (k1.(hw).(locks)) with (k.(hw).(locks)). rewrite Hm1.
  cbn [truth Z.eqb negb]. eexists. split; [done|].
  cbn. by rewrite fn_lookup_insert.
Qed.

Lemma release_not_held k c n l :
  cpu_at k.(hw) c n → n < 1000 → ¬ lk_mine k.(hw) c l →
  ((k.(hw).(locks) l).(locked) = 0 ∨ (k.(hw).(locks) l).(locked) = 1) →
  release l k = Err (Panic "release") (set_hw (touch c k.(hw)) k).
Proof.
  intros Hat Hn Hm Hv. unfold release. mstep by (eapply holding_ok; [done|lia]).
  unfold lk_mine in Hm. destruct Hv as [Hv|Hv]; rewrite Hv in *; [done|].
  rewrite bool_decide_false; [done|]. naive_solver.
Qed.

(** *** The interleaved lock *)

(** The processors for which lk->cpu is set. *)
Definition recorded (p : lock_pc) : bool :=
  match p with Crit | RelHold | RelCpu => true | _ => false end.

Record lock_inv (s : lock_sys) : Prop := {
  li_one : ∀ i j, owns (s.(ls_pc) i) → owns (s.(ls_pc) j) → i = j;
  li_owned : ∀ i, owns (s.(ls_pc) i) → s.(ls_locked) = 1;
  li_held : s.(ls_locked) = 0 ∨ s.(ls_locked) = 1 ∧ ∃ i, owns (s.(ls_pc) i);
  li_cpu : ∀ i, s.(ls_cpu) = Some i ↔ recorded (s.(ls_pc) i);
  li_calm : ∀ i m, s.(ls_pc) i ≠ Panicked m;
}.

Lemma lock_inv_init s : lock_init s → lock_inv s.
Proof.
  intros (Hl & Hc & Hp). split; intros *; rewrite ?Hp, ?Hc; cbn; try naive_solver.
Qed.

(** Split every processor index into the one that moved and the others. *)
Ltac pc_cases i :=
  repeat match goal with
  | |- context [<[i := _]> _ ?j] =>
      destruct (decide (j = i)) as [->|];
      rewrite ?fn_lookup_insert, ?fn_lookup_insert_ne by done
  | H : context [<[i := _]> _ ?j] |- _ =>
      destruct (decide (j = i)) as [->|];
      rewrite ?fn_lookup_insert, ?fn_lookup_insert_ne in H by done
  end.

(** A processor that neither takes nor frees the lock keeps the invariant. *)
Lemma lock_inv_move s i p :
  lock_inv s → owns p = owns (s.(ls_pc) i) → recorded p = recorded (s.(ls_pc) i) →
  (∀ m, p ≠ Panicked m) →
  lock_inv (mk_lock_sys s.(ls_locked) s.(ls_cpu) (<[i := p]> s.(ls_pc))).
Proof.
  intros [Hone Hown Hheld Hcpu Hcalm] Ho Hr Hp. split; cbn.
  - intros a b Ha Hb. pc_cases i; rewrite ?Ho in *; auto.
  - intros a Ha. pc_cases i; rewrite ?Ho in *; eauto.
  - destruct Hheld as [|[? [a Ha]]]; [by left|right]. split; [done|]. exists a.
    pc_cases i; by rewrite ?Ho.
  - intros a. rewrite Hcpu. pc_cases i; by rewrite ?Hr.
  - intros a m. pc_cases i; auto.
Qed.

Lemma lock_inv_take s i :
  lock_inv s → s.(ls_pc) i = Spin → s.(ls_locked) = 0 →
  lock_inv (mk_lock_sys 1 s.(ls_cpu) (<[i := Got]> s.(ls_pc))).
Proof.
  intros [Hone Hown Hheld Hcpu Hcalm] Hi H0.
  assert (Hno : ∀ j, ¬ owns (s.(ls_pc) j)) by (intros j Hj; specialize (Hown j Hj); lia).
  split; cbn.
  - intros a b Ha Hb. pc_cases i; done || by exfalso; eapply Hno.
  - done.
  - right. split; [done|]. exists i. by rewrite fn_lookup_insert.
  - intros a. rewrite Hcpu. pc_cases i; [by rewrite Hi|done].
  - intros a m. pc_cases i; auto.
Qed.

Lemma lock_inv_record s i :
  lock_inv s → s.(ls_pc) i = Got →
  lock_inv (mk_lock_sys s.(ls_locked) (Some i) (<[i := Crit]> s.(ls_pc))).
Proof.
  intros [Hone Hown Hheld Hcpu Hcalm] Hi. pose proof (Hown i) as Hl. rewrite Hi in Hl.
  specialize (Hl I). split; cbn.
  - intros a b Ha Hb. pc_cases i; auto; [symmetry|]; apply Hone; by rewrite ?Hi.
  - auto.
  - right. split; [done|]. exists i. by rewrite fn_lookup_insert.
  - intros a. pc_cases i; [done|]. split; [congruence|]. intros Hr. exfalso.
    assert (a = i); [|done]. apply Hone; [by destruct (ls_pc s a)|by rewrite Hi].
  - intros a m. pc_cases i; auto.
Qed.

Lemma lock_inv_clear s i :
  lock_inv s → s.(ls_pc) i = RelCpu →
  lock_inv (mk_lock_sys s.(ls_locked) None (<[i := RelStore]> s.(ls_pc))).
Proof.
  intros [Hone Hown Hheld Hcpu Hcalm] Hi. pose proof (Hown i) as Hl. rewrite Hi in Hl.
  specialize (Hl I). split; cbn.
  - intros a b Ha Hb. pc_cases i; auto; [symmetry|]; apply Hone; by rewrite ?Hi.
  - auto.
  - right. split; [done|]. exists i. by rewrite fn_lookup_insert.
  - intros a. pc_cases i; [done|]. split; [done|]. intros Hr. exfalso.
    assert (a = i); [|done]. apply Hone; [by destruct (ls_pc s a)|by rewrite Hi].
  - intros a m. pc_cases i; auto.
Qed.

Lemma lock_inv_free s i :
  lock_inv s → s.(ls_pc) i = RelStore →
  lock_inv (mk_lock_sys 0 s.(ls_cpu) (<[i := Out]> s.(ls_pc))).
Proof.
  intros [Hone Hown Hheld Hcpu Hcalm] Hi.
  assert (Hno : ∀ a, a ≠ i → ¬ owns (s.(ls_pc) a)).
  { intros a Hne Ha. apply Hne, Hone; [done|by rewrite Hi]. }
  split; cbn.
  - intros a b Ha Hb. pc_cases i; done || by exfalso; eapply Hno.
  - intros a Ha. pc_cases i; done || by exfalso; eapply Hno.
  - by left.
  - intros a. rewrite Hcpu. pc_cases i; [by rewrite Hi|done].
  - intros a m. pc_cases i; auto.
Qed.

Lemma lock_inv_next s i : lock_inv s → lock_inv (lock_next i s).
Proof.
  intros HI. unfold lock_next. destruct (s.(ls_pc) i) eqn:Hi.
  - destruct (truth _); apply lock_inv_move; by rewrite ?Hi.
  - rewrite bool_decide_false; [apply lock_inv_move; by rewrite ?Hi|].
    rewrite (li_cpu _ HI), Hi. by intros [].
  - unfold truth. destruct (Z.eqb_spec (ls_locked s) 0) as [E|E]; cbn.
    + by apply lock_inv_take.
    + destruct (li_held _ HI) as [?|[E1 _]]; [done|].
      rewrite <- E1. apply lock_inv_move; by rewrite ?Hi.
  - by apply lock_inv_record.
  - rewrite (li_owned _ HI i) by (by rewrite Hi). cbn.
    pose proof (lock_inv_move s i RelHold HI) as Hm. rewrite (li_owned _ HI i) in Hm by (by rewrite Hi).
    apply Hm; by rewrite ?Hi.
  - rewrite bool_decide_true; [apply lock_inv_move; by rewrite ?Hi|].
    apply (li_cpu _ HI). by rewrite Hi.
  - by apply lock_inv_clear.
  - by apply lock_inv_free.
  - by apply (li_calm _ HI) in Hi.
Qed.

Lemma lock_reach_inv s : reach lock_init lock_step s → lock_inv s.
Proof.
  apply reach_inv; [apply lock_inv_init|]. intros s0 s' HI [i ->]. by apply lock_inv_next.
Qed.

(** *** Nested critical sections *)

Lemma times_pushcli n k c d :
  cpu_at k.(hw) c d → d + Z.of_nat n < 1000 →
  ∃ h, times n pushcli k = Ok tt (set_hw h k) ∧ cpu_at h c (d + Z.of_nat n).
Proof.
  revert k d. induction n as [|n IH]; intros k d Hat Hn.
  - exists k.(hw). rewrite set_hw_id, Z.add_0_r. done.
  - cbn [times]. destruct (IH (set_hw (push_hw c k.(hw)) k) (d + 1)) as (h & E & Hh).
    + by apply push_at.
    + lia.
    + exists h. mstep by (eapply pushcli_at; [done|lia]). rewrite E, set_hw_set_hw. split; [done|].
      replace (d + Z.of_nat (S n)) with (d + 1 + Z.of_nat n) by lia. done.
Qed.

Lemma times_S {S} n (m : M S unit) k :
  times (Datatypes.S n) m k = (times n m;; m) k.
Proof.
  revert k. induction n as [|n IH]; intros k.
  - cbn. unfold mbind, M_bind, mret, M_ret. by destruct (m k) as [[]| |].
  - cbn [times] in *. unfold mbind, M_bind in *. destruct (m k) as [[] k'| |]; auto.
Qed.

Lemma nest_ok n k c d :
  cpu_at k.(hw) c d → d + Z.of_nat n < 1000 → (0 < n)%nat →
  (times n pushcli;; times n popcli) k = Ok tt (set_hw (touch c k.(hw)) k).
Proof.
  revert k d. induction n as [|n IH]; intros k d Hat Hn H0; [lia|].
  pose proof (cpu_at_nonneg _ _ _ Hat). pose proof (push_at _ _ _ Hat) as Hp.
  assert (E1 : times (Datatypes.S n) pushcli k = times n pushcli (set_hw (push_hw c k.(hw)) k)).
  { cbn [times]. mstep by (eapply pushcli_at; [done|lia]). done. }
  destruct (times_pushcli n (set_hw (push_hw c k.(hw)) k) c (d + 1)) as (h & E & Hh); [done|lia|].
  mstep by (rewrite E1; exact E). rewrite set_hw_set_hw in E. rewrite times_S.
  assert (E2 : times n popcli (set_hw h k) = Ok tt (set_hw (push_hw c k.(hw)) k)).
  { destruct n as [|n].
    - cbn in *. injection E as <-. done.
    - specialize (IH (set_hw (push_hw c k.(hw)) k) (d + 1) Hp ltac:(lia) ltac:(lia)).
      unfold mbind, M_bind in IH. rewrite E in IH. rewrite set_hw_set_hw in IH. rewrite IH.
      cbn [hw set_hw]. by rewrite (touch_cs _ _ _ Hp) by lia. }
  rewrite set_hw_set_hw. mstep by (exact E2).
  rewrite (popcli_at _ c (d + 1)); [|done|lia].
  rewrite set_hw_set_hw. cbn [hw set_hw]. by rewrite (pop_push _ _ d).
Qed.

(** ** Properties *)

(** C9: in every interleaving of any number of processors running acquire()
    and release() on one lock, at most one processor is between the exchange
    that took the lock and the store that frees it. *)
Theorem spinlock_mutual_exclusion s i j :
  reach lock_init lock_step s →
  owns (s.(ls_pc) i) → owns (s.(ls_pc) j) → i = j.
Proof. intros Hr. apply li_one. by apply lock_reach_inv. Qed.

(** A state with processor 1 in its critical section while 0 and 2 spin. *)
Definition contended : lock_sys :=
  foldl (λ s i, lock_next i s) (mk_lock_sys 0 None (λ _, Out)) [1; 0; 1; 1; 0; 2; 2; 0]%nat.

Lemma contended_reach : reach lock_init lock_step contended.
Proof.
  unfold contended. cbn [foldl].
  repeat (eapply reach_step; [|eexists; reflexivity]). apply reach_init. split_and!; done.
Qed.

Lemma spinlock_mutual_exclusion_witness :
  owns (contended.(ls_pc) 1%nat) ∧ ¬ owns (contended.(ls_pc) 0%nat) ∧
  (∀ j, owns (contended.(ls_pc) j) → 1%nat = j).
Proof.
  split_and!; [done|by intros []|].
  intros j. apply (spinlock_mutual_exclusion contended 1 j contended_reach). done.
Defined.

(** Whenever a processor evaluates holding() the answer is 1 exactly if
    it is between writing lk->cpu in acquire() and clearing it in release();
    so a processor that pairs its calls never reaches panic("acquire") or
    panic("release"), although lk->locked and lk->cpu are read and written
    separately. *)
Theorem spinlock_holding_exact s i :
  reach lock_init lock_step s →
  (holding_now i s = true ↔ s.(ls_pc) i ∈ [Crit; RelHold; RelCpu]) ∧
  (∀ m, s.(ls_pc) i ≠ Panicked m).
Proof.
  intros Hr%lock_reach_inv. split; [|apply (li_calm _ Hr)].
  assert (Hin : s.(ls_pc) i ∈ [Crit; RelHold; RelCpu] ↔ recorded (s.(ls_pc) i)).
  { split; [|destruct (ls_pc s i); cbn; set_solver].
    rewrite !elem_of_cons, elem_of_nil. by intros [->|[->|[->|[]]]]. }
  rewrite Hin, <- (li_cpu _ Hr). unfold holding_now.
  rewrite andb_true_iff, bool_decide_eq_true. split; [by intros []|].
  intros E. split; [|done]. rewrite (li_owned _ Hr i); [done|].
  apply (li_cpu _ Hr) in E. by destruct (ls_pc s i).
Qed.

Lemma spinlock_holding_exact_witness :
  holding_now 1 contended = true ∧ holding_now 0 contended = false ∧
  (∀ m, contended.(ls_pc) 1%nat ≠ Panicked m).
Proof.
  split_and!; [reflexivity|reflexivity|].
  apply (spinlock_holding_exact contended 1 contended_reach).
Defined.

(** Pushcli() and popcli() nest: after any number of pushcli() calls the
    same number of popcli() calls succeeds and restores the nesting depth,
    the interrupt flag and every lock; only the outermost intena record is
    refreshed. *)
Theorem pushcli_popcli_nest n k c d :
  cpu_at k.(hw) c d → d + Z.of_nat n < 1000 → (0 < n)%nat →
  (times n pushcli;; times n popcli) k = Ok tt (set_hw (touch c k.(hw)) k) ∧
  IF_of (touch c k.(hw)) = IF_of k.(hw) ∧ cpu_at (touch c k.(hw)) c d.
Proof.
  intros Hat Hn H0. split_and!; [by eapply nest_ok|done|by apply cpu_at_touch].
Qed.

Lemma boot_cpu_at : cpu_at (boot_hw 2) 0 0.
Proof.
  exists (mk_cpu 0 0 false None 0). split_and!; try done. split; try done. intros j y Hj. lia.
Qed.

Lemma pushcli_popcli_nest_witness :
  (times 3 pushcli;; times 3 popcli) (boot_kernel 2)
  = Ok tt (set_hw (touch 0 (boot_hw 2)) (boot_kernel 2)).
Proof. apply (pushcli_popcli_nest 3 (boot_kernel 2) 0 0 boot_cpu_at); lia. Defined.

(** Acquire() and release() of a free lock: the lock is recorded as held
    by this processor at one more level of pushcli() with interrupts off, and
    releasing it restores every lock, the depth and the interrupt flag; the
    panics fire exactly when the caller already holds the lock or does not
    hold it, and a lock held by another processor makes acquire() spin. *)
Theorem acquire_release k c d l :
  cpu_at k.(hw) c d → d < 999 →
  (lk_free k.(hw) l →
     ∃ h, acquire l k = Ok tt (set_hw h k) ∧ lk_mine h c l ∧ cpu_at h c (d + 1) ∧
          IF_of h = false ∧ (∀ l', l' ≠ l → h.(locks) l' = k.(hw).(locks) l') ∧
          release l (set_hw h k) = Ok tt (set_hw (touch c k.(hw)) k)) ∧
  (lk_mine k.(hw) c l → ∃ k', acquire l k = Err (Panic "acquire") k') ∧
  ((k.(hw).(locks) l).(locked) = 1 → (k.(hw).(locks) l).(lk_cpu) ≠ Some c →
     (∃ k', acquire l k = Err Hang k') ∧ ∃ k', release l k = Err (Panic "release") k') ∧
  ((k.(hw).(locks) l).(locked) = 0 → ∃ k', release l k = Err (Panic "release") k').
Proof.
  intros Hat Hd. pose proof (cpu_at_nonneg _ _ _ Hat). split_and!.
  - intros Hf. exists (acq_hw c l k.(hw)). split_and!.
    + by eapply acquire_ok.
    + apply acq_mine.
    + by apply acq_at.
    + eapply cpu_at_IF; [by apply acq_at|lia].
    + intros. by apply acq_other.
    + rewrite (release_ok _ c (d + 1)); [|by apply acq_at|lia|apply acq_mine].
      cbn [hw set_hw]. by rewrite (rel_acq _ _ d) by done.
  - intros Hm. eexists. by eapply acquire_held.
  - intros H1 H2. split.
    + edestruct acquire_spins as (k' & E & _); eauto.
    + eexists. eapply release_not_held; [done|lia| |by right]. by intros [].
  - intros H1. eexists. eapply release_not_held; [done|lia| |by left]. intros []. lia.
Qed.

Lemma acquire_release_witness :
  ∃ h, acquire LPtable (boot_kernel 2) = Ok tt (set_hw h (boot_kernel 2)) ∧ lk_mine h 0 LPtable.
Proof.
  destruct (acquire_release (boot_kernel 2) 0 0 LPtable boot_cpu_at ltac:(lia)) as [H _].
  destruct (H ltac:(by split)) as (h & E & Hm & _). exists h. split; assumption.
Defined.
