(* ===== verification/Memory.v ===== *)
(** * Memory as the kernel's code sees it (x86.h, mmu.h, memlayout.h)

    Every pointer the kernel dereferences is a virtual address. From
    [KERNBASE] up every page table maps the same way, address a to physical
    address V2P(a), so those accesses go straight to [mem]; below, the
    processor walks the page table in %cr3 ([mmu]) and an access to a page
    that is not present (or, for a store, not writable: entry.S sets CR0_WP)
    faults. [ldb]/[stb]/[ld32]/[st32] are the loads and stores of the code;
    [rd]/[wr]/[rd32]/[wr32] are the same on a bare memory, for kernel
    addresses, with the lemmas the other files use. *)
From S2P Require Import Prelude.
From S2P Require Import Kernel.

(** ** Paging constants and macros (mmu.h) *)

Definition NPDENTRIES : Z := 1024.
Definition NPTENTRIES : Z := 1024.
Definition PTXSHIFT : Z := 12.
Definition PDXSHIFT : Z := 22.

Definition PTE_P : Z := 0x001.
Definition PTE_W : Z := 0x002.
Definition PTE_U : Z := 0x004.

Definition PDX (va : Z) : Z := Z.land (Z.shiftr (u32 va) PDXSHIFT) 0x3FF.
Definition PTX (va : Z) : Z := Z.land (Z.shiftr (u32 va) PTXSHIFT) 0x3FF.
Definition PGADDR (d t o : Z) : Z :=
  u32 (Z.lor (Z.lor (Z.shiftl d PDXSHIFT) (Z.shiftl t PTXSHIFT)) o).
Definition PTE_ADDR (pte : Z) : Z := Z.land (u32 pte) (u32 (Z.lnot 0xFFF)).
Definition PTE_FLAGS (pte : Z) : Z := Z.land (u32 pte) 0xFFF.

(** ** Bytes and words of a memory *)

Definition rd (m : Z → Z) (a : Z) : Z := u8 (m (u32 a)).
Definition wr (a v : Z) (m : Z → Z) : Z → Z := <[u32 a := u8 v]> m.

(** Little-endian 32-bit words. *)
Definition rd32 (m : Z → Z) (a : Z) : Z :=
  rd m a + 2 ^ 8 * rd m (a + 1) + 2 ^ 16 * rd m (a + 2) + 2 ^ 24 * rd m (a + 3).
Definition wr32 (a v : Z) (m : Z → Z) : Z → Z :=
  wr (a + 3) (v / 2 ^ 24) (wr (a + 2) (v / 2 ^ 16) (wr (a + 1) (v / 2 ^ 8) (wr a v m))).

(** ** The processor's address translation *)

(** The kernel address of the byte at user address [va] in the address space
    whose page directory is at physical address [pd]; [None] if it faults. *)
Definition mmu (m : Z → Z) (pd va : Z) (write : bool) : option Z :=
  let pde := rd32 m (P2V (PTE_ADDR pd) + 4 * PDX va) in
  if negb (truth (Z.land pde PTE_P)) || (write && negb (truth (Z.land pde PTE_W))) then None else
  let pte := rd32 m (P2V (PTE_ADDR pde) + 4 * PTX va) in
  if negb (truth (Z.land pte PTE_P)) || (write && negb (truth (Z.land pte PTE_W))) then None else
  Some (P2V (PTE_ADDR pte) + Z.land (u32 va) 0xFFF).

Definition translate (va : Z) (write : bool) : K Z := λ k,
  if KERNBASE <=? u32 va then Ok (u32 va) k else
  match mmu k.(mem) (k.(hw).(cr3) k.(hw).(lapic)) va write with
  | Some a => Ok a k
  | None => Err (CpuFault "page fault") k
  end.

(** ** Loads and stores *)

Definition ldb (va : Z) : K Z :=
  a ← translate va false;
  get (λ k, rd k.(mem) a).

Definition stb (va v : Z) : K unit :=
  a ← translate va true;
  modify (λ k, set_mem (wr a v k.(mem)) k).

Definition ld32 (va : Z) : K Z :=
  b0 ← ldb va;
  b1 ← ldb (va + 1);
  b2 ← ldb (va + 2);
  b3 ← ldb (va + 3);
  mret (b0 + 2 ^ 8 * b1 + 2 ^ 16 * b2 + 2 ^ 24 * b3).

Definition st32 (va v : Z) : K unit :=
  stb va v;;
  stb (va + 1) (v / 2 ^ 8);;
  stb (va + 2) (v / 2 ^ 16);;
  stb (va + 3) (v / 2 ^ 24).

(** ** Lemmas on bytes and words *)

Lemma rd_range m a : is_u8 (rd m a).
Proof. apply u8_range. Qed.

Lemma rd_wr_eq m a v : rd (wr a v m) a = u8 v.
Proof. unfold rd, wr. rewrite fn_lookup_insert. apply u8_small, u8_range. Qed.

Lemma rd_wr_ne m a b v : u32 a ≠ u32 b → rd (wr a v m) b = rd m b.
Proof. intros. unfold rd, wr. by rewrite fn_lookup_insert_ne. Qed.

(** [a] and the [n] bytes after it are kernel addresses. *)
Definition kaddr (a n : Z) : Prop := KERNBASE <= a ∧ 0 <= n ∧ a + n <= 2 ^ 32.

Lemma kaddr_u32 a n i : kaddr a n → 0 <= i < n → u32 (a + i) = a + i.
Proof. intros (? & ? & ?) ?. apply u32_small. unfold is_u32, KERNBASE in *. lia. Qed.

Lemma kaddr_0 a n : kaddr a n → 0 < n → u32 a = a.
Proof. intros Ha Hn. rewrite <- (Z.add_0_r a). eapply kaddr_u32; [done|lia]. Qed.

Lemma kaddr_sub a n b l : kaddr a n → a <= b → 0 <= l → b + l <= a + n → kaddr b l.
Proof. unfold kaddr. lia. Qed.

Lemma rd32_range m a : is_u32 (rd32 m a).
Proof.
  unfold rd32, is_u32. pose proof (rd_range m a). pose proof (rd_range m (a + 1)).
  pose proof (rd_range m (a + 2)). pose proof (rd_range m (a + 3)). unfold is_u8 in *. lia.
Qed.

(** The four bytes of a word. *)
Lemma bytes_of_word v : is_u32 v →
  u8 v + 2 ^ 8 * u8 (v / 2 ^ 8) + 2 ^ 16 * u8 (v / 2 ^ 16) + 2 ^ 24 * u8 (v / 2 ^ 24) = v.
Proof.
  unfold is_u32. rewrite ?u8_mod. intros Hv.
  change (2 ^ 16) with (2 ^ 8 * 2 ^ 8). change (2 ^ 24) with (2 ^ 8 * 2 ^ 8 * 2 ^ 8).
  rewrite <- !Z.div_div by lia. change (2 ^ 32) with 4294967296 in Hv. change (2 ^ 8) with 256.
  Z.to_euclidean_division_equations. lia.
Qed.

Lemma rd_wr32_ne m a v b :
  kaddr a 4 → is_u32 b → ¬ (a <= b < a + 4) → rd (wr32 a v m) b = rd m b.
Proof.
  intros Ha Hb Hn. unfold wr32. pose proof (u32_small b Hb) as Eb.
  rewrite !rd_wr_ne; [done|..]; rewrite ?(kaddr_u32 a 4), ?(kaddr_0 a 4), Eb by (done || lia); lia.
Qed.

Lemma rd_wr32_eq m a v i :
  kaddr a 4 → 0 <= i < 4 → rd (wr32 a v m) (a + i) = u8 (v / 2 ^ (8 * i)).
Proof.
  intros Ha Hi. unfold wr32.
  assert (Hne : ∀ j, 0 <= j < 4 → i ≠ j → u32 (a + j) ≠ u32 (a + i)).
  { intros j ??. rewrite !(kaddr_u32 a 4) by (done || lia). lia. }
  pose proof (Hne 0) as H0. rewrite Z.add_0_r in H0.
  assert (i = 0 ∨ i = 1 ∨ i = 2 ∨ i = 3) as [->|[->|[->| ->]]] by lia;
    rewrite ?rd_wr_ne by (apply H0 || apply Hne; lia); rewrite ?Z.add_0_r, ?rd_wr_eq; [|done..].
  by rewrite Z.div_1_r.
Qed.

Lemma rd32_wr32_eq m a v : kaddr a 4 → is_u32 v → rd32 (wr32 a v m) a = v.
Proof.
  intros Ha Hv. rewrite <- (bytes_of_word v Hv) at 2. unfold rd32.
  rewrite <- (Z.add_0_r a) at 2. rewrite !rd_wr32_eq by (done || lia). by rewrite Z.div_1_r.
Qed.

Lemma rd32_wr32_ne m a v b :
  kaddr a 4 → kaddr b 4 → b + 4 <= a ∨ a + 4 <= b → rd32 (wr32 a v m) b = rd32 m b.
Proof.
  intros Ha Hb Hd. unfold rd32. assert (∀ i, 0 <= i < 4 → rd (wr32 a v m) (b + i) = rd m (b + i)) as Hi.
  { intros i ?. apply rd_wr32_ne; [done| |lia]. unfold kaddr, KERNBASE, is_u32 in *. lia. }
  rewrite !Hi by lia. rewrite <- (Z.add_0_r b) at 1 5. by rewrite Hi by lia.
Qed.

(** Words of memories that agree on their bytes. *)
Lemma rd32_ext m m' a : (∀ i, 0 <= i < 4 → rd m (a + i) = rd m' (a + i)) → rd32 m a = rd32 m' a.
Proof. intros H. unfold rd32. rewrite !H by lia. rewrite <- (Z.add_0_r a) at 1 5. by rewrite H by lia. Qed.

(** ** Accesses to kernel addresses *)

Lemma translate_kern k a w : KERNBASE <= a < 2 ^ 32 → translate a w k = Ok a k.
Proof.
  intros Ha. unfold translate. rewrite (u32_small a) by (unfold is_u32, KERNBASE in *; lia).
  by rewrite (proj2 (Z.leb_le _ _)) by lia.
Qed.

Lemma ldb_kern k a : KERNBASE <= a < 2 ^ 32 → ldb a k = Ok (rd k.(mem) a) k.
Proof. intros. unfold ldb. by mstep by (by apply translate_kern). Qed.

Lemma stb_kern k a v : KERNBASE <= a < 2 ^ 32 → stb a v k = Ok tt (set_mem (wr a v k.(mem)) k).
Proof. intros. unfold stb. by mstep by (by apply translate_kern). Qed.

Lemma ld32_kern k a : kaddr a 4 → ld32 a k = Ok (rd32 k.(mem) a) k.
Proof.
  intros (? & ? & ?). unfold ld32. do 4 (mstep by (apply ldb_kern; lia)). done.
Qed.

Lemma st32_kern k a v : kaddr a 4 → st32 a v k = Ok tt (set_mem (wr32 a v k.(mem)) k).
Proof.
  intros (? & ? & ?). unfold st32. do 3 (mstep by (apply stb_kern; lia)).
  rewrite stb_kern by lia. done.
Qed.

(** ** Accesses through the page table *)

(** The kernel address that an access to [va] goes to. *)
Definition xlate (k : kernel) (va : Z) (w : bool) : option Z :=
  if KERNBASE <=? u32 va then Some (u32 va) else mmu k.(mem) (k.(hw).(cr3) k.(hw).(lapic)) va w.

Lemma translate_xlate k va w a : xlate k va w = Some a → translate va w k = Ok a k.
Proof. unfold xlate, translate. destruct (_ <=? _); [by intros [= ->]|by intros ->]. Qed.

Lemma ldb_xlate k va a : xlate k va false = Some a → ldb va k = Ok (rd k.(mem) a) k.
Proof. intros H. unfold ldb. by mstep by (by apply translate_xlate). Qed.

Lemma stb_xlate k va a v : xlate k va true = Some a → stb va v k = Ok tt (set_mem (wr a v k.(mem)) k).
Proof. intros H. unfold stb. by mstep by (by apply translate_xlate). Qed.

(** A byte that the walk for [va] reads. *)
Definition walk_byte (m : Z → Z) (pd va x : Z) : Prop :=
  let a := P2V (PTE_ADDR pd) + 4 * PDX va in
  let b := P2V (PTE_ADDR (rd32 m a)) + 4 * PTX va in
  ∃ i, 0 <= i < 4 ∧ (x = u32 (a + i) ∨ x = u32 (b + i)).

Lemma rd_u32 m a : rd m (u32 a) = rd m a.
Proof. unfold rd. by rewrite u32_u32. Qed.

Lemma mmu_frame m m' pd va w :
  (∀ x, walk_byte m pd va x → rd m' x = rd m x) → mmu m' pd va w = mmu m pd va w.
Proof.
  intros H. unfold mmu.
  assert (E1 : rd32 m' (P2V (PTE_ADDR pd) + 4 * PDX va) = rd32 m (P2V (PTE_ADDR pd) + 4 * PDX va)).
  { apply rd32_ext. intros i Hi. rewrite <- (rd_u32 m'), <- (rd_u32 m). apply H. exists i. auto. }
  rewrite E1. destruct (negb _ || _); [done|].
  rewrite (rd32_ext m' m); [done|]. intros i Hi. rewrite <- (rd_u32 m'), <- (rd_u32 m). apply H. exists i. auto.
Qed.

(** The [n] addresses from [va] on may be written, at the distinct kernel
    addresses [f 0], [f 1], ...; none of these is an entry of the page table
    that maps them. *)
Record window (k : kernel) (va n : Z) (f : Z → Z) : Prop := {
  wi_map : ∀ i, 0 <= i < n → xlate k (u32 (va + i)) true = Some (f i);
  wi_inj : ∀ i j, 0 <= i < n → 0 <= j < n → u32 (f i) = u32 (f j) → i = j;
  wi_apart : ∀ i j, 0 <= i < n → 0 <= j < n → u32 (va + i) < KERNBASE →
    ¬ walk_byte k.(mem) (k.(hw).(cr3) k.(hw).(lapic)) (u32 (va + i)) (u32 (f j));
}.

(** The bytes [bs] stored at [f i], [f (i + 1)], ... *)
Fixpoint put_at (f : Z → Z) (i : Z) (bs : list Z) (m : Z → Z) : Z → Z :=
  match bs with
  | [] => m
  | b :: bs' => put_at f (i + 1) bs' (wr (f i) b m)
  end.

Lemma put_at_ne f bs i m x :
  (∀ j, i <= j < i + Z.of_nat (length bs) → u32 (f j) ≠ u32 x) → rd (put_at f i bs m) x = rd m x.
Proof.
  revert i m. induction bs as [|b bs IH]; intros i m H; [done|]. cbn [put_at length] in *.
  rewrite IH by (intros j Hj; apply H; lia). apply rd_wr_ne, H. lia.
Qed.

Lemma put_at_app f bs1 bs2 i m :
  put_at f i (bs1 ++ bs2) m = put_at f (i + Z.of_nat (length bs1)) bs2 (put_at f i bs1 m).
Proof.
  revert i m. induction bs1 as [|b bs IH]; intros i m; cbn [app put_at length]; [by rewrite Z.add_0_r|].
  rewrite IH. by replace (i + 1 + Z.of_nat (length bs)) with (i + Z.of_nat (S (length bs))) by lia.
Qed.

Lemma window_put k va n f bs : window k va n f → Z.of_nat (length bs) <= n →
  window (set_mem (put_at f 0 bs k.(mem)) k) va n f.
Proof.
  intros [Hm Hi Ha] Hl. assert (Hw : ∀ i, 0 <= i < n → u32 (va + i) < KERNBASE → ∀ x,
    walk_byte k.(mem) (k.(hw).(cr3) k.(hw).(lapic)) (u32 (va + i)) x → rd (put_at f 0 bs k.(mem)) x = rd k.(mem) x).
  { intros i Hi' Hlt x Hx. apply put_at_ne. intros j Hj E. apply (Ha i j); [done|lia|done|].
    rewrite E. destruct Hx as (z & Hz & [-> | ->]); exists z; rewrite u32_u32; auto. }
  split; [|exact Hi|].
  - intros i Hir. specialize (Hm i Hir). unfold xlate in *. cbn [mem hw set_mem]. rewrite u32_u32 in *.
    destruct (Z.leb_spec KERNBASE (u32 (va + i))); [done|]. rewrite (mmu_frame k.(mem)); [done|]. by apply Hw.
  - intros i j Hir Hj Hlt Hx. apply (Ha i j Hir Hj Hlt). cbn [mem hw set_mem] in Hx.
    destruct Hx as (z & Hz & Hx). exists z. split; [done|]. cbv zeta in *.
    rewrite (rd32_ext _ k.(mem)) in Hx; [exact Hx|]. intros y Hy. rewrite <- (rd_u32 (put_at f 0 bs k.(mem))), <- (rd_u32 k.(mem)).
    apply (Hw i Hir Hlt). exists y. auto.
Qed.

(** Storing one more byte. *)
Lemma window_stb k va n f bs b : window k va n f → Z.of_nat (length bs) < n →
  stb (u32 (va + Z.of_nat (length bs))) b (set_mem (put_at f 0 bs k.(mem)) k)
  = Ok tt (set_mem (put_at f 0 (bs ++ [b]) k.(mem)) k).
Proof.
  intros Hw Hl. pose proof (window_put k va n f bs Hw ltac:(lia)) as Hw'.
  rewrite (stb_xlate _ _ (f (Z.of_nat (length bs)))) by (apply (wi_map _ _ _ _ Hw'); lia).
  rewrite put_at_app. cbn [put_at mem set_mem]. rewrite Z.add_0_l. done.
Qed.

(** What was stored is read back, and nothing else changed. *)
Lemma put_at_rd k va n f bs i b : window k va n f → Z.of_nat (length bs) <= n → bs !! i = Some b →
  rd (put_at f 0 bs k.(mem)) (f (Z.of_nat i)) = u8 b.
Proof.
  intros Hw Hl Hb. pose proof (lookup_lt_Some _ _ _ Hb) as Hlt.
  rewrite <- (take_drop_middle bs i b Hb), put_at_app. cbn [put_at].
  rewrite length_take, Nat.min_l by lia. rewrite put_at_ne; [by rewrite Z.add_0_l, rd_wr_eq|].
  intros j Hj E. rewrite length_drop in Hj. apply (wi_inj _ _ _ _ Hw) in E; lia.
Qed.

(** The bytes [bs] can be read from [va] on. *)
Definition reads (k : kernel) (va : Z) (bs : list Z) : Prop :=
  ∀ i b, bs !! i = Some b → ∃ a, xlate k (u32 (va + Z.of_nat i)) false = Some a ∧ rd k.(mem) a = b.

(** ** Page arithmetic *)

Lemma land_page x : is_u32 x → Z.land x (u32 (Z.lnot 0xFFF)) = x / 2 ^ 12 * 2 ^ 12.
Proof.
  intros Hx. rewrite !u32_mod. rewrite <- !Z.land_ones by lia.
  rewrite (Z.land_comm (Z.lnot _)), Z.land_assoc, (Z.land_ones x 32) by lia.
  rewrite (Z.mod_small x (2 ^ 32)) by apply Hx. change 0xFFF with (Z.ones 12).
  rewrite <- Z.ldiff_land, Z.ldiff_ones_r by lia.
  by rewrite Z.shiftl_mul_pow2, Z.shiftr_div_pow2 by lia.
Qed.

Lemma PGROUNDDOWN_div a : is_u32 a → PGROUNDDOWN a = a / 4096 * 4096.
Proof. intros Ha. unfold PGROUNDDOWN, PGSIZE. rewrite (u32_small a Ha). by apply land_page. Qed.

Lemma PGROUNDUP_div a : 0 <= a <= 2 ^ 32 - 4096 → PGROUNDUP a = (a + 4095) / 4096 * 4096.
Proof.
  intros Ha. unfold PGROUNDUP, PGSIZE. replace (a + 4096 - 1) with (a + 4095) by lia.
  rewrite (u32_small (a + 4095)) by (unfold is_u32; lia). apply land_page. unfold is_u32. lia.
Qed.

Lemma PTE_ADDR_div x : PTE_ADDR x = u32 x / 4096 * 4096.
Proof. unfold PTE_ADDR. apply land_page, u32_range. Qed.

Lemma PTE_FLAGS_mod x : PTE_FLAGS x = u32 x `mod` 4096.
Proof. unfold PTE_FLAGS. change 0xFFF with (Z.ones 12). by rewrite Z.land_ones by lia. Qed.
