(* ===== verification/Libstr.v ===== *)
(** * string.c: memory and string functions

    The functions of string.c over the kernel's memory, byte by byte as the
    loops (and the rep stos instructions of x86.h) go. The lemmas give the
    resulting memory as a function of the initial one: [fillm] for memset,
    [copym] for memmove, whatever the overlap, [strm] for strncpy and
    safestrcpy. *)
From S2P Require Import Prelude.
From S2P Require Import Kernel.
From S2P Require Import Memory.

(** ** x86.h: rep stosb, rep stosl *)

Fixpoint rep_stosb (n : nat) (addr data : Z) : K unit :=
  match n with
  | O => mret tt
  | S n' => stb addr data;; rep_stosb n' (addr + 1) data
  end.

Fixpoint rep_stosl (n : nat) (addr data : Z) : K unit :=
  match n with
  | O => mret tt
  | S n' => st32 addr data;; rep_stosl n' (addr + 4) data
  end.

Definition stosb (addr data cnt : Z) : K unit := rep_stosb (Z.to_nat (u32 cnt)) addr data.
Definition stosl (addr data cnt : Z) : K unit := rep_stosl (Z.to_nat (u32 cnt)) addr data.

(** ** string.c *)

(** (c<<24)|(c<<16)|(c<<8)|c *)
Definition rep4 (c : Z) : Z :=
  u32 (Z.lor (Z.lor (Z.lor (Z.shiftl c 24) (Z.shiftl c 16)) (Z.shiftl c 8)) c).

Definition memset (dst c n : Z) : K Z :=
  (if (Z.rem (s32 dst) 4 =? 0) && (n `mod` 4 =? 0) then
     let c := Z.land c 0xFF in
     stosl dst (rep4 c) (n / 4)
   else stosb dst c n);;
  mret dst.

Fixpoint memcmp_loop (n : nat) (s1 s2 : Z) : K Z :=
  match n with
  | O => mret 0
  | S n' =>
      a ← ldb s1;
      b ← ldb s2;
      if negb (a =? b) then mret (a - b)
      else memcmp_loop n' (s1 + 1) (s2 + 1)
  end.

Definition memcmp (v1 v2 n : Z) : K Z := memcmp_loop (Z.to_nat n) v1 v2.

Fixpoint copy_up (n : nat) (d s : Z) : K unit :=
  match n with
  | O => mret tt
  | S n' => b ← ldb s; stb d b;; copy_up n' (d + 1) (s + 1)
  end.

Fixpoint copy_down (n : nat) (d s : Z) : K unit :=
  match n with
  | O => mret tt
  | S n' => b ← ldb (s - 1); stb (d - 1) b;; copy_down n' (d - 1) (s - 1)
  end.

Definition memmove (dst src n : Z) : K Z :=
  (if (src <? dst) && (dst <? u32 (src + n))
   then copy_down (Z.to_nat n) (dst + n) (src + n)
   else copy_up (Z.to_nat n) dst src);;
  mret dst.

Fixpoint strncmp_loop (n : nat) (p q : Z) : K Z :=
  match n with
  | O => mret 0
  | S n' =>
      a ← ldb p;
      if a =? 0 then b ← ldb q; mret (a - b) else
      b ← ldb q;
      if a =? b then strncmp_loop n' (p + 1) (q + 1) else mret (a - b)
  end.

Definition strncmp (p q n : Z) : K Z := strncmp_loop (Z.to_nat n) p q.

(** while(n-- > 0 && ( *s++ = *t++ ) != 0): the count left and s. *)
Fixpoint strcpy_loop (n : nat) (s t : Z) : K (nat * Z) :=
  match n with
  | O => mret (O, s)
  | S n' =>
      b ← ldb t;
      stb s b;;
      if b =? 0 then mret (n', s + 1) else strcpy_loop n' (s + 1) (t + 1)
  end.

Fixpoint zero_loop (n : nat) (s : Z) : K unit :=
  match n with
  | O => mret tt
  | S n' => stb s 0;; zero_loop n' (s + 1)
  end.

Definition strncpy (s t n : Z) : K Z :=
  '(n', s') ← strcpy_loop (Z.to_nat n) s t;
  zero_loop n' s';;
  mret s.

Definition safestrcpy (s t n : Z) : K Z :=
  if n <=? 0 then mret s else
  '(_, s') ← strcpy_loop (Z.to_nat (n - 1)) s t;
  stb s' 0;;
  mret s.

Definition strlen (s : Z) : K Z :=
  while32 (λ n, b ← ldb (s + n); mret (if b =? 0 then inr n else inl (s32 (n + 1)))) 0.

(** ** What the loops compute *)

Definition inside (x a n : Z) : bool := (a <=? x) && (x <? a + n).

Definition fillm (a n v : Z) (m : Z → Z) : Z → Z := λ x, if inside x a n then u8 v else m x.

Definition copym (d s n : Z) (m : Z → Z) : Z → Z :=
  λ x, if inside x d n then u8 (m (s + (x - d))) else m x.

(** [z] bytes copied from [t] to [s], then zeros up to [s+e]. *)
Definition strm (s t z e : Z) (m : Z → Z) : Z → Z :=
  λ x, if inside x s z then u8 (m (t + (x - s))) else if inside x s e then 0 else m x.

Lemma inside_spec x a n : BoolSpec (a <= x < a + n) (¬ a <= x < a + n) (inside x a n).
Proof.
  unfold inside. destruct (Z.leb_spec a x), (Z.ltb_spec x (a + n)); constructor; lia.
Qed.

(** Case analysis on every [inside] of the goal. *)
Ltac inside_cases :=
  repeat match goal with |- context [inside ?x ?a ?n] => destruct (inside_spec x a n) end.

Lemma wr_val a v m x : is_u32 a → wr a v m x = if decide (x = a) then u8 v else m x.
Proof.
  intros Ha. unfold wr. rewrite (u32_small a Ha). unfold insert, fn_insert.
  by destruct (decide (a = x)), (decide (x = a)).
Qed.

Lemma kaddr_is_u32 a n : kaddr a n → 0 < n → is_u32 a.
Proof. unfold kaddr, is_u32, KERNBASE. lia. Qed.

Lemma set_mem_set_mem m m' k : set_mem m (set_mem m' k) = set_mem m k.
Proof. done. Qed.

Lemma rep_stosb_kern n a v k :
  kaddr a (Z.of_nat n) → rep_stosb n a v k = Ok tt (set_mem (fillm a (Z.of_nat n) v k.(mem)) k).
Proof.
  revert a k. induction n as [|n IH]; intros a k Ha; cbn [rep_stosb].
  - replace (fillm a _ v k.(mem)) with k.(mem); [by rewrite set_mem_id|].
    apply functional_extensionality. intros x. unfold fillm. inside_cases; [lia|done].
  - mstep by (apply stb_kern; unfold kaddr in *; lia). rewrite IH by (unfold kaddr in *; lia).
    rewrite set_mem_set_mem. do 2 f_equal. apply functional_extensionality. intros x. cbn [mem set_mem].
    unfold fillm. rewrite wr_val by (eapply kaddr_is_u32; [done|lia]).
    destruct (decide (x = a)); inside_cases; done || lia.
Qed.

Lemma rep4_bytes c i : 0 <= c < 256 → 0 <= i < 4 → u8 (rep4 c / 2 ^ (8 * i)) = c.
Proof.
  intros Hc Hi.
  assert (H : forallb (λ c, forallb (λ i, u8 (rep4 c / 2 ^ (8 * i)) =? c) (seqZ 0 4)) (seqZ 0 256) = true)
    by (vm_compute; reflexivity).
  rewrite forallb_forall in H. specialize (H c). rewrite <- list_elem_of_In, elem_of_seqZ in H.
  specialize (H ltac:(lia)). rewrite forallb_forall in H. specialize (H i).
  rewrite <- list_elem_of_In, elem_of_seqZ in H. by apply Z.eqb_eq, H.
Qed.

Lemma wr32_rep4 a c m : kaddr a 4 → 0 <= c < 256 → wr32 a (rep4 c) m = fillm a 4 c m.
Proof.
  intros Ha Hc. apply functional_extensionality. intros x. unfold wr32, fillm.
  pose proof (rep4_bytes c 0 Hc ltac:(lia)) as H0. rewrite Z.div_1_r in H0.
  pose proof (rep4_bytes c 1 Hc ltac:(lia)). pose proof (rep4_bytes c 2 Hc ltac:(lia)).
  pose proof (rep4_bytes c 3 Hc ltac:(lia)). change (8 * 1) with 8 in *. change (8 * 2) with 16 in *. change (8 * 3) with 24 in *.
  pose proof (u8_small c Hc). unfold kaddr, KERNBASE in *.
  rewrite !wr_val by (unfold is_u32; lia).
  destruct (decide (x = a + 3)), (decide (x = a + 2)), (decide (x = a + 1)), (decide (x = a));
    inside_cases; congruence || lia.
Qed.

Lemma rep_stosl_kern n a c k :
  kaddr a (4 * Z.of_nat n) → 0 <= c < 256 →
  rep_stosl n a (rep4 c) k = Ok tt (set_mem (fillm a (4 * Z.of_nat n) c k.(mem)) k).
Proof.
  intros Ha Hc. revert a k Ha. induction n as [|n IH]; intros a k Ha; cbn [rep_stosl].
  - replace (fillm a _ c k.(mem)) with k.(mem); [by rewrite set_mem_id|].
    apply functional_extensionality. intros x. unfold fillm. inside_cases; [lia|done].
  - mstep by (apply st32_kern; unfold kaddr in *; lia). rewrite IH by (unfold kaddr in *; lia).
    rewrite set_mem_set_mem. do 2 f_equal. apply functional_extensionality. intros x. cbn [mem set_mem].
    rewrite wr32_rep4 by (unfold kaddr in *; lia). unfold fillm. inside_cases; done || lia.
Qed.

Lemma u8_land c : u8 (Z.land c 0xFF) = u8 c.
Proof.
  rewrite ?u8_mod. change 0xFF with (Z.ones 8). rewrite Z.land_ones by lia. by rewrite Z.mod_mod.
Qed.

Lemma fillm_u8 a n c m : fillm a n (Z.land c 0xFF) m = fillm a n c m.
Proof. unfold fillm. apply functional_extensionality. intros x. by rewrite u8_land. Qed.

(** Both branches of memset fill the range. *)
Lemma memset_ok k dst c n :
  kaddr dst n → memset dst c n k = Ok dst (set_mem (fillm dst n c k.(mem)) k).
Proof.
  intros Ha. unfold memset. pose proof Ha as (? & ? & ?). unfold KERNBASE in *.
  destruct ((_ =? 0) && (_ =? 0)) eqn:E.
  - apply andb_prop in E as [_ E%Z.eqb_eq]. cbv zeta. unfold stosl.
    assert (Hd : n = 4 * (n / 4)) by (rewrite (Z.div_mod n 4) at 1 by lia; lia).
    assert (Hc : 0 <= Z.land c 0xFF < 256).
    { change 0xFF with (Z.ones 8). rewrite Z.land_ones by lia. apply Z.mod_pos_bound. lia. }
    mstep by (apply rep_stosl_kern; [|exact Hc];
              rewrite u32_small, Z2Nat.id, <- Hd by (unfold is_u32; lia); exact Ha).
    rewrite u32_small, Z2Nat.id, <- Hd by (unfold is_u32; lia). by rewrite fillm_u8.
  - unfold stosb. mstep by (apply rep_stosb_kern; rewrite u32_small, Z2Nat.id by (unfold is_u32; lia); exact Ha).
    by rewrite u32_small, Z2Nat.id by (unfold is_u32; lia).
Qed.

(** *** Copies *)

Lemma copy_up_kern n d s k :
  kaddr d (Z.of_nat n) → kaddr s (Z.of_nat n) → d <= s ∨ s + Z.of_nat n <= d →
  copy_up n d s k = Ok tt (set_mem (copym d s (Z.of_nat n) k.(mem)) k).
Proof.
  revert d s k. induction n as [|n IH]; intros d s k Hd Hs Ho; cbn [copy_up].
  - replace (copym d s _ k.(mem)) with k.(mem); [by rewrite set_mem_id|].
    apply functional_extensionality. intros x. unfold copym. inside_cases; [lia|done].
  - mstep by (apply ldb_kern; unfold kaddr in *; lia). mstep by (apply stb_kern; unfold kaddr in *; lia).
    rewrite IH by (unfold kaddr in *; lia). rewrite set_mem_set_mem. do 2 f_equal.
    apply functional_extensionality. intros x. cbn [mem set_mem]. unfold copym, rd.
    rewrite !wr_val by (eapply kaddr_is_u32; [done|lia]).
    rewrite (kaddr_0 s (Z.of_nat (S n))) by (done || lia).
    destruct (decide (x = d)) as [->|].
    + inside_cases; try lia. rewrite (u8_small (u8 _)) by apply u8_range. do 2 f_equal. lia.
    + inside_cases; try lia. destruct (decide _); [lia|]. do 2 f_equal. lia.
Qed.

Lemma copy_down_kern n d s k :
  kaddr (d - Z.of_nat n) (Z.of_nat n) → kaddr (s - Z.of_nat n) (Z.of_nat n) → s <= d →
  copy_down n d s k =
    Ok tt (set_mem (copym (d - Z.of_nat n) (s - Z.of_nat n) (Z.of_nat n) k.(mem)) k).
Proof.
  revert d s k. induction n as [|n IH]; intros d s k Hd Hs Ho; cbn [copy_down].
  - replace (copym _ _ _ k.(mem)) with k.(mem); [by rewrite set_mem_id|].
    apply functional_extensionality. intros x. unfold copym. inside_cases; [lia|done].
  - mstep by (apply ldb_kern; unfold kaddr in *; lia). mstep by (apply stb_kern; unfold kaddr in *; lia).
    rewrite IH by (unfold kaddr in *; lia). rewrite set_mem_set_mem. do 2 f_equal.
    apply functional_extensionality. intros x. cbn [mem set_mem]. unfold copym, rd.
    assert (is_u32 (d - 1) ∧ is_u32 (s - 1)) as [? ?] by (unfold kaddr, KERNBASE, is_u32 in *; lia).
    rewrite !wr_val by done. rewrite (u32_small (s - 1)) by done.
    destruct (decide (x = d - 1)) as [->|].
    + inside_cases; try lia. rewrite (u8_small (u8 _)) by apply u8_range. do 2 f_equal. lia.
    + inside_cases; try lia. destruct (decide _); [lia|]. do 2 f_equal. lia.
Qed.

Lemma memmove_ok k dst src n :
  kaddr dst n → kaddr src n →
  memmove dst src n k = Ok dst (set_mem (copym dst src n k.(mem)) k).
Proof.
  intros Hd Hs. unfold memmove. pose proof Hd as (? & ? & ?). pose proof Hs as (? & _ & ?).
  assert (Hn : Z.of_nat (Z.to_nat n) = n) by lia. unfold KERNBASE in *.
  destruct ((src <? dst) && (dst <? u32 (src + n))) eqn:E.
  - apply andb_prop in E as [E1%Z.ltb_lt E2].
    mstep by (apply copy_down_kern; rewrite ?Hn; [by replace (dst + n - n) with dst by lia|
              by replace (src + n - n) with src by lia|lia]).
    rewrite Hn. by replace (dst + n - n) with dst by lia; replace (src + n - n) with src by lia.
  - mstep by (apply copy_up_kern; rewrite ?Hn; [done|done|]; apply andb_false_iff in E as [E|E];
       apply Z.ltb_ge in E; [lia|]; destruct (decide (src + n = 2 ^ 32)) as [E'|];
       [lia|rewrite u32_small in E by (unfold is_u32; lia); lia]).
    by rewrite Hn.
Qed.

(** *** Comparisons *)

(** [p] and [q] agree on [z] bytes, none of them 0. *)
Definition agree (m : Z → Z) (p q z : Z) : Prop :=
  ∀ j, 0 <= j < z → rd m (p + j) = rd m (q + j) ∧ rd m (p + j) ≠ 0.

Lemma memcmp_ok k v1 v2 n :
  kaddr v1 n → kaddr v2 n →
  ∃ r, memcmp v1 v2 n k = Ok r k ∧
    (r = 0 ∧ (∀ i, 0 <= i < n → rd k.(mem) (v1 + i) = rd k.(mem) (v2 + i)) ∨
     r ≠ 0 ∧ ∃ i, 0 <= i < n ∧ r = rd k.(mem) (v1 + i) - rd k.(mem) (v2 + i) ∧
       ∀ j, 0 <= j < i → rd k.(mem) (v1 + j) = rd k.(mem) (v2 + j)).
Proof.
  intros H1 H2. unfold memcmp.
  destruct (Z_of_nat_complete n) as [l ->]; [apply H1|]. rewrite Nat2Z.id. rename l into n.
  revert v1 v2 H1 H2. induction n as [|n IH]; intros v1 v2 H1 H2; cbn [memcmp_loop].
  { exists 0. split; [done|left]. split; [done|]. lia. }
  mstep by (apply ldb_kern; unfold kaddr in *; lia). mstep by (apply ldb_kern; unfold kaddr in *; lia).
  destruct (Z.eqb_spec (rd k.(mem) v1) (rd k.(mem) v2)) as [E|E]; cbn [negb].
  - destruct (IH (v1 + 1) (v2 + 1)) as (r & Er & Hr); [unfold kaddr in *; lia..|].
    exists r. split; [done|]. assert (Hstep : ∀ i, (i = 0 ∨ rd k.(mem) (v1 + 1 + (i - 1)) = rd k.(mem) (v2 + 1 + (i - 1))) →
      rd k.(mem) (v1 + i) = rd k.(mem) (v2 + i)).
    { intros i [->|Hi]; [by rewrite !Z.add_0_r|].
      by replace (v1 + i) with (v1 + 1 + (i - 1)) by lia; replace (v2 + i) with (v2 + 1 + (i - 1)) by lia. }
    destruct Hr as [[Hr Hi]|(Hr & i & Hi & Hd & Hj)]; [left|right]; split; try done.
    + intros i Hlt. apply Hstep. destruct (decide (i = 0)); [by left|right]. apply Hi. lia.
    + exists (i + 1). split_and!; [lia|lia| |].
      * by replace (v1 + (i + 1)) with (v1 + 1 + i) by lia; replace (v2 + (i + 1)) with (v2 + 1 + i) by lia.
      * intros j Hlt. apply Hstep. destruct (decide (j = 0)); [by left|right]. apply Hj. lia.
  - exists (rd k.(mem) v1 - rd k.(mem) v2). split; [done|right]. split; [lia|].
    exists 0. rewrite !Z.add_0_r. split_and!; [lia|lia|done|lia].
Qed.

Lemma strncmp_ok k p q n :
  kaddr p n → kaddr q n →
  ∃ r z, strncmp p q n k = Ok r k ∧ 0 <= z <= n ∧ agree k.(mem) p q z ∧
    (z = n → r = 0) ∧
    (z < n → r = rd k.(mem) (p + z) - rd k.(mem) (q + z) ∧ (rd k.(mem) (p + z) = 0 ∨ r ≠ 0)).
Proof.
  intros H1 H2. unfold strncmp.
  destruct (Z_of_nat_complete n) as [l ->]; [apply H1|]. rewrite Nat2Z.id. rename l into n.
  revert p q H1 H2. induction n as [|n IH]; intros p q H1 H2; cbn [strncmp_loop].
  { exists 0, 0. split_and!; try done. intros j ?; lia. }
  mstep by (apply ldb_kern; unfold kaddr in *; lia).
  destruct (Z.eqb_spec (rd k.(mem) p) 0) as [E0|E0].
  { mstep by (apply ldb_kern; unfold kaddr in *; lia). eexists _, 0. rewrite !Z.add_0_r.
    split_and!; [done|lia|lia|intros j ?; lia|lia|]. intros _. split; [done|by left]. }
  mstep by (apply ldb_kern; unfold kaddr in *; lia).
  destruct (Z.eqb_spec (rd k.(mem) p) (rd k.(mem) q)) as [E|E].
  - destruct (IH (p + 1) (q + 1)) as (r & z & Er & Hz & Ha & Hend & Hlt); [unfold kaddr in *; lia..|].
    exists r, (z + 1). split_and!; [done|lia|lia| |intros; apply Hend; lia|].
    + intros j Hj. destruct (decide (j = 0)) as [->|]; [by rewrite !Z.add_0_r|].
      replace (p + j) with (p + 1 + (j - 1)) by lia. replace (q + j) with (q + 1 + (j - 1)) by lia.
      apply Ha. lia.
    + intros Hzn. replace (p + (z + 1)) with (p + 1 + z) by lia.
      replace (q + (z + 1)) with (q + 1 + z) by lia. apply Hlt. lia.
  - eexists _, 0. rewrite !Z.add_0_r.
    split_and!; [done|lia|lia|intros j ?; lia|lia|]. intros _. split; [done|right; lia].
Qed.

(** *** String copies *)

(** [z] is where the copy of at most [n] bytes of the string at [t] stops. *)
Definition str_stop (m : Z → Z) (t n z : Z) : Prop :=
  0 <= z <= n ∧ (∀ j, 0 <= j < z → rd m (t + j) ≠ 0) ∧ (z < n → rd m (t + z) = 0).

Definition disjoint_ranges (a b n : Z) : Prop := a + n <= b ∨ b + n <= a.

Lemma strcpy_loop_kern n s t z k :
  kaddr s (Z.of_nat n) → kaddr t (Z.of_nat n) → disjoint_ranges s t (Z.of_nat n) →
  str_stop k.(mem) t (Z.of_nat n) z →
  strcpy_loop n s t k =
    Ok ((n - Z.to_nat z - 1)%nat, s + Z.min (Z.of_nat n) (z + 1))
       (set_mem (strm s t z (Z.min (Z.of_nat n) (z + 1)) k.(mem)) k).
Proof.
  revert s t z k. induction n as [|n IH]; intros s t z k Hs Ht Hd (Hz & Hnz & Hst); cbn [strcpy_loop].
  { replace (strm _ _ _ _ k.(mem)) with k.(mem);
      [rewrite set_mem_id; rewrite Z.min_l, Z.add_0_r by lia; done|].
    apply functional_extensionality. intros x. unfold strm. inside_cases; done || lia. }
  assert (is_u32 s) by (unfold kaddr, KERNBASE, is_u32 in *; lia).
  pose proof (kaddr_0 t (Z.of_nat (S n)) Ht ltac:(lia)) as Et.
  mstep by (apply ldb_kern; unfold kaddr in *; lia). mstep by (apply stb_kern; unfold kaddr in *; lia).
  destruct (Z.eqb_spec (rd k.(mem) t) 0) as [E0|E0].
  - assert (z = 0) as ->. { destruct (decide (z = 0)); [done|].
      destruct (Hnz 0 ltac:(lia)). by rewrite Z.add_0_r. }
    unfold mret, M_ret. rewrite Z.min_r by lia. f_equal; [f_equal; lia|]. f_equal.
    apply functional_extensionality. intros x. rewrite wr_val by done. unfold strm. rewrite E0.
    destruct (decide (x = s)); inside_cases; done || lia.
  - assert (0 < z). { destruct (decide (z = 0)) as [->|]; [|lia].
      specialize (Hst ltac:(lia)). by rewrite Z.add_0_r in Hst. }
    unfold disjoint_ranges in Hd.
    assert (Hrd : ∀ j, 0 <= j < Z.of_nat n → rd (wr s (rd k.(mem) t) k.(mem)) (t + 1 + j) = rd k.(mem) (t + (j + 1))).
    { intros j Hj. rewrite rd_wr_ne; [f_equal; lia|]. unfold kaddr, KERNBASE in *.
      rewrite !u32_small by (unfold is_u32; lia). lia. }
    rewrite (IH _ _ (z - 1)); [|unfold kaddr in *; lia|unfold kaddr in *; lia|unfold disjoint_ranges; lia|].
    2:{ split_and!; [lia|lia| |].
        - intros j Hj. cbn [mem set_mem]. rewrite Hrd by lia. apply Hnz. lia.
        - intros Hlt. cbn [mem set_mem]. rewrite Hrd by lia. replace (z - 1 + 1) with z by lia. apply Hst. lia. }
    rewrite set_mem_set_mem. f_equal; [f_equal; lia|]. f_equal.
    apply functional_extensionality. intros x. cbn [mem set_mem]. unfold strm, rd.
    rewrite !wr_val, Et by done. rewrite (u8_small (u8 _)) by apply u8_range.
    destruct (decide (x = s)) as [->|]; inside_cases; try lia.
    + do 2 f_equal. lia.
    + destruct (decide _); [lia|]. do 2 f_equal. lia.
Qed.

Lemma zero_loop_kern n s k :
  kaddr s (Z.of_nat n) → zero_loop n s k = Ok tt (set_mem (fillm s (Z.of_nat n) 0 k.(mem)) k).
Proof.
  assert (Hz : ∀ a, zero_loop n a = rep_stosb n a 0).
  { induction n as [|n IH]; intros a; [done|]. cbn. by rewrite IH. }
  rewrite Hz. apply rep_stosb_kern.
Qed.

Lemma strncpy_ok k s t n z :
  kaddr s n → kaddr t n → disjoint_ranges s t n → str_stop k.(mem) t n z →
  strncpy s t n k = Ok s (set_mem (strm s t z n k.(mem)) k).
Proof.
  intros Hs Ht Hd Hz. assert (Hn : Z.of_nat (Z.to_nat n) = n) by (unfold kaddr in *; lia).
  pose proof (proj1 Hz). unfold strncpy.
  mstep by (apply (strcpy_loop_kern _ _ _ z); by rewrite Hn). cbv iota. rewrite !Hn.
  mstep by (apply zero_loop_kern; unfold kaddr in *; lia). unfold mret, M_ret.
  rewrite set_mem_set_mem. do 2 f_equal. cbn [mem set_mem].
  apply functional_extensionality. intros x. unfold fillm, strm.
  inside_cases; try lia; done.
Qed.

Lemma safestrcpy_ok k s t n z :
  0 < n → kaddr s n → kaddr t n → disjoint_ranges s t n → str_stop k.(mem) t (n - 1) z →
  safestrcpy s t n k = Ok s (set_mem (strm s t z (Z.min n (z + 2)) k.(mem)) k).
Proof.
  intros Hpos Hs Ht Hd Hz. assert (Hn : Z.of_nat (Z.to_nat (n - 1)) = n - 1) by (unfold kaddr in *; lia).
  pose proof (proj1 Hz). unfold safestrcpy. destruct (Z.leb_spec n 0); [lia|].
  mstep by (apply (strcpy_loop_kern _ _ _ z); rewrite ?Hn;
            [unfold kaddr in *; lia|unfold kaddr in *; lia|unfold disjoint_ranges in *; lia|done]).
  cbv iota. rewrite Hn. mstep by (apply stb_kern; unfold kaddr in *; lia).
  unfold mret, M_ret. rewrite set_mem_set_mem. do 2 f_equal. cbn [mem set_mem].
  apply functional_extensionality. intros x.
  rewrite wr_val by (unfold kaddr, KERNBASE, is_u32 in *; lia). unfold strm.
  destruct (decide (x = _)); inside_cases; try lia; done.
Qed.

Lemma strlen_ok k s z :
  kaddr s (z + 1) → 0 <= z < 2 ^ 31 - 1 → (∀ j, 0 <= j < z → rd k.(mem) (s + j) ≠ 0) → rd k.(mem) (s + z) = 0 →
  strlen s k = Ok z k.
Proof.
  intros Hs Hz Hnz H0. unfold strlen.
  assert (Hgen : ∀ fuel n, 0 <= n <= z → z - n < Z.of_nat fuel →
    while_fuel fuel (λ n, b ← ldb (s + n); mret (if b =? 0 then inr n else inl (s32 (n + 1)))) n k = Ok z k).
  2: { apply (while32_fuel (Z.to_nat (z + 1))); [lia|]. apply Hgen; lia. }
  intros fuel. induction fuel as [|f IH]; intros n Hn Hf; [lia|]. cbn [while_fuel].
  mstep by (mstep by (apply ldb_kern; unfold kaddr in *; lia); reflexivity).
  destruct (Z.eqb_spec (rd k.(mem) (s + n)) 0) as [E|E].
  - destruct (decide (n = z)) as [->|]; [done|]. by destruct (Hnz n ltac:(lia)).
  - destruct (decide (n = z)) as [->|]; [done|].
    rewrite s32_small by (unfold is_s32; lia). apply IH; lia.
Qed.

(** ** Properties *)

(** Kernel [k] with memory [m]; the other state of a kernel that has not run. *)
Definition with_mem (m : Z → Z) : kernel := set_mem m (boot_kernel 1).

Lemma rd_val m a : is_u32 a → rd m a = u8 (m a).
Proof. intros. unfold rd. by rewrite u32_small. Qed.

(** Memset(dst, c, n) returns dst, stores the low byte of c in each of
    the n bytes from dst and changes nothing else, on the word path (dst and n
    multiples of 4) as on the byte path. *)
Theorem memset_fills k dst c n :
  kaddr dst n →
  ∃ m, memset dst c n k = Ok dst (set_mem m k) ∧
    ∀ a, is_u32 a → rd m a = if decide (dst <= a < dst + n) then u8 c else rd k.(mem) a.
Proof.
  intros Hk. exists (fillm dst n c k.(mem)). split; [by apply memset_ok|].
  intros a Ha. rewrite !rd_val by done. unfold fillm.
  inside_cases; destruct (decide _); try lia. apply u8_small, u8_range.
Qed.

Lemma memset_fills_witness :
  ∃ m, memset 0x80000004 (-2) 8 (with_mem (λ _, 7)) = Ok 0x80000004 (set_mem m (with_mem (λ _, 7))) ∧
    rd m 0x80000003 = 7 ∧ rd m 0x80000004 = 254 ∧ rd m 0x8000000b = 254 ∧ rd m 0x8000000c = 7.
Proof.
  destruct (memset_fills (with_mem (λ _, 7)) 0x80000004 (-2) 8) as (m & E & H).
  - unfold kaddr, KERNBASE. lia.
  - exists m. split; [exact E|]. rewrite !H by (unfold is_u32; lia). repeat split.
Defined.

(** Memmove(dst, src, n) leaves at dst the n bytes that were at src
    before the call, whether or not the two ranges overlap, and changes
    nothing outside dst's range. *)
Theorem memmove_copies k dst src n :
  kaddr dst n → kaddr src n →
  ∃ m, memmove dst src n k = Ok dst (set_mem m k) ∧
    ∀ a, is_u32 a → rd m a =
      if decide (dst <= a < dst + n) then rd k.(mem) (src + (a - dst)) else rd k.(mem) a.
Proof.
  intros Hd Hs. exists (copym dst src n k.(mem)). split; [by apply memmove_ok|].
  intros a Ha. rewrite !(rd_val _ a) by done. unfold copym.
  inside_cases; destruct (decide _); try lia.
  rewrite rd_val by (unfold kaddr, KERNBASE, is_u32 in *; lia). apply u8_small, u8_range.
Qed.

Lemma memmove_copies_witness :
  ∃ m, memmove 0x80000002 0x80000000 4 (with_mem (λ a, a)) = Ok 0x80000002 (set_mem m (with_mem (λ a, a))) ∧
    rd m 0x80000002 = 0 ∧ rd m 0x80000003 = 1 ∧ rd m 0x80000004 = 2 ∧ rd m 0x80000005 = 3 ∧ rd m 0x80000006 = 6.
Proof.
  destruct (memmove_copies (with_mem (λ a, a)) 0x80000002 0x80000000 4) as (m & E & H).
  - unfold kaddr, KERNBASE. lia.
  - unfold kaddr, KERNBASE. lia.
  - exists m. split; [exact E|]. rewrite !H by (unfold is_u32; lia). repeat split.
Defined.

(** For a source string that does not overlap the destination, with z
    the index of its first NUL, at most n (strncpy) or n-1 (safestrcpy):
    strncpy copies the z bytes and pads with zeros to n; safestrcpy copies the
    z bytes and always terminates them, so that strlen() of the copy is z;
    neither writes outside the n bytes of the destination. *)
Theorem string_copies k s t n z :
  0 < n < 2 ^ 31 - 1 → kaddr s n → kaddr t n → disjoint_ranges s t n →
  (str_stop k.(mem) t n z →
     ∃ m, strncpy s t n k = Ok s (set_mem m k) ∧
       (∀ a, is_u32 a → ¬ s <= a < s + n → rd m a = rd k.(mem) a) ∧
       (∀ i, 0 <= i < n → rd m (s + i) = if decide (i < z) then rd k.(mem) (t + i) else 0)) ∧
  (str_stop k.(mem) t (n - 1) z →
     ∃ m, safestrcpy s t n k = Ok s (set_mem m k) ∧
       (∀ a, is_u32 a → ¬ s <= a < s + n → rd m a = rd k.(mem) a) ∧
       (∀ i, 0 <= i < z → rd m (s + i) = rd k.(mem) (t + i)) ∧
       strlen s (set_mem m k) = Ok z (set_mem m k)).
Proof.
  intros Hn Hs Ht Hd.
  assert (Hval : ∀ e i, 0 <= z <= n → z <= e <= n → 0 <= i < n → rd (strm s t z e k.(mem)) (s + i) =
    if decide (i < z) then rd k.(mem) (t + i) else if decide (i < e) then 0 else rd k.(mem) (s + i)).
  { intros e i Hz He Hi. unfold kaddr, KERNBASE in *.
    rewrite !rd_val by (unfold is_u32; lia). unfold strm.
    destruct (decide (i < z)), (decide (i < e)); inside_cases; try lia; [|done].
    rewrite (u8_small (u8 _)) by apply u8_range. do 2 f_equal. lia. }
  assert (Hout : ∀ e a, 0 <= z <= n → z <= e <= n → is_u32 a → ¬ s <= a < s + n →
    rd (strm s t z e k.(mem)) a = rd k.(mem) a).
  { intros e a Hz He Ha Hna. rewrite !rd_val by done. unfold strm. inside_cases; lia. }
  split; intros Hst; pose proof (proj1 Hst).
  - eexists. split; [by eapply strncpy_ok|]. split; [intros; apply Hout; lia || done|].
    intros i Hi. rewrite Hval by lia. destruct (decide (i < z)); [done|]. by rewrite decide_True by lia.
  - eexists. split; [eapply safestrcpy_ok; done || lia|]. split_and!.
    + intros. apply Hout; lia || done.
    + intros i Hi. rewrite Hval by lia. by rewrite decide_True by lia.
    + apply strlen_ok; cbn [mem set_mem]; [unfold kaddr in *; lia|lia| |].
      * intros j Hj. rewrite Hval by lia. rewrite decide_True by lia. by apply Hst.
      * rewrite Hval by lia. rewrite decide_False, decide_True by lia. done.
Qed.

Lemma string_copies_witness :
  ∃ m, safestrcpy 0x80001000 0x80002000 4 (with_mem (λ a, if decide (a < 0x80002009) then 65 else 0))
       = Ok 0x80001000 (set_mem m (with_mem (λ a, if decide (a < 0x80002009) then 65 else 0))) ∧
    strlen 0x80001000 (set_mem m (with_mem (λ a, if decide (a < 0x80002009) then 65 else 0)))
    = Ok 3 (set_mem m (with_mem (λ a, if decide (a < 0x80002009) then 65 else 0))).
Proof.
  destruct (string_copies (with_mem (λ a, if decide (a < 0x80002009) then 65 else 0)) 0x80001000 0x80002000 4 3)
    as [_ H].
  - lia.
  - unfold kaddr, KERNBASE. lia.
  - unfold kaddr, KERNBASE. lia.
  - unfold disjoint_ranges. lia.
  - destruct H as (m & E & _ & _ & El).
    + split_and!; [lia|lia| |lia]. intros j Hj.
      assert (j = 0 ∨ j = 1 ∨ j = 2) as [->|[->| ->]] by lia; vm_compute; discriminate.
    + exists m. split; assumption.
Defined.

(** Memcmp() is 0 exactly when the n bytes agree, and otherwise the
    difference of the first two bytes that differ; strncmp() stops at the
    first z where the strings differ or end, and is 0 exactly when they agree
    up to n or up to and including a NUL. *)
Theorem compares k p q n :
  kaddr p n → kaddr q n →
  (∃ r, memcmp p q n k = Ok r k ∧
     (r = 0 ↔ ∀ i, 0 <= i < n → rd k.(mem) (p + i) = rd k.(mem) (q + i)) ∧
     (r ≠ 0 → ∃ i, 0 <= i < n ∧ r = rd k.(mem) (p + i) - rd k.(mem) (q + i) ∧
        ∀ j, 0 <= j < i → rd k.(mem) (p + j) = rd k.(mem) (q + j))) ∧
  (∃ r, strncmp p q n k = Ok r k ∧
     (r = 0 ↔ agree k.(mem) p q n ∨
        ∃ z, 0 <= z < n ∧ agree k.(mem) p q z ∧ rd k.(mem) (p + z) = 0 ∧ rd k.(mem) (q + z) = 0)).
Proof.
  intros Hp Hq. split.
  - destruct (memcmp_ok k p q n Hp Hq) as (r & E & Hr). exists r. split; [done|].
    destruct Hr as [[Hr Hi]|(Hr & i & Hi & Hd & Hj)]; split; try done; [|by intros; exists i].
    split; [done|]. intros Heq. rewrite Hd, Heq; lia.
  - destruct (strncmp_ok k p q n Hp Hq) as (r & z & E & Hz & Ha & Hend & Hlt). exists r. split; [done|].
    destruct (decide (z = n)) as [->|Hne].
    { split; [by left|]. intros _. by apply Hend. }
    destruct (Hlt ltac:(lia)) as [Hr Hnul]. split.
    + intros ->. right. exists z. split_and!; [lia|lia|done| |]; destruct Hnul; lia || done.
    + intros [Hall|(z' & Hz' & Ha' & H1 & H2)].
      * destruct (Hall z ltac:(lia)). lia.
      * destruct (Z.lt_trichotomy z z') as [Hc|[->|Hc]]; [destruct (Ha' z ltac:(lia)); lia|lia|].
        by destruct (Ha z' ltac:(lia)).
Qed.

Lemma compares_witness :
  ∃ r, memcmp 0x80000000 0x80000010 3 (with_mem (λ a, a)) = Ok r (with_mem (λ a, a)) ∧ r = -16.
Proof.
  destruct (compares (with_mem (λ a, a)) 0x80000000 0x80000010 3) as [(r & E & Hr0 & Hr) _].
  - unfold kaddr, KERNBASE. lia.
  - unfold kaddr, KERNBASE. lia.
  - exists r. split; [exact E|].
    assert (r ≠ 0). { intros H0. specialize (proj1 Hr0 H0 0 ltac:(lia)). vm_compute. discriminate. }
    destruct (Hr H) as (i & Hi & Hd & _). rewrite Hd.
    assert (i = 0 ∨ i = 1 ∨ i = 2) as [->|[->| ->]] by lia; reflexivity.
Defined.
