(* ===== verification/Cprintf.v ===== *)
(** * Console output (console.c: printint, cprintf, consputc, cgaputc; uart.c: uartputc)

    What the kernel prints: the bytes sent to the serial port and the cells
    of the CGA screen with its cursor. A format string is its list of
    character codes and the variable arguments are a list of integers and
    strings. *)
From S2P Require Import Prelude.
From S2P Require Import Kernel.
From S2P Require Import Spinlock.

Definition upd_cons (f : cons_t → cons_t) : K unit := modify (λ k, set_cons (f k.(cons)) k).

(** A character constant and a string constant of the C source. *)
Definition chr (s : string) : Z :=
  match s with String a _ => Z.of_N (Ascii.N_of_ascii a) | EmptyString => 0 end.

Fixpoint codes (s : string) : list Z :=
  match s with
  | EmptyString => []
  | String a s' => Z.of_N (Ascii.N_of_ascii a) :: codes s'
  end.

(** '\n' and '\b' *)
Definition NL : Z := 10.
Definition BS : Z := 8.
Definition nl : string := String (Ascii.ascii_of_N 10) EmptyString.

(** The bytes of a C string before its NUL. *)
Fixpoint cstr_of (l : list Z) : list Z :=
  match l with
  | [] => []
  | c :: l' => if c =? 0 then [] else c :: cstr_of l'
  end.

(** ** uart.c *)

(** The wait for the transmitter only takes time: after 128 polls the byte is
    written anyway. *)
Definition uartputc (c : Z) : K unit :=
  u ← get (λ k, k.(cons).(uart));
  if u =? 0 then mret tt else
  upd_cons (λ s, set_uart_out (s.(uart_out) ++ [u8 c]) s).

(** ** console.c *)

Definition BACKSPACE : Z := 0x100.

Definition cgaputc (c : Z) : K unit :=
  pos0 ← get (λ k, k.(cons).(crt_pos));
  pos ← (if c =? NL then mret (pos0 + (80 - Z.rem pos0 80))
         else if c =? BACKSPACE then mret (if 0 <? pos0 then pos0 - 1 else pos0)
         else upd_cons (λ s, set_crt (<[pos0 := Z.lor (Z.land c 0xff) 0x0700]> s.(crt)) s);;
              mret (pos0 + 1));
  if (pos <? 0) || (25 * 80 <? pos) then panic "pos under/overflow" else
  pos' ← (if 24 <=? Z.quot pos 80 then
            upd_cons (λ s, set_crt (λ i, if (0 <=? i) && (i <? 23 * 80) then s.(crt) (i + 80) else s.(crt) i) s);;
            upd_cons (λ s, set_crt (λ i, if (pos - 80 <=? i) && (i <? 24 * 80) then 0 else s.(crt) i) s);;
            mret (pos - 80)
          else mret pos);
  upd_cons (set_crt_pos (u16 pos'));;
  upd_cons (λ s, set_crt (<[pos' := Z.lor (chr " ") 0x0700]> s.(crt)) s).

Definition consputc (c : Z) : K unit :=
  p ← get (λ k, k.(cons).(panicked));
  if truth p then fail Hang else
  (if c =? BACKSPACE then uartputc (BS);; uartputc (chr " ");; uartputc (BS)
   else uartputc c);;
  cgaputc c.

(** digits[d] *)
Definition digit (d : Z) : Z := if d <? 10 then chr "0" + d else chr "a" + (d - 10).

(** do { buf[i++] = digits[x % base]; } while((x /= base) != 0): 32 turns are
    enough for a 32-bit x and base 2 or more. *)
Fixpoint digits_loop (fuel : nat) (x base : Z) : list Z :=
  match fuel with
  | O => []
  | S f => digit (x `mod` base) :: (if x / base =? 0 then [] else digits_loop f (x / base) base)
  end.

Fixpoint putchars (l : list Z) : K unit :=
  match l with
  | [] => mret tt
  | c :: l' => consputc c;; putchars l'
  end.

Definition printint (xx base : Z) (sign : bool) : K unit :=
  let neg := sign && (xx <? 0) in
  let x := if neg then u32 (- xx) else u32 xx in
  let buf := digits_loop 32 x base ++ (if neg then [chr "-"] else []) in
  putchars (reverse buf).

Inductive arg : Type :=
| AInt (z : Z)
| AStr (s : list Z)
| ANull.

(** The format loop; [argp] are the arguments not consumed yet. *)
Fixpoint cprintf_loop (fmt : list Z) (argp : list arg) : K unit :=
  match fmt with
  | [] => mret tt
  | c :: fmt' =>
      if c =? 0 then mret tt else
      if negb (c =? chr "%") then consputc c;; cprintf_loop fmt' argp else
      match fmt' with
      | [] => mret tt
      | c' :: fmt'' =>
          if c' =? 0 then mret tt else
          if c' =? chr "d" then
            match argp with
            | AInt z :: argp' => printint (s32 z) 10 true;; cprintf_loop fmt'' argp'
            | _ => fail (CpuFault "varargs")
            end
          else if (c' =? chr "x") || (c' =? chr "p") then
            match argp with
            | AInt z :: argp' => printint (s32 z) 16 false;; cprintf_loop fmt'' argp'
            | _ => fail (CpuFault "varargs")
            end
          else if c' =? chr "s" then
            match argp with
            | AStr s :: argp' => putchars s;; cprintf_loop fmt'' argp'
            | ANull :: argp' => putchars (codes "(null)");; cprintf_loop fmt'' argp'
            | _ => fail (CpuFault "varargs")
            end
          else if c' =? chr "%" then consputc (chr "%");; cprintf_loop fmt'' argp
          else consputc (chr "%");; consputc c';; cprintf_loop fmt'' argp
      end
  end.

Definition cprintf (fmt : string) (args : list arg) : K unit :=
  locking_ ← get (λ k, k.(cons).(locking));
  when (truth locking_) (acquire LCons);;
  cprintf_loop (codes fmt) args;;
  when (truth locking_) (release LCons).

(** ** Lemmas *)

(** The cursor is on one of the first 24 lines and no processor has panicked. *)
Record cons_ok (s : cons_t) : Prop := {
  co_pos : 0 <= s.(crt_pos) < 24 * 80;
  co_calm : s.(panicked) = 0;
}.

(** The parts of the console that printing leaves alone. *)
Definition cons_same (s s' : cons_t) : Prop :=
  s'.(locking) = s.(locking) ∧ s'.(panicked) = s.(panicked) ∧ s'.(uart) = s.(uart) ∧
  s'.(in_buf) = s.(in_buf) ∧ s'.(in_r) = s.(in_r) ∧ s'.(in_w) = s.(in_w) ∧ s'.(in_e) = s.(in_e).

#[export] Instance cons_same_preorder : PreOrder cons_same.
Proof. split; unfold cons_same; [done|]. intros ???. naive_solver congruence. Qed.

(** What consputc(c) sends to the serial port. *)
Definition serial (s : cons_t) (c : Z) : list Z :=
  if s.(uart) =? 0 then [] else if c =? BACKSPACE then [8; 32; 8] else [u8 c].

(** [k'] is [k] after the characters [l] have been printed. *)
Definition printed (l : list Z) (k k' : kernel) : Prop :=
  ∃ s, k' = set_cons s k ∧ cons_ok s ∧ cons_same k.(cons) s ∧
       s.(uart_out) = k.(cons).(uart_out) ++ (l ≫= serial k.(cons)).

Lemma uartputc_eff k c :
  uartputc c k = Ok tt (set_cons (set_uart_out (k.(cons).(uart_out) ++
    (if k.(cons).(uart) =? 0 then [] else [u8 c])) k.(cons)) k).
Proof.
  unfold uartputc. mstep. destruct (_ =? 0); [|done].
  by rewrite app_nil_r, set_uart_out_id, set_cons_id.
Qed.

Lemma u16_small z : 0 <= z < 2 ^ 16 → u16 z = z.
Proof. intros. by apply Z.mod_small. Qed.

(** Printing keeps the cursor on the screen: the panic is not reached. *)
Lemma cgaputc_eff k c :
  cons_ok k.(cons) →
  ∃ cells pos, cgaputc c k = Ok tt (set_cons (set_crt cells (set_crt_pos pos k.(cons))) k) ∧ 0 <= pos < 24 * 80.
Proof.
  intros [Hpos _]. unfold cgaputc. mstep. set (p0 := crt_pos _) in *.
  assert (∃ cells pos, (if c =? NL then mret (p0 + (80 - Z.rem p0 80))
         else if c =? BACKSPACE then mret (if 0 <? p0 then p0 - 1 else p0)
         else upd_cons (λ s, set_crt (<[p0 := Z.lor (Z.land c 0xff) 0x0700]> s.(crt)) s);;
              mret (p0 + 1)) k = Ok pos (set_cons (set_crt cells k.(cons)) k) ∧ 0 <= pos <= 24 * 80)
    as (cells & pos & E & Hp).
  { destruct (c =? NL).
    - exists k.(cons).(crt), (p0 + (80 - Z.rem p0 80)). rewrite set_crt_id, set_cons_id. split; [done|].
      rewrite Z.rem_mod_nonneg by lia. Z.to_euclidean_division_equations. lia.
    - destruct (c =? BACKSPACE).
      + exists k.(cons).(crt). eexists. rewrite set_crt_id, set_cons_id. split; [done|].
        destruct (Z.ltb_spec 0 p0); lia.
      + eexists _, _. split; [mstep; reflexivity|]. lia. }
  mstep by exact E. clear E.
  destruct (Z.ltb_spec pos 0); [lia|]. destruct (Z.ltb_spec (25 * 80) pos); [lia|]. cbn [orb].
  destruct (Z.leb_spec 24 (Z.quot pos 80)) as [Hq|Hq].
  - rewrite Z.quot_div_nonneg in Hq by lia.
    assert (pos = 24 * 80) as -> by (Z.to_euclidean_division_equations; lia).
    eexists _, _. split; [mstep by (do 2 mstep; reflexivity); mstep; rewrite u16_small by lia; reflexivity|lia].
  - rewrite Z.quot_div_nonneg in Hq by lia.
    assert (pos < 24 * 80) by (Z.to_euclidean_division_equations; lia).
    eexists _, _. split; [mstep; mstep; rewrite u16_small by lia; reflexivity|lia].
Qed.

Lemma consputc_ok k c : cons_ok k.(cons) → ∃ k', consputc c k = Ok tt k' ∧ printed [c] k k'.
Proof.
  intros Hok. unfold consputc. mstep. rewrite (co_calm _ Hok). cbn [truth Z.eqb negb].
  set (s1 := set_uart_out (k.(cons).(uart_out) ++ serial k.(cons) c) k.(cons)).
  rewrite (bind_Ok _ _ _ tt (set_cons s1 k)); cycle 1.
  { unfold s1, serial. destruct (c =? BACKSPACE) eqn:Eb; [|by rewrite uartputc_eff].
    mstep by apply uartputc_eff. mstep by apply uartputc_eff. rewrite uartputc_eff. cbn.
    destruct (uart _ =? 0); [by rewrite !app_nil_r|]. by rewrite <- !app_assoc. }
  destruct (cgaputc_eff (set_cons s1 k) c) as (cells & pos & E & Hpos).
  { split; [apply (co_pos _ Hok)|apply (co_calm _ Hok)]. }
  eexists. split; [exact E|]. eexists. split; [reflexivity|].
  split; [split; [exact Hpos|apply (co_calm _ Hok)]|]. split; [done|].
  cbn. by rewrite app_nil_r.
Qed.

Lemma printed_nil k : cons_ok k.(cons) → printed [] k k.
Proof. intros. exists k.(cons). rewrite set_cons_id. cbn. by rewrite app_nil_r. Qed.

Lemma printed_app l1 l2 k1 k2 k3 : printed l1 k1 k2 → printed l2 k2 k3 → printed (l1 ++ l2) k1 k3.
Proof.
  intros (s & -> & Hok & Hs & Hu) (s' & -> & Hok' & Hs' & Hu'). exists s'. cbn [cons set_cons] in *.
  split; [done|]. split; [done|]. split; [by etrans|]. rewrite Hu', Hu, bind_app, <- app_assoc.
  do 2 f_equal. apply list_bind_ext; [|done]. intros c. unfold serial.
  destruct Hs as (_ & _ & -> & _). done.
Qed.

Lemma printed_ok l k k' : printed l k k' → cons_ok k'.(cons).
Proof. by intros (s & -> & Hok & _). Qed.

Lemma putchars_ok l k : cons_ok k.(cons) → ∃ k', putchars l k = Ok tt k' ∧ printed l k k'.
Proof.
  revert k. induction l as [|c l IH]; intros k Hok; cbn [putchars].
  - exists k. split; [done|by apply printed_nil].
  - destruct (consputc_ok k c Hok) as (k1 & E1 & H1).
    destruct (IH k1 (printed_ok _ _ _ H1)) as (k2 & E2 & H2).
    exists k2. split; [by mstep by exact E1|]. by apply (printed_app [c] l k k1).
Qed.

(** The characters printint prints. *)
Definition int_chars (xx base : Z) (sign : bool) : list Z :=
  let neg := sign && (xx <? 0) in
  (if neg then [chr "-"] else []) ++ reverse (digits_loop 32 (if neg then u32 (- xx) else u32 xx) base).

Lemma printint_ok xx base sign k :
  cons_ok k.(cons) → ∃ k', printint xx base sign k = Ok tt k' ∧ printed (int_chars xx base sign) k k'.
Proof.
  intros Hok. unfold printint. destruct (putchars_ok (int_chars xx base sign) k Hok) as (k' & E & Hp).
  exists k'. split; [|done]. rewrite <- E. f_equal. unfold int_chars. cbv zeta.
  by destruct (sign && _); rewrite reverse_app, ?app_nil_l.
Qed.

(** A format whose conversions have their arguments. *)
Fixpoint render (fmt : list Z) (argp : list arg) : option (list Z) :=
  match fmt with
  | [] => Some []
  | c :: fmt' =>
      if c =? 0 then Some [] else
      if negb (c =? chr "%") then app [c] <$> render fmt' argp else
      match fmt' with
      | [] => Some []
      | c' :: fmt'' =>
          if c' =? 0 then Some [] else
          if c' =? chr "d" then
            match argp with
            | AInt z :: argp' => app (int_chars (s32 z) 10 true) <$> render fmt'' argp'
            | _ => None
            end
          else if (c' =? chr "x") || (c' =? chr "p") then
            match argp with
            | AInt z :: argp' => app (int_chars (s32 z) 16 false) <$> render fmt'' argp'
            | _ => None
            end
          else if c' =? chr "s" then
            match argp with
            | AStr s :: argp' => app s <$> render fmt'' argp'
            | ANull :: argp' => app (codes "(null)") <$> render fmt'' argp'
            | _ => None
            end
          else if c' =? chr "%" then app [chr "%"] <$> render fmt'' argp
          else app [chr "%"; c'] <$> render fmt'' argp
      end
  end.

(** One piece of output followed by the rest of the loop. *)
Lemma print_then (m rest : K unit) l l' k :
  cons_ok k.(cons) →
  (∃ k1, m k = Ok tt k1 ∧ printed l k k1) →
  (∀ k1, cons_ok k1.(cons) → ∃ k2, rest k1 = Ok tt k2 ∧ printed l' k1 k2) →
  ∃ k2, (m;; rest) k = Ok tt k2 ∧ printed (l ++ l') k k2.
Proof.
  intros Hok (k1 & E1 & H1) Hrest. destruct (Hrest k1 (printed_ok _ _ _ H1)) as (k2 & E2 & H2).
  exists k2. split; [by mstep by exact E1|]. by eapply printed_app.
Qed.

Lemma cprintf_loop_ok n fmt argp l k :
  (length fmt <= n)%nat → cons_ok k.(cons) → render fmt argp = Some l →
  ∃ k', cprintf_loop fmt argp k = Ok tt k' ∧ printed l k k'.
Proof.
  revert fmt argp l k. induction n as [|n IH]; intros fmt argp l k Hn Hok Hr.
  { destruct fmt; [|cbn in Hn; lia]. injection Hr as <-. exists k. split; [done|by apply printed_nil]. }
  assert (Hrec : ∀ fmt' argp' l', (length fmt' <= n)%nat → render fmt' argp' = Some l' →
    ∀ k1, cons_ok k1.(cons) → ∃ k2, cprintf_loop fmt' argp' k1 = Ok tt k2 ∧ printed l' k1 k2) by eauto.
  destruct fmt as [|c fmt]; [injection Hr as <-; exists k; split; [done|by apply printed_nil]|].
  cbn [render cprintf_loop] in *. cbn [length] in Hn.
  destruct (c =? 0); [injection Hr as <-; exists k; split; [done|by apply printed_nil]|].
  destruct (negb (c =? chr "%")).
  { apply fmap_Some in Hr as (l' & Hl & ->).
    apply print_then; [done|by apply consputc_ok|]. apply Hrec; [lia|done]. }
  destruct fmt as [|c' fmt]; [injection Hr as <-; exists k; split; [done|by apply printed_nil]|].
  cbn [length] in Hn.
  destruct (c' =? 0); [injection Hr as <-; exists k; split; [done|by apply printed_nil]|].
  destruct (c' =? chr "d"); [|destruct (_ || _); [|destruct (c' =? chr "s"); [|destruct (c' =? chr "%")]]].
  - destruct argp as [|[z|?|] argp]; try done. apply fmap_Some in Hr as (l' & Hl & ->).
    apply print_then; [done|by apply printint_ok|]. apply Hrec; [lia|done].
  - destruct argp as [|[z|?|] argp]; try done. apply fmap_Some in Hr as (l' & Hl & ->).
    apply print_then; [done|by apply printint_ok|]. apply Hrec; [lia|done].
  - destruct argp as [|[?|s|] argp]; try done; apply fmap_Some in Hr as (l' & Hl & ->);
      (apply print_then; [done|by apply putchars_ok|]; apply Hrec; [lia|done]).
  - apply fmap_Some in Hr as (l' & Hl & ->).
    apply print_then; [done|by apply consputc_ok|]. apply Hrec; [lia|done].
  - apply fmap_Some in Hr as (l' & Hl & ->). change ([chr "%"; c'] ++ l') with ([chr "%"] ++ ([c'] ++ l')).
    apply print_then; [done|by apply consputc_ok|]. intros k1 Hok1.
    apply print_then; [done|by apply consputc_ok|]. apply Hrec; [lia|done].
Qed.

(** The console may be printed to: its lock is not in use yet or is free. *)
Record cons_ready (k : kernel) (c : nat) : Prop := {
  cr_ok : cons_ok k.(cons);
  cr_lock : k.(cons).(locking) = 0 ∨ (∃ n, cpu_at k.(hw) c n ∧ n < 900) ∧ lk_free k.(hw) LCons;
}.

Lemma cprintf_ok fmt args l k c :
  cons_ready k c → render (codes fmt) args = Some l →
  ∃ h k', cprintf fmt args k = Ok tt (set_hw h k') ∧ printed l k k' ∧ settled c k.(hw) h.
Proof.
  intros [Hok Hl] Hr. unfold cprintf. mstep. destruct (truth _) eqn:Et.
  - destruct Hl as [E|((n & Hat & Hn) & Hf)]; [by rewrite E in Et|]. cbn [when].
    pose proof (cpu_at_nonneg _ _ _ Hat).
    destruct (cprintf_loop_ok _ (codes fmt) args l (set_hw (acq_hw c LCons k.(hw)) k) (Nat.le_refl _) Hok Hr)
      as (k1 & E1 & (s & -> & Hs)).
    exists (touch c k.(hw)), (set_cons s k). split; [|split; [by exists s|by eapply settled_touch]].
    mstep by (eapply acquire_ok; [done|lia|done]). mstep by exact E1.
    by apply (release_acquired _ _ n _ (set_cons s k)).
  - cbn [when]. mstep.
    destruct (cprintf_loop_ok _ (codes fmt) args l k (Nat.le_refl _) Hok Hr) as (k1 & E1 & H1).
    exists k.(hw), k1. split_and!; [|done|by left]. mstep by exact E1. cbn.
    destruct H1 as (s & -> & _). by destruct k.
Qed.

(** *** Numbers *)

Definition undigit (c : Z) : Z := if c <? chr "a" then c - chr "0" else c - chr "a" + 10.

(** The number a list of digits denotes. *)
Definition dval (base : Z) (l : list Z) : Z := foldl (λ acc c, acc * base + undigit c) 0 l.

Lemma undigit_digit d : 0 <= d < 16 → undigit (digit d) = d.
Proof.
  intros. unfold undigit, digit. change (chr "0") with 48. change (chr "a") with 97.
  destruct (Z.ltb_spec d 10); bsplit; lia.
Qed.

Lemma digits_loop_value fuel x base :
  2 <= base <= 16 → 0 <= x < base ^ Z.of_nat fuel → (0 < fuel)%nat →
  dval base (reverse (digits_loop fuel x base)) = x.
Proof.
  intros Hb. revert x. induction fuel as [|f IH]; intros x Hx Hf; [lia|].
  cbn [digits_loop]. rewrite reverse_cons. unfold dval. rewrite foldl_app. cbn [foldl].
  rewrite undigit_digit by (pose proof (Z.mod_pos_bound x base ltac:(lia)); lia).
  pose proof (Z.div_mod x base ltac:(lia)).
  destruct (Z.eqb_spec (x / base) 0) as [E|E].
  - cbn. lia.
  - fold (dval base (reverse (digits_loop f (x / base) base))).
    assert (0 < x / base). { pose proof (Z.div_pos x base ltac:(lia) ltac:(lia)). lia. }
    rewrite IH; [lia|split; [lia|]|].
    + apply Z.div_lt_upper_bound; [lia|].
      rewrite Nat2Z.inj_succ, Z.pow_succ_r in Hx by lia. lia.
    + destruct f; [|lia]. change (base ^ Z.of_nat 1) with (base ^ 1) in Hx. rewrite Z.pow_1_r in Hx.
      rewrite Z.div_small in E by lia. done.
Qed.

(** The most significant digit of a number is not 0. *)
Lemma digits_loop_last fuel x base d :
  2 <= base <= 16 → 0 < x < base ^ Z.of_nat fuel → last (digits_loop fuel x base) = Some d → d ≠ chr "0".
Proof.
  intros Hb. revert x. induction fuel as [|f IH]; intros x Hx Hl; [done|].
  cbn [digits_loop] in Hl. pose proof (Z.div_mod x base ltac:(lia)).
  pose proof (Z.mod_pos_bound x base ltac:(lia)).
  destruct (Z.eqb_spec (x / base) 0) as [E|E].
  - injection Hl as <-. rewrite E in *. unfold digit. change (chr "0") with 48. change (chr "a") with 97.
    destruct (Z.ltb_spec (x `mod` base) 10); lia.
  - assert (0 < x / base). { pose proof (Z.div_pos x base ltac:(lia) ltac:(lia)). lia. }
    assert (x / base < base ^ Z.of_nat f).
    { apply Z.div_lt_upper_bound; [lia|].
      rewrite Nat2Z.inj_succ, Z.pow_succ_r in Hx by lia. lia. }
    apply (IH (x / base)); [lia|]. destruct f; [cbn in *; lia|]. exact Hl.
Qed.

Lemma pow_32 base : 2 <= base → 2 ^ 32 <= base ^ Z.of_nat 32.
Proof. intros. apply Z.pow_le_mono_l. lia. Qed.

(** ** Properties *)

(** What cprintf() prints for a format whose conversions have their
    arguments: it returns, the bytes added to the serial port are those of the
    rendered text, the cursor stays on the screen (the panic of cgaputc is not
    reached) and nothing but the console changed. *)
Theorem cprintf_prints fmt args l k c :
  cons_ready k c → render (codes fmt) args = Some l → k.(cons).(uart) = 1 →
  Forall (λ c, is_u8 c) l →
  ∃ h s, cprintf fmt args k = Ok tt (set_hw h (set_cons s k)) ∧ settled c k.(hw) h ∧
    s.(uart_out) = k.(cons).(uart_out) ++ l ∧ 0 <= s.(crt_pos) < 24 * 80 ∧ cons_same k.(cons) s.
Proof.
  intros Hc Hr Hu Hl. destruct (cprintf_ok fmt args l k c Hc Hr) as (h & k' & E & (s & -> & Hok & Hs & Ho) & Hh).
  exists h, s. split_and!; [done|done| |apply Hok|apply Hok|apply Hs..]. rewrite Ho. f_equal. clear -Hu Hl.
  induction Hl as [|x l Hx Hl IH]; [done|]. cbn [mbind list_bind]. rewrite IH.
  unfold serial. rewrite Hu. cbn. destruct (Z.eqb_spec x BACKSPACE) as [->|]; [unfold is_u8, BACKSPACE in Hx; lia|].
  by rewrite u8_small.
Qed.

Lemma cprintf_prints_witness :
  ∃ h s, cprintf "pid %d %s: %x%%" [AInt (-42); AStr (codes "sh"); AInt 255] (boot_kernel 1)
         = Ok tt (set_hw h (set_cons s (boot_kernel 1))) ∧
    s.(uart_out) = codes "pid -42 sh: ff%".
Proof.
  destruct (cprintf_prints "pid %d %s: %x%%" [AInt (-42); AStr (codes "sh"); AInt 255]
              (codes "pid -42 sh: ff%") (boot_kernel 1) 0) as (h & s & E & _ & Ho & _).
  - split; [by split|by left].
  - vm_compute. reflexivity.
  - reflexivity.
  - repeat (constructor; [split; vm_compute; congruence|]). constructor.
  - exists h, s. split; [exact E|exact Ho].
Defined.

(** Printint prints numbers that read back: for every int in base 10
    with a sign, and every unsigned value in base 16, the printed digits denote
    its absolute value, preceded by '-' exactly when the signed value is
    negative (INT_MIN included), with no leading zero. *)
Theorem printint_roundtrip xx :
  is_s32 xx →
  (∃ ds, int_chars xx 10 true = (if xx <? 0 then [chr "-"] else []) ++ ds ∧
     dval 10 ds = Z.abs xx ∧ (xx ≠ 0 → head ds ≠ Some (chr "0"))) ∧
  (dval 16 (int_chars xx 16 false) = u32 xx ∧ (xx ≠ 0 → head (int_chars xx 16 false) ≠ Some (chr "0"))).
Proof.
  intros Hx. unfold int_chars. cbn [andb]. cbv zeta.
  assert (Hhead : ∀ x base, 2 <= base <= 16 → 0 < x < 2 ^ 32 →
    head (reverse (digits_loop 32 x base)) ≠ Some (chr "0")).
  { intros x base Hb Hx' E. rewrite head_reverse in E.
    eapply (digits_loop_last 32 x base); [done| |exact E|done].
    pose proof (pow_32 base ltac:(lia)). lia. }
  assert (Habs : (if xx <? 0 then u32 (- xx) else u32 xx) = Z.abs xx).
  { unfold is_s32 in Hx. destruct (Z.ltb_spec xx 0); rewrite u32_small by (unfold is_u32; lia); lia. }
  rewrite Habs. unfold is_s32 in Hx. split.
  - eexists. split; [reflexivity|]. split.
    + apply digits_loop_value; [lia| |lia]. pose proof (pow_32 10 ltac:(lia)). lia.
    + intros Hne. apply Hhead; lia.
  - pose proof (u32_range xx) as Hu. unfold is_u32 in Hu. cbn [app]. split.
    + apply digits_loop_value; [lia| |lia]. pose proof (pow_32 16 ltac:(lia)). lia.
    + intros Hne. apply Hhead; [lia|]. split; [|lia].
      assert (u32 xx ≠ 0); [|lia]. word_lia.
Qed.

Lemma printint_roundtrip_witness :
  int_chars (- 2 ^ 31) 10 true = codes "-2147483648" ∧ dval 10 (codes "2147483648") = 2 ^ 31.
Proof.
  destruct (printint_roundtrip (- 2 ^ 31)) as [(ds & E & Hv & _) _].
  - unfold is_s32. lia.
  - assert (Eds : ds = codes "2147483648").
    { vm_compute in E. injection E as <-. reflexivity. }
    subst ds. split; [exact E|exact Hv].
Defined.
