(* ===== verification/Kalloc.v ===== *)
(** * kalloc.c: the physical page allocator

    The free list lives in the free pages themselves: [kfree] writes the old
    head into the first word of the page, [kalloc] reads it back. [flist]
    says which list of pages that chain of words spells out, and the lemmas
    show that the operations push and pop it. The second half of the file
    lets a client allocate and free in any order. *)
From S2P Require Import Prelude.
From S2P Require Import Kernel.
From S2P Require Import Spinlock.
From S2P Require Import Memory.
From S2P Require Import Libstr.

(** ** kalloc.c *)

Definition kfree (v : Z) : K unit :=
  e ← get kend;
  if truth (v `mod` PGSIZE) || (v <? e) || (PHYSTOP <=? V2P v) then panic "kfree" else
  memset v 1 PGSIZE;;
  ul ← get (λ k, k.(kmem).(use_lock));
  when (truth ul) (acquire LKmem);;
  f ← get (λ k, k.(kmem).(freelist));
  st32 v f;;
  upd_kmem (set_freelist v);;
  ul' ← get (λ k, k.(kmem).(use_lock));
  when (truth ul') (release LKmem).

Definition kalloc : K Z :=
  ul ← get (λ k, k.(kmem).(use_lock));
  when (truth ul) (acquire LKmem);;
  r ← get (λ k, k.(kmem).(freelist));
  when (truth r) (nx ← ld32 r; upd_kmem (set_freelist nx));;
  ul' ← get (λ k, k.(kmem).(use_lock));
  when (truth ul') (release LKmem);;
  mret r.

Definition freerange (fuel : nat) (vstart vend : Z) : K unit :=
  while_fuel fuel (λ p,
    if u32 (p + PGSIZE) <=? vend then kfree p;; mret (inl (u32 (p + PGSIZE)))
    else mret (inr tt)) (PGROUNDUP vstart).

Definition kinit1 (fuel : nat) (vstart vend : Z) : K unit :=
  initlock LKmem "kmem";;
  upd_kmem (set_use_lock 0);;
  freerange fuel vstart vend.

Definition kinit2 (fuel : nat) (vstart vend : Z) : K unit :=
  freerange fuel vstart vend;;
  upd_kmem (set_use_lock 1).

(** ** The list of free pages *)

(** A page the allocator manages. *)
Definition page_ok (e p : Z) : Prop :=
  p `mod` PGSIZE = 0 ∧ e <= p ∧ p + PGSIZE <= KERNBASE + PHYSTOP.

(** The chain of free pages from [h] is [l]. *)
Fixpoint flist (m : Z → Z) (h : Z) (l : list Z) : Prop :=
  match l with
  | [] => h = 0
  | p :: l' => h = p ∧ flist m (rd32 m p) l'
  end.

(** The kernel image ends inside the memory that is mapped. *)
Definition kend_ok (k : kernel) : Prop := KERNBASE < k.(kend) <= KERNBASE + PHYSTOP.

Record free_ok (k : kernel) (l : list Z) : Prop := {
  fo_list : flist k.(mem) k.(kmem).(freelist) l;
  fo_nodup : NoDup l;
  fo_pages : Forall (page_ok k.(kend)) l;
  fo_end : kend_ok k;
}.

(** The allocator may be called: its lock is not in use yet or is free. *)
Definition kmem_ready (k : kernel) (c : nat) : Prop :=
  k.(kmem).(use_lock) = 0 ∨
  k.(kmem).(use_lock) ≠ 0 ∧ (∃ n, cpu_at k.(hw) c n ∧ n < 900) ∧ lk_free k.(hw) LKmem.

(** The machine after a call of the allocator. *)
Definition klock_hw (c : nat) (k : kernel) : machine :=
  if truth k.(kmem).(use_lock) then touch c k.(hw) else k.(hw).

(** ** Lemmas *)

Lemma page_kaddr e p : KERNBASE < e → page_ok e p → kaddr p PGSIZE.
Proof. unfold page_ok, kaddr, PGSIZE, PHYSTOP, KERNBASE. lia. Qed.

Lemma page_kaddr_word e p : KERNBASE < e → page_ok e p → kaddr p 4.
Proof. intros He Hp. pose proof (page_kaddr e p He Hp). unfold kaddr, PGSIZE in *. lia. Qed.

Lemma page_ne0 e p : KERNBASE < e → page_ok e p → p ≠ 0.
Proof. unfold page_ok, KERNBASE. lia. Qed.

Lemma pages_apart e p q :
  page_ok e p → page_ok e q → p ≠ q → p + PGSIZE <= q ∨ q + PGSIZE <= p.
Proof.
  unfold page_ok, PGSIZE. intros (Hp & _) (Hq & _) Hne.
  Z.to_euclidean_division_equations. nia.
Qed.

(** The chain only depends on the first words of its pages. *)
Lemma flist_ext m m' h l :
  (∀ p, p ∈ l → rd32 m p = rd32 m' p) → flist m h l → flist m' h l.
Proof.
  revert h. induction l as [|p l IH]; intros h He; cbn [flist]; [done|].
  intros [-> Hl]. split; [done|]. rewrite <- He by (by left). apply IH; [|done].
  intros q Hq. apply He. by right.
Qed.

Lemma flist_is_u32 m p l : flist m (rd32 m p) l → is_u32 (rd32 m p).
Proof. intros _. apply rd32_range. Qed.

(** The lock is taken and released around [m]. *)
Lemma klock_ok {A} k c (m : K A) a (g : kernel → kernel) :
  kmem_ready k c →
  (∀ h, m (set_hw h k) = Ok a (set_hw h (g k))) →
  (g k).(kmem).(use_lock) = k.(kmem).(use_lock) → (g k).(hw) = k.(hw) →
  (ul ← get (λ k, k.(kmem).(use_lock));
   when (truth ul) (acquire LKmem);;
   x ← m;
   ul' ← get (λ k, k.(kmem).(use_lock));
   when (truth ul') (release LKmem);;
   mret x) k = Ok a (set_hw (klock_hw c k) (g k)).
Proof.
  intros Hr Hm Hu Hh. unfold klock_hw. mstep. destruct Hr as [E|(E & (n & Hat & Hn) & Hf)].
  - rewrite E. cbn [truth Z.eqb negb when]. mstep.
    rewrite <- (set_hw_id k) at 1. mstep by apply Hm. mstep. change (kmem (set_hw _ (g k))) with (kmem (g k)).
    by rewrite Hu, E.
  - assert (Et : truth k.(kmem).(use_lock) = true) by (unfold truth; by destruct (Z.eqb_spec k.(kmem).(use_lock) 0)).
    rewrite Et. cbn [when]. pose proof (cpu_at_nonneg _ _ _ Hat).
    mstep by (eapply acquire_ok; [done|lia|done]). mstep by apply Hm. mstep.
    change (kmem (set_hw _ (g k))) with (kmem (g k)). rewrite Hu, Et. cbn [when].
    mstep by (eapply (release_ok _ c (n + 1)); [by apply acq_at|lia|apply acq_mine]).
    cbn [hw set_hw]. by rewrite (rel_acq _ _ n), set_hw_set_hw by done.
Qed.

Lemma kfree_cond e v :
  KERNBASE < e → is_u32 v →
  truth (v `mod` PGSIZE) || (v <? e) || (PHYSTOP <=? V2P v) = false ↔ page_ok e v.
Proof.
  intros He Hv. unfold page_ok, truth.
  destruct (Z.eqb_spec (v `mod` PGSIZE) 0) as [Ez|Ez]; cbn [negb orb]; [|naive_solver].
  destruct (Z.ltb_spec v e) as [Hlt|Hge]; cbn [orb]; [split; [done|lia]|].
  assert (EV : V2P v = v - KERNBASE) by (unfold V2P; apply u32_small; unfold is_u32, KERNBASE in *; lia).
  rewrite EV. unfold PGSIZE, PHYSTOP, KERNBASE in *.
  destruct (Z.leb_spec 234881024 (v - 2147483648)); split; intros; try done; try lia.
  split_and!; [done|lia|]. Z.to_euclidean_division_equations. lia.
Qed.

(** kfree() checks its argument before it writes anything. *)
Lemma kfree_panics k v :
  kend_ok k → is_u32 v → ¬ page_ok k.(kend) v → kfree v k = Err (Panic "kfree") k.
Proof.
  intros He Hv Hp. unfold kfree. mstep. rewrite <- (kfree_cond _ _ (proj1 He) Hv) in Hp.
  destruct (_ || _); done.
Qed.

Definition kfree_mem (v f : Z) (m : Z → Z) : Z → Z := wr32 v f (fillm v PGSIZE 1 m).

Lemma kfree_eff k c v :
  kend_ok k → page_ok k.(kend) v → kmem_ready k c →
  kfree v k = Ok tt (set_hw (klock_hw c k) (set_kmem (set_freelist v k.(kmem))
                       (set_mem (kfree_mem v k.(kmem).(freelist) k.(mem)) k))).
Proof.
  intros He Hp Hr. pose proof (page_kaddr _ _ (proj1 He) Hp) as Ha. unfold kfree. mstep.
  rewrite (proj2 (kfree_cond _ v (proj1 He) ltac:(eapply kaddr_is_u32; [done|unfold PGSIZE; lia])) Hp).
  mstep by (by apply memset_ok). set (k1 := set_mem _ k).
  pose proof (klock_ok k1 c (f ← get (λ k, k.(kmem).(freelist)); st32 v f;; upd_kmem (set_freelist v)) tt
    (λ k0, set_kmem (set_freelist v k0.(kmem)) (set_mem (wr32 v k0.(kmem).(freelist) k0.(mem)) k0)) Hr) as H.
  etrans; [|apply H]; try done.
  - unfold mbind, M_bind, mret, M_ret. cbn.
    destruct (when _ _ k1) as [[] k2| |]; [|done|done]. destruct (st32 v _ k2) as [[] k3| |]; [|done|done].
    unfold upd_kmem, modify. cbn. by destruct (when _ _ _) as [[] ?| |].
  - intros h. mstep. mstep by (apply st32_kern; eapply page_kaddr_word; [apply He|done]). done.
Qed.

Lemma kalloc_eff k c :
  kend_ok k → kmem_ready k c → (k.(kmem).(freelist) ≠ 0 → page_ok k.(kend) k.(kmem).(freelist)) →
  kalloc k = Ok k.(kmem).(freelist) (set_hw (klock_hw c k)
    (set_kmem (if truth k.(kmem).(freelist) then set_freelist (rd32 k.(mem) k.(kmem).(freelist)) k.(kmem)
               else k.(kmem)) k)).
Proof.
  intros He Hr Hf. set (r := k.(kmem).(freelist)).
  pose proof (klock_ok k c (r ← get (λ k, k.(kmem).(freelist));
     when (truth r) (nx ← ld32 r; upd_kmem (set_freelist nx));; mret r) r
    (λ k0, set_kmem (if truth r then set_freelist (rd32 k0.(mem) r) k0.(kmem) else k0.(kmem)) k0) Hr) as H.
  etrans; [|apply H].
  - unfold kalloc, mbind, M_bind, mret, M_ret. cbn.
    destruct (when _ _ k) as [[] k2| |]; [|done|done]. by destruct (when _ _ k2).
  - intros h. mstep. change (freelist (kmem (set_hw h k))) with r. unfold when, truth in *.
    destruct (Z.eqb_spec r 0); cbn [negb].
    + mstep. by destruct k.
    + mstep by (mstep by (apply ld32_kern; eapply page_kaddr_word; [apply He|by apply Hf]); reflexivity). done.
  - cbn. by destruct (truth r).
  - done.
Qed.

(** A call of the allocator changes nothing but the free list, memory and,
    outside critical sections, the processor's record of its interrupt flag. *)
Definition kmem_frame (c : nat) (k k' : kernel) : Prop :=
  ∃ h m f, k' = set_hw h (set_kmem (set_freelist f k.(kmem)) (set_mem m k)) ∧ settled c k.(hw) h.

#[export] Instance kmem_frame_preorder c : PreOrder (kmem_frame c).
Proof.
  split.
  - intros k. exists k.(hw), k.(mem), k.(kmem).(freelist). split; [|apply settled_refl].
    by rewrite set_mem_id, set_freelist_id, set_kmem_id, set_hw_id.
  - intros k1 k2 k3 (h & m & f & -> & Hs) (h' & m' & f' & -> & Hs').
    exists h', m', f'. split; [done|]. by eapply settled_trans.
Qed.

Lemma kmem_frame_ready c k k' : kmem_frame c k k' → kmem_ready k c → kmem_ready k' c.
Proof.
  intros (h & m & f & -> & Hs) [E|(E & (n & Hat & Hn) & Hf)]; [by left|right].
  split; [done|]. split; [exists n|]; eauto with xv6.
Qed.

Lemma kmem_frame_settled c k k' : kmem_frame c k k' → settled c k.(hw) k'.(hw).
Proof. by intros (h & m & f & -> & Hs). Qed.

Lemma kmem_frame_kend c k k' : kmem_frame c k k' → k'.(kend) = k.(kend).
Proof. by intros (h & m & f & -> & Hs). Qed.

Lemma klock_settled k c : kmem_ready k c → settled c k.(hw) (klock_hw c k).
Proof.
  unfold klock_hw. intros [->|(E & (n & Hat & Hn) & Hf)]; [by left|].
  destruct (truth _); [by eapply settled_touch|by left].
Qed.

(** *** The operations on the list of free pages *)

Lemma kfree_ok k c l v :
  free_ok k l → kmem_ready k c → page_ok k.(kend) v → v ∉ l →
  ∃ k', kfree v k = Ok tt k' ∧ kmem_frame c k k' ∧ free_ok k' (v :: l) ∧
    (∀ a, is_u32 a → ¬ v <= a < v + PGSIZE → rd k'.(mem) a = rd k.(mem) a).
Proof.
  intros [Hl Hnd Hpg He] Hr Hp Hv. pose proof (page_kaddr _ _ (proj1 He) Hp) as Ha.
  pose proof (page_kaddr_word _ _ (proj1 He) Hp) as Ha4.
  eexists. split; [by apply kfree_eff|]. split; [eexists _, _, _; split; [reflexivity|by apply klock_settled]|].
  assert (Hout : ∀ a, is_u32 a → ¬ v <= a < v + PGSIZE →
    rd (kfree_mem v k.(kmem).(freelist) k.(mem)) a = rd k.(mem) a).
  { intros a Hu Hn. unfold kfree_mem. rewrite rd_wr32_ne; [|done|done|unfold PGSIZE in *; lia].
    rewrite !rd_val by done. unfold fillm. inside_cases; [lia|done]. }
  split; [|exact Hout]. split; cbn; [|by constructor|by constructor|done].
  split; [done|]. unfold kfree_mem at 2. rewrite rd32_wr32_eq; [|done|].
  - apply (flist_ext k.(mem)); [|done]. intros p Hin. apply rd32_ext. intros i Hi.
    pose proof (proj1 (Forall_forall _ _) Hpg p Hin) as Hpp.
    pose proof (page_kaddr _ _ (proj1 He) Hpp) as Hap. symmetry. apply Hout.
    + unfold kaddr, KERNBASE, is_u32, PGSIZE in *. lia.
    + assert (p ≠ v) by (intros ->; done). pose proof (pages_apart _ _ _ Hpp Hp H). unfold PGSIZE in *. lia.
  - destruct l as [|p l]; cbn in Hl; [rewrite Hl; unfold is_u32; lia|]. destruct Hl as [-> _].
    apply Forall_cons in Hpg as [Hpp _]. eapply kaddr_is_u32; [by eapply page_kaddr; [apply He|]|unfold PGSIZE; lia].
Qed.

Lemma kalloc_ok k c l :
  free_ok k l → kmem_ready k c →
  ∃ k', kalloc k = Ok (default 0 (head l)) k' ∧ kmem_frame c k k' ∧ free_ok k' (tail l) ∧ k'.(mem) = k.(mem).
Proof.
  intros [Hl Hnd Hpg He] Hr. eexists. split.
  { rewrite (kalloc_eff k c He Hr).
    - f_equal. by destruct l as [|p l]; cbn in Hl |- *; [|destruct Hl].
    - destruct l as [|p l]; cbn in Hl; [done|]. destruct Hl as [-> _]. by apply Forall_cons in Hpg as [Hp _]. }
  pose proof (klock_settled _ _ Hr) as Hs. destruct l as [|p l]; cbn in Hl |- *.
  - rewrite Hl. cbn [truth Z.eqb negb]. split_and!; [|by split|done].
    exists (klock_hw c k), k.(mem), 0. split; [|done]. rewrite <- Hl. by rewrite set_freelist_id, set_mem_id.
  - destruct Hl as [-> Hl]. apply Forall_cons in Hpg as [Hp Hpg]. apply NoDup_cons in Hnd as [_ Hnd].
    pose proof (page_ne0 _ _ (proj1 He) Hp) as Hne.
    assert (truth p = true) as -> by (unfold truth; by destruct (Z.eqb_spec p 0)).
    split_and!; [|by split|done]. exists (klock_hw c k), k.(mem), (rd32 k.(mem) p). split; [by destruct k|done].
Qed.

(** *** freerange *)

(** [n] pages from [a] on. *)
Fixpoint pages (a : Z) (n : nat) : list Z :=
  match n with
  | O => []
  | S n' => a :: pages (a + PGSIZE) n'
  end.

Lemma elem_of_pages a n p : p ∈ pages a n ↔ ∃ i, 0 <= i < Z.of_nat n ∧ p = a + PGSIZE * i.
Proof.
  revert a. induction n as [|n IH]; intros a; cbn [pages].
  - rewrite elem_of_nil. split; [done|]. intros (i & ? & _). lia.
  - rewrite elem_of_cons, IH. split.
    + intros [->|(i & Hi & ->)]; [exists 0|exists (i + 1)]; lia.
    + intros (i & Hi & ->). destruct (decide (i = 0)) as [->|]; [left; lia|].
      right. exists (i - 1). lia.
Qed.

(** How many whole pages lie between [a] and [b]. *)
Definition npages (a b : Z) : nat := Z.to_nat ((b - a) / PGSIZE).

Lemma freerange_loop n fuel p vend k c l :
  free_ok k l → kmem_ready k c → p `mod` PGSIZE = 0 → k.(kend) <= p → vend <= KERNBASE + PHYSTOP →
  npages p vend = n → p <= vend + PGSIZE → (∀ q, q ∈ pages p n → q ∉ l) → (n < fuel)%nat →
  ∃ k', while_fuel fuel (λ p,
    if u32 (p + PGSIZE) <=? vend then kfree p;; mret (inl (u32 (p + PGSIZE)))
    else mret (inr tt)) p k = Ok tt k' ∧ free_ok k' (reverse (pages p n) ++ l) ∧ kmem_frame c k k'.
Proof.
  revert fuel p k l. induction n as [|n IH]; intros fuel p k l Hf Hr Hal Hp Hend Hn Hpe Hnew Hfuel;
    (destruct fuel as [|fuel]; [lia|]); cbn [while_fuel].
  all: pose proof (fo_end _ _ Hf) as He; unfold kend_ok in He.
  all: assert (Hu : u32 (p + PGSIZE) = p + PGSIZE) by
    (apply u32_small; unfold is_u32, PGSIZE, PHYSTOP, KERNBASE in *; lia).
  all: rewrite Hu; unfold npages in Hn.
  - destruct (Z.leb_spec (p + PGSIZE) vend) as [Hle|Hgt].
    { exfalso. unfold PGSIZE in *. pose proof (Z.div_le_mono 4096 (vend - p) 4096 ltac:(lia) ltac:(lia)) as Hd.
      rewrite Z.div_same in Hd by lia. lia. }
    mstep. by exists k.
  - assert (Hle : p + PGSIZE <= vend).
    { unfold PGSIZE in *. destruct (decide (p + 4096 <= vend)); [done|].
      assert ((vend - p) / 4096 < 1) by (apply Z.div_lt_upper_bound; lia). lia. }
    rewrite (proj2 (Z.leb_le _ _) Hle).
    destruct (kfree_ok k c l p Hf Hr) as (k1 & E & Hfr & Hf' & _).
    { unfold page_ok. split_and!; [done|done|unfold PGSIZE, PHYSTOP in *; lia]. }
    { apply Hnew. cbn. by left. }
    mstep by (mstep by (exact E); reflexivity).
    destruct (IH fuel (p + PGSIZE) _ (p :: l) Hf') as (k' & E' & Hk' & Hr').
    + by eapply kmem_frame_ready.
    + unfold PGSIZE in *. rewrite Z.add_mod, Hal by lia. done.
    + rewrite (kmem_frame_kend _ _ _ Hfr). unfold PGSIZE. lia.
    + done.
    + unfold npages. replace (vend - (p + PGSIZE)) with (vend - p + (-1) * PGSIZE) by lia.
      rewrite Z.div_add by (unfold PGSIZE; lia). lia.
    + unfold PGSIZE in *; lia.
    + intros q Hq. rewrite not_elem_of_cons. split.
      * apply elem_of_pages in Hq as (i & Hi & ->). unfold PGSIZE. lia.
      * apply Hnew. cbn. by right.
    + lia.
    + exists k'. split; [exact E'|]. cbn [pages]. rewrite reverse_cons, <- app_assoc.
      split; [done|]. by etrans.
Qed.

Lemma pgroundup_aligned a : 0 <= a <= 2 ^ 32 - 4096 →
  PGROUNDUP a `mod` PGSIZE = 0 ∧ a <= PGROUNDUP a < a + PGSIZE.
Proof.
  intros Ha. rewrite PGROUNDUP_div by done. unfold PGSIZE. rewrite Z.mod_mul by lia. split; [done|].
  Z.to_euclidean_division_equations. lia.
Qed.

(** Between aligned [a] and [b], the pages of [pages a (npages a b)]. *)
Lemma elem_of_pages_range a b p :
  a `mod` PGSIZE = 0 →
  p ∈ pages a (npages a b) ↔ p `mod` PGSIZE = 0 ∧ a <= p ∧ p + PGSIZE <= b.
Proof.
  intros Ha. rewrite elem_of_pages. unfold npages, PGSIZE in *. split.
  - intros (i & Hi & ->).
    assert (i + 1 <= (b - a) / 4096) by lia.
    pose proof (Z.mul_div_le (b - a) 4096 ltac:(lia)).
    split_and!; [|lia|lia]. rewrite Z.mul_comm, Z.mod_add by lia. done.
  - intros (Hp & Hle & Hb). exists ((p - a) / 4096).
    assert (Hd : 4096 * ((p - a) / 4096) = p - a).
    { assert ((p - a) `mod` 4096 = 0) by (rewrite Zminus_mod, Ha, Hp; done).
      pose proof (Z.div_mod (p - a) 4096 ltac:(lia)). lia. }
    assert ((p - a) / 4096 + 1 <= (b - a) / 4096); [|lia].
    apply Z.div_le_lower_bound; lia.
Qed.

Lemma freerange_ok k c l fuel vstart vend :
  free_ok k l → kmem_ready k c → k.(kend) <= vstart → vstart <= vend <= KERNBASE + PHYSTOP →
  (∀ q, q ∈ l → vend <= q ∨ q + PGSIZE <= vstart) →
  ((vend - vstart) / PGSIZE < Z.of_nat fuel) →
  ∃ k', freerange fuel vstart vend k = Ok tt k' ∧ kmem_frame c k k' ∧
    free_ok k' (reverse (pages (PGROUNDUP vstart) (npages (PGROUNDUP vstart) vend)) ++ l).
Proof.
  intros Hf Hr Hs He Hnew Hfuel. pose proof (fo_end _ _ Hf) as Hk. unfold kend_ok in Hk.
  destruct (pgroundup_aligned vstart) as [Hal Hup]; [unfold KERNBASE, PHYSTOP in *; lia|].
  destruct (freerange_loop (npages (PGROUNDUP vstart) vend) fuel (PGROUNDUP vstart) vend k c l) as (k' & E & Hk' & Hr');
    try done; try lia.
  - intros q Hq Hl. apply elem_of_pages_range in Hq as (_ & Hq1 & Hq2); [|done].
    unfold PGSIZE in *. destruct (Hnew q Hl); lia.
  - unfold npages. pose proof (Z.div_le_mono (vend - PGROUNDUP vstart) (vend - vstart) PGSIZE ltac:(unfold PGSIZE; lia) ltac:(lia)).
    assert (0 <= (vend - vstart) / PGSIZE) by (apply Z.div_pos; unfold PGSIZE; lia). lia.
  - by exists k'.
Qed.

(** ** Properties *)

(** The physical memory mapped by entrypgdir, kinit1()'s part. *)
Definition EARLY : Z := KERNBASE + 4 * 1024 * 1024.

(** C36: after main()'s calls kinit1(end, P2V(4M)) and kinit2(P2V(4M),
    P2V(PHYSTOP)) the free list holds every page between the end of the kernel
    image and PHYSTOP exactly once, and locking is on; 57,345 iterations are
    enough for each of the two loops. *)
Theorem kinit_frees_all k fuel :
  k.(kmem).(freelist) = 0 → KERNBASE < k.(kend) <= EARLY → 57344 < Z.of_nat fuel →
  ∃ k' l, (kinit1 fuel k.(kend) EARLY;; kinit2 fuel EARLY (KERNBASE + PHYSTOP)) k = Ok tt k' ∧
    free_ok k' l ∧ (∀ p, p ∈ l ↔ page_ok k.(kend) p) ∧ k'.(kmem).(use_lock) = 1.
Proof.
  intros Hfl He Hfuel. unfold kinit1, kinit2.
  set (k1 := set_kmem (set_use_lock 0 k.(kmem)) (set_hw (alter_lock LKmem (λ _, mk_spinlock 0 "kmem" None) k.(hw)) k)).
  assert (Hup : EARLY <= KERNBASE + PHYSTOP) by (unfold EARLY, PHYSTOP, KERNBASE; lia).
  destruct (freerange_ok k1 0 [] fuel k.(kend) EARLY) as (k2 & E2 & Hr2 & Hf2).
  { split; [exact Hfl|constructor|constructor|]. unfold kend_ok. cbn. lia. }
  { by left. }
  { done. }
  { lia. }
  { intros q Hq. by apply elem_of_nil in Hq. }
  { unfold EARLY, PGSIZE, KERNBASE in *. apply Z.div_lt_upper_bound; lia. }
  destruct (pgroundup_aligned k.(kend)) as [Hal Hge]; [unfold EARLY, KERNBASE in *; lia|].
  rewrite app_nil_r in Hf2. set (l1 := pages _ _) in Hf2.
  destruct (freerange_ok k2 0 (reverse l1) fuel EARLY (KERNBASE + PHYSTOP)) as (k3 & E3 & Hr3 & Hf3).
  { done. }
  { eapply kmem_frame_ready; [exact Hr2|by left]. }
  { rewrite (kmem_frame_kend _ _ _ Hr2). apply He. }
  { lia. }
  { intros q Hq. rewrite elem_of_reverse in Hq. apply elem_of_pages_range in Hq; [|done]. lia. }
  { unfold EARLY, PGSIZE, KERNBASE, PHYSTOP in *. apply Z.div_lt_upper_bound; lia. }
  destruct (pgroundup_aligned EARLY) as [Hal2 Hge2]; [unfold EARLY, KERNBASE in *; lia|].
  assert (EE : PGROUNDUP EARLY = EARLY) by reflexivity. rewrite EE in *.
  eexists _, _. split; [|split; [|split]].
  - mstep by (do 2 mstep; exact E2). mstep by exact E3. reflexivity.
  - destruct Hf3 as [H1 H2 H3 H4]. split; [exact H1|exact H2|exact H3|exact H4].
  - intros p. rewrite elem_of_app, !elem_of_reverse. unfold l1. rewrite !elem_of_pages_range by done.
    unfold page_ok, EARLY, PGSIZE, KERNBASE, PHYSTOP in *. split; [lia|]. intros (Hp & Hlo & Hhi).
    assert (PGROUNDUP k.(kend) <= p).
    { Z.to_euclidean_division_equations. lia. }
    assert (p + 4096 <= 2147483648 + 4 * 1024 * 1024 ∨ 2147483648 + 4 * 1024 * 1024 <= p); [|lia].
    Z.to_euclidean_division_equations. lia.
  - done.
Qed.

Lemma kinit_frees_all_witness :
  ∃ k' l, (kinit1 (Z.to_nat 60000) 0x80110000 EARLY;; kinit2 (Z.to_nat 60000) EARLY (KERNBASE + PHYSTOP)) (boot_kernel 1)
          = Ok tt k' ∧ 0x80110000 ∈ l ∧ free_ok k' l.
Proof.
  destruct (kinit_frees_all (boot_kernel 1) (Z.to_nat 60000)) as (k' & l & E & Hf & Hp & _).
  - reflexivity.
  - split; vm_compute; congruence.
  - lia.
  - exists k', l. split; [exact E|]. split; [|exact Hf]. apply Hp. split_and!; vm_compute; congruence.
Defined.

(** *** A client of the allocator *)

(** The kernel together with the pages its other parts own: they allocate,
    free a page they own, and write anywhere in the pages they own. *)
Inductive kmem_step : kernel * list Z → kernel * list Z → Prop :=
| ks_alloc k o p k' : kalloc k = Ok p k' → p ≠ 0 → kmem_step (k, o) (k', p :: o)
| ks_none k o k' : kalloc k = Ok 0 k' → kmem_step (k, o) (k', o)
| ks_free k o o1 o2 p k' : o = o1 ++ p :: o2 → kfree p k = Ok tt k' → kmem_step (k, o) (k', o1 ++ o2)
| ks_write k o m : (∀ a, is_u32 a → (∀ p, p ∈ o → ¬ p <= a < p + PGSIZE) → rd m a = rd k.(mem) a) →
    kmem_step (k, o) (set_mem m k, o).

Definition kmem_inv (c : nat) (l0 : list Z) (s : kernel * list Z) : Prop :=
  ∃ l, free_ok s.1 l ∧ kmem_ready s.1 c ∧ Permutation (l ++ s.2) l0 ∧ NoDup (l ++ s.2) ∧
       Forall (page_ok s.1.(kend)) s.2.

Lemma kmem_inv_step c l0 s s' : kmem_inv c l0 s → kmem_step s s' → kmem_inv c l0 s'.
Proof.
  intros (l & Hf & Hr & Hp & Hnd & Ho) Hstep.
  destruct Hstep as [k o p k' E Hne|k o k' E|k o o1 o2 p k' -> E|k o m Hm]; cbn [fst snd] in *.
  - destruct (kalloc_ok k c l Hf Hr) as (k1 & E1 & Hfr & Hf1 & _). rewrite E in E1. injection E1 as -> <-.
    destruct l as [|q l]; [done|]. cbn in *.
    assert (Hpm : Permutation (l ++ q :: o) (q :: l ++ o)) by (symmetry; apply Permutation_middle).
    exists l. cbn [fst snd]. split_and!; [done|by eapply kmem_frame_ready|by rewrite Hpm|by rewrite Hpm|].
    rewrite (kmem_frame_kend _ _ _ Hfr). constructor; [|done]. eapply Forall_inv, fo_pages, Hf.
  - destruct (kalloc_ok k c l Hf Hr) as (k1 & E1 & Hfr & Hf1 & _). rewrite E in E1. injection E1 as Hh <-.
    destruct l as [|q l].
    + exists []. cbn [fst snd tail] in *. split_and!; [done|by eapply kmem_frame_ready|done|done|].
      by rewrite (kmem_frame_kend _ _ _ Hfr).
    + cbn in Hh. destruct (page_ne0 k.(kend) q); [apply (fo_end _ _ Hf)|eapply Forall_inv, fo_pages, Hf|done].
  - apply Forall_app in Ho as [Ho1 [Hop Ho2]%Forall_cons].
    assert (Hpm : Permutation ((p :: l) ++ o1 ++ o2) (l ++ o1 ++ p :: o2)).
    { cbn. rewrite !app_assoc. apply Permutation_middle. }
    assert (Hpl : p ∉ l).
    { rewrite <- Hpm in Hnd. cbn in Hnd. apply NoDup_cons in Hnd as [Hn _]. by intros ?; apply Hn, elem_of_app; left. }
    destruct (kfree_ok k c l p Hf Hr Hop Hpl) as (k1 & E1 & Hfr & Hf1 & _). rewrite E in E1. injection E1 as <-.
    exists (p :: l). cbn [fst snd]. split_and!; [done|by eapply kmem_frame_ready|by rewrite Hpm|by rewrite Hpm|].
    rewrite (kmem_frame_kend _ _ _ Hfr). by apply Forall_app.
  - exists l. cbn [fst snd]. split_and!; [|done|done|done|done]. destruct Hf as [H1 H2 H3 H4].
    split; [|done|done|done]. apply (flist_ext k.(mem)); [|done]. intros p Hin. apply rd32_ext. intros i Hi.
    pose proof (proj1 (Forall_forall _ _) H3 p Hin) as Hpp.
    pose proof (page_kaddr _ _ (proj1 H4) Hpp) as Hap. symmetry. apply Hm.
    + unfold kaddr, KERNBASE, is_u32, PGSIZE in *. lia.
    + intros q Hq. pose proof (proj1 (Forall_forall _ _) Ho q Hq) as Hqq.
      assert (p ≠ q). { intros ->. apply NoDup_app in Hnd as (_ & Hd & _). by apply (Hd q). }
      pose proof (pages_apart _ _ _ Hpp Hqq H). unfold PGSIZE in *. lia.
Qed.

(** C35: the allocator is safe for clients that free only what they own:
    whatever they allocate, free and write (inside their pages), the free
    pages and the owned pages together are always the initial pages, each once;
    so kalloc() never hands out a page that is still owned, never fails
    while a page is free, and kfree() of an owned page never panics. *)
Theorem kalloc_safe c k0 l0 s :
  free_ok k0 l0 → kmem_ready k0 c → reach (λ s, s = (k0, [])) kmem_step s →
  ∃ l, free_ok s.1 l ∧ Permutation (l ++ s.2) l0 ∧ NoDup (l ++ s.2) ∧
    (∃ k', kalloc s.1 = Ok (default 0 (head l)) k') ∧
    (∀ p, p ∈ s.2 → ∃ k', kfree p s.1 = Ok tt k').
Proof.
  intros Hf Hr Hreach.
  assert (Hinv : kmem_inv c l0 s).
  { revert Hreach. apply reach_inv; [|intros; by eapply kmem_inv_step].
    intros ? ->. exists l0. cbn. rewrite app_nil_r. split_and!; try done. apply Hf. }
  destruct Hinv as (l & Hf' & Hr' & Hp & Hnd & Ho). exists l. split_and!; [done|done|done| |].
  - destruct (kalloc_ok _ _ _ Hf' Hr') as (k' & E & _). by exists k'.
  - intros p Hin. destruct (kfree_ok _ _ _ p Hf' Hr') as (k' & E & _); [by eapply Forall_forall| |by exists k'].
    intros Hl. apply NoDup_app in Hnd as (_ & Hd & _). by apply (Hd p).
Qed.

(** Two free pages, the allocator not locked yet. *)
Definition two_pages : kernel :=
  set_kmem (mk_kmem 0 0x80200000) (set_mem (wr32 0x80200000 0x80201000 (λ _, 0)) (boot_kernel 1)).

Lemma two_pages_free : free_ok two_pages [0x80200000; 0x80201000].
Proof.
  split; [|by apply (bool_decide_unpack _)| |].
  - vm_compute. auto.
  - repeat constructor; vm_compute; congruence.
  - split; vm_compute; congruence.
Qed.

Lemma kalloc_safe_witness :
  ∃ k p, kalloc two_pages = Ok p k ∧ p = 0x80200000 ∧ ∃ k', kfree p k = Ok tt k'.
Proof.
  destruct (kalloc_ok two_pages 0 _ two_pages_free ltac:(by left)) as (k & E & _).
  destruct (kalloc_safe 0 two_pages [0x80200000; 0x80201000] (k, [0x80200000])) as (l & _ & _ & _ & _ & H).
  - exact two_pages_free.
  - by left.
  - eapply reach_step; [by apply reach_init|]. eapply ks_alloc; [exact E|discriminate].
  - exists k, 0x80200000. split; [exact E|]. split; [reflexivity|]. apply H. by left.
Defined.

(** Kfree() rejects a pointer that is not page-aligned, lies in the
    kernel image or beyond PHYSTOP before writing anything; freeing a page
    and allocating again returns that page, filled with the junk byte 1
    except for the link word. *)
Theorem kfree_kalloc k c l v :
  free_ok k l → kmem_ready k c → is_u32 v →
  (¬ page_ok k.(kend) v → kfree v k = Err (Panic "kfree") k) ∧
  (page_ok k.(kend) v → v ∉ l →
     ∃ k1 k2, kfree v k = Ok tt k1 ∧ kalloc k1 = Ok v k2 ∧ free_ok k2 l ∧
       (∀ i, 4 <= i < PGSIZE → rd k2.(mem) (v + i) = 1) ∧
       (∀ a, is_u32 a → ¬ v <= a < v + PGSIZE → rd k2.(mem) a = rd k.(mem) a)).
Proof.
  intros Hf Hr Hv. split.
  - intros Hn. apply kfree_panics; [apply Hf|done|done].
  - intros Hp Hl. destruct (kfree_ok k c l v Hf Hr Hp Hl) as (k1 & E1 & Hfr & Hf1 & Hout).
    destruct (kalloc_ok k1 c (v :: l) Hf1 ltac:(by eapply kmem_frame_ready)) as (k2 & E2 & _ & Hf2 & Hm).
    exists k1, k2. rewrite Hm. split_and!; [done|done|done| |done].
    intros i Hi. pose proof (page_kaddr _ _ (proj1 (fo_end _ _ Hf)) Hp) as Ha.
    pose proof (page_kaddr_word _ _ (proj1 (fo_end _ _ Hf)) Hp) as Ha4.
    rewrite (kfree_eff k c v) in E1 by (done || apply Hf). injection E1 as <-. cbn [mem set_mem set_kmem set_hw].
    assert (Hu : is_u32 (v + i)) by (unfold kaddr, KERNBASE, is_u32 in *; lia).
    unfold kfree_mem. rewrite rd_wr32_ne by (done || lia). rewrite rd_val by done.
    unfold fillm. inside_cases; [done|lia].
Qed.

Lemma kfree_kalloc_witness :
  kfree 0x80100800 two_pages = Err (Panic "kfree") two_pages ∧
  ∃ k1 k2, kfree 0x80300000 two_pages = Ok tt k1 ∧ kalloc k1 = Ok 0x80300000 k2.
Proof.
  split.
  - apply (kfree_kalloc two_pages 0 _ 0x80100800 two_pages_free); [by left|split; vm_compute; congruence|].
    intros (_ & H & _). revert H. vm_compute. congruence.
  - destruct (kfree_kalloc two_pages 0 _ 0x80300000 two_pages_free) as [_ H]; [by left|split; vm_compute; congruence|].
    destruct H as (k1 & k2 & E1 & E2 & _).
    + split_and!; vm_compute; congruence.
    + by apply (bool_decide_unpack _).
    + exists k1, k2. split; assumption.
Defined.
