(* ===== verification/Sched.v ===== *)
(** * Scheduling and sleeping (proc.c; switchuvm and switchkvm of vm.c)

    The priority scheduler, the entry into it ([sched], [yield], [sleep]),
    [wakeup], [kill], the priority system calls' [gp] and [sp], and the CMOS
    clock the process allocator reads.

    swtch() splits a kernel thread in two. [scheduler_iter] is the body of
    the scheduler's loop up to its swtch(), [scheduler_back] the part after
    it. On the other side [sched] saves in p->context where the thread will
    go on and leaves through [Swtch]; [resume] is what runs when the scheduler
    switches to it. The plist array of the scheduler has 50 entries, a write
    past them is an access outside the object; ticks%0 is a divide error. *)
From S2P Require Import Prelude.
From S2P Require Import Kernel.
From S2P Require Import Spinlock.

(** ** The CMOS clock (proc.c 72-143) *)

Definition CMOS_STATA : Z := 0x0a.
Definition CMOS_STATB : Z := 0x0b.
Definition CMOS_UIP : Z := Z.shiftl 1 7.
Definition SECS : Z := 0x00.
Definition MINS : Z := 0x02.
Definition HOURS : Z := 0x04.
Definition DAY : Z := 0x07.
Definition MONTH : Z := 0x08.
Definition YEAR : Z := 0x09.

Record rtcdate : Type := mk_rtcdate {
  second : Z; minute : Z; hour : Z; day : Z; month : Z; year : Z;
}.

#[export] Instance rtcdate_eq_dec : EqDecision rtcdate.
Proof. solve_decision. Defined.

(** outb selects the register, inb returns one byte. *)
Definition cmos_readss (reg : Z) : K Z := λ k,
  let r := k.(rtc) in
  Ok (u8 (r.(rtc_port) r.(rtc_reads) reg)) (set_rtc (set_rtc_reads (S r.(rtc_reads)) r) k).

Definition fill_rtcdatess : K rtcdate :=
  s ← cmos_readss SECS;
  mi ← cmos_readss MINS;
  h ← cmos_readss HOURS;
  d ← cmos_readss DAY;
  mo ← cmos_readss MONTH;
  y ← cmos_readss YEAR;
  mret (mk_rtcdate s mi h d mo y).

(** ((x >> 4) * 10) + (x & 0xf) *)
Definition CONV (x : Z) : Z := u32 (Z.shiftr x 4 * 10 + Z.land x 0xf).

(** One turn of for(;;): [inr] leaves the loop with t1. *)
Definition cmos_turn (_ : unit) : K (unit + rtcdate) :=
  t1 ← fill_rtcdatess;
  sa ← cmos_readss CMOS_STATA;
  if truth (Z.land sa CMOS_UIP) then mret (inl tt) else
  t2 ← fill_rtcdatess;
  mret (if bool_decide (t1 = t2) then inr t1 else inl tt).

Definition cmostimess (fuel : nat) : K rtcdate :=
  sb ← cmos_readss CMOS_STATB;
  let bcd := Z.land sb (Z.shiftl 1 2) =? 0 in
  t1 ← while_fuel fuel cmos_turn tt;
  let t := if bcd
           then mk_rtcdate (CONV t1.(second)) (CONV t1.(minute)) (CONV t1.(hour))
                           (CONV t1.(day)) (CONV t1.(month)) (CONV t1.(year))
           else t1 in
  mret (mk_rtcdate t.(second) t.(minute) t.(hour) t.(day) t.(month) (u32 (t.(year) + 2000))).

(** ** Address spaces (vm.c): the descriptor and task-state constants that do
    not depend on the process are left out. *)

Definition lcr3 (v : Z) : K unit :=
  upd_hw (λ h, set_cr3 (<[h.(lapic) := v]> h.(cr3)) h).

Definition switchkvm : K unit :=
  kp ← get kpgdir;
  lcr3 (V2P kp).

Definition switchuvm (p : option nat) : K unit :=
  match p with
  | None => panic "switchuvm: no process"
  | Some i =>
      x ← proc_get i;
      if x.(kstack) =? 0 then panic "switchuvm: no kstack" else
      if x.(pgdir) =? 0 then panic "switchuvm: no pgdir" else
      pushcli;;
      c ← mycpu;
      cpu_upd c (set_esp0 (u32 (x.(kstack) + KSTACKSIZE)));;
      lcr3 (V2P x.(pgdir));;
      popcli
  end.

(** ** The scheduler *)

(** struct proc* plist[50]; *)
Definition PLIST : nat := 50.

(** Does any process wait for a processor? *)
Definition scan_flag : K Z :=
  for_acc NPROC 0 (λ i flag,
    p ← proc_get i;
    mret (if bool_decide (p.(state) = RUNNABLE) then 1 else flag)) 0.

(** mn = (mn > p->prio) ? p->prio : mn, with mn an int and prio a uint. *)
Definition scan_min : K Z :=
  for_acc NPROC 0 (λ i mn,
    p ← proc_get i;
    mret (if bool_decide (p.(state) = RUNNABLE)
          then s32 (if p.(prio) <? u32 mn then p.(prio) else u32 mn)
          else mn)) 20.

(** plist[idx] = p; idx++ for each runnable process of priority mn. *)
Definition scan_plist (mn : Z) : K (list (option nat) * Z) :=
  for_acc NPROC 0 (λ i '(plist, idx),
    p ← proc_get i;
    if bool_decide (p.(state) = RUNNABLE) && (p.(prio) =? u32 mn) then
      if Z.of_nat PLIST <=? idx then fail (CpuFault "plist")
      else mret (<[Z.to_nat idx := Some i]> plist, s32 (idx + 1))
    else mret (plist, idx)) (replicate PLIST None, 0).

(** One turn of scheduler()'s loop on cpus[c] up to swtch(): the process it
    switches to with the value of start, or [None] when it goes round again
    because no process is runnable. *)
Definition scheduler_iter (c : nat) : K (option (nat * Z)) :=
  sti;;
  acquire LPtable;;
  flag ← scan_flag;
  if flag =? 0 then release LPtable;; mret None else
  mn ← scan_min;
  '(plist, idx) ← scan_plist mn;
  t ← get ticks;
  if u32 idx =? 0 then fail (CpuFault "divide error") else
  let sch := s32 (t `mod` u32 idx) in
  match plist !! Z.to_nat sch with
  | Some (Some p) =>
      start ← get (λ k, s32 k.(ticks));
      cpu_upd c (set_cproc (Some p));;
      switchuvm (Some p);;
      proc_upd p (set_state RUNNING);;
      mret (Some (p, start))
  | _ => fail (CpuFault "plist")
  end.

(** if(end-start==0) { if(p->prio>0) p->prio -=1; } else { if(p->prio<10)
    p->prio +=1; } *)
Definition adjust_prio (start end_ : Z) (p : proc) : proc :=
  if s32 (end_ - start) =? 0
  then if 0 <? p.(prio) then set_prio (u32 (p.(prio) - 1)) p else p
  else if p.(prio) <? 10 then set_prio (u32 (p.(prio) + 1)) p else p.

(** The rest of the turn, after swtch() has come back from process [p]. *)
Definition scheduler_back (c p : nat) (start : Z) : K unit :=
  switchkvm;;
  end_ ← get (λ k, s32 k.(ticks));
  proc_upd p (adjust_prio start end_);;
  cpu_upd c (set_cproc None);;
  release LPtable.

(** ** Leaving and re-entering a process *)

(** p = myproc(), dereferenced. *)
Definition curproc : K nat :=
  p ← myproc;
  match p with
  | Some i => mret i
  | None => fail (CpuFault "null process")
  end.

(** sched(), called from the point that [ctx] names. *)
Definition sched (ctx : bool → context_t) : K unit :=
  p ← curproc;
  h ← holding LPtable;
  if negb h then panic "sched ptable.lock" else
  c ← mycpu;
  x ← cpu_get c;
  if negb (x.(ncli) =? 1) then panic "sched locks" else
  pr ← proc_get p;
  if bool_decide (pr.(state) = RUNNING) then panic "sched running" else
  iff ← readeflags_IF;
  if (iff : bool) then panic "sched interruptible" else
  c' ← mycpu;
  x' ← cpu_get c';
  proc_upd p (set_context (ctx x'.(intena)));;
  swtch_away.

Definition yield : K unit :=
  acquire LPtable;;
  p ← curproc;
  proc_upd p (set_state RUNNABLE);;
  sched CtxYield.

Definition sleep (ch : chan_t) (lk : lockid) : K unit :=
  p ← myproc;
  match p with
  | None => panic "sleep"
  | Some p =>
      when (bool_decide (lk ≠ LPtable)) (acquire LPtable;; release lk);;
      proc_upd p (set_chan ch);;
      proc_upd p (set_state SLEEPING);;
      sched (CtxSleep lk)
  end.

(** What runs in process [p] when the scheduler's swtch() enters its saved
    context: the end of sched() and of its caller. *)
Definition resume (p : nat) : K unit :=
  pr ← proc_get p;
  match pr.(context) with
  | CtxYield i =>
      c ← mycpu;
      cpu_upd c (set_intena i);;
      release LPtable
  | CtxSleep lk i =>
      c ← mycpu;
      cpu_upd c (set_intena i);;
      proc_upd p (set_chan ChNull);;
      when (bool_decide (lk ≠ LPtable)) (release LPtable;; acquire lk)
  | CtxExit i =>
      c ← mycpu;
      cpu_upd c (set_intena i);;
      panic "zombie exit"
  | CtxForkret => release LPtable
  | CtxNone => fail (CpuFault "no context")
  end.

(** ** Waking, killing, priorities *)

Definition wakeup1 (ch : chan_t) : K unit :=
  for_acc NPROC 0 (λ i _,
    p ← proc_get i;
    when (bool_decide (p.(state) = SLEEPING) && bool_decide (p.(chan) = ch))
      (proc_upd i (set_state RUNNABLE))) tt.

Definition wakeup (ch : chan_t) : K unit :=
  acquire LPtable;;
  wakeup1 ch;;
  release LPtable.

Definition kill (pid_ : Z) : K Z :=
  acquire LPtable;;
  r ← for_range NPROC 0 (λ i,
        p ← proc_get i;
        if p.(pid) =? pid_ then
          proc_upd i (set_killed 1);;
          when (bool_decide (p.(state) = SLEEPING)) (proc_upd i (set_state RUNNABLE));;
          release LPtable;;
          mret (Some 0)
        else mret None);
  match r with
  | Some v => mret v
  | None => release LPtable;; mret (-1)
  end.

Definition gp (pid_ : Z) : K Z :=
  acquire LPtable;;
  r ← for_range NPROC 0 (λ i,
        p ← proc_get i;
        if p.(pid) =? pid_ then
          let prio_ := s32 p.(prio) in
          release LPtable;;
          mret (Some prio_)
        else mret None);
  match r with
  | Some v => mret v
  | None => release LPtable;; mret (-1)
  end.

Definition sp (pid_ prio_ : Z) : K Z :=
  acquire LPtable;;
  r ← for_range NPROC 0 (λ i,
        p ← proc_get i;
        if p.(pid) =? pid_ then
          proc_upd i (set_prio (u32 prio_));;
          release LPtable;;
          yield;;
          mret (Some 0)
        else mret None);
  match r with
  | Some v => mret v
  | None => release LPtable;; mret (-1)
  end.

(** ** Specification: what the scheduler's scans compute *)

Definition runnable (p : proc) : bool := bool_decide (p.(state) = RUNNABLE).

(** The smallest priority value of a runnable process, at most 20. *)
Definition min_prio (l : list proc) : Z :=
  foldl (λ mn p, if runnable p then Z.min p.(prio) mn else mn) 20 l.

(** The runnable processes of priority [mn], in table order. *)
Fixpoint cands (mn : Z) (from : nat) (l : list proc) : list nat :=
  match l with
  | [] => []
  | p :: l' =>
      if runnable p && (p.(prio) =? mn) then from :: cands mn (S from) l'
      else cands mn (S from) l'
  end.

(** The process table has its size and priorities are uints. *)
Definition pt_ok (t : ptable) : Prop :=
  length t.(procs) = NPROC ∧ Forall (λ p, is_u32 p.(prio)) t.(procs).

(** ** Lemmas on the table *)

Lemma proc_get_ok k i x : k.(pt).(procs) !! i = Some x → proc_get i k = Ok x k.
Proof. unfold proc_get. by intros ->. Qed.

Lemma alter_proc_lookup t i f x :
  t.(procs) !! i = Some x → alter_proc i f t = set_procs (<[i := f x]> t.(procs)) t.
Proof.
  intros Hx. unfold alter_proc. f_equal. apply list_eq. intros j.
  destruct (decide (j = i)) as [->|].
  - rewrite list_lookup_alter_eq, Hx, list_lookup_insert_eq; [done|by eapply lookup_lt_Some].
  - by rewrite list_lookup_alter_ne, list_lookup_insert_ne by done.
Qed.

Lemma proc_upd_ok k i f x :
  k.(pt).(procs) !! i = Some x →
  proc_upd i f k = Ok tt (set_pt (set_procs (<[i := f x]> k.(pt).(procs)) k.(pt)) k).
Proof. intros Hx. unfold proc_upd, upd_pt, modify. by rewrite (alter_proc_lookup _ _ _ x). Qed.

(** A scan that only reads the table is a fold over it. *)
Lemma for_acc_read {A} (f : nat → proc → A → A) k acc n from :
  (from + n)%nat = length k.(pt).(procs) →
  for_acc n from (λ i a, p ← proc_get i; mret (f i p a)) acc k
  = Ok (foldl (λ a ip, f ip.1 ip.2 a) acc (imap (λ j p, (from + j, p)%nat) (drop from k.(pt).(procs)))) k.
Proof.
  revert from acc. induction n as [|n IH]; intros from acc Hlen; cbn.
  - by rewrite drop_ge by lia.
  - destruct (lookup_lt_is_Some_2 k.(pt).(procs) from ltac:(lia)) as [x Hx].
    mstep by (mstep by (by eapply proc_get_ok); reflexivity).
    rewrite IH by lia. rewrite (drop_S _ _ _ Hx). cbn. rewrite Nat.add_0_r.
    do 2 f_equal. apply imap_ext. intros j y _. cbn. f_equal. lia.
Qed.

Lemma foldl_imap_snd {A B} (f : A → B → A) (g : nat → nat) acc (l : list B) :
  foldl (λ a ip, f a ip.2) acc (imap (λ j p, (g j, p)) l) = foldl f acc l.
Proof.
  revert g acc. induction l as [|x l IH]; intros g acc; [done|].
  cbn. rewrite <- (IH (λ j, g (S j))). done.
Qed.

Lemma scan_flag_ok k :
  length k.(pt).(procs) = NPROC →
  scan_flag k = Ok (b2z (existsb runnable k.(pt).(procs))) k.
Proof.
  intros Hl. unfold scan_flag.
  rewrite (for_acc_read (λ _ p flag, if runnable p then 1 else flag)) by done.
  rewrite drop_0. f_equal. rewrite (foldl_imap_snd (λ flag p, if runnable p then 1 else flag)).
  assert (Hgen : ∀ l b, foldl (λ flag p, if runnable p then 1 else flag) (b2z b) l
                        = b2z (b || existsb runnable l)).
  { induction l as [|p l IH]; intros b; cbn; [by rewrite orb_false_r|].
    destruct (runnable p); [etrans; [apply (IH true)|]; cbn; by rewrite orb_true_r|apply IH]. }
  apply (Hgen _ false).
Qed.

Lemma min_prio_acc_bounds l mn :
  Forall (λ p, is_u32 p.(prio)) l → 0 <= mn <= 20 →
  0 <= foldl (λ mn p, if runnable p then Z.min p.(prio) mn else mn) mn l <= 20.
Proof.
  intros Hl. revert mn. induction Hl as [|p l Hp Hl IH]; intros mn Hmn; [done|].
  cbn. apply IH. destruct (runnable p); [|done]. destruct Hp. lia.
Qed.

Lemma scan_min_ok k : pt_ok k.(pt) → scan_min k = Ok (min_prio k.(pt).(procs)) k.
Proof.
  intros [Hl Hu]. unfold scan_min.
  rewrite (for_acc_read (λ _ p mn, if runnable p then s32 (if p.(prio) <? u32 mn then p.(prio) else u32 mn) else mn)) by done.
  rewrite drop_0. f_equal.
  rewrite (foldl_imap_snd (λ mn p, if runnable p then s32 (if p.(prio) <? u32 mn then p.(prio) else u32 mn) else mn)).
  unfold min_prio. assert (H20 : 0 <= 20 <= 20) by lia. revert H20.
  set (mn0 := 20) at 1 2 4 5. generalize mn0. clear mn0 Hl.
  induction Hu as [|p l Hp Hu IH]; intros mn Hmn; [done|]. cbn.
  destruct (runnable p); [|by apply IH].
  rewrite (u32_small mn) by (unfold is_u32; lia).
  destruct (Z.ltb_spec p.(prio) mn).
  - rewrite s32_small by (destruct Hp; unfold is_s32; lia). rewrite Z.min_l by lia.
    apply IH. destruct Hp. lia.
  - rewrite s32_small by (unfold is_s32; lia). rewrite Z.min_r by lia. by apply IH.
Qed.

(** The array plist after [cs] has been written into it. *)
Definition plist_of (cs : list nat) : list (option nat) :=
  (Some <$> cs) ++ replicate (PLIST - length cs) None.

Lemma plist_of_snoc cs i :
  (length cs < PLIST)%nat → <[length cs := Some i]> (plist_of cs) = plist_of (cs ++ [i]).
Proof.
  intros Hl. unfold plist_of. rewrite fmap_app, <- app_assoc.
  rewrite <- (length_fmap Some cs) at 1. rewrite <- (Nat.add_0_r (length (Some <$> cs))).
  rewrite insert_app_r. rewrite length_app. cbn [length fmap list_fmap].
  replace (PLIST - length cs)%nat with (S (PLIST - (length cs + 1)))%nat by (unfold PLIST in *; lia).
  done.
Qed.

Lemma plist_of_lookup cs j i : cs !! j = Some i → plist_of cs !! j = Some (Some i).
Proof.
  intros Hj. unfold plist_of. rewrite lookup_app_l.
  - by rewrite list_lookup_fmap, Hj.
  - rewrite length_fmap. by eapply lookup_lt_Some.
Qed.

Lemma scan_plist_gen mn k cs n from :
  0 <= mn <= 20 → (from + n)%nat = length k.(pt).(procs) → (length cs <= PLIST)%nat →
  for_acc n from (λ i '(plist, idx),
    p ← proc_get i;
    if bool_decide (p.(state) = RUNNABLE) && (p.(prio) =? u32 mn) then
      if Z.of_nat PLIST <=? idx then fail (CpuFault "plist")
      else mret (<[Z.to_nat idx := Some i]> plist, s32 (idx + 1))
    else mret (plist, idx)) (plist_of cs, Z.of_nat (length cs)) k
  = let cs' := cs ++ cands mn from (drop from k.(pt).(procs)) in
    if decide (length cs' <= PLIST)%nat
    then Ok (plist_of cs', Z.of_nat (length cs')) k else Err (CpuFault "plist") k.
Proof.
  intros Hmn. revert cs from. induction n as [|n IH]; intros cs from Hlen Hcs; cbn [for_acc].
  - rewrite drop_ge by lia. cbn. rewrite app_nil_r. by rewrite decide_True by done.
  - destruct (lookup_lt_is_Some_2 k.(pt).(procs) from ltac:(lia)) as [x Hx].
    rewrite (drop_S _ _ _ Hx). cbn [cands]. unfold runnable.
    assert (Hu : u32 mn = mn) by (apply u32_small; unfold is_u32; lia).
    destruct (bool_decide (state x = RUNNABLE) && (prio x =? mn)) eqn:E.
    + destruct (Z.leb_spec (Z.of_nat PLIST) (Z.of_nat (length cs))).
      * rewrite decide_False; [|rewrite length_app; unfold PLIST in *; cbn; lia].
        apply bind_Err. cbv beta iota. mstep by (by eapply proc_get_ok).
        rewrite Hu, E. destruct (Z.leb_spec (Z.of_nat PLIST) (Z.of_nat (length cs))); [done|lia].
      * assert (Hb : s32 (Z.of_nat (length cs) + 1) = Z.of_nat (length (cs ++ [from]))).
        { rewrite length_app, Nat2Z.inj_add. apply s32_small. unfold is_s32, PLIST in *. cbn. lia. }
        mstep by (cbv beta iota; mstep by (by eapply proc_get_ok); rewrite Hu, E;
                  destruct (Z.leb_spec (Z.of_nat PLIST) (Z.of_nat (length cs))); [lia|];
                  rewrite Nat2Z.id, plist_of_snoc, Hb by lia; reflexivity).
        rewrite IH; [|lia|rewrite length_app; unfold PLIST in *; cbn; lia].
        by rewrite <- app_assoc.
    + mstep by (cbv beta iota; mstep by (by eapply proc_get_ok); rewrite Hu, E; reflexivity).
      apply IH; [lia|done].
Qed.

Lemma scan_plist_ok mn k :
  0 <= mn <= 20 → length k.(pt).(procs) = NPROC →
  scan_plist mn k =
  let cs := cands mn 0 k.(pt).(procs) in
  if decide (length cs <= PLIST)%nat
  then Ok (plist_of cs, Z.of_nat (length cs)) k else Err (CpuFault "plist") k.
Proof.
  intros Hmn Hl. unfold scan_plist. etrans; [apply (scan_plist_gen mn k [] NPROC 0 Hmn); [done|cbn; lia]|].
  by rewrite drop_0.
Qed.

(** *** The candidate list *)

Lemma elem_of_cands mn from l i :
  i ∈ cands mn from l ↔
  (from <= i)%nat ∧ ∃ p, l !! (i - from)%nat = Some p ∧ p.(state) = RUNNABLE ∧ p.(prio) = mn.
Proof.
  revert from. induction l as [|q l IH]; intros from; cbn [cands].
  - rewrite elem_of_nil. split; [done|]. intros (_ & p & Hp & _). by rewrite lookup_nil in Hp.
  - assert (Hq : runnable q && (prio q =? mn) = true ↔ q.(state) = RUNNABLE ∧ q.(prio) = mn).
    { unfold runnable. by rewrite andb_true_iff, bool_decide_eq_true, Z.eqb_eq. }
    destruct (decide (i = from)) as [->|Hne].
    + rewrite Nat.sub_diag. cbn [lookup list_lookup].
      assert (from ∉ cands mn (S from) l) by (rewrite IH; intros [? _]; lia).
      destruct (runnable q && (prio q =? mn)); [rewrite elem_of_cons|]; naive_solver.
    + assert (Htl : i ∈ cands mn from (q :: l) ↔ i ∈ cands mn (S from) l).
      { cbn [cands]. destruct (runnable q && _); [rewrite elem_of_cons|]; naive_solver. }
      cbn [cands] in Htl. rewrite Htl, IH.
      split; intros [Hle (p & Hp & Hs)].
      * split; [lia|]. exists p. replace (i - from)%nat with (S (i - S from)) by lia. done.
      * split; [lia|]. exists p. replace (i - from)%nat with (S (i - S from)) in Hp by lia. done.
Qed.

Lemma NoDup_cands mn from l : NoDup (cands mn from l).
Proof.
  revert from. induction l as [|q l IH]; intros from; cbn [cands]; [constructor|].
  destruct (_ && _); [|done]. constructor; [|done]. rewrite elem_of_cands. intros [? _]. lia.
Qed.

Lemma min_prio_acc_le l mn :
  foldl (λ mn p, if runnable p then Z.min p.(prio) mn else mn) mn l <= mn.
Proof.
  revert mn. induction l as [|q l IH]; intros mn; cbn; [done|].
  etrans; [apply IH|]. destruct (runnable q); lia.
Qed.

Lemma min_prio_le l p : p ∈ l → p.(state) = RUNNABLE → min_prio l <= p.(prio).
Proof.
  intros Hin Hr. unfold min_prio. generalize 20. induction l as [|q l IH]; intros mn.
  - by apply elem_of_nil in Hin.
  - apply elem_of_cons in Hin as [->|Hin]; cbn; [|by apply IH].
    etrans; [apply min_prio_acc_le|]. unfold runnable. rewrite bool_decide_true by done. lia.
Qed.

Lemma min_prio_attained l :
  min_prio l = 20 ∨ ∃ p, p ∈ l ∧ p.(state) = RUNNABLE ∧ p.(prio) = min_prio l.
Proof.
  unfold min_prio. generalize 20. induction l as [|q l IH]; intros mn; cbn; [by left|].
  destruct (runnable q) eqn:Hq.
  - destruct (IH (Z.min q.(prio) mn)) as [E|(p & Hp & Hs)].
    + destruct (Z.min_spec q.(prio) mn) as [[Hlt Hm]|[Hlt Hm]]; rewrite Hm in E |- *.
      * right. exists q. split_and!; [by left| |by rewrite E].
        unfold runnable in Hq. by rewrite bool_decide_eq_true in Hq.
      * by left.
    + right. exists p. split; [by right|done].
  - destruct (IH mn) as [E|(p & Hp & Hs)]; [by left|right]. exists p. split; [by right|done].
Qed.

(** Some runnable process has a priority value of at most 20. *)
Definition schedulable (l : list proc) : Prop :=
  ∃ p, p ∈ l ∧ p.(state) = RUNNABLE ∧ p.(prio) <= 20.

Lemma schedulable_cands l : schedulable l ↔ cands (min_prio l) 0 l ≠ [].
Proof.
  split.
  - intros (p & Hin & Hr & Hp).
    assert (∃ q, q ∈ l ∧ q.(state) = RUNNABLE ∧ q.(prio) = min_prio l) as (q & Hq & Hs).
    { destruct (min_prio_attained l) as [E|?]; [|done]. exists p. split_and!; [done..|].
      pose proof (min_prio_le l p Hin Hr). lia. }
    apply list_elem_of_lookup in Hq as [i Hi]. intros E.
    assert (Hc : i ∈ cands (min_prio l) 0 l); [|rewrite E in Hc; by apply elem_of_nil in Hc].
    apply elem_of_cands. split; [lia|]. exists q. by rewrite Nat.sub_0_r.
  - intros Hne. destruct (cands (min_prio l) 0 l) as [|i cs] eqn:E; [done|].
    assert (Hi : i ∈ cands (min_prio l) 0 l) by (rewrite E; by left).
    apply elem_of_cands in Hi as (_ & p & Hp & Hs & Hm). rewrite Nat.sub_0_r in Hp.
    exists p. split_and!; [by eapply list_elem_of_lookup_2|done|].
    rewrite Hm. apply min_prio_acc_le.
Qed.

Lemma existsb_runnable l : existsb runnable l = true ↔ ∃ p, p ∈ l ∧ p.(state) = RUNNABLE.
Proof.
  rewrite existsb_exists. unfold runnable.
  split; intros (p & Hp & Hr); exists p; rewrite list_elem_of_In, bool_decide_eq_true in *; done.
Qed.

(** *** Address-space switches and the scheduler's turn *)

Definition uvm_hw (c : nat) (x : proc) (h : machine) : machine :=
  set_cr3 (<[h.(lapic) := V2P x.(pgdir)]> h.(cr3))
    (alter_cpu c (set_esp0 (u32 (x.(kstack) + KSTACKSIZE))) h).

Lemma cpu_at_alter h c n f :
  cpu_at h c n → (∀ x, (f x).(apicid) = x.(apicid)) → (∀ x, (f x).(ncli) = x.(ncli)) →
  cpu_at (alter_cpu c f h) c n.
Proof.
  intros (x & Hc & Hn & H0 & HI) Ha Hf. exists (f x). split_and!; [by apply cpu_is_alter| |done..].
  by rewrite Hf.
Qed.

Lemma cpu_at_cr3 h c n v : cpu_at h c n → cpu_at (set_cr3 v h) c n.
Proof. intros (x & [] & ?). exists x. by split. Qed.

Lemma uvm_at h c n x : cpu_at h c n → cpu_at (uvm_hw c x h) c n.
Proof. intros. apply cpu_at_cr3. by apply cpu_at_alter. Qed.

Lemma pop_uvm_push h c n x :
  cpu_at h c n → 0 < n → pop_hw c (uvm_hw c x (push_hw c h)) = uvm_hw c x h.
Proof.
  intros Hat Hn. pose proof (touch_cs _ _ _ Hat Hn) as Ht. pose proof (cpu_at_IF _ _ _ Hat Hn) as HI.
  destruct Hat as (y & Hc & Hy & _). destruct y as [ap nc ie cp es].
  assert (Hw : write_IF false h = h) by (rewrite <- HI; apply write_IF_same).
  unfold push_hw. rewrite Ht.
  change (write_IF false (alter_cpu c ?f h)) with (alter_cpu c f (write_IF false h)).
  rewrite Hw. unfold uvm_hw, pop_hw.
  rewrite !(alter_cpu_lookup h c _ _ (ci_lookup _ _ _ Hc)). cbn [lapic cr3 set_cpus set_cr3 cpus].
  erewrite (alter_cpu_lookup (set_cpus _ h)) by
    (apply list_lookup_insert_eq; eapply lookup_lt_Some, Hc).
  erewrite alter_cpu_lookup by
    (cbn; apply list_lookup_insert_eq; rewrite length_insert; eapply lookup_lt_Some, Hc).
  cbn. rewrite !list_insert_insert_eq.
  rewrite list_lookup_insert_eq by (eapply lookup_lt_Some, Hc). cbn in *.
  destruct (Z.eqb_spec (nc + 1 - 1) 0); [lia|]. cbn. by replace (nc + 1 - 1) with nc by lia.
Qed.

Lemma switchuvm_ok k c n i x :
  cpu_at k.(hw) c n → 0 < n < 900 → k.(pt).(procs) !! i = Some x →
  x.(kstack) ≠ 0 → x.(pgdir) ≠ 0 →
  switchuvm (Some i) k = Ok tt (set_hw (uvm_hw c x k.(hw)) k).
Proof.
  intros Hat Hn Hx Hk Hp. pose proof (push_at _ _ _ Hat) as Hpu. unfold switchuvm.
  mstep by (by eapply proc_get_ok).
  destruct (Z.eqb_spec x.(kstack) 0); [done|]. destruct (Z.eqb_spec x.(pgdir) 0); [done|].
  mstep by (eapply pushcli_at; [done|lia]).
  mstep by (eapply mycpu_at; [exact Hpu|lia]). do 2 mstep.
  rewrite (popcli_at _ c (n + 1)); [|by apply (uvm_at _ _ _ x) in Hpu|lia].
  rewrite !set_hw_set_hw. do 2 f_equal. apply (pop_uvm_push _ _ n); [done|lia].
Qed.

Lemma cpu_at_write_IF h c b : cpu_at h c 0 → cpu_at (write_IF b h) c 0.
Proof. intros (x & Hc & Hn & H0 & HI). exists x. eauto with xv6. Qed.

(** The machine once the scheduler has enabled interrupts and taken the lock. *)
Definition entered_hw (c : nat) (h : machine) : machine :=
  acq_hw c LPtable (write_IF true h).

Lemma entered_at h c : cpu_at h c 0 → cpu_at (entered_hw c h) c 1.
Proof. intros. by apply (acq_at _ _ 0), cpu_at_write_IF. Qed.

(** The scheduler may run on cpus[c]: it holds nothing, ptable.lock is free,
    and a runnable process has a kernel stack and a page table. *)
Record sched_pre (k : kernel) (c : nat) : Prop := {
  sp_at : cpu_at k.(hw) c 0;
  sp_free : lk_free k.(hw) LPtable;
  sp_pt : pt_ok k.(pt);
  sp_ready : Forall (λ p, p.(state) = RUNNABLE → p.(kstack) ≠ 0 ∧ p.(pgdir) ≠ 0) k.(pt).(procs);
}.

(** The turn with the lock taken and the scans done. *)
Lemma scheduler_iter_scans k c :
  sched_pre k c → existsb runnable k.(pt).(procs) = true →
  let k1 := set_hw (entered_hw c k.(hw)) k in
  let cs := cands (min_prio k.(pt).(procs)) 0 k.(pt).(procs) in
  scheduler_iter c k =
  if decide (length cs <= PLIST)%nat then
    if Z.of_nat (length cs) =? 0 then Err (CpuFault "divide error") k1 else
    match plist_of cs !! Z.to_nat (s32 (k.(ticks) `mod` Z.of_nat (length cs))) with
    | Some (Some p) =>
       (cpu_upd c (set_cproc (Some p));; switchuvm (Some p);;
        proc_upd p (set_state RUNNING);; mret (Some (p, s32 k.(ticks)))) k1
    | _ => Err (CpuFault "plist") k1
    end
  else Err (CpuFault "plist") k1.
Proof.
  intros [Hat Hfr Hpt Hr] He k1 cs. unfold scheduler_iter.
  mstep. mstep by (eapply (acquire_ok _ c 0); [by apply cpu_at_write_IF|lia|done]).
  rewrite set_hw_set_hw. cbn [hw set_hw]. fold (entered_hw c k.(hw)). fold k1.
  assert (Hpt1 : pt k1 = pt k) by done.
  mstep by (apply scan_flag_ok, Hpt). rewrite Hpt1, He. cbn [b2z Z.eqb].
  mstep by (apply scan_min_ok, Hpt). rewrite Hpt1.
  assert (Hmn : 0 <= min_prio k.(pt).(procs) <= 20)
    by (apply min_prio_acc_bounds; [apply Hpt|lia]).
  pose proof (scan_plist_ok (min_prio k.(pt).(procs)) k1 Hmn (proj1 Hpt)) as Hs.
  rewrite Hpt1 in Hs. cbv zeta in Hs. fold cs in Hs.
  destruct (decide (length cs <= PLIST)%nat) as [Hle|Hgt]; [|by apply bind_Err].
  mstep by (exact Hs). cbv iota. mstep.
  change (ticks k1) with (ticks k).
  rewrite (u32_small (Z.of_nat (length cs))) by (unfold is_u32, PLIST in *; lia).
  destruct (Z.of_nat (length cs) =? 0); [done|]. cbv zeta.
  destruct (plist_of cs !! _) as [[p|]|]; try done.
Qed.

Lemma switch_to_ok k c p x :
  cpu_at k.(hw) c 1 → k.(pt).(procs) !! p = Some x → x.(kstack) ≠ 0 → x.(pgdir) ≠ 0 →
  (cpu_upd c (set_cproc (Some p));; switchuvm (Some p);;
   proc_upd p (set_state RUNNING);; mret (Some (p, s32 k.(ticks)))) k
  = Ok (Some (p, s32 k.(ticks)))
      (set_pt (set_procs (<[p := set_state RUNNING x]> k.(pt).(procs)) k.(pt))
         (set_hw (uvm_hw c x (alter_cpu c (set_cproc (Some p)) k.(hw))) k)).
Proof.
  intros Hat Hx Hk Hp. mstep.
  mstep by (eapply (switchuvm_ok _ c 1); [by apply cpu_at_alter|lia|exact Hx|done|done]).
  mstep by (by eapply proc_upd_ok). done.
Qed.

Lemma pick_index t n : 0 < n <= 50 → 0 <= s32 (t `mod` n) < n.
Proof.
  intros Hn. pose proof (Z.mod_pos_bound t n ltac:(lia)).
  rewrite s32_small by (unfold is_s32; lia). lia.
Qed.

(** The scheduler's choice at clock value [t]. *)
Definition pick (t : Z) (l : list proc) : option nat :=
  let cs := cands (min_prio l) 0 l in
  cs !! Z.to_nat (t `mod` Z.of_nat (length cs)).

Lemma pick_spec t l :
  schedulable l →
  ∃ p x, pick t l = Some p ∧ l !! p = Some x ∧ x.(state) = RUNNABLE ∧ x.(prio) = min_prio l.
Proof.
  intros Hs%schedulable_cands. unfold pick. set (cs := cands _ _ _) in *.
  assert (0 < Z.of_nat (length cs)) by (destruct cs; [done|cbn; lia]).
  pose proof (Z.mod_pos_bound t (Z.of_nat (length cs)) ltac:(lia)).
  destruct (lookup_lt_is_Some_2 cs (Z.to_nat (t `mod` Z.of_nat (length cs)))) as [p Hp]; [lia|].
  assert (Hin : p ∈ cs) by (by eapply list_elem_of_lookup_2).
  apply elem_of_cands in Hin as (_ & x & Hx & Hr & Hm). rewrite Nat.sub_0_r in Hx.
  exists p, x. done.
Qed.

Lemma scheduler_iter_pick k c p x :
  sched_pre k c → schedulable k.(pt).(procs) →
  (length (cands (min_prio k.(pt).(procs)) 0 k.(pt).(procs)) <= PLIST)%nat →
  pick k.(ticks) k.(pt).(procs) = Some p → k.(pt).(procs) !! p = Some x →
  x.(state) = RUNNABLE →
  scheduler_iter c k = Ok (Some (p, s32 k.(ticks)))
    (set_pt (set_procs (<[p := set_state RUNNING x]> k.(pt).(procs)) k.(pt))
       (set_hw (uvm_hw c x (alter_cpu c (set_cproc (Some p)) (entered_hw c k.(hw)))) k)).
Proof.
  intros Hpre Hs Hle Hpick Hx Hr.
  assert (He : existsb runnable k.(pt).(procs) = true).
  { apply existsb_runnable. destruct Hs as (q & ? & ? & _). by exists q. }
  rewrite (scheduler_iter_scans k c Hpre He). cbv zeta. rewrite decide_True by done.
  unfold pick in Hpick. cbv zeta in Hpick.
  set (cs := cands _ _ _) in *.
  assert (Hn : 0 < Z.of_nat (length cs)).
  { apply schedulable_cands in Hs. fold cs in Hs. destruct cs; [done|cbn; lia]. }
  destruct (Z.eqb_spec (Z.of_nat (length cs)) 0); [lia|].
  pose proof (Z.mod_pos_bound k.(ticks) (Z.of_nat (length cs)) ltac:(lia)).
  rewrite s32_small by (unfold is_s32, PLIST in *; lia).
  rewrite (plist_of_lookup _ _ p) by done.
  destruct (proj1 (Forall_lookup _ _) (sp_ready _ _ Hpre) p x Hx Hr) as [Hk Hp].
  apply (switch_to_ok (set_hw (entered_hw c k.(hw)) k)); [apply entered_at, Hpre|done|done|done].
Qed.

(** *** Loops that write the table *)

Lemma set_pt_set_pt a b k : set_pt a (set_pt b k) = set_pt a k.
Proof. done. Qed.

Lemma set_procs_set_procs a b t : set_procs a (set_procs b t) = set_procs a t.
Proof. done. Qed.

Lemma for_acc_map (b : proc → bool) (f : proc → proc) k n from :
  (from + n)%nat = length k.(pt).(procs) →
  for_acc n from (λ i _, p ← proc_get i; when (b p) (proc_upd i f)) tt k
  = Ok tt (set_pt (set_procs (take from k.(pt).(procs)
       ++ ((λ p, if b p then f p else p) <$> drop from k.(pt).(procs))) k.(pt)) k).
Proof.
  revert from k. induction n as [|n IH]; intros from k Hlen; cbn [for_acc].
  - rewrite drop_ge, take_ge by lia. cbn. rewrite app_nil_r. by rewrite set_procs_id, set_pt_id.
  - destruct (lookup_lt_is_Some_2 k.(pt).(procs) from ltac:(lia)) as [x Hx].
    set (y := if b x then f x else x).
    rewrite (bind_Ok _ _ _ tt (set_pt (set_procs (<[from := y]> k.(pt).(procs)) k.(pt)) k)); cycle 1.
    { mstep by (by eapply proc_get_ok). unfold when, y. destruct (b x).
      - by apply proc_upd_ok.
      - rewrite list_insert_id by done. by rewrite set_procs_id, set_pt_id. }
    rewrite IH; [|cbn; rewrite length_insert; lia].
    cbn [pt set_pt]. rewrite set_pt_set_pt, set_procs_set_procs. do 3 f_equal. cbn.
    rewrite (drop_S _ _ _ Hx), drop_insert_lt by lia. cbn. fold y.
    rewrite (take_S_r _ _ y), take_insert_ge, <- app_assoc; [done|lia|].
    apply list_lookup_insert_eq. by eapply lookup_lt_Some.
Qed.

(** A search for the first entry satisfying [b], leaving the function there. *)
Lemma for_range_find {R} (b : proc → bool) (body : nat → proc → K (option R)) k n from :
  (from + n)%nat = length k.(pt).(procs) →
  (∀ i p s, k.(pt).(procs) !! i = Some p → body i p k ≠ Ok None s) →
  for_range n from (λ i, p ← proc_get i; if b p then body i p else mret None) k
  = match list_find b (drop from k.(pt).(procs)) with
    | Some (j, p) => body (from + j)%nat p k
    | None => Ok None k
    end.
Proof.
  intros Hlen Hb. revert from Hlen. induction n as [|n IH]; intros from Hlen; cbn [for_range].
  - by rewrite drop_ge by lia.
  - destruct (lookup_lt_is_Some_2 k.(pt).(procs) from ltac:(lia)) as [x Hx].
    rewrite (drop_S _ _ _ Hx). cbn [list_find].
    unfold mbind at 1, M_bind at 1. unfold mbind at 1, M_bind at 1.
    rewrite (proc_get_ok _ _ _ Hx).
    destruct (b x) eqn:E; [rewrite decide_True by done|rewrite decide_False by (by intros [])].
    + rewrite Nat.add_0_r. destruct (body from x k) as [[r|] s| |] eqn:Eb; try done.
      by destruct (Hb from x s Hx).
    + unfold mret at 1, M_ret at 1. rewrite IH by lia.
      destruct (list_find _ _) as [[j y]|]; [|done]. cbn. f_equal. lia.
Qed.

(** The first process with a given pid. *)
Definition find_pid (v : Z) (l : list proc) : option (nat * proc) :=
  list_find (λ p, p.(pid) =? v) l.

Lemma find_pid_Some v l i x :
  find_pid v l = Some (i, x) → l !! i = Some x ∧ x.(pid) = v ∧
  ∀ j y, (j < i)%nat → l !! j = Some y → y.(pid) ≠ v.
Proof.
  unfold find_pid. rewrite list_find_Some. intros (Hl & Hp & Hf).
  split_and!; [done|by apply Z.eqb_eq, Is_true_true|].
  intros j y Hj Hy E. eapply Hf; [done|done|]. rewrite E. by rewrite Z.eqb_refl.
Qed.

Lemma find_pid_None v l : find_pid v l = None ↔ Forall (λ p, p.(pid) ≠ v) l.
Proof.
  unfold find_pid. rewrite list_find_None. apply Forall_iff. intros p.
  by rewrite Is_true_true, Z.eqb_eq.
Qed.

(** *** Leaving the processor *)

(** The current process of the executing processor is [i]. *)
Definition runs (h : machine) (c i : nat) : Prop :=
  ∃ x, cpu_is h c x ∧ x.(cproc) = Some i.

Definition upd_proc (i : nat) (p : proc) (k : kernel) : kernel :=
  set_pt (set_procs (<[i := p]> k.(pt).(procs)) k.(pt)) k.

Lemma upd_proc_twice i p q k : upd_proc i p (upd_proc i q k) = upd_proc i p k.
Proof. unfold upd_proc. cbn. by rewrite list_insert_insert_eq. Qed.

Lemma set_hw_upd_proc h i p k : set_hw h (upd_proc i p k) = upd_proc i p (set_hw h k).
Proof. done. Qed.

Lemma upd_proc_lookup i p k x :
  k.(pt).(procs) !! i = Some x → (upd_proc i p k).(pt).(procs) !! i = Some p.
Proof. intros Hx. apply list_lookup_insert_eq. by eapply lookup_lt_Some. Qed.

Lemma proc_upd_eq k i f x :
  k.(pt).(procs) !! i = Some x → proc_upd i f k = Ok tt (upd_proc i (f x) k).
Proof. apply proc_upd_ok. Qed.

Lemma runs_push h c i : runs h c i → runs (push_hw c h) c i.
Proof.
  intros (x & Hc & Hp). eexists. split.
  - apply cpu_is_write_IF, (cpu_is_alter _ _ (λ x, set_ncli (x.(ncli) + 1) x));
      [by apply cpu_is_touch|done].
  - cbn. by destruct (_ =? _).
Qed.

Lemma runs_acq h c i l : runs h c i → runs (acq_hw c l h) c i.
Proof. intros (x & Hc & Hp)%runs_push. exists x. by split; [apply cpu_is_lock|]. Qed.

Lemma runs_touch h c i : runs h c i → runs (touch c h) c i.
Proof.
  intros (x & Hc & Hp). eexists. split; [by apply cpu_is_touch|]. by destruct (_ =? _).
Qed.

Lemma curproc_ok k c n i :
  cpu_at k.(hw) c n → n < 1000 → runs k.(hw) c i →
  curproc k = Ok i (set_hw (touch c k.(hw)) k).
Proof.
  intros Hat Hn (x & Hc & Hp). unfold curproc. mstep by (by eapply myproc_ok). by rewrite Hp.
Qed.

Definition intena_of (h : machine) (c : nat) : bool :=
  match h.(cpus) !! c with Some x => x.(intena) | None => false end.

Lemma sched_ok k c i pr ctx :
  cpu_at k.(hw) c 1 → lk_mine k.(hw) c LPtable → runs k.(hw) c i →
  k.(pt).(procs) !! i = Some pr → pr.(state) ≠ RUNNING →
  sched ctx k = Swtch (upd_proc i (set_context (ctx (intena_of k.(hw) c)) pr) k).
Proof.
  intros Hat [Hm1 Hm2] Hruns Hpr Hs. pose proof (touch_cs _ _ _ Hat ltac:(lia)) as Ht.
  pose proof Hat as (x & Hc & Hx & _). pose proof (cpu_at_IF _ _ _ Hat ltac:(lia)) as HI.
  unfold sched. mstep by (eapply curproc_ok; [done|lia|done]). rewrite Ht, set_hw_id.
  mstep by (eapply holding_ok; [done|lia]). rewrite Ht, set_hw_id, Hm1, Hm2, bool_decide_true by done.
  cbn [truth Z.eqb negb andb]. mstep by (eapply mycpu_at; [done|lia]).
  mstep by (apply cpu_get_ok, Hc). rewrite Hx, Z.eqb_refl. cbn [negb].
  mstep by (by apply proc_get_ok). rewrite bool_decide_false by done.
  unfold readeflags_IF. mstep. unfold IF_of in HI. rewrite HI.
  mstep by (eapply mycpu_at; [done|lia]). mstep by (apply cpu_get_ok, Hc).
  mstep by (by eapply proc_upd_eq). unfold swtch_away, intena_of. by rewrite (ci_lookup _ _ _ Hc).
Qed.

Lemma acq_intena h c l :
  cpu_at h c 0 → intena_of (acq_hw c l h) c = IF_of h.
Proof.
  intros (x & Hc & Hx & _). unfold intena_of, acq_hw, lock_it, push_hw.
  change (cpus (alter_lock l ?f (write_IF false ?g))) with (cpus g).
  pose proof (cpu_is_touch _ _ _ Hc) as Ht. rewrite Hx in Ht. cbn in Ht.
  rewrite (alter_cpu_lookup _ _ _ _ (ci_lookup _ _ _ Ht)). cbn.
  rewrite list_lookup_insert_eq; [done|]. rewrite length_alter. eapply lookup_lt_Some, Hc.
Qed.

Lemma yield_ok k c i pr :
  cpu_at k.(hw) c 0 → lk_free k.(hw) LPtable → runs k.(hw) c i →
  k.(pt).(procs) !! i = Some pr →
  yield k = Swtch (upd_proc i (set_context (CtxYield (IF_of k.(hw))) (set_state RUNNABLE pr))
                     (set_hw (acq_hw c LPtable k.(hw)) k)).
Proof.
  intros Hat Hf Hruns Hpr. unfold yield. mstep by (eapply acquire_ok; [done|lia|done]).
  pose proof (acq_at _ _ _ LPtable Hat) as Hat1.
  mstep by (eapply curproc_ok; [exact Hat1|lia|by apply runs_acq]).
  cbn [hw set_hw]. rewrite (touch_cs _ _ _ Hat1), set_hw_set_hw by lia.
  mstep by (by eapply proc_upd_eq).
  rewrite (sched_ok _ c i (set_state RUNNABLE pr)).
  - rewrite upd_proc_twice. unfold upd_proc at 2. cbn [hw set_hw set_pt]. by rewrite acq_intena by done.
  - done.
  - apply acq_mine.
  - by apply runs_acq.
  - by eapply upd_proc_lookup.
  - done.
Qed.

Lemma pop_at h c n : cpu_at h c n → 0 < n → cpu_at (pop_hw c h) c (n - 1).
Proof.
  intros Hat Hn. pose proof (cpu_at_IF _ _ _ Hat Hn) as HI. destruct Hat as (x & Hc & Hx & _).
  pose proof (cpu_is_alter h c (λ x, set_ncli (x.(ncli) - 1) x) x Hc eq_refl) as Hc1.
  unfold pop_hw. rewrite (ci_lookup _ _ _ Hc1). cbn [ncli set_ncli intena].
  eexists. split; [destruct (_ && _); eauto with xv6|].
  cbn [ncli set_ncli]. split_and!; [lia|lia|].
  destruct (Z.eqb_spec (x.(ncli) - 1) 0); [lia|]. cbn [andb].
  change (IF_of (alter_cpu c ?f h)) with (IF_of h). by rewrite HI.
Qed.

Lemma rel_at h c n l : cpu_at h c n → 0 < n → cpu_at (rel_hw c l h) c (n - 1).
Proof. intros. by apply pop_at; [apply cpu_at_lock|]. Qed.

Lemma pop_locks h c : (pop_hw c h).(locks) = h.(locks).
Proof. unfold pop_hw. cbn. destruct (alter _ _ _ !! c); [|done]. by destruct (_ && _). Qed.

Lemma rel_free h c l : lk_free (rel_hw c l h) l.
Proof.
  unfold lk_free, rel_hw. rewrite pop_locks. cbn. by rewrite fn_lookup_insert.
Qed.

Lemma rel_other h c l l' : l' ≠ l → (rel_hw c l h).(locks) l' = h.(locks) l'.
Proof. intros. unfold rel_hw. rewrite pop_locks. cbn. by rewrite fn_lookup_insert_ne. Qed.

Lemma runs_pop h c i : runs h c i → runs (pop_hw c h) c i.
Proof.
  intros (x & Hc & Hp).
  pose proof (cpu_is_alter h c (λ x, set_ncli (x.(ncli) - 1) x) x Hc eq_refl) as Hc1.
  unfold pop_hw. rewrite (ci_lookup _ _ _ Hc1). eexists.
  split; [destruct (_ && _); eauto with xv6|]. done.
Qed.

Lemma runs_rel h c i l : runs h c i → runs (rel_hw c l h) c i.
Proof. intros (x & Hc & Hp). apply runs_pop. exists x. by split; [apply cpu_is_lock|]. Qed.

Lemma sleep_ok k c i pr ch lk :
  lk ≠ LPtable → cpu_at k.(hw) c 1 → lk_mine k.(hw) c lk → lk_free k.(hw) LPtable →
  runs k.(hw) c i → k.(pt).(procs) !! i = Some pr →
  let h' := rel_hw c lk (acq_hw c LPtable k.(hw)) in
  sleep ch lk k =
    Swtch (upd_proc i (set_context (CtxSleep lk (intena_of h' c)) (set_state SLEEPING (set_chan ch pr)))
             (set_hw h' k)) ∧
  lk_mine h' c LPtable ∧ lk_free h' lk ∧ cpu_at h' c 1.
Proof.
  intros Hne Hat Hm Hf Hruns Hpr h'. pose proof (touch_cs _ _ _ Hat ltac:(lia)) as Ht.
  pose proof (acq_at _ _ _ LPtable Hat) as Hat1.
  assert (Hm1 : lk_mine (acq_hw c LPtable k.(hw)) c lk) by (unfold lk_mine; by rewrite acq_other).
  assert (Hat2 : cpu_at h' c 1) by (apply (rel_at _ _ 2); [done|lia]).
  assert (Hm2 : lk_mine h' c LPtable).
  { unfold lk_mine, h'. rewrite rel_other by done. apply acq_mine. }
  split_and!; [|done|apply rel_free|done].
  pose proof Hruns as (x & Hc & Hp). unfold sleep. mstep by (eapply myproc_ok; [done|done|lia]).
  rewrite Ht, set_hw_id, Hp.
  rewrite (bind_Ok _ _ _ tt (set_hw h' k)); cycle 1.
  { rewrite bool_decide_true by done. unfold when.
    mstep by (eapply acquire_ok; [done|lia|done]).
    rewrite (release_ok _ c 2); [done|done|lia|done]. }
  mstep by (by eapply proc_upd_eq). mstep by (eapply proc_upd_eq, upd_proc_lookup; done).
  rewrite upd_proc_twice.
  rewrite (sched_ok _ c i (set_state SLEEPING (set_chan ch pr))); [by rewrite upd_proc_twice|done|done| |by eapply upd_proc_lookup|done].
  apply runs_rel. by apply runs_acq.
Qed.

(** wakeup1() on one process. *)
Definition wake (ch : chan_t) (p : proc) : proc :=
  if bool_decide (p.(state) = SLEEPING) && bool_decide (p.(chan) = ch)
  then set_state RUNNABLE p else p.

(** The processes waiting on [ch] made runnable. *)
Definition woken (ch : chan_t) (k : kernel) : kernel :=
  set_pt (set_procs (wake ch <$> k.(pt).(procs)) k.(pt)) k.

Lemma wakeup1_ok k ch :
  length k.(pt).(procs) = NPROC →
  wakeup1 ch k = Ok tt (set_pt (set_procs (wake ch <$> k.(pt).(procs)) k.(pt)) k).
Proof.
  intros Hl. unfold wakeup1.
  rewrite (for_acc_map (λ p, bool_decide (p.(state) = SLEEPING) && bool_decide (p.(chan) = ch))) by done.
  by rewrite drop_0, take_0.
Qed.

Lemma wakeup_ok k c n ch :
  cpu_at k.(hw) c n → n < 900 → lk_free k.(hw) LPtable → length k.(pt).(procs) = NPROC →
  wakeup ch k = Ok tt (set_hw (touch c k.(hw))
                         (set_pt (set_procs (wake ch <$> k.(pt).(procs)) k.(pt)) k)).
Proof.
  intros Hat Hn Hf Hl. pose proof (cpu_at_nonneg _ _ _ Hat). unfold wakeup.
  mstep by (eapply acquire_ok; [done|lia|done]). mstep by (by apply wakeup1_ok).
  rewrite (release_ok _ c (n + 1)); [|by apply acq_at|lia|apply acq_mine].
  cbn [hw set_hw set_pt]. by rewrite (rel_acq _ _ n) by done.
Qed.

(** kill() on the process it finds. *)
Definition kill_proc (p : proc) : proc :=
  let p' := set_killed 1 p in
  if bool_decide (p.(state) = SLEEPING) then set_state RUNNABLE p' else p'.

Section table_calls.
  Context (k : kernel) (c : nat) (n : Z).
  Hypothesis Hat : cpu_at k.(hw) c n.
  Hypothesis Hn : n < 900.
  Hypothesis Hf : lk_free k.(hw) LPtable.
  Hypothesis Hl : length k.(pt).(procs) = NPROC.

Let k1 := set_hw (acq_hw c LPtable k.(hw)) k.

Lemma release_table g :
  release LPtable (set_hw (acq_hw c LPtable k.(hw)) g) = Ok tt (set_hw (touch c k.(hw)) g).
Proof using Hat Hn Hf. by apply (release_acquired _ _ n). Qed.

Lemma kill_ok v :
  kill v k = match find_pid v k.(pt).(procs) with
             | Some (i, x) => Ok 0 (set_hw (touch c k.(hw)) (upd_proc i (kill_proc x) k))
             | None => Ok (-1) (set_hw (touch c k.(hw)) k)
             end.
Proof.
  pose proof (cpu_at_nonneg _ _ _ Hat). unfold kill.
  mstep by (eapply acquire_ok; [done|lia|done]). fold k1.
  set (body := λ i p, (proc_upd i (set_killed 1);;
          when (bool_decide (p.(state) = SLEEPING)) (proc_upd i (set_state RUNNABLE));;
          release LPtable;; mret (Some 0)) : K (option Z)).
  assert (Hbody : ∀ i x, k.(pt).(procs) !! i = Some x →
    body i x k1 = Ok (Some 0) (set_hw (touch c k.(hw)) (upd_proc i (kill_proc x) k))).
  { intros i x Hx. unfold body. mstep by (by eapply proc_upd_eq).
    rewrite (bind_Ok _ _ _ tt (upd_proc i (kill_proc x) k1)); cycle 1.
    { unfold when, kill_proc. destruct (bool_decide (x.(state) = SLEEPING)); [|done].
      rewrite (proc_upd_eq _ _ _ (set_killed 1 x)), upd_proc_twice; [done|].
      by eapply upd_proc_lookup. }
    mstep by (apply (release_table (upd_proc i (kill_proc x) k))). done. }
  pose proof (for_range_find (λ p, p.(pid) =? v) body k1 NPROC 0 (eq_sym Hl)) as Hfind.
  unfold body in Hfind at 2. cbv beta in Hfind. unfold mbind at 1, M_bind at 1.
  rewrite Hfind, drop_0;
    [|intros i p s Hp; rewrite Hbody by done; done].
  change (list_find _ _) with (find_pid v k.(pt).(procs)).
  destruct (find_pid v _) as [[i x]|] eqn:E.
  - apply find_pid_Some in E as [Hx _]. by rewrite Hbody.
  - mstep by apply (release_table k). done.
Qed.

Lemma gp_ok v :
  gp v k = match find_pid v k.(pt).(procs) with
           | Some (i, x) => Ok (s32 x.(prio)) (set_hw (touch c k.(hw)) k)
           | None => Ok (-1) (set_hw (touch c k.(hw)) k)
           end.
Proof.
  pose proof (cpu_at_nonneg _ _ _ Hat). unfold gp. cbv zeta.
  mstep by (eapply acquire_ok; [done|lia|done]). fold k1.
  assert (Hbody : ∀ x, (release LPtable;; mret (Some (s32 x.(prio)))) k1
                       = Ok (Some (s32 x.(prio))) (set_hw (touch c k.(hw)) k)).
  { intros x. by mstep by apply (release_table k). }
  unfold mbind at 1, M_bind at 1.
  rewrite (for_range_find (λ p, p.(pid) =? v)
             (λ _ p, release LPtable;; mret (Some (s32 p.(prio)))) k1 NPROC 0 (eq_sym Hl)), drop_0;
    [|intros i p s Hp; by rewrite Hbody].
  change (list_find _ _) with (find_pid v k.(pt).(procs)).
  destruct (find_pid v _) as [[i x]|]; [by rewrite Hbody|].
  mstep by apply (release_table k). done.
Qed.
End table_calls.

Lemma sp_ok k c j (y : proc) v w :
  cpu_at k.(hw) c 0 → lk_free k.(hw) LPtable → length k.(pt).(procs) = NPROC →
  runs k.(hw) c j → k.(pt).(procs) !! j = Some y →
  sp v w k = match find_pid v k.(pt).(procs) with
             | Some (i, x) =>
                 let k' := upd_proc i (set_prio (u32 w) x) (set_hw (touch c k.(hw)) k) in
                 (yield;; mret 0) k'
             | None => Ok (-1) (set_hw (touch c k.(hw)) k)
             end.
Proof.
  intros Hat Hf Hl Hruns Hy. unfold sp.
  mstep by (eapply acquire_ok; [done|lia|done]). set (k1 := set_hw (acq_hw _ _ _) k).
  set (body := λ i (p : proc), (proc_upd i (set_prio (u32 w));; release LPtable;; yield;; mret (Some 0)) : K (option Z)).
  assert (Hbody : ∀ i x, k.(pt).(procs) !! i = Some x →
    body i x k1 = (yield;; mret (Some 0)) (upd_proc i (set_prio (u32 w) x) (set_hw (touch c k.(hw)) k))).
  { intros i x Hx. unfold body. mstep by (by eapply proc_upd_eq).
    by mstep by apply (release_table k c 0 Hat ltac:(lia) Hf (upd_proc i (set_prio (u32 w) x) k)). }
  assert (Hy2 : ∀ i x, k.(pt).(procs) !! i = Some x → ∃ s,
    yield (upd_proc i (set_prio (u32 w) x) (set_hw (touch c k.(hw)) k)) = Swtch s).
  { intros i x Hx.
    assert (∃ z, (upd_proc i (set_prio (u32 w) x) (set_hw (touch c k.(hw)) k)).(pt).(procs) !! j = Some z) as [z Hz].
    { apply lookup_lt_is_Some_2. cbn. rewrite length_insert. by eapply lookup_lt_Some. }
    eexists. eapply yield_ok; [by apply cpu_at_touch|done|by apply runs_touch|exact Hz]. }
  pose proof (for_range_find (λ p, p.(pid) =? v) body k1 NPROC 0 (eq_sym Hl)) as Hfind.
  unfold body in Hfind at 2. cbv beta in Hfind. unfold mbind at 1, M_bind at 1.
  rewrite Hfind, drop_0.
  2:{ intros i p s Hp. rewrite Hbody by done. unfold mbind, M_bind.
      by destruct (Hy2 i p Hp) as [s' ->]. }
  change (list_find _ _) with (find_pid v k.(pt).(procs)).
  destruct (find_pid v _) as [[i x]|] eqn:E.
  - apply find_pid_Some in E as [Hx _]. rewrite Hbody by done. unfold mbind, M_bind.
    cbn [Nat.add]. cbv zeta. by destruct (Hy2 i x Hx) as [s' ->].
  - mstep by apply (release_table k c 0 Hat ltac:(lia) Hf k). done.
Qed.

(** *** A full turn: scheduler, process, scheduler *)

Definition kvm_hw (kp : Z) (h : machine) : machine :=
  set_cr3 (<[h.(lapic) := V2P kp]> h.(cr3)) h.

Definition back_hw (c : nat) (kp : Z) (h : machine) : machine :=
  rel_hw c LPtable (alter_cpu c (set_cproc None) (kvm_hw kp h)).

Lemma scheduler_back_ok k c p x start :
  cpu_at k.(hw) c 1 → lk_mine k.(hw) c LPtable → k.(pt).(procs) !! p = Some x →
  scheduler_back c p start k =
    Ok tt (set_hw (back_hw c k.(kpgdir) k.(hw))
             (upd_proc p (adjust_prio start (s32 k.(ticks)) x) k)) ∧
  cpu_at (back_hw c k.(kpgdir) k.(hw)) c 0 ∧ lk_free (back_hw c k.(kpgdir) k.(hw)) LPtable.
Proof.
  intros Hat Hm Hx.
  assert (Hat1 : cpu_at (alter_cpu c (set_cproc None) (kvm_hw k.(kpgdir) k.(hw))) c 1)
    by (apply cpu_at_alter; [by apply cpu_at_cr3|done|done]).
  split_and!.
  - unfold scheduler_back. do 2 mstep. mstep by (by eapply proc_upd_eq). mstep.
    by rewrite (release_ok _ c 1) by done || lia.
  - apply (rel_at _ _ 1); [done|lia].
  - apply rel_free.
Qed.

Lemma resume_yield_ok k c p x i :
  cpu_at k.(hw) c 1 → lk_mine k.(hw) c LPtable → k.(pt).(procs) !! p = Some x →
  x.(context) = CtxYield i →
  resume p k = Ok tt (set_hw (rel_hw c LPtable (alter_cpu c (set_intena i) k.(hw))) k).
Proof.
  intros Hat Hm Hx Hc. unfold resume. mstep by (by apply proc_get_ok). rewrite Hc.
  mstep by (eapply mycpu_at; [done|lia]). mstep.
  rewrite (release_ok _ c 1); [done|by apply cpu_at_alter|lia|done].
Qed.

(** Run kernel code of a process until it enters the scheduler. *)
Definition until_swtch (m : K unit) : K unit := λ k,
  match m k with
  | Swtch k' => Ok tt k'
  | Ok _ k' => Err (CpuFault "no swtch") k'
  | Err e k' => Err e k'
  end.

(** One turn in which the process chosen by the scheduler yields before the
    next clock tick. *)
Definition turn (c : nat) : K (option nat) :=
  r ← scheduler_iter c;
  match r with
  | None => mret None
  | Some (p, start) =>
      resume p;;
      until_swtch yield;;
      scheduler_back c p start;;
      mret (Some p)
  end.

Fixpoint turns (n c : nat) : K (list (option nat)) :=
  match n with
  | O => mret []
  | S n' => r ← turn c; l ← turns n' c; mret (r :: l)
  end.

Lemma runs_switch h c p x :
  cpu_at h c 1 → runs (uvm_hw c x (alter_cpu c (set_cproc (Some p)) h)) c p.
Proof.
  intros (y & Hc & _). eexists. split.
  - assert (Hset : ∀ g v z, cpu_is g c z → cpu_is (set_cr3 v g) c z) by (by intros g v z []).
    apply Hset, cpu_is_alter; [by apply cpu_is_alter|done].
  - done.
Qed.

(** Process [a] has priority 0 and every other runnable process less urgency. *)
Record favoured (k : kernel) (c a : nat) : Prop := {
  fv_pre : sched_pre k c;
  fv_a : ∃ x i, k.(pt).(procs) !! a = Some x ∧ x.(state) = RUNNABLE ∧ x.(prio) = 0 ∧
                x.(context) = CtxYield i;
  fv_rest : ∀ j y, j ≠ a → k.(pt).(procs) !! j = Some y → y.(state) = RUNNABLE → 0 < y.(prio);
}.

Lemma favoured_cands k c a :
  favoured k c a → cands (min_prio k.(pt).(procs)) 0 k.(pt).(procs) = [a].
Proof.
  intros [Hpre (x & i & Hx & Hr & Hp & _) Hrest].
  assert (Hmin : min_prio k.(pt).(procs) = 0).
  { pose proof (min_prio_le _ x (list_elem_of_lookup_2 _ _ _ Hx) Hr).
    pose proof (min_prio_acc_bounds k.(pt).(procs) 20 (proj2 (sp_pt _ _ Hpre)) ltac:(lia)).
    unfold min_prio in *. lia. }
  rewrite Hmin. pose proof (NoDup_cands 0 0 k.(pt).(procs)) as Hnd.
  assert (Hin : ∀ j, j ∈ cands 0 0 k.(pt).(procs) ↔ j = a).
  { intros j. rewrite elem_of_cands, Nat.sub_0_r. split.
    - intros (_ & y & Hy & Hry & Hpy). destruct (decide (j = a)) as [|Hne]; [done|].
      pose proof (Hrest j y Hne Hy Hry). lia.
    - intros ->. split; [lia|]. by exists x. }
  destruct (cands 0 0 k.(pt).(procs)) as [|b [|b' l]] eqn:E.
  - exfalso. eapply elem_of_nil, Hin. done.
  - f_equal. apply Hin. by left.
  - exfalso. assert (b = a) by (apply Hin; by left). assert (b' = a) by (apply Hin; right; by left).
    subst. inversion Hnd as [|? ? Hni _]. apply Hni. by left.
Qed.

Lemma runs_alter h c p f :
  runs h c p → (∀ x, (f x).(apicid) = x.(apicid)) → (∀ x, (f x).(cproc) = x.(cproc)) →
  runs (alter_cpu c f h) c p.
Proof.
  intros (x & Hc & Hp) Ha Hf. exists (f x). split; [by apply cpu_is_alter|]. by rewrite Hf.
Qed.

Lemma Forall_upd {A} (P : A → Prop) (l : list A) i x : Forall P l → P x → Forall P (<[i := x]> l).
Proof. intros. by apply Forall_insert. Qed.

Lemma upd_proc_pre k c i p h :
  sched_pre k c → cpu_at h c 0 → lk_free h LPtable → is_u32 p.(prio) →
  (p.(state) = RUNNABLE → p.(kstack) ≠ 0 ∧ p.(pgdir) ≠ 0) →
  sched_pre (set_hw h (upd_proc i p k)) c.
Proof.
  intros [Hat Hf [Hl Hu] Hr] Hat' Hf' Hp Hk. split; [done|done| |].
  - split; cbn; [by rewrite length_insert|by apply Forall_upd].
  - cbn. by apply Forall_upd.
Qed.

(** The scheduler's choice, its execution up to yield() and the way back. *)
Lemma turn_ok k c a x i :
  sched_pre k c → schedulable k.(pt).(procs) →
  (length (cands (min_prio k.(pt).(procs)) 0 k.(pt).(procs)) <= PLIST)%nat →
  pick k.(ticks) k.(pt).(procs) = Some a → k.(pt).(procs) !! a = Some x →
  x.(state) = RUNNABLE → x.(context) = CtxYield i →
  ∃ h b, turn c k = Ok (Some a) (set_hw h (upd_proc a
            (adjust_prio (s32 k.(ticks)) (s32 k.(ticks))
               (set_context (CtxYield b) (set_state RUNNABLE (set_state RUNNING x)))) k)) ∧
         cpu_at h c 0 ∧ lk_free h LPtable.
Proof.
  intros Hpre Hs Hle Hpick Hx Hr Hctx. unfold turn.
  mstep by (by eapply scheduler_iter_pick). cbv iota.
  set (h1 := uvm_hw c x _). pose proof (entered_at _ _ (sp_at _ _ Hpre)) as He.
  assert (Hat1 : cpu_at h1 c 1) by (by apply uvm_at, cpu_at_alter).
  assert (Hm1 : lk_mine h1 c LPtable) by apply (acq_mine (write_IF true k.(hw)) c LPtable).
  assert (Hr1 : runs h1 c a) by (by apply runs_switch). clearbody h1.
  change (set_pt _ (set_hw h1 k)) with (upd_proc a (set_state RUNNING x) (set_hw h1 k)).
  assert (Hx1 : ∀ p h, (upd_proc a p (set_hw h k)).(pt).(procs) !! a = Some p)
    by (intros; by eapply upd_proc_lookup).
  mstep by (eapply (resume_yield_ok _ c a (set_state RUNNING x) i); [exact Hat1|exact Hm1|apply Hx1|done]).
  rewrite set_hw_upd_proc, set_hw_set_hw. change (hw (upd_proc a _ (set_hw h1 k))) with h1.
  set (h2 := rel_hw c LPtable (alter_cpu c (set_intena i) h1)).
  assert (Hat2 : cpu_at h2 c 0) by (apply (rel_at _ _ 1); [by apply cpu_at_alter|lia]).
  assert (Hr2 : runs h2 c a) by (by apply runs_rel, runs_alter).
  assert (Hf2 : lk_free h2 LPtable) by apply rel_free. clearbody h2.
  mstep by (unfold until_swtch; erewrite yield_ok; [reflexivity|exact Hat2|exact Hf2|exact Hr2|apply Hx1]).
  rewrite set_hw_upd_proc, upd_proc_twice, set_hw_set_hw.
  change (hw (upd_proc a _ (set_hw h2 k))) with h2.
  pose proof (acq_at _ _ _ LPtable Hat2) as Hat3. pose proof (acq_mine h2 c LPtable) as Hm3.
  set (h3 := acq_hw c LPtable h2) in *. clearbody h3. set (p3 := set_context _ _).
  destruct (scheduler_back_ok (upd_proc a p3 (set_hw h3 k)) c a p3 (s32 k.(ticks)) Hat3 Hm3 (Hx1 _ _)) as (Eb & Hat4 & Hf4).
  mstep by (exact Eb). rewrite upd_proc_twice, set_hw_upd_proc, set_hw_set_hw, <- set_hw_upd_proc.
  change (ticks _) with (ticks k). eexists _, _.
  split; [reflexivity|split; [exact Hat4|exact Hf4]].
Qed.

Lemma turn_favoured k c a :
  favoured k c a →
  ∃ k', turn c k = Ok (Some a) k' ∧ favoured k' c a ∧
        (∀ j, j ≠ a → k'.(pt).(procs) !! j = k.(pt).(procs) !! j).
Proof.
  intros Hfav. pose proof (favoured_cands _ _ _ Hfav) as Hc.
  destruct Hfav as [Hpre (x & i & Hx & Hr & Hp & Hctx) Hrest].
  destruct (turn_ok k c a x i) as (h & b & E & Hat & Hf); try done.
  - apply schedulable_cands. by rewrite Hc.
  - rewrite Hc. unfold PLIST. cbn. lia.
  - unfold pick. rewrite Hc. cbn [length]. by rewrite Z.mod_1_r.
  - eexists. split; [exact E|]. set (p := adjust_prio _ _ _).
    assert (Hp' : p = set_context (CtxYield b) (set_state RUNNABLE (set_state RUNNING x))).
    { unfold p, adjust_prio. rewrite Z.sub_diag. cbn. by rewrite Hp. }
    split; [split|].
    + apply upd_proc_pre; [done|done|done|rewrite Hp'; cbn; rewrite Hp; unfold is_u32; lia|].
      intros _. rewrite Hp'. by apply (proj1 (Forall_lookup _ _) (sp_ready _ _ Hpre) a x).
    + exists p, b. rewrite Hp'. split_and!; [|done|done|done]. by eapply upd_proc_lookup.
    + intros j y Hj. cbn. rewrite list_lookup_insert_ne by done. by apply Hrest.
    + intros j Hj. cbn. by rewrite list_lookup_insert_ne by done.
Qed.
