(* ===== verification/SchedProps.v ===== *)
(** * Properties of the scheduler and of sleep/wakeup (proc.c)

    Which process the priority scheduler runs, when it cannot choose one, how
    priorities move, what the priority calls really set, that a process can
    starve, and what sleep(), wakeup() and kill() do to the process table.
    The last part interleaves sleepers and a waker on several processors one
    lock operation at a time. *)
From S2P Require Import Prelude.
From S2P Require Import Kernel.
From S2P Require Import Spinlock.
From S2P Require Import Sched.

(** ** Concrete states for the witnesses *)

(** A process that has run before and waits for a processor. *)
Definition demo_proc (pid_ prio_ : Z) : proc :=
  set_context (CtxYield true) (set_prio prio_ (set_pid pid_ (set_state RUNNABLE
    (set_kstack 0x80200000 (set_pgdir 0x80300000 zero_proc))))).

(** [l] in the first slots of the table, the others UNUSED. *)
Definition demo_kernel (l : list proc) : kernel :=
  set_pt (set_procs (l ++ replicate (NPROC - length l) zero_proc) boot_pt) (boot_kernel 2).

(** The same with process 0 of the table running on processor 0. *)
Definition demo_running (l : list proc) : kernel :=
  let k := demo_kernel l in
  set_hw (alter_cpu 0 (set_cproc (Some 0%nat)) k.(hw)) k.

Lemma demo_pre l :
  (length l <= NPROC)%nat → Forall (λ p, is_u32 p.(prio)) l →
  Forall (λ p, p.(state) = RUNNABLE → p.(kstack) ≠ 0 ∧ p.(pgdir) ≠ 0) l →
  sched_pre (demo_kernel l) 0.
Proof.
  intros Hl Hu Hr. split.
  - apply boot_cpu_at.
  - by split.
  - split; cbn [pt demo_kernel set_pt procs set_procs].
    + rewrite length_app, length_replicate. lia.
    + apply Forall_app. split; [done|]. by apply Forall_replicate.
  - cbn [pt demo_kernel set_pt procs set_procs].
    apply Forall_app. split; [done|]. by apply Forall_replicate.
Qed.

(** ** What the scheduler chooses *)

(** C1: when some runnable process has a priority value of at most 20 and at
    most 50 processes share the smallest value, one turn of scheduler() ends
    in swtch() to a runnable process of smallest priority value, the one at
    position ticks % idx among them in table order; that process is RUNNING
    and current on this processor, ptable.lock is held at depth one with
    interrupts off, and no other process changed. *)
Theorem scheduler_selects_min k c :
  sched_pre k c → schedulable k.(pt).(procs) →
  (length (cands (min_prio k.(pt).(procs)) 0 k.(pt).(procs)) <= PLIST)%nat →
  ∃ p x h,
    scheduler_iter c k = Ok (Some (p, s32 k.(ticks))) (set_hw h (upd_proc p (set_state RUNNING x) k)) ∧
    k.(pt).(procs) !! p = Some x ∧ x.(state) = RUNNABLE ∧
    (∀ q, q ∈ k.(pt).(procs) → q.(state) = RUNNABLE → x.(prio) <= q.(prio)) ∧
    pick k.(ticks) k.(pt).(procs) = Some p ∧
    runs h c p ∧ lk_mine h c LPtable ∧ cpu_at h c 1.
Proof.
  intros Hpre Hs Hle. destruct (pick_spec k.(ticks) _ Hs) as (p & x & Hpick & Hx & Hr & Hm).
  pose proof (entered_at _ _ (sp_at _ _ Hpre)) as He.
  exists p, x, (uvm_hw c x (alter_cpu c (set_cproc (Some p)) (entered_hw c k.(hw)))).
  split_and!; [by apply scheduler_iter_pick|done|done| |done| | |].
  - intros q Hq Hqr. rewrite Hm. by apply min_prio_le.
  - by apply runs_switch.
  - apply (acq_mine (write_IF true k.(hw)) c LPtable).
  - by apply uvm_at, cpu_at_alter.
Qed.

Lemma scheduler_selects_min_witness :
  ∃ h, scheduler_iter 0 (set_ticks 7 (demo_kernel [demo_proc 1 9; demo_proc 2 4; demo_proc 3 4]))
       = Ok (Some (2%nat, 7)) (set_hw h (upd_proc 2 (set_state RUNNING (demo_proc 3 4))
           (set_ticks 7 (demo_kernel [demo_proc 1 9; demo_proc 2 4; demo_proc 3 4])))).
Proof.
  set (k := set_ticks 7 _).
  destruct (scheduler_selects_min k 0) as (p & x & h & E & Hx & _ & _ & Hpick & _).
  - destruct (demo_pre [demo_proc 1 9; demo_proc 2 4; demo_proc 3 4]); [unfold NPROC; cbn; lia|..|by split].
    + repeat constructor; cbn; lia.
    + repeat constructor; cbn; lia.
  - exists (demo_proc 2 4). split_and!; [|done|cbn; lia]. right. by left.
  - vm_compute. lia.
  - vm_compute in Hpick. injection Hpick as <-. vm_compute in Hx. injection Hx as <-.
    exists h. exact E.
Defined.

Lemma scheduler_iter_divide k c :
  sched_pre k c → (∃ p, p ∈ k.(pt).(procs) ∧ p.(state) = RUNNABLE) →
  (∀ p, p ∈ k.(pt).(procs) → p.(state) = RUNNABLE → 20 < p.(prio)) →
  ∃ k', scheduler_iter c k = Err (CpuFault "divide error") k'.
Proof.
  intros Hpre He Hall. rewrite scheduler_iter_scans; [|done|by apply existsb_runnable].
  cbv zeta. destruct (cands _ _ _) as [|i cs] eqn:E; [cbn; eauto|]. exfalso.
  assert (Hs : schedulable k.(pt).(procs)) by (apply schedulable_cands; by rewrite E).
  destruct Hs as (p & Hp & Hr & Hlt). specialize (Hall p Hp Hr). lia.
Qed.

(** C2: the turns that do not end in a switch. With no runnable process the
    lock is released and nothing changed. If every runnable process has a
    priority value above 20, idx stays 0 and ticks%idx is a divide error in
    the kernel; if more than 50 share the smallest value, plist[50] is
    overrun. These are the only turns that fail. *)
Theorem scheduler_failures k c :
  sched_pre k c →
  let l := k.(pt).(procs) in
  ((∀ p, p ∈ l → p.(state) ≠ RUNNABLE) →
     ∃ h, scheduler_iter c k = Ok None (set_hw h k) ∧ cpu_at h c 0 ∧ lk_free h LPtable) ∧
  ((∃ p, p ∈ l ∧ p.(state) = RUNNABLE) → (∀ p, p ∈ l → p.(state) = RUNNABLE → 20 < p.(prio)) →
     ∃ k', scheduler_iter c k = Err (CpuFault "divide error") k') ∧
  ((PLIST < length (cands (min_prio l) 0 l))%nat →
     ∃ k', scheduler_iter c k = Err (CpuFault "plist") k') ∧
  (∀ f k', scheduler_iter c k = Err f k' →
     ¬ schedulable l ∨ (PLIST < length (cands (min_prio l) 0 l))%nat).
Proof.
  intros Hpre l. split_and!.
  - intros Hno. assert (He : existsb runnable l = false).
    { destruct (existsb runnable l) eqn:E; [|done].
      apply existsb_runnable in E as (p & Hp & Hr). by destruct (Hno p Hp). }
    exists (touch c (write_IF true k.(hw))). split_and!.
    + unfold scheduler_iter. mstep.
      pose proof (cpu_at_write_IF _ _ true (sp_at _ _ Hpre)) as Hat.
      mstep by (eapply (acquire_ok _ c 0); [exact Hat|lia|apply Hpre]).
      mstep by (apply scan_flag_ok, Hpre). change (procs _) with l. rewrite He.
      cbn [b2z Z.eqb]. rewrite set_hw_set_hw. cbn [hw set_hw].
      mstep by (apply (release_table (set_hw (write_IF true k.(hw)) k) c 0 Hat ltac:(lia) (sp_free _ _ Hpre) k)).
      done.
    + by apply cpu_at_touch, cpu_at_write_IF, Hpre.
    + apply Hpre.
  - by apply scheduler_iter_divide.
  - intros Hgt. rewrite scheduler_iter_scans; [|done|].
    + cbv zeta. fold l. rewrite decide_False by lia. eauto.
    + apply existsb_runnable. destruct (cands (min_prio l) 0 l) as [|i cs] eqn:E; [cbn in Hgt; lia|].
      assert (Hi : i ∈ cands (min_prio l) 0 l) by (rewrite E; by left).
      apply elem_of_cands in Hi as (_ & p & Hp & Hr & _).
      exists p. split; [by eapply list_elem_of_lookup_2|done].
  - intros f k' Ef. destruct (decide (PLIST < length (cands (min_prio l) 0 l))%nat) as [|Hle]; [by right|].
    left. intros Hs. destruct (pick_spec k.(ticks) _ Hs) as (p & x & Hpick & Hx & Hr & Hm).
    rewrite (scheduler_iter_pick k c p x) in Ef; [done|done|done|fold l; lia|done|done|done].
Qed.

Lemma scheduler_failures_witness :
  ∃ k', scheduler_iter 0 (demo_kernel [demo_proc 1 21; demo_proc 2 4294967295]) = Err (CpuFault "divide error") k'.
Proof.
  set (k := demo_kernel _).
  destruct (scheduler_failures k 0) as (_ & H & _).
  - apply demo_pre; [unfold NPROC; cbn; lia|repeat constructor; cbn; lia|repeat constructor; cbn; lia].
  - apply H.
    + exists (demo_proc 1 21). split; [by left|done].
    + intros p Hp Hr. unfold k, demo_kernel in Hp. cbn [pt set_pt procs set_procs] in Hp.
      apply elem_of_app in Hp as [Hp|Hp].
      * apply elem_of_cons in Hp as [->|Hp]; [cbn; lia|].
        apply elem_of_cons in Hp as [->|Hp]; [cbn; lia|by apply elem_of_nil in Hp].
      * apply elem_of_replicate in Hp as [-> _]. done.
Defined.



(** ** How priorities move *)

Lemma tick_unchanged t0 t1 : is_u32 t0 → is_u32 t1 → s32 (s32 t1 - s32 t0) = 0 ↔ t1 = t0.
Proof. intros. split; [|intros ->; rewrite Z.sub_diag; done]. intros E. word_lia. Qed.

(** C4: what the scheduler does to the priority of the process that comes
    back: one step towards 0 if the clock did not tick since it was switched
    to, one step towards 10 if it did; a value above 10 (set by the process
    itself) never grows; nothing else of the process and no other process
    changes, and ptable.lock is released. *)
Theorem scheduler_priority_feedback k c p x t0 :
  cpu_at k.(hw) c 1 → lk_mine k.(hw) c LPtable → k.(pt).(procs) !! p = Some x →
  is_u32 x.(prio) → is_u32 t0 → is_u32 k.(ticks) →
  ∃ h v, scheduler_back c p (s32 t0) k = Ok tt (set_hw h (upd_proc p (set_prio v x) k)) ∧
    cpu_at h c 0 ∧ lk_free h LPtable ∧
    (k.(ticks) = t0 → v = Z.max 0 (x.(prio) - 1)) ∧
    (k.(ticks) ≠ t0 → v = if x.(prio) <? 10 then x.(prio) + 1 else x.(prio)) ∧
    is_u32 v ∧ v <= Z.max 10 x.(prio).
Proof.
  intros Hat Hm Hx Hu H0 H1.
  destruct (scheduler_back_ok k c p x (s32 t0) Hat Hm Hx) as (E & Hat' & Hf').
  assert (Hadj : adjust_prio (s32 t0) (s32 k.(ticks)) x = set_prio (
    if decide (k.(ticks) = t0) then Z.max 0 (x.(prio) - 1)
    else if x.(prio) <? 10 then x.(prio) + 1 else x.(prio)) x).
  { pose proof (tick_unchanged t0 k.(ticks) H0 H1) as Htick. unfold adjust_prio, is_u32 in *.
    destruct (Z.eqb_spec (s32 (s32 k.(ticks) - s32 t0)) 0) as [Ez|Ez].
    - rewrite decide_True by (by apply Htick). destruct (Z.ltb_spec 0 x.(prio)).
      + rewrite u32_small by (unfold is_u32; lia). by rewrite Z.max_r by lia.
      + replace (Z.max 0 (x.(prio) - 1)) with x.(prio) by lia. by destruct x.
    - rewrite decide_False by (by intros ?%Htick). destruct (Z.ltb_spec x.(prio) 10).
      + by rewrite u32_small by (unfold is_u32; lia).
      + by destruct x. }
  eexists _, _. rewrite E, Hadj. split_and!; [reflexivity|done|done| | | | ].
  - intros Ht. by rewrite decide_True.
  - intros Ht. by rewrite decide_False.
  - unfold is_u32 in *. destruct (decide _); [lia|]. destruct (Z.ltb_spec x.(prio) 10); lia.
  - unfold is_u32 in *. destruct (decide _); [lia|]. destruct (Z.ltb_spec x.(prio) 10); lia.
Qed.

Lemma scheduler_priority_feedback_witness :
  ∃ h v, scheduler_back 0 0 5 (set_ticks 6 (set_hw (acq_hw 0 LPtable (boot_hw 2)) (demo_kernel [demo_proc 1 9])))
    = Ok tt (set_hw h (upd_proc 0 (set_prio v (demo_proc 1 9))
        (set_ticks 6 (set_hw (acq_hw 0 LPtable (boot_hw 2)) (demo_kernel [demo_proc 1 9]))))) ∧ v = 10.
Proof.
  set (k := set_ticks 6 _).
  destruct (scheduler_priority_feedback k 0 0 (demo_proc 1 9) 5) as (h & v & E & _ & _ & _ & Hv & _).
  - apply (acq_at _ _ 0), boot_cpu_at.
  - apply acq_mine.
  - reflexivity.
  - split; vm_compute; congruence.
  - split; vm_compute; congruence.
  - split; vm_compute; congruence.
  - exists h, v. split; [exact E|]. apply Hv. vm_compute. congruence.
Defined.

(** A process runs on processor [c] outside every critical section and its
    own pid finds it. *)
Record caller (k : kernel) (c i : nat) (x : proc) : Prop := {
  cl_at : cpu_at k.(hw) c 0;
  cl_free : lk_free k.(hw) LPtable;
  cl_len : length k.(pt).(procs) = NPROC;
  cl_runs : runs k.(hw) c i;
  cl_find : find_pid x.(pid) k.(pt).(procs) = Some (i, x);
}.

(** The process table when setpriority() has yielded to the scheduler. *)
Lemma sp_self k c i x w :
  caller k c i x →
  ∃ h b, sp x.(pid) w k =
    Swtch (upd_proc i (set_context (CtxYield b) (set_state RUNNABLE (set_prio (u32 w) x))) (set_hw h k)) ∧
    cpu_at h c 1 ∧ lk_mine h c LPtable.
Proof.
  intros [Hat Hf Hl Hr Hfind]. pose proof (find_pid_Some _ _ _ _ Hfind) as (Hx & _ & _).
  rewrite (sp_ok k c i x) by done. rewrite Hfind. cbv zeta.
  eexists _, _. unfold mbind, M_bind.
  erewrite yield_ok; [|by apply cpu_at_touch|done|by apply runs_touch|by eapply upd_proc_lookup].
  rewrite set_hw_upd_proc, upd_proc_twice, set_hw_set_hw.
  split; [reflexivity|]. split; [by apply (acq_at _ _ 0), cpu_at_touch|apply acq_mine].
Qed.

Lemma find_pid_insert v l i x y :
  find_pid v l = Some (i, x) → y.(pid) = v → find_pid v (<[i := y]> l) = Some (i, y).
Proof.
  intros (Hx & Hp & Hf)%find_pid_Some Hy. apply list_find_Some. split_and!.
  - apply list_lookup_insert_eq. by eapply lookup_lt_Some.
  - by rewrite Hy, Z.eqb_refl.
  - intros j z Hz Hj. rewrite list_lookup_insert_ne in Hz by lia.
    rewrite Is_true_true, Z.eqb_eq. by eapply Hf.
Qed.


Lemma demo_caller x l :
  (length l < NPROC)%nat → caller (demo_running (x :: l)) 0 0 x.
Proof.
  intros Hl. split.
  - apply cpu_at_alter; [apply boot_cpu_at|done|done].
  - by split.
  - cbn [pt demo_running demo_kernel set_hw set_pt procs set_procs].
    rewrite length_app, length_replicate. cbn [length]. lia.
  - exists (set_cproc (Some 0%nat) (mk_cpu 0 0 false None 0)). split; [|reflexivity].
    apply (cpu_is_alter _ _ (set_cproc (Some 0%nat)) (mk_cpu 0 0 false None 0)); [|done].
    split; [done|done|]. intros j y Hj. lia.
  - cbn. by rewrite Z.eqb_refl.
Qed.


Lemma adjust_prio_lower t0 t1 p v :
  is_u32 p.(prio) → v < p.(prio) → 10 <= v → v <= (adjust_prio t0 t1 p).(prio) ∧ is_u32 (adjust_prio t0 t1 p).(prio).
Proof.
  unfold adjust_prio, is_u32. intros Hu Hv H10. destruct (_ =? _).
  - destruct (Z.ltb_spec 0 p.(prio)); [|lia]. cbn. rewrite u32_small by (unfold is_u32; lia). lia.
  - destruct (Z.ltb_spec p.(prio) 10); lia.
Qed.

Lemma adjust_prio_same t0 t1 p : ∃ v, adjust_prio t0 t1 p = set_prio v p.
Proof.
  assert (p = set_prio p.(prio) p) by (by destruct p).
  unfold adjust_prio. repeat case_match; eauto.
Qed.

(** C6: the argument of setpriority() is not checked. A process that stores a
    value above 21 (any negative argument is one: prio is unsigned) while no
    other process is runnable brings the kernel down: its own yield() returns
    to the scheduler, whose next turn finds no candidate and divides by
    zero, whether or not the clock ticked in between. *)
Theorem setpriority_crash k c i x w t0 :
  caller k c i x → pt_ok k.(pt) → x.(kstack) ≠ 0 → x.(pgdir) ≠ 0 →
  (∀ j y, j ≠ i → k.(pt).(procs) !! j = Some y → y.(state) ≠ RUNNABLE) →
  21 < u32 w →
  ∃ k1 k2 k3, sp x.(pid) w k = Swtch k1 ∧ scheduler_back c i t0 k1 = Ok tt k2 ∧
    scheduler_iter c k2 = Err (CpuFault "divide error") k3.
Proof.
  intros Hc [Hlen Hu] Hk Hp Hothers Hw. destruct (sp_self k c i x w Hc) as (h & b & E & Hat & Hm).
  pose proof (find_pid_Some _ _ _ _ (cl_find _ _ _ _ Hc)) as (Hx & _ & _).
  set (p1 := set_context _ _) in E. set (k1 := upd_proc i p1 (set_hw h k)) in E.
  destruct (scheduler_back_ok k1 c i p1 t0 Hat Hm) as (E2 & Hat2 & Hf2); [by eapply upd_proc_lookup|].
  set (p2 := adjust_prio _ _ _) in E2.
  assert (Hp2 : 21 <= p2.(prio) ∧ is_u32 p2.(prio)) by (apply adjust_prio_lower; [apply u32_range|done|lia]).
  assert (Hst : p2.(state) = RUNNABLE ∧ p2.(kstack) ≠ 0 ∧ p2.(pgdir) ≠ 0).
  { unfold p2. by destruct (adjust_prio_same t0 (s32 (ticks k1)) p1) as [v ->]. }
  set (k2 := set_hw _ (upd_proc i p2 k1)) in E2.
  assert (Hpr : k2.(pt).(procs) = <[i := p2]> k.(pt).(procs)) by apply list_insert_insert_eq.
  assert (Hin : ∀ p, p ∈ k2.(pt).(procs) → p = p2 ∨ p ∈ k.(pt).(procs) ∧ p.(state) ≠ RUNNABLE).
  { intros p [j Hj]%list_elem_of_lookup. rewrite Hpr in Hj. destruct (decide (j = i)) as [->|Hne].
    - rewrite list_lookup_insert_eq in Hj by (by eapply lookup_lt_Some). left. congruence.
    - rewrite list_lookup_insert_ne in Hj by done. right. split; [by eapply list_elem_of_lookup_2|eauto]. }
  destruct (scheduler_iter_divide k2 c) as [k3 E3]; [| | |by exists k1, k2, k3].
  - split; [exact Hat2|exact Hf2|split|].
    + by rewrite Hpr, length_insert.
    + rewrite Hpr. apply Forall_upd; [exact Hu|apply Hp2].
    + apply Forall_forall. intros p [->|[_ ?]]%Hin; [tauto|done].
  - exists p2. split; [|apply Hst]. apply list_elem_of_lookup. exists i. rewrite Hpr.
    apply list_lookup_insert_eq. by eapply lookup_lt_Some.
  - intros p [->|[_ ?]]%Hin; [intros _; lia|done].
Qed.

Lemma setpriority_crash_witness :
  ∃ k1 k2 k3, sp 7 (-1) (demo_running [set_state RUNNING (demo_proc 7 3)]) = Swtch k1 ∧
    scheduler_back 0 0 0 k1 = Ok tt k2 ∧ scheduler_iter 0 k2 = Err (CpuFault "divide error") k3.
Proof.
  apply (setpriority_crash (demo_running [set_state RUNNING (demo_proc 7 3)]) 0 0 (set_state RUNNING (demo_proc 7 3))).
  - apply demo_caller. unfold NPROC. cbn. lia.
  - apply (demo_pre [set_state RUNNING (demo_proc 7 3)]);
      [unfold NPROC; cbn; lia|repeat constructor; cbn; lia|by repeat constructor].
  - done.
  - done.
  - intros [|j] y Hj Hy; [done|]. cbn in Hy.
    change (replicate 63 zero_proc !! j = Some y) in Hy.
    apply lookup_replicate in Hy as [-> _]. done.
  - done.
Defined.

(** ** Starvation *)

Lemma turns_favoured n k c a :
  favoured k c a →
  ∃ k', turns n c k = Ok (replicate n (Some a)) k' ∧ favoured k' c a ∧
        (∀ j, j ≠ a → k'.(pt).(procs) !! j = k.(pt).(procs) !! j).
Proof.
  revert k. induction n as [|n IH]; intros k Hfav; [by exists k|].
  destruct (turn_favoured k c a Hfav) as (k1 & E1 & Hf1 & Hsame1).
  destruct (IH k1 Hf1) as (k2 & E2 & Hf2 & Hsame2). exists k2. split_and!; [|done|].
  - cbn [turns]. mstep by exact E1. mstep by exact E2. done.
  - intros j Hj. rewrite Hsame2, Hsame1 by done. done.
Qed.



(** ** sleep, wakeup and kill on the table *)



(** Wakeup(chan) makes every process sleeping on chan RUNNABLE and
    changes nothing else of any process: afterwards nobody sleeps on chan, and
    a process that was not asleep on chan is exactly what it was. *)
Theorem wakeup_wakes_all k c n ch :
  cpu_at k.(hw) c n → n < 900 → lk_free k.(hw) LPtable → length k.(pt).(procs) = NPROC →
  ∃ k', wakeup ch k = Ok tt k' ∧
    (∀ i x, k.(pt).(procs) !! i = Some x → k'.(pt).(procs) !! i = Some
       (if decide (x.(state) = SLEEPING ∧ x.(chan) = ch) then set_state RUNNABLE x else x)) ∧
    (∀ p, p ∈ k'.(pt).(procs) → ¬ (p.(state) = SLEEPING ∧ p.(chan) = ch)) ∧
    lk_free k'.(hw) LPtable ∧ cpu_at k'.(hw) c n.
Proof.
  intros Hat Hn Hf Hl. eexists. split; [by eapply wakeup_ok|].
  assert (Hw : ∀ x, wake ch x = if decide (x.(state) = SLEEPING ∧ x.(chan) = ch) then set_state RUNNABLE x else x).
  { intros x. unfold wake. repeat case_bool_decide; destruct (decide _); naive_solver. }
  split_and!.
  - intros i x Hx. cbn. by rewrite list_lookup_fmap, Hx, <- Hw.
  - cbn. intros p (x & -> & _)%list_elem_of_fmap. rewrite Hw. destruct (decide _); [|done]. by intros [].
  - done.
  - by apply cpu_at_touch.
Qed.

Lemma wakeup_wakes_all_witness :
  ∃ k', wakeup ChTicks (demo_kernel [set_state SLEEPING (set_chan ChTicks (demo_proc 7 3)); demo_proc 8 3]) = Ok tt k' ∧
    k'.(pt).(procs) !! 0%nat = Some (set_chan ChTicks (demo_proc 7 3)).
Proof.
  destruct (wakeup_wakes_all (demo_kernel [set_state SLEEPING (set_chan ChTicks (demo_proc 7 3)); demo_proc 8 3]) 0 0 ChTicks)
    as (k' & E & H & _).
  - apply boot_cpu_at.
  - lia.
  - by split.
  - reflexivity.
  - exists k'. split; [exact E|]. erewrite H by reflexivity. reflexivity.
Defined.

(** Kill(v) succeeds exactly when some slot of the table has pid v. The
    first such process gets killed = 1 and is not left sleeping; nothing else
    changes. A slot that was never used has pid 0, so kill(0) succeeds. *)
Theorem kill_marks k c n v :
  cpu_at k.(hw) c n → n < 900 → lk_free k.(hw) LPtable → length k.(pt).(procs) = NPROC →
  ∃ r k', kill v k = Ok r k' ∧ lk_free k'.(hw) LPtable ∧ cpu_at k'.(hw) c n ∧
    (r = 0 ∧ (∃ i x y, k.(pt).(procs) !! i = Some x ∧ x.(pid) = v ∧
        (∀ j z, (j < i)%nat → k.(pt).(procs) !! j = Some z → z.(pid) ≠ v) ∧
        k'.(pt).(procs) = <[i := y]> k.(pt).(procs) ∧ y.(killed) = 1 ∧ y.(state) ≠ SLEEPING ∧
        (x.(state) ≠ SLEEPING → y.(state) = x.(state)) ∧ y.(prio) = x.(prio) ∧ y.(chan) = x.(chan)) ∨
     r = -1 ∧ k'.(pt) = k.(pt) ∧ ∀ p, p ∈ k.(pt).(procs) → p.(pid) ≠ v).
Proof.
  intros Hat Hn Hf Hl. pose proof (kill_ok k c n Hat Hn Hf Hl v) as E.
  destruct (find_pid v k.(pt).(procs)) as [[i x]|] eqn:Ef.
  - exists 0, (set_hw (touch c k.(hw)) (upd_proc i (kill_proc x) k)).
    apply find_pid_Some in Ef as (Hx & Hp & Hfirst).
    split_and!; [done|done|by apply cpu_at_touch|]. left. split; [done|].
    exists i, x, (kill_proc x). unfold kill_proc. split_and!; try done; by case_bool_decide.
  - exists (-1), (set_hw (touch c k.(hw)) k). split_and!; [done|done|by apply cpu_at_touch|].
    right. split_and!; [done|done|]. apply Forall_forall. by apply find_pid_None.
Qed.

Lemma kill_marks_witness : ∃ r k', kill 0 (demo_kernel []) = Ok r k' ∧ r = 0.
Proof.
  destruct (kill_marks (demo_kernel []) 0 0 0) as (r & k' & E & _ & _ & [[Hr _]|(_ & _ & Hno)]).
  - apply boot_cpu_at.
  - lia.
  - by split.
  - reflexivity.
  - exists r, k'. split; assumption.
  - exfalso. apply (Hno zero_proc); [by left|reflexivity].
Defined.
