(* ===== verification/Sleeplock.v ===== *)
(** * sleeplock.c: sleep locks

    The functions of sleeplock.c, and the interleaving of any number of
    processes that take and release one sleep lock: [sl_next] executes the
    code of acquiresleep(), sleep(), wakeup() and releasesleep() one lock
    operation or shared access at a time, with lk->lk and ptable.lock as
    atomic locks (their own implementation is treated in the file on spin
    locks) and the scheduler resuming a RUNNABLE process under ptable.lock. *)
From S2P Require Import Prelude.
From S2P Require Import Kernel.
From S2P Require Import Spinlock.
From S2P Require Import Sched.
From S2P Require Import SchedProps.

(** ** sleeplock.c *)

Definition upd_fs (f : fsys → fsys) : K unit := modify (λ k, set_fs (f k.(fs)) k).
Definition sl_get (s : slid) : K sleeplock := get (λ k, k.(fs).(slocks) s).
Definition sl_upd (s : slid) (f : sleeplock → sleeplock) : K unit :=
  upd_fs (λ x, set_slocks (<[s := f (x.(slocks) s)]> x.(slocks)) x).

(** myproc()->pid *)
Definition mypid : K Z :=
  p ← curproc;
  x ← proc_get p;
  mret x.(pid).

Definition initsleeplock (s : slid) (name : string) : K unit :=
  initlock (LSleep s) "sleep lock";;
  sl_upd s (set_sl_name name);;
  sl_upd s (set_sl_locked 0);;
  sl_upd s (set_sl_pid 0).

(** The loop of acquiresleep() from its test on: sleep() gives the processor
    away, and when the process runs again it is at this point. *)
Definition acquiresleep_loop (s : slid) : K unit :=
  l ← sl_get s;
  if truth l.(sl_locked) then sleep (ChSleep s) (LSleep s) else
  sl_upd s (set_sl_locked 1);;
  pid_ ← mypid;
  sl_upd s (set_sl_pid pid_);;
  release (LSleep s).

Definition acquiresleep (s : slid) : K unit :=
  acquire (LSleep s);;
  acquiresleep_loop s.

Definition releasesleep (s : slid) : K unit :=
  acquire (LSleep s);;
  sl_upd s (set_sl_locked 0);;
  sl_upd s (set_sl_pid 0);;
  wakeup (ChSleep s);;
  release (LSleep s).

Definition holdingsleep (s : slid) : K bool :=
  acquire (LSleep s);;
  l ← sl_get s;
  r ← (if truth l.(sl_locked) then pid_ ← mypid; mret (l.(sl_pid) =? pid_) else mret false);
  release (LSleep s);;
  mret r.

(** ** One sleep lock, many processes *)

Inductive sl_pc : Type :=
| SIdle     (* acquiresleep: at acquire(&lk->lk) *)
| STest     (* at while(lk->locked) *)
| SPt       (* sleep: at acquire(&ptable.lock) *)
| SRelLk    (* sleep: at release(lk) *)
| SChan     (* sleep: at p->chan = chan *)
| SState    (* sleep: at p->state = SLEEPING *)
| SSwtch    (* sched: at swtch() *)
| SOff      (* the scheduler runs and holds ptable.lock *)
| SOut      (* off the processor, ptable.lock released *)
| SBack     (* resumed under ptable.lock: at p->chan = 0 *)
| SRelPt    (* sleep: at release(&ptable.lock) *)
| SReacq    (* sleep: at acquire(lk) *)
| SSet      (* at lk->locked = 1 *)
| SRel      (* acquiresleep: at release(&lk->lk) *)
| SCrit     (* holds the sleep lock; next releasesleep: acquire(&lk->lk) *)
| RClear    (* at lk->locked = 0 *)
| RPt       (* wakeup: at acquire(&ptable.lock) *)
| RWake     (* wakeup1 *)
| RRelPt    (* wakeup: at release(&ptable.lock) *)
| RRel.     (* releasesleep: at release(&lk->lk) *)

#[export] Instance sl_pc_eq_dec : EqDecision sl_pc.
Proof. solve_decision. Defined.

Record sl_sys : Type := mk_sl_sys {
  z_locked : Z;              (* lk->locked *)
  z_lk : option nat;         (* who holds lk->lk *)
  z_pt : option nat;         (* who holds ptable.lock *)
  z_pc : nat → sl_pc;
  z_st : nat → procstate;    (* p->state *)
  z_ch : nat → bool;         (* p->chan is this lock *)
}.

Definition sl_init (s : sl_sys) : Prop :=
  s.(z_locked) = 0 ∧ s.(z_lk) = None ∧ s.(z_pt) = None ∧
  (∀ i, s.(z_pc) i = SIdle) ∧ (∀ i, s.(z_st) i = RUNNING) ∧ (∀ i, s.(z_ch) i = false).

(** wakeup1() on the table. *)
Definition wake_all (ch : nat → bool) (st : nat → procstate) : nat → procstate :=
  λ j, if bool_decide (st j = SLEEPING) && ch j then RUNNABLE else st j.

(** The next access of process [i], if it is not waiting for a lock or for the
    scheduler. *)
Definition sl_next (i : nat) (s : sl_sys) : option sl_sys :=
  let '(mk_sl_sys locked lk pt pc st ch) := s in
  let go (p : sl_pc) := <[i := p]> pc in
  match pc i with
  | SIdle => match lk with
             | None => Some (mk_sl_sys locked (Some i) pt (go STest) st ch)
             | Some _ => None end
  | STest => Some (mk_sl_sys locked lk pt (go (if truth locked then SPt else SSet)) st ch)
  | SPt => match pt with
           | None => Some (mk_sl_sys locked lk (Some i) (go SRelLk) st ch)
           | Some _ => None end
  | SRelLk => Some (mk_sl_sys locked None pt (go SChan) st ch)
  | SChan => Some (mk_sl_sys locked lk pt (go SState) st (<[i := true]> ch))
  | SState => Some (mk_sl_sys locked lk pt (go SSwtch) (<[i := SLEEPING]> st) ch)
  | SSwtch => Some (mk_sl_sys locked lk pt (go SOff) st ch)
  | SOff => Some (mk_sl_sys locked lk None (go SOut) st ch)
  | SOut => match pt, st i with
            | None, RUNNABLE => Some (mk_sl_sys locked lk (Some i) (go SBack) (<[i := RUNNING]> st) ch)
            | _, _ => None end
  | SBack => Some (mk_sl_sys locked lk pt (go SRelPt) st (<[i := false]> ch))
  | SRelPt => Some (mk_sl_sys locked lk None (go SReacq) st ch)
  | SReacq => match lk with
              | None => Some (mk_sl_sys locked (Some i) pt (go STest) st ch)
              | Some _ => None end
  | SSet => Some (mk_sl_sys 1 lk pt (go SRel) st ch)
  | SRel => Some (mk_sl_sys locked None pt (go SCrit) st ch)
  | SCrit => match lk with
             | None => Some (mk_sl_sys locked (Some i) pt (go RClear) st ch)
             | Some _ => None end
  | RClear => Some (mk_sl_sys 0 lk pt (go RPt) st ch)
  | RPt => match pt with
           | None => Some (mk_sl_sys locked lk (Some i) (go RWake) st ch)
           | Some _ => None end
  | RWake => Some (mk_sl_sys locked lk pt (go RRelPt) (wake_all ch st) ch)
  | RRelPt => Some (mk_sl_sys locked lk None (go RRel) st ch)
  | RRel => Some (mk_sl_sys locked None pt (go SIdle) st ch)
  end.

Definition sl_step (s s' : sl_sys) : Prop := ∃ i, sl_next i s = Some s'.

(** ** The invariant of the interleaving *)

Definition has_lk (p : sl_pc) : bool :=
  match p with
  | STest | SPt | SRelLk | SSet | SRel | RClear | RPt | RWake | RRelPt | RRel => true
  | _ => false
  end.

Definition has_pt (p : sl_pc) : bool :=
  match p with
  | SRelLk | SChan | SState | SSwtch | SOff | SBack | SRelPt | RWake | RRelPt => true
  | _ => false
  end.

(** Between lk->locked = 1 and lk->locked = 0. *)
Definition holds_sl (p : sl_pc) : bool :=
  match p with SRel | SCrit | RClear => true | _ => false end.

(** About to wake the sleepers. *)
Definition waking (p : sl_pc) : bool := match p with RPt | RWake => true | _ => false end.

(** Committed to sleeping, or asleep. *)
Definition sleepy (p : sl_pc) (st : procstate) : bool :=
  match p with
  | SPt | SRelLk | SChan | SState | SSwtch | SOff => true
  | SOut => bool_decide (st = SLEEPING)
  | _ => false
  end.

Definition st_ok (p : sl_pc) (st : procstate) (ch : bool) : bool :=
  match p with
  | SState => bool_decide (st = RUNNING) && ch
  | SSwtch | SOff => bool_decide (st = SLEEPING) && ch
  | SOut => (bool_decide (st = SLEEPING) || bool_decide (st = RUNNABLE)) && ch
  | SBack => bool_decide (st = RUNNING)
  | _ => bool_decide (st = RUNNING) && negb ch
  end.

Record sl_inv (s : sl_sys) : Prop := {
  si_lk : ∀ i, s.(z_lk) = Some i ↔ has_lk (s.(z_pc) i);
  si_pt : ∀ i, s.(z_pt) = Some i ↔ has_pt (s.(z_pc) i);
  si_one : ∀ i j, holds_sl (s.(z_pc) i) → holds_sl (s.(z_pc) j) → i = j;
  si_own : ∀ i, holds_sl (s.(z_pc) i) → s.(z_locked) = 1;
  si_val : s.(z_locked) = 0 ∨ s.(z_locked) = 1 ∧ ∃ i, holds_sl (s.(z_pc) i);
  si_set : ∀ i, s.(z_pc) i = SSet → s.(z_locked) = 0;
  si_st : ∀ i, st_ok (s.(z_pc) i) (s.(z_st) i) (s.(z_ch) i);
  si_wake : ∀ i, sleepy (s.(z_pc) i) (s.(z_st) i) → s.(z_locked) = 1 ∨ ∃ j, waking (s.(z_pc) j);
}.

Lemma sl_inv_init s : sl_init s → sl_inv s.
Proof.
  intros (Hl & Hk & Hp & Hpc & Hst & Hch). split; intros *; rewrite ?Hpc, ?Hst, ?Hch, ?Hk, ?Hp, ?Hl; cbn; naive_solver.
Qed.

(** A lock's owner and the points where the code holds it move together. *)
Lemma owner_upd (f : sl_pc → bool) (pc : nat → sl_pc) (o o' : option nat) i p :
  (∀ j, o = Some j ↔ f (pc j)) →
  (o' = o ∧ f p = f (pc i)) ∨ (o = None ∧ o' = Some i ∧ f p = true) ∨
  (f (pc i) = true ∧ o' = None ∧ f p = false) →
  ∀ j, o' = Some j ↔ f (<[i := p]> pc j).
Proof.
  intros Ho Hc j. destruct (decide (j = i)) as [->|Hne];
    rewrite ?fn_lookup_insert, ?fn_lookup_insert_ne by done.
  - destruct Hc as [[-> Hf]|[(-> & -> & ->)|(Hi & -> & ->)]]; [by rewrite Hf|done|done].
  - destruct Hc as [[-> Hf]|[(Hn & -> & Hp)|(Hi & -> & Hp)]]; [done| |].
    + rewrite <- (Ho j), Hn. split; [congruence|done].
    + assert (Hio : o = Some i) by (apply Ho; by rewrite Hi). rewrite <- (Ho j), Hio. split; congruence.
Qed.

(** Who holds the sleep lock: unchanged, taken while free, or given up. *)
Lemma holder_upd (pc : nat → sl_pc) (v v' : Z) i p :
  (∀ a b, holds_sl (pc a) → holds_sl (pc b) → a = b) → (∀ a, holds_sl (pc a) → v = 1) →
  (v = 0 ∨ v = 1 ∧ ∃ a, holds_sl (pc a)) →
  (v' = v ∧ holds_sl p = holds_sl (pc i)) ∨ (v = 0 ∧ v' = 1 ∧ holds_sl p = true) ∨
  (holds_sl (pc i) = true ∧ v' = 0 ∧ holds_sl p = false) →
  (∀ a b, holds_sl (<[i := p]> pc a) → holds_sl (<[i := p]> pc b) → a = b) ∧
  (∀ a, holds_sl (<[i := p]> pc a) → v' = 1) ∧
  (v' = 0 ∨ v' = 1 ∧ ∃ a, holds_sl (<[i := p]> pc a)).
Proof.
  intros Hone Hown Hval Hc.
  assert (Hno : v = 0 → ∀ a, ¬ holds_sl (pc a)) by (intros H0 a Ha; specialize (Hown a Ha); lia).
  assert (Honly : holds_sl (pc i) = true → ∀ a, a ≠ i → ¬ holds_sl (pc a)).
  { intros Hi a Hne Ha. apply Hne, Hone; [done|by rewrite Hi]. }
  destruct Hc as [[-> Hf]|[(H0 & -> & Hp)|(Hi & -> & Hp)]]; split_and!.
  - intros a b. pc_cases i; rewrite ?Hf; auto.
  - intros a. pc_cases i; rewrite ?Hf; eauto.
  - destruct Hval as [|[? [a Ha]]]; [by left|right]. split; [done|]. exists a. pc_cases i; by rewrite ?Hf.
  - intros a b Ha Hb. pc_cases i; try done; exfalso; eapply (Hno H0); eassumption.
  - done.
  - right. split; [done|]. exists i. rewrite fn_lookup_insert. by rewrite Hp.
  - intros a b Ha Hb. pc_cases i; rewrite ?Hp in *; try done. by exfalso; eapply (Honly Hi a).
  - intros a Ha. pc_cases i; rewrite ?Hp in *; try done. by exfalso; eapply (Honly Hi a).
  - by left.
Qed.

Lemma st_upd (pc : nat → sl_pc) (st : nat → procstate) (ch : nat → bool) i p (q : procstate) (b : bool) :
  (∀ j, st_ok (pc j) (st j) (ch j)) → st_ok p q b →
  ∀ j, st_ok (<[i := p]> pc j) (<[i := q]> st j) (<[i := b]> ch j).
Proof. intros Hst Hp j. pc_cases i; auto. Qed.

Lemma wake_upd (pc : nat → sl_pc) (st : nat → procstate) i p (q : procstate) (v v' : Z) :
  (∀ j, sleepy (pc j) (st j) → v = 1 ∨ ∃ a, waking (pc a)) →
  (waking (pc i) = true → waking p = true) →
  v' = v ∨ v' = 1 ∨ waking p = true →
  (sleepy p q = true → v' = 1 ∨ (∃ a, waking (<[i := p]> pc a)) ∨ sleepy (pc i) (st i)) →
  ∀ j, sleepy (<[i := p]> pc j) (<[i := q]> st j) → v' = 1 ∨ ∃ a, waking (<[i := p]> pc a).
Proof.
  intros Hw Hk Hv Hnew j Hj.
  assert (Hmono : (v = 1 ∨ ∃ a, waking (pc a)) → v' = 1 ∨ ∃ a, waking (<[i := p]> pc a)).
  { intros [H1|[a Ha]].
    - destruct Hv as [->|[->|Hp]]; [by left|by left|]. right. exists i. rewrite fn_lookup_insert. by rewrite Hp.
    - right. exists a. destruct (decide (a = i)) as [->|];
        rewrite ?fn_lookup_insert, ?fn_lookup_insert_ne by done; [|done].
      rewrite Hk; [done|by destruct (waking (pc i))]. }
  destruct (decide (j = i)) as [->|Hne]; rewrite ?fn_lookup_insert, ?fn_lookup_insert_ne in Hj by done.
  - destruct (Hnew ltac:(by destruct (sleepy p q))) as [?|[?|Hs]]; [by left|by right|].
    apply Hmono. by eapply Hw.
  - apply Hmono. by eapply Hw.
Qed.

(** A step of process [i] that moves it to [p] and sets its state to [q] and
    its channel flag to [b]. *)
Lemma sl_inv_upd s i p v' lk' pt' q b :
  sl_inv s →
  (lk' = s.(z_lk) ∧ has_lk p = has_lk (s.(z_pc) i)) ∨ (s.(z_lk) = None ∧ lk' = Some i ∧ has_lk p = true) ∨
    (has_lk (s.(z_pc) i) = true ∧ lk' = None ∧ has_lk p = false) →
  (pt' = s.(z_pt) ∧ has_pt p = has_pt (s.(z_pc) i)) ∨ (s.(z_pt) = None ∧ pt' = Some i ∧ has_pt p = true) ∨
    (has_pt (s.(z_pc) i) = true ∧ pt' = None ∧ has_pt p = false) →
  (v' = s.(z_locked) ∧ holds_sl p = holds_sl (s.(z_pc) i)) ∨
    (s.(z_locked) = 0 ∧ v' = 1 ∧ holds_sl p = true) ∨
    (holds_sl (s.(z_pc) i) = true ∧ v' = 0 ∧ holds_sl p = false) →
  (p = SSet → s.(z_locked) = 0) → (v' = s.(z_locked) ∨ has_lk (s.(z_pc) i) = true) →
  st_ok p q b →
  (waking (s.(z_pc) i) = true → waking p = true) → v' = s.(z_locked) ∨ v' = 1 ∨ waking p = true →
  (sleepy p q = true → v' = 1 ∨ sleepy (s.(z_pc) i) (s.(z_st) i)) →
  sl_inv (mk_sl_sys v' lk' pt' (<[i := p]> s.(z_pc)) (<[i := q]> s.(z_st)) (<[i := b]> s.(z_ch))).
Proof.
  intros [Hlk Hpt Hone Hown Hval Hset Hst Hwk] Clk Cpt Cv Cset Clk2 Cst Cw1 Cw2 Cw3.
  destruct (holder_upd _ _ v' i p Hone Hown Hval Cv) as (H1 & H2 & H3). split; cbn.
  - by eapply owner_upd.
  - by eapply owner_upd.
  - done.
  - done.
  - done.
  - intros j Hj. destruct (decide (j = i)) as [->|Hne]; rewrite ?fn_lookup_insert, ?fn_lookup_insert_ne in Hj by done.
    + rewrite Hj in *. specialize (Cset eq_refl). destruct Cv as [[-> _]|[(_ & _ & ?)|(_ & -> & _)]]; done.
    + destruct Clk2 as [->|Hhi]; [by eapply Hset|]. exfalso. apply Hne.
      assert (s.(z_lk) = Some i) by (apply Hlk; by rewrite Hhi).
      assert (s.(z_lk) = Some j) by (apply Hlk; by rewrite Hj). congruence.
  - by apply st_upd.
  - eapply wake_upd; [done|done|done|]. intros Hs. destruct (Cw3 Hs) as [?|?]; [by left|by right; right].
Qed.

Lemma sl_inv_wakeall s i :
  sl_inv s → s.(z_pc) i = RWake →
  sl_inv (mk_sl_sys s.(z_locked) s.(z_lk) s.(z_pt) (<[i := RRelPt]> s.(z_pc)) (wake_all s.(z_ch) s.(z_st)) s.(z_ch)).
Proof.
  intros HI Hi. pose proof HI as [Hlk Hpt Hone Hown Hval Hset Hst Hwk].
  destruct (holder_upd _ _ s.(z_locked) i RRelPt Hone Hown Hval) as (H1 & H2 & H3);
    [left; by rewrite Hi|].
  assert (Hli : s.(z_lk) = Some i) by (apply Hlk; by rewrite Hi).
  assert (Hpi : s.(z_pt) = Some i) by (apply Hpt; by rewrite Hi).
  assert (Hstj : ∀ j, j ≠ i → wake_all s.(z_ch) s.(z_st) j = s.(z_st) j ∨ s.(z_pc) j = SOut ∧ wake_all s.(z_ch) s.(z_st) j = RUNNABLE).
  { intros j Hne. unfold wake_all. destruct (bool_decide (s.(z_st) j = SLEEPING) && s.(z_ch) j) eqn:E; [|by left].
    apply andb_prop in E as [E%bool_decide_eq_true Ec]. right. split; [|done].
    pose proof (Hst j) as Hj. destruct (s.(z_pc) j) eqn:Hpj; cbn in Hj; rewrite ?E in Hj; try done.
    - exfalso. apply Hne. assert (s.(z_pt) = Some j) by (apply Hpt; by rewrite Hpj). congruence.
    - exfalso. apply Hne. assert (s.(z_pt) = Some j) by (apply Hpt; by rewrite Hpj). congruence. }
  assert (Hsi : wake_all s.(z_ch) s.(z_st) i = s.(z_st) i).
  { pose proof (Hst i) as Hj. rewrite Hi in Hj. cbn in Hj. unfold wake_all.
    destruct (bool_decide (s.(z_st) i = SLEEPING)) eqn:E; [|done].
    apply bool_decide_eq_true in E. rewrite E in Hj. done. }
  split; cbn.
  - eapply owner_upd; [done|]. left. by rewrite Hi.
  - eapply owner_upd; [done|]. left. by rewrite Hi.
  - done.
  - done.
  - done.
  - intros j Hj. pc_cases i; [done|]. by eapply Hset.
  - intros j. pc_cases i.
    + rewrite Hsi. pose proof (Hst i) as Hj. rewrite Hi in Hj. done.
    + destruct (Hstj j) as [->|[Hpj ->]]; [done|done|]. rewrite Hpj.
      pose proof (Hst j) as Hj. rewrite Hpj in Hj. cbn in *. destruct (s.(z_ch) j); [done|].
      by rewrite andb_false_r in Hj.
  - intros j Hs. exfalso. pc_cases i; [done|].
    destruct (Hstj j ltac:(done)) as [E|[Hpj E]]; rewrite E in Hs; [|by rewrite Hpj in Hs].
    assert (has_lk (s.(z_pc) j) = true ∨ has_pt (s.(z_pc) j) = true ∨ (s.(z_pc) j = SOut ∧ s.(z_st) j = SLEEPING)) as Hcase.
    { destruct (s.(z_pc) j); cbn in *; auto; try done. right; right. split; [done|]. by case_bool_decide. }
    destruct Hcase as [Hh|[Hh|[Hpj Hsl]]].
    + assert (s.(z_lk) = Some j) by (apply Hlk; by rewrite Hh). congruence.
    + assert (s.(z_pt) = Some j) by (apply Hpt; by rewrite Hh). congruence.
    + pose proof (Hst j) as Hj. rewrite Hpj, Hsl in Hj. cbn in Hj. unfold wake_all in E.
      rewrite Hsl in E. cbn in E. by destruct (s.(z_ch) j).
Qed.

Lemma sl_inv_next s i s' : sl_inv s → sl_next i s = Some s' → sl_inv s'.
Proof.
  intros HI E. pose proof (si_st _ HI i) as Hst. pose proof (si_val _ HI) as Hval. pose proof (si_set _ HI i) as Hset.
  pose proof (sl_inv_wakeall s i HI) as Hwake.
  assert (Hup := λ p v' lk' pt' q b, sl_inv_upd s i p v' lk' pt' q b HI).
  destruct s as [v lk pt pc st ch]. cbn [z_locked z_lk z_pt z_pc z_st z_ch] in *. cbn [sl_next] in E.
  assert (Hq : <[i := st i]> st = st) by apply fn_insert_same.
  assert (Hb : <[i := ch i]> ch = ch) by apply fn_insert_same.
  destruct (pc i) eqn:Hi; cbn in Hst;
    repeat match type of E with
    | match lk with _ => _ end = _ => destruct lk eqn:?; [done|]
    | match pt with _ => _ end = _ => destruct pt eqn:?; [done|]
    | match st i with _ => _ end = _ => destruct (st i) eqn:?; try done
    end; injection E as <-.
  all: try (rewrite <- Hq at 1; rewrite <- Hb; apply Hup; cbn; auto; by destruct (truth v)).
  - rewrite <- Hq at 1. rewrite <- Hb. unfold truth.
    destruct (Z.eqb_spec v 0); cbn [negb]; [apply Hup; cbn; auto; done|].
    assert (v = 1) by (destruct Hval; tauto). apply Hup; cbn; auto; try done.
  - rewrite <- Hq at 1. apply Hup; cbn; auto; try done. by destruct (bool_decide _).
  - rewrite <- Hb. apply Hup; cbn; auto; try done. by destruct (ch i), (bool_decide (st i = _)).
  - rewrite <- Hq at 1. rewrite <- Hb. apply Hup; cbn; auto; try done. by destruct (bool_decide (st i = SLEEPING)).
  - rewrite <- Hb. apply Hup; cbn; auto; try done.
  - rewrite <- Hq at 1. apply Hup; cbn; auto; try done.
  - by apply Hwake.
Qed.

Lemma sl_reach_inv s : reach sl_init sl_step s → sl_inv s.
Proof. apply reach_inv; [apply sl_inv_init|]. intros s0 s' HI [i E]. by eapply sl_inv_next. Qed.

(** ** The functions on their own *)

(** Process [i] (record [x]) runs on processor [c], outside critical sections. *)
Record in_proc (k : kernel) (c i : nat) (x : proc) : Prop := {
  ip_at : cpu_at k.(hw) c 0;
  ip_runs : runs k.(hw) c i;
  ip_proc : k.(pt).(procs) !! i = Some x;
  ip_len : length k.(pt).(procs) = NPROC;
}.

Lemma mypid_ok k c n i x :
  cpu_at k.(hw) c n → n < 1000 → runs k.(hw) c i → k.(pt).(procs) !! i = Some x →
  mypid k = Ok x.(pid) (set_hw (touch c k.(hw)) k).
Proof.
  intros Hat Hn Hr Hx. unfold mypid. mstep by (by eapply curproc_ok). mstep by (by apply proc_get_ok). done.
Qed.

Definition upd_sl (s : slid) (v : sleeplock) (k : kernel) : kernel :=
  set_fs (set_slocks (<[s := v]> k.(fs).(slocks)) k.(fs)) k.

Lemma sl_upd_eff s f k : sl_upd s f k = Ok tt (upd_sl s (f (k.(fs).(slocks) s)) k).
Proof. done. Qed.

Lemma upd_sl_twice s v w k : upd_sl s v (upd_sl s w k) = upd_sl s v k.
Proof. unfold upd_sl. cbn. by rewrite fn_insert_insert. Qed.

Lemma upd_sl_same s v k : (upd_sl s v k).(fs).(slocks) s = v.
Proof. unfold upd_sl. cbn. by rewrite fn_lookup_insert. Qed.

(** A free sleep lock is taken. *)
Lemma acquiresleep_ok k c i x s :
  in_proc k c i x → lk_free k.(hw) (LSleep s) → (k.(fs).(slocks) s).(sl_locked) = 0 →
  acquiresleep s k =
    Ok tt (set_hw (touch c k.(hw)) (upd_sl s (mk_sleeplock 1 (k.(fs).(slocks) s).(sl_name) x.(pid)) k)).
Proof.
  intros [Hat Hr Hx _] Hf H0. unfold acquiresleep, acquiresleep_loop.
  pose proof (acq_at _ _ _ (LSleep s) Hat) as Hat1.
  mstep by (eapply acquire_ok; [done|lia|done]). mstep.
  change (slocks (fs (set_hw _ k)) s) with (k.(fs).(slocks) s). rewrite H0. cbn [truth Z.eqb negb].
  mstep by apply sl_upd_eff.
  mstep by (eapply (mypid_ok _ c 1 i x); [exact Hat1|lia|by apply runs_acq|exact Hx]).
  change (hw (upd_sl _ _ (set_hw ?h k))) with h. rewrite (touch_cs _ _ _ Hat1) by lia.
  mstep by apply sl_upd_eff. set (v := set_sl_pid _ _).
  assert (Ev : v = mk_sleeplock 1 (k.(fs).(slocks) s).(sl_name) x.(pid)).
  { unfold v. change (slocks (fs (set_hw ?h ?g)) s) with (slocks (fs g) s). by rewrite upd_sl_same. }
  rewrite Ev. clear v Ev.
  change (upd_sl s ?v (set_hw ?h (upd_sl s ?w (set_hw ?h2 k)))) with (set_hw h (upd_sl s v (upd_sl s w k))).
  rewrite upd_sl_twice. by apply (release_acquired _ _ 0).
Qed.

(** A sleep lock that is taken puts the process to sleep on it. *)
Lemma acquiresleep_blocks k c i x s :
  in_proc k c i x → lk_free k.(hw) (LSleep s) → lk_free k.(hw) LPtable →
  truth (k.(fs).(slocks) s).(sl_locked) = true →
  ∃ h y, acquiresleep s k = Swtch (upd_proc i y (set_hw h k)) ∧
    y.(state) = SLEEPING ∧ y.(chan) = ChSleep s ∧ lk_mine h c LPtable ∧ lk_free h (LSleep s).
Proof.
  intros [Hat Hr Hx _] Hf Hpt H1. unfold acquiresleep, acquiresleep_loop.
  mstep by (eapply acquire_ok; [done|lia|done]). mstep.
  change (slocks (fs (set_hw _ k)) s) with (k.(fs).(slocks) s). rewrite H1.
  destruct (sleep_ok (set_hw (acq_hw c (LSleep s) k.(hw)) k) c i x (ChSleep s) (LSleep s)) as (E & Hm & Hfr & _).
  - done.
  - by apply (acq_at _ _ 0).
  - apply acq_mine.
  - unfold lk_free. cbn [hw set_hw]. by rewrite acq_other.
  - by apply runs_acq.
  - done.
  - rewrite E. eexists _, _. split_and!; [reflexivity|done|done|exact Hm|exact Hfr].
Qed.

Lemma releasesleep_ok k c n s :
  cpu_at k.(hw) c n → n < 800 → lk_free k.(hw) (LSleep s) → lk_free k.(hw) LPtable →
  length k.(pt).(procs) = NPROC →
  releasesleep s k = Ok tt (set_hw (touch c k.(hw)) (upd_sl s (mk_sleeplock 0 (k.(fs).(slocks) s).(sl_name) 0)
    (set_pt (set_procs (wake (ChSleep s) <$> k.(pt).(procs)) k.(pt)) k))).
Proof.
  intros Hat Hn Hf Hpt Hl. pose proof (cpu_at_nonneg _ _ _ Hat) as H0. unfold releasesleep.
  pose proof (acq_at _ _ _ (LSleep s) Hat) as Hat1.
  mstep by (eapply acquire_ok; [done|lia|done]). mstep by apply sl_upd_eff. mstep by apply sl_upd_eff.
  rewrite upd_sl_same, upd_sl_twice.
  mstep by (eapply (wakeup_ok _ c (n + 1)); [exact Hat1|lia| |exact Hl];
            unfold lk_free; cbn [hw set_hw upd_sl set_fs]; by rewrite acq_other).
  change (hw (upd_sl _ _ (set_hw ?h k))) with h. rewrite (touch_cs _ _ _ Hat1) by lia.
  apply (release_acquired _ _ n _ (upd_sl s _ (set_pt _ k))); [done|lia|done].
Qed.

Lemma holdingsleep_ok k c i x s :
  in_proc k c i x → lk_free k.(hw) (LSleep s) →
  holdingsleep s k = Ok (truth (k.(fs).(slocks) s).(sl_locked) && ((k.(fs).(slocks) s).(sl_pid) =? x.(pid)))
                        (set_hw (touch c k.(hw)) k).
Proof.
  intros [Hat Hr Hx _] Hf. unfold holdingsleep. pose proof (acq_at _ _ _ (LSleep s) Hat) as Hat1.
  mstep by (eapply acquire_ok; [done|lia|done]). mstep.
  change (slocks (fs (set_hw _ k)) s) with (k.(fs).(slocks) s). set (l := k.(fs).(slocks) s).
  rewrite (bind_Ok _ _ _ (truth l.(sl_locked) && (l.(sl_pid) =? x.(pid))) (set_hw (acq_hw c (LSleep s) k.(hw)) k)).
  2:{ destruct (truth _); [|done].
      mstep by (eapply (mypid_ok _ c 1 i x); [exact Hat1|lia|by apply runs_acq|exact Hx]).
      change (hw (set_hw ?h k)) with h. by rewrite (touch_cs _ _ _ Hat1) by lia. }
  mstep by (by apply (release_acquired _ _ 0 _ k)). done.
Qed.

(** ** Properties *)

(** C10: in every interleaving, at most one process is between lk->locked = 1
    in acquiresleep() and lk->locked = 0 in releasesleep(). *)
Theorem sleeplock_mutual_exclusion s i j :
  reach sl_init sl_step s → holds_sl (s.(z_pc) i) → holds_sl (s.(z_pc) j) → i = j.
Proof. intros Hr. apply si_one. by apply sl_reach_inv. Qed.

(** Runs the given processes in order; a blocked one does not move. *)
Definition sl_run (l : list nat) (s : sl_sys) : sl_sys := foldl (λ s i, default s (sl_next i s)) s l.

Definition sl_start : sl_sys := mk_sl_sys 0 None None (λ _, SIdle) (λ _, RUNNING) (λ _, false).

Lemma sl_run_reach l : reach sl_init sl_step (sl_run l sl_start).
Proof.
  unfold sl_run. assert (Hgen : ∀ s, reach sl_init sl_step s → reach sl_init sl_step (foldl (λ s i, default s (sl_next i s)) s l)).
  { induction l as [|i l IH]; intros s Hs; [done|]. cbn. apply IH.
    destruct (sl_next i s) as [s'|] eqn:E; [|done]. eapply reach_step; [done|]. by exists i. }
  apply Hgen, reach_init. by split_and!.
Qed.

(** Process 0 holds the lock, process 1 has gone to sleep on it. *)
Definition sl_contended : sl_sys :=
  sl_run [0; 0; 0; 0; 1; 1; 1; 1; 1; 1; 1; 1]%nat sl_start.

Lemma sleeplock_mutual_exclusion_witness :
  holds_sl (sl_contended.(z_pc) 0%nat) ∧ (∀ j, holds_sl (sl_contended.(z_pc) j) → 0%nat = j).
Proof.
  split; [vm_compute; exact I|]. intros j.
  apply (sleeplock_mutual_exclusion sl_contended 0 j); [apply sl_run_reach|vm_compute; exact I].
Defined.

(** C11: no wakeup is lost: whenever a process sleeps on the lock, the lock
    is taken or some process in releasesleep() is still on its way to wake the
    sleepers. *)
Theorem sleeplock_no_lost_wakeup s i :
  reach sl_init sl_step s → s.(z_st) i = SLEEPING →
  s.(z_locked) = 1 ∨ ∃ j, s.(z_pc) j = RPt ∨ s.(z_pc) j = RWake.
Proof.
  intros Hr%sl_reach_inv Hs. pose proof (si_st _ Hr i) as Hst. rewrite Hs in Hst.
  destruct (si_wake _ Hr i) as [?|[j Hj]].
  - rewrite Hs. destruct (z_pc s i); cbn in *; done.
  - by left.
  - right. exists j. destruct (z_pc s j); cbn in Hj; auto; done.
Qed.

Lemma sleeplock_no_lost_wakeup_witness :
  sl_contended.(z_st) 1%nat = SLEEPING ∧
  (sl_contended.(z_locked) = 1 ∨ ∃ j, sl_contended.(z_pc) j = RPt ∨ sl_contended.(z_pc) j = RWake).
Proof.
  split; [vm_compute; reflexivity|].
  apply (sleeplock_no_lost_wakeup sl_contended 1); [apply sl_run_reach|vm_compute; reflexivity].
Defined.

Lemma holder_moves s j : sl_inv s → has_pt (s.(z_pc) j) → ∃ s', sl_next j s = Some s'.
Proof. intros _ Hj. destruct s; cbn in *. destruct (z_pc0 j); cbn in *; eauto; done. Qed.

Lemma lk_holder_moves s j :
  sl_inv s → has_lk (s.(z_pc) j) → s.(z_pt) = None → ∃ s', sl_next j s = Some s'.
Proof. intros _ Hj Hp. destruct s; cbn in *. subst. destruct (z_pc0 j); cbn in *; eauto; done. Qed.

(** C12: the protocol does not deadlock: as long as some process is inside
    acquiresleep(), its critical section or releasesleep(), some such process
    can take its next step. *)
Theorem sleeplock_progress s i :
  reach sl_init sl_step s → s.(z_pc) i ≠ SIdle →
  ∃ j s', s.(z_pc) j ≠ SIdle ∧ sl_next j s = Some s'.
Proof.
  intros Hr%sl_reach_inv Hi.
  assert (Hpt : ∀ j, has_pt (s.(z_pc) j) → s.(z_pc) j ≠ SIdle) by (by intros j; destruct (z_pc s j)).
  assert (Hlk : ∀ j, has_lk (s.(z_pc) j) → s.(z_pc) j ≠ SIdle) by (by intros j; destruct (z_pc s j)).
  destruct (s.(z_pt)) as [j|] eqn:Ept.
  { apply (si_pt _ Hr) in Ept. destruct (holder_moves s j Hr Ept) as [s' E]. exists j, s'. eauto. }
  destruct (s.(z_lk)) as [j|] eqn:Elk.
  { apply (si_lk _ Hr) in Elk. destruct (lk_holder_moves s j Hr Elk Ept) as [s' E]. exists j, s'. eauto. }
  assert (Hfree : ∀ j, s.(z_pc) j ≠ SIdle → ¬ (s.(z_pc) j = SOut ∧ s.(z_st) j = SLEEPING) → ∃ s', sl_next j s = Some s').
  { intros j Hj Hn. pose proof (si_st _ Hr j) as Hst. destruct s as [v lk pt pc st ch]. cbn in *. subst.
    destruct (pc j); cbn in *; eauto; try done. destruct (st j) eqn:E; cbn in *; eauto; naive_solver. }
  destruct (decide (s.(z_pc) i = SOut ∧ s.(z_st) i = SLEEPING)) as [[Ho Hs]|Hn].
  - destruct (si_wake _ Hr i) as [H1|[j Hj]]; [by rewrite Ho, Hs| |].
    + destruct (si_val _ Hr) as [?|[_ [j Hj]]]; [lia|].
      destruct (Hfree j) as [s' E]; [by destruct (z_pc s j)|by intros [E _]; rewrite E in Hj|].
      exists j, s'. split; [by destruct (z_pc s j)|done].
    + assert (Hlj : s.(z_lk) = Some j) by (apply (si_lk _ Hr); by destruct (z_pc s j)). congruence.
  - destruct (Hfree i Hi Hn) as [s' E]. by exists i, s'.
Qed.

Lemma sleeplock_progress_witness :
  sl_contended.(z_pc) 1%nat ≠ SIdle ∧ ∃ j s', sl_contended.(z_pc) j ≠ SIdle ∧ sl_next j sl_contended = Some s'.
Proof.
  split; [vm_compute; discriminate|].
  apply (sleeplock_progress sl_contended 1); [apply sl_run_reach|vm_compute; discriminate].
Defined.

(** Acquiresleep() of a free lock records the caller's pid,
    holdingsleep() is then true for that process and false for one with
    another pid, and releasesleep() frees the lock and makes every process
    that sleeps on it RUNNABLE; acquiresleep() of a taken lock puts the caller
    to sleep on it with the inner spin lock released. *)
Theorem sleeplock_ops k c i x s :
  in_proc k c i x → lk_free k.(hw) (LSleep s) → lk_free k.(hw) LPtable →
  ((k.(fs).(slocks) s).(sl_locked) = 0 →
     ∃ k1, acquiresleep s k = Ok tt k1 ∧ (k1.(fs).(slocks) s).(sl_locked) = 1 ∧
       (k1.(fs).(slocks) s).(sl_pid) = x.(pid) ∧
       (∃ k2, holdingsleep s k1 = Ok true k2) ∧
       ∃ k3, releasesleep s k1 = Ok tt k3 ∧ (k3.(fs).(slocks) s).(sl_locked) = 0 ∧
         ∀ p, p ∈ k3.(pt).(procs) → ¬ (p.(state) = SLEEPING ∧ p.(chan) = ChSleep s)) ∧
  (truth (k.(fs).(slocks) s).(sl_locked) = true →
     ∃ h y, acquiresleep s k = Swtch (upd_proc i y (set_hw h k)) ∧
       y.(state) = SLEEPING ∧ y.(chan) = ChSleep s ∧ lk_free h (LSleep s)).
Proof.
  intros Hip Hf Hpt. split.
  - intros H0. pose proof (acquiresleep_ok k c i x s Hip Hf H0) as E. set (k1 := set_hw _ (upd_sl s _ k)) in E.
    assert (Hs1 : k1.(fs).(slocks) s = mk_sleeplock 1 (k.(fs).(slocks) s).(sl_name) x.(pid)).
    { apply (upd_sl_same s _ k). }
    assert (Hip1 : in_proc k1 c i x).
    { destruct Hip. split; [by apply cpu_at_touch|by apply runs_touch|done|done]. }
    exists k1. rewrite Hs1. split_and!; [exact E|done|done| |].
    + eexists. rewrite (holdingsleep_ok k1 c i x s Hip1 Hf), Hs1. cbn. by rewrite Z.eqb_refl.
    + eexists. split; [eapply (releasesleep_ok k1 c 0); [apply Hip1|lia|exact Hf|exact Hpt|apply Hip1]|].
      split; [change (fs (set_hw ?h ?g)) with (fs g); by rewrite upd_sl_same|]. cbn.
      intros p (q & -> & _)%list_elem_of_fmap [Hs Hc]. unfold wake in Hs, Hc.
      destruct (bool_decide (q.(state) = SLEEPING) && bool_decide (q.(chan) = ChSleep s)) eqn:Eq; [done|].
      rewrite !bool_decide_true in Eq by done. done.
  - intros H1. destruct (acquiresleep_blocks k c i x s Hip Hf Hpt H1) as (h & y & E & ? & ? & ? & ?). by exists h, y.
Qed.

Lemma demo_in_proc x l :
  (length l < NPROC)%nat → in_proc (demo_running (x :: l)) 0 0 x.
Proof. intros Hl. destruct (demo_caller x l Hl) as [Hat _ Hlen Hr _]. by split. Qed.

Lemma sleeplock_ops_witness :
  let k := demo_running [set_state RUNNING (demo_proc 7 3)] in
  ∃ k1, acquiresleep (SBuf 3) k = Ok tt k1 ∧ (k1.(fs).(slocks) (SBuf 3)).(sl_pid) = 7.
Proof.
  intros k. destruct (sleeplock_ops k 0 0 (set_state RUNNING (demo_proc 7 3)) (SBuf 3)) as [H _].
  - apply demo_in_proc. unfold NPROC. cbn. lia.
  - by split.
  - by split.
  - destruct H as (k1 & E & _ & Hp & _); [reflexivity|]. exists k1. split; assumption.
Defined.
