(* ===== verification/Vm.v ===== *)
(** * vm.c: page tables and user memory

    Page directories and page tables are words of memory: [walkpgdir] reads
    the directory entry at pgdir + 4*PDX(va), the tables it points to are
    reached through P2V. The loops of mappages, allocuvm, deallocuvm, copyuvm
    and copyout run with as many iterations as the addresses they step through
    can take; the lemmas show that this bound is never reached.

    The theory after the definitions describes an address space by the entry
    of each virtual page ([pte]) and by the pages that make up its tables
    ([tables]). *)
From S2P Require Import Prelude.
From S2P Require Import Kernel.
From S2P Require Import Spinlock.
From S2P Require Import Memory.
From S2P Require Import Libstr.
From S2P Require Import Cprintf.
From S2P Require Import Kalloc.
From S2P Require Import Sched.

(** ** vm.c *)

Definition walkpgdir (pgdir va : Z) (alloc : bool) : K Z :=
  let pde_a := u32 (pgdir + 4 * PDX va) in
  pde ← ld32 pde_a;
  if truth (Z.land pde PTE_P) then
    let pgtab := P2V (PTE_ADDR pde) in
    mret (u32 (pgtab + 4 * PTX va))
  else if negb alloc then mret 0 else
  pgtab ← kalloc;
  if pgtab =? 0 then mret 0 else
  memset pgtab 0 PGSIZE;;
  st32 pde_a (Z.lor (Z.lor (Z.lor (V2P pgtab) PTE_P) PTE_W) PTE_U);;
  mret (u32 (pgtab + 4 * PTX va)).

(** The body of the loop of mappages(); [inr] is the value returned. *)
Definition mappages_turn (pgdir last perm : Z) (l : Z * Z) : K (Z * Z + Z) :=
  let '(a, pa) := l in
  pte ← walkpgdir pgdir a true;
  if pte =? 0 then mret (inr (-1)) else
  v ← ld32 pte;
  if truth (Z.land v PTE_P) then panic "remap" else
  st32 pte (Z.lor (Z.lor pa (u32 perm)) PTE_P);;
  if a =? last then mret (inr 0) else
  mret (inl (u32 (a + PGSIZE), u32 (pa + PGSIZE))).

Definition mappages (pgdir va size pa perm : Z) : K Z :=
  let a := PGROUNDDOWN va in
  let last := PGROUNDDOWN (u32 (u32 va + size - 1)) in
  while_fuel (Z.to_nat (u32 (last - a) / PGSIZE + 1)) (mappages_turn pgdir last perm) (a, pa).

Definition deallocuvm_turn (pgdir oldsz newsz a : Z) : K (Z + Z) :=
  if negb (a <? oldsz) then mret (inr newsz) else
  pte ← walkpgdir pgdir a false;
  if pte =? 0 then
    let a' := u32 (PGADDR (PDX a + 1) 0 0 - PGSIZE) in
    mret (inl (u32 (a' + PGSIZE)))
  else
  v ← ld32 pte;
  (if negb (Z.land v PTE_P =? 0) then
     let pa := PTE_ADDR v in
     if pa =? 0 then panic "kfree" else
     kfree (P2V pa);;
     st32 pte 0
   else mret tt);;
  mret (inl (u32 (a + PGSIZE))).

Definition deallocuvm (pgdir oldsz newsz : Z) : K Z :=
  if oldsz <=? newsz then mret oldsz else
  let a := PGROUNDUP newsz in
  while_fuel (Z.to_nat ((oldsz - a) / PGSIZE + 2)) (deallocuvm_turn pgdir oldsz newsz) a.

(** The body of the loop of freevm(). *)
Definition free_table (pd : Z) (i : nat) (_ : unit) : K unit :=
  e ← ld32 (u32 (pd + 4 * Z.of_nat i));
  when (truth (Z.land e PTE_P)) (kfree (P2V (PTE_ADDR e))).

Definition freevm (pgdir_ : Z) : K unit :=
  if pgdir_ =? 0 then panic "freevm: no pgdir" else
  deallocuvm pgdir_ KERNBASE 0;;
  for_acc (Z.to_nat NPDENTRIES) 0 (free_table pgdir_) tt;;
  kfree pgdir_.

(** struct kmap: virt, phys_start, phys_end, perm. *)
Definition kmap (data : Z) : list (Z * Z * Z * Z) :=
  [ (KERNBASE, 0, EXTMEM, PTE_W);
    (KERNLINK, V2P KERNLINK, V2P data, 0);
    (data, V2P data, PHYSTOP, PTE_W);
    (DEVSPACE, DEVSPACE, 0, PTE_W) ].

(** The loop over kmap; false when mappages() failed. *)
Fixpoint kmap_loop (pgdir_ : Z) (l : list (Z * Z * Z * Z)) : K bool :=
  match l with
  | [] => mret true
  | (virt, phys_start, phys_end, perm) :: l' =>
      r ← mappages pgdir_ virt (u32 (phys_end - phys_start)) phys_start perm;
      if r <? 0 then mret false else kmap_loop pgdir_ l'
  end.

Definition setupkvm : K Z :=
  pgdir_ ← kalloc;
  if pgdir_ =? 0 then mret 0 else
  memset pgdir_ 0 PGSIZE;;
  if DEVSPACE <? P2V PHYSTOP then panic "PHYSTOP too high" else
  data ← get kdata;
  ok ← kmap_loop pgdir_ (kmap data);
  if (ok : bool) then mret pgdir_ else
  freevm pgdir_;;
  mret 0.

Definition kvmalloc : K unit :=
  p ← setupkvm;
  modify (set_kpgdir p);;
  switchkvm.

Definition inituvm (pgdir_ init sz_ : Z) : K unit :=
  if PGSIZE <=? sz_ then panic "inituvm: more than a page" else
  mem_ ← kalloc;
  memset mem_ 0 PGSIZE;;
  mappages pgdir_ 0 PGSIZE (V2P mem_) (Z.lor PTE_W PTE_U);;
  memmove mem_ init sz_;;
  mret tt.

Definition allocuvm_turn (pgdir_ oldsz newsz a : Z) : K (Z + Z) :=
  if negb (a <? newsz) then mret (inr newsz) else
  mem_ ← kalloc;
  if mem_ =? 0 then
    cprintf ("allocuvm out of memory" +:+ nl) [];;
    deallocuvm pgdir_ newsz oldsz;;
    mret (inr 0)
  else
  memset mem_ 0 PGSIZE;;
  r ← mappages pgdir_ a PGSIZE (V2P mem_) (Z.lor PTE_W PTE_U);
  if r <? 0 then
    cprintf ("allocuvm out of memory (2)" +:+ nl) [];;
    deallocuvm pgdir_ newsz oldsz;;
    kfree mem_;;
    mret (inr 0)
  else mret (inl (u32 (a + PGSIZE))).

Definition allocuvm (pgdir_ oldsz newsz : Z) : K Z :=
  if KERNBASE <=? newsz then mret 0 else
  if newsz <? oldsz then mret oldsz else
  let a := PGROUNDUP oldsz in
  while_fuel (Z.to_nat ((newsz - a) / PGSIZE + 2)) (allocuvm_turn pgdir_ oldsz newsz) a.

Definition clearpteu (pgdir_ uva : Z) : K unit :=
  pte ← walkpgdir pgdir_ uva false;
  if pte =? 0 then panic "clearpteu" else
  v ← ld32 pte;
  st32 pte (Z.land v (u32 (Z.lnot PTE_U))).

(** The body of the loop of copyuvm(): the next i, or [inr] with whether the
    whole range was copied. *)
Definition copyuvm_turn (pgdir_ d sz_ i : Z) : K (Z + bool) :=
  if negb (i <? sz_) then mret (inr true) else
  pte ← walkpgdir pgdir_ i false;
  if pte =? 0 then panic "copyuvm: pte should exist" else
  v ← ld32 pte;
  if Z.land v PTE_P =? 0 then panic "copyuvm: page not present" else
  let pa := PTE_ADDR v in
  let flags := PTE_FLAGS v in
  mem_ ← kalloc;
  if mem_ =? 0 then mret (inr false) else
  memmove mem_ (P2V pa) PGSIZE;;
  r ← mappages d i PGSIZE (V2P mem_) flags;
  if r <? 0 then kfree mem_;; mret (inr false)
  else mret (inl (u32 (i + PGSIZE))).

Definition copyuvm (pgdir_ sz_ : Z) : K Z :=
  d ← setupkvm;
  if d =? 0 then mret 0 else
  ok ← while_fuel (Z.to_nat (sz_ / PGSIZE + 2)) (copyuvm_turn pgdir_ d sz_) 0;
  if (ok : bool) then mret d else
  freevm d;;
  mret 0.

(** *pte is read without a test for a null pte: the load at address 0 goes
    through the current page table. *)
Definition uva2ka (pgdir_ uva : Z) : K Z :=
  pte ← walkpgdir pgdir_ uva false;
  v ← ld32 pte;
  if Z.land v PTE_P =? 0 then mret 0 else
  v' ← ld32 pte;
  if Z.land v' PTE_U =? 0 then mret 0 else
  v'' ← ld32 pte;
  mret (P2V (PTE_ADDR v'')).

Definition copyout_turn (pgdir_ : Z) (l : Z * Z * Z) : K ((Z * Z * Z) + Z) :=
  let '(va, buf_, len) := l in
  if len =? 0 then mret (inr 0) else
  let va0 := PGROUNDDOWN va in
  pa0 ← uva2ka pgdir_ va0;
  if pa0 =? 0 then mret (inr (-1)) else
  let n := Z.min (u32 (PGSIZE - (va - va0))) len in
  memmove (u32 (pa0 + (va - va0))) buf_ n;;
  mret (inl (u32 (va0 + PGSIZE), u32 (buf_ + n), len - n)).

Definition copyout (pgdir_ va p len : Z) : K Z :=
  while_fuel (Z.to_nat (len / PGSIZE + 3)) (copyout_turn pgdir_) (va, p, len).

(** ** Pages of memory *)

(** A page-aligned page of the address space. *)
Definition aligned (p : Z) : Prop := p `mod` PGSIZE = 0 ∧ KERNBASE <= p ∧ p + PGSIZE <= 2 ^ 32.

Lemma aligned_apart p q : aligned p → aligned q → p ≠ q → p + PGSIZE <= q ∨ q + PGSIZE <= p.
Proof.
  unfold aligned, PGSIZE. intros (Hp & _) (Hq & _) Hne. Z.to_euclidean_division_equations. nia.
Qed.

Lemma page_aligned e p : KERNBASE < e → page_ok e p → aligned p.
Proof. unfold page_ok, aligned, PGSIZE, PHYSTOP, KERNBASE. lia. Qed.

(** The two memories agree on page [p]. *)
Definition same_on (m m' : Z → Z) (p : Z) : Prop :=
  ∀ i, 0 <= i < PGSIZE → rd m' (p + i) = rd m (p + i).

(** The two memories agree on every page outside [S]. *)
Definition unch (S : Z → Prop) (m m' : Z → Z) : Prop := ∀ p, aligned p → ¬ S p → same_on m m' p.

Lemma unch_refl S m : unch S m m.
Proof. done. Qed.

Lemma unch_trans (S1 S2 S : Z → Prop) m1 m2 m3 :
  unch S1 m1 m2 → unch S2 m2 m3 → (∀ p, S1 p → S p) → (∀ p, S2 p → S p) → unch S m1 m3.
Proof.
  intros H1 H2 HS1 HS2 p Ha Hp i Hi. rewrite (H2 p Ha); [apply (H1 p Ha)|..]; eauto.
Qed.

Lemma unch_mono (S1 S : Z → Prop) m m' : unch S1 m m' → (∀ p, S1 p → S p) → unch S m m'.
Proof. intros H HS p Ha Hp. apply H; eauto. Qed.

(** A change of bytes inside page [p] only. *)
Lemma unch_page m m' p :
  aligned p → (∀ a, is_u32 a → ¬ p <= a < p + PGSIZE → rd m' a = rd m a) → unch (λ q, q = p) m m'.
Proof.
  intros Hp Hm q Hq Hne i Hi. apply Hm.
  - unfold aligned, KERNBASE, PGSIZE, is_u32 in *. lia.
  - destruct (aligned_apart p q); [done|done|done|lia|lia].
Qed.

Lemma unch_wr32 p i v m : aligned p → 0 <= i < 1024 → unch (λ q, q = p) m (wr32 (p + 4 * i) v m).
Proof.
  intros Hp Hi. apply unch_page; [done|]. intros a Ha Hn. apply rd_wr32_ne; [|done|unfold PGSIZE in *; lia].
  unfold aligned, kaddr, PGSIZE, KERNBASE in *. lia.
Qed.

Lemma unch_fillm p v m : aligned p → unch (λ q, q = p) m (fillm p PGSIZE v m).
Proof.
  intros Hp. apply unch_page; [done|]. intros a Ha Hn. rewrite !rd_val by done. unfold fillm.
  inside_cases; [lia|done].
Qed.

Lemma unch_copym p s m : aligned p → unch (λ q, q = p) m (copym p s PGSIZE m).
Proof.
  intros Hp. apply unch_page; [done|]. intros a Ha Hn. rewrite !rd_val by done. unfold copym.
  inside_cases; [lia|done].
Qed.

Lemma rd_copym p s m i :
  aligned p → aligned s → 0 <= i < PGSIZE → rd (copym p s PGSIZE m) (p + i) = rd m (s + i).
Proof.
  intros Hp Hs Hi. rewrite !rd_val by (unfold aligned, KERNBASE, is_u32, PGSIZE in *; lia). unfold copym.
  inside_cases; [|lia]. rewrite u8_small by apply u8_range. do 2 f_equal. lia.
Qed.

Lemma same_on_rd32 m m' p i :
  same_on m m' p → 0 <= i < 1024 → rd32 m' (p + 4 * i) = rd32 m (p + 4 * i).
Proof.
  intros H Hi. apply rd32_ext. intros j Hj. rewrite <- !Z.add_assoc. apply H. unfold PGSIZE. lia.
Qed.

Lemma word_kaddr p i : aligned p → 0 <= i < 1024 → kaddr (p + 4 * i) 4.
Proof. unfold aligned, kaddr, PGSIZE, KERNBASE. lia. Qed.

Lemma rd32_wr32_page p i j v m :
  aligned p → 0 <= i < 1024 → 0 <= j < 1024 → is_u32 v →
  rd32 (wr32 (p + 4 * i) v m) (p + 4 * j) = if decide (j = i) then v else rd32 m (p + 4 * j).
Proof.
  intros Hp Hi Hj Hv. pose proof (word_kaddr p i Hp Hi). pose proof (word_kaddr p j Hp Hj).
  destruct (decide (j = i)) as [->|]; [by apply rd32_wr32_eq|]. apply rd32_wr32_ne; [done|done|lia].
Qed.

Lemma rd32_fill0 p i m : aligned p → 0 <= i < 1024 → rd32 (fillm p PGSIZE 0 m) (p + 4 * i) = 0.
Proof.
  intros Hp Hi. unfold rd32. assert (Hz : ∀ j, 0 <= j < PGSIZE → rd (fillm p PGSIZE 0 m) (p + j) = 0).
  { intros j Hj. rewrite rd_val by (unfold aligned, KERNBASE, is_u32 in *; lia).
    unfold fillm. inside_cases; [done|lia]. }
  rewrite <- !Z.add_assoc. by rewrite !Hz by (unfold PGSIZE; lia).
Qed.

(** ** Address spaces *)

Lemma PDX_div va : is_u32 va → PDX va = va / 4096 / 1024.
Proof.
  intros Hv. unfold PDX, PDXSHIFT. rewrite (u32_small va Hv). change 0x3FF with (Z.ones 10).
  rewrite Z.land_ones, Z.shiftr_div_pow2 by lia. rewrite Z.div_div by lia.
  apply Z.mod_small. unfold is_u32 in Hv. Z.to_euclidean_division_equations. lia.
Qed.

Lemma PTX_div va : is_u32 va → PTX va = (va / 4096) `mod` 1024.
Proof.
  intros Hv. unfold PTX, PTXSHIFT. rewrite (u32_small va Hv). change 0x3FF with (Z.ones 10).
  by rewrite Z.land_ones, Z.shiftr_div_pow2 by lia.
Qed.

Lemma vpn_index v : 0 <= v < 2 ^ 20 → 0 <= v / 1024 < 1024 ∧ 0 <= v `mod` 1024 < 1024.
Proof. intros. Z.to_euclidean_division_equations. lia. Qed.

Lemma va_vpn va : is_u32 va → 0 <= va / 4096 < 2 ^ 20.
Proof. unfold is_u32. intros. Z.to_euclidean_division_equations. lia. Qed.

(** The page table that entry [d] of the directory [pd] points to. *)
Definition table_of (m : Z → Z) (pd d : Z) : option Z :=
  let pde := rd32 m (pd + 4 * d) in
  if truth (Z.land pde PTE_P) then Some (P2V (PTE_ADDR pde)) else None.

(** The page-table entry of virtual page [v]; 0 where there is no table. *)
Definition pte (m : Z → Z) (pd v : Z) : Z :=
  match table_of m pd (v / 1024) with
  | Some t => rd32 m (t + 4 * (v `mod` 1024))
  | None => 0
  end.

Definition present (e : Z) : bool := truth (Z.land e PTE_P).

(** The directory and its tables are distinct managed pages. *)
Record space (e : Z) (m : Z → Z) (pd : Z) : Prop := {
  vs_pd : page_ok e pd;
  vs_tab : ∀ d t, 0 <= d < 1024 → table_of m pd d = Some t → page_ok e t ∧ t ≠ pd;
  vs_inj : ∀ d d' t, 0 <= d < 1024 → 0 <= d' < 1024 →
             table_of m pd d = Some t → table_of m pd d' = Some t → d = d';
}.

(** The pages of the directory and its tables. *)
Definition tables (m : Z → Z) (pd p : Z) : Prop :=
  p = pd ∨ ∃ d, 0 <= d < 1024 ∧ table_of m pd d = Some p.

Lemma table_of_unch S m m' pd d :
  unch S m m' → aligned pd → ¬ S pd → 0 <= d < 1024 → table_of m' pd d = table_of m pd d.
Proof. intros Hm Ha Hp Hd. unfold table_of. by rewrite (same_on_rd32 m m') by auto. Qed.

Section unchanged.
  Context (e : Z) (m m' : Z → Z) (pd : Z) (S : Z → Prop).
  Hypothesis He : KERNBASE < e.
  Hypothesis Hsp : space e m pd.
  Hypothesis Hm : unch S m m'.
  Hypothesis HS : ∀ p, tables m pd p → ¬ S p.

Lemma tables_aligned p : tables m pd p → aligned p.
Proof using He Hsp.
  clear HS. intros [->|(d & Hd & Ht)]; eapply page_aligned; try done; [apply Hsp|].
  by eapply (vs_tab _ _ _ Hsp d).
Qed.

Lemma table_of_same d : 0 <= d < 1024 → table_of m' pd d = table_of m pd d.
Proof using He Hsp Hm HS.
  intros Hd. eapply table_of_unch; [done|apply tables_aligned; by left|apply HS; by left|done].
Qed.

Lemma pte_same v : 0 <= v < 2 ^ 20 → pte m' pd v = pte m pd v.
Proof using He Hsp Hm HS.
  intros Hv. destruct (vpn_index v Hv) as [Hd Ht]. unfold pte. rewrite table_of_same by done.
  destruct (table_of m pd (v / 1024)) as [t|] eqn:E; [|done].
  assert (Htab : tables m pd t) by (right; by exists (v / 1024)).
  apply same_on_rd32; [|done]. apply Hm; [by apply tables_aligned|by apply HS].
Qed.

Lemma space_same : space e m' pd.
Proof using He Hsp Hm HS.
  destruct Hsp as [Hpd Htab Hinj]. split; [done| |].
  - intros d t Hd. rewrite table_of_same by done. by apply Htab.
  - intros d d' t Hd Hd'. rewrite !table_of_same by done. by apply Hinj.
Qed.

Lemma tables_same p : tables m' pd p ↔ tables m pd p.
Proof using He Hsp Hm HS.
  unfold tables. split; (intros [->|(d & Hd & Ht)]; [by left|right]; exists d; split; [done|]).
  - by rewrite table_of_same in Ht.
  - by rewrite table_of_same.
Qed.
End unchanged.

(** ** Page-table entries *)

Lemma lor_page pa f : pa `mod` 4096 = 0 → 0 <= f < 4096 → Z.lor pa f = pa + f.
Proof.
  intros Hp Hf. symmetry. rewrite <- Z.lxor_lor, Z.add_nocarry_lxor; [done|..].
  all: apply Z.bits_inj'; intros n Hn; rewrite Z.land_spec, Z.bits_0.
  all: replace pa with (pa / 4096 * 2 ^ 12) by (pose proof (Z.div_mod pa 4096 ltac:(lia)); lia).
  all: destruct (decide (n < 12)); [by rewrite Z.mul_pow2_bits_low by lia|].
  all: rewrite <- (Z.mod_small f (2 ^ 12)), Z.mod_pow2_bits_high, andb_false_r by lia; done.
Qed.

(** An entry made of a page address and flag bits. *)
Lemma entry_fields pa f :
  pa `mod` 4096 = 0 → is_u32 pa → 0 <= f < 4096 →
  is_u32 (pa + f) ∧ PTE_ADDR (pa + f) = pa ∧ PTE_FLAGS (pa + f) = f ∧
  present (pa + f) = Z.odd f.
Proof.
  intros Hp Hu Hf. assert (Hr : is_u32 (pa + f)).
  { unfold is_u32 in *. change (2 ^ 32) with (1048576 * 4096) in *. Z.to_euclidean_division_equations. lia. }
  split_and!; [done|rewrite PTE_ADDR_div|rewrite PTE_FLAGS_mod|]; rewrite ?(u32_small _ Hr).
  - Z.to_euclidean_division_equations. lia.
  - Z.to_euclidean_division_equations. lia.
  - unfold present, truth, PTE_P. change 1 with (Z.ones 1). rewrite Z.land_ones by lia. change (2 ^ 1) with 2.
    rewrite Zmod_odd.
    replace (Z.odd (pa + f)) with (Z.odd f); [by destruct (Z.odd f)|].
    rewrite Z.odd_add. replace (Z.odd pa) with false; [done|].
    symmetry. replace pa with (2 * (2048 * (pa / 4096))) by (pose proof (Z.div_mod pa 4096 ltac:(lia)); lia).
    apply Z.odd_mul.
Qed.

Lemma V2P_page e p : KERNBASE < e → page_ok e p →
  V2P p = p - KERNBASE ∧ is_u32 (V2P p) ∧ V2P p `mod` 4096 = 0 ∧ P2V (V2P p) = p.
Proof.
  intros He (Hm & Hlo & Hhi). unfold KERNBASE, PGSIZE, PHYSTOP in *.
  assert (EV : V2P p = p - 2147483648) by (apply u32_small; unfold is_u32; lia).
  rewrite EV. split; [done|]. split; [unfold is_u32; lia|]. split.
  - Z.to_euclidean_division_equations. lia.
  - unfold P2V, KERNBASE. replace (p - 2147483648 + 2147483648) with p by lia.
    apply u32_small. unfold is_u32. lia.
Qed.

(** V2P(p) | flags, as an entry: its page, its flags. *)
Lemma entry_page e p f :
  KERNBASE < e → page_ok e p → 0 <= f < 4096 → Z.odd f = true →
  let en := Z.lor (V2P p) f in
  is_u32 en ∧ present en = true ∧ P2V (PTE_ADDR en) = p ∧ PTE_FLAGS en = f.
Proof.
  intros He Hp Hf Ho. destruct (V2P_page e p He Hp) as (_ & Hu & Hm & Hv). cbv zeta.
  rewrite lor_page by done. destruct (entry_fields (V2P p) f Hm Hu Hf) as (? & -> & -> & ->).
  by rewrite Hv.
Qed.

(** ** Writing entries *)

Section write_entry.
  Context (e : Z) (m : Z → Z) (pd : Z).
  Hypothesis He : KERNBASE < e.
  Hypothesis Hsp : space e m pd.

(** A page table that has just been allocated: no entry changes. *)
Lemma new_table d t f :
  0 <= d < 1024 → table_of m pd d = None → page_ok e t → ¬ tables m pd t →
  0 <= f < 4096 → Z.odd f = true →
  let m' := wr32 (pd + 4 * d) (Z.lor (V2P t) f) (fillm t PGSIZE 0 m) in
  table_of m' pd d = Some t ∧ space e m' pd ∧ (∀ v, 0 <= v < 2 ^ 20 → pte m' pd v = pte m pd v) ∧
  unch (λ q, q = pd ∨ q = t) m m' ∧ (∀ p, tables m' pd p ↔ tables m pd p ∨ p = t) ∧
  (∀ d', 0 <= d' < 1024 → d' ≠ d → table_of m' pd d' = table_of m pd d').
Proof using He Hsp.
  intros Hd Hnone Ht Hnt Hf Ho m'.
  pose proof (vs_pd _ _ _ Hsp) as Hpd. pose proof (page_aligned _ _ He Hpd) as Hpa.
  pose proof (page_aligned _ _ He Ht) as Hta. assert (Hne : t ≠ pd) by (intros ->; apply Hnt; by left).
  destruct (entry_page e t f He Ht Hf Ho) as (Heu & Hep & Hea & _). set (en := Z.lor (V2P t) f) in *.
  set (m1 := fillm t PGSIZE 0 m) in *.
  assert (Hu1 : unch (λ q, q = t) m m1) by (by apply unch_fillm).
  assert (Hu2 : unch (λ q, q = pd) m1 m') by (by apply unch_wr32).
  assert (Hu : unch (λ q, q = pd ∨ q = t) m m') by (eapply unch_trans; [exact Hu1|exact Hu2|auto|auto]).
  assert (Hto : ∀ d', 0 <= d' < 1024 → table_of m' pd d' = if decide (d' = d) then Some t else table_of m pd d').
  { intros d' Hd'. unfold table_of, m'. rewrite rd32_wr32_page by done.
    destruct (decide (d' = d)) as [->|]; [unfold present in Hep; by rewrite Hep, Hea|].
    by rewrite (same_on_rd32 m m1) by (auto || apply Hu1; auto). }
  assert (Htn : ∀ d' t', 0 <= d' < 1024 → table_of m pd d' = Some t' → t' ≠ t).
  { intros d' t' Hd' E ->. apply Hnt. right. by exists d'. }
  split_and!; [|split| | | |].
  - rewrite Hto by done. by rewrite decide_True.
  - done.
  - intros d' t' Hd'. rewrite Hto by done. destruct (decide (d' = d)); [|by apply Hsp]. intros [= <-]. done.
  - intros d1 d2 t' H1 H2. rewrite !Hto by done.
    destruct (decide (d1 = d)) as [->|], (decide (d2 = d)) as [->|]; [done|..].
    + intros [= <-] E. by destruct (Htn d2 t H2 E).
    + intros E [= <-]. by destruct (Htn d1 t H1 E).
    + by apply Hsp.
  - intros v Hv. destruct (vpn_index v Hv) as [Hvd Hvt]. unfold pte. rewrite Hto by done.
    destruct (decide (v / 1024 = d)) as [E|].
    + rewrite E, Hnone. unfold m'. rewrite (same_on_rd32 m1) by (apply Hu2 || done; done).
      by apply rd32_fill0.
    + destruct (table_of m pd (v / 1024)) as [t'|] eqn:E; [|done].
      destruct (vs_tab _ _ _ Hsp _ _ Hvd E) as [Hpt Hnp]. pose proof (Htn _ _ Hvd E).
      apply same_on_rd32; [|done]. apply Hu; [by eapply page_aligned|]. naive_solver.
  - done.
  - intros p. unfold tables. split.
    + intros [->|(d' & Hd' & E)]; [by left; left|]. rewrite Hto in E by done.
      destruct (decide (d' = d)); [right; congruence|left; right; eauto].
    + intros [[->|(d' & Hd' & E)]| ->]; [by left|right; exists d'|right; exists d]; (split; [done|]).
      * rewrite Hto by done. rewrite decide_False; [done|]. intros ->. congruence.
      * rewrite Hto by done. by rewrite decide_True.
  - intros d' Hd' Hne'. rewrite Hto by done. by rewrite decide_False.
Qed.

(** Storing an entry in an existing table. *)
Lemma set_pte v t x :
  0 <= v < 2 ^ 20 → table_of m pd (v / 1024) = Some t → is_u32 x →
  let m' := wr32 (t + 4 * (v `mod` 1024)) x m in
  space e m' pd ∧ (∀ w, 0 <= w < 2 ^ 20 → pte m' pd w = if decide (w = v) then x else pte m pd w) ∧
  unch (λ q, q = t) m m' ∧ (∀ p, tables m' pd p ↔ tables m pd p) ∧
  (∀ d, 0 <= d < 1024 → table_of m' pd d = table_of m pd d).
Proof using He Hsp.
  intros Hv Ht Hx m'. destruct (vpn_index v Hv) as [Hvd Hvt].
  destruct (vs_tab _ _ _ Hsp _ _ Hvd Ht) as [Htp Htn]. pose proof (page_aligned _ _ He Htp) as Hta.
  assert (Hu : unch (λ q, q = t) m m') by (by apply unch_wr32).
  pose proof (page_aligned _ _ He (vs_pd _ _ _ Hsp)) as Hpa.
  assert (Hto : ∀ d, 0 <= d < 1024 → table_of m' pd d = table_of m pd d).
  { intros d Hd. eapply table_of_unch; [exact Hu|done|by intros ->|done]. }
  split_and!; [split| | | |done].
  - apply Hsp.
  - intros d t' Hd. rewrite Hto by done. by apply Hsp.
  - intros d1 d2 t' H1 H2. rewrite !Hto by done. by apply Hsp.
  - intros w Hw. destruct (vpn_index w Hw) as [Hwd Hwt]. unfold pte. rewrite Hto by done.
    destruct (decide (w = v)) as [->|Hne].
    { rewrite Ht. unfold m'. rewrite rd32_wr32_page by done. by rewrite decide_True. }
    destruct (table_of m pd (w / 1024)) as [t'|] eqn:E; [|done].
    destruct (decide (t' = t)) as [->|Hne'].
    + assert (w / 1024 = v / 1024) by (by eapply (vs_inj _ _ _ Hsp)).
      unfold m'. rewrite rd32_wr32_page by done. rewrite decide_False; [done|].
      intros Hmod. apply Hne. rewrite (Z.div_mod w 1024), (Z.div_mod v 1024) by lia. lia.
    + destruct (vs_tab _ _ _ Hsp _ _ Hwd E) as [Htp' _].
      apply same_on_rd32; [|done]. apply Hu; [by eapply page_aligned|done].
  - done.
  - intros p. unfold tables. split; (intros [->|(d & Hd & E)]; [by left|right]; exists d; split; [done|]).
    + by rewrite Hto in E.
    + by rewrite Hto.
Qed.
End write_entry.

(** ** Walking and mapping *)

(** The allocator and the address space [pd] are in order; [l] is the list of
    free pages. *)
Record vm_ok (k : kernel) (c : nat) (pd : Z) (l : list Z) : Prop := {
  vo_free : free_ok k l;
  vo_ready : kmem_ready k c;
  vo_space : space k.(kend) k.(mem) pd;
  vo_apart : ∀ p, tables k.(mem) pd p → p ∉ l;
}.

(** From [k] to [k'] pages may only have moved between the free list and the
    tables of [pd], and only those pages were written. *)
Record vm_step (c : nat) (pd : Z) (k : kernel) (l : list Z) (k' : kernel) (l' : list Z) : Prop := {
  vst_frame : kmem_frame c k k';
  vst_ok : vm_ok k' c pd l';
  vst_mem : unch (λ q, tables k.(mem) pd q ∨ q ∈ l) k.(mem) k'.(mem);
  vst_pages : ∀ p, tables k'.(mem) pd p ∨ p ∈ l' ↔ tables k.(mem) pd p ∨ p ∈ l;
  vst_dir : ∀ d, 0 <= d < 1024 → is_Some (table_of k.(mem) pd d) →
              table_of k'.(mem) pd d = table_of k.(mem) pd d;
  vst_sub : ∀ p, p ∈ l' → p ∈ l;
}.

Lemma vo_kend k c pd l : vm_ok k c pd l → KERNBASE < k.(kend).
Proof. intros H. apply (fo_end _ _ (vo_free _ _ _ _ H)). Qed.

Lemma vm_step_refl c pd k l : vm_ok k c pd l → vm_step c pd k l k l.
Proof. intros H. split; done. Qed.

Lemma vm_step_trans c pd k1 l1 k2 l2 k3 l3 :
  vm_step c pd k1 l1 k2 l2 → vm_step c pd k2 l2 k3 l3 → vm_step c pd k1 l1 k3 l3.
Proof.
  intros [F1 O1 M1 P1 D1 S1] [F2 O2 M2 P2 D2 S2]. split; [by etrans|done| | | |auto].
  - eapply unch_trans; [exact M1|exact M2|done|]. intros p. apply P1.
  - intros p. by rewrite P2.
  - intros d Hd Hs. rewrite <- (D1 d Hd Hs). apply D2; [done|]. by rewrite D1.
Qed.

(** Writes to pages that are not free do not disturb the free list. *)
Lemma free_ok_mem k l m S :
  free_ok k l → unch S k.(mem) m → (∀ p, p ∈ l → ¬ S p) → free_ok (set_mem m k) l.
Proof.
  intros [Hl Hnd Hpg He] Hu HS. split; [|done|done|done].
  apply (flist_ext k.(mem)); [|done]. intros p Hp.
  assert (Hpp : page_ok k.(kend) p) by (by eapply (proj1 (Forall_forall _ _))).
  rewrite <- (Z.add_0_r p). symmetry. apply (same_on_rd32 _ _ p 0); [|lia].
  apply Hu; [by eapply page_aligned; [apply He|]|auto].
Qed.

Lemma kmem_frame_mem c k k' m : kmem_frame c k k' → kmem_frame c k (set_mem m k').
Proof. intros (h & m0 & f & -> & Hs). by exists h, m, f. Qed.

Lemma vm_ok_mem k c pd l m S :
  vm_ok k c pd l → space k.(kend) m pd → unch S k.(mem) m → (∀ p, p ∈ l → ¬ S p) →
  (∀ p, tables m pd p → p ∉ l) → vm_ok (set_mem m k) c pd l.
Proof.
  intros [Hf Hr Hs Ha] Hsp Hu HS Ht. split; [by eapply free_ok_mem|done|done|done].
Qed.

(** kalloc() beside an address space: it takes the first free page, if any. *)
Lemma vm_kalloc k c pd l :
  vm_ok k c pd l →
  ∃ k', kalloc k = Ok (default 0 (head l)) k' ∧ kmem_frame c k k' ∧ vm_ok k' c pd (tail l) ∧
    k'.(mem) = k.(mem) ∧ k'.(kend) = k.(kend).
Proof.
  intros Hv. destruct (kalloc_ok k c l (vo_free _ _ _ _ Hv) (vo_ready _ _ _ _ Hv)) as (k1 & E1 & Hfr & Hf1 & Hm1).
  pose proof (kmem_frame_kend _ _ _ Hfr) as Hk. exists k1. split_and!; try done.
  split; [done|by eapply kmem_frame_ready; [|apply Hv]|rewrite Hk, Hm1; apply Hv|].
  intros p. rewrite Hm1. intros Hp Hin. apply (vo_apart _ _ _ _ Hv p Hp). destruct l; [done|by right].
Qed.

(** The page kalloc() takes is managed, not null and in no table. *)
Lemma vm_head k c pd p l : vm_ok k c pd (p :: l) →
  page_ok k.(kend) p ∧ p ≠ 0 ∧ ¬ tables k.(mem) pd p ∧ p ∉ l.
Proof.
  intros Hv. pose proof (vo_free _ _ _ _ Hv) as Hf.
  assert (Hp : page_ok k.(kend) p) by (by eapply Forall_inv, fo_pages).
  split_and!; [done|by eapply page_ne0; [apply (vo_kend _ _ _ _ Hv)|]| |].
  - intros Hx. by apply (vo_apart _ _ _ _ Hv p Hx); left.
  - by destruct (proj1 (NoDup_cons _ _) (fo_nodup _ _ Hf)).
Qed.

Lemma pde_addr k c pd l d : vm_ok k c pd l → 0 <= d < 1024 →
  u32 (pd + 4 * d) = pd + 4 * d ∧ kaddr (pd + 4 * d) 4.
Proof.
  intros Hv Hd. pose proof (page_aligned _ _ (vo_kend _ _ _ _ Hv) (vs_pd _ _ _ (vo_space _ _ _ _ Hv))) as Ha.
  pose proof (word_kaddr pd d Ha Hd) as Hk. split; [|done]. by apply (kaddr_0 _ 4).
Qed.

Lemma pte_addr k c pd l d t i :
  vm_ok k c pd l → 0 <= d < 1024 → table_of k.(mem) pd d = Some t → 0 <= i < 1024 →
  u32 (t + 4 * i) = t + 4 * i ∧ kaddr (t + 4 * i) 4 ∧ t + 4 * i ≠ 0.
Proof.
  intros Hv Hd Ht Hi. destruct (vs_tab _ _ _ (vo_space _ _ _ _ Hv) _ _ Hd Ht) as [Hp _].
  pose proof (page_aligned _ _ (vo_kend _ _ _ _ Hv) Hp) as Ha.
  pose proof (word_kaddr t i Ha Hi) as Hk. split_and!; [by apply (kaddr_0 _ 4)|done|].
  unfold kaddr, KERNBASE in Hk. lia.
Qed.

Lemma walk_lookup k c pd l va :
  vm_ok k c pd l → is_u32 va →
  walkpgdir pd va false k =
    Ok (match table_of k.(mem) pd (va / 4096 / 1024) with
        | Some t => t + 4 * ((va / 4096) `mod` 1024) | None => 0 end) k.
Proof.
  intros Hv Hva. destruct (vpn_index _ (va_vpn va Hva)) as [Hd Ht]. unfold walkpgdir.
  rewrite PDX_div, PTX_div by done. destruct (pde_addr _ _ _ _ _ Hv Hd) as [-> Ha].
  mstep by (by apply ld32_kern). unfold table_of.
  destruct (truth (Z.land _ PTE_P)) eqn:E; [|done].
  set (t := P2V _). assert (Et : table_of k.(mem) pd (va / 4096 / 1024) = Some t) by (unfold table_of; by rewrite E).
  by destruct (pte_addr _ _ _ _ _ _ _ Hv Hd Et Ht) as (-> & _).
Qed.

(** walkpgdir() with alloc finds or makes the table; no entry changes. *)
Lemma walk_alloc k c pd l va :
  vm_ok k c pd l → is_u32 va →
  ∃ r k' l', walkpgdir pd va true k = Ok r k' ∧ vm_step c pd k l k' l' ∧
    (∀ w, 0 <= w < 2 ^ 20 → pte k'.(mem) pd w = pte k.(mem) pd w) ∧
    (r = 0 ∧ l = [] ∧ l' = [] ∨
     ∃ t, r = t + 4 * ((va / 4096) `mod` 1024) ∧ table_of k'.(mem) pd (va / 4096 / 1024) = Some t).
Proof.
  intros Hv Hva. destruct (vpn_index _ (va_vpn va Hva)) as [Hd Ht]. unfold walkpgdir.
  rewrite PDX_div, PTX_div by done. destruct (pde_addr _ _ _ _ _ Hv Hd) as [Hu Ha]. rewrite !Hu.
  set (d := va / 4096 / 1024) in *. set (i := (va / 4096) `mod` 1024) in *.
  erewrite bind_Ok by (by apply ld32_kern). cbv beta.
  destruct (truth (Z.land (rd32 k.(mem) (pd + 4 * d)) PTE_P)) eqn:E; cbn [negb].
  { set (t := P2V _). assert (Et : table_of k.(mem) pd d = Some t) by (unfold table_of; by rewrite E).
    destruct (pte_addr _ _ _ _ _ _ _ Hv Hd Et Ht) as (-> & _).
    exists (t + 4 * i), k, l. split_and!; [done|by apply vm_step_refl|done|right; by exists t]. }
  assert (Et : table_of k.(mem) pd d = None) by (unfold table_of; by rewrite E).
  destruct (vm_kalloc k c pd l Hv) as (k1 & E1 & Hfr & Hv1 & Hm1 & Hk1).
  erewrite bind_Ok by (exact E1). cbv beta.
  destruct l as [|t l]; cbn [head default from_option tail id] in *.
  { exists 0, k1, []. split_and!; [done| |by rewrite Hm1|by left].
    split; [done|done| | | |done]; rewrite Hm1; done. }
  pose proof (vo_kend _ _ _ _ Hv) as He. destruct (vm_head _ _ _ _ _ Hv) as (Htp & Ht0 & Htn & Htl).
  rewrite (proj2 (Z.eqb_neq t 0)) by done.
  destruct (new_table k.(kend) k.(mem) pd He (vo_space _ _ _ _ Hv) d t 7 Hd Et Htp Htn) as
    (N1 & N2 & N3 & N4 & N5 & N6); [lia|done|].
  erewrite bind_Ok by (apply memset_ok; by eapply page_kaddr). cbv beta.
  erewrite bind_Ok by (by apply st32_kern). cbv beta.
  rewrite <- !Z.lor_assoc. change (Z.lor PTE_P (Z.lor PTE_W PTE_U)) with 7. cbn [mem set_mem]. rewrite Hm1.
  set (m' := wr32 _ _ _) in *. change (set_mem m' _) with (set_mem m' k1).
  assert (Hpd : tables k.(mem) pd pd) by (by left).
  assert (Hv' : vm_ok (set_mem m' k1) c pd l).
  { eapply vm_ok_mem; [done|by rewrite Hk1|by rewrite Hm1| |].
    - intros p Hp [->| ->]; [|done]. by apply (vo_apart _ _ _ _ Hv pd Hpd); right.
    - intros p [Hp| ->]%N5; [|done]. intros Hin. apply (vo_apart _ _ _ _ Hv p Hp). by right. }
  exists (t + 4 * i), (set_mem m' k1), l.
  split; [by destruct (pte_addr _ _ _ _ _ _ _ Hv' Hd N1 Ht) as (-> & _)|].
  split; [|split; [exact N3|right; by exists t]].
  split; [by apply kmem_frame_mem|done| | | |by right].
  - eapply unch_mono; [exact N4|]. intros p [->| ->]; [by left|right; by left].
  - intros p. cbn [mem set_mem]. rewrite N5, elem_of_cons. tauto.
  - intros d' Hd' Hs. cbn [mem set_mem]. apply N6; [done|]. intros ->. rewrite Et in Hs. by destruct Hs.
Qed.

(** The entry mappages() stores. *)
Definition entry (pa perm : Z) : Z := Z.lor (Z.lor pa perm) PTE_P.

Lemma entry_spec pa perm :
  pa `mod` 4096 = 0 → is_u32 pa → 0 <= perm < 4096 →
  is_u32 (entry pa perm) ∧ present (entry pa perm) = true ∧ PTE_ADDR (entry pa perm) = pa ∧
  PTE_FLAGS (entry pa perm) = Z.lor perm PTE_P.
Proof.
  intros Hp Hu Hf. unfold entry. rewrite <- Z.lor_assoc.
  assert (Hl : 0 <= Z.lor perm PTE_P < 4096).
  { split; [apply Z.lor_nonneg; unfold PTE_P; lia|]. unfold PTE_P.
    destruct (decide (Z.lor perm 1 = 0)) as [->|Hne]; [lia|].
    apply (Z.log2_lt_pow2 _ 12); [pose proof (proj2 (Z.lor_nonneg perm 1)); lia|].
    rewrite Z.log2_lor by lia. apply Z.max_lub_lt; [|done].
    destruct (decide (perm = 0)) as [->|]; [done|]. apply Z.log2_lt_pow2; lia. }
  assert (Ho : Z.odd (Z.lor perm PTE_P) = true).
  { rewrite <- Z.bit0_odd, Z.lor_spec. unfold PTE_P. change (Z.testbit 1 0) with true. apply orb_true_r. }
  rewrite lor_page by done. destruct (entry_fields pa _ Hp Hu Hl) as (? & -> & -> & ->). by rewrite Ho.
Qed.

(** Storing an entry through the pointer walkpgdir() returned. *)
Lemma store_pte k c pd l v t x :
  vm_ok k c pd l → 0 <= v < 2 ^ 20 → table_of k.(mem) pd (v / 1024) = Some t → is_u32 x →
  ∃ k', st32 (t + 4 * (v `mod` 1024)) x k = Ok tt k' ∧ vm_step c pd k l k' l ∧
    (∀ w, 0 <= w < 2 ^ 20 → pte k'.(mem) pd w = if decide (w = v) then x else pte k.(mem) pd w) ∧
    unch (tables k.(mem) pd) k.(mem) k'.(mem) ∧ kmem k' = kmem k.
Proof.
  intros Hv Hvr Ht Hx. destruct (vpn_index v Hvr) as [Hd Hi].
  destruct (pte_addr _ _ _ _ _ _ _ Hv Hd Ht Hi) as (_ & Ha & _).
  destruct (set_pte _ _ _ (vo_kend _ _ _ _ Hv) (vo_space _ _ _ _ Hv) v t x Hvr Ht Hx) as (S1 & S2 & S3 & S4 & S5).
  assert (Htt : tables k.(mem) pd t) by (right; by exists (v / 1024)).
  assert (Hu : unch (tables k.(mem) pd) k.(mem) (wr32 (t + 4 * (v `mod` 1024)) x k.(mem))).
  { eapply unch_mono; [exact S3|]. by intros p ->. }
  eexists. split; [by apply st32_kern|]. split; [|done].
  split; [by apply kmem_frame_mem| | | | |done].
  - eapply vm_ok_mem; [done|done|exact Hu| |].
    + intros p Hp Hx'. by apply (vo_apart _ _ _ _ Hv p Hx').
    + intros p Hp. apply S4 in Hp. by apply (vo_apart _ _ _ _ Hv).
  - eapply unch_mono; [exact Hu|]. by left.
  - intros p. cbn [mem set_mem]. by rewrite S4.
  - intros d Hd' _. by apply S5.
Qed.

Lemma load_pte k c pd l v t :
  vm_ok k c pd l → 0 <= v < 2 ^ 20 → table_of k.(mem) pd (v / 1024) = Some t →
  ld32 (t + 4 * (v `mod` 1024)) k = Ok (pte k.(mem) pd v) k ∧ t + 4 * (v `mod` 1024) ≠ 0.
Proof.
  intros Hv Hvr Ht. destruct (vpn_index v Hvr) as [Hd Hi].
  destruct (pte_addr _ _ _ _ _ _ _ Hv Hd Ht Hi) as (_ & Ha & Hne). split; [|done].
  rewrite ld32_kern by done. unfold pte. by rewrite Ht.
Qed.

Lemma page_vpn v : 0 <= v < 2 ^ 20 → is_u32 (v * 4096) ∧ v * 4096 / 4096 = v.
Proof. intros Hv. split; [unfold is_u32; lia|]. apply Z.div_mul; lia. Qed.

Lemma mappages_turn_ok k c pd l v last pa perm :
  vm_ok k c pd l → 0 <= v < 2 ^ 20 → present (pte k.(mem) pd v) = false →
  pa `mod` 4096 = 0 → is_u32 pa → 0 <= perm < 4096 →
  ∃ r k' l', mappages_turn pd last perm (v * 4096, pa) k = Ok r k' ∧ vm_step c pd k l k' l' ∧
    (r = inr (-1) ∧ l' = [] ∧ (∀ w, 0 <= w < 2 ^ 20 → pte k'.(mem) pd w = pte k.(mem) pd w) ∨
     r = (if v * 4096 =? last then inr 0 else inl (u32 (v * 4096 + PGSIZE), u32 (pa + PGSIZE))) ∧
     (∀ w, 0 <= w < 2 ^ 20 → pte k'.(mem) pd w = if decide (w = v) then entry pa perm else pte k.(mem) pd w)).
Proof.
  intros Hv Hvr Hnp Hpa Hpu Hpm. destruct (page_vpn v Hvr) as [Hu Hvd].
  destruct (walk_alloc k c pd l (v * 4096) Hv Hu) as (r & k1 & l1 & E1 & Hs1 & Hp1 & Hr). rewrite Hvd in Hr.
  unfold mappages_turn. erewrite bind_Ok by (exact E1). cbv beta.
  destruct Hr as [(-> & -> & ->)|(t & -> & Ht)].
  { exists (inr (-1)), k1, []. split_and!; [done|done|by left]. }
  pose proof (vst_ok _ _ _ _ _ _ Hs1) as Hv1.
  destruct (load_pte _ _ _ _ _ _ Hv1 Hvr Ht) as [El Hne].
  rewrite (proj2 (Z.eqb_neq _ 0) Hne). erewrite bind_Ok by (exact El). cbv beta.
  rewrite Hp1 by done. unfold present in Hnp. rewrite Hnp. rewrite (u32_small perm) by (unfold is_u32; lia).
  destruct (entry_spec pa perm Hpa Hpu Hpm) as (He & _).
  destruct (store_pte k1 c pd l1 v t (entry pa perm) Hv1 Hvr Ht He) as (k2 & E2 & Hs2 & Hp2 & _).
  erewrite bind_Ok by (exact E2). cbv beta.
  exists (if v * 4096 =? last then inr 0 else inl (u32 (v * 4096 + PGSIZE), u32 (pa + PGSIZE))), k2, l1.
  split; [by destruct (v * 4096 =? last)|]. split; [by eapply vm_step_trans|].
  right. split; [done|]. intros w Hw. rewrite Hp2 by done.
  destruct (decide (w = v)); [done|]. by apply Hp1.
Qed.

(** The entries after mappages() of [n] pages from page [v] on. *)
Definition mapped (m : Z → Z) (pd v : Z) (n : Z) (pa perm w : Z) : Z :=
  if decide (v <= w < v + n) then entry (pa + 4096 * (w - v)) perm else pte m pd w.

Lemma mappages_loop n k c pd l v pa perm :
  vm_ok k c pd l → 0 <= v → v + Z.of_nat n < 2 ^ 20 →
  (∀ w, v <= w <= v + Z.of_nat n → present (pte k.(mem) pd w) = false) →
  pa `mod` 4096 = 0 → 0 <= pa → pa + 4096 * Z.of_nat n < 2 ^ 32 → 0 <= perm < 4096 →
  ∃ r k' l' j, while_fuel (S n) (mappages_turn pd ((v + Z.of_nat n) * 4096) perm) (v * 4096, pa) k = Ok r k' ∧
    vm_step c pd k l k' l' ∧ (∀ w, 0 <= w < 2 ^ 20 → pte k'.(mem) pd w = mapped k.(mem) pd v j pa perm w) ∧
    (r = 0 ∧ j = Z.of_nat n + 1 ∨ r = -1 ∧ 0 <= j <= Z.of_nat n ∧ l' = []).
Proof.
  revert k l v pa. induction n as [|n IH]; intros k l v pa Hv Hv0 Hvn Hnp Hpa Hp0 Hpn Hpm; cbn [while_fuel].
  all: match goal with |- context [mappages_turn _ ?e _ _] =>
         destruct (mappages_turn_ok k c pd l v e pa perm Hv ltac:(lia) ltac:(apply Hnp; lia) Hpa
         ltac:(unfold is_u32; lia) Hpm) as (r & k1 & l1 & E1 & Hs1 & [(-> & -> & Hp1)|(-> & Hp1)]) end; erewrite bind_Ok by (exact E1); cbv beta.
  1, 3: exists (-1), k1, [], 0; split_and!; [done|done| |right; split_and!; [done|lia|lia|done]];
    intros w Hw; unfold mapped; rewrite decide_False by lia; by apply Hp1.
  - rewrite (proj2 (Z.eqb_eq _ _)) by lia. exists 0, k1, l1, 1. split_and!; [done|done| |by left].
    intros w Hw. rewrite Hp1 by done. unfold mapped. destruct (decide (w = v)) as [->|].
    + rewrite decide_True by lia. f_equal. lia.
    + by rewrite decide_False by lia.
  - rewrite (proj2 (Z.eqb_neq _ _)) by lia. unfold PGSIZE.
    rewrite !u32_small by (unfold is_u32; lia). replace (v * 4096 + 4096) with ((v + 1) * 4096) by lia.
    destruct (IH k1 l1 (v + 1) (pa + 4096)) as (r & k2 & l2 & j & E2 & Hs2 & Hp2 & Hr); try lia.
    + apply Hs1.
    + intros w Hw. rewrite Hp1 by lia. rewrite decide_False by lia. apply Hnp. lia.
    + rewrite Z.add_mod, Hpa by lia. done.
    + exists r, k2, l2, (j + 1). split.
      { replace (v + Z.of_nat (S n)) with (v + 1 + Z.of_nat n) by lia. exact E2. }
      split; [by eapply vm_step_trans|]. assert (0 <= j) by (destruct Hr as [[_ ->]|(_ & ? & _)]; lia).
      split; [|destruct Hr as [[-> ->]|(-> & ? & ->)]; [left; lia|right; split_and!; [done|lia|lia|done]]].
      intros w Hw. rewrite Hp2 by done. unfold mapped. rewrite Hp1 by done.
      destruct (decide (v + 1 <= w < v + 1 + j)).
      * rewrite decide_True by lia. f_equal. lia.
      * destruct (decide (w = v)) as [->|].
        -- rewrite decide_True by lia. f_equal. lia.
        -- by rewrite decide_False by lia.
Qed.

Lemma mappages_ok k c pd l v n pa perm :
  vm_ok k c pd l → 0 <= v → 0 < n → v + n <= 2 ^ 20 →
  (∀ w, v <= w < v + n → present (pte k.(mem) pd w) = false) →
  pa `mod` 4096 = 0 → 0 <= pa → pa + 4096 * n <= 2 ^ 32 → 0 <= perm < 4096 →
  ∃ r k' l' j, mappages pd (v * 4096) (4096 * n) pa perm k = Ok r k' ∧
    vm_step c pd k l k' l' ∧ (∀ w, 0 <= w < 2 ^ 20 → pte k'.(mem) pd w = mapped k.(mem) pd v j pa perm w) ∧
    (r = 0 ∧ j = n ∨ r = -1 ∧ 0 <= j < n ∧ l' = []).
Proof.
  intros Hv Hv0 Hn Hvn Hnp Hpa Hp0 Hpn Hpm. unfold mappages.
  rewrite (u32_small (v * 4096)) by (unfold is_u32; lia).
  rewrite (u32_small (v * 4096 + _ - 1)) by (unfold is_u32; lia).
  rewrite !PGROUNDDOWN_div by (unfold is_u32; lia). rewrite Z.div_mul by lia.
  replace ((v * 4096 + 4096 * n - 1) / 4096) with (v + (n - 1)) by (Z.to_euclidean_division_equations; lia).
  rewrite (u32_small (_ - _)) by (unfold is_u32; lia).
  replace (((v + (n - 1)) * 4096 - v * 4096) / PGSIZE) with (n - 1) by (unfold PGSIZE; Z.to_euclidean_division_equations; lia).
  replace (Z.to_nat (n - 1 + 1)) with (S (Z.to_nat (n - 1))) by lia.
  destruct (mappages_loop (Z.to_nat (n - 1)) k c pd l v pa perm) as (r & k' & l' & j & E & Hs & Hp & Hr); try lia; try done.
  - intros w Hw. apply Hnp. lia.
  - rewrite Z2Nat.id in E, Hr by lia. exists r, k', l', j. split_and!; [done|done|done|].
    destruct Hr as [[-> ->]|(-> & ? & ->)]; [left; lia|right; split_and!; [done|lia|lia|done]].
Qed.
