(* ===== verification/Uvm.v ===== *)
(** * vm.c: user memory

    What the operations of vm.c do to the user half of an address space and
    to the pages it owns: deallocuvm(), freevm(), allocuvm(), setupkvm(),
    copyuvm() and copyout(). Every lemma accounts for pages: [dropped], [grown],
    [undone], [kspace] and [restored] say which pages moved between the free
    list, the tables and the user mappings, and that no other page was
    written. The definitions are in Vm. *)
From S2P Require Import Prelude.
From S2P Require Import Kernel.
From S2P Require Import Spinlock.
From S2P Require Import Memory.
From S2P Require Import Libstr.
From S2P Require Import Cprintf.
From S2P Require Import Kalloc.
From S2P Require Import Sched.
From S2P Require Import Vm.

(** ** The user part of an address space *)

(** The page that virtual page [w] is mapped to. *)
Definition upage (m : Z → Z) (pd w : Z) : Z := P2V (PTE_ADDR (pte m pd w)).

(** The pages mapped in the [n] virtual pages from [v] on. *)
Fixpoint upages (m : Z → Z) (pd v : Z) (n : nat) : list Z :=
  match n with
  | O => []
  | S n' => (if present (pte m pd v) then [upage m pd v] else []) ++ upages m pd (v + 1) n'
  end.

(** The pages mapped from virtual page [v] on belong to this address space
    alone: managed, mapped once, not a table, not free. *)
Record owned (k : kernel) (pd v : Z) (n : nat) (l : list Z) : Prop := {
  ow_page : ∀ w, v <= w < v + Z.of_nat n → present (pte k.(mem) pd w) = true →
    let p := upage k.(mem) pd w in page_ok k.(kend) p ∧ ¬ tables k.(mem) pd p ∧ p ∉ l;
  ow_inj : ∀ w w', v <= w < v + Z.of_nat n → v <= w' < v + Z.of_nat n →
    present (pte k.(mem) pd w) = true → present (pte k.(mem) pd w') = true →
    upage k.(mem) pd w = upage k.(mem) pd w' → w = w';
}.

Lemma elem_of_upages m pd v n p :
  p ∈ upages m pd v n ↔ ∃ w, v <= w < v + Z.of_nat n ∧ present (pte m pd w) = true ∧ p = upage m pd w.
Proof.
  revert v. induction n as [|n IH]; intros v; cbn [upages].
  { rewrite elem_of_nil. split; [done|]. intros (w & ? & _). lia. }
  rewrite elem_of_app, IH. split.
  - intros [H|(w & Hw & ?)]; [|exists w; split; [lia|done]]. destruct (present (pte m pd v)) eqn:E.
    + apply list_elem_of_singleton in H as ->. exists v. split_and!; [lia|lia|done|done].
    + by apply elem_of_nil in H.
  - intros (w & Hw & Hp & ->). destruct (decide (w = v)) as [->|]; [left; rewrite Hp; by left|].
    right. exists w. split; [lia|done].
Qed.

Lemma upages_ext m m' pd v n :
  (∀ w, v <= w < v + Z.of_nat n → pte m' pd w = pte m pd w) → upages m' pd v n = upages m pd v n.
Proof.
  revert v. induction n as [|n IH]; intros v Hp; [done|]. cbn [upages]. unfold upage.
  rewrite Hp by lia. f_equal. apply IH. intros w Hw. apply Hp. lia.
Qed.

Lemma upages_none m pd v n :
  (∀ w, v <= w < v + Z.of_nat n → present (pte m pd w) = false) → upages m pd v n = [].
Proof.
  revert v. induction n as [|n IH]; intros v Hp; [done|]. cbn [upages]. rewrite Hp by lia.
  apply IH. intros w Hw. apply Hp. lia.
Qed.

Lemma upages_app m pd v n1 n2 :
  upages m pd v (n1 + n2) = upages m pd v n1 ++ upages m pd (v + Z.of_nat n1) n2.
Proof.
  revert v. induction n1 as [|n1 IH]; intros v; cbn [upages Nat.add].
  - by rewrite Z.add_0_r.
  - rewrite IH, app_assoc. f_equal. f_equal. lia.
Qed.

Lemma owned_sub k pd v n l v' n' :
  owned k pd v n l → v <= v' → v' + Z.of_nat n' <= v + Z.of_nat n → owned k pd v' n' l.
Proof.
  intros [H1 H2] Hv Hn. split.
  - intros w Hw. apply H1. lia.
  - intros w w' Hw Hw'. apply H2; lia.
Qed.

(** *** deallocuvm *)

(** The state after deallocuvm() dropped the [n] pages from [v] on. *)
Record dropped (c : nat) (pd v : Z) (n : nat) (k : kernel) (l : list Z) (k' : kernel) : Prop := {
  dr_frame : kmem_frame c k k';
  dr_ok : vm_ok k' c pd (reverse (upages k.(mem) pd v n) ++ l);
  dr_pte : ∀ w, 0 <= w < 2 ^ 20 → pte k'.(mem) pd w =
    if decide (v <= w < v + Z.of_nat n) then (if present (pte k.(mem) pd w) then 0 else pte k.(mem) pd w)
    else pte k.(mem) pd w;
  dr_mem : unch (λ q, tables k.(mem) pd q ∨ q ∈ upages k.(mem) pd v n) k.(mem) k'.(mem);
  dr_tables : ∀ p, tables k'.(mem) pd p ↔ tables k.(mem) pd p;
  dr_dir : ∀ d, 0 <= d < 1024 → table_of k'.(mem) pd d = table_of k.(mem) pd d;
}.

(** Freeing a page that no table uses leaves the tables as they are. *)
Lemma vm_kfree k c pd l p :
  vm_ok k c pd l → page_ok k.(kend) p → ¬ tables k.(mem) pd p → p ∉ l →
  ∃ k', kfree p k = Ok tt k' ∧ kmem_frame c k k' ∧ vm_ok k' c pd (p :: l) ∧
    unch (λ q, q = p) k.(mem) k'.(mem) ∧ (∀ w, 0 <= w < 2 ^ 20 → pte k'.(mem) pd w = pte k.(mem) pd w) ∧
    (∀ q, tables k'.(mem) pd q ↔ tables k.(mem) pd q) ∧
    (∀ d, 0 <= d < 1024 → table_of k'.(mem) pd d = table_of k.(mem) pd d).
Proof.
  intros Hv Hp Ht Hl. destruct (kfree_ok k c l p (vo_free _ _ _ _ Hv) (vo_ready _ _ _ _ Hv) Hp Hl) as
    (k' & E & Hfr & Hf & Hout).
  pose proof (vo_kend _ _ _ _ Hv) as He. pose proof (vo_space _ _ _ _ Hv) as Hsp.
  assert (Hu : unch (λ q, q = p) k.(mem) k'.(mem)) by (apply unch_page; [by eapply page_aligned|done]).
  assert (HS : ∀ q, tables k.(mem) pd q → q ≠ p) by (by intros q Hq ->).
  exists k'. split_and!; [done|done| |done| | |].
  - split; [done|by eapply kmem_frame_ready; [|apply Hv]| |].
    + rewrite (kmem_frame_kend _ _ _ Hfr). by eapply space_same.
    + intros q Hq. rewrite (tables_same _ _ _ _ _ He Hsp Hu HS) in Hq. rewrite not_elem_of_cons.
      split; [by apply HS|by apply (vo_apart _ _ _ _ Hv)].
  - intros w Hw. by eapply pte_same.
  - intros q. by eapply tables_same.
  - intros d Hd. by eapply table_of_same.
Qed.

Lemma dropped_none c pd v n k l :
  vm_ok k c pd l → (∀ w, v <= w < v + Z.of_nat n → present (pte k.(mem) pd w) = false) →
  dropped c pd v n k l k.
Proof.
  intros Hv Hn. split; rewrite ?(upages_none _ _ _ _ Hn); try done.
  intros w Hw. destruct (decide _); [|done]. by rewrite Hn.
Qed.

Lemma dropped_upages c pd v n1 n2 k l k1 :
  0 <= v → v + Z.of_nat (n1 + n2) <= 2 ^ 20 → dropped c pd v n1 k l k1 →
  upages k1.(mem) pd (v + Z.of_nat n1) n2 = upages k.(mem) pd (v + Z.of_nat n1) n2.
Proof.
  intros Hv Hn H. apply upages_ext. intros w Hw. rewrite (dr_pte _ _ _ _ _ _ _ H) by lia.
  by rewrite decide_False by lia.
Qed.

Lemma dropped_trans c pd v n1 n2 k l k1 k2 :
  0 <= v → v + Z.of_nat (n1 + n2) <= 2 ^ 20 → dropped c pd v n1 k l k1 →
  dropped c pd (v + Z.of_nat n1) n2 k1 (reverse (upages k.(mem) pd v n1) ++ l) k2 →
  dropped c pd v (n1 + n2) k l k2.
Proof.
  intros Hv Hn H1 H2. pose proof (dropped_upages _ _ _ _ _ _ _ _ Hv Hn H1) as Hup.
  destruct H1 as [F1 O1 P1 M1 T1 D1], H2 as [F2 O2 P2 M2 T2 D2]. rewrite Hup in *. split.
  - by etrans.
  - rewrite upages_app, reverse_app, <- app_assoc. done.
  - intros w Hw. rewrite P2, P1 by done. destruct (decide (v <= w < v + Z.of_nat n1)).
    + rewrite decide_False, decide_True by lia. done.
    + destruct (decide (v + Z.of_nat n1 <= w < _)); [by rewrite decide_True by lia|by rewrite decide_False by lia].
  - rewrite upages_app. eapply unch_trans; [exact M1|exact M2|..]; intros p; cbv beta;
    rewrite ?T1, elem_of_app; tauto.
  - intros p. by rewrite T2, T1.
  - intros d Hd. by rewrite D2, D1.
Qed.

Lemma owned_dropped c pd v n1 n2 k l k1 :
  0 <= v → v + Z.of_nat (n1 + n2) <= 2 ^ 20 → owned k pd v (n1 + n2) l → dropped c pd v n1 k l k1 →
  owned k1 pd (v + Z.of_nat n1) n2 (reverse (upages k.(mem) pd v n1) ++ l).
Proof.
  intros Hv Hn [H1 H2] [F O P M T D].
  assert (Hp : ∀ w, v + Z.of_nat n1 <= w < v + Z.of_nat n1 + Z.of_nat n2 → pte k1.(mem) pd w = pte k.(mem) pd w).
  { intros w Hw. rewrite P by lia. by rewrite decide_False by lia. }
  split; unfold upage.
  - intros w Hw. rewrite Hp by lia. intros Hpr. destruct (H1 w ltac:(lia) Hpr) as (Q1 & Q2 & Q3).
    rewrite (kmem_frame_kend _ _ _ F). split_and!; [done|by rewrite T|].
    rewrite elem_of_app, elem_of_reverse, elem_of_upages. intros [(w' & Hw' & Hpr' & E)|]; [|done].
    assert (w = w'); [|lia]. apply H2; [lia|lia|done|done|done].
  - intros w w' Hw Hw'. rewrite !Hp by lia. apply H2; lia.
Qed.

(** The first address of the next page table. *)
Lemma next_table v : 0 <= v < 2 ^ 19 →
  u32 (u32 (PGADDR (PDX (v * 4096) + 1) 0 0 - PGSIZE) + PGSIZE) = (v / 1024 + 1) * 1024 * 4096.
Proof.
  intros Hv. destruct (page_vpn v ltac:(lia)) as [Hu Hvd]. rewrite PDX_div, Hvd by done.
  unfold PGADDR, PDXSHIFT, PTXSHIFT, PGSIZE. rewrite Z.shiftl_0_l, !Z.lor_0_r, Z.shiftl_mul_pow2 by lia.
  autorewrite with xv6. change (2 ^ 22) with 4194304. rewrite Z.sub_add.
  rewrite u32_small by (unfold is_u32; Z.to_euclidean_division_equations; lia). lia.
Qed.

(** Freeing the page mapped at [v] and clearing its entry. *)
Lemma drop_page k c pd l v t :
  vm_ok k c pd l → 0 <= v < 2 ^ 20 → owned k pd v 1 l → table_of k.(mem) pd (v / 1024) = Some t →
  present (pte k.(mem) pd v) = true →
  PTE_ADDR (pte k.(mem) pd v) ≠ 0 ∧
  ∃ k', (kfree (upage k.(mem) pd v);; st32 (t + 4 * (v `mod` 1024)) 0) k = Ok tt k' ∧ dropped c pd v 1 k l k'.
Proof.
  intros Hv Hvr Ho Et Hp. destruct (ow_page _ _ _ _ _ Ho v ltac:(lia) Hp) as (Hpg & Hnt & Hnl). split.
  { intros E. unfold upage in Hpg. rewrite E in Hpg. destruct Hpg as (_ & Hlo & _).
    pose proof (vo_kend _ _ _ _ Hv). change (P2V 0) with KERNBASE in Hlo. lia. }
  destruct (vm_kfree k c pd l _ Hv Hpg Hnt Hnl) as (k1 & E1 & F1 & O1 & M1 & P1 & T1 & D1).
  destruct (vpn_index v Hvr) as [Hd _].
  destruct (store_pte k1 c pd _ v t 0 O1 Hvr) as (k2 & E2 & S2 & P2 & M2 & _).
  { by rewrite D1. }
  { by unfold is_u32. }
  exists k2. split; [by erewrite bind_Ok by (exact E1)|].
  assert (Hup : upages k.(mem) pd v 1 = [upage k.(mem) pd v]) by (cbn; by rewrite Hp).
  split; rewrite ?Hup.
  - etrans; [done|apply S2].
  - apply S2.
  - intros w Hw. rewrite P2, P1 by done. destruct (decide (w = v)) as [->|].
    + rewrite decide_True by lia. by rewrite Hp.
    + by rewrite decide_False by lia.
  - eapply unch_trans; [exact M1|exact M2|..]; intros p; cbv beta; rewrite ?T1, ?list_elem_of_singleton; tauto.
  - intros p. rewrite <- T1. pose proof (vst_pages _ _ _ _ _ _ S2 p).
    destruct (decide (p ∈ upage k.(mem) pd v :: l)) as [Hin|]; [|tauto].
    assert (∀ k' , vm_ok k' c pd (upage k.(mem) pd v :: l) → ¬ tables k'.(mem) pd p) as Hn.
    { intros k' Hk' Ht'. by apply (vo_apart _ _ _ _ Hk' p). }
    pose proof (Hn k1 O1). pose proof (Hn k2 (vst_ok _ _ _ _ _ _ S2)). tauto.
  - intros d Hd'. destruct (set_pte k1.(kend) k1.(mem) pd (vo_kend _ _ _ _ O1) (vo_space _ _ _ _ O1) v t 0 Hvr)
      as (_ & _ & _ & _ & S5); [by rewrite D1|by unfold is_u32|].
    destruct (pte_addr _ _ _ _ _ t (v `mod` 1024) O1 Hd ltac:(by rewrite D1) (proj2 (vpn_index v Hvr))) as (_ & Ha & _).
    rewrite st32_kern in E2 by done. injection E2 as <-. cbn [mem set_mem]. by rewrite S5, D1.
Qed.

Lemma deallocuvm_page k c pd l oldsz newsz v :
  vm_ok k c pd l → 0 <= v < 2 ^ 19 → owned k pd v 1 l → v * 4096 < oldsz →
  ∃ k' v', deallocuvm_turn pd oldsz newsz (v * 4096) k = Ok (inl (v' * 4096)) k' ∧
    (v' = v + 1 ∧ dropped c pd v 1 k l k' ∨
     v' = (v / 1024 + 1) * 1024 ∧ k' = k ∧ ∀ w, v <= w < v' → pte k.(mem) pd w = 0).
Proof.
  intros Hv Hvr Ho Hlt. destruct (page_vpn v ltac:(lia)) as [Hu Hvd]. unfold deallocuvm_turn.
  rewrite (proj2 (Z.ltb_lt _ _) Hlt). cbn [negb].
  erewrite bind_Ok by (by eapply walk_lookup). cbv beta. rewrite Hvd.
  assert (Hn : u32 (v * 4096 + PGSIZE) = (v + 1) * 4096) by (rewrite u32_small; unfold is_u32, PGSIZE; lia).
  destruct (table_of k.(mem) pd (v / 1024)) as [t|] eqn:Et.
  2:{ exists k, ((v / 1024 + 1) * 1024). cbn [Z.eqb]. split; [by rewrite next_table|].
      right. split_and!; [done|done|]. intros w Hw. unfold pte.
      replace (w / 1024) with (v / 1024) by (Z.to_euclidean_division_equations; lia). by rewrite Et. }
  destruct (load_pte _ _ _ _ v _ Hv ltac:(lia) Et) as [El Hne]. rewrite (proj2 (Z.eqb_neq _ 0) Hne).
  erewrite bind_Ok by (exact El). cbv beta. rewrite Hn.
  change (negb (Z.land (pte k.(mem) pd v) PTE_P =? 0)) with (present (pte k.(mem) pd v)).
  destruct (present (pte k.(mem) pd v)) eqn:Hp.
  - destruct (drop_page k c pd l v t Hv ltac:(lia) Ho Et Hp) as (Hpa & k' & E & Hd).
    rewrite (proj2 (Z.eqb_neq _ 0) Hpa). erewrite bind_Ok by (exact E). cbv beta.
    exists k', (v + 1). split; [done|by left].
  - mstep. exists k, (v + 1). split; [done|]. left. split; [done|]. apply dropped_none; [done|].
    intros w Hw. by replace w with v by lia.
Qed.

(** How many pages are left from page [v] on below the size [s]. *)
Definition left_of (s v : Z) : nat := Z.to_nat ((s - v * 4096 + 4095) / 4096).

Lemma left_of_pos s v : v * 4096 < s → left_of s v = S (left_of s (v + 1)).
Proof. intros H. unfold left_of. Z.to_euclidean_division_equations. lia. Qed.

Lemma left_of_0 s v : s <= v * 4096 → left_of s v = O.
Proof. intros H. unfold left_of. Z.to_euclidean_division_equations. lia. Qed.

Lemma deallocuvm_done k pd oldsz newsz a :
  oldsz <= a → deallocuvm_turn pd oldsz newsz a k = Ok (inr newsz) k.
Proof. intros H. unfold deallocuvm_turn. by rewrite (proj2 (Z.ltb_ge _ _)) by lia. Qed.

Lemma deallocuvm_loop n k c pd l oldsz newsz v fuel :
  vm_ok k c pd l → 0 <= v <= 2 ^ 19 → oldsz <= KERNBASE → n = left_of oldsz v → owned k pd v n l → (n < fuel)%nat →
  ∃ k', while_fuel fuel (deallocuvm_turn pd oldsz newsz) (v * 4096) k = Ok newsz k' ∧ dropped c pd v n k l k'.
Proof.
  revert k l v fuel. induction (lt_wf n) as [n _ IH]. intros k l v fuel Hv Hvr Hs Hn Ho Hf.
  destruct fuel as [|fuel]; [lia|]. cbn [while_fuel]. destruct (decide (v * 4096 < oldsz)) as [Hlt|Hge].
  2:{ mstep by (apply deallocuvm_done; lia). exists k. split; [done|].
      rewrite left_of_0 in Hn by lia. subst n. apply dropped_none; [done|]. lia. }
  unfold KERNBASE in Hs. pose proof (left_of_pos _ _ Hlt) as HS.
  destruct (deallocuvm_page k c pd l oldsz newsz v Hv ltac:(lia)) as (k1 & v1 & E1 & Hc);
    [eapply owned_sub; [done|lia|lia]|done|].
  erewrite bind_Ok by (exact E1). cbv beta iota.
  assert (Hb : v + Z.of_nat n <= 2 ^ 20) by (subst n; unfold left_of; Z.to_euclidean_division_equations; lia).
  destruct Hc as [(-> & Hd)|(-> & -> & H0)].
  - destruct (IH (left_of oldsz (v + 1)) ltac:(lia) k1 (reverse (upages k.(mem) pd v 1) ++ l) (v + 1) fuel)
      as (k2 & E2 & Hd2); [apply Hd|lia|unfold KERNBASE; lia|done| |lia|].
    { eapply (owned_dropped _ _ v 1); [lia|lia| |done]. by replace (1 + _)%nat with n by lia. }
    exists k2. split; [done|]. replace n with (1 + left_of oldsz (v + 1))%nat by lia.
    eapply dropped_trans; [lia|lia|done|]. done.
  - set (v1 := (v / 1024 + 1) * 1024) in *.
    assert (Hv1 : v < v1 <= 2 ^ 19) by (unfold v1; Z.to_euclidean_division_equations; lia).
    set (n1 := Z.to_nat (Z.min (v1 - v) (Z.of_nat n))).
    assert (Hn1 : (n = n1 + left_of oldsz v1)%nat).
    { unfold n1. subst n. unfold left_of in *. Z.to_euclidean_division_equations. lia. }
    assert (Hd : dropped c pd v n1 k l k).
    { apply dropped_none; [done|]. intros w Hw. by rewrite H0 by lia. }
    destruct (decide (v1 * 4096 < oldsz)) as [Hl1|Hg1].
    + assert (En1 : v + Z.of_nat n1 = v1).
      { unfold n1. subst n. unfold left_of. Z.to_euclidean_division_equations. lia. }
      destruct (IH (left_of oldsz v1) ltac:(lia) k (reverse (upages k.(mem) pd v n1) ++ l) v1 fuel)
        as (k2 & E2 & Hd2); [apply Hd|lia|unfold KERNBASE; lia|done| |lia|].
      { rewrite <- En1 at 1. eapply owned_dropped; [lia|lia| |done]. by rewrite <- Hn1. }
      exists k2. split; [done|]. rewrite Hn1. eapply dropped_trans; [lia|lia|done|]. by rewrite En1.
    + assert (left_of oldsz v1 = 0%nat) as E0 by (apply left_of_0; lia).
      destruct fuel as [|fuel]; [lia|]. cbn [while_fuel].
      mstep by (apply deallocuvm_done; lia). exists k. split; [done|].
      by replace n with n1 by lia.
Qed.

Definition pages_up (s : Z) : Z := (s + 4095) / 4096.

Lemma deallocuvm_ok k c pd l oldsz newsz :
  vm_ok k c pd l → 0 <= newsz < oldsz → oldsz <= KERNBASE →
  let v := pages_up newsz in let n := left_of oldsz v in
  owned k pd v n l →
  ∃ k', deallocuvm pd oldsz newsz k = Ok newsz k' ∧ dropped c pd v n k l k'.
Proof.
  intros Hv Hn Ho v n How. unfold KERNBASE in Ho. unfold deallocuvm. rewrite (proj2 (Z.leb_gt _ _)) by lia.
  rewrite PGROUNDUP_div by lia. fold (pages_up newsz). fold v.
  assert (Hvr : 0 <= v <= 2 ^ 19) by (unfold v, pages_up; Z.to_euclidean_division_equations; lia).
  apply deallocuvm_loop; [done|done|unfold KERNBASE; lia|done|done|].
  unfold n, left_of, PGSIZE. assert (newsz <= v * 4096 < newsz + 4096) by (unfold v, pages_up; Z.to_euclidean_division_equations; lia).
  Z.to_euclidean_division_equations. lia.
Qed.

(** *** freevm *)

(** The tables of the directory entries from [i] on, in the memory [m]. *)
Definition tables_from (m : Z → Z) (pd : Z) (i : nat) (p : Z) : Prop :=
  ∃ d, Z.of_nat i <= d < 1024 ∧ table_of m pd d = Some p.

Lemma tables_from_S m pd i p : (i < 1024)%nat →
  tables_from m pd i p ↔ table_of m pd (Z.of_nat i) = Some p ∨ tables_from m pd (S i) p.
Proof.
  intros Hi. split.
  - intros (d & Hd & E). destruct (decide (d = Z.of_nat i)) as [->|]; [by left|].
    right. exists d. split; [lia|done].
  - intros [E|(d & Hd & E)]; [exists (Z.of_nat i)|exists d]; (split; [lia|done]).
Qed.

Lemma free_tables_ok n i k c l m pd :
  (i + n = 1024)%nat → free_ok k l → kmem_ready k c → space k.(kend) m pd → same_on m k.(mem) pd →
  (∀ p, tables_from m pd i p → p ∉ l) →
  ∃ k' l', for_acc n i (free_table pd) tt k = Ok tt k' ∧ kmem_frame c k k' ∧ free_ok k' l' ∧
    (∀ p, p ∈ l' ↔ p ∈ l ∨ tables_from m pd i p) ∧ unch (tables_from m pd i) k.(mem) k'.(mem).
Proof.
  revert i k l. induction n as [|n IH]; intros i k l Hi Hf Hr Hsp Hsm Hnew; cbn [for_acc].
  { exists k, l. split_and!; [done|done|done| |done]. intros p. split; [by left|].
    intros [|(d & Hd & _)]; [done|lia]. }
  pose proof (proj1 (fo_end _ _ Hf)) as He. pose proof (page_aligned _ _ He (vs_pd _ _ _ Hsp)) as Hpa.
  pose proof (word_kaddr pd (Z.of_nat i) Hpa ltac:(lia)) as Hk.
  assert (Hs : ∃ k1 l1, free_table pd i tt k = Ok tt k1 ∧ kmem_frame c k k1 ∧ free_ok k1 l1 ∧
    (∀ p, p ∈ l1 ↔ p ∈ l ∨ table_of m pd (Z.of_nat i) = Some p) ∧
    unch (λ p, table_of m pd (Z.of_nat i) = Some p) k.(mem) k1.(mem)).
  { unfold free_table. rewrite (kaddr_0 _ 4) by done. mstep by (by apply ld32_kern).
    rewrite (same_on_rd32 m k.(mem)) by (done || lia). unfold table_of.
    destruct (truth _) eqn:E; cbn [when].
    2:{ exists k, l. split_and!; [done|done|done| |done]. intros p. split; [by left|]. by intros [|]. }
    set (t := P2V _). assert (Et : table_of m pd (Z.of_nat i) = Some t) by (unfold table_of; by rewrite E).
    destruct (vs_tab _ _ _ Hsp (Z.of_nat i) t ltac:(lia) Et) as [Htp _].
    destruct (kfree_ok k c l t Hf Hr Htp) as (k1 & E1 & F1 & O1 & M1).
    { apply Hnew. exists (Z.of_nat i). split; [lia|done]. }
    exists k1, (t :: l). split_and!; [done|done|done| |].
    - intros p. rewrite elem_of_cons. naive_solver.
    - eapply unch_mono; [apply unch_page; [by eapply page_aligned|exact M1]|]. by intros p ->. }
  destruct Hs as (k1 & l1 & E1 & F1 & O1 & L1 & M1). mstep by (exact E1).
  destruct (IH (S i) k1 l1) as (k2 & l2 & E2 & F2 & O2 & L2 & M2).
  - lia.
  - done.
  - by eapply kmem_frame_ready.
  - by rewrite (kmem_frame_kend _ _ _ F1).
  - intros j Hj. rewrite (M1 pd Hpa); [by apply Hsm| |done]. intros E.
    by destruct (vs_tab _ _ _ Hsp (Z.of_nat i) pd ltac:(lia) E).
  - intros p (d & Hd & Et) [Hin|Ei]%L1.
    + apply (Hnew p); [|done]. exists d. split; [lia|done].
    + assert (d = Z.of_nat i); [|lia]. apply (vs_inj _ _ _ Hsp d (Z.of_nat i) p); (done || lia).
  - exists k2, l2. split; [done|]. split; [by etrans|]. split; [done|]. split.
    + intros p. rewrite L2, L1, (tables_from_S _ _ i) by lia. tauto.
    + eapply unch_trans; [exact M1|exact M2|..]; intros p Hp; apply (tables_from_S _ _ i); [lia|tauto|lia|tauto].
Qed.

(** What freevm() gives back: everything the address space owned. *)
Definition user_vpns : nat := Z.to_nat (2 ^ 19).

Lemma user_vpns_Z : Z.of_nat user_vpns = 2 ^ 19.
Proof. unfold user_vpns. lia. Qed.

Lemma left_of_user : left_of KERNBASE 0 = user_vpns.
Proof.
  unfold left_of, user_vpns. by replace ((KERNBASE - 0 * 4096 + 4095) / 4096) with (2 ^ 19) by reflexivity.
Qed.

#[global] Opaque user_vpns.

Lemma freevm_ok k c pd l :
  vm_ok k c pd l → owned k pd 0 user_vpns l →
  ∃ k' l', freevm pd k = Ok tt k' ∧ kmem_frame c k k' ∧ free_ok k' l' ∧
    (∀ p, p ∈ l' ↔ p ∈ l ∨ tables k.(mem) pd p ∨ p ∈ upages k.(mem) pd 0 user_vpns) ∧
    unch (λ q, tables k.(mem) pd q ∨ q ∈ upages k.(mem) pd 0 user_vpns) k.(mem) k'.(mem).
Proof.
  intros Hv Ho. unfold freevm. pose proof (vo_kend _ _ _ _ Hv) as He. pose proof (vo_space _ _ _ _ Hv) as Hsp.
  pose proof (vs_pd _ _ _ Hsp) as Hpd. rewrite (proj2 (Z.eqb_neq pd 0)) by (by eapply page_ne0).
  assert (Hup : pages_up 0 = 0) by reflexivity.
  pose proof left_of_user as Hle.
  destruct (deallocuvm_ok k c pd l KERNBASE 0 Hv) as (k1 & E1 & [F1 O1 P1 M1 T1 D1]); [unfold KERNBASE; lia|lia| |].
  { by rewrite Hup, Hle. }
  rewrite Hup, Hle in *. clear Hle. set (us := upages k.(mem) pd 0 user_vpns) in *. mstep by (exact E1). clear E1.
  destruct (free_tables_ok (Z.to_nat NPDENTRIES) 0 k1 c (reverse us ++ l) k1.(mem) pd) as (k2 & l2 & E2 & F2 & O2 & L2 & M2);
    [done|exact (vo_free _ _ _ _ O1)|exact (vo_ready _ _ _ _ O1)|exact (vo_space _ _ _ _ O1)|by intros ?| |].
  { intros p (d & Hd & E). apply (vo_apart _ _ _ _ O1). right. exists d. split; [lia|done]. }
  mstep by (exact E2). clear E2. assert (Hnpd : pd ∉ l2).
  { rewrite L2. intros [Hin|(d & Hd & E)]; [by apply (vo_apart _ _ _ _ O1 pd); [left|]|].
    by destruct (vs_tab _ _ _ (vo_space _ _ _ _ O1) d pd ltac:(lia) E). }
  destruct (kfree_ok k2 c l2 pd O2) as (k3 & E3 & F3 & O3 & M3); [| |done|].
  { eapply kmem_frame_ready; [exact F2|exact (vo_ready _ _ _ _ O1)]. }
  { by rewrite (kmem_frame_kend _ _ _ F2), (kmem_frame_kend _ _ _ F1). }
  exists k3, (pd :: l2). split; [done|]. split; [by etrans; [|etrans]|]. split; [done|].
  assert (Ht : ∀ p, tables_from k1.(mem) pd 0 p → tables k.(mem) pd p).
  { intros p (d & Hd & E). apply T1. right. exists d. split; [lia|done]. }
  split.
  - intros p. rewrite elem_of_cons, L2, elem_of_app, elem_of_reverse. rewrite <- (T1 p). unfold tables, tables_from.
    change (Z.of_nat 0) with 0. naive_solver.
  - eapply unch_trans; [exact M1| |done|].
    + eapply (unch_trans _ _ (λ q, tables k.(mem) pd q)); [exact M2|apply unch_page; [by eapply page_aligned|exact M3]|done|].
      intros p ->. by left.
    + by left.
Qed.

(** *** Frames that include the console *)

(** Besides what [kmem_frame] allows, characters may have been printed. *)
Definition vm_frame (c : nat) (k k' : kernel) : Prop :=
  ∃ h m f s, k' = set_hw h (set_kmem (set_freelist f k.(kmem)) (set_mem m (set_cons s k))) ∧
    settled c k.(hw) h ∧ (cons_ok k.(cons) → cons_ok s ∧ cons_same k.(cons) s).

#[export] Instance vm_frame_preorder c : PreOrder (vm_frame c).
Proof.
  split.
  - intros k. exists k.(hw), k.(mem), k.(kmem).(freelist), k.(cons). split; [|split; [apply settled_refl|]].
    + by rewrite set_cons_id, set_mem_id, set_freelist_id, set_kmem_id, set_hw_id.
    + intros H. by split.
  - intros k1 k2 k3 (h & m & f & s & -> & Hs & Hc) (h' & m' & f' & s' & -> & Hs' & Hc').
    exists h', m', f', s'. split; [done|]. split; [by eapply settled_trans|].
    intros H. destruct (Hc H) as [H1 H2]. destruct (Hc' H1) as [H3 H4]. split; [done|]. by etrans.
Qed.

Lemma kmem_vm_frame c k k' : kmem_frame c k k' → vm_frame c k k'.
Proof.
  intros (h & m & f & -> & Hs). exists h, m, f, k.(cons). split; [|split; [done|by intros ?]].
  by rewrite set_cons_id.
Qed.

Lemma vm_frame_ready c k k' : vm_frame c k k' → kmem_ready k c → kmem_ready k' c.
Proof.
  intros (h & m & f & s & -> & Hs & _) [E|(E & (n & Hat & Hn) & Hf)]; [by left|right].
  split; [done|]. split; [exists n|]; eauto with xv6.
Qed.

Lemma vm_frame_kend c k k' : vm_frame c k k' → k'.(kend) = k.(kend).
Proof. by intros (h & m & f & s & -> & _). Qed.

Lemma vm_frame_cons c k k' : vm_frame c k k' → cons_ready k c → cons_ready k' c.
Proof.
  intros (h & m & f & s & -> & Hs & Hc) [Hok Hl]. destruct (Hc Hok) as [Hok' Hsame].
  split; [done|]. cbn. destruct Hsame as (-> & _).
  destruct Hl as [|((n & Hat & Hn) & Hf)]; [by left|right]. split; [exists n|]; eauto with xv6.
Qed.

Lemma vm_print k c pd l msg cs :
  vm_ok k c pd l → cons_ready k c → render (codes msg) [] = Some cs →
  ∃ k', cprintf msg [] k = Ok tt k' ∧ vm_frame c k k' ∧ vm_ok k' c pd l ∧ k'.(mem) = k.(mem).
Proof.
  intros [[Hl Hnd Hpg He] Hr Hs Ha] Hc Hm. destruct (cprintf_ok _ _ _ _ _ Hc Hm) as (h & k1 & E & (s & -> & Hok & Hsm & _) & Hst).
  assert (Hfr : vm_frame c k (set_hw h (set_cons s k))).
  { exists h, k.(mem), k.(kmem).(freelist), s. split; [by destruct k as [? ? ? ? []]|]. split; [done|]. by intros _. }
  eexists. split; [exact E|]. split; [done|]. split; [|done].
  split; [by split|by eapply vm_frame_ready|done|done].
Qed.

(** *** Mapping fresh pages *)

Lemma map_fresh k c pd l w p perm :
  vm_ok k c pd l → page_ok k.(kend) p → ¬ tables k.(mem) pd p → p ∉ l →
  0 <= w < 2 ^ 20 → present (pte k.(mem) pd w) = false → 0 <= perm < 4096 →
  ∃ r k' l', mappages pd (w * 4096) PGSIZE (V2P p) perm k = Ok r k' ∧ vm_step c pd k l k' l' ∧
    ¬ tables k'.(mem) pd p ∧ (p ∉ l') ∧
    (r = 0 ∧ (∀ v, 0 <= v < 2 ^ 20 →
       pte k'.(mem) pd v = (if decide (v = w) then entry (V2P p) perm else pte k.(mem) pd v)) ∨
     r = -1 ∧ l' = [] ∧ ∀ v, 0 <= v < 2 ^ 20 → pte k'.(mem) pd v = pte k.(mem) pd v).
Proof.
  intros Hv Hp Ht Hl Hw Hn Hpm. destruct (V2P_page _ _ (vo_kend _ _ _ _ Hv) Hp) as (EV & Hu & Hmod & _).
  destruct (mappages_ok k c pd l w 1 (V2P p) perm Hv) as (r & k' & l' & j & E & Hs & Hpt & Hr); try lia; try done.
  { intros v ?. by replace v with w by lia. }
  { unfold is_u32 in Hu. lia. }
  { unfold is_u32 in Hu. Z.to_euclidean_division_equations. lia. }
  exists r, k', l'. split; [exact E|]. split; [done|].
  assert (Hnp : ¬ (tables k'.(mem) pd p ∨ p ∈ l')) by (rewrite (vst_pages _ _ _ _ _ _ Hs); tauto).
  split; [tauto|]. split; [tauto|].
  destruct Hr as [(-> & ->)|(-> & Hj & ->)]; [left|right]; (split; [done|]); [|split; [done|]];
    intros v Hv'; rewrite Hpt by done; unfold mapped.
  - destruct (decide (v = w)) as [->|].
    + rewrite decide_True by lia. f_equal. lia.
    + by rewrite decide_False by lia.
  - by rewrite decide_False by lia.
Qed.

(** [n] new pages mapped from virtual page [v] on, page [w] with permissions
    [F w] and contents [C w]; [x] are pages taken from the free list and not
    mapped yet. *)
Record grown (F : Z → Z) (C : Z → Z → Z) (c : nat) (pd v : Z) (n : nat) (x : list Z) (k : kernel) (l : list Z) (k' : kernel) (l' : list Z) : Prop := {
  gr_frame : kmem_frame c k k';
  gr_ok : vm_ok k' c pd l';
  gr_new : ∀ w, v <= w < v + Z.of_nat n →
    pte k'.(mem) pd w = entry (V2P (upage k'.(mem) pd w)) (F w) ∧
    present (pte k'.(mem) pd w) = true ∧ (∀ i, 0 <= i < PGSIZE → rd k'.(mem) (upage k'.(mem) pd w + i) = C w i);
  gr_owned : owned k' pd v n (x ++ l');
  gr_old : ∀ w, 0 <= w < 2 ^ 20 → ¬ v <= w < v + Z.of_nat n → pte k'.(mem) pd w = pte k.(mem) pd w;
  gr_mem : unch (λ q, tables k.(mem) pd q ∨ q ∈ l) k.(mem) k'.(mem);
  gr_pages : ∀ p, tables k'.(mem) pd p ∨ p ∈ x ++ l' ∨ p ∈ upages k'.(mem) pd v n ↔ tables k.(mem) pd p ∨ p ∈ l;
  gr_sub : ∀ p, p ∈ x ++ l' ∨ p ∈ upages k'.(mem) pd v n → p ∈ l;
}.

Lemma grown_0 F C c pd v k l : vm_ok k c pd l → grown F C c pd v 0 [] k l k l.
Proof.
  intros Hv. split; [done|done|lia| |done|done|..].
  - split; intros; lia.
  - intros p. cbn [upages app]. rewrite elem_of_nil. tauto.
  - intros p. cbn [upages app]. rewrite elem_of_nil. tauto.
Qed.

(** What is owned from [v] on stays owned, and zeroed, when other pages are
    written and move between the tables and the free list. *)
Lemma owned_move k pd v n L k' L' (S : Z → Prop) :
  KERNBASE < k.(kend) → k'.(kend) = k.(kend) → owned k pd v n L → unch S k.(mem) k'.(mem) →
  (∀ p, S p → tables k.(mem) pd p ∨ p ∈ L) →
  (∀ p, tables k'.(mem) pd p ∨ p ∈ L' → tables k.(mem) pd p ∨ p ∈ L) →
  (∀ w, v <= w < v + Z.of_nat n → pte k'.(mem) pd w = pte k.(mem) pd w) →
  owned k' pd v n L' ∧
  (∀ w i, v <= w < v + Z.of_nat n → present (pte k.(mem) pd w) = true → 0 <= i < PGSIZE →
     rd k'.(mem) (upage k.(mem) pd w + i) = rd k.(mem) (upage k.(mem) pd w + i)).
Proof.
  intros He Hk [H1 H2] Hu HS HP Hp. split; [split; unfold upage|].
  - intros w Hw. rewrite Hp by done. intros Hpr. destruct (H1 w Hw Hpr) as (Q1 & Q2 & Q3). rewrite Hk.
    specialize (HP (upage k.(mem) pd w)). unfold upage in *. tauto.
  - intros w w' Hw Hw'. rewrite !Hp by done. by apply H2.
  - intros w i Hw Hpr Hi. destruct (H1 w Hw Hpr) as (Q1 & Q2 & Q3).
    apply Hu; [by eapply page_aligned| |done]. intros Hx%HS. tauto.
Qed.

(** Writing a page that belongs to no one else. *)
Lemma fresh_write k c pd l p m :
  vm_ok k c pd l → page_ok k.(kend) p → ¬ tables k.(mem) pd p → p ∉ l → unch (λ q, q = p) k.(mem) m →
  vm_ok (set_mem m k) c pd l ∧ (∀ w, 0 <= w < 2 ^ 20 → pte m pd w = pte k.(mem) pd w) ∧
  (∀ q, tables m pd q ↔ tables k.(mem) pd q).
Proof.
  intros Hv Hp Ht Hl Hu. pose proof (vo_kend _ _ _ _ Hv) as He. pose proof (vo_space _ _ _ _ Hv) as Hsp.
  assert (HS : ∀ q, tables k.(mem) pd q → q ≠ p) by (by intros q Hq ->).
  split_and!.
  - eapply vm_ok_mem; [done|by eapply space_same|exact Hu|by intros q Hq ->|].
    intros q Hq. apply (vo_apart _ _ _ _ Hv). by rewrite (tables_same _ _ _ _ _ He Hsp Hu HS) in Hq.
  - intros w Hw. by eapply pte_same.
  - intros q. by eapply tables_same.
Qed.

(** kalloc() and memset(mem, 0, PGSIZE). *)
Lemma zeroed_page k c pd p l :
  vm_ok k c pd (p :: l) →
  ∃ k1 k2, kalloc k = Ok p k1 ∧ memset p 0 PGSIZE k1 = Ok p k2 ∧ kmem_frame c k k2 ∧ vm_ok k2 c pd l ∧
    p ≠ 0 ∧ page_ok k2.(kend) p ∧ ¬ tables k2.(mem) pd p ∧ (p ∉ l) ∧ unch (λ q, q = p) k.(mem) k2.(mem) ∧
    (∀ i, 0 <= i < PGSIZE → rd k2.(mem) (p + i) = 0) ∧
    (∀ w, 0 <= w < 2 ^ 20 → pte k2.(mem) pd w = pte k.(mem) pd w) ∧
    (∀ q, tables k2.(mem) pd q ↔ tables k.(mem) pd q).
Proof.
  intros Hv. destruct (vm_kalloc k c pd _ Hv) as (k1 & E1 & F1 & O1 & M1 & K1).
  destruct (vm_head _ _ _ _ _ Hv) as (Hp & Hp0 & Ht & Hl). pose proof (vo_kend _ _ _ _ Hv) as He.
  pose proof (page_aligned _ _ He Hp) as Ha.
  set (m := fillm p PGSIZE 0 k.(mem)). assert (Hu : unch (λ q, q = p) k.(mem) m) by (by apply unch_fillm).
  destruct (fresh_write k1 c pd l p m O1) as (W1 & W2 & W3); rewrite ?K1, ?M1; [done|done|done|done|].
  setoid_rewrite M1 in W2. setoid_rewrite M1 in W3.
  exists k1, (set_mem m k1). split; [exact E1|].
  split; [unfold m; rewrite <- M1; apply memset_ok; by eapply page_kaddr|].
  split_and!; [by apply kmem_frame_mem|done|done|cbn; by rewrite K1|by rewrite W3|done|done| |done|done].
  intros i Hi. cbn [mem set_mem]. rewrite rd_val by (unfold aligned, KERNBASE, is_u32 in *; lia).
  unfold m, fillm. inside_cases; [done|lia].
Qed.

Lemma grown_move F C c pd v n x k l k1 l1 x' k2 l2 (S : Z → Prop) :
  0 <= v → v + Z.of_nat n <= 2 ^ 20 →
  grown F C c pd v n x k l k1 l1 → kmem_frame c k1 k2 → vm_ok k2 c pd l2 → unch S k1.(mem) k2.(mem) →
  (∀ p, S p → tables k1.(mem) pd p ∨ p ∈ x ++ l1) →
  (∀ p, tables k2.(mem) pd p ∨ p ∈ x' ++ l2 ↔ tables k1.(mem) pd p ∨ p ∈ x ++ l1) →
  (∀ p, p ∈ x' ++ l2 → p ∈ x ++ l1) →
  (∀ w, 0 <= w < 2 ^ 20 → pte k2.(mem) pd w = pte k1.(mem) pd w) →
  grown F C c pd v n x' k l k2 l2.
Proof.
  intros Hv Hn [Fr O N Ow Old M P Sb] F2 O2 U HS HP Hsub Hp.
  destruct (owned_move k1 pd v n (x ++ l1) k2 (x' ++ l2) S) as [W1 W2]; try done.
  { by apply (vo_kend _ _ _ _ O). }
  { by apply (kmem_frame_kend _ _ _ F2). }
  { intros p. apply HP. }
  { intros w Hw. apply Hp. lia. }
  split; [by etrans|done| |done| | | |].
  - intros w Hw. destruct (N w Hw) as (N1 & N2 & N3). unfold upage. rewrite Hp by lia. fold (upage k1.(mem) pd w).
    split_and!; [done|done|]. intros i Hi. by rewrite W2, N3.
  - intros w Hw Hnw. by rewrite Hp, Old.
  - eapply unch_trans; [exact M|exact U|done|]. intros p Hp'. apply P. destruct (HS p Hp'); tauto.
  - intros p. rewrite <- P, (upages_ext k1.(mem)) by (intros w Hw; apply Hp; lia). specialize (HP p). tauto.
  - intros p. rewrite (upages_ext k1.(mem)) by (intros w Hw; apply Hp; lia). intros Hq. apply Sb. destruct Hq; auto.
Qed.

Lemma grown_map F C c pd v n p k l k1 l1 k2 l2 :
  0 <= v → v + Z.of_nat n < 2 ^ 20 →
  grown F C c pd v n [p] k l k1 l1 → 0 <= F (v + Z.of_nat n) < 4096 →
  (∀ i, 0 <= i < PGSIZE → rd k1.(mem) (p + i) = C (v + Z.of_nat n) i) →
  page_ok k1.(kend) p → ¬ tables k1.(mem) pd p → p ∉ l1 →
  vm_step c pd k1 l1 k2 l2 →
  (∀ w, 0 <= w < 2 ^ 20 → pte k2.(mem) pd w =
     if decide (w = v + Z.of_nat n) then entry (V2P p) (F (v + Z.of_nat n)) else pte k1.(mem) pd w) →
  grown F C c pd v (S n) [] k l k2 l2.
Proof.
  intros Hv Hn [Fr O N Ow Old M P Sb] HF Hz Hp Ht Hl [F2 O2 M2 P2 D2 S2] Hpt.
  pose proof (vo_kend _ _ _ _ O) as He. pose proof (kmem_frame_kend _ _ _ F2) as Hk.
  destruct (V2P_page _ _ He Hp) as (_ & Hu & Hmod & HV).
  destruct (entry_spec (V2P p) (F (v + Z.of_nat n)) Hmod Hu) as (_ & Epr & Ead & _); [done|].
  set (a := v + Z.of_nat n) in *.
  assert (Hpa : pte k2.(mem) pd a = entry (V2P p) (F a)) by (rewrite Hpt, decide_True by (done || lia); done).
  assert (Hua : upage k2.(mem) pd a = p) by (unfold upage; by rewrite Hpa, Ead, HV).
  assert (Hpo : ∀ w, 0 <= w < 2 ^ 20 → w ≠ a → pte k2.(mem) pd w = pte k1.(mem) pd w).
  { intros w Hw Hne. by rewrite Hpt, decide_False. }
  destruct (owned_move k1 pd v n ([p] ++ l1) k2 ([p] ++ l2) (λ q, tables k1.(mem) pd q ∨ q ∈ l1)) as [[W1 W2] W3]; try done.
  { intros q [|]; [by left|right; by right]. }
  { intros q. cbn. rewrite !elem_of_cons. specialize (P2 q). tauto. }
  { intros w Hw. apply Hpo; lia. }
  assert (Hnp : ¬ (tables k2.(mem) pd p ∨ p ∈ l2)) by (rewrite P2; tauto).
  assert (Hold : ∀ w, v <= w < a → upage k2.(mem) pd w = upage k1.(mem) pd w).
  { intros w Hw. unfold upage. by rewrite Hpo by lia. }
  assert (Happ : upages k2.(mem) pd v (S n) = upages k1.(mem) pd v n ++ [p]).
  { replace (S n) with (n + 1)%nat by lia. rewrite upages_app. fold a. cbn [upages].
    rewrite Hpa, Epr, Hua, app_nil_r. f_equal. apply upages_ext. intros w Hw. apply Hpo; lia. }
  split; [by etrans|done| |split| | | |].
  - intros w Hw. destruct (decide (w = a)) as [->|].
    + rewrite Hua, Hpa. split_and!; [done|done|]. intros i Hi. rewrite M2; [by apply Hz|by eapply page_aligned|tauto|done].
    + destruct (N w ltac:(lia)) as (N1 & N2 & N3). rewrite Hold, Hpo by lia. split_and!; [done|done|].
      intros i Hi. rewrite W3 by (done || lia). by apply N3.
  - intros w Hw Hpr. cbn zeta. destruct (decide (w = a)) as [->|]; [rewrite Hua, Hk; tauto|].
    destruct (W1 w ltac:(lia) Hpr) as (Q1 & Q2 & Q3). cbn in *. rewrite not_elem_of_cons in Q3. tauto.
  - intros w w' Hw Hw' Hpr Hpr' E. destruct (decide (w = a)) as [->|], (decide (w' = a)) as [->|]; [done|..].
    + destruct (W1 w' ltac:(lia) Hpr') as (_ & _ & Q3). destruct Q3. rewrite <- E, Hua. by left.
    + destruct (W1 w ltac:(lia) Hpr) as (_ & _ & Q3). destruct Q3. rewrite E, Hua. by left.
    + apply W2; try done; lia.
  - intros w Hw Hnw. rewrite Hpo by lia. apply Old; lia.
  - eapply unch_trans; [exact M|exact M2|done|]. intros q [Hq|Hq]; apply P; cbn; rewrite elem_of_cons; tauto.
  - intros q. rewrite Happ, <- P. cbn. rewrite !elem_of_app, !elem_of_cons, !elem_of_nil. specialize (P2 q). tauto.
  - intros q. rewrite Happ. cbn. rewrite elem_of_app, list_elem_of_singleton. intros Hq. apply Sb. cbn. rewrite elem_of_cons.
    specialize (S2 q). tauto.
Qed.

(** The state after a failed allocuvm(): nothing of the range is mapped, every
    page taken from the free list is free or in a table. *)
Record undone (c : nat) (pd v : Z) (n : nat) (x : list Z) (k : kernel) (l : list Z) (k' : kernel) (l' : list Z) : Prop := {
  un_frame : vm_frame c k k';
  un_ok : vm_ok k' c pd l';
  un_gone : ∀ w, v <= w < v + Z.of_nat n → present (pte k'.(mem) pd w) = false;
  un_old : ∀ w, 0 <= w < 2 ^ 20 → ¬ v <= w < v + Z.of_nat n → pte k'.(mem) pd w = pte k.(mem) pd w;
  un_mem : unch (λ q, tables k.(mem) pd q ∨ q ∈ l) k.(mem) k'.(mem);
  un_pages : ∀ p, tables k'.(mem) pd p ∨ p ∈ x ++ l' ↔ tables k.(mem) pd p ∨ p ∈ l;
}.

Lemma grown_owned_all F C c pd v j n x k l k1 l1 :
  0 <= v → v + Z.of_nat n <= 2 ^ 20 → (j <= n)%nat →
  (∀ w, v <= w < v + Z.of_nat n → present (pte k.(mem) pd w) = false) →
  grown F C c pd v j x k l k1 l1 →
  owned k1 pd v n (x ++ l1) ∧ (∀ p, p ∈ upages k1.(mem) pd v n ↔ p ∈ upages k1.(mem) pd v j).
Proof.
  intros Hv Hn Hj Hnp [Fr O N [H1 H2] Old M P Sb].
  assert (Hlt : ∀ w, v <= w < v + Z.of_nat n → present (pte k1.(mem) pd w) = true → w < v + Z.of_nat j).
  { intros w Hw Hpr. destruct (decide (w < v + Z.of_nat j)); [done|]. rewrite Old, Hnp in Hpr by lia. done. }
  split; [split|].
  - intros w Hw Hpr. pose proof (Hlt w Hw Hpr). apply H1; [lia|done].
  - intros w w' Hw Hw' Hpr Hpr'. pose proof (Hlt w Hw Hpr). pose proof (Hlt w' Hw' Hpr'). apply H2; lia || done.
  - intros p. rewrite !elem_of_upages. split; intros (w & Hw & Hpr & ->); exists w; (split; [|done]).
    + pose proof (Hlt w Hw Hpr). lia.
    + lia.
Qed.

Lemma grown_undo F C c pd oldsz newsz j x k l k1 l1 k2 :
  0 <= oldsz < newsz → newsz <= KERNBASE →
  let v := pages_up oldsz in let n := left_of newsz v in
  (∀ w, v <= w < v + Z.of_nat n → present (pte k.(mem) pd w) = false) → (j <= n)%nat →
  grown F C c pd v j x k l k1 l1 → vm_frame c k1 k2 → vm_ok k2 c pd l1 → k2.(mem) = k1.(mem) →
  (∀ p, p ∈ x → ¬ tables k1.(mem) pd p ∧ p ∉ l1) →
  ∃ k3 l3, deallocuvm pd newsz oldsz k2 = Ok oldsz k3 ∧ undone c pd v n x k l k3 l3 ∧
    (∀ p, p ∈ x → ¬ tables k3.(mem) pd p ∧ p ∉ l3).
Proof.
  intros Ho Hn v n Hnp Hj Hg F2 O2 E2 Hx. unfold KERNBASE in Hn.
  assert (Hv : 0 <= v) by (unfold v, pages_up; Z.to_euclidean_division_equations; lia).
  assert (Hvn : v + Z.of_nat n <= 2 ^ 20) by (unfold n, left_of, v, pages_up in *; Z.to_euclidean_division_equations; lia).
  destruct (grown_owned_all _ _ _ _ _ _ _ _ _ _ _ _ Hv Hvn Hj Hnp Hg) as [[Ow1 Ow2] Hus].
  destruct (deallocuvm_ok k2 c pd l1 newsz oldsz O2) as (k3 & E3 & [F3 O3 P3 M3 T3 D3]); [lia|unfold KERNBASE; lia| |].
  { fold v. fold n. split; rewrite E2, ?(vm_frame_kend _ _ _ F2).
    - intros w Hw Hpr. destruct (Ow1 w Hw Hpr) as (? & ? & Hni). rewrite not_elem_of_app in Hni. cbv zeta. tauto.
    - done. }
  fold v in O3, P3, M3. fold n in O3, P3, M3. rewrite E2 in *. destruct Hg as [Fr O N _ Old M P Sb].
  exists k3, (reverse (upages k1.(mem) pd v n) ++ l1). split; [done|]. split; [split|].
  - etrans; [by apply kmem_vm_frame|]. etrans; [done|by apply kmem_vm_frame].
  - done.
  - intros w Hw. rewrite P3, decide_True by lia. by destruct (present (pte k1.(mem) pd w)) eqn:E.
  - intros w Hw Hnw. rewrite P3, decide_False by done. apply Old; [done|lia].
  - eapply unch_trans; [exact M|exact M3|done|]. intros p [Hp|Hp]; apply P; [tauto|]. apply Hus in Hp. tauto.
  - intros p. rewrite T3, <- P, !elem_of_app, elem_of_reverse, Hus. tauto.
  - intros p Hp. rewrite T3, not_elem_of_app, elem_of_reverse. destruct (Hx p Hp). split_and!; [done| |done].
    rewrite elem_of_upages. intros (w & Hw & Hpr & ->). destruct (Ow1 w Hw Hpr) as (_ & _ & Hni).
    apply Hni, elem_of_app. by left.
Qed.

Lemma left_of_range newsz oldsz : 0 <= oldsz → newsz <= KERNBASE →
  0 <= pages_up oldsz ∧ pages_up oldsz + Z.of_nat (left_of newsz (pages_up oldsz)) <= Z.max (pages_up oldsz) (2 ^ 19).
Proof. intros Ho Hn. unfold left_of, pages_up, KERNBASE in *. Z.to_euclidean_division_equations. lia. Qed.

(** The pages of allocuvm(): user, writable, zeroed. *)
Definition uperm (_ : Z) : Z := Z.lor PTE_W PTE_U.
Definition zero (_ _ : Z) : Z := 0.

Section allocuvm_turn.
  Context (c : nat) (pd oldsz newsz : Z) (k : kernel) (l : list Z).
  #[local] Abbreviation v := (pages_up oldsz).
  #[local] Abbreviation n := (left_of newsz (pages_up oldsz)).
  Hypothesis Ho : 0 <= oldsz < newsz.
  Hypothesis Hn : newsz < KERNBASE.
  Hypothesis Hc : cons_ready k c.
  Hypothesis Hnp : ∀ w, v <= w < v + Z.of_nat n → present (pte k.(mem) pd w) = false.

(** The way out when a page was allocated but not mapped, or not allocated:
    [kfree_all] frees it. *)
Lemma allocuvm_bail j x k1 msg :
  (j <= n)%nat → grown uperm zero c pd v j x k l k1 [] → render (codes msg) [] = Some (codes msg) →
  (∀ p, p ∈ x → ¬ tables k1.(mem) pd p) →
  ∃ k2 l2, (cprintf msg [];; deallocuvm pd newsz oldsz) k1 = Ok oldsz k2 ∧ undone c pd v n x k l k2 l2 ∧
    (∀ p, p ∈ x → ¬ tables k2.(mem) pd p ∧ p ∉ l2).
Proof using Hc Hn Hnp Ho.
  intros Hj Hg Hm Hx. destruct (vm_print k1 c pd [] msg (codes msg)) as (k2 & E2 & F2 & O2 & M2);
    [apply Hg|eapply vm_frame_cons; [apply kmem_vm_frame, Hg|done]|done|].
  erewrite bind_Ok by (exact E2). cbv beta.
  destruct (grown_undo uperm zero c pd oldsz newsz j x k l k1 [] k2) as (k3 & l3 & E3 & U3 & X3); try done; [lia| |].
  { intros p Hp. split; [by apply Hx|apply not_elem_of_nil]. }
  by exists k3, l3.
Qed.

Lemma undone_kfree p k1 l1 :
  undone c pd v n [p] k l k1 l1 → page_ok k.(kend) p → ¬ tables k1.(mem) pd p → p ∉ l1 →
  0 <= v → v + Z.of_nat n <= 2 ^ 20 →
  ∃ k2, kfree p k1 = Ok tt k2 ∧ undone c pd v n [] k l k2 (p :: l1).
Proof using.
  intros [F6 O6 G6 Q6 M6 A6] Hp Ht Hl Hv0 Hv1.
  destruct (vm_kfree k1 c pd l1 p O6) as (k7 & E7 & F7 & O7 & M7 & P7 & T7 & D7); [|done|done|].
  { by rewrite (vm_frame_kend _ _ _ F6). }
  exists k7. split; [done|]. split.
  - etrans; [done|by apply kmem_vm_frame].
  - done.
  - intros w Hw. rewrite P7 by lia. by apply G6.
  - intros w Hw Hnw. rewrite P7 by lia. by apply Q6.
  - eapply unch_trans; [exact M6|exact M7|done|]. intros q ->. apply A6. right. by left.
  - intros q. rewrite T7, <- A6. done.
Qed.

(** One page of allocuvm(): mapped, or everything undone. *)
Lemma allocuvm_page j k1 l1 :
  (j < n)%nat → grown uperm zero c pd v j [] k l k1 l1 →
  ∃ r k2 l2, allocuvm_turn pd oldsz newsz ((v + Z.of_nat j) * 4096) k1 = Ok r k2 ∧
    (r = inl ((v + Z.of_nat (S j)) * 4096) ∧ grown uperm zero c pd v (S j) [] k l k2 l2 ∨
     r = inr 0 ∧ undone c pd v n [] k l k2 l2).
Proof using Hc Hn Hnp Ho.
  intros Hj Hg. destruct (left_of_range newsz oldsz) as [Hv0 Hv1]; [lia|lia|]. unfold KERNBASE in Hn.
  assert (Hvm : v <= 2 ^ 19) by (unfold pages_up; Z.to_euclidean_division_equations; lia).
  set (a := v + Z.of_nat j).
  assert (Ha : a * 4096 < newsz) by (unfold a, left_of in *; Z.to_euclidean_division_equations; lia).
  unfold allocuvm_turn. rewrite (proj2 (Z.ltb_lt _ _) Ha). cbn [negb].
  pose proof (gr_ok _ _ _ _ _ _ _ _ _ _ _ Hg) as O1. destruct l1 as [|p l1].
  { destruct (vm_kalloc k1 c pd [] O1) as (k2 & E2 & F2 & O2 & M2 & K2). erewrite bind_Ok by (exact E2). cbv beta.
    cbn [head default from_option tail id Z.eqb] in *.
    assert (G2 : grown uperm zero c pd v j [] k l k2 []).
    { apply (grown_move uperm zero c pd v j [] k l k1 [] [] k2 [] (λ _, False)); try done; [lia|by rewrite M2|..];
        intros ?; by rewrite M2. }
    destruct (allocuvm_bail j [] k2 ("allocuvm out of memory" +:+ nl)) as (k3 & l3 & E3 & U3 & _);
      [lia|done|reflexivity|by intros p ?%elem_of_nil|].
    exists (inr 0), k3, l3. split; [|by right].
    apply bind_Ok_inv in E3 as ([] & k4 & E4 & E5). erewrite bind_Ok by (exact E4). by erewrite bind_Ok by (exact E5). }
  destruct (zeroed_page k1 c pd p l1 O1) as (k2 & k3 & E2 & E3 & F3 & O3 & Hp0 & Hpp & Hpt & Hpl & M3 & Z3 & P3 & T3).
  erewrite bind_Ok by (exact E2). cbv beta. rewrite (proj2 (Z.eqb_neq _ 0) Hp0). erewrite bind_Ok by (exact E3). cbv beta.
  assert (G3 : grown uperm zero c pd v j [p] k l k3 l1).
  { eapply (grown_move uperm zero c pd v j [] k l k1 (p :: l1)); [lia|lia|done|done|done|exact M3|..|done]; cbn.
    - intros q ->. right. by left.
    - intros q. by rewrite T3.
    - done. }
  destruct (map_fresh k3 c pd l1 a p (Z.lor PTE_W PTE_U) O3 Hpp Hpt Hpl) as (r & k4 & l4 & E4 & S4 & T4 & L4 & Hr);
    [unfold a; lia| |done|].
  { rewrite P3 by (unfold a; lia). rewrite (gr_old _ _ _ _ _ _ _ _ _ _ _ Hg) by (unfold a; lia). apply Hnp. unfold a. lia. }
  erewrite bind_Ok by (exact E4). cbv beta. destruct Hr as [(-> & P4)|(-> & -> & P4)]; cbn [Z.ltb Z.compare].
  { exists (inl ((v + Z.of_nat (S j)) * 4096)), k4, l4. split.
    - unfold PGSIZE. rewrite u32_small by (unfold is_u32, a in *; lia). unfold mret, M_ret, a. do 2 f_equal. lia.
    - left. split; [done|]. eapply (grown_map uperm zero c pd v j p k l k3 l1); (done || lia). }
  assert (G4 : grown uperm zero c pd v j [p] k l k4 []).
  { eapply (grown_move uperm zero c pd v j [p] k l k3 l1); [lia|lia|done|apply S4|apply S4|apply S4|..|done]; cbn.
    - intros q Hq. rewrite elem_of_cons. tauto.
    - intros q. rewrite !elem_of_cons. pose proof (vst_pages _ _ _ _ _ _ S4 q). tauto.
    - intros q. rewrite !elem_of_cons, elem_of_nil. tauto. }
  destruct (allocuvm_bail j [p] k4 ("allocuvm out of memory (2)" +:+ nl)) as (k5 & l5 & E5 & U5 & X5);
    [lia|done|reflexivity|by intros q ->%list_elem_of_singleton|]. destruct (X5 p ltac:(by left)) as [Xt Xl].
  destruct (undone_kfree p k5 l5 U5) as (k6 & E6 & U6); [|done|done|lia|lia|].
  { by rewrite <- (kmem_frame_kend _ _ _ (gr_frame _ _ _ _ _ _ _ _ _ _ _ G3)). }
  exists (inr 0), k6, (p :: l5). split; [|by right].
  apply bind_Ok_inv in E5 as ([] & k7 & E7 & E8). erewrite bind_Ok by (exact E7). erewrite bind_Ok by (exact E8).
  by erewrite bind_Ok by (exact E6).
Qed.

Lemma allocuvm_loop i j k1 l1 fuel :
  (j + i = n)%nat → grown uperm zero c pd v j [] k l k1 l1 → (i < fuel)%nat →
  ∃ r k2 l2, while_fuel fuel (allocuvm_turn pd oldsz newsz) ((v + Z.of_nat j) * 4096) k1 = Ok r k2 ∧
    (r = newsz ∧ grown uperm zero c pd v n [] k l k2 l2 ∨ r = 0 ∧ undone c pd v n [] k l k2 l2).
Proof using Hc Hn Hnp Ho.
  revert j k1 l1 fuel. induction i as [|i IH]; intros j k1 l1 fuel Hj Hg Hf; (destruct fuel as [|fuel]; [lia|]);
    cbn [while_fuel].
  - assert (Ha : newsz <= (v + Z.of_nat j) * 4096) by (unfold left_of in *; Z.to_euclidean_division_equations; lia).
    mstep by (unfold allocuvm_turn; rewrite (proj2 (Z.ltb_ge _ _) Ha); reflexivity).
    exists newsz, k1, l1. split; [done|]. left. split; [done|]. by replace n with j by lia.
  - destruct (allocuvm_page j k1 l1 ltac:(lia) Hg) as (r & k2 & l2 & E2 & [(-> & G2)|(-> & U2)]); mstep by (exact E2).
    + apply (IH (S j) k2 l2); [lia|done|lia].
    + exists 0, k2, l2. split; [done|by right].
Qed.
End allocuvm_turn.

(** allocuvm() on every branch. *)
Lemma allocuvm_ok c pd oldsz newsz k l :
  vm_ok k c pd l → cons_ready k c → 0 <= oldsz <= newsz → newsz < KERNBASE →
  let v := pages_up oldsz in let n := left_of newsz v in
  (∀ w, v <= w < v + Z.of_nat n → present (pte k.(mem) pd w) = false) →
  ∃ r k' l', allocuvm pd oldsz newsz k = Ok r k' ∧
    (r = newsz ∧ grown uperm zero c pd v n [] k l k' l' ∨ r = 0 ∧ undone c pd v n [] k l k' l').
Proof.
  intros Hv Hc Ho Hn v n Hnp. unfold allocuvm. rewrite (proj2 (Z.leb_gt _ _)) by lia.
  rewrite (proj2 (Z.ltb_ge _ _)) by lia. unfold KERNBASE in Hn.
  rewrite PGROUNDUP_div by lia. fold (pages_up oldsz). fold v.
  assert (Hvr : oldsz <= v * 4096 < oldsz + 4096) by (unfold v, pages_up; Z.to_euclidean_division_equations; lia).
  destruct (decide (oldsz = newsz)) as [->|].
  { exists newsz, k, l. split.
    - destruct (Z.to_nat _) eqn:E; [unfold PGSIZE in E; Z.to_euclidean_division_equations; lia|]. cbn [while_fuel].
      mstep by (unfold allocuvm_turn; rewrite (proj2 (Z.ltb_ge _ _)) by lia; reflexivity). done.
    - left. split; [done|]. replace n with O by (unfold n; rewrite left_of_0; lia). by apply grown_0. }
  replace (v * 4096) with ((v + Z.of_nat 0) * 4096) by lia.
  apply (allocuvm_loop c pd oldsz newsz k l ltac:(lia) Hn Hc Hnp n 0 k l); [done|by apply grown_0|].
  fold v. unfold n, left_of, PGSIZE. Z.to_euclidean_division_equations. lia.
Qed.

(** *** setupkvm *)

(** The entries that kmap asks for. *)
Fixpoint kpte (l : list (Z * Z * Z * Z)) (w : Z) : Z :=
  match l with
  | [] => 0
  | (virt, ps, pe, perm) :: l' =>
      if decide (virt / 4096 <= w < virt / 4096 + u32 (pe - ps) / 4096)
      then entry (ps + 4096 * (w - virt / 4096)) perm else kpte l' w
  end.

(** Page-aligned regions in increasing order from page [lo] on. *)
Fixpoint regions (lo : Z) (l : list (Z * Z * Z * Z)) : Prop :=
  match l with
  | [] => 0 <= lo <= 2 ^ 20
  | (virt, ps, pe, perm) :: l' =>
      0 <= lo <= virt / 4096 ∧ virt `mod` 4096 = 0 ∧ ps `mod` 4096 = 0 ∧ 0 <= ps ∧
      u32 (pe - ps) `mod` 4096 = 0 ∧ 0 < u32 (pe - ps) ∧ ps + u32 (pe - ps) <= 2 ^ 32 ∧
      virt / 4096 + u32 (pe - ps) / 4096 <= 2 ^ 20 ∧ 0 <= perm < 4096 ∧
      regions (virt / 4096 + u32 (pe - ps) / 4096) l'
  end.

Lemma kpte_below lo l w : regions lo l → w < lo → kpte l w = 0.
Proof.
  revert lo. induction l as [|[[[virt ps] pe] perm] l IH]; intros lo Hr Hw; [done|]. cbn [kpte regions] in *.
  destruct Hr as (Hlo & _ & _ & _ & _ & Hn & _ & _ & _ & Hr). rewrite decide_False by lia.
  eapply IH; [done|]. pose proof (Z.div_pos (u32 (pe - ps)) 4096). lia.
Qed.

Lemma regions_lo lo l : regions lo l → 0 <= lo <= 2 ^ 20.
Proof. destruct l as [|[[[virt ps] pe] perm] l]; cbn; [lia|]. intros (? & _ & _ & _ & _ & ? & _ & ? & _).
  pose proof (Z.div_pos (u32 (pe - ps)) 4096). lia. Qed.

Lemma kmap_loop_ok reg lo k c pd l :
  vm_ok k c pd l → regions lo reg → (∀ w, lo <= w < 2 ^ 20 → pte k.(mem) pd w = 0) →
  ∃ r k' l', kmap_loop pd reg k = Ok r k' ∧ vm_step c pd k l k' l' ∧
    (∀ w, 0 <= w < lo → pte k'.(mem) pd w = pte k.(mem) pd w) ∧
    (r = true → ∀ w, lo <= w < 2 ^ 20 → pte k'.(mem) pd w = kpte reg w).
Proof.
  revert lo k l. induction reg as [|[[[virt ps] pe] perm] reg IH]; intros lo k l Hv Hr H0; cbn [kmap_loop].
  { exists true, k, l. split; [done|]. split; [by apply vm_step_refl|]. by split. }
  cbn [regions] in Hr. destruct Hr as (Hlo & Hvm & Hpm & Hp0 & Hnm & Hn & Hpe & Hv20 & Hperm & Hr).
  set (n := u32 (pe - ps) / 4096) in *. set (v := virt / 4096) in *.
  assert (Ev : virt = v * 4096) by (pose proof (Z.div_mod virt 4096 ltac:(lia)); unfold v; lia).
  assert (En : u32 (pe - ps) = 4096 * n) by (pose proof (Z.div_mod (u32 (pe - ps)) 4096 ltac:(lia)); unfold n; lia).
  destruct (mappages_ok k c pd l v n ps perm Hv) as (r & k1 & l1 & j & E1 & S1 & P1 & Hc); try lia; try done.
  { intros w Hw. by rewrite H0 by lia. }
  rewrite <- En, <- Ev in E1. erewrite bind_Ok by (exact E1). cbv beta.
  assert (Hj : 0 <= j <= n) by lia.
  destruct Hc as [(-> & ->)|(-> & _ & ->)]; cbn [Z.ltb Z.compare].
  - destruct (IH (v + n) k1 l1) as (r & k2 & l2 & E2 & S2 & P2 & Q2); [apply S1|done| |].
    { intros w Hw. rewrite P1 by lia. unfold mapped. rewrite decide_False by lia. apply H0. lia. }
    exists r, k2, l2. split; [done|]. split; [by eapply vm_step_trans|]. split.
    + intros w Hw. rewrite P2, P1 by lia. unfold mapped. by rewrite decide_False by lia.
    + intros Hrt w Hw. cbn [kpte]. fold v. fold n. destruct (decide (v <= w < v + n)) as [Hin|Hout].
      * rewrite P2, P1 by lia. unfold mapped. by rewrite decide_True.
      * destruct (decide (v + n <= w)); [by rewrite (Q2 Hrt) by lia|].
        rewrite P2, P1 by lia. unfold mapped. rewrite decide_False by lia.
        rewrite H0 by lia. symmetry. eapply kpte_below; [done|lia].
  - exists false, k1, []. split; [done|]. split; [done|]. split; [|done].
    intros w Hw. rewrite P1 by lia. unfold mapped. by rewrite decide_False by lia.
Qed.

(** The linker puts data on a page of its own above the kernel text. *)
Definition data_ok (k : kernel) : Prop :=
  k.(kdata) `mod` 4096 = 0 ∧ KERNLINK < k.(kdata) < KERNBASE + PHYSTOP.

Lemma kmap_regions k : data_ok k → regions (2 ^ 19) (kmap k.(kdata)).
Proof.
  unfold data_ok. intros (Hm & Hd). set (d := kdata k) in *. unfold kmap.
  assert (Ed : V2P d = d - KERNBASE) by (apply u32_small; unfold is_u32, KERNLINK, KERNBASE, EXTMEM, PHYSTOP in *; lia).
  change (V2P KERNLINK) with EXTMEM. rewrite Ed. cbn [regions].
  change (u32 (EXTMEM - 0)) with 1048576. change (u32 (0 - DEVSPACE)) with 33554432.
  unfold KERNLINK, KERNBASE, EXTMEM, PHYSTOP, DEVSPACE in *.
  rewrite !u32_small by (unfold is_u32; lia). split_and!; unfold PTE_W; try done; Z.to_euclidean_division_equations; lia.
Qed.

(** A zeroed page is an empty page directory. *)
Lemma new_space k c p l :
  free_ok k (p :: l) → kmem_ready k c →
  ∃ k1 k2, kalloc k = Ok p k1 ∧ memset p 0 PGSIZE k1 = Ok p k2 ∧ kmem_frame c k k2 ∧ vm_ok k2 c p l ∧
    p ≠ 0 ∧ unch (λ q, q = p) k.(mem) k2.(mem) ∧ (∀ w, 0 <= w < 2 ^ 20 → pte k2.(mem) p w = 0) ∧
    (∀ q, tables k2.(mem) p q ↔ q = p).
Proof.
  intros Hf Hr. destruct (kalloc_ok k c _ Hf Hr) as (k1 & E1 & F1 & O1 & M1). cbn [head tail default from_option id] in *.
  destruct (fo_end _ _ Hf) as [He _]. assert (Hp : page_ok k.(kend) p) by (by eapply Forall_inv, fo_pages).
  pose proof (page_aligned _ _ He Hp) as Ha. set (m := fillm p PGSIZE 0 k1.(mem)).
  assert (Hu : unch (λ q, q = p) k1.(mem) m) by (by apply unch_fillm).
  assert (Hno : ∀ d, 0 <= d < 1024 → table_of m p d = None) by (intros d Hd; unfold table_of, m; by rewrite rd32_fill0).
  assert (Htab : ∀ q, tables m p q ↔ q = p).
  { intros q. split; [|intros ->; by left]. intros [->|(d & Hd & E)]; [done|]. by rewrite Hno in E. }
  destruct (proj1 (NoDup_cons _ _) (fo_nodup _ _ Hf)) as [Hpl _].
  exists k1, (set_mem m k1). split; [done|]. split; [apply memset_ok; by eapply page_kaddr|].
  split; [by apply kmem_frame_mem|]. split_and!; [split|by eapply page_ne0|by rewrite <- M1| |done].
  - eapply free_ok_mem; [done|done|by intros q Hq ->].
  - eapply kmem_frame_ready; [exact (kmem_frame_mem _ _ _ m F1)|done].
  - cbn. rewrite (kmem_frame_kend _ _ _ F1). split; [done|..]; intros d; intros; by rewrite Hno in *.
  - intros q. cbn. rewrite Htab. by intros ->.
  - intros w Hw. unfold pte. cbn. by rewrite Hno by (by apply vpn_index).
Qed.

(** A new address space: only the kernel's half is mapped. *)
Record kspace (k0 : kernel) (c : nat) (l : list Z) (pd : Z) (k : kernel) (l' : list Z) : Prop := {
  ks_frame : kmem_frame c k0 k;
  ks_ok : vm_ok k c pd l';
  ks_user : ∀ w, 0 <= w < 2 ^ 19 → pte k.(mem) pd w = 0;
  ks_kern : ∀ w, 2 ^ 19 <= w < 2 ^ 20 → pte k.(mem) pd w = kpte (kmap k0.(kdata)) w;
  ks_mem : unch (λ q, q ∈ l) k0.(mem) k.(mem);
  ks_pages : ∀ p, tables k.(mem) pd p ∨ p ∈ l' ↔ p ∈ l;
}.

(** Nothing but the order of the free pages changed. *)
Record restored (c : nat) (k : kernel) (l : list Z) (k' : kernel) (l' : list Z) : Prop := {
  rs_frame : kmem_frame c k k';
  rs_free : free_ok k' l';
  rs_pages : ∀ p, p ∈ l' ↔ p ∈ l;
  rs_mem : unch (λ q, q ∈ l) k.(mem) k'.(mem);
}.

Lemma setupkvm_ok k c l :
  free_ok k l → kmem_ready k c → data_ok k →
  ∃ r k' l', setupkvm k = Ok r k' ∧
    (r ≠ 0 ∧ kspace k c l r k' l' ∨ r = 0 ∧ restored c k l k' l').
Proof.
  intros Hf Hr Hd. unfold setupkvm. destruct l as [|p l].
  { destruct (kalloc_ok k c [] Hf Hr) as (k1 & E1 & F1 & O1 & M1). cbn [head tail default from_option id] in *.
    erewrite bind_Ok by (exact E1). cbv beta. exists 0, k1, []. split; [done|]. right. split; [done|].
    split; [done|done|done|]. by rewrite M1. }
  destruct (new_space k c p l Hf Hr) as (k1 & k2 & E1 & E2 & F2 & O2 & Hp0 & M2 & P2 & T2).
  erewrite bind_Ok by (exact E1). cbv beta. rewrite (proj2 (Z.eqb_neq _ 0) Hp0).
  erewrite bind_Ok by (exact E2). cbv beta. change (DEVSPACE <? P2V PHYSTOP) with false. cbv iota. mstep.
  assert (Ed : k2.(kdata) = k.(kdata)) by (by destruct F2 as (h & m & f & -> & _)). rewrite Ed.
  destruct (kmap_loop_ok (kmap k.(kdata)) (2 ^ 19) k2 c p l O2 (kmap_regions k Hd)) as (r & k3 & l3 & E3 & S3 & P3 & Q3).
  { intros w Hw. apply P2. lia. }
  erewrite bind_Ok by (exact E3). cbv beta.
  assert (Hu : unch (λ q, q ∈ p :: l) k.(mem) k3.(mem)).
  { eapply unch_trans; [exact M2|apply S3|intros q ->; by left|]. intros q [->%T2|Hq]; [by left|by right]. }
  assert (Hpg : ∀ q, tables k3.(mem) p q ∨ q ∈ l3 ↔ q ∈ p :: l).
  { intros q. rewrite (vst_pages _ _ _ _ _ _ S3), T2, elem_of_cons. done. }
  assert (F3 : kmem_frame c k k3) by (etrans; [done|apply S3]).
  assert (Hus : ∀ w, 0 <= w < 2 ^ 19 → pte k3.(mem) p w = 0) by (intros w Hw; rewrite P3 by lia; apply P2; lia).
  destruct r.
  { exists p, k3, l3. split; [done|]. left. split; [done|]. split; [done|apply S3|done| |done|done]. by apply Q3. }
  assert (Hno : ∀ w, 0 <= w < 0 + Z.of_nat user_vpns → present (pte k3.(mem) p w) = false).
  { intros w Hw. rewrite user_vpns_Z in Hw. by rewrite Hus by lia. }
  destruct (freevm_ok k3 c p l3) as (k4 & l4 & E4 & F4 & O4 & L4 & M4); [apply S3|split; intros w; intros; by rewrite Hno in *|].
  rewrite (upages_none _ _ _ _ Hno) in *. erewrite bind_Ok by (exact E4). cbv beta.
  exists 0, k4, l4. split; [done|]. right. split; [done|]. split; [by etrans|done| |].
  - intros q. rewrite L4, <- Hpg, elem_of_nil. tauto.
  - eapply unch_trans; [exact Hu|exact M4|done|]. intros q [Hq|?%elem_of_nil]; [|done]. apply Hpg. by left.
Qed.

(** *** copyuvm *)

(** An address space whose pages are none of those written. *)
Lemma vm_other k c pd l k' l' :
  vm_ok k c pd l → kmem_frame c k k' → free_ok k' l' → (∀ p, p ∈ l' → p ∈ l) →
  unch (λ q, q ∈ l) k.(mem) k'.(mem) →
  vm_ok k' c pd l' ∧ (∀ w, 0 <= w < 2 ^ 20 → pte k'.(mem) pd w = pte k.(mem) pd w) ∧
  (∀ q, tables k'.(mem) pd q ↔ tables k.(mem) pd q).
Proof.
  intros Hv Hfr Hf Hl Hu. pose proof (vo_kend _ _ _ _ Hv) as He. pose proof (vo_space _ _ _ _ Hv) as Hsp.
  pose proof (vo_apart _ _ _ _ Hv) as HS. split_and!.
  - split; [done|by eapply kmem_frame_ready; [|apply Hv]| |].
    + rewrite (kmem_frame_kend _ _ _ Hfr). by eapply space_same.
    + intros q Hq Hin. apply (HS q); [|by apply Hl]. by rewrite (tables_same _ _ _ _ _ He Hsp Hu HS) in Hq.
  - intros w Hw. by eapply pte_same.
  - intros q. by eapply tables_same.
Qed.

(** What is mapped in the first [n] pages belongs to the address space and all
    of it is mapped. *)
Definition full (k : kernel) (pd : Z) (n : nat) (l : list Z) : Prop :=
  owned k pd 0 n l ∧ ∀ w, 0 <= w < Z.of_nat n → present (pte k.(mem) pd w) = true.

Definition flags_of (k : kernel) (pd w : Z) : Z := PTE_FLAGS (pte k.(mem) pd w).
Definition bytes_of (k : kernel) (pd w i : Z) : Z := rd k.(mem) (upage k.(mem) pd w + i).

Section copyuvm.
  Context (c : nat) (pd sz_ : Z) (k0 : kernel) (l0 : list Z).
  #[local] Abbreviation n := (left_of sz_ 0).
  Hypothesis Hsz : 0 <= sz_ <= KERNBASE.
  Hypothesis Hpar : vm_ok k0 c pd l0.
  Hypothesis Hfull : full k0 pd n l0.
  Context (d : Z) (k1 : kernel) (l1 : list Z).
  Hypothesis Hks : kspace k0 c l0 d k1 l1.
  #[local] Abbreviation copied j k l := (grown (flags_of k0 pd) (bytes_of k0 pd) c d 0 j [] k1 l1 k l).

Lemma n_range : Z.of_nat n <= 2 ^ 19.
Proof using Hsz. unfold left_of, KERNBASE in *. Z.to_euclidean_division_equations. lia. Qed.

(** The parent while its copy is being made. *)
Lemma copy_parent j k l :
  copied j k l → kmem_frame c k0 k ∧ unch (λ q, q ∈ l0) k0.(mem) k.(mem) ∧ vm_ok k c pd l ∧
    (∀ w, 0 <= w < 2 ^ 20 → pte k.(mem) pd w = pte k0.(mem) pd w).
Proof using Hks Hpar.
  intros [Fr O N Ow Old M P Sb]. destruct Hks as [KF KO KU KK KM KP].
  assert (Hfr : kmem_frame c k0 k) by (by etrans).
  assert (Hu : unch (λ q, q ∈ l0) k0.(mem) k.(mem)).
  { eapply unch_trans; [exact KM|exact M|done|]. intros q Hq. by apply KP. }
  destruct (vm_other k0 c pd l0 k l Hpar Hfr (vo_free _ _ _ _ O)) as (V1 & V2 & _); [|done|done].
  intros p Hp. apply KP, P. right. by left.
Qed.

(** The bytes of a page of the parent. *)
Lemma copy_bytes j k l w i :
  copied j k l → 0 <= w < Z.of_nat n → 0 <= i < PGSIZE →
  rd k.(mem) (upage k0.(mem) pd w + i) = bytes_of k0 pd w i.
Proof using Hfull Hks Hpar Hsz.
  intros Hc Hw Hi. destruct (copy_parent j k l Hc) as (_ & Hu & _). destruct Hfull as [[Ho _] Hp].
  destruct (Ho w ltac:(lia) (Hp w Hw)) as (Q1 & Q2 & Q3).
  apply Hu; [by eapply page_aligned; [apply (vo_kend _ _ _ _ Hpar)|]|done|done].
Qed.

(** Reading the parent's entry. *)
Lemma copy_walk j k l w :
  copied j k l → 0 <= w < Z.of_nat n →
  ∃ a, walkpgdir pd (w * 4096) false k = Ok a k ∧ a ≠ 0 ∧ ld32 a k = Ok (pte k0.(mem) pd w) k.
Proof using Hfull Hks Hpar Hsz.
  intros Hc Hw. destruct (copy_parent j k l Hc) as (_ & _ & Hv & Hp). pose proof n_range as Hn.
  destruct (page_vpn w ltac:(lia)) as [Hu Hd]. pose proof (proj2 Hfull w Hw) as Hpr.
  rewrite (walk_lookup k c pd l) by done. rewrite Hd. rewrite <- (Hp w) in * by lia. unfold pte in Hpr.
  destruct (table_of k.(mem) pd (w / 1024)) as [t|] eqn:Et; [|done].
  destruct (load_pte k c pd l w t Hv ltac:(lia) Et) as [El Hne]. eauto.
Qed.

Lemma PTE_FLAGS_range x : 0 <= PTE_FLAGS x < 4096.
Proof. rewrite PTE_FLAGS_mod. apply Z.mod_pos_bound. lia. Qed.

(** Mapping the page that was just copied, or giving it back. *)
Lemma copyuvm_map j p k3 l :
  (j < n)%nat → grown (flags_of k0 pd) (bytes_of k0 pd) c d 0 j [p] k1 l1 k3 l →
  (∀ i, 0 <= i < PGSIZE → rd k3.(mem) (p + i) = bytes_of k0 pd (0 + Z.of_nat j) i) →
  page_ok k3.(kend) p → ¬ tables k3.(mem) d p → p ∉ l →
  ∃ r k' l', (r ← mappages d (Z.of_nat j * 4096) PGSIZE (V2P p) (flags_of k0 pd (Z.of_nat j));
      if r <? 0 then kfree p;; mret (inr false) else mret (inl (u32 (Z.of_nat j * 4096 + PGSIZE)))) k3 = Ok r k' ∧
    (r = inl (Z.of_nat (S j) * 4096) ∧ copied (S j) k' l' ∨ r = inr false ∧ copied j k' l').
Proof using Hks Hsz.
  intros Hj G3 Hby Hpp Ht Hl. pose proof n_range as Hn.
  destruct (map_fresh k3 c d l (Z.of_nat j) p (flags_of k0 pd (Z.of_nat j)) (gr_ok _ _ _ _ _ _ _ _ _ _ _ G3) Hpp Ht Hl)
    as (r & k4 & l4 & E4 & S4 & T4 & L4 & Hr); [lia| |apply PTE_FLAGS_range|].
  { rewrite (gr_old _ _ _ _ _ _ _ _ _ _ _ G3) by lia. by rewrite (ks_user _ _ _ _ _ _ Hks) by lia. }
  mstep by exact E4. destruct Hr as [(-> & P4)|(-> & -> & P4)]; cbn [Z.ltb Z.compare].
  { exists (inl (Z.of_nat (S j) * 4096)), k4, l4. split.
    - unfold PGSIZE. rewrite u32_small by (unfold is_u32, KERNBASE in *; lia). unfold mret, M_ret. do 2 f_equal. lia.
    - left. split; [done|]. eapply (grown_map _ _ c d 0 j p k1 l1 k3 l); try done; [lia|apply PTE_FLAGS_range]. }
  assert (G4 : grown (flags_of k0 pd) (bytes_of k0 pd) c d 0 j [p] k1 l1 k4 []).
  { eapply (grown_move _ _ c d 0 j [p] k1 l1 k3 l); [lia|lia|done|apply S4|apply S4|apply S4|..|done]; cbn.
    - intros q Hq. rewrite elem_of_cons. tauto.
    - intros q. rewrite !elem_of_cons. pose proof (vst_pages _ _ _ _ _ _ S4 q). tauto.
    - intros q. rewrite !elem_of_cons, elem_of_nil. tauto. }
  destruct (vm_kfree k4 c d [] p) as (k5 & E5 & F5 & O5 & M5 & P5 & T5 & D5); [apply S4| |done|done|].
  { by rewrite (kmem_frame_kend _ _ _ (vst_frame _ _ _ _ _ _ S4)). }
  exists (inr false), k5, [p]. split; [by mstep by exact E5|]. right. split; [done|].
  apply (grown_move _ _ c d 0 j [p] k1 l1 k4 [] [] k5 [p] (λ q, q = p)); try done; [lia|..]; intros q.
  - intros ->. right. by left.
  - by rewrite T5.
Qed.

Lemma copyuvm_page j k l :
  (j < n)%nat → copied j k l →
  ∃ r k' l', copyuvm_turn pd d sz_ (Z.of_nat j * 4096) k = Ok r k' ∧
    (r = inl (Z.of_nat (S j) * 4096) ∧ copied (S j) k' l' ∨ r = inr false ∧ copied j k' l').
Proof using Hfull Hks Hpar Hsz.
  intros Hj Hc. pose proof n_range as Hn. set (a := Z.of_nat j). assert (Ha : 0 <= a < Z.of_nat n) by lia.
  assert (Hlt : a * 4096 < sz_) by (unfold a, left_of in *; Z.to_euclidean_division_equations; lia).
  unfold copyuvm_turn. rewrite (proj2 (Z.ltb_lt _ _) Hlt). cbn [negb].
  destruct (copy_walk j k l a Hc Ha) as (pt & Ew & Hpt & El).
  mstep by exact Ew. rewrite (proj2 (Z.eqb_neq _ 0) Hpt). mstep by exact El.
  pose proof (proj2 Hfull a Ha) as Hpr. unfold present, truth in Hpr.
  destruct (Z.land (pte k0.(mem) pd a) PTE_P =? 0) eqn:Ep; [done|]. fold (upage k0.(mem) pd a).
  pose proof (gr_ok _ _ _ _ _ _ _ _ _ _ _ Hc) as O.
  destruct (vm_kalloc k c d l O) as (k2 & E2 & F2 & O2 & M2 & K2). mstep by exact E2.
  destruct l as [|p l]; cbn [head default from_option tail id Z.eqb] in *.
  { exists (inr false), k2, []. split; [done|]. right. split; [done|].
    apply (grown_move _ _ c d 0 j [] k1 l1 k [] [] k2 [] (λ _, False)); try done; [lia|by rewrite M2|..];
      intros ?; by rewrite M2. }
  destruct (vm_head _ _ _ _ _ O) as (Hp & Hp0 & Ht & Hl). rewrite (proj2 (Z.eqb_neq p 0) Hp0).
  pose proof (vo_kend _ _ _ _ O) as He. pose proof (page_aligned _ _ He Hp) as Hal.
  destruct (proj1 Hfull) as [Ho _]. destruct (Ho a ltac:(lia) (proj2 Hfull a Ha)) as (Q1 & Q2 & Q3).
  pose proof (vo_kend _ _ _ _ Hpar) as He0. pose proof (page_aligned _ _ He0 Q1) as Hsa.
  set (src := upage k0.(mem) pd a) in *. set (m := copym p src PGSIZE k2.(mem)).
  mstep by (apply memmove_ok; [exact (page_kaddr _ _ He Hp)|exact (page_kaddr _ _ He0 Q1)]). fold m.
  assert (Hum : unch (λ q, q = p) k2.(mem) m) by (by apply unch_copym).
  destruct (fresh_write k2 c d l p m O2) as (O3 & P3 & T3); [by rewrite K2|by rewrite M2|done|done|].
  rewrite M2 in Hum. setoid_rewrite M2 in P3. setoid_rewrite M2 in T3. set (k3 := set_mem m k2) in *.
  assert (G3 : grown (flags_of k0 pd) (bytes_of k0 pd) c d 0 j [p] k1 l1 k3 l).
  { apply (grown_move _ _ c d 0 j [] k1 l1 k (p :: l) [p] k3 l (λ q, q = p)); try done; [lia|by apply kmem_frame_mem|..].
    - intros q ->. right. by left.
    - intros q. change (mem k3) with m. by rewrite T3. }
  assert (Hby : ∀ i, 0 <= i < PGSIZE → rd k3.(mem) (p + i) = bytes_of k0 pd (0 + Z.of_nat j) i).
  { intros i Hi. rewrite Z.add_0_l. fold a. rewrite <- (copy_bytes j k (p :: l) a i Hc Ha Hi). cbn. rewrite <- M2.
    by apply rd_copym. }
  assert (Hpp : page_ok k3.(kend) p) by (cbn; by rewrite K2).
  apply (copyuvm_map j p k3 l Hj G3 Hby Hpp); [|done]. change (mem k3) with m. by rewrite T3.
Qed.

Lemma copyuvm_loop i j k l fuel :
  (j + i = n)%nat → copied j k l → (i < fuel)%nat →
  ∃ r k' l' j', while_fuel fuel (copyuvm_turn pd d sz_) (Z.of_nat j * 4096) k = Ok r k' ∧ (j' <= n)%nat ∧
    copied j' k' l' ∧ (r = true → j' = n).
Proof using Hfull Hks Hpar Hsz.
  revert j k l fuel. induction i as [|i IH]; intros j k l fuel Hj Hc Hf; (destruct fuel as [|fuel]; [lia|]);
    cbn [while_fuel].
  - assert (Ha : sz_ <= Z.of_nat j * 4096) by (unfold left_of in *; Z.to_euclidean_division_equations; lia).
    mstep by (unfold copyuvm_turn; rewrite (proj2 (Z.ltb_ge _ _) Ha); reflexivity).
    exists true, k, l, j. split; [done|]. split; [lia|]. split; [done|]. lia.
  - destruct (copyuvm_page j k l ltac:(lia) Hc) as (r & k2 & l2 & E2 & [(-> & G2)|(-> & G2)]); mstep by exact E2.
    + apply (IH (S j) k2 l2); [lia|done|lia].
    + exists false, k2, l2, j. split; [done|]. split; [lia|]. by split.
Qed.
End copyuvm.

(** The child of a fork: the same pages in fresh memory. *)
Record child (c : nat) (pd : Z) (n : nat) (k : kernel) (l : list Z) (d : Z) (k' : kernel) (l' : list Z) : Prop := {
  ch_frame : kmem_frame c k k';
  ch_ok : vm_ok k' c d l';
  ch_full : full k' d n l';
  ch_copy : ∀ w, 0 <= w < Z.of_nat n → flags_of k' d w = flags_of k pd w ∧
    ∀ i, 0 <= i < PGSIZE → bytes_of k' d w i = bytes_of k pd w i;
  ch_rest : ∀ w, Z.of_nat n <= w < 2 ^ 19 → pte k'.(mem) d w = 0;
  ch_kern : ∀ w, 2 ^ 19 <= w < 2 ^ 20 → pte k'.(mem) d w = kpte (kmap k.(kdata)) w;
  ch_mem : unch (λ q, q ∈ l) k.(mem) k'.(mem);
  ch_pages : ∀ p, tables k'.(mem) d p ∨ p ∈ l' ∨ p ∈ upages k'.(mem) d 0 n ↔ p ∈ l;
}.

(** Flags of a present entry keep PTE_P when it is ored in again. *)
Lemma flags_present e : present e = true → Z.lor (PTE_FLAGS e) PTE_P = PTE_FLAGS e.
Proof.
  intros Hp. apply Z.bits_inj'. intros i Hi. rewrite Z.lor_spec. unfold PTE_FLAGS, PTE_P.
  destruct (decide (i = 0)) as [->|].
  - rewrite Z.land_spec. change (Z.testbit 4095 0) with true. rewrite andb_true_r.
    unfold present, truth, PTE_P in Hp. change 1 with (Z.ones 1) in Hp. rewrite Z.land_ones in Hp by lia.
    replace (Z.testbit (u32 e) 0) with true; [done|]. rewrite u32_mod. rewrite Z.mod_pow2_bits_low by lia.
    rewrite Z.bit0_odd. change (2 ^ 1) with 2 in Hp. rewrite Zmod_odd in Hp. by destruct (Z.odd e).
  - replace (Z.testbit 1 i) with false; [apply orb_false_r|]. symmetry.
    change 1 with (2 ^ 0). apply Z.pow2_bits_false. lia.
Qed.

Lemma copyuvm_ok c pd sz_ k l :
  0 <= sz_ <= KERNBASE → vm_ok k c pd l → full k pd (left_of sz_ 0) l → data_ok k →
  ∃ r k' l', copyuvm pd sz_ k = Ok r k' ∧
    (r ≠ 0 ∧ child c pd (left_of sz_ 0) k l r k' l' ∨ r = 0 ∧ restored c k l k' l').
Proof.
  intros Hsz Hv Hfull Hd. unfold copyuvm. pose proof (n_range sz_ Hsz) as Hn. set (n := left_of sz_ 0) in *.
  destruct (setupkvm_ok k c l (vo_free _ _ _ _ Hv) (vo_ready _ _ _ _ Hv) Hd) as (d & k1 & l1 & E1 & [(Hd0 & Hks)|(-> & Hrs)]);
    mstep by exact E1.
  2:{ exists 0, k1, l1. split; [done|by right]. }
  rewrite (proj2 (Z.eqb_neq _ 0) Hd0).
  destruct (copyuvm_loop c pd sz_ k l Hsz Hv Hfull d k1 l1 Hks n 0 k1 l1 (Z.to_nat (sz_ / PGSIZE + 2))) as
    (r & k2 & l2 & j & E2 & Hj & Hc & Hr); [done|apply grown_0, Hks| |].
  { unfold n, left_of, PGSIZE. Z.to_euclidean_division_equations. lia. }
  mstep by exact E2. destruct Hc as [Fr O N Ow Old M P Sb] eqn:EHc. clear EHc.
  destruct Hks as [KF KO KU KK KM KP].
  assert (Hu : unch (λ q, q ∈ l) k.(mem) k2.(mem)).
  { eapply unch_trans; [exact KM|exact M|done|]. intros q Hq. by apply KP. }
  destruct r.
  - rewrite (Hr eq_refl) in *. exists d, k2, l2. split; [done|]. left. split; [done|].
    assert (Hnew : ∀ w, 0 <= w < Z.of_nat n → present (pte k2.(mem) d w) = true) by (intros w Hw; by apply N).
    split; [by etrans|done|by split| | | |done|].
    + intros w Hw. destruct (N w Hw) as (N1 & N2 & N3). split; [|done]. unfold flags_of at 1. rewrite N1.
      pose proof (ow_page _ _ _ _ _ Ow w Hw N2) as (Q1 & _). pose proof (vo_kend _ _ _ _ O) as He.
      destruct (V2P_page _ _ He Q1) as (_ & Hup & Hmod & _).
      destruct (entry_spec _ (flags_of k pd w) Hmod Hup (PTE_FLAGS_range _)) as (_ & _ & _ & ->).
      apply flags_present. by apply Hfull.
    + intros w Hw. rewrite Old by lia. apply KU. lia.
    + intros w Hw. rewrite Old by lia. by apply KK.
    + intros p. rewrite <- KP, <- P. cbn. tauto.
  - destruct (grown_owned_all (flags_of k pd) (bytes_of k pd) c d 0 j user_vpns [] k1 l1 k2 l2) as [Hou Hup];
      [lia|rewrite user_vpns_Z; lia|apply Nat2Z.inj_le; rewrite user_vpns_Z; lia| |done|].
    { intros w Hw. rewrite user_vpns_Z in Hw. by rewrite KU by lia. }
    destruct (freevm_ok k2 c d l2 O Hou) as (k3 & l3 & E3 & F3 & O3 & L3 & M3). mstep by exact E3.
    exists 0, k3, l3. split; [done|]. right. split; [done|]. split; [by etrans; [|etrans]|done| |].
    + intros p. rewrite L3, Hup, <- KP, <- P. cbn. tauto.
    + eapply unch_trans; [exact Hu|exact M3|done|]. intros q [Hq|Hq%Hup]; apply KP, P; cbn; tauto.
Qed.


(** *** copyout *)

(** The kernel address of the byte at user address [a]. *)
Definition uaddr (m : Z → Z) (pd a : Z) : Z := upage m pd (a / 4096) + a `mod` 4096.

(** Virtual page [w] may be read and written by the user. *)
Definition user_page (m : Z → Z) (pd w : Z) : Prop :=
  present (pte m pd w) = true ∧ truth (Z.land (pte m pd w) PTE_U) = true.

Lemma uva2ka_ok k c pd l w :
  vm_ok k c pd l → 0 <= w < 2 ^ 20 → user_page k.(mem) pd w →
  uva2ka pd (w * 4096) k = Ok (upage k.(mem) pd w) k.
Proof.
  intros Hv Hw [Hp Hu]. destruct (page_vpn w Hw) as [Hw32 Hd]. unfold uva2ka.
  mstep by (by apply (walk_lookup k c pd l)). rewrite Hd. pose proof Hp as Hp'. unfold pte in Hp'.
  destruct (table_of k.(mem) pd (w / 1024)) as [t|] eqn:Et; [|done]. clear Hp'.
  destruct (load_pte k c pd l w t Hv Hw Et) as [El _].
  mstep by exact El. unfold present, truth in Hp, Hu.
  destruct (Z.land (pte k.(mem) pd w) PTE_P =? 0); [done|]. mstep by exact El.
  destruct (Z.land (pte k.(mem) pd w) PTE_U =? 0); [done|]. mstep by exact El. done.
Qed.

(** The user pages [va, va+len) lies in: owned by the address space, and not
    the pages the bytes come from. *)
Record out_ok (k : kernel) (pd : Z) (l : list Z) (va len src : Z) : Prop := {
  oo_va : 0 <= va ∧ va + len <= 2 ^ 32;
  oo_src : kaddr src len;
  oo_page : ∀ a, va <= a < va + len →
    user_page k.(mem) pd (a / 4096) ∧ page_ok k.(kend) (upage k.(mem) pd (a / 4096)) ∧
    ¬ tables k.(mem) pd (upage k.(mem) pd (a / 4096)) ∧ (upage k.(mem) pd (a / 4096) ∉ l);
  oo_apart : ∀ a i, va <= a < va + len → 0 <= i < len → uaddr k.(mem) pd a ≠ src + i;
  oo_inj : ∀ a b, va <= a < va + len → va <= b < va + len →
    uaddr k.(mem) pd a = uaddr k.(mem) pd b → a = b;
}.

(** [m'] is [m] with the bytes of [src] at the user addresses from [va] on. *)
Definition outm (m : Z → Z) (pd va len src : Z) (m' : Z → Z) : Prop :=
  (∀ i, 0 <= i < len → rd m' (uaddr m pd (va + i)) = rd m (src + i)) ∧
  (∀ x, is_u32 x → (∀ a, va <= a < va + len → x ≠ uaddr m pd a) → rd m' x = rd m x).

(** One page's worth of copyout(). *)
Lemma copyout_chunk k c pd l va src len :
  vm_ok k c pd l → out_ok k pd l va len src → 0 < len →
  let n := Z.min (4096 - va `mod` 4096) len in
  ∃ m1, copyout_turn pd (va, src, len) k = Ok (inl (u32 ((va / 4096 + 1) * 4096), u32 (src + n), len - n)) (set_mem m1 k) ∧
    outm k.(mem) pd va n src m1 ∧ unch (λ q, q = upage k.(mem) pd (va / 4096)) k.(mem) m1 ∧ 0 < n <= len ∧
    (n < len → va + n = (va / 4096 + 1) * 4096).
Proof.
  intros Hv Ho Hlen n. destruct Ho as [Hva Hsrc Hpg Hap Hinj]. destruct (Hpg va ltac:(lia)) as (Hus & Hpp & _).
  pose proof (Z.mod_pos_bound va 4096 ltac:(lia)) as Hmod. pose proof (Z.div_mod va 4096 ltac:(lia)) as Hdm.
  set (w := va / 4096) in *. set (o := va `mod` 4096) in *. assert (Hn : 0 < n <= len) by lia.
  assert (Hw : 0 <= w < 2 ^ 20) by (apply va_vpn; unfold is_u32; lia).
  set (u := upage k.(mem) pd w) in *. pose proof (page_aligned _ _ (vo_kend _ _ _ _ Hv) Hpp) as Hal.
  assert (Huk : kaddr (u + o) n) by (unfold aligned, kaddr, PGSIZE, KERNBASE in *; lia).
  assert (Hu0 : u ≠ 0) by (unfold aligned, KERNBASE in *; lia).
  assert (Hrow : ∀ i, 0 <= i < n → uaddr k.(mem) pd (va + i) = u + o + i).
  { intros i Hi. unfold uaddr. replace ((va + i) / 4096) with w by (unfold w; Z.to_euclidean_division_equations; lia).
    replace ((va + i) `mod` 4096) with (o + i) by (unfold o; Z.to_euclidean_division_equations; lia). fold u. lia. }
  set (m1 := copym (u + o) src n k.(mem)). exists m1. split_and!; [|split| |lia|lia|lia].
  - unfold copyout_turn. rewrite (proj2 (Z.eqb_neq len 0)) by lia.
    rewrite PGROUNDDOWN_div by (unfold is_u32; lia). fold w. mstep by (by eapply uva2ka_ok). fold u.
    rewrite (proj2 (Z.eqb_neq u 0) Hu0). replace (va - w * 4096) with o by lia.
    rewrite (u32_small (u + o)) by (unfold kaddr, KERNBASE, is_u32 in *; lia).
    unfold PGSIZE. rewrite (u32_small (4096 - o)) by (unfold is_u32; lia). fold n.
    mstep by (apply memmove_ok; [done|unfold kaddr in *; lia]). fold m1. unfold mret, M_ret.
    do 4 f_equal. f_equal. lia.
  - intros i Hi. rewrite Hrow by done. rewrite !rd_val by (unfold kaddr, KERNBASE, is_u32 in *; lia).
    unfold m1, copym. inside_cases; [|lia]. rewrite u8_small by apply u8_range. do 2 f_equal. lia.
  - intros x Hx Hne. rewrite !rd_val by done. unfold m1, copym. inside_cases; [|done].
    destruct (Hne (va + (x - (u + o)))); [lia|]. rewrite Hrow by lia. lia.
  - apply unch_page; [done|]. intros x Hx Hne. rewrite !rd_val by done. unfold m1, copym. inside_cases; [unfold PGSIZE in *; lia|done].
Qed.

Lemma copyout_loop fuel k c pd l va src len :
  vm_ok k c pd l → out_ok k pd l va len src → 0 <= len → len / 4096 + 2 < Z.of_nat fuel ∨ (va `mod` 4096 = 0 ∧ len / 4096 + 1 < Z.of_nat fuel) →
  ∃ m', while_fuel fuel (copyout_turn pd) (va, src, len) k = Ok 0 (set_mem m' k) ∧ outm k.(mem) pd va len src m'.
Proof.
  revert k va src len. induction fuel as [|fuel IH]; intros k va src len Hv Ho Hlen Hf.
  { exfalso. assert (0 <= len / 4096) by (apply Z.div_pos; lia). lia. }
  cbn [while_fuel]. destruct (decide (len = 0)) as [->|Hne].
  { mstep. exists k.(mem). rewrite set_mem_id. split; [done|]. split; [lia|done]. }
  destruct (copyout_chunk k c pd l va src len Hv Ho ltac:(lia)) as (m1 & E1 & [C1 C2] & U1 & Hn & Hnl). mstep by exact E1.
  set (n := Z.min _ _) in *. set (w := va / 4096) in *.
  pose proof (Z.mod_pos_bound va 4096 ltac:(lia)) as Hmod. pose proof (Z.div_mod va 4096 ltac:(lia)) as Hdm. fold w in Hdm.
  destruct (decide (n = len)) as [Hnlen|Hnlen].
  { destruct fuel as [|fuel]; [exfalso; assert (0 <= len / 4096) by (apply Z.div_pos; lia); lia|].
    cbn [while_fuel]. rewrite Hnlen, Z.sub_diag. mstep. exists m1. rewrite Hnlen in *. done. }
  destruct Ho as [Hva Hsrc Hpg Hap Hinj]. destruct (Hpg va ltac:(lia)) as (_ & Hpp & Hnt & Hnl').
  destruct (fresh_write k c pd l _ m1 Hv Hpp Hnt Hnl' U1) as (V1 & P1 & T1).
  specialize (Hnl ltac:(lia)).
  assert (Hup : ∀ a, va <= a < va + len → upage m1 pd (a / 4096) = upage k.(mem) pd (a / 4096)).
  { intros a Ha. unfold upage. by rewrite P1 by (apply va_vpn; unfold is_u32; lia). }
  assert (Hua : ∀ a, va <= a < va + len → uaddr m1 pd a = uaddr k.(mem) pd a) by (intros a Ha; unfold uaddr; by rewrite Hup).
  assert (Huu : ∀ a, va <= a < va + len → is_u32 (uaddr k.(mem) pd a)).
  { intros a Ha. destruct (Hpg a Ha) as (_ & Hpa & _). pose proof (page_aligned _ _ (vo_kend _ _ _ _ Hv) Hpa) as Hal.
    pose proof (Z.mod_pos_bound a 4096 ltac:(lia)). unfold uaddr, aligned, is_u32, KERNBASE, PGSIZE in *. lia. }
  rewrite (u32_small ((w + 1) * 4096)) by (unfold is_u32; lia). rewrite <- Hnl.
  rewrite (u32_small (src + n)) by (unfold kaddr, KERNBASE, is_u32 in *; lia).
  destruct (IH (set_mem m1 k) (va + n) (src + n) (len - n) V1) as (m2 & E2 & D1 & D2).
  - split; cbn.
    + lia.
    + unfold kaddr in *. lia.
    + intros a Ha. rewrite Hup by lia. unfold user_page. rewrite P1 by (apply va_vpn; unfold is_u32; lia).
      rewrite T1. apply Hpg. lia.
    + intros a i Ha Hi. rewrite Hua by lia. rewrite <- Z.add_assoc. apply Hap; lia.
    + intros a b Ha Hb. rewrite !Hua by lia. apply Hinj; lia.
  - lia.
  - right. split; [rewrite Hnl; by apply Z.mod_mul|].
    destruct Hf as [Hf|[H0 Hf]]; [assert ((len - n) / 4096 <= len / 4096) by (apply Z.div_le_mono; lia); lia|].
    assert (n = 4096) by lia. replace (len - n) with (len + (-1) * 4096) by lia. rewrite Z.div_add by lia. lia.
  - exists m2. split; [exact E2|]. cbn in D1, D2. split.
    + intros i Hi. destruct (decide (i < n)) as [Hin|Hin].
      * rewrite D2; [apply C1; lia|apply Huu; lia|].
        intros a Ha. rewrite Hua by lia. intros E%Hinj; lia.
      * specialize (D1 (i - n) ltac:(lia)). rewrite Hua in D1 by lia.
        replace (va + n + (i - n)) with (va + i) in D1 by lia. rewrite D1.
        replace (src + n + (i - n)) with (src + i) by lia. apply C2; [unfold kaddr, KERNBASE, is_u32 in *; lia|].
        intros a Ha E. symmetry in E. revert E. apply Hap; lia.
    + intros x Hx Hnx. rewrite D2; [|done|].
      * apply C2; [done|]. intros a Ha. apply Hnx. lia.
      * intros a Ha. rewrite Hua by lia. apply Hnx. lia.
Qed.

(** ** Properties *)

(** *** A small address space for the examples *)

(** A directory with one table and one user page; three pages are free. *)
Definition demo_pd : Z := 0x80200000.
Definition demo_tab : Z := 0x80201000.
Definition demo_user : Z := 0x80202000.
Definition demo_free : list Z := [0x80203000; 0x80204000; 0x80205000].

Definition demo_m0 : Z → Z := wr32 0x80203000 0x80204000 (wr32 0x80204000 0x80205000 (λ _, 0)).
Definition demo_m1 : Z → Z := wr32 (demo_pd + 4 * 0) (Z.lor (V2P demo_tab) 7) (fillm demo_tab PGSIZE 0 demo_m0).
Definition demo_m2 : Z → Z := wr32 (demo_tab + 4 * (0 `mod` 1024)) (entry (V2P demo_user) 6) demo_m1.

Definition demo_vm : kernel :=
  set_kdata 0x80108000 (set_kmem (mk_kmem 0 0x80203000) (set_mem demo_m2 (boot_kernel 1))).

Lemma demo_end : KERNBASE < demo_vm.(kend).
Proof. done. Qed.

Lemma demo_page p : p ∈ [demo_pd; demo_tab; demo_user] ++ demo_free → page_ok demo_vm.(kend) p.
Proof. intros Hp. repeat (apply elem_of_cons in Hp as [->|Hp]; [split_and!; vm_compute; congruence|]). by apply elem_of_nil in Hp. Qed.

Lemma demo_zero p i : demo_pd <= p <= demo_user → 0 <= i < 1024 → rd32 demo_m0 (p + 4 * i) = 0.
Proof.
  unfold demo_pd, demo_user. intros Hp Hi. unfold demo_m0.
  rewrite !rd32_wr32_ne; [by unfold rd32, rd|..]; unfold kaddr, KERNBASE in *; lia.
Qed.

Lemma demo_space0 : space demo_vm.(kend) demo_m0 demo_pd ∧ (∀ d, 0 <= d < 1024 → table_of demo_m0 demo_pd d = None).
Proof.
  assert (Hn : ∀ d, 0 <= d < 1024 → table_of demo_m0 demo_pd d = None).
  { intros d Hd. unfold table_of. rewrite demo_zero; [done|by vm_compute|done]. }
  split; [|done]. split; [apply demo_page; by left|..]; intros d; intros; by rewrite Hn in *.
Qed.

Lemma demo_space : space demo_vm.(kend) demo_m2 demo_pd ∧
  (∀ w, 0 <= w < 2 ^ 20 → pte demo_m2 demo_pd w = if decide (w = 0) then entry (V2P demo_user) 6 else 0) ∧
  (∀ p, tables demo_m2 demo_pd p ↔ p = demo_pd ∨ p = demo_tab).
Proof.
  destruct demo_space0 as [S0 N0]. assert (Ht0 : ∀ p, tables demo_m0 demo_pd p ↔ p = demo_pd).
  { intros p. split; [|intros ->; by left]. intros [->|(d & Hd & E)]; [done|]. by rewrite N0 in E. }
  destruct (new_table demo_vm.(kend) demo_m0 demo_pd demo_end S0 0 demo_tab 7) as (N1 & N2 & N3 & _ & N5 & _);
    [lia|apply N0; lia|apply demo_page; set_solver|by rewrite Ht0|lia|done|].
  fold demo_m1 in N1, N2, N3, N5.
  destruct (set_pte demo_vm.(kend) demo_m1 demo_pd demo_end N2 0 demo_tab (entry (V2P demo_user) 6)) as (S1 & S2 & _ & S4 & _);
    [lia|done|done|]. fold demo_m2 in S1, S2, S4.
  split_and!; [done| |].
  - intros w Hw. rewrite S2 by done. destruct (decide (w = 0)); [done|]. rewrite N3 by done. unfold pte.
    destruct (vpn_index w Hw) as [Hd _]. by rewrite N0.
  - intros p. rewrite S4, N5, Ht0. done.
Qed.

Lemma demo_vm_ok : vm_ok demo_vm 0 demo_pd demo_free.
Proof.
  destruct demo_space as (S1 & S2 & S3). split.
  - split; [vm_compute; auto|by apply (bool_decide_unpack _)|repeat constructor; vm_compute; congruence|split; vm_compute; congruence].
  - by left.
  - done.
  - intros p [->| ->]%S3; by apply (bool_decide_unpack _).
Qed.

Lemma demo_pte0 : pte demo_m2 demo_pd 0 = entry (V2P demo_user) 6.
Proof. destruct demo_space as (_ & S2 & _). by rewrite S2 by lia. Qed.

Lemma demo_upage : upage demo_m2 demo_pd 0 = demo_user.
Proof. unfold upage. rewrite demo_pte0. by vm_compute. Qed.

Lemma demo_full : full demo_vm demo_pd 1 demo_free.
Proof.
  destruct demo_space as (_ & _ & S3). unfold full. change (mem demo_vm) with demo_m2.
  assert (Hp : ∀ w, 0 <= w < 0 + Z.of_nat 1 → w = 0) by lia.
  split; [split|]; change (mem demo_vm) with demo_m2.
  - intros w Hw _. rewrite (Hp w Hw), demo_upage. split_and!.
    + apply demo_page. do 2 right. by left.
    + rewrite S3. by intros [?|?].
    + by apply (bool_decide_unpack _).
  - intros w w' Hw Hw' _ _ _. by rewrite (Hp w Hw), (Hp w' Hw').
  - intros w Hw. rewrite (Hp w Hw), demo_pte0. by vm_compute.
Qed.

(** *** The theorems *)

(** Mappages() of n page-aligned pages that are not mapped yet either maps
    page v+i to physical page pa/4096+i with the permissions asked for, for
    all i < n, or returns -1 when no page is left for a page table; no other
    entry of the address space changes, pages move only from the free list
    to the tables, and no page outside them is written. *)
Theorem mappages_maps k c pd l v n pa perm :
  vm_ok k c pd l → 0 <= v → 0 < n → v + n <= 2 ^ 20 →
  (∀ w, v <= w < v + n → present (pte k.(mem) pd w) = false) →
  pa `mod` 4096 = 0 → 0 <= pa → pa + 4096 * n <= 2 ^ 32 → 0 <= perm < 4096 →
  ∃ r k' l', mappages pd (v * 4096) (4096 * n) pa perm k = Ok r k' ∧ vm_step c pd k l k' l' ∧
    (r = 0 ∨ r = -1 ∧ l' = []) ∧
    (∀ w, 0 <= w < 2 ^ 20 → ¬ v <= w < v + n → pte k'.(mem) pd w = pte k.(mem) pd w) ∧
    (r = 0 → ∀ w, v <= w < v + n →
       present (pte k'.(mem) pd w) = true ∧ PTE_ADDR (pte k'.(mem) pd w) = pa + 4096 * (w - v) ∧
       PTE_FLAGS (pte k'.(mem) pd w) = Z.lor perm PTE_P).
Proof.
  intros Hv Hv0 Hn Hvn Hnp Hpa Hp0 Hpn Hpm.
  destruct (mappages_ok k c pd l v n pa perm) as (r & k' & l' & j & E & Hs & Hpt & Hr); try done.
  assert (Hj : 0 <= j <= n) by (destruct Hr as [[_ ->]|(_ & ? & _)]; lia).
  exists r, k', l'. split; [done|]. split; [done|]. split; [naive_solver|]. split.
  - intros w Hw Hnw. rewrite Hpt by done. unfold mapped. by rewrite decide_False by lia.
  - intros -> w Hw. rewrite Hpt by lia. unfold mapped. rewrite decide_True by (destruct Hr as [[_ ->]|[? _]]; lia).
    destruct (entry_spec (pa + 4096 * (w - v)) perm) as (_ & ? & ? & ?); [| |done|done].
    + rewrite Z.add_mod, Hpa, Z.mul_comm, Z.mod_mul by lia. done.
    + unfold is_u32. lia.
Qed.

Lemma mappages_maps_witness :
  ∃ r k' l', mappages demo_pd (1 * 4096) (4096 * 2) 0x300000 6 demo_vm = Ok r k' ∧ vm_step 0 demo_pd demo_vm demo_free k' l'.
Proof.
  destruct (mappages_maps demo_vm 0 demo_pd demo_free 1 2 0x300000 6 demo_vm_ok) as (r & k' & l' & E & Hs & _);
    [lia|lia|lia| |done|lia|lia|lia|].
  - intros w Hw. destruct demo_space as (_ & S2 & _). change (mem demo_vm) with demo_m2.
    rewrite S2 by lia. by rewrite decide_False by lia.
  - exists r, k', l'. split; [exact E|exact Hs].
Defined.

(** C37: growing a process never loses a page. allocuvm(pgdir, oldsz, newsz)
    either returns newsz with every page of the new range mapped user and
    writable to a page of its own that is all zeros, or returns 0 with none of
    the range mapped and every page it had taken back on the free list (or
    in a page table of pgdir); the old part of the address space and every
    page that was not free are untouched. *)
Theorem allocuvm_grows c pd oldsz newsz k l :
  vm_ok k c pd l → cons_ready k c → 0 <= oldsz <= newsz → newsz < KERNBASE →
  (∀ w, pages_up oldsz <= w < pages_up newsz → present (pte k.(mem) pd w) = false) →
  ∃ r k' l', allocuvm pd oldsz newsz k = Ok r k' ∧ vm_ok k' c pd l' ∧ (r = newsz ∨ r = 0) ∧
    (∀ w, 0 <= w < 2 ^ 20 → ¬ pages_up oldsz <= w < pages_up newsz → pte k'.(mem) pd w = pte k.(mem) pd w) ∧
    unch (λ q, tables k.(mem) pd q ∨ q ∈ l) k.(mem) k'.(mem) ∧
    (r = newsz ∧ newsz ≠ 0 → ∀ w, pages_up oldsz <= w < pages_up newsz →
       present (pte k'.(mem) pd w) = true ∧ PTE_FLAGS (pte k'.(mem) pd w) = 7 ∧
       upage k'.(mem) pd w ∈ l ∧ (upage k'.(mem) pd w ∉ l') ∧
       ∀ i, 0 <= i < PGSIZE → rd k'.(mem) (upage k'.(mem) pd w + i) = 0) ∧
    (r = newsz ∧ newsz ≠ 0 → ∀ p,
       tables k'.(mem) pd p ∨ p ∈ l' ∨ (∃ w, pages_up oldsz <= w < pages_up newsz ∧ p = upage k'.(mem) pd w) ↔
       tables k.(mem) pd p ∨ p ∈ l) ∧
    (r = 0 ∧ newsz ≠ 0 → (∀ w, pages_up oldsz <= w < pages_up newsz → present (pte k'.(mem) pd w) = false) ∧
       ∀ p, tables k'.(mem) pd p ∨ p ∈ l' ↔ tables k.(mem) pd p ∨ p ∈ l).
Proof.
  intros Hv Hc Ho Hn Hnp. set (v := pages_up oldsz) in *. set (n := left_of newsz v).
  assert (Hvn : v + Z.of_nat n = pages_up newsz).
  { unfold n, left_of, v, pages_up. Z.to_euclidean_division_equations. lia. }
  destruct (left_of_range newsz oldsz) as [Hv0 Hv1]; [lia|lia|]. fold v in Hv0, Hv1. fold n in Hv1.
  assert (Hvm : v <= 2 ^ 19) by (unfold v, pages_up, KERNBASE in *; Z.to_euclidean_division_equations; lia).
  destruct (allocuvm_ok c pd oldsz newsz k l Hv Hc Ho Hn) as (r & k' & l' & E & Hr).
  { fold v. fold n. rewrite Hvn. done. }
  fold v in Hr. fold n in Hr. rewrite <- Hvn. exists r, k', l'. split; [done|].
  destruct Hr as [(-> & [Fr O N Ow Old M P Sb])|(-> & [Fr O G Old M P])].
  - split; [done|]. split; [by left|]. split; [done|]. split; [done|]. split; [|split; [|by intros [? ?]]].
    2:{ intros _ p. rewrite <- P. cbn. rewrite elem_of_upages. naive_solver. }
    intros _ w Hw. destruct (N w Hw) as (N1 & N2 & N3). pose proof (ow_page _ _ _ _ _ Ow w Hw N2) as (Q1 & Q2 & Q3).
    destruct (V2P_page _ _ (vo_kend _ _ _ _ O) Q1) as (_ & Hup & Hmod & _).
    split; [done|]. split; [|split; [|done]].
    + rewrite N1. by destruct (entry_spec _ (uperm w) Hmod Hup) as (_ & _ & _ & ->).
    + assert (Hin : upage k'.(mem) pd w ∈ upages k'.(mem) pd v n) by (apply elem_of_upages; by exists w).
      apply Sb. by right.
  - split; [done|]. split; [by right|]. split; [done|]. split; [done|]. split; [lia|]. split; [lia|]. intros _. split; [done|].
    intros p. rewrite <- P. done.
Qed.

Lemma demo_cons : cons_ready demo_vm 0.
Proof. split; [split; by vm_compute|by left]. Qed.

Lemma allocuvm_grows_witness :
  ∃ r k' l', allocuvm demo_pd 4096 12000 demo_vm = Ok r k' ∧ vm_ok k' 0 demo_pd l' ∧ (r = 12000 ∨ r = 0).
Proof.
  destruct (allocuvm_grows 0 demo_pd 4096 12000 demo_vm demo_free demo_vm_ok demo_cons) as (r & k' & l' & E & Hv & Hr & _);
    [lia|by unfold KERNBASE| |].
  - change (pages_up 4096) with 1. change (pages_up 12000) with 3. intros w Hw.
    destruct demo_space as (_ & S2 & _). change (mem demo_vm) with demo_m2. rewrite S2 by lia. by rewrite decide_False by lia.
  - exists r, k', l'. split; [exact E|]. split; [exact Hv|exact Hr].
Defined.

(** C38: freevm() gives back exactly what the address space owned: afterwards
    the free list holds, once each, the pages that were free, the pages of
    the directory and its tables, and the pages mapped below KERNBASE. Nothing
    else is written, and it never panics. *)
Theorem freevm_frees_all k c pd l :
  vm_ok k c pd l → owned k pd 0 user_vpns l →
  ∃ k' l', freevm pd k = Ok tt k' ∧ free_ok k' l' ∧ kmem_frame c k k' ∧
    (∀ p, p ∈ l' ↔ p ∈ l ∨ tables k.(mem) pd p ∨
       ∃ w, 0 <= w < 2 ^ 19 ∧ present (pte k.(mem) pd w) = true ∧ p = upage k.(mem) pd w) ∧
    unch (λ q, q ∈ l') k.(mem) k'.(mem).
Proof.
  intros Hv Ho. destruct (freevm_ok k c pd l Hv Ho) as (k' & l' & E & Hfr & Hf & Hl & Hu).
  exists k', l'. split_and!; [done|done|done| |].
  - intros p. rewrite Hl, elem_of_upages, Z.add_0_l, user_vpns_Z. done.
  - eapply unch_mono; [exact Hu|]. intros p Hp. apply Hl. by right.
Qed.

(** Only the first page of the small address space is mapped. *)
Lemma demo_owned : owned demo_vm demo_pd 0 user_vpns demo_free.
Proof.
  destruct demo_full as [[H1 H2] _]. destruct demo_space as (_ & S2 & _).
  assert (H0 : ∀ w, 0 <= w < 0 + Z.of_nat user_vpns → present (pte demo_vm.(mem) demo_pd w) = true → w = 0).
  { intros w Hw. rewrite user_vpns_Z in Hw. change (mem demo_vm) with demo_m2. rewrite S2 by lia. by destruct (decide (w = 0)). }
  split.
  - intros w Hw Hp. pose proof (H0 w Hw Hp) as ->. apply H1; [lia|exact Hp].
  - intros w w' Hw Hw' Hp Hp' _. by rewrite (H0 w Hw Hp), (H0 w' Hw' Hp').
Qed.

Lemma freevm_frees_all_witness :
  ∃ k' (l' : list Z), freevm demo_pd demo_vm = Ok tt k' ∧ demo_pd ∈ l' ∧ demo_tab ∈ l' ∧ demo_user ∈ l'.
Proof.
  destruct (freevm_frees_all demo_vm 0 demo_pd demo_free demo_vm_ok demo_owned) as (k' & l' & E & _ & _ & Hl & _).
  destruct demo_space as (_ & _ & S3). exists k', l'. split; [exact E|]. split_and!; apply Hl; right.
  - left. apply S3. by left.
  - left. apply S3. by right.
  - right. exists 0. split; [lia|]. change (mem demo_vm) with demo_m2. rewrite demo_upage, demo_pte0. split; [by vm_compute|reflexivity].
Defined.

(** C39: fork's copy is faithful and separate. copyuvm() of a process of size
    sz either returns a new address space whose pages 0..sz/4096 have the same
    flags and the same bytes as the parent's, in pages that were free, with
    nothing else mapped below KERNBASE and kmap's mappings above, or returns 0
    with every page it had taken back on the free list. The parent's tables
    and pages are not written in either case. *)
Theorem copyuvm_copies c pd sz_ k l :
  0 <= sz_ <= KERNBASE → vm_ok k c pd l → full k pd (left_of sz_ 0) l → data_ok k →
  ∃ d k' l', copyuvm pd sz_ k = Ok d k' ∧ unch (λ q, q ∈ l) k.(mem) k'.(mem) ∧ vm_ok k' c pd l' ∧
    (d ≠ 0 → vm_ok k' c d l' ∧ full k' d (left_of sz_ 0) l' ∧
       (∀ w, 0 <= w < pages_up sz_ → flags_of k' d w = flags_of k pd w ∧ upage k'.(mem) d w ∈ l ∧
          ∀ i, 0 <= i < PGSIZE → bytes_of k' d w i = bytes_of k pd w i) ∧
       (∀ w, pages_up sz_ <= w < 2 ^ 19 → pte k'.(mem) d w = 0) ∧
       (∀ w, 2 ^ 19 <= w < 2 ^ 20 → pte k'.(mem) d w = kpte (kmap k.(kdata)) w)) ∧
    (d = 0 → ∀ p, p ∈ l' ↔ p ∈ l).
Proof.
  intros Hsz Hv Hfull Hd. destruct (copyuvm_ok c pd sz_ k l Hsz Hv Hfull Hd) as (r & k' & l' & E & Hr).
  assert (Hpn : pages_up sz_ = Z.of_nat (left_of sz_ 0)).
  { unfold pages_up, left_of. Z.to_euclidean_division_equations. lia. }
  exists r, k', l'. split; [done|]. rewrite Hpn.
  destruct Hr as [(Hr0 & [Fr O Fu Cp Re Ke Me Pg])|(-> & [Fr Fe Pg Me])].
  - destruct (vm_other k c pd l k' l' Hv Fr (vo_free _ _ _ _ O)) as (V1 & _); [intros p Hp; apply Pg; tauto|done|].
    split; [done|]. split; [done|]. split; [|done]. intros _. split_and!; [done|done| |done|done].
    intros w Hw. destruct (Cp w Hw) as [C1 C2]. split; [done|]. split; [|done].
    apply Pg. right. right. apply elem_of_upages. exists w. split; [done|]. split; [|done]. by apply Fu.
  - destruct (vm_other k c pd l k' l' Hv Fr Fe) as (V1 & _); [intros p; apply Pg|done|].
    split; [done|]. split; [done|]. by split.
Qed.

Lemma copyuvm_copies_witness :
  ∃ d k' l', copyuvm demo_pd 4096 demo_vm = Ok d k' ∧ vm_ok k' 0 demo_pd l'.
Proof.
  destruct (copyuvm_copies 0 demo_pd 4096 demo_vm demo_free) as (d & k' & l' & E & _ & Hv & _).
  - by unfold KERNBASE.
  - exact demo_vm_ok.
  - exact demo_full.
  - split; [by vm_compute|]. split; by vm_compute.
  - exists d, k', l'. split; [exact E|exact Hv].
Defined.

(** C40: copyout(pgdir, va, p, len) with p in kernel memory stores the len
    bytes at the user addresses from va on, across page boundaries, and
    changes no other byte of memory; len/PGSIZE + 3 iterations are enough. *)
Theorem copyout_writes k c pd l va src len :
  vm_ok k c pd l → out_ok k pd l va len src → 0 <= len →
  ∃ m', copyout pd va src len k = Ok 0 (set_mem m' k) ∧
    (∀ i, 0 <= i < len → rd m' (uaddr k.(mem) pd (va + i)) = rd k.(mem) (src + i)) ∧
    (∀ x, is_u32 x → (∀ i, 0 <= i < len → x ≠ uaddr k.(mem) pd (va + i)) → rd m' x = rd k.(mem) x).
Proof.
  intros Hv Ho Hlen. unfold copyout. destruct (copyout_loop (Z.to_nat (len / PGSIZE + 3)) k c pd l va src len) as (m' & E & H1 & H2);
    [done|done|done| |].
  { left. unfold PGSIZE. assert (0 <= len / 4096) by (apply Z.div_pos; lia). lia. }
  exists m'. split_and!; [done|done|]. intros x Hx Hne. apply H2; [done|]. intros a Ha.
  replace a with (va + (a - va)) by lia. apply Hne. lia.
Qed.

Lemma copyout_writes_witness :
  ∃ m', copyout demo_pd 100 0x80300000 8 demo_vm = Ok 0 (set_mem m' demo_vm).
Proof.
  destruct (copyout_writes demo_vm 0 demo_pd demo_free 100 0x80300000 8) as (m' & E & _).
  - exact demo_vm_ok.
  - assert (Hd : ∀ a, 100 <= a < 100 + 8 → a / 4096 = 0) by (intros; Z.to_euclidean_division_equations; lia).
    assert (Hm : ∀ a, 100 <= a < 100 + 8 → a `mod` 4096 = a) by (intros; apply Z.mod_small; lia).
    destruct (demo_full) as [[H1 _] Hf]. specialize (H1 0 ltac:(lia) (Hf 0 ltac:(lia))).
    change (mem demo_vm) with demo_m2 in H1. rewrite demo_upage in H1.
    split; change (mem demo_vm) with demo_m2.
    + lia.
    + unfold kaddr, KERNBASE. lia.
    + intros a Ha. rewrite (Hd a Ha), demo_upage. unfold user_page. rewrite demo_pte0.
      split; [split; by vm_compute|exact H1].
    + intros a i Ha Hi. unfold uaddr. rewrite (Hd a Ha), (Hm a Ha), demo_upage. unfold demo_user. lia.
    + intros a b Ha Hb. unfold uaddr. rewrite (Hd a Ha), (Hm a Ha), (Hd b Hb), (Hm b Hb). lia.
  - lia.
  - exists m'. exact E.
Defined.

(** Uva2ka() reads *pte without testing pte: for a user address whose page
    table is missing copyout() does not return -1 but loads from address 0,
    and faults in the kernel unless page 0 of the current address space is
    mapped. *)
Theorem copyout_null_pte k c pd l va src len :
  vm_ok k c pd l → is_u32 va → 0 < len → table_of k.(mem) pd (va / 4096 / 1024) = None →
  mmu k.(mem) (k.(hw).(cr3) k.(hw).(lapic)) 0 false = None →
  copyout pd va src len k = Err (CpuFault "page fault") k.
Proof.
  intros Hv Hva Hlen Ht Hm. unfold copyout, PGSIZE.
  assert (Hq : 0 <= len / 4096) by (apply Z.div_pos; lia). destruct (Z.to_nat (len / 4096 + 3)) eqn:E; [lia|].
  cbn [while_fuel]. apply bind_Err. unfold copyout_turn. rewrite (proj2 (Z.eqb_neq len 0)) by lia.
  rewrite PGROUNDDOWN_div by done. pose proof (va_vpn va Hva) as Hw. destruct (page_vpn _ Hw) as [Hu Hd].
  apply bind_Err. unfold uva2ka. mstep by (by apply (walk_lookup k c pd l)). rewrite Hd, Ht.
  apply bind_Err. unfold ld32. apply bind_Err. unfold ldb. apply bind_Err. unfold translate. by rewrite Hm.
Qed.

Lemma copyout_null_pte_witness :
  copyout demo_pd 0x400000 0x80300000 8 demo_vm = Err (CpuFault "page fault") demo_vm.
Proof.
  apply (copyout_null_pte demo_vm 0 demo_pd demo_free).
  - exact demo_vm_ok.
  - by unfold is_u32.
  - lia.
  - by vm_compute.
  - by vm_compute.
Defined.
