(* ===== verification/Bio.v ===== *)
(** * bio.c and memide.c: the buffer cache over the memory disk

    The buffers of bcache are the elements of [bufs]; the doubly linked LRU
    list is kept in their [b_prev] and [b_next] fields and in [bhead_prev] and
    [bhead_next]. [iderw] is that of memide.c, the driver of the kernelmemfs
    image: a block of the disk is a list of BSIZE bytes, and every block
    written is recorded in [dk_writes] in order. *)
From S2P Require Import Prelude.
From S2P Require Import Kernel.
From S2P Require Import Spinlock.
From S2P Require Import Sched.
From S2P Require Import SchedProps.
From S2P Require Import Sleeplock.

Definition B_VALID : Z := 0x2.
Definition B_DIRTY : Z := 0x4.

(** bcache.buf[n] *)
Definition buf_get (n : nat) : K buf := λ k,
  match k.(fs).(bufs) !! n with
  | Some b => Ok b k
  | None => Err (CpuFault "bcache.buf") k
  end.

Definition alter_buf (n : nat) (f : buf → buf) (x : fsys) : fsys := set_bufs (alter f n x.(bufs)) x.
Definition buf_upd (n : nat) (f : buf → buf) : K unit := upd_fs (alter_buf n f).

(** b->next, b->prev and their assignment, for a buffer or the list head. *)
Definition next_of (p : bufptr) : K bufptr :=
  match p with
  | BHead => get (λ k, k.(fs).(bhead_next))
  | BBuf n => b ← buf_get n; mret b.(b_next)
  end.
Definition prev_of (p : bufptr) : K bufptr :=
  match p with
  | BHead => get (λ k, k.(fs).(bhead_prev))
  | BBuf n => b ← buf_get n; mret b.(b_prev)
  end.
Definition set_next (p v : bufptr) : K unit :=
  match p with
  | BHead => upd_fs (set_bhead_next v)
  | BBuf n => buf_upd n (set_b_next v)
  end.
Definition set_prev (p v : bufptr) : K unit :=
  match p with
  | BHead => upd_fs (set_bhead_prev v)
  | BBuf n => buf_upd n (set_b_prev v)
  end.

(** ** memide.c *)

(** ideinit(): the file system image linked into the kernel. *)
Definition ideinit (image_size : Z) (image : Z → list Z) : K unit :=
  upd_fs (λ x, set_disk (mk_disk (u32 image_size / BSIZE) image x.(disk).(dk_writes)) x).

Definition upd_disk (f : disk_t → disk_t) : K unit := upd_fs (λ x, set_disk (f x.(disk)) x).

Definition write_block (b : Z) (data : list Z) (d : disk_t) : disk_t :=
  mk_disk d.(disksize) (<[b := data]> d.(dk_block)) (d.(dk_writes) ++ [(b, data)]).

Definition iderw (n : nat) : K unit :=
  h ← holdingsleep (SBuf n);
  if negb h then panic "iderw: buf not locked" else
  b ← buf_get n;
  if Z.land b.(b_flags) (Z.lor B_VALID B_DIRTY) =? B_VALID then panic "iderw: nothing to do" else
  if negb (b.(b_dev) =? 1) then panic "iderw: request not for disk 1" else
  size ← get (λ k, k.(fs).(disk).(disksize));
  if size <=? b.(b_blockno) then panic "iderw: block out of range" else
  (if truth (Z.land b.(b_flags) B_DIRTY) then
     buf_upd n (λ b, set_b_flags (Z.land b.(b_flags) (Z.lnot B_DIRTY)) b);;
     upd_disk (write_block b.(b_blockno) b.(b_data))
   else
     blk ← get (λ k, k.(fs).(disk).(dk_block) b.(b_blockno));
     buf_upd n (set_b_data blk));;
  buf_upd n (λ b, set_b_flags (Z.lor b.(b_flags) B_VALID) b).

(** ** bio.c *)

(** Put buffer [n] after the list head. *)
Definition push_front (n : nat) : K unit :=
  hn ← next_of BHead;
  set_next (BBuf n) hn;;
  set_prev (BBuf n) BHead;;
  hn' ← next_of BHead;
  set_prev hn' (BBuf n);;
  set_next BHead (BBuf n).

(** The body of the loop of binit(). *)
Definition binit_turn (n : nat) : K unit :=
  hn ← next_of BHead;
  set_next (BBuf n) hn;;
  set_prev (BBuf n) BHead;;
  initsleeplock (SBuf n) "buffer";;
  hn' ← next_of BHead;
  set_prev hn' (BBuf n);;
  set_next BHead (BBuf n).

Definition binit : K unit :=
  initlock LBcache "bcache";;
  set_prev BHead BHead;;
  set_next BHead BHead;;
  for_acc NBUF 0 (λ i _, binit_turn i) tt.

(** One step of the search for a cached block, along next. *)
Definition bget_hit (dev blockno : Z) (p : bufptr) : K (bufptr + option nat) :=
  match p with
  | BHead => mret (inr None)
  | BBuf n =>
      b ← buf_get n;
      if (b.(b_dev) =? dev) && (b.(b_blockno) =? blockno) then mret (inr (Some n))
      else mret (inl b.(b_next))
  end.

(** One step of the search for an unused buffer, along prev. *)
Definition bget_victim (p : bufptr) : K (bufptr + option nat) :=
  match p with
  | BHead => mret (inr None)
  | BBuf n =>
      b ← buf_get n;
      if (b.(b_refcnt) =? 0) && (Z.land b.(b_flags) B_DIRTY =? 0) then mret (inr (Some n))
      else mret (inl b.(b_prev))
  end.

Definition bget (dev blockno : Z) : K nat :=
  acquire LBcache;;
  p ← next_of BHead;
  hit ← while_fuel (S NBUF) (bget_hit dev blockno) p;
  match hit with
  | Some n =>
      buf_upd n (λ b, set_b_refcnt (u32 (b.(b_refcnt) + 1)) b);;
      release LBcache;;
      acquiresleep (SBuf n);;
      mret n
  | None =>
      q ← prev_of BHead;
      vic ← while_fuel (S NBUF) bget_victim q;
      match vic with
      | Some n =>
          buf_upd n (set_b_dev dev);;
          buf_upd n (set_b_blockno blockno);;
          buf_upd n (set_b_flags 0);;
          buf_upd n (set_b_refcnt 1);;
          release LBcache;;
          acquiresleep (SBuf n);;
          mret n
      | None => panic "bget: no buffers"
      end
  end.

Definition bread (dev blockno : Z) : K nat :=
  n ← bget dev blockno;
  b ← buf_get n;
  when (Z.land b.(b_flags) B_VALID =? 0) (iderw n);;
  mret n.

Definition bwrite (n : nat) : K unit :=
  h ← holdingsleep (SBuf n);
  if negb h then panic "bwrite" else
  buf_upd n (λ b, set_b_flags (Z.lor b.(b_flags) B_DIRTY) b);;
  iderw n.

Definition brelse (n : nat) : K unit :=
  h ← holdingsleep (SBuf n);
  if negb h then panic "brelse" else
  releasesleep (SBuf n);;
  acquire LBcache;;
  buf_upd n (λ b, set_b_refcnt (u32 (b.(b_refcnt) - 1)) b);;
  b ← buf_get n;
  when (b.(b_refcnt) =? 0) (
    nx ← next_of (BBuf n); pv ← prev_of (BBuf n); set_prev nx pv;;
    pv' ← prev_of (BBuf n); nx' ← next_of (BBuf n); set_next pv' nx';;
    push_front n);;
  release LBcache.
