(* ===== verification/BioProps.v ===== *)
(** * The buffer cache as a disk with a view

    The LRU ring of bio.c as a list, the invariant that ties the buffers to
    the disk ([cache_ok]), and what bread(), bwrite() and brelse() do in terms
    of it: the cache implements a disk whose contents are [lg], of which some
    blocks are held by the caller and some are modified but not written. *)
From S2P Require Import Prelude.
From S2P Require Import Kernel.
From S2P Require Import Spinlock.
From S2P Require Import Sched.
From S2P Require Import SchedProps.
From S2P Require Import Sleeplock.
From S2P Require Import Bio.

(** ** The ring of buffers *)

Definition nextf (x : fsys) (p : bufptr) : bufptr :=
  match p with
  | BHead => x.(bhead_next)
  | BBuf n => default BHead (b_next <$> x.(bufs) !! n)
  end.
Definition prevf (x : fsys) (p : bufptr) : bufptr :=
  match p with
  | BHead => x.(bhead_prev)
  | BBuf n => default BHead (b_prev <$> x.(bufs) !! n)
  end.

(** From [p] the links [nx] lead through [L] to [q], and [pv] leads back. *)
Fixpoint chain (nx pv : bufptr → bufptr) (p : bufptr) (L : list nat) (q : bufptr) : Prop :=
  match L with
  | [] => nx p = q ∧ pv q = p
  | n :: L' => nx p = BBuf n ∧ pv (BBuf n) = p ∧ chain nx pv (BBuf n) L' q
  end.

Lemma chain_app nx pv p L1 n L2 q :
  chain nx pv p (L1 ++ n :: L2) q ↔ chain nx pv p L1 (BBuf n) ∧ chain nx pv (BBuf n) L2 q.
Proof.
  revert p. induction L1 as [|m L1 IH]; intros p; cbn [app chain]; [tauto|]. rewrite IH. tauto.
Qed.

Lemma chain_frame nx pv nx' pv' p L q :
  (∀ r, r = p ∨ r ∈ BBuf <$> L → nx' r = nx r) → (∀ r, r = q ∨ r ∈ BBuf <$> L → pv' r = pv r) →
  chain nx pv p L q → chain nx' pv' p L q.
Proof.
  revert p. induction L as [|n L IH]; intros p Hn Hp; cbn [chain fmap list_fmap] in *.
  - intros [E1 E2]. rewrite Hn, Hp by auto. done.
  - intros (E1 & E2 & H). rewrite Hn by auto. rewrite (Hp (BBuf n)) by (right; constructor). split_and!; [done|done|].
    apply (IH (BBuf n)); [| |done].
    + intros r [->|Hr]; apply Hn; right; by constructor.
    + intros r [->|Hr]; apply Hp; [by left|right; by constructor].
Qed.

(** The last link of a chain. *)
Lemma chain_last nx pv p L q : chain nx pv p L q → pv q = default p (BBuf <$> last L).
Proof.
  revert p. induction L as [|n L IH]; intros p; cbn [chain]; [by intros [_ ->]|]. intros (_ & _ & H).
  rewrite (IH _ H). destruct L as [|m L]; [done|]. change (last (n :: m :: L)) with (last (m :: L)).
  destruct (last (m :: L)) eqn:E; [done|]. by apply last_None in E.
Qed.

Lemma chain_first nx pv p L q : chain nx pv p L q → nx p = default q (BBuf <$> head L).
Proof. destruct L; cbn [chain]; [by intros [-> _]|by intros (-> & _)]. Qed.

(** Replacing the end of a chain. *)
Lemma chain_end nx pv p L q q' :
  NoDup (p :: (BBuf <$> L)) → q ∉ BBuf <$> L → q' ∉ BBuf <$> L → chain nx pv p L q →
  let a := pv q in chain (<[a := q']> nx) (<[q' := a]> pv) p L q'.
Proof.
  revert p. induction L as [|n L IH]; intros p Hnd Hq Hq' H a; cbn [chain fmap list_fmap] in *.
  - destruct H as [H1 H2]. unfold a. rewrite H2. by rewrite !fn_lookup_insert.
  - destruct H as (E1 & E2 & H). apply NoDup_cons in Hnd as [Hp Hnd].
    assert (Ea : a ∈ BBuf <$> (n :: L)).
    { unfold a. rewrite (chain_last _ _ _ _ _ H). destruct (last L) as [m|] eqn:E; cbn.
      - right. apply list_elem_of_fmap. exists m. split; [done|]. by apply last_Some_elem_of.
      - left. }
    assert (a ≠ p) by (intros <-; by apply Hp).
    assert (q' ≠ BBuf n) by (intros ->; apply Hq'; constructor).
    rewrite !fn_lookup_insert_ne by done. split_and!; [done|done|].
    apply (IH (BBuf n)); [done| | |done].
    + intros Hin. apply Hq. by constructor.
    + intros Hin. apply Hq'. by constructor.
Qed.

Lemma not_head (L : list nat) : BHead ∉ BBuf <$> L.
Proof. intros (? & ? & _)%list_elem_of_fmap. done. Qed.

Lemma BBuf_elem n (L : list nat) : BBuf n ∈ BBuf <$> L ↔ n ∈ L.
Proof. rewrite list_elem_of_fmap. split; [by intros (? & [= ->] & ?)|]. eauto. Qed.

Lemma NoDup_ring (L : list nat) : NoDup L → NoDup (BHead :: (BBuf <$> L)).
Proof. intros H. constructor; [apply not_head|]. apply NoDup_fmap_2; [|done]. by intros ?? [= ->]. Qed.

(** Taking a buffer out of the ring. *)
Lemma chain_unlink nx pv L1 n L2 :
  NoDup (L1 ++ n :: L2) → chain nx pv BHead (L1 ++ n :: L2) BHead →
  let a := pv (BBuf n) in let b := nx (BBuf n) in
  chain (<[a := b]> nx) (<[b := a]> pv) BHead (L1 ++ L2) BHead.
Proof.
  intros Hnd [H1 H2]%chain_app a b. apply NoDup_app in Hnd as (Hnd1 & Hd & Hnd2).
  apply NoDup_cons in Hnd2 as [Hn Hnd2].
  assert (Hn1 : n ∉ L1) by (intros Hin; apply (Hd n Hin); constructor).
  assert (Hend : ∀ q', q' ∉ BBuf <$> L1 → chain (<[a := q']> nx) (<[q' := a]> pv) BHead L1 q').
  { intros q' Hq'. apply (chain_end nx pv BHead L1 (BBuf n) q'); [by apply NoDup_ring| |done|done]. by rewrite BBuf_elem. }
  assert (Ha : a = BHead ∨ ∃ m, a = BBuf m ∧ m ∈ L1).
  { unfold a. rewrite (chain_last _ _ _ _ _ H1). destruct (last L1) as [m|] eqn:E; [right|by left].
    exists m. split; [done|]. by apply last_Some_elem_of. }
  destruct L2 as [|m L2]; cbn [chain] in H2.
  - destruct H2 as [E1 E2]. unfold b. rewrite E1, app_nil_r. apply Hend, not_head.
  - destruct H2 as (E1 & E2 & H2). unfold b. rewrite E1. apply NoDup_cons in Hnd2 as [Hm Hnd2].
    assert (Hm1 : m ∉ L1) by (intros Hin; apply (Hd m Hin); right; constructor).
    apply chain_app. split; [apply Hend; by rewrite BBuf_elem|].
    revert H2. apply chain_frame.
    + intros r Hr. rewrite fn_lookup_insert_ne; [done|]. intros <-. destruct Ha as [->|(z & -> & Hz)].
      * destruct Hr as [?|Hr]; [done|]. by apply not_head in Hr.
      * rewrite BBuf_elem in Hr. destruct Hr as [[= ->]|Hr]; [done|]. apply (Hd z Hz). by do 2 constructor.
    + intros r Hr. rewrite fn_lookup_insert_ne; [done|]. intros <-. rewrite BBuf_elem in Hr. by destruct Hr.
Qed.

(** Putting it back at the front. *)
Lemma chain_push nx pv n L :
  n ∉ L → NoDup L → chain nx pv BHead L BHead →
  let h := nx BHead in
  chain (<[BHead := BBuf n]> (<[BBuf n := h]> nx)) (<[h := BBuf n]> (<[BBuf n := BHead]> pv)) BHead (n :: L) BHead.
Proof.
  intros Hn Hnd H h. assert (Eh : h = default BHead (BBuf <$> head L)) by (eapply chain_first, H).
  assert (Hh : h ≠ BBuf n).
  { rewrite Eh. destruct L as [|m L]; cbn; [done|]. intros [= ->]. apply Hn. constructor. }
  cbn [chain]. rewrite fn_lookup_insert, (fn_lookup_insert_ne _ h), fn_lookup_insert by done. split_and!; [done|done|].
  destruct L as [|m L]; cbn [chain head fmap option_fmap option_map default] in *.
  - rewrite Eh. rewrite fn_lookup_insert_ne, fn_lookup_insert, fn_lookup_insert by done. done.
  - destruct H as (_ & _ & H). rewrite Eh.
    rewrite fn_lookup_insert_ne, !fn_lookup_insert by done. split_and!; [done|done|].
    apply not_elem_of_cons in Hn as [Hnm Hn].
    revert H. apply chain_frame.
    + intros r Hr. rewrite !fn_lookup_insert_ne; [done|..]; intros <-; rewrite ?BBuf_elem in Hr.
      * destruct Hr as [[= ->]|Hr]; done.
      * destruct Hr as [?|Hr]; [done|]. by apply not_head in Hr.
    + apply NoDup_cons in Hnd as [Hm _]. intros r Hr.
      assert (r ≠ BBuf m ∧ r ≠ BBuf n) as [H1 H2].
      { split; intros ->; rewrite BBuf_elem in Hr; by destruct Hr. }
      by rewrite !fn_lookup_insert_ne.
Qed.

(** ** Reading and writing the links *)

Lemma next_of_ok k p : (∀ n, p = BBuf n → (n < length k.(fs).(bufs))%nat) → next_of p k = Ok (nextf k.(fs) p) k.
Proof.
  intros H. destruct p as [|n]; [done|]. destruct (lookup_lt_is_Some_2 _ _ (H n eq_refl)) as [b Hb].
  unfold next_of, buf_get, mbind, M_bind. cbn. by rewrite Hb.
Qed.

Lemma prev_of_ok k p : (∀ n, p = BBuf n → (n < length k.(fs).(bufs))%nat) → prev_of p k = Ok (prevf k.(fs) p) k.
Proof.
  intros H. destruct p as [|n]; [done|]. destruct (lookup_lt_is_Some_2 _ _ (H n eq_refl)) as [b Hb].
  unfold prev_of, buf_get, mbind, M_bind. cbn. by rewrite Hb.
Qed.

(** b->next = v and b->prev = v. *)
Definition setn (p v : bufptr) (x : fsys) : fsys :=
  match p with BHead => set_bhead_next v x | BBuf n => alter_buf n (set_b_next v) x end.
Definition setp (p v : bufptr) (x : fsys) : fsys :=
  match p with BHead => set_bhead_prev v x | BBuf n => alter_buf n (set_b_prev v) x end.

Lemma set_next_eff p v k : set_next p v k = Ok tt (set_fs (setn p v k.(fs)) k).
Proof. by destruct p. Qed.
Lemma set_prev_eff p v k : set_prev p v k = Ok tt (set_fs (setp p v k.(fs)) k).
Proof. by destruct p. Qed.

Lemma lookup_alter_buf x n f m :
  (alter_buf n f x).(bufs) !! m = (if decide (n = m) then f <$> x.(bufs) !! m else x.(bufs) !! m).
Proof.
  unfold alter_buf. cbn [bufs set_bufs]. destruct (decide (n = m)) as [->|].
  - by rewrite list_lookup_alter_eq.
  - by rewrite list_lookup_alter_ne.
Qed.

Section links.
  Context (x : fsys) (p v : bufptr).
  Hypothesis Hp : ∀ n, p = BBuf n → (n < length x.(bufs))%nat.

Lemma nextf_setn : nextf (setn p v x) = <[p := v]> (nextf x).
Proof using Hp.
  apply functional_extensionality. intros r. destruct p as [|n], r as [|m]; cbn [setn nextf].
  - done.
  - by rewrite fn_lookup_insert_ne.
  - by rewrite fn_lookup_insert_ne.
  - rewrite lookup_alter_buf. destruct (decide (n = m)) as [->|]; [|by rewrite fn_lookup_insert_ne by congruence].
    rewrite fn_lookup_insert. by destruct (lookup_lt_is_Some_2 _ _ (Hp m eq_refl)) as [b ->].
Qed.

Lemma prevf_setp : prevf (setp p v x) = <[p := v]> (prevf x).
Proof using Hp.
  apply functional_extensionality. intros r. destruct p as [|n], r as [|m]; cbn [setp prevf].
  - done.
  - by rewrite fn_lookup_insert_ne.
  - by rewrite fn_lookup_insert_ne.
  - rewrite lookup_alter_buf. destruct (decide (n = m)) as [->|]; [|by rewrite fn_lookup_insert_ne by congruence].
    rewrite fn_lookup_insert. by destruct (lookup_lt_is_Some_2 _ _ (Hp m eq_refl)) as [b ->].
Qed.
End links.

(** An update of a buffer that keeps its links. *)
Definition keeps_links (f : buf → buf) : Prop := ∀ b, b_next (f b) = b_next b ∧ b_prev (f b) = b_prev b.

Lemma nextf_alter x n f : keeps_links f → nextf (alter_buf n f x) = nextf x.
Proof.
  intros Hf. apply functional_extensionality. intros [|m]; [done|]. cbn [nextf]. rewrite lookup_alter_buf.
  destruct (decide (n = m)); [|done]. destruct (x.(bufs) !! m) as [b|]; [|done]. cbn. apply Hf.
Qed.

Lemma prevf_alter x n f : keeps_links f → prevf (alter_buf n f x) = prevf x.
Proof.
  intros Hf. apply functional_extensionality. intros [|m]; [done|]. cbn [prevf]. rewrite lookup_alter_buf.
  destruct (decide (n = m)); [|done]. destruct (x.(bufs) !! m) as [b|]; [|done]. cbn. apply Hf.
Qed.

Lemma nextf_setp x p v : nextf (setp p v x) = nextf x.
Proof.
  destruct p as [|n]; [by apply functional_extensionality; intros [|]|]. apply functional_extensionality. intros [|m]; [done|].
  cbn [nextf setp]. rewrite lookup_alter_buf. destruct (decide (n = m)); [|done]. by destruct (x.(bufs) !! m).
Qed.

Lemma prevf_setn x p v : prevf (setn p v x) = prevf x.
Proof.
  destruct p as [|n]; [by apply functional_extensionality; intros [|]|]. apply functional_extensionality. intros [|m]; [done|].
  cbn [prevf setn]. rewrite lookup_alter_buf. destruct (decide (n = m)); [|done]. by destruct (x.(bufs) !! m).
Qed.

Lemma length_setn x p v : length (setn p v x).(bufs) = length x.(bufs).
Proof. destruct p; [done|]. apply length_alter. Qed.
Lemma length_setp x p v : length (setp p v x).(bufs) = length x.(bufs).
Proof. destruct p; [done|]. apply length_alter. Qed.

(** ** The two scans of bget() *)

Definition matches (x : fsys) (dev b : Z) (n : nat) : bool :=
  match x.(bufs) !! n with
  | Some v => (v.(b_dev) =? dev) && (v.(b_blockno) =? b)
  | None => false
  end.

Definition evictable (x : fsys) (n : nat) : bool :=
  match x.(bufs) !! n with
  | Some v => (v.(b_refcnt) =? 0) && (Z.land v.(b_flags) B_DIRTY =? 0)
  | None => false
  end.

Definition in_range (x : fsys) (L : list nat) : Prop := ∀ n, n ∈ L → (n < length x.(bufs))%nat.

Lemma hit_scan k dev b L : ∀ p fuel,
  chain (nextf k.(fs)) (prevf k.(fs)) p L BHead → in_range k.(fs) L → (length L < fuel)%nat →
  while_fuel fuel (bget_hit dev b) (nextf k.(fs) p) k = Ok (List.find (matches k.(fs) dev b) L) k.
Proof.
  induction L as [|n L IH]; intros p fuel Hc Hr Hf; (destruct fuel as [|fuel]; [cbn in Hf; lia|]); cbn [while_fuel chain List.find] in *.
  - destruct Hc as [-> _]. done.
  - destruct Hc as (E & _ & Hc). rewrite E. destruct (lookup_lt_is_Some_2 _ _ (Hr n ltac:(constructor))) as [v Hv].
    unfold matches at 1. rewrite Hv. cbn [bget_hit]. unfold buf_get. unfold mbind at 1 2, M_bind at 1 2. rewrite Hv.
    destruct (_ && _); [done|]. cbn. specialize (IH (BBuf n) fuel Hc). cbn [nextf] in IH. rewrite Hv in IH. cbn in IH.
    apply IH; [|cbn in Hf; lia]. intros m Hm. apply Hr. by right.
Qed.

Lemma victim_scan k p L : ∀ q fuel,
  chain (nextf k.(fs)) (prevf k.(fs)) BHead L q → in_range k.(fs) L → (length L < fuel)%nat →
  p = prevf k.(fs) q →
  while_fuel fuel bget_victim p k = Ok (List.find (evictable k.(fs)) (reverse L)) k.
Proof.
  revert p. induction L as [|n L IH] using rev_ind; intros p q fuel Hc Hr Hf ->;
    (destruct fuel as [|fuel]; [lia|]); cbn [while_fuel].
  - destruct Hc as [_ ->]. done.
  - apply chain_app in Hc as [Hc [_ E]]. rewrite E, reverse_snoc. cbn [List.find].
    destruct (lookup_lt_is_Some_2 _ _ (Hr n ltac:(set_solver))) as [v Hv].
    unfold evictable at 1. rewrite Hv. cbn [bget_victim]. unfold buf_get. unfold mbind at 1 2, M_bind at 1 2. rewrite Hv.
    destruct (_ && _); [done|]. cbn. apply (IH _ (BBuf n)); [done| |rewrite length_app in Hf; cbn in Hf; lia|].
    + intros m Hm. apply Hr. set_solver.
    + cbn [prevf]. by rewrite Hv.
Qed.

(** ** The invariant *)

Definition DISKDEV : Z := 1.

(** What buffer [v], with sleep lock [s], is in a cache whose logical contents
    are [lg], when process [pid_] holds the blocks [H] and the blocks [D] are
    modified but not written: never used, or the copy of a block. *)
Definition buf_ok (size pid_ : Z) (H D : list Z) (lg : Z → list Z) (s : sleeplock) (v : buf) : Prop :=
  (v.(b_dev) = 0 ∧ v.(b_flags) = 0 ∧ v.(b_refcnt) = 0 ∧ s.(sl_locked) = 0) ∨
  (v.(b_dev) = DISKDEV ∧ 0 <= v.(b_blockno) < size ∧ v.(b_data) = lg v.(b_blockno) ∧
   v.(b_flags) = (if decide (v.(b_blockno) ∈ D) then Z.lor B_VALID B_DIRTY else B_VALID) ∧
   (v.(b_blockno) ∈ H → v.(b_refcnt) = 1 ∧ s.(sl_locked) = 1 ∧ s.(sl_pid) = pid_) ∧
   (v.(b_blockno) ∉ H → v.(b_refcnt) = 0 ∧ s.(sl_locked) = 0)).

(** Buffer [n] holds block [b]. *)
Definition buf_at (x : fsys) (n : nat) (b : Z) : Prop :=
  ∃ v, x.(bufs) !! n = Some v ∧ v.(b_dev) = DISKDEV ∧ v.(b_blockno) = b.

Record cache_ok (x : fsys) (pid_ : Z) (H D : list Z) (lg : Z → list Z) : Prop := {
  co_len : length x.(bufs) = NBUF;
  co_ring : ∃ L, L ≡ₚ seq 0 NBUF ∧ chain (nextf x) (prevf x) BHead L BHead;
  co_buf : ∀ n v, x.(bufs) !! n = Some v →
    buf_ok x.(disk).(disksize) pid_ H D lg (x.(slocks) (SBuf n)) v;
  co_uniq : ∀ n m b, buf_at x n b → buf_at x m b → n = m;
  co_in : ∀ b, b ∈ H ∨ b ∈ D → ∃ n, buf_at x n b;
  co_clean : ∀ b, b ∉ H → b ∉ D → lg b = x.(disk).(dk_block) b;
  co_size : ∀ b, length (lg b) = Z.to_nat BSIZE;
}.

(** The parts of the file system state other than the cache. *)
Definition same_rest (x y : fsys) : Prop :=
  y.(inodes) = x.(inodes) ∧ y.(log) = x.(log) ∧ y.(sb) = x.(sb) ∧
  (∀ n, y.(slocks) (SInode n) = x.(slocks) (SInode n)).

#[export] Instance same_rest_preorder : PreOrder same_rest.
Proof. unfold same_rest. split; [done|]. intros x y z (->&->&->&H1) (->&->&->&H2). split_and!; try done. intros n. by rewrite H2, H1. Qed.

(** There is a buffer to evict as long as fewer than NBUF blocks are held or
    modified. *)
Definition room (H D : list Z) : Prop :=
  ∃ U, (∀ b, b ∈ H ∨ b ∈ D → b ∈ U) ∧ (length U < NBUF)%nat.

Lemma evict_or_pinned x pid_ H D lg n v :
  cache_ok x pid_ H D lg → x.(bufs) !! n = Some v → evictable x n = false →
  v.(b_dev) = DISKDEV ∧ (v.(b_blockno) ∈ H ∨ v.(b_blockno) ∈ D).
Proof.
  intros Hc Hv. unfold evictable. rewrite Hv. destruct (co_buf _ _ _ _ _ Hc n v Hv) as [(_ & -> & -> & _)|(Hd & _ & _ & Hf & H1 & H2)];
    [done|]. intros He. split; [done|]. destruct (decide (v.(b_blockno) ∈ H)) as [?|Hn]; [by left|right].
  destruct (H2 Hn) as [Hr _]. rewrite Hr, Hf in He. destruct (decide (v.(b_blockno) ∈ D)); done.
Qed.

Lemma room_victim x pid_ H D lg L :
  cache_ok x pid_ H D lg → room H D → L ≡ₚ seq 0 NBUF →
  ∃ n, List.find (evictable x) L = Some n ∧ evictable x n = true ∧ (n < NBUF)%nat.
Proof.
  intros Hc (U & HU & Hlen) HL. pose proof (co_len _ _ _ _ _ Hc) as Hl.
  destruct (List.find (evictable x) L) as [n|] eqn:E.
  { exists n. apply List.find_some in E as [Hin He]. split_and!; [done|done|].
    apply list_elem_of_In in Hin. rewrite HL in Hin. apply elem_of_seq in Hin. lia. }
  exfalso. assert (Hall : ∀ n v, x.(bufs) !! n = Some v → v.(b_dev) = DISKDEV ∧ v.(b_blockno) ∈ U).
  { intros n v Hv. pose proof (lookup_lt_Some _ _ _ Hv).
    destruct (evict_or_pinned x pid_ H D lg n v Hc Hv) as [Hd Hp]; [|by split; [|apply HU]].
    apply (List.find_none _ _ E n). apply list_elem_of_In. rewrite HL. apply elem_of_seq. lia. }
  assert (Hnd : NoDup (b_blockno <$> x.(bufs))).
  { apply NoDup_alt. intros i j b Hi Hj. rewrite list_lookup_fmap in Hi, Hj.
    destruct (x.(bufs) !! i) as [v|] eqn:Ei; [|done]. destruct (x.(bufs) !! j) as [w|] eqn:Ej; [|done].
    injection Hi as Hi. injection Hj as Hj. destruct (Hall i v Ei), (Hall j w Ej).
    apply (co_uniq _ _ _ _ _ Hc i j b); [by exists v|by exists w]. }
  assert (Hsub : b_blockno <$> x.(bufs) ⊆+ U).
  { apply NoDup_submseteq; [done|]. intros b (v & -> & Hin)%list_elem_of_fmap.
    apply list_elem_of_lookup in Hin as [n Hn]. by apply (Hall n). }
  apply submseteq_length in Hsub. rewrite length_fmap in Hsub. lia.
Qed.

(** ** Keeping the invariant *)

(** Equal but for the links. *)
Definition same_buf (v w : buf) : Prop :=
  w.(b_dev) = v.(b_dev) ∧ w.(b_blockno) = v.(b_blockno) ∧ w.(b_flags) = v.(b_flags) ∧
  w.(b_refcnt) = v.(b_refcnt) ∧ w.(b_data) = v.(b_data).

Section update.
  Context (x x' : fsys) (pid_ : Z) (H H' D D' : list Z) (lg lg' : Z → list Z) (n : nat) (b : Z) (v : buf).
  Hypothesis Hc : cache_ok x pid_ H D lg.
  Hypothesis Hlen : length x'.(bufs) = NBUF.
  Hypothesis Hring : ∃ L, L ≡ₚ seq 0 NBUF ∧ chain (nextf x') (prevf x') BHead L BHead.
  Hypothesis Hds : x'.(disk).(disksize) = x.(disk).(disksize).
  Hypothesis Hother : ∀ m w, m ≠ n → x'.(bufs) !! m = Some w → ∃ u, x.(bufs) !! m = Some u ∧ same_buf u w.
  Hypothesis Hback : ∀ m u, m ≠ n → x.(bufs) !! m = Some u → ∃ w, x'.(bufs) !! m = Some w ∧ same_buf u w.
  Hypothesis Hlock : ∀ m, m ≠ n → x'.(slocks) (SBuf m) = x.(slocks) (SBuf m).
  Hypothesis Hv : x'.(bufs) !! n = Some v.
  Hypothesis Hdev : v.(b_dev) = DISKDEV.
  Hypothesis Hb : v.(b_blockno) = b.
  Hypothesis Hok : buf_ok x.(disk).(disksize) pid_ H' D' lg' (x'.(slocks) (SBuf n)) v.
  Hypothesis Honly : ∀ m, buf_at x m b → m = n.
  Hypothesis Hrest : ∀ b', b' ≠ b → (b' ∈ H' ↔ b' ∈ H) ∧ (b' ∈ D' ↔ b' ∈ D) ∧ lg' b' = lg b' ∧
    x'.(disk).(dk_block) b' = x.(disk).(dk_block) b'.
  Hypothesis Hevict : ∀ b0, buf_at x n b0 → b0 ≠ b → (b0 ∉ H) ∧ (b0 ∉ D).
  Hypothesis Hclean : b ∉ H' → b ∉ D' → lg' b = x'.(disk).(dk_block) b.
  Hypothesis Hsize : length (lg' b) = Z.to_nat BSIZE.

Lemma upd_at m b' : m ≠ n → buf_at x' m b' → buf_at x m b'.
Proof using Hother.
  intros Hm (w & Hw & E1 & E2). destruct (Hother m w Hm Hw) as (u & Hu & S1 & S2 & _). exists u.
  split; [done|]. by rewrite <- S1, <- S2.
Qed.

Lemma cache_upd : cache_ok x' pid_ H' D' lg'.
Proof using All.
  split.
  - done.
  - done.
  - intros m w Hw. rewrite Hds. destruct (decide (m = n)) as [->|Hm].
    { rewrite Hv in Hw. by injection Hw as <-. }
    destruct (Hother m w Hm Hw) as (u & Hu & S1 & S2 & S3 & S4 & S5). rewrite Hlock by done.
    unfold buf_ok. rewrite S1, S2, S3, S4, S5.
    destruct (co_buf _ _ _ _ _ Hc m u Hu) as [Hun|(Hd & Hbd & Hdat & Hfl & Hh & Hnh)]; [by left|right].
    assert (Hne : u.(b_blockno) ≠ b) by (intros E; apply Hm, Honly; by exists u).
    destruct (Hrest _ Hne) as (R1 & R2 & R3 & _). split_and!; [done|lia|lia|by rewrite R3| | |].
    + rewrite Hfl. by destruct (decide (u.(b_blockno) ∈ D)), (decide (u.(b_blockno) ∈ D')); tauto.
    + rewrite R1. done.
    + rewrite R1. done.
  - intros m m' b' Hm Hm'. destruct (decide (m = n)) as [->|Hmn], (decide (m' = n)) as [->|Hmn']; try done.
    + destruct Hm as (w & Hw & _ & E). rewrite Hv in Hw. injection Hw as <-. rewrite Hb in E. subst b'.
      symmetry. by apply Honly, upd_at.
    + destruct Hm' as (w & Hw & _ & E). rewrite Hv in Hw. injection Hw as <-. rewrite Hb in E. subst b'.
      by apply Honly, upd_at.
    + eapply (co_uniq _ _ _ _ _ Hc); by apply upd_at.
  - intros b' Hin. destruct (decide (b' = b)) as [->|Hne]; [by exists n, v|].
    destruct (Hrest _ Hne) as (R1 & R2 & _). rewrite R1, R2 in Hin.
    destruct (co_in _ _ _ _ _ Hc b' Hin) as (m & u & Hu & E1 & E2).
    destruct (decide (m = n)) as [->|Hm].
    { destruct (Hevict b'); [by exists u|done|]. by destruct Hin. }
    destruct (Hback m u Hm Hu) as (w & Hw & S1 & S2 & _). exists m, w. by rewrite S1, S2.
  - intros b' H1 H2. destruct (decide (b' = b)) as [->|Hne]; [by apply Hclean|].
    destruct (Hrest _ Hne) as (R1 & R2 & R3 & R4). rewrite R3, R4. apply (co_clean _ _ _ _ _ Hc); tauto.
  - intros b'. destruct (decide (b' = b)) as [->|Hne]; [done|].
    destruct (Hrest _ Hne) as (_ & _ & -> & _). apply (co_size _ _ _ _ _ Hc).
Qed.
End update.

(** ** Running in the file system *)

(** Some sleeping processes were made runnable. *)
Definition woke (l l' : list proc) : Prop :=
  Forall2 (λ p q, q = p ∨ (p.(state) = SLEEPING ∧ q = set_state RUNNABLE p)) l l'.

#[export] Instance woke_preorder : PreOrder woke.
Proof.
  split.
  - intros l. apply Forall_Forall2_diag, Forall_true. auto.
  - intros l1 l2 l3 H1. revert l3. induction H1 as [|p q l1 l2 Hpq H1 IH]; intros l3 H2; [done|].
    inversion H2 as [|? r ? l3' Hqr H3]; subst. constructor; [|by apply IH].
    destruct Hpq as [->|[Hs ->]], Hqr as [->|[Hs' ->]]; auto.
Qed.

Lemma woke_wake ch l : woke l (wake ch <$> l).
Proof.
  apply Forall2_fmap_r, Forall_Forall2_diag, Forall_true. intros p. unfold wake.
  unfold compose. destruct (bool_decide_reflect (p.(state) = SLEEPING)); [|by left]. destruct (bool_decide _); auto.
Qed.

Lemma woke_lookup l l' i p : woke l l' → l !! i = Some p → p.(state) = RUNNING → l' !! i = Some p.
Proof.
  intros H Hp Hr. destruct (Forall2_lookup_l _ _ _ _ _ H Hp) as (q & Hq & [->|[Hs _]]); [done|congruence].
Qed.

(** Process [i] runs on processor [c] and no spin lock is taken. *)
Record env (k : kernel) (c i : nat) (pr : proc) : Prop := {
  en_proc : in_proc k c i pr;
  en_run : pr.(state) = RUNNING;
  en_free : ∀ l, lk_free k.(hw) l;
}.

(** [k'] is [k] after an operation of the file system: only its state [x]
    changed, and processes may have been woken. *)
Definition fs_step (c : nat) (k : kernel) (x : fsys) (k' : kernel) : Prop :=
  ∃ h ps, k' = set_hw h (set_pt (set_procs ps k.(pt)) (set_fs x k)) ∧
    settled c k.(hw) h ∧ woke k.(pt).(procs) ps.

Lemma fs_step_fs c k x k' : fs_step c k x k' → k'.(fs) = x.
Proof. by intros (h & ps & -> & _). Qed.

Lemma fs_step_trans c k x k1 y k2 : fs_step c k x k1 → fs_step c k1 y k2 → fs_step c k y k2.
Proof.
  intros (h & ps & -> & H1 & H2) (h' & ps' & -> & H1' & H2'). exists h', ps'.
  split; [done|]. split; [by eapply settled_trans|]. cbn in H2'. by etrans.
Qed.

Lemma fs_step_touch c k x n : cpu_at k.(hw) c n → fs_step c k x (set_hw (touch c k.(hw)) (set_fs x k)).
Proof.
  intros Hat. exists (touch c k.(hw)), k.(pt).(procs). split_and!; [|by eapply settled_touch|done].
  by destruct k as [? [] ? ? ? ? ? ? ? ? ? ? ? ? ?].
Qed.

Lemma runs_settled c h h' i : settled c h h' → runs h c i → runs h' c i.
Proof. intros [->|[_ ->]]; [done|]. apply runs_touch. Qed.

Lemma env_step k c i pr x k' : env k c i pr → fs_step c k x k' → env k' c i pr.
Proof.
  intros [[Hat Hr Hp Hl] Hrun Hf] (h & ps & -> & Hs & Hw). split; [split|done|]; cbn.
  - by eapply settled_at.
  - by eapply runs_settled.
  - by eapply woke_lookup.
  - by rewrite <- (Forall2_length _ _ _ Hw).
  - intros l. by eapply settled_free.
Qed.

Lemma alter_buf_twice n f g x : alter_buf n f (alter_buf n g x) = alter_buf n (λ b, f (g b)) x.
Proof.
  unfold alter_buf. cbn [bufs set_bufs]. change (set_bufs ?l (set_bufs _ x)) with (set_bufs l x). f_equal. apply list_eq. intros m. destruct (decide (n = m)) as [->|].
  - rewrite !list_lookup_alter_eq. by destruct (x.(bufs) !! m).
  - by rewrite !list_lookup_alter_ne.
Qed.

Lemma buf_get_ok k n v : k.(fs).(bufs) !! n = Some v → buf_get n k = Ok v k.
Proof. unfold buf_get. by intros ->. Qed.

Lemma buf_upd_eff n f k : buf_upd n f k = Ok tt (set_fs (alter_buf n f k.(fs)) k).
Proof. done. Qed.

Lemma buf_upd_on n f y k : buf_upd n f (set_fs y k) = Ok tt (set_fs (alter_buf n f y) k).
Proof. done. Qed.

(** Buffer [n] replaced. *)
Definition put_buf (n : nat) (w : buf) (x : fsys) : fsys := set_bufs (<[n := w]> x.(bufs)) x.

Lemma alter_put n f x v : x.(bufs) !! n = Some v → alter_buf n f x = put_buf n (f v) x.
Proof.
  intros Hv. unfold alter_buf, put_buf. f_equal. apply list_eq. intros m. destruct (decide (n = m)) as [<-|].
  - rewrite list_lookup_alter_eq, Hv. symmetry. apply list_lookup_insert_eq. by eapply lookup_lt_Some.
  - by rewrite list_lookup_alter_ne, list_lookup_insert_ne.
Qed.

Lemma put_buf_twice n v w x : put_buf n v (put_buf n w x) = put_buf n v x.
Proof. unfold put_buf. cbn. by rewrite list_insert_insert_eq. Qed.

Lemma put_buf_lookup n v w x : x.(bufs) !! n = Some v → (put_buf n w x).(bufs) !! n = Some w.
Proof. intros Hv. apply list_lookup_insert_eq. by eapply lookup_lt_Some. Qed.

(** A buffer's sleep lock taken by the process. *)
Definition lock_buf (n : nat) (pid_ : Z) (x : fsys) : fsys :=
  set_slocks (<[SBuf n := mk_sleeplock 1 (x.(slocks) (SBuf n)).(sl_name) pid_]> x.(slocks)) x.

Section bget.
  Context (k : kernel) (c i : nat) (pr : proc).
  Hypothesis He : env k c i pr.

Lemma bget_locks n x : (x.(slocks) (SBuf n)).(sl_locked) = 0 →
  (release LBcache;; acquiresleep (SBuf n);; mret n) (set_hw (acq_hw c LBcache k.(hw)) (set_fs x k))
  = Ok n (set_hw (touch c k.(hw)) (set_fs (lock_buf n pr.(pid) x) k)).
Proof using He.
  intros H0. destruct He as [[Hat Hr Hp Hl] Hrun Hf].
  mstep by (apply (release_acquired _ _ 0 _ (set_fs x k)); [done|lia|apply Hf]).
  mstep by (apply (acquiresleep_ok _ c i pr); [|apply Hf|exact H0]; split; [by apply cpu_at_touch|by apply runs_touch|done|done]).
  change (hw (set_hw ?h _)) with h. by rewrite (touch_touch _ _ 0).
Qed.

Lemma ring_range L : L ≡ₚ seq 0 NBUF → length k.(fs).(bufs) = NBUF →
  in_range k.(fs) L ∧ (length L < S NBUF)%nat ∧ NoDup L.
Proof.
  intros HL Hlen. split_and!.
  - intros m Hm. rewrite Hlen. rewrite HL in Hm. apply elem_of_seq in Hm. lia.
  - rewrite HL, length_seq. lia.
  - rewrite HL. apply NoDup_seq.
Qed.

Lemma bget_hit_ok dev b n L :
  L ≡ₚ seq 0 NBUF → length k.(fs).(bufs) = NBUF → chain (nextf k.(fs)) (prevf k.(fs)) BHead L BHead →
  List.find (matches k.(fs) dev b) L = Some n → (k.(fs).(slocks) (SBuf n)).(sl_locked) = 0 →
  bget dev b k = Ok n (set_hw (touch c k.(hw)) (set_fs (lock_buf n pr.(pid)
    (alter_buf n (λ v, set_b_refcnt (u32 (v.(b_refcnt) + 1)) v) k.(fs))) k)).
Proof using He.
  intros HL Hlen Hch Hfind H0. pose proof (en_proc _ _ _ _ He) as [Hat _ _ _].
  destruct (ring_range L HL Hlen) as (Hr & Hl & _). unfold bget.
  mstep by (apply (acquire_ok _ c 0); [done|lia|apply He]). set (k1 := set_hw _ k).
  mstep by (apply (next_of_ok k1); done). mstep by (by apply (hit_scan k1 dev b L BHead)).
  change (fs k1) with k.(fs). rewrite Hfind. mstep by apply buf_upd_eff.
  by apply (bget_locks n (alter_buf n _ k.(fs))).
Qed.

(** A buffer given to another block. *)
Definition recycle (dev b : Z) (v : buf) : buf :=
  set_b_refcnt 1 (set_b_flags 0 (set_b_blockno b (set_b_dev dev v))).

Lemma bget_miss_ok dev b n L :
  L ≡ₚ seq 0 NBUF → length k.(fs).(bufs) = NBUF → chain (nextf k.(fs)) (prevf k.(fs)) BHead L BHead →
  List.find (matches k.(fs) dev b) L = None → List.find (evictable k.(fs)) (reverse L) = Some n →
  (k.(fs).(slocks) (SBuf n)).(sl_locked) = 0 →
  bget dev b k = Ok n (set_hw (touch c k.(hw)) (set_fs (lock_buf n pr.(pid) (alter_buf n (recycle dev b) k.(fs))) k)).
Proof using He.
  intros HL Hlen Hch Hfind Hvic H0. pose proof (en_proc _ _ _ _ He) as [Hat _ _ _].
  destruct (ring_range L HL Hlen) as (Hr & Hl & _). unfold bget.
  mstep by (apply (acquire_ok _ c 0); [done|lia|apply He]). set (k1 := set_hw _ k).
  mstep by (apply (next_of_ok k1); done). mstep by (by apply (hit_scan k1 dev b L BHead)).
  change (fs k1) with k.(fs). rewrite Hfind.
  mstep by (apply (prev_of_ok k1); done). mstep by (by apply (victim_scan k1 _ L BHead)).
  change (fs k1) with k.(fs). rewrite Hvic. mstep by apply buf_upd_eff. do 3 (mstep by apply buf_upd_on).
  rewrite !alter_buf_twice. cbv beta.
  by apply (bget_locks n (alter_buf n (recycle dev b) k.(fs))).
Qed.

End bget.

(** ** iderw() on a buffer the process holds *)

Section iderw.
  Context (k : kernel) (c i : nat) (pr : proc) (n : nat) (v : buf).
  Hypothesis He : env k c i pr.
  Hypothesis Hv : k.(fs).(bufs) !! n = Some v.
  Hypothesis Hdev : v.(b_dev) = DISKDEV.
  Hypothesis Hb : v.(b_blockno) < k.(fs).(disk).(disksize).
  Hypothesis Hlk : (k.(fs).(slocks) (SBuf n)).(sl_locked) = 1 ∧ (k.(fs).(slocks) (SBuf n)).(sl_pid) = pr.(pid).

Lemma holding_buf : holdingsleep (SBuf n) k = Ok true (set_hw (touch c k.(hw)) k).
Proof using He Hlk.
  rewrite (holdingsleep_ok k c i pr); [|apply He|apply He]. destruct Hlk as [-> ->]. cbn. by rewrite Z.eqb_refl.
Qed.

(** A buffer that is not valid is read. *)
Lemma iderw_read : v.(b_flags) = 0 →
  iderw n k = Ok tt (set_hw (touch c k.(hw)) (set_fs (put_buf n
    (set_b_flags B_VALID (set_b_data (k.(fs).(disk).(dk_block) v.(b_blockno)) v)) k.(fs)) k)).
Proof using All.
  intros Hf. unfold iderw. mstep by exact holding_buf. cbn [negb]. mstep by (apply buf_get_ok, Hv). rewrite Hf, Hdev.
  change (Z.land 0 (Z.lor B_VALID B_DIRTY) =? B_VALID) with false. change (negb (DISKDEV =? 1)) with false.
  change (truth (Z.land 0 B_DIRTY)) with false. cbv match.
  mstep. change (disk (fs (set_hw _ k))) with k.(fs).(disk). rewrite (proj2 (Z.leb_gt _ _)) by lia.
  mstep by (mstep; apply buf_upd_eff). rewrite buf_upd_on. change (fs (set_hw _ k)) with k.(fs).
  rewrite (alter_put n _ k.(fs) v Hv), (alter_put n _ _ _ (put_buf_lookup n v _ k.(fs) Hv)), put_buf_twice.
  cbn [b_flags set_b_data]. by rewrite Hf.
Qed.

(** A modified buffer is written. *)
Lemma iderw_write : v.(b_flags) = Z.lor B_VALID B_DIRTY →
  iderw n k = Ok tt (set_hw (touch c k.(hw)) (set_fs (set_disk (write_block v.(b_blockno) v.(b_data) k.(fs).(disk))
    (put_buf n (set_b_flags B_VALID v) k.(fs))) k)).
Proof using All.
  intros Hf. unfold iderw. mstep by exact holding_buf. cbn [negb]. mstep by (apply buf_get_ok, Hv). rewrite Hf, Hdev.
  change (Z.land (Z.lor B_VALID B_DIRTY) (Z.lor B_VALID B_DIRTY) =? B_VALID) with false.
  change (negb (DISKDEV =? 1)) with false. change (truth (Z.land (Z.lor B_VALID B_DIRTY) B_DIRTY)) with true. cbv match.
  mstep. change (disk (fs (set_hw _ k))) with k.(fs).(disk). rewrite (proj2 (Z.leb_gt _ _)) by lia.
  mstep by (mstep by apply buf_upd_eff; reflexivity). rewrite buf_upd_on.
  change (fs (set_fs ?y _)) with y. change (fs (set_hw _ k)) with k.(fs). rewrite (alter_put n _ k.(fs) v Hv).
  set (w := set_b_flags _ v). rewrite (alter_put n _ (set_disk _ (put_buf n w k.(fs))) w); [|by apply (put_buf_lookup n v)].
  change (put_buf n ?a (set_disk ?d ?y)) with (set_disk d (put_buf n a y)). rewrite put_buf_twice.
  unfold w. cbn [b_flags set_b_flags]. rewrite Hf. done.
Qed.

End iderw.

(** ** bread() *)

Lemma find_match x b L n : List.find (matches x DISKDEV b) L = Some n → buf_at x n b.
Proof.
  intros [_ H]%List.find_some. unfold matches in H. destruct (x.(bufs) !! n) as [v|] eqn:E; [|done].
  apply andb_true_iff in H as [H1%Z.eqb_eq H2%Z.eqb_eq]. by exists v.
Qed.

Lemma find_no_match x b L : List.find (matches x DISKDEV b) L = None → L ≡ₚ seq 0 NBUF → length x.(bufs) = NBUF →
  ∀ n, ¬ buf_at x n b.
Proof.
  intros H HL Hlen n (v & Hv & E1 & E2). pose proof (lookup_lt_Some _ _ _ Hv).
  assert (Hin : List.In n L) by (apply list_elem_of_In; rewrite HL; apply elem_of_seq; lia).
  pose proof (List.find_none _ _ H n Hin) as Hm. unfold matches in Hm. rewrite Hv, E1, E2, !Z.eqb_refl in Hm. done.
Qed.

(** A buffer replaced and locked, the links kept. *)
Section relock.
  Context (x : fsys) (pid_ : Z) (n : nat) (v w : buf).
  Hypothesis Hv : x.(bufs) !! n = Some v.
  Hypothesis Hl : b_next w = b_next v ∧ b_prev w = b_prev v.
  #[local] Abbreviation y := (lock_buf n pid_ (put_buf n w x)).

Lemma relock_ring L : chain (nextf x) (prevf x) BHead L BHead → chain (nextf y) (prevf y) BHead L BHead.
Proof using Hv Hl.
  apply chain_frame; intros r _; (destruct r as [|m]; [done|]); cbn [nextf prevf lock_buf put_buf bufs set_slocks set_bufs];
    (destruct (decide (n = m)) as [<-|]; [|by rewrite list_lookup_insert_ne]);
    rewrite list_lookup_insert_eq by (by eapply lookup_lt_Some); rewrite Hv; cbn; apply Hl.
Qed.

Lemma relock_other m : m ≠ n → y.(bufs) !! m = x.(bufs) !! m ∧ y.(slocks) (SBuf m) = x.(slocks) (SBuf m).
Proof.
  intros Hm. cbn. rewrite list_lookup_insert_ne, fn_lookup_insert_ne by congruence. done.
Qed.

Lemma relock_same : y.(bufs) !! n = Some w ∧ y.(slocks) (SBuf n) = mk_sleeplock 1 (x.(slocks) (SBuf n)).(sl_name) pid_.
Proof using Hv. cbn. rewrite list_lookup_insert_eq, fn_lookup_insert by (by eapply lookup_lt_Some). done. Qed.

Lemma relock_rest : same_rest x y ∧ y.(disk) = x.(disk).
Proof. split; [|done]. split_and!; done. Qed.

(** The new contents of the buffer are those of a block that nobody has. *)
Lemma relock_cache H D lg b :
  cache_ok x pid_ H D lg → b ∉ H → 0 <= b < x.(disk).(disksize) →
  (∀ m, buf_at x m b → m = n) → (∀ b0, buf_at x n b0 → b0 ≠ b → (b0 ∉ H) ∧ (b0 ∉ D)) →
  w.(b_dev) = DISKDEV → w.(b_blockno) = b → w.(b_data) = lg b → w.(b_refcnt) = 1 →
  w.(b_flags) = (if decide (b ∈ D) then Z.lor B_VALID B_DIRTY else B_VALID) →
  cache_ok y pid_ (b :: H) D lg.
Proof using Hv Hl.
  intros Hc Hb Hbr Hon Hev Hd Hbn Hdat Hrc Hfl. destruct relock_same as [E1 E2].
  apply (cache_upd x y pid_ H (b :: H) D D lg lg n b w); try done.
  - cbn. rewrite length_insert. apply Hc.
  - destruct (co_ring _ _ _ _ _ Hc) as (L & HL & Hch). exists L. split; [done|]. by apply relock_ring.
  - intros m u Hm Hu. rewrite (proj1 (relock_other m Hm)) in Hu. by exists u.
  - intros m u Hm Hu. exists u. by rewrite (proj1 (relock_other m Hm)).
  - intros m Hm. apply relock_other, Hm.
  - rewrite E2. right. rewrite Hbn. split_and!; try done; try lia. intros Hn. destruct Hn. constructor.
  - intros b' Hne. split_and!; try done. rewrite elem_of_cons. naive_solver.
  - intros Hn. destruct Hn. constructor.
  - apply Hc.
Qed.

Lemma relock_at m b H D lg : cache_ok x pid_ H D lg → (∀ b0, buf_at x n b0 → b0 ∉ H) →
  b ∈ H → buf_at x m b → buf_at y m b.
Proof using Hv.
  intros Hc Hno Hb Hm. destruct (decide (m = n)) as [->|Hne]; [by destruct (Hno b Hm)|].
  destruct Hm as (u & Hu & E). exists u. by rewrite (proj1 (relock_other m Hne)).
Qed.
End relock.

(** A buffer that bget() evicts holds no block that matters. *)
Lemma evict_free x pid_ H D lg n : cache_ok x pid_ H D lg → evictable x n = true →
  ∀ b, buf_at x n b → (b ∉ H) ∧ (b ∉ D).
Proof.
  intros Hc He b (v & Hv & Hd & Hb). unfold evictable in He. rewrite Hv in He.
  apply andb_true_iff in He as [Hr%Z.eqb_eq Hf%Z.eqb_eq].
  destruct (co_buf _ _ _ _ _ Hc n v Hv) as [(Hd0 & _)|(_ & _ & _ & Hfl & Hh & _)]; [rewrite Hd0 in Hd; done|].
  rewrite Hb in *. split.
  - intros Hin. destruct (Hh Hin) as [Hr1 _]. lia.
  - intros Hin. rewrite Hfl, decide_True in Hf by done. done.
Qed.

Lemma evict_unlocked x pid_ H D lg n : cache_ok x pid_ H D lg → evictable x n = true →
  (x.(slocks) (SBuf n)).(sl_locked) = 0.
Proof.
  intros Hc He. unfold evictable in He. destruct (x.(bufs) !! n) as [v|] eqn:Hv; [|done].
  apply andb_true_iff in He as [Hr%Z.eqb_eq _].
  destruct (co_buf _ _ _ _ _ Hc n v Hv) as [(_ & _ & _ & H0)|(_ & _ & _ & _ & Hh & Hnh)]; [done|].
  destruct (decide (v.(b_blockno) ∈ H)) as [Hin|Hin]; [destruct (Hh Hin); lia|by apply Hnh].
Qed.

(** What a client of bread() gets: block [b] is held in buffer [n]. *)
Record got (k : kernel) (c : nat) (pid_ : Z) (H D : list Z) (lg : Z → list Z) (b : Z) (n : nat) (k' : kernel) : Prop := {
  gt_step : fs_step c k k'.(fs) k';
  gt_cache : cache_ok k'.(fs) pid_ (b :: H) D lg;
  gt_at : buf_at k'.(fs) n b;
  gt_rest : same_rest k.(fs) k'.(fs);
  gt_disk : k'.(fs).(disk) = k.(fs).(disk);
  gt_keep : ∀ m b', b' ∈ H → buf_at k.(fs) m b' → buf_at k'.(fs) m b';
}.

Section bread.
  Context (k : kernel) (c i : nat) (pr : proc) (H D : list Z) (lg : Z → list Z) (b : Z) (L : list nat).
  Hypothesis He : env k c i pr.
  Hypothesis Hc : cache_ok k.(fs) pr.(pid) H D lg.
  Hypothesis Hb : 0 <= b < k.(fs).(disk).(disksize).
  Hypothesis Hnb : b ∉ H.
  Hypothesis HL : L ≡ₚ seq 0 NBUF.
  Hypothesis Hch : chain (nextf k.(fs)) (prevf k.(fs)) BHead L BHead.

Lemma bread_hit n : List.find (matches k.(fs) DISKDEV b) L = Some n →
  ∃ k', bread DISKDEV b k = Ok n k' ∧ got k c pr.(pid) H D lg b n k'.
Proof using He Hc Hb Hnb HL Hch.
  intros Efind. pose proof (en_proc _ _ _ _ He) as [Hat _ _ _]. pose proof (co_len _ _ _ _ _ Hc) as Hlen. set (x := k.(fs)) in *.
  pose proof (find_match x b L n Efind) as (v & Hv & Hd & Hbn).
  destruct (co_buf _ _ _ _ _ Hc n v Hv) as [(Hd0 & _)|(_ & _ & Hdat & Hfl & _ & Hnh)]; [rewrite Hd0 in Hd; done|].
  rewrite Hbn in *. destruct (Hnh Hnb) as [Hrc Hs0]. set (w := set_b_refcnt 1 v).
  assert (Ebget : bget DISKDEV b k = Ok n (set_hw (touch c k.(hw)) (set_fs (lock_buf n pr.(pid) (put_buf n w x)) k))).
  { rewrite (bget_hit_ok k c i pr He DISKDEV b n L) by done. fold x. rewrite (alter_put n _ x v Hv), Hrc. done. }
  destruct (relock_same x pr.(pid) n v w Hv) as [Ew _].
  eexists. split.
  { unfold bread. mstep by exact Ebget. mstep by (by apply buf_get_ok).
    assert (Ef : (Z.land w.(b_flags) B_VALID =? 0) = false) by (unfold w; cbn; rewrite Hfl; by destruct (decide _)).
    rewrite Ef. by mstep. }
  split; cbn [fs set_hw set_fs].
  - by apply (fs_step_touch c k _ 0).
  - apply (relock_cache x pr.(pid) n v w Hv); try done.
    + intros m Hm. eapply (co_uniq _ _ _ _ _ Hc); [exact Hm|by exists v].
    + intros b0 (u & Hu & _ & E) Hne. rewrite Hv in Hu. injection Hu as <-. congruence.
  - by exists w.
  - apply relock_rest.
  - apply relock_rest.
  - intros m b' Hb'. eapply relock_at; [done|done| |done].
    intros b0 (u & Hu & _ & E). rewrite Hv in Hu. injection Hu as <-. congruence.
Qed.

Lemma bread_miss : List.find (matches k.(fs) DISKDEV b) L = None → room H D ∨ b ∈ D →
  ∃ n k', bread DISKDEV b k = Ok n k' ∧ got k c pr.(pid) H D lg b n k'.
Proof using He Hc Hb Hnb HL Hch.
  intros Efind Hroom. pose proof (en_proc _ _ _ _ He) as [Hat _ _ _]. pose proof (co_len _ _ _ _ _ Hc) as Hlen. set (x := k.(fs)) in *.
  pose proof (find_no_match x b L Efind HL Hlen) as Hno.
  assert (HbD : b ∉ D).
  { intros HD. destruct (co_in _ _ _ _ _ Hc b (or_intror HD)) as [m Hm]. by destruct (Hno m). }
  destruct Hroom as [Hroom|?]; [|done].
  destruct (room_victim x pr.(pid) H D lg (reverse L) Hc Hroom) as (n & Evic & Hev & Hn); [by rewrite reverse_Permutation|].
  destruct (lookup_lt_is_Some_2 x.(bufs) n ltac:(lia)) as [v Hv].
  assert (Hb0 : ∀ b0, buf_at x n b0 → (b0 ∉ H) ∧ (b0 ∉ D)) by (by apply evict_free with pr.(pid) lg).
  assert (Hs0 : (x.(slocks) (SBuf n)).(sl_locked) = 0) by (by apply evict_unlocked with pr.(pid) H D lg).
  assert (Hlg : lg b = x.(disk).(dk_block) b) by (by apply (co_clean _ _ _ _ _ Hc)).
  set (w1 := recycle DISKDEV b v). set (y1 := lock_buf n pr.(pid) (put_buf n w1 x)).
  assert (Ebget : bget DISKDEV b k = Ok n (set_hw (touch c k.(hw)) (set_fs y1 k))).
  { rewrite (bget_miss_ok k c i pr He DISKDEV b n L) by done. fold x. by rewrite (alter_put n _ x v Hv). }
  set (w := set_b_flags B_VALID (set_b_data (x.(disk).(dk_block) b) w1)).
  set (k1 := set_hw (touch c k.(hw)) (set_fs y1 k)).
  assert (He1 : env k1 c i pr) by (eapply env_step; [exact He|by apply (fs_step_touch c k y1 0)]).
  destruct (relock_same x pr.(pid) n v w1 Hv) as [Ew1 El1]. fold y1 in Ew1, El1.
  exists n, (set_hw (touch c k.(hw)) (set_fs (lock_buf n pr.(pid) (put_buf n w x)) k)). split.
  { unfold bread. mstep by exact Ebget. mstep by (apply buf_get_ok, Ew1).
    change (Z.land w1.(b_flags) B_VALID =? 0) with true. cbn [when].
    mstep by (apply (iderw_read k1 c i pr n w1 He1 Ew1 eq_refl); [exact (proj2 Hb)|change (fs k1) with y1; by rewrite El1|done]).
    change (hw k1) with (touch c k.(hw)). rewrite (touch_touch _ _ 0) by done.
    change (Ok n (set_hw (touch c k.(hw)) (set_fs (lock_buf n pr.(pid) (put_buf n w (put_buf n w1 x))) k))
            = Ok n (set_hw (touch c k.(hw)) (set_fs (lock_buf n pr.(pid) (put_buf n w x)) k))).
    by rewrite put_buf_twice. }
  split; cbn [fs set_hw set_fs].
  - by apply (fs_step_touch c k _ 0).
  - apply (relock_cache x pr.(pid) n v w Hv); try done.
    + intros m Hm. by destruct (Hno m).
    + intros b0 Hb0' _. by apply Hb0.
    + by rewrite decide_False.
  - exists w. by destruct (relock_same x pr.(pid) n v w Hv) as [-> _].
  - apply relock_rest.
  - apply relock_rest.
  - intros m b' Hb'. eapply relock_at; [done|done| |done]. intros b0 Hb0'. by apply Hb0.
Qed.

End bread.

(** Reading a block that is not held. A block pinned in the cache is found
    there, any other needs a buffer to evict. *)
Lemma bread_ok k c i pr H D lg b :
  env k c i pr → cache_ok k.(fs) pr.(pid) H D lg → 0 <= b < k.(fs).(disk).(disksize) → b ∉ H → room H D ∨ b ∈ D →
  ∃ n k', bread DISKDEV b k = Ok n k' ∧ got k c pr.(pid) H D lg b n k'.
Proof.
  intros He Hc Hb Hnb Hroom. destruct (co_ring _ _ _ _ _ Hc) as (L & HL & Hch).
  destruct (List.find (matches k.(fs) DISKDEV b) L) as [n|] eqn:Efind.
  - exists n. by apply (bread_hit k c i pr H D lg b L).
  - by apply (bread_miss k c i pr H D lg b L).
Qed.

(** Only which blocks are held and modified matters. *)
Lemma cache_ok_sets x pid_ H H' D D' lg :
  (∀ b, b ∈ H ↔ b ∈ H') → (∀ b, b ∈ D ↔ b ∈ D') → cache_ok x pid_ H D lg → cache_ok x pid_ H' D' lg.
Proof.
  intros HE DE [C1 C2 C3 C4 C5 C6 C7]. split; try done.
  - intros n v Hv. destruct (C3 n v Hv) as [?|(?&?&?&Hf&B1&B2)]; [by left|right].
    split_and!; [done|lia|lia|done| |by rewrite <- HE|by rewrite <- HE]. rewrite Hf.
    destruct (decide (_ ∈ D)) as [Hd|Hd]; rewrite DE in Hd; by destruct (decide (_ ∈ D')).
  - intros b Hb. apply C5. by rewrite HE, DE.
  - intros b. rewrite <- HE, <- DE. apply C6.
Qed.

(** The rest of the file system state does not matter either. *)
Lemma cache_ok_frame x y pid_ H D lg :
  y.(bufs) = x.(bufs) → y.(bhead_prev) = x.(bhead_prev) → y.(bhead_next) = x.(bhead_next) → y.(disk) = x.(disk) →
  (∀ n, y.(slocks) (SBuf n) = x.(slocks) (SBuf n)) → cache_ok x pid_ H D lg → cache_ok y pid_ H D lg.
Proof.
  intros E1 E2 E3 E4 E5 [C1 C2 C3 C4 C5 C6 C7].
  assert (En : nextf y = nextf x) by (apply functional_extensionality; intros []; cbn; by rewrite ?E1, ?E3).
  assert (Ep : prevf y = prevf x) by (apply functional_extensionality; intros []; cbn; by rewrite ?E1, ?E2).
  assert (Ea : ∀ n b, buf_at y n b ↔ buf_at x n b) by (intros n b; unfold buf_at; by rewrite E1).
  split; try done.
  - by rewrite E1.
  - by rewrite En, Ep.
  - intros n v. rewrite E1, E4, E5. apply C3.
  - intros n n' b. rewrite !Ea. apply C4.
  - intros b Hb. destruct (C5 b Hb) as [n Hn]. exists n. by rewrite Ea.
  - intros b. rewrite E4. apply C6.
Qed.

(** ** Buffers the process holds *)

Section held.
  Context (x : fsys) (pid_ : Z) (H D : list Z) (lg : Z → list Z) (n : nat) (b : Z).
  Hypothesis Hc : cache_ok x pid_ H D lg.
  Hypothesis Hin : b ∈ H.
  Hypothesis Hat : buf_at x n b.

Lemma held_buf : ∃ v, x.(bufs) !! n = Some v ∧ v.(b_dev) = DISKDEV ∧ v.(b_blockno) = b ∧
  0 <= b < x.(disk).(disksize) ∧ v.(b_data) = lg b ∧ v.(b_refcnt) = 1 ∧
  v.(b_flags) = (if decide (b ∈ D) then Z.lor B_VALID B_DIRTY else B_VALID) ∧
  (x.(slocks) (SBuf n)).(sl_locked) = 1 ∧ (x.(slocks) (SBuf n)).(sl_pid) = pid_.
Proof using All.
  destruct Hat as (v & Hv & Hd & Hb). exists v.
  destruct (co_buf _ _ _ _ _ Hc n v Hv) as [(Hd0 & _)|(_ & Hr & Hdat & Hfl & Hh & _)]; [rewrite Hd0 in Hd; done|].
  rewrite Hb in *. destruct (Hh Hin) as (? & ? & ?). done.
Qed.

(** A held buffer replaced by another version of its block. *)
Lemma held_put v w D' lg' dk' :
  x.(bufs) !! n = Some v → b_next w = b_next v → b_prev w = b_prev v →
  w.(b_dev) = DISKDEV → w.(b_blockno) = b → w.(b_data) = lg' b → w.(b_refcnt) = 1 →
  w.(b_flags) = (if decide (b ∈ D') then Z.lor B_VALID B_DIRTY else B_VALID) →
  (∀ b', b' ≠ b → (b' ∈ D' ↔ b' ∈ D) ∧ lg' b' = lg b' ∧ dk'.(dk_block) b' = x.(disk).(dk_block) b') →
  dk'.(disksize) = x.(disk).(disksize) → length (lg' b) = Z.to_nat BSIZE →
  cache_ok (set_disk dk' (put_buf n w x)) pid_ H D' lg'.
Proof using All.
  intros Hv Hn Hp Hd Hb Hdat Hrc Hfl Hrest Hds Hsz.
  destruct held_buf as (v' & Hv' & _ & _ & Hr & _ & _ & _ & Hl1 & Hl2). rewrite Hv in Hv'. injection Hv' as <-.
  apply (cache_upd x _ pid_ H H D D' lg lg' n b w); try done.
  - cbn. rewrite length_insert. apply Hc.
  - destruct (co_ring _ _ _ _ _ Hc) as (L & HL & Hch). exists L. split; [done|].
    by apply (relock_ring x pid_ n v w Hv (conj Hn Hp)).
  - intros m u Hm Hu. cbn in Hu. rewrite list_lookup_insert_ne in Hu by done. by exists u.
  - intros m u Hm Hu. exists u. cbn. by rewrite list_lookup_insert_ne.
  - by apply (put_buf_lookup n v).
  - right. rewrite Hb. split_and!; try done; lia.
  - intros m Hm. by apply (co_uniq _ _ _ _ _ Hc m n b).
  - intros b' Hne. by destruct (Hrest b' Hne) as (? & ? & ?).
  - intros b0 Hb0 Hne. destruct Hb0 as (u & Hu & _ & E). destruct Hat as (u' & Hu' & _ & E'). congruence.
Qed.

End held.

Lemma put_buf_at x n v w m b : x.(bufs) !! n = Some v → w.(b_dev) = v.(b_dev) → w.(b_blockno) = v.(b_blockno) →
  buf_at x m b → buf_at (put_buf n w x) m b.
Proof.
  intros Hv Hd Hb (u & Hu & E1 & E2). destruct (decide (n = m)) as [<-|Hne].
  - rewrite Hv in Hu. injection Hu as <-. exists w. rewrite (put_buf_lookup n v w x Hv), Hd, Hb. done.
  - exists u. cbn. by rewrite list_lookup_insert_ne.
Qed.

(** The data of a held buffer. *)
Lemma buf_data_ok k n b pid_ H D lg : cache_ok k.(fs) pid_ H D lg → b ∈ H → buf_at k.(fs) n b →
  (b ← buf_get n; mret b.(b_data)) k = Ok (lg b) k.
Proof.
  intros Hc Hb Hat. destruct (held_buf _ _ _ _ _ _ _ Hc Hb Hat) as (v & Hv & _ & _ & _ & Hd & _).
  mstep by (by apply buf_get_ok). by rewrite Hd.
Qed.

(** What an operation on held buffers leaves as it was. *)
Record kept (k : kernel) (c : nat) (k' : kernel) : Prop := {
  kp_step : fs_step c k k'.(fs) k';
  kp_rest : same_rest k.(fs) k'.(fs);
  kp_size : k'.(fs).(disk).(disksize) = k.(fs).(disk).(disksize);
  kp_at : ∀ m b, buf_at k.(fs) m b → buf_at k'.(fs) m b;
}.

Lemma kept_trans k c k1 k2 : kept k c k1 → kept k1 c k2 → kept k c k2.
Proof.
  intros [S1 R1 D1 A1] [S2 R2 D2 A2]. split; [by eapply fs_step_trans|by etrans|congruence|auto].
Qed.

Lemma fs_step_here c k x : fs_step c k x (set_fs x k).
Proof.
  exists k.(hw), k.(pt).(procs). split_and!; [|apply settled_refl|done]. by destruct k as [? [] ? ? ? ? ? ? ? ? ? ? ? ? ?].
Qed.

(** Writing into a held buffer. *)
Lemma buf_set_ok k c n b pid_ H D lg f :
  cache_ok k.(fs) pid_ H D lg → b ∈ H → buf_at k.(fs) n b → length (f (lg b)) = Z.to_nat BSIZE →
  ∃ k', buf_upd n (λ v, set_b_data (f v.(b_data)) v) k = Ok tt k' ∧ kept k c k' ∧
    cache_ok k'.(fs) pid_ H D (<[b := f (lg b)]> lg) ∧ k'.(fs).(disk) = k.(fs).(disk).
Proof.
  intros Hc Hb Hat Hl. destruct (held_buf _ _ _ _ _ _ _ Hc Hb Hat) as (v & Hv & Hd & Hbn & Hr & Hdat & Hrc & Hfl & _).
  eexists. split; [apply buf_upd_eff|]. rewrite (alter_put n _ _ v Hv), Hdat. set (w := set_b_data _ v).
  split_and!; [split; cbn [fs set_fs]; try done| |done].
  - apply fs_step_here.
  - intros m b'. by apply (put_buf_at k.(fs) n v).
  - pose proof (held_put k.(fs) pid_ H D lg n b Hc Hb Hat v w D (<[b := f (lg b)]> lg) k.(fs).(disk)) as HH.
    cbn [fs set_fs]. change (set_disk (disk (fs k)) (put_buf n w (fs k))) with (put_buf n w (fs k)) in HH. apply HH; try done; rewrite ?fn_lookup_insert; try done.
    intros b' Hne. by rewrite fn_lookup_insert_ne.
Qed.

(** bwrite() *)
Lemma bwrite_ok k c i pr n b H D lg :
  env k c i pr → cache_ok k.(fs) pr.(pid) H D lg → b ∈ H → buf_at k.(fs) n b →
  ∃ k', bwrite n k = Ok tt k' ∧ kept k c k' ∧
    cache_ok k'.(fs) pr.(pid) H (filter (λ d, d ≠ b) D) lg ∧ k'.(fs).(disk) = write_block b (lg b) k.(fs).(disk).
Proof.
  intros He Hc Hb Hat. destruct (held_buf _ _ _ _ _ _ _ Hc Hb Hat) as (v & Hv & Hd & Hbn & Hr & Hdat & Hrc & Hfl & Hl1 & Hl2).
  pose proof (en_proc _ _ _ _ He) as [Hcpu _ _ _].
  set (w := set_b_flags (Z.lor B_VALID B_DIRTY) v). set (k1 := set_hw (touch c k.(hw)) (set_fs (put_buf n w k.(fs)) k)).
  assert (He1 : env k1 c i pr) by (eapply env_step; [exact He|by apply (fs_step_touch c k _ 0)]).
  eexists. split.
  { unfold bwrite. mstep by (by apply (holding_buf k c i pr n)). cbn [negb]. mstep by apply buf_upd_eff.
    change (fs (set_hw _ k)) with k.(fs). rewrite (alter_put n _ _ v Hv).
    replace (set_b_flags (Z.lor (b_flags v) B_DIRTY) v) with w by (unfold w; rewrite Hfl; by destruct (decide _)).
    apply (iderw_write k1 c i pr n w He1); [by apply (put_buf_lookup n v)|done|by cbn; lia|done|done]. }
  cbn [fs set_fs k1 set_hw hw]. rewrite (touch_touch _ _ 0) by done. cbn [b_blockno b_data w set_b_flags]. rewrite Hbn, Hdat.
  split_and!; [split; cbn [fs set_fs set_hw]; try done| |done].
  - by apply (fs_step_touch c k _ 0).
  - intros m b' Hm. apply (put_buf_at k.(fs) n v w) in Hm; [|done..].
    apply (put_buf_at _ n w (set_b_flags B_VALID w)) in Hm; [done|by apply (put_buf_lookup n v)|done|done].
  - rewrite put_buf_twice. apply (held_put k.(fs) pr.(pid) H D lg n b Hc Hb Hat v); try done.
    + cbn. rewrite decide_False; [done|]. rewrite list_elem_of_filter. tauto.
    + intros b' Hne. split_and!; [rewrite list_elem_of_filter; tauto|done|]. cbn. by rewrite fn_lookup_insert_ne.
    + apply Hc.
Qed.

(** ** brelse() *)

(** [y] is [x] with some links changed. *)
Record relinked (x y : fsys) : Prop := {
  rl_rest : y.(slocks) = x.(slocks) ∧ y.(inodes) = x.(inodes) ∧ y.(log) = x.(log) ∧ y.(sb) = x.(sb) ∧ y.(disk) = x.(disk);
  rl_len : length y.(bufs) = length x.(bufs);
  rl_to : ∀ m u, x.(bufs) !! m = Some u → ∃ w, y.(bufs) !! m = Some w ∧ same_buf u w;
}.

#[export] Instance relinked_preorder : PreOrder relinked.
Proof.
  split.
  - intros x. split; [done|done|]. intros m u Hu. exists u. done.
  - intros x y z [(E1&E2&E3&E4&E5) L1 T1] [(F1&F2&F3&F4&F5) L2 T2]. split; [split_and!; congruence|congruence|].
    intros m u Hu. destruct (T1 m u Hu) as (w & Hw & S1 & S2 & S3 & S4 & S5).
    destruct (T2 m w Hw) as (w' & Hw' & S1' & S2' & S3' & S4' & S5'). exists w'. split; [done|].
    unfold same_buf. split_and!; congruence.
Qed.

Lemma relinked_alter x n f : (∀ u, same_buf u (f u)) → relinked x (alter_buf n f x).
Proof.
  intros Hf. split; [done|apply length_alter|]. intros m u Hu. rewrite lookup_alter_buf, Hu.
  destruct (decide (n = m)); [exists (f u)|exists u]; done.
Qed.

Lemma relinked_setn x p v : relinked x (setn p v x).
Proof. destruct p; [|by apply relinked_alter]. split; try done. intros m u Hu. by exists u. Qed.

Lemma relinked_setp x p v : relinked x (setp p v x).
Proof. destruct p; [|by apply relinked_alter]. split; try done. intros m u Hu. by exists u. Qed.

Lemma relinked_from x y m w : relinked x y → y.(bufs) !! m = Some w → ∃ u, x.(bufs) !! m = Some u ∧ same_buf u w.
Proof.
  intros Hr Hw. destruct (lookup_lt_is_Some_2 x.(bufs) m) as [u Hu].
  { rewrite <- (rl_len _ _ Hr). by eapply lookup_lt_Some. }
  exists u. split; [done|]. destruct (rl_to _ _ Hr m u Hu) as (w' & Hw' & Hs). congruence.
Qed.

(** Moving buffer [n] to the front of the ring, as brelse() does. *)
Definition to_front (n : nat) : K unit :=
  nx ← next_of (BBuf n); pv ← prev_of (BBuf n); set_prev nx pv;;
  pv' ← prev_of (BBuf n); nx' ← next_of (BBuf n); set_next pv' nx';;
  push_front n.

(** The state after the first and the second half of it. *)
Definition unlink (n : nat) (x : fsys) : fsys :=
  let a := prevf x (BBuf n) in let b := nextf x (BBuf n) in setn a b (setp b a x).
Definition link_front (n : nat) (x : fsys) : fsys :=
  let h := nextf x BHead in setn BHead (BBuf n) (setp h (BBuf n) (setp (BBuf n) BHead (setn (BBuf n) h x))).

Lemma relinked_front n x : relinked x (link_front n (unlink n x)).
Proof. unfold link_front, unlink. repeat (etrans; [|apply relinked_setn || apply relinked_setp]). done. Qed.

(** The pointer is the list head or a buffer of [L] in range. *)
Definition ptr_in (x : fsys) (L : list nat) (p : bufptr) : Prop := ∀ m, p = BBuf m → m ∈ L ∧ (m < length x.(bufs))%nat.

Lemma ptr_in_opt x L o : in_range x L → (∀ m, o = Some m → m ∈ L) → ptr_in x L (default BHead (BBuf <$> o)).
Proof. intros Hr Ho m E. destruct o as [z|]; [|done]. injection E as ->. split; [|apply Hr]; by apply Ho. Qed.

Section front.
  Context (x : fsys) (L1 L2 : list nat) (n : nat).
  Hypothesis Hnd : NoDup (L1 ++ n :: L2).
  Hypothesis Hch : chain (nextf x) (prevf x) BHead (L1 ++ n :: L2) BHead.
  Hypothesis Hr : in_range x (L1 ++ n :: L2).

Lemma front_out : (n ∉ L1 ++ L2) ∧ NoDup (L1 ++ L2) ∧ in_range x (L1 ++ L2) ∧ (n < length x.(bufs))%nat.
Proof using Hnd Hr.
  apply NoDup_app in Hnd as (H1 & Hd & H2). apply NoDup_cons in H2 as [Hn2 H2]. split_and!.
  - rewrite elem_of_app. intros [H|H]; [|done]. apply (Hd n H). constructor.
  - apply NoDup_app. split_and!; [done| |done]. intros m Hm Hm2. apply (Hd m Hm). by constructor.
  - intros m Hm. apply Hr. rewrite elem_of_app in *. destruct Hm; [by left|right; by right].
  - apply Hr, elem_of_app. right. constructor.
Qed.

Lemma front_ptrs : ptr_in x (L1 ++ L2) (prevf x (BBuf n)) ∧ ptr_in x (L1 ++ L2) (nextf x (BBuf n)).
Proof using Hnd Hch Hr.
  destruct front_out as (_ & _ & Hr' & _). apply chain_app in Hch as [H1 H2].
  rewrite (chain_last _ _ _ _ _ H1), (chain_first _ _ _ _ _ H2). split; apply ptr_in_opt; try done; intros m Hm; apply elem_of_app.
  - left. by apply last_Some_elem_of.
  - right. destruct L2; [done|]. injection Hm as ->. constructor.
Qed.

Lemma unlink_ring : chain (nextf (unlink n x)) (prevf (unlink n x)) BHead (L1 ++ L2) BHead.
Proof using Hnd Hch Hr.
  destruct front_ptrs as [Ha Hb]. unfold unlink. rewrite nextf_setn, nextf_setp, prevf_setn, prevf_setp.
  - by apply chain_unlink.
  - intros m E. by apply Hb.
  - intros m E. rewrite length_setp. by apply Ha.
Qed.

Lemma front_ring : let y := link_front n (unlink n x) in chain (nextf y) (prevf y) BHead (n :: L1 ++ L2) BHead.
Proof using Hnd Hch Hr.
  destruct front_out as (Hn & Hnd' & Hr' & Hlt). pose proof unlink_ring as Hu.
  assert (Hl : length (unlink n x).(bufs) = length x.(bufs)) by (unfold unlink; by rewrite length_setn, length_setp).
  unfold link_front. set (u := unlink n x) in *.
  assert (Hh : ptr_in x (L1 ++ L2) (nextf u BHead)).
  { rewrite (chain_first _ _ _ _ _ Hu). apply ptr_in_opt; [done|]. intros m Hm.
    destruct (L1 ++ L2); [done|]. injection Hm as ->. constructor. }
  rewrite nextf_setn, nextf_setp, nextf_setp, nextf_setn, prevf_setn, prevf_setp, prevf_setp, prevf_setn.
  - by apply chain_push.
  - intros m [= <-]. by rewrite length_setn, Hl.
  - intros m E. rewrite length_setp, length_setn, Hl. by apply Hh.
  - intros m [= <-]. by rewrite Hl.
  - done.
Qed.

End front.

Lemma to_front_eff k n : (n < length k.(fs).(bufs))%nat → nextf k.(fs) (BBuf n) ≠ BBuf n →
  to_front n k = Ok tt (set_fs (link_front n (unlink n k.(fs))) k).
Proof.
  intros Hn Hne. assert (Hx : ∀ y, length y.(bufs) = length k.(fs).(bufs) → ∀ m, BBuf n = BBuf m → (m < length y.(bufs))%nat).
  { intros y E m [= <-]. by rewrite E. }
  unfold to_front, push_front, link_front, unlink. set (x := k.(fs)) in *. set (b := nextf x (BBuf n)) in *. set (a := prevf x (BBuf n)).
  mstep by (apply (next_of_ok k); by apply Hx). mstep by (apply (prev_of_ok k); by apply Hx). fold x a b.
  mstep by apply set_prev_eff. fold x.
  assert (Hl1 : length (setp b a x).(bufs) = length x.(bufs)) by apply length_setp.
  mstep by (apply (prev_of_ok (set_fs (setp b a x) k)); by apply Hx). mstep by (apply (next_of_ok (set_fs (setp b a x) k)); by apply Hx).
  cbn [fs set_fs]. rewrite nextf_setp. fold b.
  assert (Hp : prevf (setp b a x) (BBuf n) = a).
  { unfold setp. destruct b as [|m]; [done|]. cbn [prevf]. rewrite lookup_alter_buf, decide_False by congruence. done. }
  rewrite Hp. mstep by apply set_next_eff. change (set_fs ?y (set_fs _ k)) with (set_fs y k). cbn [fs set_fs].
  set (u := setn a b (setp b a x)). mstep by (by apply (next_of_ok (set_fs u k))). cbn [fs set_fs]. set (h := nextf u BHead).
  do 2 (mstep by (apply set_next_eff || apply set_prev_eff); change (set_fs ?y (set_fs _ k)) with (set_fs y k); cbn [fs set_fs]).
  mstep by (by apply (next_of_ok (set_fs _ k))). cbn [fs set_fs]. rewrite nextf_setp.
  change (nextf (setn (BBuf n) h u) BHead) with h.
  mstep by apply set_prev_eff. change (set_fs ?y (set_fs _ k)) with (set_fs y k). cbn [fs set_fs]. by rewrite set_next_eff.
Qed.

Lemma to_front_ok k L n :
  L ≡ₚ seq 0 NBUF → length k.(fs).(bufs) = NBUF → chain (nextf k.(fs)) (prevf k.(fs)) BHead L BHead → (n < NBUF)%nat →
  ∃ y, to_front n k = Ok tt (set_fs y k) ∧ relinked k.(fs) y ∧
    ∃ L', L' ≡ₚ seq 0 NBUF ∧ chain (nextf y) (prevf y) BHead L' BHead.
Proof.
  intros HL Hlen Hch Hn. destruct (ring_range k L HL Hlen) as (Hr & _ & Hnd).
  assert (Hin : n ∈ L) by (rewrite HL; apply elem_of_seq; lia).
  apply list_elem_of_split in Hin as (L1 & L2 & ->). destruct (front_out _ L1 L2 n Hnd Hr) as (Hout & _ & _ & Hlt).
  destruct (front_ptrs _ L1 L2 n Hnd Hch Hr) as [_ Hb].
  eexists. split_and!; [apply to_front_eff; [done|]; intros E; by destruct (Hb n E)|apply relinked_front|].
  exists (n :: L1 ++ L2). split; [by rewrite Permutation_middle|]. by apply front_ring.
Qed.

(** The sleep lock a holder leaves behind. *)
Definition sl_open (x : fsys) (n : nat) : sleeplock := mk_sleeplock 0 (x.(slocks) (SBuf n)).(sl_name) 0.

(** The cache after the buffer of [b] is given back. *)
Lemma drop_cache x y pid_ H D lg n b v :
  cache_ok x pid_ (b :: H) D lg → b ∉ H → buf_at x n b → x.(bufs) !! n = Some v →
  b ∈ D ∨ lg b = x.(disk).(dk_block) b →
  relinked (put_buf n (set_b_refcnt 0 v) (set_slocks (<[SBuf n := sl_open x n]> x.(slocks)) x)) y →
  (∃ L, L ≡ₚ seq 0 NBUF ∧ chain (nextf y) (prevf y) BHead L BHead) →
  cache_ok y pid_ H D lg ∧ ∀ m b', buf_at x m b' → buf_at y m b'.
Proof.
  intros Hc Hb Hat Hv Hclean Hr Hring.
  destruct (held_buf _ _ _ _ _ _ _ Hc ltac:(constructor) Hat) as (v' & Hv' & Hd & Hbn & Hbr & Hdat & Hrc & Hfl & _).
  rewrite Hv in Hv'. injection Hv' as <-. set (w0 := set_b_refcnt 0 v) in *.
  destruct (rl_rest _ _ Hr) as (Es & _ & _ & _ & Ed). cbn in Es, Ed.
  pose proof (rl_len _ _ Hr) as El. cbn in El. rewrite length_insert in El.
  destruct (rl_to _ _ Hr n w0 (put_buf_lookup n v w0 x Hv)) as (w & Hw & S1 & S2 & S3 & S4 & S5).
  assert (Hback : ∀ m u, m ≠ n → x.(bufs) !! m = Some u → ∃ w, y.(bufs) !! m = Some w ∧ same_buf u w).
  { intros m u Hm Hu. apply (rl_to _ _ Hr m u). cbn. by rewrite list_lookup_insert_ne. }
  split.
  - apply (cache_upd x y pid_ (b :: H) H D D lg lg n b w); try done.
    + rewrite El. apply Hc.
    + by rewrite Ed.
    + intros m u Hm Hu. destruct (relinked_from _ _ m u Hr Hu) as (u' & Hu' & HS). cbn in Hu'.
      rewrite list_lookup_insert_ne in Hu' by done. by exists u'.
    + intros m Hm. rewrite Es. by rewrite fn_lookup_insert_ne by congruence.
    + by rewrite S1.
    + by rewrite S2.
    + right. rewrite Es, fn_lookup_insert, S1, S2, S3, S4, S5. cbn. rewrite Hbn. split_and!; try done; lia.
    + intros m Hm. by apply (co_uniq _ _ _ _ _ Hc m n b).
    + intros b' Hne. rewrite Ed. split_and!; try done. rewrite elem_of_cons. naive_solver.
    + intros b0 (u & Hu & _ & E) Hne. congruence.
    + intros _ HD. rewrite Ed. by destruct Hclean.
    + apply Hc.
  - intros m b' (u & Hu & E1 & E2). destruct (decide (m = n)) as [->|Hm].
    + exists w. rewrite S1, S2. rewrite Hv in Hu. injection Hu as <-. done.
    + destruct (Hback m u Hm Hu) as (u' & Hu' & T1 & T2 & _). exists u'. by rewrite T1, T2.
Qed.

Lemma brelse_ok k c i pr n b H D lg :
  env k c i pr → cache_ok k.(fs) pr.(pid) (b :: H) D lg → b ∉ H → buf_at k.(fs) n b →
  b ∈ D ∨ lg b = k.(fs).(disk).(dk_block) b →
  ∃ k', brelse n k = Ok tt k' ∧ kept k c k' ∧ cache_ok k'.(fs) pr.(pid) H D lg ∧ k'.(fs).(disk) = k.(fs).(disk).
Proof.
  intros He Hc Hb Hat Hclean. pose proof (en_proc _ _ _ _ He) as [Hcpu Hruns Hp Hl].
  destruct (held_buf _ _ _ _ _ _ _ Hc ltac:(constructor) Hat) as (v & Hv & Hd & Hbn & Hbr & Hdat & Hrc & Hfl & Hl1 & Hl2).
  set (x := k.(fs)) in *. set (x1 := set_slocks (<[SBuf n := sl_open x n]> x.(slocks)) x).
  set (ps := wake (ChSleep (SBuf n)) <$> k.(pt).(procs)). set (k0 := set_pt (set_procs ps k.(pt)) k).
  set (h1 := touch c k.(hw)). assert (Hcpu1 : cpu_at h1 c 0) by (by apply cpu_at_touch).
  assert (Et : touch c h1 = h1) by (by apply (touch_touch _ _ 0)).
  set (w := set_b_refcnt 0 v). set (k2 := set_hw (acq_hw c LBcache h1) (set_fs (put_buf n w x1) k0)).
  destruct (co_ring _ _ _ _ _ Hc) as (L & HL & Hch).
  destruct (to_front_ok k2 L n HL) as (y & Ey & Hrel & Hring).
  { cbn. rewrite length_insert. apply Hc. }
  { by apply (relock_ring x pr.(pid) n v w Hv). }
  { rewrite <- (co_len _ _ _ _ _ Hc). by eapply lookup_lt_Some. }
  exists (set_hw (touch c h1) (set_fs y k0)).
  assert (Erun : brelse n k = Ok tt (set_hw (touch c h1) (set_fs y k0))).
  { unfold brelse. mstep by (by apply (holding_buf k c i pr n)). cbn [negb]. fold h1.
    mstep by (apply (releasesleep_ok _ c 0); [exact Hcpu1|lia|apply He|apply He|exact Hl]).
    change (hw (set_hw h1 k)) with h1. change (fs (set_hw h1 k)) with x. rewrite Et.
    mstep by (apply (acquire_ok _ c 0); [exact Hcpu1|lia|apply He]). mstep by apply buf_upd_eff.
    change (buf_get n ≫= _) with (buf_get n ≫= λ b, when (b.(b_refcnt) =? 0) (to_front n) ≫= λ _, release LBcache).
    match goal with |- _ ?s = _ => replace s with k2 end.
    2:{ match goal with |- context [alter_buf n _ ?z] => change z with x1 end.
        rewrite (alter_put n _ x1 v Hv). unfold k2, w. by rewrite Hrc. }
    mstep by (apply (buf_get_ok _ n w), (put_buf_lookup n v w x1 Hv)).
    change (b_refcnt w =? 0) with true. cbn [when]. mstep by exact Ey.
    unfold k2. change (set_fs y (set_hw ?h (set_fs _ k0))) with (set_hw h (set_fs y k0)).
    rewrite (release_acquired _ c 0 _ (set_fs y k0)) by (done || lia || apply He). by rewrite Et. }
  destruct (drop_cache x y _ _ _ _ _ _ _ Hc Hb Hat Hv Hclean Hrel Hring) as [Hcy Hay].
  destruct (rl_rest _ _ Hrel) as (Es & Ei & Elog & Esb & Ed). cbn in Es, Ei, Elog, Esb, Ed.
  split_and!; [done| |done|by cbn; rewrite Ed].
  split; [|split_and!; try done|by cbn; rewrite Ed|done].
  - exists (touch c h1), ps. split_and!; [done|rewrite Et; by eapply settled_touch|apply woke_wake].
  - intros m. cbn. rewrite Es. by rewrite fn_lookup_insert_ne.
Qed.

(** ** The cache after binit() *)

Definition final {S A} (r : res S A) : S := match r with Ok _ s | Err _ s | Swtch s => s end.

Definition unused_buf (x : fsys) (n : nat) : bool :=
  match x.(bufs) !! n with
  | Some v => (v.(b_dev) =? 0) && (v.(b_flags) =? 0) && (v.(b_refcnt) =? 0) && ((x.(slocks) (SBuf n)).(sl_locked) =? 0)
  | None => false
  end.

Lemma binit_ok k pid_ :
  k.(fs).(bufs) = replicate NBUF zero_buf →
  (∀ b, length (k.(fs).(disk).(dk_block) b) = Z.to_nat BSIZE) →
  ∃ k', binit k = Ok tt k' ∧ cache_ok k'.(fs) pid_ [] [] k.(fs).(disk).(dk_block) ∧
    k'.(fs).(disk) = k.(fs).(disk).
Proof.
  destruct k as [f1 f2 f3 f4 f5 f6 f7 f8 f9 f10 f11 f12 [g1 g2 g3 g4 g5 g6 g7 g8] f14 f15]. cbn [fs bufs]. intros -> Hsz.
  match goal with |- context [binit ?k] => exists (final (binit k)); set (k0 := k) in * end.
  assert (Hok : binit k0 = Ok tt (final (binit k0))) by (vm_compute; reflexivity).
  assert (Hdisk : (final (binit k0)).(fs).(disk) = k0.(fs).(disk)) by (vm_compute; reflexivity).
  assert (Hlen : length (final (binit k0)).(fs).(bufs) = NBUF) by (vm_compute; reflexivity).
  assert (Hch : let y := (final (binit k0)).(fs) in chain (nextf y) (prevf y) BHead (rev (seq 0 NBUF)) BHead)
    by (vm_compute; repeat split).
  assert (Hun : forallb (unused_buf (final (binit k0)).(fs)) (seq 0 NBUF) = true) by (vm_compute; reflexivity).
  revert Hok Hdisk Hlen Hch Hun. generalize (final (binit k0)) as k'. intros k' -> Hdisk Hlen Hch Hun.
  split_and!; [done| |done].
  assert (Hb : ∀ n v, k'.(fs).(bufs) !! n = Some v → v.(b_dev) = 0 ∧ v.(b_flags) = 0 ∧ v.(b_refcnt) = 0 ∧
            (k'.(fs).(slocks) (SBuf n)).(sl_locked) = 0).
  { intros n v Hv. rewrite forallb_forall in Hun. specialize (Hun n). unfold unused_buf in Hun. rewrite Hv in Hun.
    rewrite !andb_true_iff, !Z.eqb_eq in Hun. destruct Hun as (((? & ?) & ?) & ?); [|done].
    apply in_seq. rewrite <- Hlen. apply lookup_lt_Some in Hv. lia. }
  assert (Hnone : ∀ n b, ¬ buf_at k'.(fs) n b).
  { intros n b (v & Hv & Hd & _). destruct (Hb n v Hv) as [E _]. by rewrite E in Hd. }
  split; try done.
  - exists (rev (seq 0 NBUF)). split; [symmetry; apply Permutation_rev|done].
  - intros n v Hv. left. by apply Hb.
  - intros n m b Hn. by destruct (Hnone n b).
  - intros b [H|H]; by apply not_elem_of_nil in H.
  - intros b _ _. by rewrite Hdisk.
Qed.

(** A kernel with the cache of binit() over disk [d], process [pr] running. *)
Definition demo_fs (d : disk_t) (pr : proc) : kernel :=
  let k := demo_running [pr] in
  set_fs (final (binit (set_fs (set_disk d k.(fs)) k))).(fs) k.

Lemma demo_fs_ok d pr :
  pr.(state) = RUNNING → (∀ b, length (d.(dk_block) b) = Z.to_nat BSIZE) →
  env (demo_fs d pr) 0 0 pr ∧ cache_ok (demo_fs d pr).(fs) pr.(pid) [] [] d.(dk_block) ∧ (demo_fs d pr).(fs).(disk) = d.
Proof.
  intros Hs Hd. set (k0 := set_fs (set_disk d (demo_running [pr]).(fs)) (demo_running [pr])).
  destruct (binit_ok k0 pr.(pid)) as (k' & E & Hc & Hdk); [done|done|].
  unfold demo_fs. fold k0. rewrite E. cbn [final fs set_fs]. split_and!; [|done|done].
  clear E. split; [|exact Hs|by split]. pose proof (demo_in_proc pr [] ltac:(unfold NPROC; cbn; lia)) as [H1 H2 H3 H4].
  by split.
Qed.

(** ** The cache as a disk

    What the cache promises its clients: a memory of blocks [v_mem] in front of
    the disk's [v_media]. A client takes blocks ([v_held]), changes them,
    writes them through and gives them back; [v_dirty] are the blocks pinned
    by the log. *)
Record vdisk : Type := mk_vdisk {
  v_held : list Z;
  v_dirty : list Z;
  v_mem : Z → list Z;
  v_media : Z → list Z;
}.

Inductive bop : Type :=
  | OpRead (b : Z)
  | OpStore (b : Z) (f : list Z → list Z)
  | OpWrite (b : Z)
  | OpRelse (b : Z).

Definition roomb (H D : list Z) : bool := bool_decide (length (remove_dups (H ++ D)) < NBUF)%nat.

(** The specification: the bytes the operation shows to its client and the
    state after it; [None] when the client breaks the rules. *)
Definition vstep (size : Z) (V : vdisk) (o : bop) : option (list Z * vdisk) :=
  let '(mk_vdisk H D m d) := V in
  match o with
  | OpRead b =>
      if (0 <=? b) && (b <? size) && negb (bool_decide (b ∈ H)) && roomb H D
      then Some (m b, mk_vdisk (b :: H) D m d) else None
  | OpStore b f =>
      if bool_decide (b ∈ H) && (Z.of_nat (length (f (m b))) =? BSIZE)
      then Some ([], mk_vdisk H D (<[b := f (m b)]> m) d) else None
  | OpWrite b =>
      if bool_decide (b ∈ H) then Some ([], mk_vdisk H (filter (λ x, x ≠ b) D) m (<[b := m b]> d)) else None
  | OpRelse b =>
      if bool_decide (b ∈ H) && (bool_decide (b ∈ D) || bool_decide (m b = d b))
      then Some ([], mk_vdisk (filter (λ x, x ≠ b) H) D m d) else None
  end.

Fixpoint vrun (size : Z) (V : vdisk) (os : list bop) : option (list (list Z) * vdisk) :=
  match os with
  | [] => Some ([], V)
  | o :: os' =>
      match vstep size V o with
      | None => None
      | Some (out, V1) =>
          match vrun size V1 os' with
          | None => None
          | Some (outs, V2) => Some (out :: outs, V2)
          end
      end
  end.

(** The calls of a client that keeps the struct buf pointer of block [b] in
    [ptr b]. *)
Definition bcall (ptr : Z → nat) (o : bop) : K ((Z → nat) * list Z) :=
  match o with
  | OpRead b => n ← bread DISKDEV b; v ← buf_get n; mret (<[b := n]> ptr, v.(b_data))
  | OpStore b f => buf_upd (ptr b) (λ v, set_b_data (f v.(b_data)) v);; mret (ptr, [])
  | OpWrite b => bwrite (ptr b);; mret (ptr, [])
  | OpRelse b => brelse (ptr b);; mret (ptr, [])
  end.

Fixpoint bcalls (ptr : Z → nat) (os : list bop) : K ((Z → nat) * list (list Z)) :=
  match os with
  | [] => mret (ptr, [])
  | o :: os' =>
      r ← bcall ptr o;
      rs ← bcalls r.1 os';
      mret (rs.1, r.2 :: rs.2)
  end.

(** The cache of [k] stands for [V]. *)
Record models (k : kernel) (pid_ size : Z) (ptr : Z → nat) (V : vdisk) : Prop := {
  md_cache : cache_ok k.(fs) pid_ V.(v_held) V.(v_dirty) V.(v_mem);
  md_media : k.(fs).(disk).(dk_block) = V.(v_media);
  md_size : k.(fs).(disk).(disksize) = size;
  md_ptr : ∀ b, b ∈ V.(v_held) → buf_at k.(fs) (ptr b) b;
}.

Lemma roomb_room H D : roomb H D = true → room H D.
Proof.
  intros Hr%bool_decide_eq_true_1. exists (remove_dups (H ++ D)). split; [|done].
  intros b Hb. rewrite elem_of_remove_dups, elem_of_app. done.
Qed.

Lemma bcall_refines k c i pr size ptr V o out V' :
  env k c i pr → models k pr.(pid) size ptr V → vstep size V o = Some (out, V') →
  ∃ ptr' k', bcall ptr o k = Ok (ptr', out) k' ∧ models k' pr.(pid) size ptr' V' ∧ fs_step c k k'.(fs) k' ∧
    same_rest k.(fs) k'.(fs).
Proof.
  intros He [Hc Hm Hs Hp] Hv. destruct V as [H D m d], o as [b|b f|b|b]; cbn [vstep v_held v_dirty v_mem v_media bcall] in *;
    destruct (_ : bool) eqn:E in Hv; [|done| |done| |done| |done]; rewrite ?andb_true_iff in E; injection Hv as <- <-.
  - destruct E as (((E1 & E2) & E3%negb_true_iff%bool_decide_eq_false_1) & E4).
    destruct (bread_ok k c i pr H D m b) as (n & k' & Er & [G1 G2 G3 G4 G5 G6]); [done|done|lia|done|by left; apply roomb_room|].
    exists (<[b := n]> ptr), k'. split_and!; [| |done|done].
    + mstep by exact Er. destruct (held_buf _ _ _ _ _ _ _ G2 ltac:(constructor) G3) as (v & Hv & _ & _ & _ & Hdat & _).
      mstep by (by apply buf_get_ok). by rewrite Hdat.
    + split; cbn; [done|congruence|congruence|]. intros b' [->|Hb]%elem_of_cons; [by rewrite fn_lookup_insert|].
      rewrite fn_lookup_insert_ne by (intros ->; done). by apply G6, Hp.
  - destruct E as (Hb%bool_decide_eq_true_1 & Hl%Z.eqb_eq).
    destruct (buf_set_ok k c (ptr b) b pr.(pid) H D m f) as (k' & Er & [K1 K2 K3 K4] & Hc' & Hd'); [done|done|by apply Hp|lia|].
    exists ptr, k'. split_and!; [by mstep by exact Er| |done|done]. split; cbn; [done|congruence|congruence|auto].
  - apply bool_decide_eq_true_1 in E.
    destruct (bwrite_ok k c i pr (ptr b) b H D m) as (k' & Er & [K1 K2 K3 K4] & Hc' & Hd'); [done|done|done|by apply Hp|].
    exists ptr, k'. split_and!; [by mstep by exact Er| |done|done]. 
    split; cbn; [done|by rewrite Hd', <- Hm|congruence|auto].
  - destruct E as (Hb%bool_decide_eq_true_1 & Hcl). set (H' := filter (λ x, x ≠ b) H).
    assert (HH : ∀ b', b' ∈ H ↔ b' ∈ b :: H').
    { intros b'. rewrite elem_of_cons. unfold H'. rewrite list_elem_of_filter. destruct (decide (b' = b)) as [->|]; tauto. }
    destruct (brelse_ok k c i pr (ptr b) b H' D m) as (k' & Er & [K1 K2 K3 K4] & Hc' & Hd').
    + done.
    + by apply (cache_ok_sets _ _ H _ D).
    + unfold H'. rewrite list_elem_of_filter. tauto.
    + by apply Hp.
    + rewrite Hm. apply orb_true_iff in Hcl as [Hcl|Hcl]; apply bool_decide_eq_true_1 in Hcl; auto.
    + exists ptr, k'. split_and!; [by mstep by exact Er| |done|done]. split; cbn; [done|congruence|congruence|].
      intros b' Hb'. apply K4, Hp, HH. by right.
Qed.

(** C16: the buffer cache implements a disk with a memory in front of it. Every
    sequence of bread(), changes of held buffers, bwrite() and brelse() that
    the specification allows runs without panic or blocking, shows its client
    the same bytes as the specification (the last ones stored, or those on
    disk), and leaves the disk and the cache in the states it says, whatever
    was evicted and read again in between. *)
Theorem bcache_refines k c i pr size ptr V os outs V' :
  env k c i pr → models k pr.(pid) size ptr V → vrun size V os = Some (outs, V') →
  ∃ ptr' k', bcalls ptr os k = Ok (ptr', outs) k' ∧ models k' pr.(pid) size ptr' V' ∧ env k' c i pr.
Proof.
  revert k ptr V outs. induction os as [|o os IH]; intros k ptr V outs He Hm Hr; cbn [vrun bcalls] in *.
  - injection Hr as <- <-. by exists ptr, k.
  - destruct (vstep size V o) as [[out V1]|] eqn:Es; [|done].
    destruct (vrun size V1 os) as [[outs' V2]|] eqn:Er; [|done]. injection Hr as <- <-.
    destruct (bcall_refines k c i pr size ptr V o out V1 He Hm Es) as (p1 & k1 & E1 & Hm1 & St & _).
    destruct (IH k1 p1 V1 outs') as (p2 & k2 & E2 & Hm2 & He2); [by eapply env_step|done|done|].
    exists p2, k2. split_and!; [|done|done]. mstep by exact E1. mstep by exact E2. done.
Qed.

(** Blocks 0, 1, ... of a disk of 100 blocks, each filled with its number. *)
Definition demo_disk : disk_t := mk_disk 100 (λ b, replicate 512 b) [].

(** Changing block 5 and reading 30 more blocks, which evicts it, then reading
    it back. *)
Definition demo_ops : list bop :=
  [OpRead 5; OpStore 5 (<[0%nat := 77]>); OpWrite 5; OpRelse 5] ++
  concat ((λ n, [OpRead (Z.of_nat n); OpRelse (Z.of_nat n)]) <$> seq 10 30) ++ [OpRead 5].

Definition demo_vdisk : vdisk := mk_vdisk [] [] demo_disk.(dk_block) demo_disk.(dk_block).

Lemma bcache_refines_witness :
  ∃ outs p k', bcalls (λ _, 0%nat) demo_ops (demo_fs demo_disk (set_state RUNNING (demo_proc 7 3))) = Ok (p, outs) k' ∧
    last outs = Some (<[0%nat := 77]> (replicate 512 5)).
Proof.
  destruct (demo_fs_ok demo_disk (set_state RUNNING (demo_proc 7 3)) eq_refl (λ b, eq_refl)) as (He & Hc & Hd).
  destruct (vrun 100 demo_vdisk demo_ops) as [[outs V]|] eqn:Ev; [|by vm_compute in Ev].
  destruct (bcache_refines _ 0 0 (set_state RUNNING (demo_proc 7 3)) 100 (λ _, 0%nat) demo_vdisk demo_ops outs V He) as (p & k' & Hr & _).
  - split; [exact Hc|rewrite Hd; reflexivity|rewrite Hd; reflexivity|].
    intros b Hb. apply not_elem_of_nil in Hb. destruct Hb.
  - exact Ev.
  - exists outs, p, k'. split; [exact Hr|]. 
    assert (E : last <$> (fst <$> vrun 100 demo_vdisk demo_ops)
      = Some (Some (<[0%nat := 77]> (replicate 512 5)))) by (vm_compute; reflexivity).
    rewrite Ev in E. injection E as E. exact E.
Defined.
