(* ===== verification/Log.v ===== *)
(** * log.c: transactions

    The functions of log.c over the buffer cache. The header block on disk is
    the 32-bit words n, block[0], block[1], ... at the start of block
    log.start. begin_op() gives the processor away inside its loop, so the
    loop is a definition of its own that a resumed process enters again. *)
From S2P Require Import Prelude.
From S2P Require Import Kernel.
From S2P Require Import Spinlock.
From S2P Require Import Sched.
From S2P Require Import SchedProps.
From S2P Require Import Sleeplock.
From S2P Require Import Bio.

(** ** Words in a block *)

(** The byte at index [i] of an array; [CpuFault] outside it. *)
Definition byte_at (l : list Z) (i : Z) : K Z := λ k,
  match l !! Z.to_nat i with
  | Some b => if 0 <=? i then Ok b k else Err (CpuFault "array index") k
  | None => Err (CpuFault "array index") k
  end.

(** A little-endian word of a block. *)
Definition word_at (l : list Z) (i : Z) : Z :=
  let b j := nth (Z.to_nat (i + j)) l 0 in
  b 0 + 2 ^ 8 * b 1 + 2 ^ 16 * b 2 + 2 ^ 24 * b 3.

Definition half_at (l : list Z) (i : Z) : Z :=
  let b j := nth (Z.to_nat (i + j)) l 0 in b 0 + 2 ^ 8 * b 1.

(** [l] with the bytes [bs] stored from index [i] on. *)
Fixpoint splice (l : list Z) (i : nat) (bs : list Z) : list Z :=
  match bs with
  | [] => l
  | b :: bs' => splice (<[i := b]> l) (S i) bs'
  end.

Definition word_bytes (v : Z) : list Z := [u8 v; u8 (v / 2 ^ 8); u8 (v / 2 ^ 16); u8 (v / 2 ^ 24)].
Definition half_bytes (v : Z) : list Z := [u8 v; u8 (v / 2 ^ 8)].

Definition put_word (i v : Z) (l : list Z) : list Z := splice l (Z.to_nat i) (word_bytes v).
Definition put_half (i v : Z) (l : list Z) : list Z := splice l (Z.to_nat i) (half_bytes v).

(** The words [l] stored from index [i] on. *)
Fixpoint put_words (i : Z) (l : list Z) (d : list Z) : list Z :=
  match l with
  | [] => d
  | v :: l' => put_words (i + 4) l' (put_word i v d)
  end.

(** ** The log *)

Definition upd_log (f : log_t → log_t) : K unit := upd_fs (λ x, set_log (f x.(log)) x).
Definition get_log {A} (f : log_t → A) : K A := get (λ k, f k.(fs).(log)).

(** log.lh.block[i] *)
Definition lh_get (i : Z) : K Z := λ k,
  match k.(fs).(log).(lh_block) !! Z.to_nat i with
  | Some b => if 0 <=? i then Ok b k else Err (CpuFault "log.lh.block") k
  | None => Err (CpuFault "log.lh.block") k
  end.

Definition lh_set (i v : Z) : K unit := λ k,
  if (0 <=? i) && (i <? LOGSIZE) then
    upd_log (λ l, set_lh_block (<[Z.to_nat i := v]> l.(lh_block)) l) k
  else Err (CpuFault "log.lh.block") k.

Definition buf_data (n : nat) : K (list Z) :=
  b ← buf_get n;
  mret b.(b_data).

Definition install_turn (tail_ : nat) (_ : unit) : K unit :=
  dv ← get_log lg_dev;
  st ← get_log lg_start;
  lbuf ← bread (u32 dv) (u32 (st + Z.of_nat tail_ + 1));
  blk ← lh_get (Z.of_nat tail_);
  dbuf ← bread (u32 dv) (u32 blk);
  d ← buf_data lbuf;
  buf_upd dbuf (set_b_data d);;
  bwrite dbuf;;
  brelse lbuf;;
  brelse dbuf.

Definition install_trans : K unit :=
  n ← get_log lh_n;
  for_acc (Z.to_nat n) 0 install_turn tt.

Definition read_head : K unit :=
  dv ← get_log lg_dev;
  st ← get_log lg_start;
  buf_ ← bread (u32 dv) (u32 st);
  d ← buf_data buf_;
  let n := s32 (word_at d 0) in
  upd_log (set_lh_n n);;
  for_acc (Z.to_nat n) 0 (λ i _,
    lh_set (Z.of_nat i) (s32 (word_at d (4 + 4 * Z.of_nat i)))) tt;;
  brelse buf_.

Definition write_head : K unit :=
  dv ← get_log lg_dev;
  st ← get_log lg_start;
  buf_ ← bread (u32 dv) (u32 st);
  n ← get_log lh_n;
  buf_upd buf_ (λ b, set_b_data (put_word 0 n b.(b_data)) b);;
  for_acc (Z.to_nat n) 0 (λ i _,
    v ← lh_get (Z.of_nat i);
    buf_upd buf_ (λ b, set_b_data (put_word (4 + 4 * Z.of_nat i) v b.(b_data)) b)) tt;;
  bwrite buf_;;
  brelse buf_.

Definition recover_from_log : K unit :=
  read_head;;
  install_trans;;
  upd_log (set_lh_n 0);;
  write_head.

(** readsb() of fs.c. *)
Definition readsb (dv : Z) : K superblock :=
  bp ← bread (u32 dv) 1;
  d ← buf_data bp;
  brelse bp;;
  mret (mk_superblock (word_at d 0) (word_at d 4) (word_at d 8) (word_at d 12)
                      (word_at d 16) (word_at d 20) (word_at d 24)).

Definition initlog (dv : Z) : K unit :=
  if BSIZE <=? 4 * (LOGSIZE + 1) then panic "initlog: too big logheader" else
  initlock LLog "log";;
  sb_ ← readsb dv;
  upd_log (set_lg_start (s32 sb_.(sb_logstart)));;
  upd_log (set_lg_size (s32 sb_.(sb_nlog)));;
  upd_log (set_lg_dev dv);;
  recover_from_log.

(** The loop of begin_op(), entered again when the process has slept. *)
Definition begin_op_loop : K unit :=
  l ← get_log id;
  if truth l.(lg_committing) then sleep ChLog LLog else
  if LOGSIZE <? l.(lh_n) + (l.(lg_outstanding) + 1) * MAXOPBLOCKS then sleep ChLog LLog else
  upd_log (λ l, set_lg_outstanding (l.(lg_outstanding) + 1) l);;
  release LLog.

Definition begin_op : K unit :=
  acquire LLog;;
  begin_op_loop.

Definition write_log_turn (tail_ : nat) (_ : unit) : K unit :=
  dv ← get_log lg_dev;
  st ← get_log lg_start;
  to ← bread (u32 dv) (u32 (st + Z.of_nat tail_ + 1));
  blk ← lh_get (Z.of_nat tail_);
  from ← bread (u32 dv) (u32 blk);
  d ← buf_data from;
  buf_upd to (set_b_data d);;
  bwrite to;;
  brelse from;;
  brelse to.

Definition write_log : K unit :=
  n ← get_log lh_n;
  for_acc (Z.to_nat n) 0 write_log_turn tt.

Definition commit : K unit :=
  n ← get_log lh_n;
  when (0 <? n) (
    write_log;;
    write_head;;
    install_trans;;
    upd_log (set_lh_n 0);;
    write_head).

Definition end_op : K unit :=
  acquire LLog;;
  upd_log (λ l, set_lg_outstanding (l.(lg_outstanding) - 1) l);;
  l ← get_log id;
  if truth l.(lg_committing) then panic "log.committing" else
  do_commit ← (if l.(lg_outstanding) =? 0 then upd_log (set_lg_committing 1);; mret true
               else wakeup ChLog;; mret false);
  release LLog;;
  when do_commit (
    commit;;
    acquire LLog;;
    upd_log (set_lg_committing 0);;
    wakeup ChLog;;
    release LLog).

(** The index of blockno among log.lh.block[i..n-1], or n. *)
Fixpoint absorb (blocks : list Z) (i : nat) (n blockno : Z) : nat :=
  match blocks with
  | [] => i
  | b :: blocks' =>
      if Z.of_nat i <? n then if u32 b =? blockno then i else absorb blocks' (S i) n blockno else i
  end.

Definition log_write (n : nat) : K unit :=
  l ← get_log id;
  if (LOGSIZE <=? l.(lh_n)) || (l.(lg_size) - 1 <=? l.(lh_n)) then panic "too big a transaction" else
  if l.(lg_outstanding) <? 1 then panic "log_write outside of trans" else
  acquire LLog;;
  l ← get_log id;
  b ← buf_get n;
  let i := Z.of_nat (absorb l.(lh_block) 0 l.(lh_n) b.(b_blockno)) in
  lh_set i (s32 b.(b_blockno));;
  when (i =? l.(lh_n)) (upd_log (set_lh_n (l.(lh_n) + 1)));;
  buf_upd n (λ b, set_b_flags (Z.lor b.(b_flags) B_DIRTY) b);;
  release LLog.

(** ** Words stored in a block *)

Lemma length_splice l i bs : length (splice l i bs) = length l.
Proof. revert l i. induction bs as [|b bs IH]; intros l i; cbn; [done|]. by rewrite IH, length_insert. Qed.

Lemma splice_ne l i bs j : (j < i ∨ i + length bs <= j)%nat → splice l i bs !! j = l !! j.
Proof.
  revert l i. induction bs as [|b bs IH]; intros l i H; cbn in *; [done|].
  rewrite IH by lia. apply list_lookup_insert_ne. lia.
Qed.

Lemma splice_eq l i bs j : (i + length bs <= length l)%nat → (j < length bs)%nat → splice l i bs !! (i + j)%nat = bs !! j.
Proof.
  revert l i j. induction bs as [|b bs IH]; intros l i j Hl Hj; cbn in *; [lia|]. destruct j as [|j].
  - rewrite Nat.add_0_r, splice_ne by lia. cbn. apply list_lookup_insert_eq. lia.
  - replace (i + S j)%nat with (S i + j)%nat by lia. rewrite IH; [done|rewrite length_insert; lia|lia].
Qed.

Lemma length_put_word i v l : length (put_word i v l) = length l.
Proof. apply length_splice. Qed.
Lemma length_put_half i v l : length (put_half i v l) = length l.
Proof. apply length_splice. Qed.

(** A word or half word reads only its own bytes. *)
Lemma word_at_ext l l' j : (∀ t, 0 <= t < 4 → l !! Z.to_nat (j + t) = l' !! Z.to_nat (j + t)) → word_at l j = word_at l' j.
Proof. intros H. unfold word_at. rewrite !nth_lookup, !H by lia. done. Qed.
Lemma half_at_ext l l' j : (∀ t, 0 <= t < 2 → l !! Z.to_nat (j + t) = l' !! Z.to_nat (j + t)) → half_at l j = half_at l' j.
Proof. intros H. unfold half_at. rewrite !nth_lookup, !H by lia. done. Qed.

Definition apart (i n j m : Z) : Prop := 0 <= i ∧ 0 <= j ∧ (i + n <= j ∨ j + m <= i).

Lemma word_at_splice_ne l i bs j : apart i (Z.of_nat (length bs)) j 4 → word_at (splice l (Z.to_nat i) bs) j = word_at l j.
Proof. intros (? & ? & ?). apply word_at_ext. intros t Ht. apply splice_ne. lia. Qed.
Lemma half_at_splice_ne l i bs j : apart i (Z.of_nat (length bs)) j 2 → half_at (splice l (Z.to_nat i) bs) j = half_at l j.
Proof. intros (? & ? & ?). apply half_at_ext. intros t Ht. apply splice_ne. lia. Qed.

Lemma bytes_word v : let b j := u8 (v / 2 ^ (8 * j)) in b 0 + 2 ^ 8 * b 1 + 2 ^ 16 * b 2 + 2 ^ 24 * b 3 = u32 v.
Proof.
  intros b. unfold b. rewrite ?u32_mod, ?u8_mod. change (2 ^ (8 * 0)) with 1. change (2 ^ (8 * 1)) with 256. change (2 ^ (8 * 2)) with 65536.
  change (2 ^ (8 * 3)) with 16777216. change (2 ^ 8) with 256. change (2 ^ 16) with 65536. change (2 ^ 24) with 16777216. change (2 ^ 32) with 4294967296.
  Z.div_mod_to_equations. lia.
Qed.

Lemma word_at_put i v l : 0 <= i → i + 4 <= Z.of_nat (length l) → word_at (put_word i v l) i = u32 v.
Proof.
  intros Hi Hl. unfold word_at, put_word. rewrite !nth_lookup.
  assert (E : ∀ t, 0 <= t < 4 → splice l (Z.to_nat i) (word_bytes v) !! Z.to_nat (i + t) = Some (u8 (v / 2 ^ (8 * t)))).
  { intros t Ht. rewrite Z2Nat.inj_add, splice_eq by (cbn; lia).
    assert (t = 0 ∨ t = 1 ∨ t = 2 ∨ t = 3) as [->|[->|[->| ->]]] by lia; cbn; [|done..]. by rewrite Z.div_1_r. }
  rewrite !E by lia. apply bytes_word.
Qed.

Lemma half_at_put i v l : 0 <= i → i + 2 <= Z.of_nat (length l) → half_at (put_half i v l) i = u16 v.
Proof.
  intros Hi Hl. unfold half_at, put_half. rewrite !nth_lookup.
  rewrite !Z2Nat.inj_add, !splice_eq by (cbn; lia). 
  change (u8 v + 2 ^ 8 * u8 (v / 2 ^ 8) = u16 v). word_lia.
Qed.

Lemma put_words_app i l1 l2 d : put_words i (l1 ++ l2) d = put_words (i + 4 * Z.of_nat (length l1)) l2 (put_words i l1 d).
Proof.
  revert i d. induction l1 as [|v l1 IH]; intros i d; cbn [app put_words length].
  - f_equal. lia.
  - rewrite IH. f_equal. lia.
Qed.

Lemma length_put_words i l d : length (put_words i l d) = length d.
Proof. revert i d. induction l as [|v l IH]; intros i d; cbn [put_words]; [done|]. by rewrite IH, length_put_word. Qed.

Lemma put_words_ne i l d j : apart i (4 * Z.of_nat (length l)) j 4 → word_at (put_words i l d) j = word_at d j.
Proof.
  revert i d. induction l as [|v l IH]; intros i d Ha; cbn [put_words length] in *; [done|]. unfold apart in *.
  rewrite IH by (unfold apart; lia). apply word_at_splice_ne. unfold apart. cbn. lia.
Qed.

Lemma put_words_half_ne i l d j : apart i (4 * Z.of_nat (length l)) j 2 → half_at (put_words i l d) j = half_at d j.
Proof.
  revert i d. induction l as [|v l IH]; intros i d Ha; cbn [put_words length] in *; [done|]. unfold apart in *.
  rewrite IH by (unfold apart; lia). apply half_at_splice_ne. unfold apart. cbn. lia.
Qed.

Lemma put_words_eq i l d j v : 0 <= i → i + 4 * Z.of_nat (length l) <= Z.of_nat (length d) → l !! j = Some v →
  word_at (put_words i l d) (i + 4 * Z.of_nat j) = u32 v.
Proof.
  revert i d j. induction l as [|w l IH]; intros i d j Hi Hl Hj; cbn [put_words length] in *; [done|]. destruct j as [|j].
  - injection Hj as ->. rewrite put_words_ne by (unfold apart; lia). replace (i + 4 * Z.of_nat 0) with i by lia.
    apply word_at_put; lia.
  - replace (i + 4 * Z.of_nat (S j)) with (i + 4 + 4 * Z.of_nat j) by lia.
    apply IH; [lia|rewrite length_put_word; lia|done].
Qed.
