(* ===== verification/LogProps.v ===== *)
(** * log.c: commit, recovery and crashes

    The code of Log.v run by one process over the buffer cache of BioProps.v:
    what every disk write of commit() and recover_from_log() does, and that a
    crash after any of them loses or keeps a transaction as a whole. *)
From S2P Require Import Prelude.
From S2P Require Import Kernel.
From S2P Require Import Spinlock.
From S2P Require Import Sched.
From S2P Require Import SchedProps.
From S2P Require Import Sleeplock.
From S2P Require Import Bio.
From S2P Require Import BioProps.
From S2P Require Import Log.

(** ** Steps between states with no held buffer *)

(** Only the cache, the disk and woken processes differ. *)
Record fs_move (k : kernel) (c : nat) (k' : kernel) : Prop := {
  fm_step : fs_step c k k'.(fs) k';
  fm_rest : same_rest k.(fs) k'.(fs);
  fm_size : k'.(fs).(disk).(disksize) = k.(fs).(disk).(disksize);
}.

Lemma fs_move_trans k c k1 k2 : fs_move k c k1 → fs_move k1 c k2 → fs_move k c k2.
Proof. intros [S1 R1 D1] [S2 R2 D2]. split; [by eapply fs_step_trans|by etrans|congruence]. Qed.

Lemma kept_move k c k' : kept k c k' → fs_move k c k'.
Proof. by intros [? ? ? _]. Qed.

Lemma got_move k c pid_ H D lg b n k' : got k c pid_ H D lg b n k' → fs_move k c k'.
Proof. intros [? ? ? ? E _]. split; [done|done|by rewrite E]. Qed.

Lemma fs_move_refl k c : fs_move k c k.
Proof.
  split; [|done|done]. pose proof (fs_step_here c k k.(fs)) as H. by destruct k.
Qed.

Lemma env_move k c i pr k' : env k c i pr → fs_move k c k' → env k' c i pr.
Proof. intros He [Hs _ _]. by eapply env_step. Qed.

Lemma move_log k c k' : fs_move k c k' → k'.(fs).(log) = k.(fs).(log).
Proof. by intros [_ (_ & ? & _) _]. Qed.

(** ** Copying a block *)

(** Both blocks read. *)
Section copy.
  Context (k : kernel) (c i : nat) (pr : proc) (D : list Z) (lg : Z → list Z) (a b : Z).
  Hypothesis He : env k c i pr.
  Hypothesis Hc : cache_ok k.(fs) pr.(pid) [] D lg.
  Hypothesis Ha : 0 <= a < k.(fs).(disk).(disksize).
  Hypothesis Hb : 0 <= b < k.(fs).(disk).(disksize).
  Hypothesis Hab : a ≠ b.
  Hypothesis Hra : room [] D.
  Hypothesis Hrb : room [a] D ∨ b ∈ D.

Lemma read_two : ∃ na nb k1 k2, bread DISKDEV a k = Ok na k1 ∧ bread DISKDEV b k1 = Ok nb k2 ∧
  fs_move k c k1 ∧ fs_move k c k2 ∧ cache_ok k2.(fs) pr.(pid) [b; a] D lg ∧
  buf_at k2.(fs) na a ∧ buf_at k2.(fs) nb b ∧ k2.(fs).(disk) = k.(fs).(disk).
Proof using He Hc Ha Hb Hab Hra Hrb.
  destruct (bread_ok k c i pr [] D lg a) as (na & k1 & E1 & G1); [done|done|done|apply not_elem_of_nil|by left|].
  pose proof (got_move _ _ _ _ _ _ _ _ _ G1) as M1.
  destruct (bread_ok k1 c i pr [a] D lg b) as (nb & k2 & E2 & G2).
  { by eapply env_move. }
  { apply G1. }
  { by rewrite (fm_size _ _ _ M1). }
  { rewrite list_elem_of_singleton. done. }
  { done. }
  pose proof (got_move _ _ _ _ _ _ _ _ _ G2) as M2.
  exists na, nb, k1, k2. split_and!; try done.
  - by eapply fs_move_trans.
  - apply G2.
  - apply (gt_keep _ _ _ _ _ _ _ _ _ G2); [constructor|apply G1].
  - apply G2.
  - by rewrite (gt_disk _ _ _ _ _ _ _ _ _ G2), (gt_disk _ _ _ _ _ _ _ _ _ G1).
Qed.

End copy.

(** The block [s] copied over the block [d] and both released. *)
Lemma copy_held k c i pr D lg s d ns nd :
  env k c i pr → cache_ok k.(fs) pr.(pid) [s; d] D lg → s ≠ d → buf_at k.(fs) ns s → buf_at k.(fs) nd d →
  s ∈ D ∨ lg s = k.(fs).(disk).(dk_block) s →
  ∃ k', (x ← buf_data ns; buf_upd nd (set_b_data x);; bwrite nd;; brelse ns;; brelse nd) k = Ok tt k' ∧
    fs_move k c k' ∧ cache_ok k'.(fs) pr.(pid) [] (filter (λ x, x ≠ d) D) (<[d := lg s]> lg) ∧
    k'.(fs).(disk) = write_block d (lg s) k.(fs).(disk).
Proof.
  intros He Hc Hsd Hs Hd Hcl. set (lg1 := <[d := lg s]> lg). set (D1 := filter (λ x, x ≠ d) D).
  assert (Hlg1 : lg1 d = lg s ∧ lg1 s = lg s).
  { unfold lg1. by rewrite fn_lookup_insert, fn_lookup_insert_ne. }
  destruct (buf_set_ok k c nd d pr.(pid) [s; d] D lg (λ _, lg s)) as (k1 & E1 & K1 & Hc1 & Hd1);
    [done|right; constructor|done|apply Hc|]. fold lg1 in Hc1.
  destruct (bwrite_ok k1 c i pr nd d [s; d] D lg1) as (k2 & E2 & K2 & Hc2 & Hd2).
  { eapply env_move; [done|by apply kept_move]. }
  { done. }
  { right; constructor. }
  { by apply (kp_at _ _ _ K1). }
  fold D1 in Hc2. pose proof (kept_trans _ _ _ _ K1 K2) as K12.
  destruct (brelse_ok k2 c i pr ns s [d] D1 lg1) as (k3 & E3 & K3 & Hc3 & Hd3).
  { eapply env_move; [done|by apply kept_move]. }
  { done. }
  { rewrite list_elem_of_singleton. done. }
  { by apply (kp_at _ _ _ K12). }
  { rewrite Hd2, Hd1. cbn. rewrite fn_lookup_insert_ne by done. unfold D1. rewrite list_elem_of_filter.
    destruct Hcl as [|Hcl]; [left; done|right]. destruct Hlg1 as [_ ->]. done. }
  pose proof (kept_trans _ _ _ _ K12 K3) as K13.
  destruct (brelse_ok k3 c i pr nd d [] D1 lg1) as (k4 & E4 & K4 & Hc4 & Hd4).
  { eapply env_move; [done|by apply kept_move]. }
  { done. }
  { apply not_elem_of_nil. }
  { by apply (kp_at _ _ _ K13). }
  { right. rewrite Hd3, Hd2. cbn. by rewrite fn_lookup_insert. }
  exists k4. split_and!; [|eapply kept_move; by eapply kept_trans|done|].
  - unfold buf_data. mstep by (apply (buf_data_ok k ns s pr.(pid) [s; d] D lg); [done|constructor|done]).
    mstep by exact E1. mstep by exact E2. mstep by exact E3. done.
  - rewrite Hd4, Hd3, Hd2, Hd1. by destruct Hlg1 as [-> _].
Qed.

(** ** Sequences of writes *)

(** The blocks [ws] written in order over the contents [f]. *)
Definition over (ws : list (Z * list Z)) (f : Z → list Z) : Z → list Z := foldl (λ f w, <[w.1 := w.2]> f) f ws.
Definition write_all (ws : list (Z * list Z)) (d : disk_t) : disk_t := foldl (λ d w, write_block w.1 w.2 d) d ws.

Lemma over_app ws ws' f : over (ws ++ ws') f = over ws' (over ws f).
Proof. apply foldl_app. Qed.

Lemma write_all_app ws ws' d : write_all (ws ++ ws') d = write_all ws' (write_all ws d).
Proof. apply foldl_app. Qed.

Lemma write_all_block ws d : (write_all ws d).(dk_block) = over ws d.(dk_block).
Proof. revert d. induction ws as [|w ws IH]; intros d; [done|]. cbn. apply IH. Qed.

Lemma write_all_writes ws d : (write_all ws d).(dk_writes) = d.(dk_writes) ++ ws.
Proof. revert d. induction ws as [|[b l] ws IH]; intros d; [cbn; by rewrite app_nil_r|]. cbn [write_all foldl].
  etrans; [apply IH|]. cbn. by rewrite <- app_assoc. Qed.

Lemma write_all_size ws d : (write_all ws d).(disksize) = d.(disksize).
Proof. revert d. induction ws as [|w ws IH]; intros d; [done|]. etrans; [apply (IH (write_block w.1 w.2 d))|done]. Qed.

Lemma over_ne ws f b : b ∉ ws.*1 → over ws f b = f b.
Proof.
  revert f. induction ws as [|w ws IH]; intros f Hb; [done|]. apply not_elem_of_cons in Hb as [H1 H2].
  etrans; [by apply (IH (<[w.1 := w.2]> f))|]. by rewrite fn_lookup_insert_ne.
Qed.

(** Every write of [b] in [ws] stores [l]. *)
Lemma over_eq ws f b l : b ∈ ws.*1 → (∀ l', (b, l') ∈ ws → l' = l) → over ws f b = l.
Proof.
  revert f. induction ws as [|[a la] ws IH]; intros f Hb Hl; [by apply elem_of_nil in Hb|].
  change (over ((a, la) :: ws) f) with (over ws (<[a := la]> f)).
  destruct (decide (b ∈ ws.*1)) as [Hin|Hin].
  - apply IH; [done|]. intros l' Hl'. apply Hl. by right.
  - apply elem_of_cons in Hb as [->|?]; [|done]. rewrite over_ne by done. rewrite fn_lookup_insert. apply Hl. constructor.
Qed.

(** ** The log on disk *)

(** Block [b] is not part of the log. *)
Definition home (st nl b : Z) : Prop := b < st ∨ st + nl <= b.

Record tx_list (st nl size : Z) (bs : list Z) : Prop := {
  tl_geo : 0 <= st ∧ st + nl <= size ∧ size < 2 ^ 31;
  tl_len : Z.of_nat (length bs) < nl ∧ Z.of_nat (length bs) <= LOGSIZE;
  tl_home : ∀ b, b ∈ bs → 0 <= b < size ∧ home st nl b;
}.

(** The log in memory, with the transaction's blocks [bs]. *)
Record log_is (l : log_t) (st nl : Z) (bs : list Z) : Prop := {
  li_dev : l.(lg_dev) = DISKDEV;
  li_start : l.(lg_start) = st;
  li_size : l.(lg_size) = nl;
  li_n : l.(lh_n) = Z.of_nat (length bs);
  li_cap : Z.of_nat (length l.(lh_block)) = LOGSIZE;
  li_blocks : ∀ t b, bs !! t = Some b → l.(lh_block) !! t = Some b;
}.

(** The writes of write_log() and of install_trans(). *)
Definition log_writes (st : Z) (f : Z → list Z) (bs : list Z) : list (Z * list Z) :=
  imap (λ t b, (st + 1 + Z.of_nat t, f b)) bs.
Definition home_writes (st : Z) (f : Z → list Z) (bs : list Z) : list (Z * list Z) :=
  imap (λ t b, (b, f (st + 1 + Z.of_nat t))) bs.

Lemma home_writes_blocks st f bs : (home_writes st f bs).*1 = bs.
Proof.
  unfold home_writes. rewrite fmap_imap. apply list_eq. intros t. rewrite list_lookup_imap. by destruct (bs !! t).
Qed.

Lemma log_writes_elem st f bs a l : (a, l) ∈ log_writes st f bs ↔ ∃ t b, bs !! t = Some b ∧ a = st + 1 + Z.of_nat t ∧ l = f b.
Proof. unfold log_writes. rewrite elem_of_lookup_imap. split; intros (t & b & H); exists t, b; naive_solver. Qed.

Lemma home_writes_elem st f bs b l : (b, l) ∈ home_writes st f bs ↔ ∃ t, bs !! t = Some b ∧ l = f (st + 1 + Z.of_nat t).
Proof. unfold home_writes. rewrite elem_of_lookup_imap. naive_solver. Qed.

(** The log blocks are not home blocks. *)
Lemma log_writes_home st nl f bs t b : Z.of_nat (length bs) < nl → home st nl b → b ∉ (take t (log_writes st f bs)).*1.
Proof.
  intros Hl Hb ([a l] & -> & Hw)%list_elem_of_fmap. apply elem_of_take in Hw as (j & Hj & _).
  apply list_elem_of_lookup_2, log_writes_elem in Hj as (t' & b' & Ht & -> & _). apply lookup_lt_Some in Ht.
  unfold home in Hb. cbn in Hb. lia.
Qed.

(** One more write. *)
Lemma over_snoc W t w f : W !! t = Some w → over (take (S t) W) f = <[w.1 := w.2]> (over (take t W) f).
Proof. intros Hw. by rewrite (take_S_r _ _ _ Hw), over_app. Qed.
Lemma write_snoc W t w d : W !! t = Some w → write_all (take (S t) W) d = write_block w.1 w.2 (write_all (take t W) d).
Proof. intros Hw. by rewrite (take_S_r _ _ _ Hw), write_all_app. Qed.

Lemma room_mono H D H' D' : (∀ b, b ∈ H ∨ b ∈ D → b ∈ H' ∨ b ∈ D') → room H' D' → room H D.
Proof. intros HS (U & HU & Hl). exists U. split; [|done]. auto. Qed.

Section log.
  Context (c i : nat) (pr : proc) (st nl : Z) (bs : list Z).

(** A state of the process with no buffer held. *)
Record at_rest (k : kernel) (D : list Z) (lg : Z → list Z) : Prop := {
  ar_env : env k c i pr;
  ar_cache : cache_ok k.(fs) pr.(pid) [] D lg;
  ar_log : log_is k.(fs).(log) st nl bs;
  ar_tx : tx_list st nl k.(fs).(disk).(disksize) bs;
}.

Lemma at_rest_move k k' D lg D' lg' :
  at_rest k D lg → fs_move k c k' → cache_ok k'.(fs) pr.(pid) [] D' lg' → at_rest k' D' lg'.
Proof using.
  intros [He _ Hl Ht] Hm Hc. pose proof Hm as [_ (_ & El & _) Es]. split; [by eapply env_move|done|by rewrite El|by rewrite Es].
Qed.

Lemma lh_get_ok k t b : log_is k.(fs).(log) st nl bs → bs !! t = Some b → lh_get (Z.of_nat t) k = Ok b k.
Proof using.
  intros Hl Hb. unfold lh_get. rewrite Nat2Z.id, (li_blocks _ _ _ _ Hl t b Hb).
  by destruct (Z.leb_spec 0 (Z.of_nat t)); [|lia].
Qed.

(** The t-th log block. *)
Lemma log_block k D lg t b : at_rest k D lg → bs !! t = Some b →
  let a := st + 1 + Z.of_nat t in
  0 <= a < k.(fs).(disk).(disksize) ∧ 0 <= b < k.(fs).(disk).(disksize) ∧ a ≠ b ∧ home st nl b ∧ ¬ home st nl a ∧
  u32 (st + Z.of_nat t + 1) = a ∧ u32 b = b.
Proof using.
  intros [_ _ _ [(?&?&?) (?&?) Hh]] Hb. destruct (Hh b ltac:(by eapply list_elem_of_lookup_2)) as [? Hhome].
  pose proof (lookup_lt_Some _ _ _ Hb). unfold home in *. cbn zeta. split_and!; try lia; word_lia.
Qed.

Lemma write_log_turn_ok k D lg t b :
  at_rest k D lg → bs !! t = Some b → room [] D → b ∈ D → (∀ a, ¬ home st nl a → a ∉ D) →
  let w := (st + 1 + Z.of_nat t, lg b) in
  ∃ k', write_log_turn t tt k = Ok tt k' ∧ fs_move k c k' ∧
    cache_ok k'.(fs) pr.(pid) [] D (<[w.1 := w.2]> lg) ∧ k'.(fs).(disk) = write_block w.1 w.2 k.(fs).(disk).
Proof using.
  intros Hr Hb Hroom HbD Hlog w. destruct (log_block k D lg t b Hr Hb) as (Ha & Hbr & Hab & Hhb & Hha & Eu & Eb).
  set (a := st + 1 + Z.of_nat t) in *. pose proof Hr as [He Hc Hl _].
  destruct (read_two k c i pr D lg a b) as (na & nb & k1 & k2 & E1 & E2 & M1 & M2 & Hc2 & Hna & Hnb & Hd2); try done; [by right|].
  destruct (copy_held k2 c i pr D lg b a nb na) as (k3 & E3 & M3 & Hc3 & Hd3); try done; [by eapply env_move|by left|].
  exists k3. split_and!.
  - unfold write_log_turn. mstep. mstep. rewrite (li_dev _ _ _ _ Hl), (li_start _ _ _ _ Hl), Eu.
    mstep by exact E1. mstep by (apply (lh_get_ok k1 t b); [by rewrite (move_log _ _ _ M1)|done]). rewrite Eb. mstep by exact E2. exact E3.
  - by eapply fs_move_trans.
  - apply (cache_ok_sets _ _ [] _ (filter (λ x, x ≠ a) D)); [done| |done]. intros x. rewrite list_elem_of_filter.
    split; [tauto|]. intros Hx. split; [|done]. intros ->. by apply (Hlog a).
  - by rewrite Hd3, Hd2.
Qed.

Lemma install_turn_ok k D lg t b :
  at_rest k D lg → bs !! t = Some b → room [] D → (∀ a, room [a] D) ∨ b ∈ D →
  let w := (b, lg (st + 1 + Z.of_nat t)) in
  ∃ k', install_turn t tt k = Ok tt k' ∧ fs_move k c k' ∧
    cache_ok k'.(fs) pr.(pid) [] (filter (λ x, x ≠ b) D) (<[w.1 := w.2]> lg) ∧ k'.(fs).(disk) = write_block w.1 w.2 k.(fs).(disk).
Proof using.
  intros Hr Hb Hroom HbD w. destruct (log_block k D lg t b Hr Hb) as (Ha & Hbr & Hab & Hhb & Hha & Eu & Eb).
  set (a := st + 1 + Z.of_nat t) in *. pose proof Hr as [He Hc Hl _].
  destruct (read_two k c i pr D lg a b) as (na & nb & k1 & k2 & E1 & E2 & M1 & M2 & Hc2 & Hna & Hnb & Hd2); try done; [naive_solver|].
  destruct (copy_held k2 c i pr D lg a b na nb) as (k3 & E3 & M3 & Hc3 & Hd3); try done.
  { by eapply env_move. }
  { apply (cache_ok_sets _ _ [b; a] _ D); [|done|done]. intros x. rewrite !elem_of_cons. tauto. }
  { destruct (decide (a ∈ D)); [by left|right]. rewrite Hd2. apply (co_clean _ _ _ _ _ Hc); [apply not_elem_of_nil|done]. }
  exists k3. split_and!; [|by eapply fs_move_trans|done|by rewrite Hd3, Hd2].
  unfold install_turn. mstep. mstep. rewrite (li_dev _ _ _ _ Hl), (li_start _ _ _ _ Hl), Eu.
  mstep by exact E1. mstep by (apply (lh_get_ok k1 t b); [by rewrite (move_log _ _ _ M1)|done]). rewrite Eb. mstep by exact E2. exact E3.
Qed.

Lemma write_log_ok k lg : at_rest k bs lg → room [] bs →
  ∃ k', write_log k = Ok tt k' ∧ fs_move k c k' ∧ at_rest k' bs (over (log_writes st lg bs) lg) ∧
    k'.(fs).(disk) = write_all (log_writes st lg bs) k.(fs).(disk).
Proof using.
  intros Hr Hroom. set (W := log_writes st lg bs).
  assert (HW : length W = length bs) by apply length_imap.
  pose proof (tl_len _ _ _ _ (ar_tx _ _ _ Hr)) as [Hlt _].
  destruct (for_acc_inv (λ t k', fs_move k c k' ∧ at_rest k' bs (over (take t W) lg) ∧
      k'.(fs).(disk) = write_all (take t W) k.(fs).(disk)) (length bs) 0 write_log_turn k) as (k' & E & M & R & Ed).
  - intros t k1 Ht (M & R & Ed). destruct (lookup_lt_is_Some_2 bs t ltac:(lia)) as [b Hb].
    destruct (tl_home _ _ _ _ (ar_tx _ _ _ Hr) b ltac:(by eapply list_elem_of_lookup_2)) as [_ Hh].
    destruct (write_log_turn_ok k1 bs _ t b R Hb Hroom) as (k2 & E2 & M2 & Hc2 & Ed2).
    { by eapply list_elem_of_lookup_2. }
    { intros a Ha Hin. by apply Ha, (tl_home _ _ _ _ (ar_tx _ _ _ Hr) a). }
    assert (Ew : W !! t = Some (st + 1 + Z.of_nat t, over (take t W) lg b)).
    { unfold W at 1, log_writes. rewrite list_lookup_imap, Hb. cbn. do 2 f_equal. symmetry.
      apply over_ne. by apply (log_writes_home st nl). }
    exists k2. rewrite (over_snoc W t _ lg Ew), (write_snoc W t _ _ Ew), <- Ed. split_and!; [done|by eapply fs_move_trans| |done].
    by eapply at_rest_move.
  - split_and!; [apply fs_move_refl|done|done].
  - exists k'. cbn [Nat.add] in *. rewrite <- HW, firstn_all in *. split_and!; try done.
    unfold write_log. mstep. rewrite (li_n _ _ _ _ (ar_log _ _ _ Hr)), Nat2Z.id, <- HW. exact E.
Qed.

(** After [t] turns of install_trans() the blocks [take t bs] are no longer
    modified. *)
Definition left_dirty (D : list Z) (t : nat) (D' : list Z) : Prop := ∀ b, b ∈ D' ↔ b ∈ D ∧ b ∉ take t bs.

Lemma install_trans_ok k D lg :
  at_rest k D lg → room [] D → (∀ a, room [a] D) ∨ (NoDup bs ∧ ∀ b, b ∈ bs → b ∈ D) →
  ∃ k' D', install_trans k = Ok tt k' ∧ fs_move k c k' ∧ left_dirty D (length bs) D' ∧
    at_rest k' D' (over (home_writes st lg bs) lg) ∧ k'.(fs).(disk) = write_all (home_writes st lg bs) k.(fs).(disk).
Proof using.
  intros Hr Hroom Hrb. set (W := home_writes st lg bs).
  assert (HW : length W = length bs) by apply length_imap.
  destruct (for_acc_inv (λ t k', fs_move k c k' ∧ (∃ D', left_dirty D t D' ∧ at_rest k' D' (over (take t W) lg)) ∧
      k'.(fs).(disk) = write_all (take t W) k.(fs).(disk)) (length bs) 0 install_turn k) as (k' & E & M & (D' & HD & R) & Ed).
  - intros t k1 Ht (M & (D' & HD & R) & Ed). destruct (lookup_lt_is_Some_2 bs t ltac:(lia)) as [b Hb].
    destruct (log_block k1 D' _ t b R Hb) as (_ & _ & _ & _ & Hha & _).
    destruct (install_turn_ok k1 D' _ t b R Hb) as (k2 & E2 & M2 & Hc2 & Ed2).
    { eapply room_mono; [|exact Hroom]. intros x Hx. rewrite (HD x) in Hx. tauto. }
    { destruct Hrb as [Hrb|[Hnd Hin]]; [left|right].
      - intros a. eapply room_mono; [|exact (Hrb a)]. intros x Hx. rewrite (HD x) in Hx. tauto.
      - apply HD. split; [by eapply Hin, list_elem_of_lookup_2|]. intros (j & Hj & Hjt)%elem_of_take.
        pose proof (NoDup_lookup _ _ _ _ Hnd Hb Hj). lia. }
    assert (Ew : W !! t = Some (b, over (take t W) lg (st + 1 + Z.of_nat t))).
    { unfold W at 1, home_writes. rewrite list_lookup_imap, Hb. cbn. do 2 f_equal. symmetry. apply over_ne.
      unfold W. rewrite fmap_take, home_writes_blocks. intros (j & Hj & _)%elem_of_take.
      by apply Hha, (tl_home _ _ _ _ (ar_tx _ _ _ Hr) _ (list_elem_of_lookup_2 _ _ _ Hj)). }
    exists k2. rewrite (over_snoc W t _ lg Ew), (write_snoc W t _ _ Ew), <- Ed. split_and!; [done|by eapply fs_move_trans| |done].
    exists (filter (λ x, x ≠ b) D'). split; [|by eapply at_rest_move].
    intros x. rewrite list_elem_of_filter, (HD x), (take_S_r _ _ _ Hb), elem_of_app, list_elem_of_singleton. tauto.
  - split_and!; [apply fs_move_refl| |done]. exists D. split; [|done]. intros b. cbn. rewrite elem_of_nil. tauto.
  - exists k', D'. cbn [Nat.add] in *. split_and!; try done; [|by rewrite <- HW, firstn_all in R|by rewrite <- HW, firstn_all in Ed].
    unfold install_trans. mstep. rewrite (li_n _ _ _ _ (ar_log _ _ _ Hr)), Nat2Z.id. exact E.
Qed.

(** ** The header block *)

Definition put_head (l : list Z) : list Z := put_words 4 bs (put_word 0 (Z.of_nat (length bs)) l).

Lemma length_put_head l : length (put_head l) = length l.
Proof using. unfold put_head. by rewrite length_put_words, length_put_word. Qed.

(** The loop of write_head() over the buffer [n] of the header. *)
Lemma head_loop_ok k D lg n l0 :
  cache_ok k.(fs) pr.(pid) [st] D (<[st := l0]> lg) → buf_at k.(fs) n st → log_is k.(fs).(log) st nl bs →
  ∃ k', for_acc (length bs) 0 (λ i _,
      v ← lh_get (Z.of_nat i);
      buf_upd n (λ b, set_b_data (put_word (4 + 4 * Z.of_nat i) v b.(b_data)) b)) tt k = Ok tt k' ∧
    kept k c k' ∧ cache_ok k'.(fs) pr.(pid) [st] D (<[st := put_words 4 bs l0]> lg) ∧ k'.(fs).(disk) = k.(fs).(disk).
Proof using.
  intros Hc Hat Hl.
  destruct (for_acc_inv (λ t k', kept k c k' ∧ cache_ok k'.(fs) pr.(pid) [st] D (<[st := put_words 4 (take t bs) l0]> lg) ∧
    k'.(fs).(disk) = k.(fs).(disk)) (length bs) 0 (λ i _,
      v ← lh_get (Z.of_nat i);
      buf_upd n (λ b, set_b_data (put_word (4 + 4 * Z.of_nat i) v b.(b_data)) b)) k) as (k' & E & K & Hc' & Ed).
  - intros t k1 Ht (K & Hc1 & Ed). destruct (lookup_lt_is_Some_2 bs t ltac:(lia)) as [b Hb].
    assert (Hl1 : log_is k1.(fs).(log) st nl bs) by (by rewrite (move_log _ _ _ (kept_move _ _ _ K))).
    destruct (buf_set_ok k1 c n st pr.(pid) [st] D _ (put_word (4 + 4 * Z.of_nat t) b) Hc1) as (k2 & E2 & K2 & Hc2 & Ed2).
    { constructor. }
    { by apply (kp_at _ _ _ K). }
    { rewrite length_put_word. apply Hc1. }
    exists k2. split_and!; [mstep by (by apply (lh_get_ok k1 t b)); exact E2|by eapply kept_trans| |congruence].
    rewrite fn_insert_insert, fn_lookup_insert in Hc2. rewrite (take_S_r _ _ _ Hb), put_words_app.
    rewrite length_take_le by lia. exact Hc2.
  - split_and!; [|done|done]. split; [apply fs_move_refl|done|done|done].
  - exists k'. cbn [Nat.add] in *. rewrite firstn_all in Hc'. done.
Qed.

Lemma write_head_ok k D lg : at_rest k D lg → room [] D → st ∉ D →
  let l := put_head (lg st) in
  ∃ k', write_head k = Ok tt k' ∧ fs_move k c k' ∧ at_rest k' D (<[st := l]> lg) ∧
    k'.(fs).(disk) = write_block st l k.(fs).(disk).
Proof using.
  intros Hr Hroom HD l. pose proof Hr as [He Hc Hl [(Hg1 & Hg2 & Hg3) (Hn1 & Hn2) _]].
  assert (Hin : st ∈ [st]) by constructor.
  destruct (bread_ok k c i pr [] D lg st) as (n & k1 & E1 & G1); [done|done|lia|apply not_elem_of_nil|by left|].
  pose proof (got_move _ _ _ _ _ _ _ _ _ G1) as M1. pose proof (gt_at _ _ _ _ _ _ _ _ _ G1) as Hat.
  destruct (buf_set_ok k1 c n st pr.(pid) [st] D lg (put_word 0 (Z.of_nat (length bs)))) as (k2 & E2 & K2 & Hc2 & Ed2);
    [apply G1|done|done|rewrite length_put_word; apply Hc|].
  assert (Hl2 : ∀ k', kept k1 c k' → log_is k'.(fs).(log) st nl bs).
  { intros k' K'. by rewrite (move_log _ _ _ (kept_move _ _ _ K')), (move_log _ _ _ M1). }
  destruct (head_loop_ok k2 D lg n _ Hc2) as (k3 & E3 & K3 & Hc3 & Ed3); [by apply (kp_at _ _ _ K2)|by apply Hl2|].
  fold (put_head (lg st)) in Hc3. fold l in Hc3. pose proof (kept_trans _ _ _ _ K2 K3) as K13.
  destruct (bwrite_ok k3 c i pr n st [st] D (<[st := l]> lg)) as (k4 & E4 & K4 & Hc4 & Ed4).
  { eapply env_move; [|by apply kept_move]. by eapply env_move. }
  { done. }
  { done. }
  { by apply (kp_at _ _ _ K13). }
  rewrite fn_lookup_insert in Ed4. pose proof (kept_trans _ _ _ _ K13 K4) as K14.
  destruct (brelse_ok k4 c i pr n st [] (filter (λ x, x ≠ st) D) (<[st := l]> lg)) as (k5 & E5 & K5 & Hc5 & Ed5).
  { eapply env_move; [|by apply kept_move]. by eapply env_move. }
  { done. }
  { apply not_elem_of_nil. }
  { by apply (kp_at _ _ _ K14). }
  { right. rewrite fn_lookup_insert, Ed4. cbn. by rewrite fn_lookup_insert. }
  assert (M5 : fs_move k c k5) by (eapply fs_move_trans; [done|apply kept_move; by eapply kept_trans]).
  exists k5. split_and!; [|done| |].
  - unfold write_head. mstep. mstep. rewrite (li_dev _ _ _ _ Hl), (li_start _ _ _ _ Hl), (u32_small st) by (unfold is_u32; lia).
    mstep by exact E1. mstep. rewrite (move_log _ _ _ M1), (li_n _ _ _ _ Hl). mstep by exact E2. rewrite Nat2Z.id.
    mstep by exact E3. mstep by exact E4. done.
  - eapply at_rest_move; [done..|]. eapply cache_ok_sets; [done| |exact Hc5].
    intros x. rewrite list_elem_of_filter. split; [tauto|]. intros Hx. split; [|done]. by intros ->.
  - rewrite Ed5, Ed4, Ed3, Ed2. f_equal. apply G1.
Qed.

End log.

(** ** commit() *)

(** As [fs_move], but the log in memory may have changed too. *)
Record fs_run (k : kernel) (c : nat) (k' : kernel) : Prop := {
  fr_step : fs_step c k k'.(fs) k';
  fr_inodes : k'.(fs).(inodes) = k.(fs).(inodes);
  fr_sb : k'.(fs).(sb) = k.(fs).(sb);
  fr_slocks : ∀ n, k'.(fs).(slocks) (SInode n) = k.(fs).(slocks) (SInode n);
  fr_size : k'.(fs).(disk).(disksize) = k.(fs).(disk).(disksize);
}.

Lemma move_run k c k' : fs_move k c k' → fs_run k c k'.
Proof. intros [S (R1 & R2 & R3 & R4) D]. done. Qed.

Lemma fs_run_trans k c k1 k2 : fs_run k c k1 → fs_run k1 c k2 → fs_run k c k2.
Proof.
  intros [S1 I1 B1 L1 D1] [S2 I2 B2 L2 D2].
  split; [by eapply fs_step_trans|congruence|congruence|intros n; by rewrite L2, L1|congruence].
Qed.

(** The kernel with the log in memory replaced. *)
Definition with_log (l : log_t) (k : kernel) : kernel := set_fs (set_log l k.(fs)) k.

Lemma with_log_run k c l : fs_run k c (with_log l k).
Proof. split; try done. apply fs_step_here. Qed.

Lemma with_log_cache k pid_ H D lg l : cache_ok k.(fs) pid_ H D lg → cache_ok (with_log l k).(fs) pid_ H D lg.
Proof. intros [C1 C2 C3 C4 C5 C6 C7]. by split. Qed.

(** The in-memory log emptied. *)
Lemma log_emptied c i pr st nl bs k D lg :
  at_rest c i pr st nl bs k D lg → at_rest c i pr st nl [] (with_log (set_lh_n 0 k.(fs).(log)) k) D lg.
Proof.
  intros [He Hc [L1 L2 L3 L4 L5 L6] [T1 [T2 T3] T4]]. split.
  - eapply env_step; [exact He|]. apply fs_step_here.
  - by apply with_log_cache.
  - split; try done.
  - split; [done| |]; cbn.
    + cbn in *. lia.
    + intros b Hb. by apply elem_of_nil in Hb.
Qed.

Definition new_writes (f : Z → list Z) (bs : list Z) : list (Z * list Z) := (λ b, (b, f b)) <$> bs.

(** Everything commit() writes, in order. *)
Definition commit_writes (st : Z) (lg : Z → list Z) (bs : list Z) : list (Z * list Z) :=
  log_writes st lg bs ++ [(st, put_head bs (lg st))] ++ new_writes lg bs ++
  [(st, put_head [] (put_head bs (lg st)))].

(** The log block of [b] after write_log(). *)
Lemma logged_block st f g bs t b : bs !! t = Some b → over (log_writes st f bs) g (st + 1 + Z.of_nat t) = f b.
Proof.
  intros Hb. apply over_eq.
  - apply list_elem_of_fmap. exists (st + 1 + Z.of_nat t, f b). split; [done|]. apply log_writes_elem. by exists t, b.
  - intros l (t' & b' & Hb' & E & ->)%log_writes_elem. assert (t' = t) as -> by lia. congruence.
Qed.

Lemma log_writes_start st f g bs : over (log_writes st f bs) g st = g st.
Proof.
  apply over_ne. intros ([a l] & E & (t & b & _ & -> & _)%log_writes_elem)%list_elem_of_fmap. cbn in E. lia.
Qed.

Lemma new_writes_home st f g bs : (∀ t b, bs !! t = Some b → g (st + 1 + Z.of_nat t) = f b) →
  home_writes st g bs = new_writes f bs.
Proof.
  intros Hg. apply list_eq. intros t. unfold home_writes, new_writes. rewrite list_lookup_imap, list_lookup_fmap.
  destruct (bs !! t) as [b|] eqn:Hb; [|done]. cbn. by rewrite (Hg t b Hb).
Qed.

Lemma commit_ok c i pr st nl bs k lg :
  at_rest c i pr st nl bs k bs lg → NoDup bs → room [] bs → bs ≠ [] →
  ∃ k', commit k = Ok tt k' ∧ fs_run k c k' ∧ k'.(fs).(log) = set_lh_n 0 k.(fs).(log) ∧
    at_rest c i pr st nl [] k' [] (over (commit_writes st lg bs) lg) ∧
    k'.(fs).(disk) = write_all (commit_writes st lg bs) k.(fs).(disk).
Proof.
  intros Hr Hnd Hroom Hne. pose proof (ar_tx _ _ _ _ _ _ _ _ _ Hr) as [(Hg1 & Hg2 & Hg3) (Hn1 & Hn2) Hh].
  assert (Hst : st ∉ bs) by (intros Hin; destruct (Hh st Hin) as [_ Hs]; unfold home in Hs; lia).
  destruct (write_log_ok _ _ _ _ _ _ _ _ Hr Hroom) as (k1 & E1 & M1 & R1 & D1).
  destruct (write_head_ok _ _ _ _ _ _ _ _ _ R1 Hroom Hst) as (k2 & E2 & M2 & R2 & D2).
  rewrite log_writes_start in R2, D2. set (lg2 := <[st := put_head bs (lg st)]> (over (log_writes st lg bs) lg)) in *.
  destruct (install_trans_ok _ _ _ _ _ _ _ _ _ R2 Hroom) as (k3 & D' & E3 & M3 & HD & R3 & D3); [right; auto|].
  assert (Enew : home_writes st lg2 bs = new_writes lg bs).
  { apply new_writes_home. intros t b Hb. unfold lg2. rewrite fn_lookup_insert_ne by lia. by apply logged_block. }
  rewrite Enew in R3, D3.
  assert (HD' : D' = []).
  { destruct D' as [|x D']; [done|]. destruct (HD x) as [Hx _]. rewrite firstn_all in Hx. destruct Hx as [? ?]; [constructor|done]. }
  subst D'. pose proof (log_emptied _ _ _ _ _ _ _ _ _ R3) as R3'.
  destruct (write_head_ok _ _ _ _ _ _ _ _ _ R3') as (k4 & E4 & M4 & R4 & D4); [|apply not_elem_of_nil|].
  { eapply room_mono; [|exact Hroom]. intros b. rewrite elem_of_nil. tauto. }
  rewrite over_ne in R4, D4 by (unfold new_writes; rewrite <- list_fmap_compose; by rewrite list_fmap_id).
  unfold lg2 in R4 at 1, D4. rewrite fn_lookup_insert in R4, D4.
  exists k4. split_and!.
  - unfold commit. mstep. rewrite (li_n _ _ _ _ (ar_log _ _ _ _ _ _ _ _ _ Hr)).
    destruct (Z.ltb_spec 0 (Z.of_nat (length bs))); [|destruct bs; cbn in *; [done|lia]].
    cbn [when]. mstep by exact E1. mstep by exact E2. mstep by exact E3. mstep. exact E4.
  - do 3 (eapply fs_run_trans; [by apply move_run|]). eapply fs_run_trans; [apply with_log_run|by apply move_run].
  - rewrite (move_log _ _ _ M4). cbn. by rewrite (move_log _ _ _ M3), (move_log _ _ _ M2), (move_log _ _ _ M1).
  - unfold commit_writes. rewrite !over_app. exact R4.
  - unfold commit_writes. rewrite !write_all_app, D4. cbn [fs with_log set_fs disk set_log]. by rewrite D3, D2, D1.
Qed.

(** ** The header as it is read back *)

Definition head_n (l : list Z) : Z := s32 (word_at l 0).
Definition head_blocks (l : list Z) : list Z := (λ j, s32 (word_at l (4 + 4 * Z.of_nat j))) <$> seq 0 (Z.to_nat (head_n l)).

Lemma head_n_put bs l : Z.of_nat (length l) = BSIZE → Z.of_nat (length bs) <= LOGSIZE → head_n (put_head bs l) = Z.of_nat (length bs).
Proof.
  change BSIZE with 512. change LOGSIZE with 30. intros Hl Hn. unfold head_n, put_head.
  rewrite put_words_ne by (unfold apart; lia). rewrite word_at_put by lia. word_lia.
Qed.

Lemma head_blocks_put bs l : Z.of_nat (length l) = BSIZE → Z.of_nat (length bs) <= LOGSIZE → Forall (λ b, 0 <= b < 2 ^ 31) bs →
  head_blocks (put_head bs l) = bs.
Proof.
  intros Hl Hn Hb. unfold head_blocks. rewrite head_n_put, Nat2Z.id by done. apply list_eq. intros t.
  rewrite list_lookup_fmap. destruct (bs !! t) as [b|] eqn:E.
  - rewrite lookup_seq_lt by (by eapply lookup_lt_Some). cbn [fmap option_fmap option_map Nat.add]. unfold put_head.
    change BSIZE with 512 in Hl. change LOGSIZE with 30 in Hn.
    rewrite (put_words_eq 4 bs _ t b) by (done || rewrite length_put_word; lia).
    rewrite Forall_forall in Hb. specialize (Hb b ltac:(by eapply list_elem_of_lookup_2)). f_equal. word_lia.
  - by rewrite lookup_seq_ge by (by apply lookup_ge_None_1).
Qed.

(** A disk from which recovery restores the contents [f]: the header lists
    blocks [bs] whose new contents are in the log, and all other blocks have
    the contents [f]. *)
Record pending (st nl size : Z) (bs : list Z) (d f : Z → list Z) : Prop := {
  pe_n : head_n (d st) = Z.of_nat (length bs);
  pe_bs : head_blocks (d st) = bs;
  pe_tx : tx_list st nl size bs;
  pe_log : ∀ t b, bs !! t = Some b → d (st + 1 + Z.of_nat t) = f b;
  pe_home : ∀ b, home st nl b → b ∉ bs → d b = f b;
}.

Definition recoverable (st nl size : Z) (d f : Z → list Z) : Prop := ∃ bs, pending st nl size bs d f.

(** Installing some of the blocks once more changes nothing. *)
Lemma pending_install st nl size bs d f ws :
  pending st nl size bs d f → (∀ b l, (b, l) ∈ ws → b ∈ bs) → pending st nl size bs (over ws d) f.
Proof.
  intros [Hn Hb [(G1 & G2 & G3) (L1 & L2) Hh] Hl Ho] Hw.
  assert (Hout : ∀ x, x ∉ bs → over ws d x = d x).
  { intros x Hx. apply over_ne. intros ([y l] & -> & Hy)%list_elem_of_fmap. by apply Hx, (Hw y l). }
  assert (Hst : st ∉ bs) by (intros [_ H]%Hh; unfold home in H; lia).
  split; rewrite ?Hout; try done.
  - intros t b Ht. rewrite Hout; [by apply Hl|]. intros [_ H]%Hh. apply lookup_lt_Some in Ht. unfold home in H. lia.
  - intros b Hhb Hnb. rewrite Hout by done. by apply Ho.
Qed.

(** With an empty header the home blocks are the contents. *)
Lemma quiet_disk st nl size d f l :
  0 <= st ∧ st + nl <= size ∧ size < 2 ^ 31 → 0 < nl → Z.of_nat (length l) = BSIZE → d st = put_head [] l →
  (∀ b, home st nl b → d b = f b) → pending st nl size [] d f.
Proof.
  intros Hg Hnl Hl Hst Hh. split.
  - rewrite Hst. by apply (head_n_put []).
  - rewrite Hst. by apply (head_blocks_put []).
  - split; [done|done|]. intros b Hb. by apply elem_of_nil in Hb.
  - intros t b Hb. by rewrite lookup_nil in Hb.
  - intros b Hb _. by apply Hh.
Qed.

Lemma prefix_app_cases {A} (l l1 l2 : list A) :
  l `prefix_of` l1 ++ l2 → l `prefix_of` l1 ∨ ∃ l', l = l1 ++ l' ∧ l' `prefix_of` l2.
Proof.
  revert l. induction l1 as [|x l1 IH]; intros l Hp; [right; by exists l|].
  destruct l as [|y l]; [left; apply prefix_nil|]. 
  pose proof (prefix_cons_inv_1 _ _ _ _ Hp) as ->. apply prefix_cons_inv_2, IH in Hp as [Hp|(l' & -> & Hp)].
  - left. by apply prefix_cons.
  - right. by exists l'.
Qed.

Lemma prefix_single {A} (l : list A) x : l `prefix_of` [x] → l = [] ∨ l = [x].
Proof.
  intros Hp. destruct l as [|y l]; [by left|right]. pose proof (prefix_cons_inv_1 _ _ _ _ Hp) as ->.
  apply prefix_cons_inv_2, prefix_nil_inv in Hp. by rewrite Hp.
Qed.

(** Where a crash during commit() leaves the disk. *)
Section crash.
  Context (st nl size : Z) (bs : list Z) (d lg : Z → list Z).
  Hypothesis Htx : tx_list st nl size bs.
  Hypothesis Hempty : head_n (d st) = 0.
  Hypothesis Hlen : Z.of_nat (length (lg st)) = BSIZE.
  Hypothesis Hclean : ∀ b, home st nl b → b ∉ bs → d b = lg b.

Lemma tx_bounds : Forall (λ b, 0 <= b < 2 ^ 31) bs ∧ 0 < nl ∧ (∀ b, home st nl b → b ≠ st) ∧
  ∀ b t, home st nl b → b ∉ (take t (log_writes st lg bs)).*1.
Proof using Htx.
  destruct Htx as [(G1 & G2 & G3) (L1 & L2) Hh]. split_and!.
  - apply Forall_forall. intros b [? _]%Hh. lia.
  - lia.
  - intros b. unfold home. lia.
  - intros b t Hb. by apply (log_writes_home st nl).
Qed.

(** Before the header is written the old contents are recovered ... *)
Lemma crash_before ws : ws `prefix_of` log_writes st lg bs → pending st nl size [] (over ws d) d.
Proof using Htx Hempty.
  intros [r Hws]. destruct tx_bounds as (_ & Hnl & Hne & Hnw).
  assert (Est : over ws d st = d st).
  { apply over_ne. intros ([a l] & E & Ha)%list_elem_of_fmap. cbn in E. subst a.
    assert (Hin : (st, l) ∈ log_writes st lg bs) by (rewrite Hws; apply elem_of_app; by left).
    apply log_writes_elem in Hin as (t & b & _ & E & _). lia. }
  assert (Hbs : head_blocks (d st) = []) by (unfold head_blocks; by rewrite Hempty).
  split; rewrite ?Est; try done.
  - destruct Htx as [G L Hh]. split; [done|cbn; change LOGSIZE with 30; lia|]. intros b Hb. by apply elem_of_nil in Hb.
  - intros b Hb _. apply over_ne. specialize (Hnw b (length ws) Hb).
    by rewrite Hws, take_app_length in Hnw.
Qed.

(** ... from then on the new ones. *)
Lemma crash_after ws : ws `prefix_of` new_writes lg bs →
  pending st nl size bs (over (log_writes st lg bs ++ [(st, put_head bs (lg st))] ++ ws) d) lg.
Proof using Htx Hlen Hclean.
  intros [r Hws]. destruct tx_bounds as (Hb31 & Hnl & Hne & Hnw).
  rewrite !over_app. apply pending_install.
  2:{ intros b l Hin. assert (Hin' : (b, l) ∈ new_writes lg bs) by (rewrite Hws; apply elem_of_app; by left).
      apply list_elem_of_fmap in Hin' as (b' & [= -> ->] & ?). done. }
  destruct Htx as [G [L1 L2] Hh]. change (over [?w] ?f) with (<[w.1 := w.2]> f). cbn [fst snd].
  split; rewrite ?fn_lookup_insert; try done.
  - by apply head_n_put.
  - by apply head_blocks_put.
  - intros t b Hb. rewrite fn_lookup_insert_ne by lia. by apply logged_block.
  - intros b Hb Hnb. rewrite fn_lookup_insert_ne by (apply not_eq_sym; by apply Hne).
    rewrite over_ne; [by apply Hclean|]. specialize (Hnw b (length bs) Hb).
    rewrite firstn_all2 in Hnw; [done|]. unfold log_writes. by rewrite length_imap.
Qed.

Lemma crash_done : pending st nl size [] (over (commit_writes st lg bs) d) lg.
Proof using Htx Hlen Hclean.
  destruct tx_bounds as (_ & Hnl & Hne & _). unfold commit_writes.
  replace (log_writes st lg bs ++ [(st, put_head bs (lg st))] ++ new_writes lg bs ++ [(st, put_head [] (put_head bs (lg st)))])
    with ((log_writes st lg bs ++ [(st, put_head bs (lg st))] ++ new_writes lg bs) ++ [(st, put_head [] (put_head bs (lg st)))])
    by (by rewrite <- !app_assoc).
  pose proof (crash_after (new_writes lg bs) (reflexivity _)) as [_ _ _ _ Ho]. rewrite over_app. set (d1 := over (_ ++ _ ++ _) d) in *.
  apply (quiet_disk _ _ _ _ _ (put_head bs (lg st))).
  - apply Htx.
  - done.
  - by rewrite length_put_head.
  - cbn. by rewrite fn_lookup_insert.
  - intros b Hb. cbn. rewrite fn_lookup_insert_ne by (apply not_eq_sym; by apply Hne).
    destruct (decide (b ∈ bs)) as [Hin|Hin]; [|by apply Ho].
    unfold d1. rewrite !over_app. apply over_eq.
    + unfold new_writes. rewrite <- list_fmap_compose. by rewrite list_fmap_id.
    + intros l (b' & [= -> ->] & _)%list_elem_of_fmap. done.
Qed.

Lemma crash_cases ws : ws `prefix_of` commit_writes st lg bs →
  recoverable st nl size (over ws d) d ∨ recoverable st nl size (over ws d) lg.
Proof using Htx Hempty Hlen Hclean.
  intros Hp. unfold commit_writes in Hp.
  apply prefix_app_cases in Hp as [Hp|(r1 & -> & Hp)]; [left; eexists; by apply crash_before|].
  apply prefix_app_cases in Hp as [[->| ->]%prefix_single|(r2 & -> & Hp)].
  - left. rewrite app_nil_r. eexists. by apply crash_before.
  - right. eexists. apply (crash_after []), prefix_nil.
  - right. apply prefix_app_cases in Hp as [Hp|(r3 & -> & [->| ->]%prefix_single)].
    + eexists. by apply crash_after.
    + rewrite app_nil_r. eexists. by apply crash_after.
    + eexists. apply crash_done.
Qed.

End crash.

(** ** Recovery *)

Lemma lh_set_ok k i v : 0 <= i < LOGSIZE →
  lh_set i v k = Ok tt (with_log (set_lh_block (<[Z.to_nat i := v]> k.(fs).(log).(lh_block)) k.(fs).(log)) k).
Proof. intros Hi. unfold lh_set. by rewrite (proj2 (Z.leb_le 0 i)), (proj2 (Z.ltb_lt i LOGSIZE)) by lia. Qed.

(** The loop of read_head(). *)
Lemma read_loop_ok k (f : nat → Z) n : Z.of_nat n <= LOGSIZE → Z.of_nat (length k.(fs).(log).(lh_block)) = LOGSIZE →
  ∃ l, for_acc n 0 (λ i _, lh_set (Z.of_nat i) (f i)) tt k = Ok tt (with_log (set_lh_block l k.(fs).(log)) k) ∧
    Z.of_nat (length l) = LOGSIZE ∧ ∀ j, (j < n)%nat → l !! j = Some (f j).
Proof.
  intros Hn Hl.
  destruct (for_acc_inv (λ t k', ∃ l, k' = with_log (set_lh_block l k.(fs).(log)) k ∧ Z.of_nat (length l) = LOGSIZE ∧
    ∀ j, (j < t)%nat → l !! j = Some (f j)) n 0 (λ i _, lh_set (Z.of_nat i) (f i)) k) as (k' & E & l & -> & Hlen & Hf).
  - intros t k1 Ht (l & -> & Hlen & Hf). eexists. split; [apply lh_set_ok; lia|]. cbn [fs with_log set_fs log set_log lh_block set_lh_block].
    rewrite Nat2Z.id. eexists (<[t := f t]> l). split_and!; [done|by rewrite length_insert|]. intros j Hj.
    destruct (decide (j = t)) as [->|].
    + apply list_lookup_insert_eq. lia.
    + rewrite list_lookup_insert_ne by done. apply Hf. lia.
  - exists k.(fs).(log).(lh_block). split_and!; [|done|lia].
    destruct k as [? ? ? ? ? ? ? ? ? ? ? ? [? ? ? ? ? [] ? ?] ? ?]. done.
  - by exists l.
Qed.

Lemma read_head_ok c i pr st nl bs k lg :
  at_rest c i pr st nl [] k [] lg → head_n (lg st) = Z.of_nat (length bs) → head_blocks (lg st) = bs →
  tx_list st nl k.(fs).(disk).(disksize) bs →
  ∃ k', read_head k = Ok tt k' ∧ fs_run k c k' ∧ at_rest c i pr st nl bs k' [] lg ∧ k'.(fs).(disk) = k.(fs).(disk).
Proof.
  intros [He Hc Hl _] Hn Hbs Htx. pose proof Htx as [(G1 & G2 & G3) (L1 & L2) _].
  destruct (bread_ok k c i pr [] [] lg st) as (n & k1 & E1 & G); [done|done|lia|apply not_elem_of_nil| |].
  { left. exists []. split; [|unfold NBUF; cbn; lia]. tauto. }
  pose proof (got_move _ _ _ _ _ _ _ _ _ G) as M1. pose proof (gt_at _ _ _ _ _ _ _ _ _ G) as Hat.
  pose proof (gt_cache _ _ _ _ _ _ _ _ _ G) as Hc1. assert (Hl1 : log_is k1.(fs).(log) st nl []) by (by rewrite (move_log _ _ _ M1)).
  set (k2 := with_log (set_lh_n (head_n (lg st)) k1.(fs).(log)) k1).
  destruct (read_loop_ok k2 (λ i, s32 (word_at (lg st) (4 + 4 * Z.of_nat i))) (length bs) L2) as (l & E2 & Hll & Hlf).
  { apply (li_cap _ _ _ _ Hl1). }
  set (k3 := with_log (set_lh_block l k2.(fs).(log)) k2) in *.
  assert (He3 : env k3 c i pr).
  { eapply env_step; [eapply env_move; [exact He|exact M1]|]. apply (fs_step_here c k1). }
  destruct (brelse_ok k3 c i pr n st [] [] lg) as (k4 & E4 & K4 & Hc4 & Ed4); [done| |apply not_elem_of_nil|done| |].
  { by apply with_log_cache, with_log_cache. }
  { right. cbn. rewrite (gt_disk _ _ _ _ _ _ _ _ _ G). apply (co_clean _ _ _ _ _ Hc); apply not_elem_of_nil. }
  pose proof (move_log _ _ _ (kept_move _ _ _ K4)) as El4.
  assert (Ed : k4.(fs).(disk) = k.(fs).(disk)) by (rewrite Ed4; apply G).
  exists k4. split_and!; [| | |done].
  - unfold read_head. mstep. mstep. rewrite (li_dev _ _ _ _ Hl), (li_start _ _ _ _ Hl), (u32_small st) by (unfold is_u32; lia).
    mstep by exact E1. mstep by (unfold buf_data; apply (buf_data_ok k1 n st pr.(pid) [st] [] lg); [done|constructor|done]).
    mstep. fold (head_n (lg st)). rewrite Hn, Nat2Z.id, <- Hn. mstep by exact E2. exact E4.
  - eapply fs_run_trans; [by apply move_run|]. eapply fs_run_trans; [apply with_log_run|].
    eapply fs_run_trans; [apply with_log_run|]. by apply move_run, kept_move.
  - split; [eapply env_move; [done|by apply kept_move]|done| |by rewrite Ed].
    rewrite El4. destruct Hl1 as [? ? ? _ _ _]. split; try done.
    intros t b Hb. cbn. rewrite Hlf by (by eapply lookup_lt_Some). rewrite <- Hbs in Hb. unfold head_blocks in Hb.
    rewrite list_lookup_fmap in Hb. apply fmap_Some in Hb as (j & Hj & ->). apply lookup_seq in Hj as [-> _]. done.
Qed.

(** Everything recover_from_log() writes. *)
Definition recover_writes (st : Z) (f : Z → list Z) (bs : list Z) : list (Z * list Z) :=
  home_writes st f bs ++ [(st, put_head [] (f st))].

Lemma recover_ok c i pr st nl bs k lg :
  at_rest c i pr st nl [] k [] lg → head_n (lg st) = Z.of_nat (length bs) → head_blocks (lg st) = bs →
  tx_list st nl k.(fs).(disk).(disksize) bs →
  ∃ k', recover_from_log k = Ok tt k' ∧ fs_run k c k' ∧
    at_rest c i pr st nl [] k' [] (over (recover_writes st lg bs) lg) ∧
    k'.(fs).(disk) = write_all (recover_writes st lg bs) k.(fs).(disk).
Proof.
  intros Hr Hn Hbs Htx. assert (Hroom : ∀ a, room [a] []).
  { intros a. exists [a]. split; [|unfold NBUF; cbn; lia]. intros b [?|Hb]; [done|by apply elem_of_nil in Hb]. }
  assert (Hroom0 : room [] []) by (eapply room_mono; [|exact (Hroom 0)]; intros b; rewrite elem_of_nil; tauto).
  destruct (read_head_ok _ _ _ _ _ _ _ _ Hr Hn Hbs Htx) as (k1 & E1 & M1 & R1 & Ed1).
  destruct (install_trans_ok _ _ _ _ _ _ _ _ _ R1 Hroom0 (or_introl Hroom)) as (k2 & D' & E2 & M2 & HD & R2 & Ed2).
  assert (D' = []) as ->.
  { destruct D' as [|x D']; [done|]. destruct (HD x) as [Hx _]. destruct Hx as [Hx _]; [constructor|by apply elem_of_nil in Hx]. }
  pose proof (log_emptied _ _ _ _ _ _ _ _ _ R2) as R2'.
  destruct (write_head_ok _ _ _ _ _ _ _ _ _ R2' Hroom0) as (k3 & E3 & M3 & R3 & Ed3); [apply not_elem_of_nil|].
  rewrite over_ne in R3, Ed3.
  2,3: rewrite home_writes_blocks; intros Hin; destruct (tl_home _ _ _ _ Htx st Hin) as [_ H];
    pose proof (tl_len _ _ _ _ Htx); unfold home in H; lia.
  exists k3. unfold recover_writes. rewrite over_app, write_all_app. split_and!.
  - unfold recover_from_log. mstep by exact E1. mstep by exact E2. mstep. exact E3.
  - eapply fs_run_trans; [done|]. eapply fs_run_trans; [by apply move_run|].
    eapply fs_run_trans; [apply with_log_run|by apply move_run].
  - exact R3.
  - rewrite Ed3. cbn [fs with_log set_fs disk set_log]. by rewrite Ed2, Ed1.
Qed.

(** Crashes while recovering. *)
Lemma recover_crash st nl size bs d f ws :
  pending st nl size bs d f → Z.of_nat (length (d st)) = BSIZE → ws `prefix_of` recover_writes st d bs →
  recoverable st nl size (over ws d) f.
Proof.
  intros Hp Hlen Hws. pose proof Hp as [_ _ [G [L1 L2] Hh] Hl Ho]. unfold recover_writes in Hws.
  assert (Hin : ∀ ws, ws `prefix_of` home_writes st d bs → ∀ b l, (b, l) ∈ ws → b ∈ bs).
  { intros ws' [r Er] b l Hb. rewrite <- (home_writes_blocks st d bs), Er, fmap_app, elem_of_app. left.
    apply list_elem_of_fmap. by exists (b, l). }
  apply prefix_app_cases in Hws as [Hws|(r & -> & [->| ->]%prefix_single)].
  - exists bs. apply pending_install; [done|by apply Hin].
  - exists bs. rewrite app_nil_r. apply pending_install; [done|by apply Hin].
  - exists []. rewrite over_app. apply (quiet_disk _ _ _ _ _ (d st)); [done|lia|done|by cbn; rewrite fn_lookup_insert|].
    intros b Hb. cbn. rewrite fn_lookup_insert_ne by (unfold home in Hb; lia).
    destruct (decide (b ∈ bs)) as [Hbb|Hbb].
    + apply over_eq; [by rewrite home_writes_blocks|]. intros l (t & Ht & ->)%home_writes_elem. by apply Hl.
    + rewrite over_ne; [by apply Ho|]. by rewrite home_writes_blocks.
Qed.

(** ** Transactions *)

(** The index log_write() stores the block at. *)
Lemma absorb_ok lb bs j b : (∀ t x, bs !! t = Some x → lb !! t = Some x) → (length bs < length lb)%nat →
  Forall (λ x, u32 x = x) bs →
  let t := absorb lb j (Z.of_nat (j + length bs)) b in
  ∃ r, t = (j + r)%nat ∧ ((bs !! r = Some b) ∨ (r = length bs ∧ b ∉ bs)).
Proof.
  revert bs j. induction lb as [|y lb IH]; intros bs j Hp Hl Hu; cbn [length absorb] in *; [lia|].
  destruct bs as [|x bs]; cbn [length] in *.
  - rewrite Nat.add_0_r, (proj2 (Z.ltb_ge _ _)) by lia. exists 0%nat. split; [lia|]. right. split; [done|apply not_elem_of_nil].
  - pose proof (Hp 0%nat x eq_refl) as [= ->]. inversion Hu as [|? ? Hx Hu']; subst. rewrite Hx.
    rewrite (proj2 (Z.ltb_lt _ _)) by lia. destruct (Z.eqb_spec x b) as [->|Hne].
    + exists 0%nat. split; [lia|by left].
    + destruct (IH bs (S j)) as (r & Er & Hr); [intros t z Ht; by apply (Hp (S t))|lia|done|].
      replace (j + S (length bs))%nat with (S j + length bs)%nat by lia. exists (S r). split; [rewrite Er; lia|].
      destruct Hr as [Hr|[-> Hr]]; [by left|right]. split; [done|]. rewrite not_elem_of_cons. auto.
Qed.

(** The list of the transaction's blocks with [b] in it. *)
Definition with_block (b : Z) (bs : list Z) : list Z := if bool_decide (b ∈ bs) then bs else bs ++ [b].

Lemma elem_of_with_block x b bs : x ∈ with_block b bs ↔ x = b ∨ x ∈ bs.
Proof. unfold with_block. case_bool_decide; [naive_solver|]. rewrite elem_of_app, list_elem_of_singleton. tauto. Qed.

Lemma NoDup_with_block b bs : NoDup bs → NoDup (with_block b bs).
Proof.
  intros Hnd. unfold with_block. case_bool_decide as Hb; [done|]. apply NoDup_app. split_and!; [done| |apply NoDup_singleton].
  intros x Hx ->%list_elem_of_singleton. done.
Qed.

(** The in-memory log that log_write() leaves. *)
Lemma logged st nl bs l b :
  log_is l st nl bs → Z.of_nat (length bs) < LOGSIZE → Forall (λ x, u32 x = x) bs → 
  let t := absorb l.(lh_block) 0 l.(lh_n) b in
  ∃ l', l' = (let l1 := set_lh_block (<[t := b]> l.(lh_block)) l in
              if Z.of_nat t =? l.(lh_n) then set_lh_n (l.(lh_n) + 1) l1 else l1) ∧
    log_is l' st nl (with_block b bs) ∧ Z.of_nat t < LOGSIZE ∧
    l'.(lg_outstanding) = l.(lg_outstanding) ∧ l'.(lg_committing) = l.(lg_committing).
Proof.
  intros [L1 L2 L3 L4 L5 L6] Hn Hu t. eexists. split; [done|].
  destruct (absorb_ok l.(lh_block) bs 0 b) as (r & Er & Hr); [done|lia|done|]. cbn [Nat.add] in Er. rewrite <- L4 in Er. fold t in Er.
  assert (Hlt : (r < length l.(lh_block))%nat).
  { destruct Hr as [Hr|[-> _]]; [apply lookup_lt_Some in Hr|]; lia. }
  rewrite Er, L4. unfold with_block. destruct Hr as [Hr|[-> Hr]].
  - pose proof (lookup_lt_Some _ _ _ Hr). rewrite (proj2 (Z.eqb_neq _ _)) by lia.
    rewrite bool_decide_true by (by eapply list_elem_of_lookup_2). split_and!; try done; [|lia].
    split; cbn; try done; [by rewrite length_insert|]. intros j x Hx. destruct (decide (j = r)) as [->|].
    + rewrite list_lookup_insert_eq by done. congruence.
    + rewrite list_lookup_insert_ne by done. by apply L6.
  - rewrite Z.eqb_refl, bool_decide_false by done. split_and!; try done.
    split; cbn; try done; [rewrite length_app; cbn; lia|by rewrite length_insert|]. intros j x Hx.
    apply lookup_app_Some in Hx as [Hx|[Hj Hx]].
    + rewrite list_lookup_insert_ne; [by apply L6|]. apply lookup_lt_Some in Hx. lia.
    + apply list_lookup_singleton_Some in Hx as [Hj' ->]. replace j with (length bs) by lia. by rewrite list_lookup_insert_eq.
Qed.

Lemma log_write_ok k c i pr n b H st nl bs lg :
  env k c i pr → cache_ok k.(fs) pr.(pid) H bs lg → b ∈ H → buf_at k.(fs) n b →
  log_is k.(fs).(log) st nl bs → tx_list st nl k.(fs).(disk).(disksize) bs → home st nl b →
  1 <= k.(fs).(log).(lg_outstanding) → Z.of_nat (length bs) < LOGSIZE → Z.of_nat (length bs) < nl - 1 →
  ∃ k' l', log_write n k = Ok tt k' ∧ k'.(fs).(log) = l' ∧ fs_run k c k' ∧ (∀ m b', buf_at k.(fs) m b' → buf_at k'.(fs) m b') ∧
    cache_ok k'.(fs) pr.(pid) H (with_block b bs) lg ∧ k'.(fs).(disk) = k.(fs).(disk) ∧
    log_is l' st nl (with_block b bs) ∧ tx_list st nl k.(fs).(disk).(disksize) (with_block b bs) ∧
    l'.(lg_outstanding) = k.(fs).(log).(lg_outstanding) ∧ l'.(lg_committing) = k.(fs).(log).(lg_committing).
Proof.
  intros He Hc Hb Hat Hl [G [T1 T2] Hh] Hhome Hout Hn1 Hn2.
  destruct (held_buf _ _ _ _ _ _ _ Hc Hb Hat) as (v & Hv & Hd & Hbn & Hr & Hdat & Hrc & Hfl & _).
  pose proof (en_proc _ _ _ _ He) as [Hcpu _ _ _].
  assert (Hu : ∀ x, 0 <= x < k.(fs).(disk).(disksize) → u32 x = x) by (intros x Hx; apply u32_small; unfold is_u32; lia).
  destruct (logged st nl bs k.(fs).(log) b Hl Hn1) as (l' & El' & Hl' & Ht & Ho & Hcm).
  { apply Forall_forall. intros x [Hx _]%Hh. by apply Hu. }
  set (t := absorb _ 0 _ b) in *. set (w := set_b_flags (Z.lor B_VALID B_DIRTY) v).
  set (y := put_buf n w (set_log l' k.(fs))).
  assert (Erun : log_write n k = Ok tt (set_hw (touch c k.(hw)) (set_fs y k))).
  { unfold log_write. mstep. cbn [id]. rewrite (li_n _ _ _ _ Hl), (li_size _ _ _ _ Hl).
    rewrite (proj2 (Z.leb_gt _ _)), (proj2 (Z.leb_gt _ _)) by lia. cbn [orb]. rewrite (proj2 (Z.ltb_ge _ _)) by lia.
    mstep by (apply (acquire_ok _ c 0); [done|lia|apply He]). mstep. mstep by (by apply buf_get_ok). cbn zeta. cbn [id].
    change (fs (set_hw _ k)) with k.(fs). rewrite Hbn. fold t. rewrite (s32_small b) by (unfold is_s32; lia).
    mstep by (apply lh_set_ok; lia). rewrite Nat2Z.id. 
    assert (Ew : ∀ k0, k0 = with_log (set_lh_block (<[t := b]> k.(fs).(log).(lh_block)) k.(fs).(log)) (set_hw (acq_hw c LLog k.(hw)) k) →
      when (Z.of_nat t =? k.(fs).(log).(lh_n)) (upd_log (set_lh_n (k.(fs).(log).(lh_n) + 1))) k0
      = Ok tt (with_log l' (set_hw (acq_hw c LLog k.(hw)) k))).
    { intros k0 ->. rewrite El'. by destruct (_ =? _). }
    mstep by (by apply Ew). mstep by apply buf_upd_eff. cbn [fs with_log set_fs set_hw].
    rewrite (alter_put n _ (set_log l' k.(fs)) v Hv).
    replace (set_b_flags _ v) with w by (unfold w; rewrite Hfl; by destruct (decide _)). fold y.
    apply (release_acquired _ c 0 _ (set_fs y k)); [done|lia|apply He]. }
  eexists _, l'. split; [exact Erun|]. cbn [fs set_hw set_fs]. split_and!; try done.
  - split; try done. by apply (fs_step_touch c k y 0).
  - intros m b' Hm. by apply (put_buf_at k.(fs) n v w) in Hm.
  - apply (with_log_cache (set_fs (put_buf n w k.(fs)) k) _ _ _ _ l'). cbn [fs set_fs].
    apply (held_put k.(fs) pr.(pid) H bs lg n b Hc Hb Hat v w (with_block b bs) lg k.(fs).(disk)); try done.
    + rewrite decide_True; [done|]. apply elem_of_with_block. by left.
    + intros b' Hne. split_and!; try done. rewrite elem_of_with_block. tauto.
    + apply Hc.
  - split; [done| |].
    + destruct Hl' as [_ _ _ E _ _]. unfold with_block. case_bool_decide; [lia|]. rewrite length_app. cbn. lia.
    + intros x [->|Hx]%elem_of_with_block; auto.
Qed.

Section ops.
  Context (c i : nat) (pr : proc) (st nl : Z).

(** begin_op() when there is room and no commit is running. *)
Lemma begin_op_ok k : env k c i pr → k.(fs).(log).(lg_committing) = 0 →
  k.(fs).(log).(lh_n) + (k.(fs).(log).(lg_outstanding) + 1) * MAXOPBLOCKS <= LOGSIZE →
  begin_op k = Ok tt (set_hw (touch c k.(hw)) (with_log (set_lg_outstanding (k.(fs).(log).(lg_outstanding) + 1) k.(fs).(log)) k)).
Proof using.
  intros He Hcm Hn. pose proof (en_proc _ _ _ _ He) as [Hcpu _ _ _]. unfold begin_op, begin_op_loop.
  mstep by (apply (acquire_ok _ c 0); [done|lia|apply He]). mstep. cbn [id]. change (fs (set_hw _ k)) with k.(fs).
  rewrite Hcm. change (truth 0) with false. cbn iota. rewrite (proj2 (Z.ltb_ge _ _)) by done.
  mstep. apply (release_acquired _ c 0 _ (with_log _ k)); [done|lia|apply He].
Qed.

(** Reading, changing and logging one block. *)
Definition update (b : Z) (f : list Z → list Z) : K unit :=
  n ← bread DISKDEV b;
  buf_upd n (λ v, set_b_data (f v.(b_data)) v);;
  log_write n;;
  brelse n.

(** The state in the middle of a system call that holds the buffers of [H] and
    has logged the blocks [bs]. *)
Record at_work (H bs : list Z) (k : kernel) (lg : Z → list Z) : Prop := {
  aw_env : env k c i pr;
  aw_cache : cache_ok k.(fs) pr.(pid) H bs lg;
  aw_log : log_is k.(fs).(log) st nl bs;
  aw_tx : tx_list st nl k.(fs).(disk).(disksize) bs;
}.

Lemma work_rest bs k lg : at_work [] bs k lg ↔ at_rest c i pr st nl bs k bs lg.
Proof using. by split; intros []. Qed.

(** The buffers held stay where they are. *)
Definition stay (H : list Z) (k k' : kernel) : Prop := ∀ m b, b ∈ H → buf_at k.(fs) m b → buf_at k'.(fs) m b.

Lemma work_room H bs : (length H + length bs < NBUF)%nat → room H bs.
Proof using. intros Hn. exists (H ++ bs). split; [|by rewrite length_app]. intros b. by rewrite elem_of_app. Qed.

Lemma update_work H k bs lg b f :
  at_work H bs k lg → b ∉ H → 0 <= b < k.(fs).(disk).(disksize) → home st nl b → length (f (lg b)) = Z.to_nat BSIZE →
  1 <= k.(fs).(log).(lg_outstanding) → (length H + length bs < NBUF)%nat → Z.of_nat (length bs) < nl - 1 →
  ∃ k', update b f k = Ok tt k' ∧ fs_run k c k' ∧ k'.(fs).(disk) = k.(fs).(disk) ∧
    at_work H (with_block b bs) k' (<[b := f (lg b)]> lg) ∧
    k'.(fs).(log).(lg_outstanding) = k.(fs).(log).(lg_outstanding) ∧
    k'.(fs).(log).(lg_committing) = k.(fs).(log).(lg_committing) ∧ stay H k k'.
Proof using.
  intros [He Hc Hl Ht] HbH Hb Hh Hf Ho Hn1 Hn2. assert (Hin : b ∈ b :: H) by constructor.
  destruct (bread_ok k c i pr H bs lg b) as (n & k1 & E1 & G1); [done|done|done|done|left; by apply work_room|].
  pose proof (got_move _ _ _ _ _ _ _ _ _ G1) as M1. pose proof (gt_at _ _ _ _ _ _ _ _ _ G1) as Hat.
  destruct (buf_set_ok k1 c n b pr.(pid) (b :: H) bs lg f) as (k2 & E2 & K2 & Hc2 & Ed2); [apply G1|done|done|done|].
  pose proof (fs_move_trans _ _ _ _ M1 (kept_move _ _ _ K2)) as M2.
  assert (Ed : k2.(fs).(disk) = k.(fs).(disk)) by (rewrite Ed2; apply G1).
  destruct (log_write_ok k2 c i pr n b (b :: H) st nl bs (<[b := f (lg b)]> lg)) as (k3 & l3 & E3 & El3 & R3 & A3 & Hc3 & Ed3 & Hl3 & Ht3 & Ho3 & Hm3);
    [by eapply env_move|done|done|by apply (kp_at _ _ _ K2)|by rewrite (move_log _ _ _ M2)|by rewrite Ed|done|by rewrite (move_log _ _ _ M2)|
     change LOGSIZE with 30; unfold NBUF in Hn1; lia|done|].
  destruct (brelse_ok k3 c i pr n b H (with_block b bs) (<[b := f (lg b)]> lg)) as (k4 & E4 & K4 & Hc4 & Ed4).
  { eapply env_step; [eapply env_move; [exact He|exact M2]|apply R3]. }
  { done. }
  { done. }
  { by apply A3, (kp_at _ _ _ K2). }
  { left. apply elem_of_with_block. by left. }
  pose proof (move_log _ _ _ (kept_move _ _ _ K4)) as El4. rewrite El3 in El4.
  exists k4. split_and!; [| |by rewrite Ed4, Ed3| |by rewrite El4, Ho3, (move_log _ _ _ M2)|by rewrite El4, Hm3, (move_log _ _ _ M2)|].
  - unfold update. mstep by exact E1. mstep by exact E2. mstep by exact E3. exact E4.
  - eapply fs_run_trans; [by apply move_run|]. eapply fs_run_trans; [done|]. by apply move_run, kept_move.
  - split; [|done|by rewrite El4|rewrite Ed4, Ed3; by rewrite Ed in *].
    eapply env_move; [|by apply kept_move]. eapply env_step; [eapply env_move; [exact He|exact M2]|apply R3].
  - intros m b' Hb' Hm. apply (kp_at _ _ _ K4), A3, (kp_at _ _ _ K2). by apply (gt_keep _ _ _ _ _ _ _ _ _ G1).
Qed.

Lemma update_ok k bs lg b f :
  at_rest c i pr st nl bs k bs lg → 0 <= b < k.(fs).(disk).(disksize) → home st nl b → length (f (lg b)) = Z.to_nat BSIZE →
  1 <= k.(fs).(log).(lg_outstanding) → (length bs < NBUF)%nat → Z.of_nat (length bs) < nl - 1 →
  ∃ k', update b f k = Ok tt k' ∧ fs_run k c k' ∧ k'.(fs).(disk) = k.(fs).(disk) ∧
    at_rest c i pr st nl (with_block b bs) k' (with_block b bs) (<[b := f (lg b)]> lg) ∧
    k'.(fs).(log).(lg_outstanding) = k.(fs).(log).(lg_outstanding) ∧
    k'.(fs).(log).(lg_committing) = k.(fs).(log).(lg_committing).
Proof using.
  intros Hr%work_rest Hb Hh Hf Ho Hn1 Hn2. destruct (update_work [] k bs lg b f Hr (not_elem_of_nil _) Hb Hh Hf Ho Hn1 Hn2) as (k' & E & R & Ed & Hw%work_rest & Hlo & Hlc & _).
  by exists k'.
Qed.

(** Everything end_op() of the last operation writes. *)
Definition tx_writes (lg : Z → list Z) (bs : list Z) : list (Z * list Z) :=
  if bool_decide (bs = []) then [] else commit_writes st lg bs.

Lemma at_rest_run k bs D lg k' D' lg' :
  at_rest c i pr st nl bs k D lg → fs_run k c k' → cache_ok k'.(fs) pr.(pid) [] D' lg' → log_is k'.(fs).(log) st nl bs →
  at_rest c i pr st nl bs k' D' lg'.
Proof using.
  intros [He _ _ Ht] Hm Hc Hl. split; [eapply env_step; [exact He|apply Hm]|done|done|by rewrite (fr_size _ _ _ Hm)].
Qed.

Lemma commit_any_ok k bs lg :
  at_rest c i pr st nl bs k bs lg → NoDup bs → (length bs < NBUF)%nat →
  ∃ k', commit k = Ok tt k' ∧ fs_run k c k' ∧ k'.(fs).(log) = set_lh_n 0 k.(fs).(log) ∧
    at_rest c i pr st nl [] k' [] (over (tx_writes lg bs) lg) ∧
    k'.(fs).(disk) = write_all (tx_writes lg bs) k.(fs).(disk).
Proof using.
  intros Hr Hnd Hn. unfold tx_writes. case_bool_decide as Hb.
  - subst bs. exists k. pose proof (li_n _ _ _ _ (ar_log _ _ _ _ _ _ _ _ _ Hr)) as E0. split_and!; try done.
    + unfold commit. mstep. by rewrite E0.
    + apply move_run, fs_move_refl.
    + revert E0. destruct (log k.(fs)). cbn. by intros ->.
  - apply commit_ok; try done. exists bs. split; [|done]. intros b [Hx|?]; [by apply elem_of_nil in Hx|done].
Qed.

(** A short critical section of the log that only changes [log]. *)
Lemma log_section k l : env k c i pr →
  fs_run k c (set_hw (touch c k.(hw)) (with_log l k)) ∧ env (set_hw (touch c k.(hw)) (with_log l k)) c i pr.
Proof using.
  intros He. pose proof (en_proc _ _ _ _ He) as [Hcpu _ _ _].
  pose proof (fs_step_touch c k (set_log l k.(fs)) 0 Hcpu) as Hs. split; [by split|]. by eapply env_step.
Qed.

(** end_op() of the only running operation. *)
Lemma end_op_ok k bs lg :
  at_rest c i pr st nl bs k bs lg → NoDup bs → (length bs < NBUF)%nat →
  k.(fs).(log).(lg_outstanding) = 1 → k.(fs).(log).(lg_committing) = 0 →
  ∃ k', end_op k = Ok tt k' ∧ fs_run k c k' ∧
    at_rest c i pr st nl [] k' [] (over (tx_writes lg bs) lg) ∧
    k'.(fs).(disk) = write_all (tx_writes lg bs) k.(fs).(disk) ∧
    k'.(fs).(log).(lg_outstanding) = 0 ∧ k'.(fs).(log).(lg_committing) = 0.
Proof using.
  intros Hr Hnd Hn Ho Hm. pose proof Hr as [He Hc Hl _]. pose proof (en_proc _ _ _ _ He) as [Hcpu _ _ _].
  set (l1 := set_lg_committing 1 (set_lg_outstanding 0 k.(fs).(log))).
  destruct (log_section k l1 He) as [R1 He1]. set (k1 := set_hw (touch c k.(hw)) (with_log l1 k)) in *.
  assert (Hr1 : at_rest c i pr st nl bs k1 bs lg).
  { eapply at_rest_run; [done|done|by apply (with_log_cache k)|]. destruct Hl. by split. }
  destruct (commit_any_ok k1 bs lg Hr1 Hnd Hn) as (k2 & E2 & R2 & El2 & Hr2 & Ed2).
  pose proof (ar_env _ _ _ _ _ _ _ _ _ Hr2) as He2. pose proof (en_proc _ _ _ _ He2) as [Hcpu2 _ _ Hlen2].
  set (l3 := set_lg_committing 0 k2.(fs).(log)). set (k3 := woken ChLog (with_log l3 k2)).
  exists (set_hw (touch c k2.(hw)) k3).
  assert (R3 : fs_run k2 c (set_hw (touch c k2.(hw)) k3)).
  { split; try done. exists (touch c k2.(hw)), (wake ChLog <$> k2.(pt).(procs)).
    split_and!; [done|by eapply settled_touch|apply woke_wake]. }
  split_and!; try done.
  - unfold end_op. mstep by (apply (acquire_ok _ c 0); [done|lia|apply He]). mstep. mstep. cbn [id].
    change (truth _) with (truth k.(fs).(log).(lg_committing)). rewrite Hm. change (truth 0) with false. cbn iota.
    change (lg_outstanding (log (fs (set_fs (set_log (set_lg_outstanding ?o _) _) _)))) with o.
    change (lg_outstanding (log (fs (set_hw _ k)))) with k.(fs).(log).(lg_outstanding). rewrite Ho. change (1 - 1 =? 0) with true. cbn iota.
    mstep. mstep by (apply (release_acquired _ c 0 _ (with_log l1 k)); [done|lia|apply He]). fold k1. cbn [when].
    mstep by exact E2. mstep by (apply (acquire_ok _ c 0); [done|lia|apply He2]). mstep.
    pose proof (acq_at _ _ _ LLog Hcpu2) as Hat3.
    mstep by (apply (wakeup_ok _ c 1); [exact Hat3|lia|unfold lk_free; change (hw _) with (acq_hw c LLog k2.(hw)); rewrite acq_other by done; apply He2|exact Hlen2]).
    match goal with |- context [touch c ?h] => change h with (acq_hw c LLog k2.(hw)) end. rewrite (touch_cs _ _ _ Hat3) by lia.
    apply (release_acquired _ c 0 _ k3); [done|lia|apply He2].
  - eapply fs_run_trans; [done|]. by eapply fs_run_trans.
  - eapply at_rest_run; [done|done| |].
    + apply (with_log_cache k2), Hr2.
    + destruct (ar_log _ _ _ _ _ _ _ _ _ Hr2). by split.
  - cbn. by rewrite El2.
Qed.

End ops.

(** Where a crash during end_op() leaves the disk. *)
Lemma tx_crash st nl size bs d lg :
  tx_list st nl size bs → head_n (d st) = 0 → Z.of_nat (length (lg st)) = BSIZE → (∀ b, home st nl b → b ∉ bs → d b = lg b) →
  pending st nl size [] (over (tx_writes st lg bs) d) lg ∧
  ∀ p, p `prefix_of` tx_writes st lg bs → recoverable st nl size (over p d) d ∨ recoverable st nl size (over p d) lg.
Proof.
  intros Htx He Hlen Hclean. unfold tx_writes. case_bool_decide as Hb.
  - subst bs. pose proof (crash_before st nl size [] d lg Htx He [] (prefix_nil _)) as Hq. split.
    + destruct Hq as [Q1 Q2 Q3 _ Q5]. by split.
    + intros p ->%prefix_nil_inv. left. by exists [].
  - split; [by apply crash_done|]. intros p Hp. by apply (crash_cases st nl size bs).
Qed.

(** A system call that changes blocks: each of [us] is a block and what is
    done to its contents. *)
Fixpoint updates (us : list (Z * (list Z → list Z))) : K unit :=
  match us with
  | [] => mret tt
  | (b, f) :: us' => update b f;; updates us'
  end.

Definition transaction (us : list (Z * (list Z → list Z))) : K unit := begin_op;; updates us;; end_op.

(** The blocks it changes, and the contents it leaves. *)
Definition blocks_of (us : list (Z * (list Z → list Z))) (bs : list Z) : list Z := foldl (λ bs u, with_block u.1 bs) bs us.
Definition updated (us : list (Z * (list Z → list Z))) (lg : Z → list Z) : Z → list Z :=
  foldl (λ lg u, <[u.1 := u.2 (lg u.1)]> lg) lg us.

Definition update_fits (st nl size : Z) (u : Z * (list Z → list Z)) : Prop :=
  0 <= u.1 < size ∧ home st nl u.1 ∧ ∀ l, length l = Z.to_nat BSIZE → length (u.2 l) = Z.to_nat BSIZE.

Lemma blocks_of_grow us bs : (length bs <= length (blocks_of us bs))%nat ∧ (NoDup bs → NoDup (blocks_of us bs)).
Proof.
  revert bs. induction us as [|u us IH]; intros bs; [done|]. destruct (IH (with_block u.1 bs)) as [H1 H2]. split.
  - etrans; [|exact H1]. unfold with_block. case_bool_decide; [done|]. rewrite length_app. lia.
  - intros Hnd. by apply H2, NoDup_with_block.
Qed.

(** No log_write() of [us] finds the log or the cache full. *)
Fixpoint fits (nl : Z) (us : list (Z * (list Z → list Z))) (bs : list Z) : bool :=
  match us with
  | [] => true
  | u :: us' => (Z.of_nat (length bs) <? Z.of_nat NBUF) && (Z.of_nat (length bs) <? nl - 1) && fits nl us' (with_block u.1 bs)
  end.

Lemma few_fit nl us bs : Z.of_nat (length (blocks_of us bs)) <= MAXOPBLOCKS → MAXOPBLOCKS < nl - 1 → fits nl us bs = true.
Proof.
  change MAXOPBLOCKS with 10. revert bs. induction us as [|u us IH]; intros bs Hn Hnl; [done|]. cbn [fits].
  destruct (blocks_of_grow (u :: us) bs) as [Hg _].
  rewrite (proj2 (Z.ltb_lt _ _)), (proj2 (Z.ltb_lt _ _)) by (unfold NBUF; lia). by apply IH.
Qed.

Lemma updates_ok c i pr st nl us k bs lg :
  at_rest c i pr st nl bs k bs lg → Forall (update_fits st nl k.(fs).(disk).(disksize)) us →
  1 <= k.(fs).(log).(lg_outstanding) → fits nl us bs = true →
  ∃ k', updates us k = Ok tt k' ∧ fs_run k c k' ∧ k'.(fs).(disk) = k.(fs).(disk) ∧
    at_rest c i pr st nl (blocks_of us bs) k' (blocks_of us bs) (updated us lg) ∧
    k'.(fs).(log).(lg_outstanding) = k.(fs).(log).(lg_outstanding) ∧ k'.(fs).(log).(lg_committing) = k.(fs).(log).(lg_committing).
Proof.
  revert k bs lg. induction us as [|[b f] us IH]; intros k bs lg Hr Hu Ho Hn.
  - exists k. split_and!; try done. apply move_run, fs_move_refl.
  - inversion Hu as [|? ? (Hb & Hh & Hf) Hu']; subst. cbn [fst snd fits] in *.
    rewrite !andb_true_iff, !Z.ltb_lt in Hn. destruct Hn as ((Hn1 & Hn2) & Hn).
    destruct (update_ok c i pr st nl k bs lg b f Hr Hb Hh) as (k1 & E1 & R1 & Ed1 & Hr1 & Ho1 & Hm1);
      [apply Hf, (co_size _ _ _ _ _ (ar_cache _ _ _ _ _ _ _ _ _ Hr))|done|lia|lia|].
    destruct (IH k1 (with_block b bs) (<[b := f (lg b)]> lg) Hr1) as (k2 & E2 & R2 & Ed2 & Hr2 & Ho2 & Hm2);
      [by rewrite Ed1|lia|done|].
    exists k2. split_and!; [|by eapply fs_run_trans|congruence|done|congruence|congruence].
    cbn [updates]. mstep by exact E1. exact E2.
Qed.

(** A system call up to its end_op(). *)
Lemma opened_ok c i pr st nl k us lg :
  at_rest c i pr st nl [] k [] lg → k.(fs).(log).(lg_outstanding) = 0 → k.(fs).(log).(lg_committing) = 0 →
  Forall (update_fits st nl k.(fs).(disk).(disksize)) us → fits nl us [] = true →
  ∃ k', (begin_op;; updates us) k = Ok tt k' ∧ k'.(fs).(disk) = k.(fs).(disk) ∧
    at_rest c i pr st nl (blocks_of us []) k' (blocks_of us []) (updated us lg) ∧
    k'.(fs).(log).(lg_outstanding) = 1 ∧ k'.(fs).(log).(lg_committing) = 0.
Proof.
  intros Hr Ho Hm Hu Hn. pose proof Hr as [He Hc Hl Htx].
  destruct (log_section c i pr k (set_lg_outstanding 1 k.(fs).(log)) He) as [R1 He1].
  pose proof (begin_op_ok c i pr k He Hm) as E1. rewrite Ho in E1. change (0 + 1) with 1 in E1.
  specialize (E1 ltac:(rewrite (li_n _ _ _ _ Hl); cbn; done)). set (k1 := set_hw _ (with_log _ k)) in *.
  assert (Hr1 : at_rest c i pr st nl [] k1 [] lg).
  { eapply at_rest_run; [exact Hr|done|by apply (with_log_cache k)|]. destruct Hl. by split. }
  destruct (updates_ok c i pr st nl us k1 [] lg Hr1) as (k2 & E2 & R2 & Ed2 & Hr2 & Ho2 & Hm2); try done.
  exists k2. split_and!; [mstep by exact E1; exact E2|exact Ed2|done|by rewrite Ho2|by rewrite Hm2].
Qed.

(** ** Crashes and restarts *)

(** A machine started on a disk with contents [d], before recovery. *)
Definition booted (st nl size : Z) (d : Z → list Z) (k : kernel) : Prop :=
  (∃ c i pr, at_rest c i pr st nl [] k [] d) ∧ k.(fs).(disk).(dk_block) = d ∧ k.(fs).(disk).(disksize) = size.

(** [d'] is on disk when recovery from [d] stops after some of its writes. *)
Definition interrupted (st nl size : Z) (d d' : Z → list Z) : Prop :=
  ∃ k k' ws r, booted st nl size d k ∧ recover_from_log k = Ok tt k' ∧
    k'.(fs).(disk).(dk_writes) = k.(fs).(disk).(dk_writes) ++ ws ++ r ∧ d' = over ws d.

Lemma booted_len st nl size d k b : booted st nl size d k → Z.of_nat (length (d b)) = BSIZE.
Proof. intros [(c & i & pr & Hr) _]. rewrite (co_size _ _ _ _ _ (ar_cache _ _ _ _ _ _ _ _ _ Hr)). done. Qed.

Lemma booted_recovers st nl size d f k :
  booted st nl size d k → recoverable st nl size d f →
  ∃ k' bs, pending st nl size bs d f ∧ recover_from_log k = Ok tt k' ∧
    k'.(fs).(disk) = write_all (recover_writes st d bs) k.(fs).(disk) ∧
    ∃ c i pr, fs_run k c k' ∧ at_rest c i pr st nl [] k' [] (over (recover_writes st d bs) d).
Proof.
  intros [(c & i & pr & Hr) [Hd Hs]] [bs Hp]. pose proof Hp as [Hn Hb Htx _ _].
  destruct (recover_ok _ _ _ _ _ bs _ _ Hr Hn Hb) as (k' & E & M & R & Ed); [by rewrite Hs|].
  exists k', bs. split_and!; [done|done|done|]. by exists c, i, pr.
Qed.

Lemma interrupted_recoverable st nl size d d' f :
  recoverable st nl size d f → interrupted st nl size d d' → recoverable st nl size d' f.
Proof.
  intros Hrec (k & k' & ws & r & Hb & E & Ew & ->).
  destruct (booted_recovers _ _ _ _ _ _ Hb Hrec) as (k1 & bs & Hp & E1 & Ed & _).
  rewrite E in E1. injection E1 as <-. rewrite Ed, write_all_writes in Ew. apply app_inv_head in Ew.
  apply (recover_crash _ _ _ bs _ _ ws Hp); [by eapply booted_len|]. by exists r.
Qed.

(** A recovered disk: nothing pending, the contents at home. *)
Lemma recovered_disk st nl size d f bs :
  pending st nl size bs d f → Z.of_nat (length (d st)) = BSIZE →
  let d' := over (recover_writes st d bs) d in head_n (d' st) = 0 ∧ ∀ b, home st nl b → d' b = f b.
Proof.
  intros Hp Hl d'. pose proof Hp as [_ _ [G [L1 L2] Hh] Hlg Ho].
  assert (Est : d' st = put_head [] (d st)) by (unfold d', recover_writes; rewrite over_app; cbn; by rewrite fn_lookup_insert).
  split; [rewrite Est; by apply (head_n_put [])|]. intros b Hb. unfold d', recover_writes. rewrite over_app. cbn.
  rewrite fn_lookup_insert_ne by (unfold home in Hb; lia). destruct (decide (b ∈ bs)) as [Hbb|Hbb].
  - apply over_eq; [by rewrite home_writes_blocks|]. intros l (t & Ht & ->)%home_writes_elem. by apply Hlg.
  - rewrite over_ne; [by apply Ho|]. by rewrite home_writes_blocks.
Qed.

(** With nothing modified the cache shows the disk. *)
Lemma at_rest_clean c i pr st nl bs k lg : at_rest c i pr st nl bs k [] lg → lg = k.(fs).(disk).(dk_block).
Proof.
  intros [_ Hc _ _]. apply functional_extensionality. intros b. apply (co_clean _ _ _ _ _ Hc); apply not_elem_of_nil.
Qed.

(** ** Concrete states for the witnesses *)

Definition demo_pr : proc := set_state RUNNING (demo_proc 7 3).

(** A machine started on disk [d] whose log is at block 2, [nl] blocks long. *)
Definition demo_boot (d : disk_t) (nl : Z) : kernel :=
  with_log (mk_log 2 nl 0 0 DISKDEV 0 (replicate 30 0)) (demo_fs d demo_pr).

Lemma boot_at_rest k d nl pr : env k 0 0 pr → cache_ok k.(fs) pr.(pid) [] [] d.(dk_block) → k.(fs).(disk) = d →
  0 < nl → 2 + nl <= d.(disksize) < 2 ^ 31 →
  let k' := with_log (mk_log 2 nl 0 0 DISKDEV 0 (replicate 30 0)) k in
  at_rest 0 0 pr 2 nl [] k' [] d.(dk_block) ∧ k'.(fs).(disk) = d.
Proof.
  intros He Hc Ed Hnl Hd k'. split; [|exact Ed]. split.
  - eapply env_step; [exact He|]. apply (fs_step_here 0 k).
  - by apply with_log_cache.
  - by split.
  - change (k'.(fs).(disk)) with (k.(fs).(disk)). rewrite Ed.
    split; [lia|change LOGSIZE with 30; cbn; lia|]. intros b Hb. by apply elem_of_nil in Hb.
Qed.

Lemma demo_boot_ok d nl :
  (∀ b, length (d.(dk_block) b) = Z.to_nat BSIZE) → 0 < nl → 2 + nl <= d.(disksize) < 2 ^ 31 →
  at_rest 0 0 demo_pr 2 nl [] (demo_boot d nl) [] d.(dk_block) ∧ (demo_boot d nl).(fs).(disk) = d.
Proof.
  intros Hsz Hnl Hd. destruct (demo_fs_ok d demo_pr eq_refl Hsz) as (He & Hc & Ed).
  exact (boot_at_rest (demo_fs d demo_pr) d nl demo_pr He Hc Ed Hnl Hd).
Qed.

(** A disk of zeroes. *)
Definition demo_zero : disk_t := mk_disk 100 (λ _, replicate 512 0) [].

(** Changes of [n] blocks from block 40 on. *)
Definition demo_updates (n : nat) : list (Z * (list Z → list Z)) := (λ j, (40 + Z.of_nat j, <[0%nat := 7]>)) <$> seq 0 n.

Lemma demo_updates_fit n nl : 0 <= nl <= 38 → Z.of_nat n <= 60 → Forall (update_fits 2 nl 100) (demo_updates n).
Proof.
  intros Hnl Hn. apply Forall_forall. intros u (j & -> & Hj)%list_elem_of_fmap. apply elem_of_seq in Hj.
  unfold update_fits, home. cbn [fst snd]. split_and!; [lia|lia|lia|]. intros l Hl. by rewrite length_insert.
Qed.

(** A machine in the middle of a system call that has made them. *)
Definition demo_open (d : disk_t) (n : nat) (nl : Z) : kernel := final ((begin_op;; updates (demo_updates n)) (demo_boot d nl)).

Lemma demo_open_ok d n nl :
  (∀ b, length (d.(dk_block) b) = Z.to_nat BSIZE) → d.(disksize) = 100 →
  0 < nl <= 38 → Z.of_nat n <= 60 → fits nl (demo_updates n) [] = true →
  at_rest 0 0 demo_pr 2 nl (blocks_of (demo_updates n) []) (demo_open d n nl) (blocks_of (demo_updates n) [])
    (updated (demo_updates n) d.(dk_block)) ∧ (demo_open d n nl).(fs).(disk) = d.
Proof.
  intros Hl Hd Hnl Hn Hf. destruct (demo_boot_ok d nl Hl ltac:(lia) ltac:(lia)) as [Hr Ed].
  destruct (opened_ok _ _ _ _ _ _ (demo_updates n) _ Hr eq_refl eq_refl) as (k' & E & Ed' & Hr' & _); [|exact Hf|].
  { rewrite Ed, Hd. apply demo_updates_fit; lia. }
  unfold demo_open. rewrite E. cbn [final]. split; [exact Hr'|]. rewrite Ed'. exact Ed.
Qed.

(** ** Properties *)

(** Recover_from_log() on a machine started on any disk whose header
    lists valid blocks runs to its end, leaves every block outside the log
    with its logged contents (or its own, if it is not listed), on disk and in
    the cache, and an empty log; and if it is cut off after any of its disk
    writes, the same contents are recovered by the next run. *)
Theorem recovery_restores st nl size d f k :
  booted st nl size d k → recoverable st nl size d f →
  ∃ k' ws, recover_from_log k = Ok tt k' ∧ k'.(fs).(disk).(dk_writes) = k.(fs).(disk).(dk_writes) ++ ws ∧
    (∀ b, home st nl b → k'.(fs).(disk).(dk_block) b = f b) ∧
    head_n (k'.(fs).(disk).(dk_block) st) = 0 ∧
    (∃ c i pr, at_rest c i pr st nl [] k' [] k'.(fs).(disk).(dk_block)) ∧
    ∀ p, p `prefix_of` ws → recoverable st nl size (over p d) f.
Proof.
  intros Hb Hrec. destruct (booted_recovers _ _ _ _ _ _ Hb Hrec) as (k' & bs & Hp & E & Ed & c & i & pr & _ & R).
  pose proof (booted_len _ _ _ _ _ st Hb) as Hl. destruct (recovered_disk _ _ _ _ _ _ Hp Hl) as [Hhd Hhome].
  destruct Hb as [_ [Hd _]]. exists k', (recover_writes st d bs). rewrite Ed, write_all_block, write_all_writes, Hd.
  split_and!; [done|done|done|done|by exists c, i, pr|]. intros p Hpre. by apply (recover_crash _ _ _ bs).
Qed.

(** A log with one committed block: 50, whose new contents are in block 3. *)
Definition demo_logged : Z → list Z :=
  <[2 := put_head [50] (replicate 512 0)]> (<[3 := replicate 512 9]> (λ _, replicate 512 0)).

Lemma recovery_restores_witness :
  ∃ k', recover_from_log (demo_boot (mk_disk 100 demo_logged []) 30) = Ok tt k' ∧
    k'.(fs).(disk).(dk_block) 50 = replicate 512 9.
Proof.
  assert (Hlen : ∀ b, length (demo_logged b) = Z.to_nat BSIZE).
  { intros b. unfold demo_logged. destruct (decide (b = 2)) as [->|]; [reflexivity|]. rewrite fn_lookup_insert_ne by done.
    destruct (decide (b = 3)) as [->|]; [reflexivity|]. by rewrite fn_lookup_insert_ne. }
  destruct (demo_boot_ok (mk_disk 100 demo_logged []) 30 Hlen ltac:(lia) ltac:(cbn; lia)) as [Hr Ed].
  destruct (recovery_restores 2 30 100 demo_logged (<[50 := replicate 512 9]> demo_logged)
              (demo_boot (mk_disk 100 demo_logged []) 30)) as (k' & ws & E & _ & Hh & _).
  - split; [exists 0%nat, 0%nat, demo_pr; exact Hr|]. rewrite Ed. split; reflexivity.
  - exists [50]. split.
    + reflexivity.
    + vm_compute; reflexivity.
    + split; [lia|change LOGSIZE with 30; cbn; lia|]. intros b ->%list_elem_of_singleton. unfold home. lia.
    + intros [|t] b Hb; [injection Hb as <-; reflexivity|discriminate Hb].
    + intros b _ Hb. symmetry. apply fn_lookup_insert_ne. intros E. apply Hb. rewrite <- E. constructor.
  - exists k'. split; [exact E|]. rewrite Hh by (unfold home; lia). apply fn_lookup_insert.
Defined.

(** C15: commit() is atomic with respect to crashes. For a transaction on
    blocks [bs] with fewer than NBUF blocks and an empty log on disk, commit()
    returns with the new contents of all blocks in place and the log empty.
    If the machine stops after any number of its disk writes, and recovery
    then stops any number of times in the same way, the next complete
    recovery succeeds and leaves either all blocks outside the log as they
    were before commit(), or all of them with the contents of the
    transaction. *)
Theorem commit_crash_atomic c i pr st nl bs k lg :
  at_rest c i pr st nl bs k bs lg → NoDup bs → bs ≠ [] → (length bs < NBUF)%nat →
  head_n (k.(fs).(disk).(dk_block) st) = 0 →
  ∃ k' ws, commit k = Ok tt k' ∧ k'.(fs).(disk).(dk_writes) = k.(fs).(disk).(dk_writes) ++ ws ∧
    k'.(fs).(log) = set_lh_n 0 k.(fs).(log) ∧
    (∀ b, home st nl b → k'.(fs).(disk).(dk_block) b = lg b) ∧ head_n (k'.(fs).(disk).(dk_block) st) = 0 ∧
    at_rest c i pr st nl [] k' [] k'.(fs).(disk).(dk_block) ∧
    ∀ p d k1, p `prefix_of` ws →
      relations.rtc (interrupted st nl k.(fs).(disk).(disksize)) (over p k.(fs).(disk).(dk_block)) d →
      booted st nl k.(fs).(disk).(disksize) d k1 →
      ∃ k2, recover_from_log k1 = Ok tt k2 ∧
        ((∀ b, home st nl b → k2.(fs).(disk).(dk_block) b = k.(fs).(disk).(dk_block) b) ∨
         (∀ b, home st nl b → k2.(fs).(disk).(dk_block) b = lg b)).
Proof.
  intros Hr Hnd Hne Hlt Hempty. set (d0 := k.(fs).(disk).(dk_block)) in *. set (size := k.(fs).(disk).(disksize)).
  pose proof Hr as [_ Hc _ Htx]. pose proof Htx as [(G1 & G2 & G3) (L1 & L2) Hh]. fold size in Htx.
  assert (Hroom : room [] bs) by (exists bs; split; [intros b [Hb|?]; [by apply elem_of_nil in Hb|done]|done]).
  assert (Hlg : ∀ b, b ∉ bs → lg b = d0 b) by (intros b Hb; apply (co_clean _ _ _ _ _ Hc); [apply not_elem_of_nil|done]).
  assert (Hlen : Z.of_nat (length (lg st)) = BSIZE) by (by rewrite (co_size _ _ _ _ _ Hc)).
  assert (Hclean : ∀ b, home st nl b → b ∉ bs → d0 b = lg b) by (intros b _ Hb; by rewrite Hlg).
  destruct (commit_ok _ _ _ _ _ _ _ _ Hr Hnd Hroom Hne) as (k' & E & M & El & R & Ed).
  assert (Hd' : k'.(fs).(disk).(dk_block) = over (commit_writes st lg bs) d0) by (by rewrite Ed, write_all_block).
  destruct (crash_done st nl size bs d0 lg Htx Hlen Hclean) as [Hn' _ _ _ Ho'].
  exists k', (commit_writes st lg bs). rewrite Hd'. split_and!; try done.
  - by rewrite Ed, write_all_writes.
  - intros b Hb. apply Ho'; [done|apply not_elem_of_nil].
  - rewrite <- Hd', <- (at_rest_clean _ _ _ _ _ _ _ _ R). exact R.
  - intros p d k1 Hp Hrtc Hb.
    assert (Hf : ∃ f, recoverable st nl size d f ∧ (f = d0 ∨ f = lg)).
    { destruct (crash_cases st nl size bs d0 lg Htx Hempty Hlen Hclean p Hp) as [H|H]; [exists d0|exists lg]; (split; [|auto]);
        clear Hb; induction Hrtc; auto; apply IHHrtc; by eapply interrupted_recoverable. }
    destruct Hf as (f & Hf & Hff). destruct (booted_recovers _ _ _ _ _ _ Hb Hf) as (k2 & bs2 & Hp2 & E2 & Ed2 & _).
    exists k2. split; [done|]. pose proof (booted_len _ _ _ _ _ st Hb) as Hl. destruct Hb as [_ [Hd _]].
    rewrite Ed2, write_all_block, Hd. destruct (recovered_disk _ _ _ _ _ _ Hp2 Hl) as [_ Hhome].
    destruct Hff as [-> | ->]; auto.
Qed.

Lemma commit_crash_atomic_witness :
  ∃ k', commit (demo_open demo_zero 2 30) = Ok tt k' ∧ k'.(fs).(disk).(dk_block) 41 = <[0%nat := 7]> (replicate 512 0).
Proof.
  destruct (demo_open_ok demo_zero 2 30 (λ _, eq_refl) eq_refl ltac:(lia) ltac:(lia) eq_refl) as [Hr Ed].
  destruct (commit_crash_atomic 0 0 demo_pr 2 30 (blocks_of (demo_updates 2) []) (demo_open demo_zero 2 30)
              (updated (demo_updates 2) demo_zero.(dk_block)) Hr) as (k' & ws & E & _ & _ & Hh & _).
  - apply (bool_decide_unpack _). vm_compute. exact I.
  - discriminate.
  - apply Nat.ltb_lt. vm_compute. reflexivity.
  - rewrite Ed. reflexivity.
  - exists k'. split; [exact E|]. rewrite Hh by (unfold home; lia). reflexivity.
Defined.

(** C14: the log makes a system call's changes to the disk atomic. A process
    that runs begin_op(), changes blocks through bread(), log_write() and
    brelse(), at most MAXOPBLOCKS of them, and then end_op(), finishes without
    panic or blocking; every block outside the log then has its new contents
    on disk and in the cache, the log is empty, and if the machine stops after
    any of the disk writes, recovery restores either the contents before the
    call or those after it. *)
Theorem transaction_atomic c i pr st nl k us :
  let d := k.(fs).(disk).(dk_block) in let size := k.(fs).(disk).(disksize) in
  at_rest c i pr st nl [] k [] d → k.(fs).(log).(lg_outstanding) = 0 → k.(fs).(log).(lg_committing) = 0 → head_n (d st) = 0 →
  Forall (update_fits st nl size) us → Z.of_nat (length (blocks_of us [])) <= MAXOPBLOCKS → MAXOPBLOCKS < nl - 1 →
  ∃ k' ws, transaction us k = Ok tt k' ∧ k'.(fs).(disk).(dk_writes) = k.(fs).(disk).(dk_writes) ++ ws ∧
    (∀ b, home st nl b → k'.(fs).(disk).(dk_block) b = updated us d b) ∧ head_n (k'.(fs).(disk).(dk_block) st) = 0 ∧
    at_rest c i pr st nl [] k' [] k'.(fs).(disk).(dk_block) ∧
    k'.(fs).(log).(lg_outstanding) = 0 ∧ k'.(fs).(log).(lg_committing) = 0 ∧
    ∀ p, p `prefix_of` ws → recoverable st nl size (over p d) d ∨ recoverable st nl size (over p d) (updated us d).
Proof.
  intros d size Hr Ho Hm Hempty Hu Hn Hnl.
  destruct (opened_ok _ _ _ _ _ _ us _ Hr Ho Hm Hu) as (k2 & E2 & Ed2 & Hr2 & Ho2 & Hm2); [by apply few_fit|].
  set (bs := blocks_of us []) in *. set (lg := updated us d) in *.
  assert (Hnd : NoDup bs) by (apply (proj2 (blocks_of_grow us [])), NoDup_nil_2).
  destruct (end_op_ok c i pr st nl k2 bs lg Hr2 Hnd) as (k3 & E3 & R3 & Hr3 & Ed3 & Ho3 & Hm3);
    [change MAXOPBLOCKS with 10 in Hn; unfold NBUF; lia|done|done|].
  pose proof (ar_tx _ _ _ _ _ _ _ _ _ Hr2) as Htx2. rewrite Ed2 in Htx2. fold size in Htx2.
  pose proof (ar_cache _ _ _ _ _ _ _ _ _ Hr2) as Hc2.
  assert (Hlen : Z.of_nat (length (lg st)) = BSIZE) by (by rewrite (co_size _ _ _ _ _ Hc2)).
  assert (Hclean : ∀ b, home st nl b → b ∉ bs → d b = lg b).
  { intros b _ Hb. symmetry. rewrite (co_clean _ _ _ _ _ Hc2) by (apply not_elem_of_nil || done). by rewrite Ed2. }
  assert (Hd3 : k3.(fs).(disk).(dk_block) = over (tx_writes st lg bs) d) by (by rewrite Ed3, write_all_block, Ed2).
  destruct (tx_crash st nl size bs d lg Htx2 Hempty Hlen Hclean) as [Hq Hcrash].
  exists k3, (tx_writes st lg bs). rewrite Hd3. split_and!; try done.
  - unfold transaction. apply bind_Ok_inv in E2 as ([] & k1 & E1 & E2). mstep by exact E1. mstep by exact E2. exact E3.
  - by rewrite Ed3, write_all_writes, Ed2.
  - intros b Hb. apply Hq; [done|apply not_elem_of_nil].
  - apply Hq.
  - rewrite <- Hd3, <- (at_rest_clean _ _ _ _ _ _ _ _ Hr3). exact Hr3.
Qed.

Lemma transaction_atomic_witness :
  ∃ k', transaction (demo_updates 2) (demo_boot demo_zero 30) = Ok tt k' ∧
    k'.(fs).(disk).(dk_block) 41 = <[0%nat := 7]> (replicate 512 0).
Proof.
  destruct (demo_boot_ok demo_zero 30 (λ _, eq_refl) ltac:(lia) ltac:(cbn; lia)) as [Hr Ed].
  destruct (transaction_atomic 0 0 demo_pr 2 30 (demo_boot demo_zero 30) (demo_updates 2)) as (k' & ws & E & _ & Hh & _).
  - rewrite Ed. exact Hr.
  - reflexivity.
  - reflexivity.
  - rewrite Ed. reflexivity.
  - rewrite Ed. apply demo_updates_fit; lia.
  - apply Z.leb_le. vm_compute. reflexivity.
  - apply Z.ltb_lt. reflexivity.
  - exists k'. split; [exact E|]. rewrite Hh by (unfold home; lia). rewrite Ed. reflexivity.
Defined.

(** ** A transaction that fills the cache *)

(** With NBUF blocks modified every buffer is one of theirs. *)
Lemma all_pinned x pid_ bs lg n v :
  cache_ok x pid_ [] bs lg → NoDup bs → length bs = NBUF → x.(bufs) !! n = Some v →
  v.(b_dev) = DISKDEV ∧ v.(b_blockno) ∈ bs ∧ evictable x n = false.
Proof.
  intros Hc Hnd Hlen Hv. set (B := b_blockno <$> x.(bufs)).
  assert (HB : ∀ b, b ∈ bs → ∃ m, buf_at x m b ∧ B !! m = Some b).
  { intros b Hb. destruct (co_in _ _ _ _ _ Hc b (or_intror Hb)) as (m & w & Hw & Hd & E). exists m. split; [by exists w|].
    unfold B. rewrite list_lookup_fmap, Hw. cbn. by rewrite E. }
  assert (HP : bs ≡ₚ B).
  { apply submseteq_length_Permutation; [|unfold B; rewrite length_fmap, (co_len _ _ _ _ _ Hc); lia].
    apply NoDup_submseteq; [done|]. intros b (m & _ & Hm)%HB. by eapply list_elem_of_lookup_2. }
  assert (Hn : B !! n = Some v.(b_blockno)) by (unfold B; by rewrite list_lookup_fmap, Hv).
  assert (Hin : v.(b_blockno) ∈ bs) by (rewrite HP; by eapply list_elem_of_lookup_2).
  destruct (HB _ Hin) as (m & (w & Hw & Hd & E) & Hm).
  assert (HndB : NoDup B) by (by rewrite <- HP).
  assert (m = n) as -> by (by eapply NoDup_lookup).
  rewrite Hv in Hw. injection Hw as <-. split_and!; [done|done|]. unfold evictable. rewrite Hv.
  destruct (co_buf _ _ _ _ _ Hc n v Hv) as [(Hd0 & _)|(_ & _ & _ & Hf & _)]; [rewrite Hd0 in Hd; done|].
  rewrite Hf, decide_True by done. apply andb_false_r.
Qed.

(** bget() with no buffer to evict. *)
Lemma bget_full k c i pr dev b L :
  env k c i pr → L ≡ₚ seq 0 NBUF → length k.(fs).(bufs) = NBUF → chain (nextf k.(fs)) (prevf k.(fs)) BHead L BHead →
  List.find (matches k.(fs) dev b) L = None → List.find (evictable k.(fs)) (reverse L) = None →
  ∃ k', bget dev b k = Err (Panic "bget: no buffers") k'.
Proof.
  intros He HL Hlen Hch Hfind Hvic. pose proof (en_proc _ _ _ _ He) as [Hat _ _ _].
  destruct (ring_range k L HL Hlen) as (Hr & Hl & _). unfold bget.
  mstep by (apply (acquire_ok _ c 0); [done|lia|apply He]). set (k1 := set_hw _ k).
  mstep by (apply (next_of_ok k1); done). mstep by (by apply (hit_scan k1 dev b L BHead)).
  change (fs k1) with k.(fs). rewrite Hfind.
  mstep by (apply (prev_of_ok k1); done). mstep by (by apply (victim_scan k1 _ L BHead)).
  change (fs k1) with k.(fs). rewrite Hvic. by eexists.
Qed.


