(* ===== verification/Inode.v ===== *)
(** * fs.c: blocks and inodes

    The block allocator (bitmap blocks), the inode cache, the on-disk inode
    (struct dinode, 64 bytes) and the map from file blocks to disk blocks. A
    pointer to a cached inode is its index in icache.inode, null is [None]. *)
From S2P Require Import Prelude.
From S2P Require Import Kernel.
From S2P Require Import Spinlock.
From S2P Require Import Memory.
From S2P Require Import Cprintf.
From S2P Require Import Sched.
From S2P Require Import SchedProps.
From S2P Require Import Sleeplock.
From S2P Require Import Bio.
From S2P Require Import Log.

(** ** Constants (fs.h, stat.h) *)

Definition T_DIR : Z := 1.
Definition T_FILE : Z := 2.
Definition T_DEV : Z := 3.

Definition DINODE : Z := 64.  (* sizeof(struct dinode) *)
Definition IPB : Z := BSIZE / DINODE.
Definition IBLOCK (i : Z) (sb_ : superblock) : Z := u32 (i / IPB + sb_.(sb_inodestart)).
Definition BPB : Z := BSIZE * 8.
Definition BBLOCK (b : Z) (sb_ : superblock) : Z := u32 (b / BPB + sb_.(sb_bmapstart)).

Definition get_sb : K superblock := get (λ k, k.(fs).(sb)).

(** ** Blocks *)

Definition bzero (dv bno : Z) : K unit :=
  bp ← bread (u32 dv) (u32 bno);
  buf_upd bp (set_b_data (replicate (Z.to_nat BSIZE) 0));;
  log_write bp;;
  brelse bp.

(** The first bit from [bi] on that is clear, below [n] more bits and below
    the end of the file system. *)
Fixpoint bit_search (n : nat) (bi : Z) (d : list Z) (b size : Z) : option Z :=
  match n with
  | O => None
  | S n' =>
      if negb (b + bi <? size) then None else
      if Z.land (nth (Z.to_nat (bi / 8)) d 0) (Z.shiftl 1 (bi `mod` 8)) =? 0 then Some bi
      else bit_search n' (bi + 1) d b size
  end.

(** The body of the outer loop of balloc(). *)
Definition balloc_turn (dv b : Z) : K (Z + Z) :=
  sb_ ← get_sb;
  if negb (b <? sb_.(sb_size)) then panic "balloc: out of blocks" else
  bp ← bread dv (BBLOCK b sb_);
  d ← buf_data bp;
  match bit_search (Z.to_nat BPB) 0 d b sb_.(sb_size) with
  | Some bi =>
      let m := Z.shiftl 1 (bi `mod` 8) in
      buf_upd bp (λ x, set_b_data (alter (λ v, u8 (Z.lor v m)) (Z.to_nat (bi / 8)) x.(b_data)) x);;
      log_write bp;;
      brelse bp;;
      bzero dv (b + bi);;
      mret (inr (b + bi))
  | None =>
      brelse bp;;
      mret (inl (b + BPB))
  end.

Definition balloc (dv : Z) : K Z :=
  sb_ ← get_sb;
  while_fuel (Z.to_nat (sb_.(sb_size) / BPB + 2)) (balloc_turn dv) 0.

Definition bfree (dv b : Z) : K unit :=
  sb_ ← get_sb;
  bp ← bread (u32 dv) (BBLOCK b sb_);
  let bi := b `mod` BPB in
  let m := Z.shiftl 1 (bi `mod` 8) in
  d ← buf_data bp;
  v ← byte_at d (bi / 8);
  if Z.land v m =? 0 then panic "freeing free block" else
  buf_upd bp (λ x, set_b_data (alter (λ v, u8 (Z.land v (Z.lnot m))) (Z.to_nat (bi / 8)) x.(b_data)) x);;
  log_write bp;;
  brelse bp.

(** ** The inode cache *)

Definition ino_get (i : nat) : K inode := λ k,
  match k.(fs).(inodes) !! i with
  | Some x => Ok x k
  | None => Err (CpuFault "icache.inode") k
  end.

Definition alter_ino (i : nat) (f : inode → inode) (x : fsys) : fsys := set_inodes (alter f i x.(inodes)) x.
Definition ino_upd (i : nat) (f : inode → inode) : K unit := upd_fs (alter_ino i f).

(** Using a null inode pointer faults. *)
Definition deref {A} (p : option A) : K A := λ k,
  match p with
  | Some x => Ok x k
  | None => Err (CpuFault "null pointer") k
  end.

Definition iinit (dv : Z) : K unit :=
  initlock LIcache "icache";;
  for_acc NINODE 0 (λ i _, initsleeplock (SInode i) "inode") tt;;
  sb_ ← readsb dv;
  upd_fs (set_sb sb_);;
  cprintf ("sb: size %d nblocks %d ninodes %d nlog %d logstart %d inodestart %d bmap start %d" +:+ nl)
    [AInt sb_.(sb_size); AInt sb_.(sb_nblocks); AInt sb_.(sb_ninodes); AInt sb_.(sb_nlog);
     AInt sb_.(sb_logstart); AInt sb_.(sb_inodestart); AInt sb_.(sb_bmapstart)].

(** One step of the scan of iget(): the entry found, or the first empty one. *)
Definition iget_scan (dv inum : Z) (i : nat) (empty : option nat) (x : inode) : option nat + unit :=
  if (0 <? x.(i_ref)) && (x.(i_dev) =? dv) && (x.(i_inum) =? inum) then inr tt
  else inl (match empty with
            | None => if x.(i_ref) =? 0 then Some i else None
            | Some e => Some e
            end).

(** The loop of iget(): [inr] is the cached entry, [inl] the empty slot. *)
Fixpoint iget_loop (n i : nat) (dv inum : Z) (empty : option nat) : K (option nat + nat) :=
  match n with
  | O => mret (inl empty)
  | S n' =>
      x ← ino_get i;
      match iget_scan dv inum i empty x with
      | inr _ => mret (inr i)
      | inl e => iget_loop n' (S i) dv inum e
      end
  end.

Definition iget (dv inum : Z) : K nat :=
  acquire LIcache;;
  r ← iget_loop NINODE 0 dv inum None;
  match r with
  | inr i =>
      ino_upd i (λ x, set_i_ref (s32 (x.(i_ref) + 1)) x);;
      release LIcache;;
      mret i
  | inl None => panic "iget: no inodes"
  | inl (Some i) =>
      ino_upd i (set_i_dev dv);;
      ino_upd i (set_i_inum inum);;
      ino_upd i (set_i_ref 1);;
      ino_upd i (set_i_valid 0);;
      release LIcache;;
      mret i
  end.

(** ** On-disk inodes *)

(** Where the struct dinode of inode [inum] starts in its block. *)
Definition dino_off (inum : Z) : Z := inum `mod` IPB * DINODE.

(** A new on-disk inode of type [type]: memset(dip, 0, ...), dip->type = type. *)
Definition new_dinode (off type : Z) (d : list Z) : list Z :=
  put_half off type (splice d (Z.to_nat off) (replicate (Z.to_nat DINODE) 0)).

(** The body of the loop of ialloc(). *)
Definition ialloc_turn (dv type inum : Z) : K (Z + nat) :=
  sb_ ← get_sb;
  if negb (inum <? sb_.(sb_ninodes)) then panic "ialloc: no inodes" else
  bp ← bread dv (IBLOCK inum sb_);
  d ← buf_data bp;
  if s16 (half_at d (dino_off inum)) =? 0 then
    buf_upd bp (λ x, set_b_data (new_dinode (dino_off inum) type x.(b_data)) x);;
    log_write bp;;
    brelse bp;;
    i ← iget dv inum;
    mret (inr i)
  else
    brelse bp;;
    mret (inl (inum + 1)).

Definition ialloc (dv type : Z) : K nat :=
  sb_ ← get_sb;
  while_fuel (Z.to_nat (sb_.(sb_ninodes) + 1)) (ialloc_turn dv type) 1.

(** The on-disk image of a cached inode. *)
Definition put_dinode (off : Z) (x : inode) (d : list Z) : list Z :=
  put_words (off + 12) x.(i_addrs)
    (put_word (off + 8) x.(i_size) (put_half (off + 6) x.(i_nlink) (put_half (off + 4) x.(i_minor)
      (put_half (off + 2) x.(i_major) (put_half off x.(i_type) d))))).

(** A cached inode filled from its on-disk image. *)
Definition get_dinode (off : Z) (d : list Z) (x : inode) : inode :=
  mk_inode x.(i_dev) x.(i_inum) x.(i_ref) x.(i_valid)
    (s16 (half_at d off)) (s16 (half_at d (off + 2))) (s16 (half_at d (off + 4))) (s16 (half_at d (off + 6)))
    (word_at d (off + 8)) ((λ j, word_at d (off + 12 + 4 * Z.of_nat j)) <$> seq 0 13).

Definition iupdate (ip : nat) : K unit :=
  x ← ino_get ip;
  sb_ ← get_sb;
  bp ← bread x.(i_dev) (IBLOCK x.(i_inum) sb_);
  x ← ino_get ip;
  buf_upd bp (λ b, set_b_data (put_dinode (dino_off x.(i_inum)) x b.(b_data)) b);;
  log_write bp;;
  brelse bp.

Definition idup (ip : option nat) : K nat :=
  acquire LIcache;;
  i ← deref ip;
  ino_upd i (λ x, set_i_ref (s32 (x.(i_ref) + 1)) x);;
  release LIcache;;
  mret i.

Definition ilock (ip : option nat) : K unit :=
  match ip with
  | None => panic "ilock"
  | Some i =>
      x ← ino_get i;
      if x.(i_ref) <? 1 then panic "ilock" else
      acquiresleep (SInode i);;
      x ← ino_get i;
      if negb (x.(i_valid) =? 0) then mret tt else
      sb_ ← get_sb;
      bp ← bread x.(i_dev) (IBLOCK x.(i_inum) sb_);
      d ← buf_data bp;
      ino_upd i (get_dinode (dino_off x.(i_inum)) d);;
      brelse bp;;
      ino_upd i (set_i_valid 1);;
      x ← ino_get i;
      if x.(i_type) =? 0 then panic "ilock: no type" else mret tt
  end.

Definition iunlock (ip : option nat) : K unit :=
  match ip with
  | None => panic "iunlock"
  | Some i =>
      h ← holdingsleep (SInode i);
      if negb h then panic "iunlock" else
      x ← ino_get i;
      if x.(i_ref) <? 1 then panic "iunlock" else
      releasesleep (SInode i)
  end.

(** ** File blocks *)

Definition addr_get (ip : nat) (i : Z) : K Z :=
  x ← ino_get ip;
  byte_at x.(i_addrs) i.

Definition addr_set (ip : nat) (i v : Z) : K unit :=
  ino_upd ip (λ x, set_i_addrs (<[Z.to_nat i := v]> x.(i_addrs)) x).

(** ip->addrs[i], allocated if it is 0. *)
Definition addr_alloc (ip : nat) (i : Z) : K Z :=
  addr ← addr_get ip i;
  if addr =? 0 then
    x ← ino_get ip;
    addr ← balloc x.(i_dev);
    addr_set ip i addr;;
    mret addr
  else mret addr.

Definition bmap (ip : nat) (bn : Z) : K Z :=
  if bn <? NDIRECT then addr_alloc ip bn else
  let bn := bn - NDIRECT in
  if bn <? NINDIRECT then
    addr ← addr_alloc ip NDIRECT;
    x ← ino_get ip;
    bp ← bread x.(i_dev) addr;
    d ← buf_data bp;
    let addr := word_at d (4 * bn) in
    addr ← (if addr =? 0 then
        x ← ino_get ip;
        addr ← balloc x.(i_dev);
        buf_upd bp (λ b, set_b_data (put_word (4 * bn) addr b.(b_data)) b);;
        log_write bp;;
        mret addr
      else mret addr);
    brelse bp;;
    mret addr
  else panic "bmap: out of range".

Definition itrunc (ip : nat) : K unit :=
  for_acc (Z.to_nat NDIRECT) 0 (λ i _,
    a ← addr_get ip (Z.of_nat i);
    when (truth a) (
      x ← ino_get ip;
      bfree x.(i_dev) a;;
      addr_set ip (Z.of_nat i) 0)) tt;;
  a ← addr_get ip NDIRECT;
  when (truth a) (
    x ← ino_get ip;
    bp ← bread x.(i_dev) a;
    for_acc (Z.to_nat NINDIRECT) 0 (λ j _,
      d ← buf_data bp;
      let aj := word_at d (4 * Z.of_nat j) in
      when (truth aj) (x ← ino_get ip; bfree x.(i_dev) aj)) tt;;
    brelse bp;;
    x ← ino_get ip;
    a ← addr_get ip NDIRECT;
    bfree x.(i_dev) a;;
    addr_set ip NDIRECT 0);;
  ino_upd ip (set_i_size 0);;
  iupdate ip.

Definition iput (ip : option nat) : K unit :=
  i ← deref ip;
  acquiresleep (SInode i);;
  x ← ino_get i;
  when (truth x.(i_valid) && (x.(i_nlink) =? 0)) (
    acquire LIcache;;
    r ← (x ← ino_get i; mret x.(i_ref));
    release LIcache;;
    when (r =? 1) (
      itrunc i;;
      ino_upd i (set_i_type 0);;
      iupdate i;;
      ino_upd i (set_i_valid 0)));;
  releasesleep (SInode i);;
  acquire LIcache;;
  ino_upd i (λ x, set_i_ref (s32 (x.(i_ref) - 1)) x);;
  release LIcache.

Definition iunlockput (ip : option nat) : K unit :=
  iunlock ip;;
  iput ip.
