(* ===== verification/InodeProps.v ===== *)
(** * fs.c: on-disk inodes, bitmap and file blocks

    The inode code of Inode.v run by one process inside a transaction: what
    iupdate() stores is what ilock() reads back, and the block allocator hands
    out each free block once. *)
From S2P Require Import Prelude.
From S2P Require Import Kernel.
From S2P Require Import Spinlock.
From S2P Require Import Sched.
From S2P Require Import SchedProps.
From S2P Require Import Sleeplock.
From S2P Require Import Bio.
From S2P Require Import BioProps.
From S2P Require Import Log.
From S2P Require Import LogProps.
From S2P Require Import Inode.

(** ** struct dinode *)


(** The fields of a cached inode have their C types. *)
Record dino_ok (x : inode) : Prop := {
  di_type : is_s16 x.(i_type);
  di_major : is_s16 x.(i_major);
  di_minor : is_s16 x.(i_minor);
  di_nlink : is_s16 x.(i_nlink);
  di_size : is_u32 x.(i_size);
  di_len : length x.(i_addrs) = 13%nat;
  di_addrs : Forall is_u32 x.(i_addrs);
}.

(** [y] with the on-disk fields of [x]. *)
Definition filled (x y : inode) : inode :=
  mk_inode y.(i_dev) y.(i_inum) y.(i_ref) y.(i_valid) x.(i_type) x.(i_major) x.(i_minor) x.(i_nlink) x.(i_size) x.(i_addrs).

(** Read past stores to other bytes. *)
Ltac apart_rw :=
  repeat first
    [ rewrite word_at_splice_ne by (unfold apart; cbn [length word_bytes half_bytes]; lia)
    | rewrite half_at_splice_ne by (unfold apart; cbn [length word_bytes half_bytes]; lia) ].

Lemma s16_u16 z : is_s16 z → s16 (u16 z) = z.
Proof. unfold is_s16, s16, u16. change (2 ^ 15) with 32768. change (2 ^ 16) with 65536. intros. Z.to_euclidean_division_equations. lia. Qed.

Section dinode.
  Context (off : Z) (x : inode) (d : list Z).
  Hypothesis Hx : dino_ok x.
  Hypothesis Hoff : 0 <= off.
  Hypothesis Hd : off + DINODE <= Z.of_nat (length d).

Lemma half_put_dinode j v d' : 0 <= j → j + 2 <= Z.of_nat (length d') → is_s16 v → s16 (half_at (put_half j v d') j) = v.
Proof using. intros Hj Hl Hv. rewrite half_at_put by done. by apply s16_u16. Qed.

Lemma get_put_dinode y : get_dinode off (put_dinode off x d) y = filled x y.
Proof using All.
  change DINODE with 64 in Hd. destruct Hx as [H1 H2 H3 H4 H5 H6 H7]. unfold get_dinode, put_dinode, filled.
  f_equal.
  - rewrite put_words_half_ne by (unfold apart; lia). unfold put_word, put_half. apart_rw.
    apply half_put_dinode; rewrite ?length_splice; lia || done.
  - rewrite put_words_half_ne by (unfold apart; lia). unfold put_word, put_half. apart_rw.
    apply half_put_dinode; rewrite ?length_splice; lia || done.
  - rewrite put_words_half_ne by (unfold apart; lia). unfold put_word, put_half. apart_rw.
    apply half_put_dinode; rewrite ?length_splice; lia || done.
  - rewrite put_words_half_ne by (unfold apart; lia). unfold put_word, put_half. apart_rw.
    apply half_put_dinode; rewrite ?length_splice; lia || done.
  - rewrite put_words_ne by (unfold apart; lia). rewrite word_at_put by (rewrite ?length_put_half; lia). by apply u32_small.
  - apply list_eq. intros t. rewrite list_lookup_fmap. destruct (x.(i_addrs) !! t) as [a|] eqn:Ea.
    + pose proof (lookup_lt_Some _ _ _ Ea). rewrite lookup_seq_lt by lia. cbn [fmap option_fmap option_map Nat.add].
      rewrite (put_words_eq _ _ _ t a) by (rewrite ?length_put_word, ?length_put_half; lia || done).
      f_equal. rewrite Forall_forall in H7. apply u32_small, H7. by eapply list_elem_of_lookup_2.
    + by rewrite lookup_seq_ge by (apply lookup_ge_None_1 in Ea; lia).
Qed.

(** The other inodes of the block are untouched. *)
Lemma get_put_dinode_ne off' y : apart off 64 off' 64 → get_dinode off' (put_dinode off x d) y = get_dinode off' d y.
Proof using Hx Hoff.
  intros (Ha1 & Ha2 & Ha3). pose proof (di_len _ Hx). unfold get_dinode, put_dinode.
  f_equal; [..|apply list_fmap_ext; intros j t [Ht Hj]%lookup_seq];
    rewrite ?put_words_half_ne, ?put_words_ne by (unfold apart; lia); unfold put_word, put_half; by apart_rw.
Qed.

Lemma length_put_dinode : length (put_dinode off x d) = length d.
Proof using. unfold put_dinode. by rewrite length_put_words, length_put_word, !length_put_half. Qed.

End dinode.

(** ** iupdate() and ilock() *)

Section inode_ops.
  Context (c i : nat) (pr : proc) (st nl : Z).

Lemma bread_inodes k b n k' bs lg : at_rest c i pr st nl bs k bs lg → (length bs < NBUF)%nat →
  0 <= b < k.(fs).(disk).(disksize) → bread DISKDEV b k = Ok n k' →
  got k c pr.(pid) [] bs lg b n k'.
Proof using.
  intros [He Hc _ _] Hn Hb E. destruct (bread_ok k c i pr [] bs lg b) as (n' & k1 & E1 & G); [done|done|done|apply not_elem_of_nil| |].
  { left. exists bs. split; [|done]. intros x [Hx|?]; [by apply elem_of_nil in Hx|done]. }
  rewrite E in E1. by injection E1 as -> ->.
Qed.

Lemma bread_work H k b n k' bs lg : at_work c i pr st nl H bs k lg → b ∉ H → (length H + length bs < NBUF)%nat →
  0 <= b < k.(fs).(disk).(disksize) → bread DISKDEV b k = Ok n k' → got k c pr.(pid) H bs lg b n k'.
Proof using.
  intros [He Hc _ _] HbH Hn Hb E. destruct (bread_ok k c i pr H bs lg b) as (n' & k1 & E1 & G); [done|done|done|done|left; by apply work_room|].
  rewrite E in E1. by injection E1 as -> ->.
Qed.

Lemma iupdate_ok k bs lg ip x :
  let b := IBLOCK x.(i_inum) k.(fs).(sb) in
  at_rest c i pr st nl bs k bs lg → k.(fs).(inodes) !! ip = Some x → x.(i_dev) = DISKDEV →
  0 <= b < k.(fs).(disk).(disksize) → home st nl b →
  1 <= k.(fs).(log).(lg_outstanding) → (length bs < NBUF)%nat → Z.of_nat (length bs) < nl - 1 →
  ∃ k', iupdate ip k = Ok tt k' ∧ fs_run k c k' ∧ k'.(fs).(disk) = k.(fs).(disk) ∧
    at_rest c i pr st nl (with_block b bs) k' (with_block b bs) (<[b := put_dinode (dino_off x.(i_inum)) x (lg b)]> lg) ∧
    k'.(fs).(log).(lg_outstanding) = k.(fs).(log).(lg_outstanding) ∧
    k'.(fs).(log).(lg_committing) = k.(fs).(log).(lg_committing).
Proof using.
  intros b Hr Hx Hdev Hb Hh Ho Hn1 Hn2.
  destruct (update_ok c i pr st nl k bs lg b (put_dinode (dino_off x.(i_inum)) x)) as (k' & E & R); try done.
  { rewrite length_put_dinode. apply (co_size _ _ _ _ _ (ar_cache _ _ _ _ _ _ _ _ _ Hr)). }
  exists k'. split; [|done]. unfold update in E. apply bind_Ok_inv in E as (n & k1 & E1 & E2).
  pose proof (bread_inodes _ _ _ _ _ _ Hr Hn1 Hb E1) as G. unfold iupdate, ino_get.
  mstep by (by rewrite Hx). mstep. rewrite Hdev. mstep by exact E1.
  destruct (gt_rest _ _ _ _ _ _ _ _ _ G) as (Ei & _). mstep by (by rewrite Ei, Hx). exact E2.
Qed.

(** ilock() of an inode that is not in memory yet. *)
Lemma ilock_ok k bs lg jp y :
  let b := IBLOCK y.(i_inum) k.(fs).(sb) in
  let y' := set_i_valid 1 (get_dinode (dino_off y.(i_inum)) (lg b) y) in
  at_rest c i pr st nl bs k bs lg → k.(fs).(inodes) !! jp = Some y → y.(i_dev) = DISKDEV → 1 <= y.(i_ref) → y.(i_valid) = 0 →
  (k.(fs).(slocks) (SInode jp)).(sl_locked) = 0 → y'.(i_type) ≠ 0 →
  0 <= b < k.(fs).(disk).(disksize) → (length bs < NBUF)%nat →
  ∃ k', ilock (Some jp) k = Ok tt k' ∧ k'.(fs).(inodes) = <[jp := y']> k.(fs).(inodes) ∧
    (k'.(fs).(slocks) (SInode jp)).(sl_locked) = 1 ∧ (k'.(fs).(slocks) (SInode jp)).(sl_pid) = pr.(pid) ∧
    at_rest c i pr st nl bs k' bs lg ∧ k'.(fs).(disk) = k.(fs).(disk) ∧ fs_step c k k'.(fs) k'.
Proof using.
  intros b y' Hr Hy Hdev Href Hval Hsl Hty Hb Hn. pose proof Hr as [He Hc Hl Ht].
  set (s1 := mk_sleeplock 1 (k.(fs).(slocks) (SInode jp)).(sl_name) pr.(pid)).
  set (k1 := set_hw (touch c k.(hw)) (upd_sl (SInode jp) s1 k)).
  assert (Hr1 : at_rest c i pr st nl bs k1 bs lg).
  { split; [|by apply (cache_ok_frame k.(fs))|done|done].
    eapply env_step; [exact He|]. apply (fs_step_touch c k _ 0), He. }
  destruct (bread_ok k1 c i pr [] bs lg b) as (n & k2 & E2 & G2); [apply Hr1|apply Hr1|done|apply not_elem_of_nil| |].
  { left. exists bs. split; [|done]. intros x [Hx|?]; [by apply elem_of_nil in Hx|done]. }
  pose proof (gt_rest _ _ _ _ _ _ _ _ _ G2) as (Ei & El & Es & Esl). change (k1.(fs).(inodes)) with k.(fs).(inodes) in Ei.
  pose proof (got_move _ _ _ _ _ _ _ _ _ G2) as M2.
  set (g := get_dinode (dino_off y.(i_inum)) (lg b)).
  set (k3 := set_fs (alter_ino jp g k2.(fs)) k2).
  assert (He3 : env k3 c i pr).
  { eapply env_step; [eapply env_move; [apply Hr1|exact M2]|]. apply fs_step_here. }
  destruct (brelse_ok k3 c i pr n b [] bs lg) as (k4 & E4 & K4 & Hc4 & Ed4).
  { done. }
  { apply (cache_ok_frame k2.(fs)); [done..|apply G2]. }
  { apply not_elem_of_nil. }
  { apply G2. }
  { destruct (decide (b ∈ bs)); [by left|right]. change (k3.(fs).(disk)) with k2.(fs).(disk). rewrite (gt_disk _ _ _ _ _ _ _ _ _ G2).
    apply (co_clean _ _ _ _ _ Hc); [apply not_elem_of_nil|done]. }
  pose proof (kp_rest _ _ _ K4) as (Ei4 & El4 & Es4 & Esl4).
  assert (Hi4 : k4.(fs).(inodes) !! jp = Some (g y)).
  { rewrite Ei4. cbn. by rewrite list_lookup_alter_eq, Ei, Hy. }
  exists (set_fs (alter_ino jp (set_i_valid 1) k4.(fs)) k4). split_and!.
  - unfold ilock, ino_get. mstep by (by rewrite Hy). rewrite (proj2 (Z.ltb_ge _ _)) by lia.
    mstep by (apply (acquiresleep_ok k c i pr); [apply He|apply He|done]). fold s1 k1.
    mstep by (change (inodes (fs k1)) with k.(fs).(inodes); by rewrite Hy). rewrite Hval. change (negb (0 =? 0)) with false. cbn iota.
    mstep. change (sb (fs k1)) with k.(fs).(sb). rewrite Hdev. fold b. mstep by exact E2.
    mstep by (unfold buf_data; apply (buf_data_ok k2 n b pr.(pid) [b] bs lg); [apply G2|constructor|apply G2]).
    mstep. fold g k3. mstep by exact E4. mstep. mstep by (cbn; by rewrite list_lookup_alter_eq, Hi4).
    fold y'. by rewrite (proj2 (Z.eqb_neq _ _)).
  - cbn. apply list_eq. intros m. destruct (decide (m = jp)) as [->|Hm].
    + rewrite list_lookup_alter_eq, Hi4, list_lookup_insert_eq; [done|by eapply lookup_lt_Some].
    + rewrite list_lookup_alter_ne, Ei4 by done. cbn. by rewrite list_lookup_alter_ne, Ei, list_lookup_insert_ne.
  - cbn. rewrite Esl4. cbn. rewrite Esl. cbn. by rewrite fn_lookup_insert.
  - cbn. rewrite Esl4. cbn. rewrite Esl. cbn. by rewrite fn_lookup_insert.
  - split.
    + eapply env_step; [eapply env_step; [exact He3|apply K4]|]. apply fs_step_here.
    + by apply (cache_ok_frame k4.(fs)).
    + cbn. rewrite El4. cbn. by rewrite El.
    + cbn. rewrite Ed4. change (k3.(fs).(disk)) with k2.(fs).(disk). by rewrite (gt_disk _ _ _ _ _ _ _ _ _ G2).
  - cbn. rewrite Ed4. change (k3.(fs).(disk)) with k2.(fs).(disk). by rewrite (gt_disk _ _ _ _ _ _ _ _ _ G2).
  - eapply fs_step_trans; [apply (fs_step_touch c k k1.(fs) 0), He|]. eapply fs_step_trans; [apply G2|].
    eapply fs_step_trans; [apply (fs_step_here c k2 k3.(fs))|]. eapply fs_step_trans; [apply K4|]. apply fs_step_here.
Qed.

End inode_ops.

Lemma dino_off_range inum : 0 <= inum → 0 <= dino_off inum ∧ dino_off inum + DINODE <= BSIZE.
Proof. unfold dino_off, DINODE, IPB, BSIZE. intros H. change (512 / DINODE) with 8. Z.to_euclidean_division_equations. lia. Qed.

Lemma dino_off_apart a b : 0 <= a → 0 <= b → a `mod` IPB ≠ b `mod` IPB → apart (dino_off a) 64 (dino_off b) 64.
Proof. unfold apart, dino_off, DINODE, IPB, BSIZE. change (512 / DINODE) with 8. intros Ha Hb Hne. Z.to_euclidean_division_equations. lia. Qed.

(** C18: an inode survives its way to the disk and back. When iupdate() has
    stored a cached inode, ilock() of any cache entry for the same inode number
    reads back its type, device numbers, link count, size and block addresses
    unchanged, and holds the entry's lock; the other inodes of the block and
    all other blocks keep their contents. *)
Theorem iupdate_ilock_roundtrip c i pr st nl k bs lg ip jp x y :
  let b := IBLOCK x.(i_inum) k.(fs).(sb) in
  at_rest c i pr st nl bs k bs lg → k.(fs).(inodes) !! ip = Some x → k.(fs).(inodes) !! jp = Some y →
  dino_ok x → x.(i_type) ≠ 0 → x.(i_dev) = DISKDEV → 0 <= x.(i_inum) →
  y.(i_dev) = DISKDEV → y.(i_inum) = x.(i_inum) → 1 <= y.(i_ref) → y.(i_valid) = 0 →
  (k.(fs).(slocks) (SInode jp)).(sl_locked) = 0 →
  0 <= b < k.(fs).(disk).(disksize) → home st nl b →
  1 <= k.(fs).(log).(lg_outstanding) → (S (length bs) < NBUF)%nat → Z.of_nat (length bs) < nl - 1 →
  ∃ k' lg', (iupdate ip;; ilock (Some jp)) k = Ok tt k' ∧
    k'.(fs).(inodes) !! jp = Some (set_i_valid 1 (filled x y)) ∧
    (k'.(fs).(slocks) (SInode jp)).(sl_locked) = 1 ∧ (k'.(fs).(slocks) (SInode jp)).(sl_pid) = pr.(pid) ∧
    at_rest c i pr st nl (with_block b bs) k' (with_block b bs) lg' ∧
    (∀ b', b' ≠ b → lg' b' = lg b') ∧
    (∀ inum z, 0 <= inum → inum `mod` IPB ≠ x.(i_inum) `mod` IPB →
       get_dinode (dino_off inum) (lg' b) z = get_dinode (dino_off inum) (lg b) z).
Proof.
  intros b Hr Hx Hy Hok Hty Hxd Hin Hyd Hyi Hyr Hyv Hsl Hb Hh Ho Hn1 Hn2. pose proof (dino_off_range _ Hin) as [Ho1 Ho2].
  assert (Hlen : Z.of_nat (length (lg b)) = BSIZE) by (by rewrite (co_size _ _ _ _ _ (ar_cache _ _ _ _ _ _ _ _ _ Hr))).
  destruct (iupdate_ok c i pr st nl k bs lg ip x) as (k1 & E1 & R1 & Ed1 & Hr1 & _); try done; [lia|]. fold b in Hr1.
  set (lg' := <[b := _]> lg) in Hr1.
  assert (Eg : ∀ z, get_dinode (dino_off x.(i_inum)) (lg' b) z = filled x z).
  { intros z. unfold lg'. rewrite fn_lookup_insert. apply get_put_dinode; [done|done|lia]. }
  assert (Eb : IBLOCK y.(i_inum) k1.(fs).(sb) = b) by (by rewrite Hyi, (fr_sb _ _ _ R1)).
  destruct (ilock_ok c i pr st nl k1 (with_block b bs) lg' jp y) as (k2 & E2 & Ei2 & Hl1 & Hl2 & Hr2 & Ed2 & _);
    rewrite ?Eb, ?Hyi, ?Eg; try done.
  - by rewrite (fr_inodes _ _ _ R1).
  - by rewrite (fr_slocks _ _ _ R1).
  - by rewrite (fr_size _ _ _ R1).
  - unfold with_block. case_bool_decide; [lia|]. rewrite length_app. cbn. lia.
  - exists k2, lg'. rewrite Eb, Hyi, Eg in Ei2. split_and!; try done.
    + mstep by exact E1. exact E2.
    + rewrite Ei2, (fr_inodes _ _ _ R1). apply list_lookup_insert_eq. by eapply lookup_lt_Some.
    + intros b' Hne. unfold lg'. by rewrite fn_lookup_insert_ne.
    + intros inum z Hi Hm. unfold lg'. rewrite fn_lookup_insert. apply get_put_dinode_ne; [done|done|].
      apply dino_off_apart; [done|done|]. by apply not_eq_sym.
Qed.

(** A file inode in memory, and an entry for the same inode not yet read. *)
Definition demo_ino : inode := mk_inode 1 9 1 1 T_FILE 0 0 (-1) 70000 (replicate 12 50 ++ [4294967295]).
Definition demo_ino0 : inode := mk_inode 1 9 1 0 0 0 0 0 0 (replicate 13 0).

Lemma at_rest_frame c i pr st nl bs k D lg y :
  y.(bufs) = k.(fs).(bufs) → y.(bhead_prev) = k.(fs).(bhead_prev) → y.(bhead_next) = k.(fs).(bhead_next) →
  y.(disk) = k.(fs).(disk) → y.(log) = k.(fs).(log) → (∀ n, y.(slocks) (SBuf n) = k.(fs).(slocks) (SBuf n)) →
  at_rest c i pr st nl bs k D lg → at_rest c i pr st nl bs (set_fs y k) D lg.
Proof.
  intros E1 E2 E3 E4 E5 E6 [He Hc Hl Ht]. split; cbn [fs set_fs].
  - eapply env_step; [exact He|]. apply fs_step_here.
  - by apply (cache_ok_frame k.(fs)).
  - by rewrite E5.
  - by rewrite E4.
Qed.

(** The kernel [k] with super block [b] and these inodes. *)
Definition with_inodes (b : superblock) (l : list inode) (k : kernel) : kernel := set_fs (set_sb b (set_inodes l k.(fs))) k.

Lemma with_inodes_rest c i pr st nl bs k D lg b l :
  at_rest c i pr st nl bs k D lg → at_rest c i pr st nl bs (with_inodes b l k) D lg.
Proof. by apply at_rest_frame. Qed.

Lemma with_inodes_disk b l k : (with_inodes b l k).(fs).(disk) = k.(fs).(disk).
Proof. done. Qed.

Definition demo_inode : kernel := with_inodes (mk_superblock 100 50 64 30 2 32 40) [demo_ino; demo_ino0] (demo_open demo_zero 0 30).

Lemma iupdate_ilock_roundtrip_witness :
  ∃ k', (iupdate 0;; ilock (Some 1%nat)) demo_inode = Ok tt k' ∧
    k'.(fs).(inodes) !! 1%nat = Some (set_i_valid 1 (filled demo_ino demo_ino0)).
Proof.
  destruct (demo_open_ok demo_zero 0 30 (λ _, eq_refl) eq_refl ltac:(lia) ltac:(lia) eq_refl) as [Hr Ed].
  destruct (iupdate_ilock_roundtrip 0 0 demo_pr 2 30 demo_inode [] demo_zero.(dk_block) 0 1 demo_ino demo_ino0) as (k' & lg' & E & Hi & _).
  - exact (with_inodes_rest _ _ _ _ _ _ _ _ _ _ _ Hr).
  - reflexivity.
  - reflexivity.
  - split; [unfold is_s16; cbn; change (2 ^ 15) with 32768; unfold T_FILE; lia..|unfold is_u32; cbn; lia|reflexivity|].
    repeat (constructor; [unfold is_u32; lia|]). constructor.
  - discriminate.
  - reflexivity.
  - cbn. lia.
  - reflexivity.
  - reflexivity.
  - cbn. lia.
  - reflexivity.
  - vm_compute. reflexivity.
  - unfold demo_inode. rewrite with_inodes_disk, Ed. split; [vm_compute; discriminate|vm_compute; reflexivity].
  - right. vm_compute. discriminate.
  - vm_compute. discriminate.
  - apply Nat.ltb_lt. reflexivity.
  - cbn. lia.
  - exists k'. split; [exact E|exact Hi].
Defined.

(** ** The block bitmap *)

(** Bit [j] of a bitmap block. *)
Definition bit_of (d : list Z) (j : Z) : bool := Z.testbit (nth (Z.to_nat (j / 8)) d 0) (j `mod` 8).

(** Is block [b] marked in use? *)
Definition in_use (s : superblock) (lg : Z → list Z) (b : Z) : bool := bit_of (lg (BBLOCK b s)) (b `mod` BPB).

Lemma mask_test v m : 0 <= m → (Z.land v (Z.shiftl 1 m) =? 0) = negb (Z.testbit v m).
Proof.
  intros Hm. rewrite Z.shiftl_1_l. destruct (Z.testbit v m) eqn:E; cbn [negb].
  - apply Z.eqb_neq. intros H. apply (f_equal (λ z, Z.testbit z m)) in H.
    rewrite Z.land_spec, Z.pow2_bits_true, E, Z.bits_0 in H by done. done.
  - apply Z.eqb_eq. apply Z.bits_inj_0. intros n. rewrite Z.land_spec. destruct (decide (n = m)) as [->|].
    + by rewrite E.
    + by rewrite Z.pow2_bits_false, andb_false_r by done.
Qed.

Lemma bit_search_spec n : ∀ bi d b size, 0 <= bi →
  match bit_search n bi d b size with
  | Some r => bi <= r < bi + Z.of_nat n ∧ b + r < size ∧ bit_of d r = false ∧ ∀ j, bi <= j < r → bit_of d j = true
  | None => ∀ j, bi <= j < bi + Z.of_nat n → b + j < size → bit_of d j = true
  end.
Proof.
  induction n as [|n IH]; intros bi d b size Hbi; cbn [bit_search]; [lia|].
  destruct (Z.ltb_spec (b + bi) size) as [Hlt|Hge]; cbn [negb]; [|intros j Hj1 Hj2; lia].
  rewrite mask_test by (apply Z.mod_pos_bound; lia). fold (bit_of d bi). destruct (bit_of d bi) eqn:Eb; cbn [negb].
  - specialize (IH (bi + 1) d b size ltac:(lia)). destruct (bit_search n (bi + 1) d b size) as [r|].
    + destruct IH as (H1 & H2 & H3 & H4). split_and!; try done; try lia. intros j Hj. destruct (decide (j = bi)) as [->|]; [done|apply H4; lia].
    + intros j Hj1 Hj2. destruct (decide (j = bi)) as [->|]; [done|apply IH; lia].
  - split_and!; try done; lia.
Qed.

(** A bit set or cleared. *)
Definition set_bit (j : Z) (d : list Z) : list Z := alter (λ v, u8 (Z.lor v (Z.shiftl 1 (j `mod` 8)))) (Z.to_nat (j / 8)) d.
Definition clear_bit (j : Z) (d : list Z) : list Z := alter (λ v, u8 (Z.land v (Z.lnot (Z.shiftl 1 (j `mod` 8))))) (Z.to_nat (j / 8)) d.

Lemma testbit_u8 v m : 0 <= m < 8 → Z.testbit (u8 v) m = Z.testbit v m.
Proof. intros Hm. rewrite u8_mod. by rewrite Z.mod_pow2_bits_low by lia. Qed.

Lemma bit_of_alter d j j' f :
  0 <= j → 0 <= j' → j / 8 < Z.of_nat (length d) → 
  bit_of (alter f (Z.to_nat (j / 8)) d) j' =
    if decide (j' / 8 = j / 8) then Z.testbit (f (nth (Z.to_nat (j / 8)) d 0)) (j' `mod` 8) else bit_of d j'.
Proof.
  intros Hj Hj' Hl. unfold bit_of. rewrite !nth_lookup. destruct (decide (j' / 8 = j / 8)) as [->|Hne].
  - destruct (lookup_lt_is_Some_2 d (Z.to_nat (j / 8)) ltac:(pose proof (Z.div_pos j 8); lia)) as [v Hv]. by rewrite list_lookup_alter_eq, Hv.
  - rewrite list_lookup_alter_ne; [done|]. pose proof (Z.div_pos j 8). pose proof (Z.div_pos j' 8). lia.
Qed.

Lemma set_bit_spec d j j' : 0 <= j → 0 <= j' → j / 8 < Z.of_nat (length d) →
  bit_of (set_bit j d) j' = bool_decide (j' = j) || bit_of d j'.
Proof.
  intros Hj Hj' Hl. unfold set_bit. rewrite bit_of_alter by done. pose proof (Z.mod_pos_bound j' 8). pose proof (Z.mod_pos_bound j 8).
  destruct (decide (j' / 8 = j / 8)) as [E|Hne].
  - rewrite testbit_u8, Z.lor_spec, Z.shiftl_1_l by lia. unfold bit_of. rewrite E, orb_comm. f_equal.
    rewrite Z.pow2_bits_eqb by lia. case_bool_decide as Hb; [subst; apply Z.eqb_refl|]. apply Z.eqb_neq. intros E2.
    apply Hb. pose proof (Z.div_mod j' 8). pose proof (Z.div_mod j 8). lia.
  - rewrite bool_decide_false; [done|]. intros ->. done.
Qed.

Lemma clear_bit_spec d j j' : 0 <= j → 0 <= j' → j / 8 < Z.of_nat (length d) →
  bit_of (clear_bit j d) j' = negb (bool_decide (j' = j)) && bit_of d j'.
Proof.
  intros Hj Hj' Hl. unfold clear_bit. rewrite bit_of_alter by done. pose proof (Z.mod_pos_bound j' 8). pose proof (Z.mod_pos_bound j 8).
  destruct (decide (j' / 8 = j / 8)) as [E|Hne].
  - rewrite testbit_u8, Z.land_spec, Z.lnot_spec, Z.shiftl_1_l by lia. unfold bit_of. rewrite E, andb_comm. f_equal. f_equal.
    rewrite Z.pow2_bits_eqb by lia. case_bool_decide as Hb; [subst; apply Z.eqb_refl|]. apply Z.eqb_neq. intros E2.
    apply Hb. pose proof (Z.div_mod j' 8). pose proof (Z.div_mod j 8). lia.
  - rewrite bool_decide_false; [done|]. intros ->. done.
Qed.

(** ** balloc() and bfree() *)

(** The bitmap covers the file system, its blocks are outside the log, and
    only data blocks are ever free. *)
Record map_ok (s : superblock) (st nl size : Z) (lg : Z → list Z) : Prop := {
  mo_size : 0 <= s.(sb_size) < 2 ^ 31;
  mo_maps : ∀ b, 0 <= b < s.(sb_size) → 0 <= BBLOCK b s < size ∧ home st nl (BBLOCK b s);
  mo_free : ∀ b, 0 <= b < s.(sb_size) → in_use s lg b = false → b < size ∧ home st nl b ∧ ∀ b', 0 <= b' < s.(sb_size) → b ≠ BBLOCK b' s;
}.

Section bitmap.
  Context (c i : nat) (pr : proc) (st nl : Z).

(** Looking at a block changes nothing. *)
Lemma peek_work H k bs lg b : at_work c i pr st nl H bs k lg → b ∉ H → (length H + length bs < NBUF)%nat → 0 <= b < k.(fs).(disk).(disksize) →
  ∃ n k1 k2, bread DISKDEV b k = Ok n k1 ∧ buf_data n k1 = Ok (lg b) k1 ∧ brelse n k1 = Ok tt k2 ∧
    fs_move k c k2 ∧ at_work c i pr st nl H bs k2 lg ∧ k2.(fs).(disk) = k.(fs).(disk) ∧ stay H k k2.
Proof using.
  intros Hr HbH Hn Hb. pose proof Hr as [He Hc Hl Ht].
  destruct (bread_ok k c i pr H bs lg b) as (n & k1 & E1 & G1); [done|done|done|done|left; by apply work_room|].
  pose proof (got_move _ _ _ _ _ _ _ _ _ G1) as M1.
  destruct (brelse_ok k1 c i pr n b H bs lg) as (k2 & E2 & K2 & Hc2 & Ed2); [by eapply env_move|apply G1|done|apply G1| |].
  { destruct (decide (b ∈ bs)); [by left|right]. rewrite (gt_disk _ _ _ _ _ _ _ _ _ G1). by apply (co_clean _ _ _ _ _ Hc). }
  assert (M2 : fs_move k c k2) by (eapply fs_move_trans; [done|by apply kept_move]).
  exists n, k1, k2. split_and!; [done| |done|done| |by rewrite Ed2; apply G1|].
  - unfold buf_data. apply (buf_data_ok k1 n b pr.(pid) (b :: H) bs lg); [apply G1|constructor|apply G1].
  - pose proof M2 as [_ (_ & El & _) Es]. split; [by eapply env_move|done|by rewrite El|by rewrite Es].
  - intros m b' Hb' Hm. apply (kp_at _ _ _ K2). by apply (gt_keep _ _ _ _ _ _ _ _ _ G1).
Qed.

Lemma peek_ok k bs lg b : at_rest c i pr st nl bs k bs lg → (length bs < NBUF)%nat → 0 <= b < k.(fs).(disk).(disksize) →
  ∃ n k1 k2, bread DISKDEV b k = Ok n k1 ∧ buf_data n k1 = Ok (lg b) k1 ∧ brelse n k1 = Ok tt k2 ∧
    fs_move k c k2 ∧ at_rest c i pr st nl bs k2 bs lg ∧ k2.(fs).(disk) = k.(fs).(disk).
Proof using.
  intros Hr%work_rest Hn Hb. destruct (peek_work [] k bs lg b Hr (not_elem_of_nil _) Hn Hb) as (n & k1 & k2 & E1 & E2 & E3 & M & Hw%work_rest & Ed & _).
  by exists n, k1, k2.
Qed.

(** The bitmap block and bit of a block. *)
Lemma map_index s b t : 0 <= t → t * BPB <= b < t * BPB + BPB → BBLOCK b s = BBLOCK (t * BPB) s ∧ b `mod` BPB = b - t * BPB.
Proof using.
  intros Ht Hb. assert (E : b / BPB = t) by (symmetry; apply (Z.div_unique _ _ _ (b - t * BPB)); [left|]; unfold BPB, BSIZE in *; lia).
  split.
  - unfold BBLOCK. rewrite E, Z.div_mul by (unfold BPB, BSIZE; lia). done.
  - pose proof (Z.div_mod b BPB). unfold BPB, BSIZE in *. lia.
Qed.

Lemma search_found d b size f : b <= f < b + BPB → f < size → bit_of d (f - b) = false →
  (∀ j, 0 <= j < f - b → bit_of d j = true) → bit_search (Z.to_nat BPB) 0 d b size = Some (f - b).
Proof using.
  intros Hf Hs Hbit Hall. pose proof (bit_search_spec (Z.to_nat BPB) 0 d b size ltac:(lia)) as H.
  destruct (bit_search _ 0 d b size) as [r|].
  - destruct H as (H1 & H2 & H3 & H4). f_equal. destruct (Z.lt_trichotomy r (f - b)) as [Hr|[Hr|Hr]]; [|done|].
    + rewrite Hall in H3 by lia. done.
    + rewrite H4 in Hbit by lia. done.
  - rewrite H in Hbit; [done|unfold BPB, BSIZE in *; lia|lia].
Qed.

Lemma search_none d b size : (∀ j, 0 <= j < BPB → b + j < size → bit_of d j = true) →
  bit_search (Z.to_nat BPB) 0 d b size = None.
Proof using.
  intros Hall. pose proof (bit_search_spec (Z.to_nat BPB) 0 d b size ltac:(lia)) as H.
  destruct (bit_search _ 0 d b size) as [r|]; [|done]. destruct H as (H1 & H2 & H3 & _).
  rewrite Hall in H3; [done|unfold BPB, BSIZE in *; lia|done].
Qed.

(** The state after block [f] has been taken. *)
Definition taken (s : superblock) (f : Z) (lg : Z → list Z) : Z → list Z :=
  <[f := replicate (Z.to_nat BSIZE) 0]> (<[BBLOCK f s := set_bit (f `mod` BPB) (lg (BBLOCK f s))]> lg).

Definition taken_blocks (s : superblock) (f : Z) (bs : list Z) : list Z := with_block f (with_block (BBLOCK f s) bs).

Lemma length_with_block b bs : (length bs <= length (with_block b bs) <= S (length bs))%nat.
Proof using. unfold with_block. case_bool_decide; [lia|]. rewrite length_app. cbn. lia. Qed.

(** The bits of a bitmap block below the first free block. *)
Lemma map_bit s lg t j f : 0 <= t → 0 <= j < BPB → t * BPB + j < f → (∀ b, 0 <= b < f → in_use s lg b = true) →
  bit_of (lg (BBLOCK (t * BPB) s)) j = true.
Proof using.
  intros Ht Hj Hf Hall. destruct (map_index s (t * BPB + j) t Ht ltac:(lia)) as [E1 E2].
  specialize (Hall (t * BPB + j) ltac:(unfold BPB, BSIZE in *; lia)). unfold in_use in Hall. rewrite E1, E2 in Hall.
  by replace (t * BPB + j - t * BPB) with j in Hall by lia.
Qed.

(** A turn of balloc() at a bitmap block with a free block. *)
Lemma balloc_turn_found H k bs lg t f :
  let s := k.(fs).(sb) in
  at_work c i pr st nl H bs k lg → map_ok s st nl k.(fs).(disk).(disksize) lg → (∀ b, 0 <= b < s.(sb_size) → BBLOCK b s ∉ H) → 1 <= k.(fs).(log).(lg_outstanding) →
  (length H + S (length bs) < NBUF)%nat → Z.of_nat (S (length bs)) < nl - 1 →
  0 <= t → t * BPB <= f < t * BPB + BPB → f < s.(sb_size) → in_use s lg f = false → f ∉ H →
  (∀ b, 0 <= b < f → in_use s lg b = true) →
  ∃ k', balloc_turn DISKDEV (t * BPB) k = Ok (inr f) k' ∧ fs_run k c k' ∧ k'.(fs).(disk) = k.(fs).(disk) ∧
    at_work c i pr st nl H (taken_blocks s f bs) k' (taken s f lg) ∧
    k'.(fs).(log).(lg_outstanding) = k.(fs).(log).(lg_outstanding) ∧ k'.(fs).(log).(lg_committing) = k.(fs).(log).(lg_committing) ∧ stay H k k'.
Proof using.
  intros s Hr [Hsz Hmaps Hfree] HbH Ho Hn1 Hn2 Ht Hf Hfs Huse HfH Hall. destruct (map_index s f t Ht Hf) as [Ebm Emod].
  assert (Hf0 : 0 <= f) by (unfold BPB, BSIZE in *; lia). destruct (Hfree f ltac:(lia) Huse) as (Hfd & Hfh & Hfb).
  destruct (Hmaps f ltac:(lia)) as [Hbr Hbh]. set (bm := BBLOCK f s) in *.
  assert (Hlen : ∀ b, length (lg b) = Z.to_nat BSIZE) by apply (co_size _ _ _ _ _ (aw_cache _ _ _ _ _ _ _ _ _ Hr)).
  destruct (update_work c i pr st nl H k bs lg bm (set_bit (f `mod` BPB))) as (k1 & E1 & R1 & Ed1 & Hr1 & Ho1 & Hm1 & St1);
    [done|apply HbH; lia|done|done|unfold set_bit; by rewrite length_alter|done|lia|lia|].
  pose proof (length_with_block bm bs).
  destruct (update_work c i pr st nl H k1 (with_block bm bs) _ f (λ _, replicate (Z.to_nat BSIZE) 0) Hr1) as (k2 & E2 & R2 & Ed2 & Hr2 & Ho2 & Hm2 & St2);
    [done|rewrite Ed1; lia|done|by rewrite length_replicate|lia|lia|lia|].
  exists k2. split_and!; [|by eapply fs_run_trans|congruence|exact Hr2|congruence|congruence|intros m b Hb Hm; apply St2, St1; done].
  unfold update in E1. apply bind_Ok_inv in E1 as (n & k0 & Eb & E1).
  pose proof (bread_work c i pr st nl H k bm n k0 bs lg Hr (HbH f ltac:(lia)) ltac:(lia) Hbr Eb) as G.
  unfold balloc_turn. mstep. change (sb (fs k)) with s. rewrite (proj2 (Z.ltb_lt _ _)) by (unfold BPB, BSIZE in *; lia). cbn [negb].
  rewrite <- Ebm. fold bm. mstep by exact Eb.
  mstep by (unfold buf_data; apply (buf_data_ok k0 n bm pr.(pid) (bm :: H) bs lg); [apply G|constructor|apply G]).
  rewrite (search_found _ _ _ f); [|done|done| |].
  - rewrite <- Emod. apply bind_Ok_inv in E1 as ([] & k01 & E11 & E1). mstep by exact E11.
    apply bind_Ok_inv in E1 as ([] & k02 & E12 & E1). mstep by exact E12. mstep by exact E1.
    replace (t * BPB + f `mod` BPB) with f by lia. unfold bzero. change (u32 DISKDEV) with DISKDEV. rewrite (u32_small f) by (unfold is_u32; lia).
    mstep by exact E2. done.
  - rewrite <- Emod. exact Huse.
  - intros j Hj. rewrite Ebm. apply (map_bit s lg t j f); [done|lia|lia|done].
Qed.

(** A turn at a bitmap block whose blocks are all in use. *)
Lemma balloc_turn_full H k bs lg t :
  let s := k.(fs).(sb) in
  at_work c i pr st nl H bs k lg → map_ok s st nl k.(fs).(disk).(disksize) lg → (∀ b, 0 <= b < s.(sb_size) → BBLOCK b s ∉ H) → (length H + length bs < NBUF)%nat →
  0 <= t → t * BPB < s.(sb_size) → (∀ b, 0 <= b < t * BPB + BPB → b < s.(sb_size) → in_use s lg b = true) →
  ∃ k', balloc_turn DISKDEV (t * BPB) k = Ok (inl ((t + 1) * BPB)) k' ∧ fs_move k c k' ∧
    at_work c i pr st nl H bs k' lg ∧ k'.(fs).(disk) = k.(fs).(disk) ∧ stay H k k'.
Proof using.
  intros s Hr [Hsz Hmaps _] HbH Hn Ht Hts Hall. destruct (Hmaps (t * BPB) ltac:(unfold BPB, BSIZE in *; lia)) as [Hbr _].
  destruct (peek_work H k bs lg _ Hr (HbH (t * BPB) ltac:(unfold BPB, BSIZE in *; lia)) Hn Hbr) as (n & k1 & k2 & E1 & E2 & E3 & M & Hr2 & Ed & St).
  exists k2. split_and!; [|done|done|done|done]. unfold balloc_turn. mstep. change (sb (fs k)) with s.
  rewrite (proj2 (Z.ltb_lt _ _)) by lia. cbn [negb]. mstep by exact E1. mstep by exact E2. rewrite search_none.
  - mstep by exact E3. replace ((t + 1) * BPB) with (t * BPB + BPB) by lia. done.
  - intros j Hj Hs. apply (map_bit s lg t j (t * BPB + j + 1)); [done|done|lia|]. intros b Hb. apply Hall; lia.
Qed.

Lemma balloc_loop H fuel k bs lg t f :
  let s := k.(fs).(sb) in
  at_work c i pr st nl H bs k lg → map_ok s st nl k.(fs).(disk).(disksize) lg → (∀ b, 0 <= b < s.(sb_size) → BBLOCK b s ∉ H) → 1 <= k.(fs).(log).(lg_outstanding) →
  (length H + S (length bs) < NBUF)%nat → Z.of_nat (S (length bs)) < nl - 1 →
  0 <= t → t * BPB <= f < s.(sb_size) → in_use s lg f = false → f ∉ H → (∀ b, 0 <= b < f → in_use s lg b = true) →
  f / BPB - t < Z.of_nat fuel →
  ∃ k', while_fuel fuel (balloc_turn DISKDEV) (t * BPB) k = Ok f k' ∧ fs_run k c k' ∧ k'.(fs).(disk) = k.(fs).(disk) ∧
    at_work c i pr st nl H (taken_blocks s f bs) k' (taken s f lg) ∧
    k'.(fs).(log).(lg_outstanding) = k.(fs).(log).(lg_outstanding) ∧ k'.(fs).(log).(lg_committing) = k.(fs).(log).(lg_committing) ∧ stay H k k'.
Proof using.
  revert k t. induction fuel as [|fuel IH]; intros k t s Hr Hm HbH Ho Hn1 Hn2 Ht Hf Huse HfH Hall Hfuel.
  - assert (HB : 0 < BPB) by done. pose proof (Z.div_le_lower_bound f BPB t HB ltac:(lia)). lia.
  - cbn [while_fuel]. destruct (Z.lt_ge_cases f (t * BPB + BPB)) as [Hin|Hout].
    + destruct (balloc_turn_found H k bs lg t f Hr Hm HbH Ho Hn1 Hn2 Ht ltac:(split; [apply Hf|exact Hin])) as (k' & E & R); [apply Hf|done|done|done|].
      exists k'. split; [|done]. mstep by exact E. done.
    + destruct (balloc_turn_full H k bs lg t Hr Hm HbH ltac:(lia) Ht) as (k1 & E1 & M1 & Hr1 & Ed1 & St1); [unfold BPB, BSIZE in *; fold s; lia| |].
      { intros b Hb _. apply Hall. lia. }
      pose proof (fm_rest _ _ _ M1) as (_ & El & Es & _).
      destruct (IH k1 (t + 1)) as (k2 & E2 & R2 & Ed2 & Hr2 & Ho2 & Hc2 & St2); rewrite ?Es, ?Ed1, ?El; fold s; try done; try lia.
      rewrite Es in Hr2. rewrite El in Ho2, Hc2.
      exists k2. split_and!; [|eapply fs_run_trans; [by apply move_run|done]|congruence|done|done|done|intros m b Hb Hm'; apply St2, St1; done].
      mstep by exact E1. exact E2.
Qed.

Lemma balloc_loop_none H fuel k bs lg t :
  let s := k.(fs).(sb) in
  at_work c i pr st nl H bs k lg → map_ok s st nl k.(fs).(disk).(disksize) lg → (∀ b, 0 <= b < s.(sb_size) → BBLOCK b s ∉ H) → (length H + length bs < NBUF)%nat →
  0 <= t → (∀ b, 0 <= b < s.(sb_size) → in_use s lg b = true) → s.(sb_size) / BPB + 1 - t < Z.of_nat fuel → (0 < fuel)%nat →
  ∃ k', while_fuel fuel (balloc_turn DISKDEV) (t * BPB) k = Err (Panic "balloc: out of blocks") k'.
Proof using.
  revert k t. induction fuel as [|fuel IH]; intros k t s Hr Hm HbH Hn Ht Hall Hfuel H0; [lia|].
  cbn [while_fuel]. destruct (Z.lt_ge_cases (t * BPB) s.(sb_size)) as [Hin|Hout].
  - destruct (balloc_turn_full H k bs lg t Hr Hm HbH Hn Ht Hin) as (k1 & E1 & M1 & Hr1 & Ed1 & _).
    { intros b Hb Hs. apply Hall. split; [lia|exact Hs]. }
    pose proof (fm_rest _ _ _ M1) as (_ & El & Es & _).
    assert (HB : 0 < BPB) by done. pose proof (Z.div_le_lower_bound s.(sb_size) BPB t HB ltac:(lia)).
    destruct (IH k1 (t + 1)) as (k2 & E2); rewrite ?Es, ?Ed1; fold s; try done; try lia.
    exists k2. mstep by exact E1. exact E2.
  - exists k. apply bind_Err. unfold balloc_turn. mstep. fold s. by rewrite (proj2 (Z.ltb_ge _ _)).
Qed.

(** bfree() as a change of the bitmap block. *)
Lemma bfree_ok k bs lg b :
  let s := k.(fs).(sb) in
  at_rest c i pr st nl bs k bs lg → map_ok s st nl k.(fs).(disk).(disksize) lg → 1 <= k.(fs).(log).(lg_outstanding) →
  (length bs < NBUF)%nat → Z.of_nat (length bs) < nl - 1 → 0 <= b < s.(sb_size) →
  (in_use s lg b = true → ∃ k', bfree DISKDEV b k = Ok tt k' ∧ fs_run k c k' ∧ k'.(fs).(disk) = k.(fs).(disk) ∧
     at_rest c i pr st nl (with_block (BBLOCK b s) bs) k' (with_block (BBLOCK b s) bs)
       (<[BBLOCK b s := clear_bit (b `mod` BPB) (lg (BBLOCK b s))]> lg)) ∧
  (in_use s lg b = false → ∃ k', bfree DISKDEV b k = Err (Panic "freeing free block") k').
Proof using.
  intros s Hr [Hsz Hmaps _] Ho Hn1 Hn2 Hb. destruct (Hmaps b Hb) as [Hbr Hbh]. set (bm := BBLOCK b s) in *.
  assert (Hlen : length (lg bm) = Z.to_nat BSIZE) by apply (co_size _ _ _ _ _ (ar_cache _ _ _ _ _ _ _ _ _ Hr)).
  assert (Hmod : 0 <= b `mod` BPB < BPB) by (by apply Z.mod_pos_bound).
  assert (Hidx : 0 <= b `mod` BPB / 8 < 512) by (unfold BPB, BSIZE in *; Z.to_euclidean_division_equations; lia).
  destruct (update_ok c i pr st nl k bs lg bm (clear_bit (b `mod` BPB))) as (k1 & E1 & R1 & Ed1 & Hr1 & _);
    [done|done|done|unfold clear_bit; by rewrite length_alter|done|done|done|].
  unfold update in E1. apply bind_Ok_inv in E1 as (n & k0 & Eb & E1).
  pose proof (bread_inodes c i pr st nl k bm n k0 bs lg Hr Hn1 Hbr Eb) as G.
  assert (Hrun : bfree DISKDEV b k = (if in_use s lg b then Ok tt k1 else Err (Panic "freeing free block") k0)).
  { unfold bfree. mstep. change (sb (fs k)) with s. change (u32 DISKDEV) with DISKDEV. fold bm. mstep by exact Eb.
    mstep by (unfold buf_data; apply (buf_data_ok k0 n bm pr.(pid) [bm] bs lg); [apply G|constructor|apply G]).
    destruct (lookup_lt_is_Some_2 (lg bm) (Z.to_nat (b `mod` BPB / 8))) as [v Hv]; [rewrite Hlen; unfold BSIZE; lia|].
    mstep by (unfold byte_at; rewrite Hv, (proj2 (Z.leb_le _ _)) by lia; done).
    rewrite mask_test by (apply Z.mod_pos_bound; lia).
    assert (Euse : in_use s lg b = Z.testbit v ((b `mod` BPB) `mod` 8)).
    { unfold in_use, bit_of. fold bm. by rewrite nth_lookup, Hv. }
    rewrite Euse. destruct (Z.testbit v _); [exact E1|done]. }
  split; intros Hu; rewrite Hrun, Hu; [|by exists k0]. exists k1. done.
Qed.

End bitmap.

(** ** What balloc() and bfree() do to the bitmap *)

Lemma BBLOCK_inj s a b : 0 <= a < 2 ^ 31 → 0 <= b < 2 ^ 31 → BBLOCK a s = BBLOCK b s → a `mod` BPB = b `mod` BPB → a = b.
Proof.
  intros Ha Hb E Em. unfold BBLOCK in E. assert (Ed : a / BPB = b / BPB).
  { assert (0 <= a / BPB < 2 ^ 20 ∧ 0 <= b / BPB < 2 ^ 20) as [? ?].
    { change (2 ^ 31) with 2147483648 in *. change (2 ^ 20) with 1048576. unfold BPB, BSIZE in *. Z.to_euclidean_division_equations. lia. }
    change (2 ^ 20) with 1048576 in *. rewrite !u32_mod in E. change (2 ^ 32) with 4294967296 in E.
    Z.to_euclidean_division_equations. lia. }
  rewrite (Z.div_mod a BPB), (Z.div_mod b BPB), Ed, Em by done. done.
Qed.

(** Setting or clearing the bit of [f] changes the mark of [f] only. *)
Lemma mark_bit s lg f b g v :
  0 <= f < 2 ^ 31 → 0 <= b < 2 ^ 31 → length (lg (BBLOCK f s)) = Z.to_nat BSIZE →
  (∀ j j', 0 <= j < BPB → 0 <= j' → bit_of (g j (lg (BBLOCK f s))) j' = if bool_decide (j' = j) then v else bit_of (lg (BBLOCK f s)) j') →
  in_use s (<[BBLOCK f s := g (f `mod` BPB) (lg (BBLOCK f s))]> lg) b = if bool_decide (b = f) then v else in_use s lg b.
Proof.
  intros Hf Hb Hl Hg. unfold in_use. assert (Hmod : ∀ z, 0 <= z `mod` BPB < BPB) by (intros z; by apply Z.mod_pos_bound).
  destruct (decide (BBLOCK b s = BBLOCK f s)) as [E|Hne].
  - rewrite E, fn_lookup_insert, Hg by apply Hmod. case_bool_decide as H1; case_bool_decide as H2; try done.
    + by apply (BBLOCK_inj s b f Hb Hf E) in H1.
    + by subst.
  - rewrite fn_lookup_insert_ne by done. rewrite bool_decide_false; [done|]. by intros ->.
Qed.

Lemma marked s lg f b : 0 <= f < 2 ^ 31 → 0 <= b < 2 ^ 31 → length (lg (BBLOCK f s)) = Z.to_nat BSIZE →
  in_use s (<[BBLOCK f s := set_bit (f `mod` BPB) (lg (BBLOCK f s))]> lg) b = if bool_decide (b = f) then true else in_use s lg b.
Proof.
  intros Hf Hb Hl. apply (mark_bit s lg f b set_bit true); try done. intros j j' Hj Hj'.
  rewrite set_bit_spec; [by case_bool_decide|lia|lia|rewrite Hl; unfold BPB, BSIZE in *; Z.to_euclidean_division_equations; lia].
Qed.

Lemma unmarked s lg f b : 0 <= f < 2 ^ 31 → 0 <= b < 2 ^ 31 → length (lg (BBLOCK f s)) = Z.to_nat BSIZE →
  in_use s (<[BBLOCK f s := clear_bit (f `mod` BPB) (lg (BBLOCK f s))]> lg) b = if bool_decide (b = f) then false else in_use s lg b.
Proof.
  intros Hf Hb Hl. apply (mark_bit s lg f b clear_bit false); try done. intros j j' Hj Hj'.
  rewrite clear_bit_spec; [by case_bool_decide|lia|lia|rewrite Hl; unfold BPB, BSIZE in *; Z.to_euclidean_division_equations; lia].
Qed.

(** C17: the block allocator. Inside a transaction balloc() returns the first
    block that the bitmap does not mark, marks it and only it, and leaves it
    filled with zeroes and every other block but the bitmap's untouched; it
    panics exactly when every block is marked. bfree() of a marked block
    clears its mark and only it, and panics on an unmarked block. *)
Theorem balloc_bfree c i pr st nl k bs lg :
  let s := k.(fs).(sb) in
  at_rest c i pr st nl bs k bs lg → map_ok s st nl k.(fs).(disk).(disksize) lg → 1 <= k.(fs).(log).(lg_outstanding) →
  (S (length bs) < NBUF)%nat → Z.of_nat (S (length bs)) < nl - 1 →
  (∀ f, 0 <= f < s.(sb_size) → in_use s lg f = false → (∀ b, 0 <= b < f → in_use s lg b = true) →
     ∃ k' lg', balloc DISKDEV k = Ok f k' ∧ at_rest c i pr st nl (taken_blocks s f bs) k' (taken_blocks s f bs) lg' ∧
       (∀ b, 0 <= b < s.(sb_size) → in_use s lg' b = if bool_decide (b = f) then true else in_use s lg b) ∧
       lg' f = replicate (Z.to_nat BSIZE) 0 ∧ ∀ b, b ≠ f → b ≠ BBLOCK f s → lg' b = lg b) ∧
  ((∀ b, 0 <= b < s.(sb_size) → in_use s lg b = true) → ∃ k', balloc DISKDEV k = Err (Panic "balloc: out of blocks") k') ∧
  (∀ f, 0 <= f < s.(sb_size) → in_use s lg f = true →
     ∃ k' lg', bfree DISKDEV f k = Ok tt k' ∧ at_rest c i pr st nl (with_block (BBLOCK f s) bs) k' (with_block (BBLOCK f s) bs) lg' ∧
       (∀ b, 0 <= b < s.(sb_size) → in_use s lg' b = if bool_decide (b = f) then false else in_use s lg b) ∧
       ∀ b, b ≠ BBLOCK f s → lg' b = lg b) ∧
  (∀ f, 0 <= f < s.(sb_size) → in_use s lg f = false → ∃ k', bfree DISKDEV f k = Err (Panic "freeing free block") k').
Proof.
  intros s Hr Hm Ho Hn1 Hn2. pose proof Hm as [Hsz Hmaps Hfree].
  assert (Hlen : ∀ b, length (lg b) = Z.to_nat BSIZE) by apply (co_size _ _ _ _ _ (ar_cache _ _ _ _ _ _ _ _ _ Hr)).
  split_and!.
  - intros f Hf Hu Hall. destruct (balloc_loop c i pr st nl [] (Z.to_nat (s.(sb_size) / BPB + 2)) k bs lg 0 f) as (k' & E & _ & _ & Hr'%work_rest & _);
      try done; [by apply work_rest|intros; apply not_elem_of_nil|apply not_elem_of_nil| |].
    { assert (HB : 0 < BPB) by done. pose proof (Z.div_le_mono f s.(sb_size) BPB HB ltac:(lia)). pose proof (Z.div_pos f BPB). lia. }
    exists k', (taken s f lg). split_and!; [unfold balloc; by mstep|done| |by unfold taken; rewrite fn_lookup_insert|].
    + intros b Hb. rewrite <- (marked s lg f b) by (lia || done). unfold taken. unfold in_use at 1.
      rewrite fn_lookup_insert_ne; [done|]. destruct (Hfree f Hf Hu) as (_ & _ & Hne). by apply Hne.
    + intros b Hbf Hbb. unfold taken. by rewrite !fn_lookup_insert_ne by done.
  - intros Hall. unfold balloc. mstep. fold s. apply (balloc_loop_none c i pr st nl [] _ k bs lg 0); try done; [by apply work_rest|intros; apply not_elem_of_nil|cbn; lia|..].
    + fold s. assert (0 <= s.(sb_size) / BPB) by (apply Z.div_pos; [lia|done]). lia.
    + assert (0 <= s.(sb_size) / BPB) by (apply Z.div_pos; [lia|done]). lia.
  - intros f Hf Hu. destruct (bfree_ok c i pr st nl k bs lg f) as [H _]; [done|done|done|lia|lia|done|].
    destruct (H Hu) as (k' & E & _ & _ & Hr'). eexists k', _. split_and!; [exact E|exact Hr'| |].
    + intros b Hb. by apply unmarked; [lia|lia|].
    + intros b Hb. by rewrite fn_lookup_insert_ne.
  - intros f Hf Hu. by apply (bfree_ok c i pr st nl k bs lg f); [done|done|done|lia|lia|done|].
Qed.

(** A disk whose bitmap, block 40, marks the blocks below 50. *)
Definition demo_bits : list Z := replicate 6 255 ++ [3] ++ replicate 505 0.
Definition demo_map : disk_t := mk_disk 100 (<[40 := demo_bits]> (λ _, replicate 512 0)) [].
Definition demo_sb : superblock := mk_superblock 60 10 64 30 2 32 40.
Definition demo_alloc : kernel := with_inodes demo_sb [] (demo_open demo_map 0 30).

Lemma demo_bit j : 0 <= j < 60 → bit_of demo_bits j = (j <? 50).
Proof.
  intros Hj. assert (Hall : forallb (λ n, eqb (bit_of demo_bits (Z.of_nat n)) (Z.of_nat n <? 50)) (seq 0 60) = true) by (vm_compute; reflexivity).
  rewrite forallb_forall in Hall. specialize (Hall (Z.to_nat j) ltac:(apply in_seq; lia)). rewrite Z2Nat.id in Hall by lia.
  by apply eqb_prop.
Qed.

Lemma demo_use b : 0 <= b < demo_sb.(sb_size) → BBLOCK b demo_sb = 40 ∧ in_use demo_sb demo_map.(dk_block) b = (b <? 50).
Proof.
  cbn [sb_size demo_sb]. intros Hb. assert (E : BBLOCK b demo_sb = 40).
  { unfold BBLOCK. rewrite Z.div_small by (unfold BPB, BSIZE; lia). done. }
  split; [done|]. unfold in_use. rewrite E, Z.mod_small by (unfold BPB, BSIZE; lia).
  unfold demo_map. cbn [dk_block]. rewrite fn_lookup_insert. by apply demo_bit.
Qed.

Lemma balloc_bfree_witness :
  ∃ k' k'', balloc DISKDEV demo_alloc = Ok 50 k' ∧ bfree DISKDEV 49 demo_alloc = Ok tt k''.
Proof.
  assert (Hl : ∀ b, length (demo_map.(dk_block) b) = Z.to_nat BSIZE).
  { intros b. unfold demo_map. cbn [dk_block]. destruct (decide (b = 40)) as [->|].
    - rewrite fn_lookup_insert. reflexivity.
    - rewrite fn_lookup_insert_ne by done. reflexivity. }
  destruct (demo_open_ok demo_map 0 30 Hl eq_refl ltac:(lia) ltac:(lia) eq_refl) as [Hr Ed].
  assert (Esb : demo_alloc.(fs).(sb) = demo_sb) by reflexivity.
  destruct (balloc_bfree 0 0 demo_pr 2 30 demo_alloc [] demo_map.(dk_block)) as (H1 & _ & H3 & _).
  - exact (with_inodes_rest _ _ _ _ _ _ _ _ _ _ _ Hr).
  - rewrite Esb. unfold demo_alloc. rewrite with_inodes_disk, Ed. split.
    + cbn. lia.
    + intros b Hb. destruct (demo_use b Hb) as [-> _]. unfold home. cbn. lia.
    + intros b Hb Hu. destruct (demo_use b Hb) as [_ Hu']. rewrite Hu' in Hu. apply Z.ltb_ge in Hu.
      cbn in Hb. split_and!; [cbn; lia|unfold home; lia|]. intros b' Hb'. destruct (demo_use b' Hb') as [-> _]. lia.
  - vm_compute. discriminate.
  - apply Nat.ltb_lt. reflexivity.
  - cbn. lia.
  - rewrite Esb in H1, H3. destruct (H1 50 ltac:(cbn; lia)) as (k' & _ & E1 & _).
    + apply (demo_use 50). cbn. lia.
    + intros b Hb. destruct (demo_use b ltac:(cbn; lia)) as [_ ->]. apply Z.ltb_lt. lia.
    + destruct (H3 49 ltac:(cbn; lia)) as (k'' & _ & E3 & _).
      * apply (demo_use 49). cbn. lia.
      * exists k', k''. split; [exact E1|exact E3].
Defined.
