(* ===== verification/Console.v ===== *)
(** * console.c, kbd.c and uart.c: console input and the console device

    The line discipline: [consoleintr] takes characters from a device (the
    keyboard decoder of kbd.c or the serial port), edits the line between
    input.w and input.e in the ring input.buf and hands complete lines to
    readers; [consoleread] takes them out. consoleread() gives the processor
    away inside its loop; [consoleread_turn] is one turn of that loop, which a
    resumed process enters again with the same local variables. *)
From S2P Require Import Prelude.
From S2P Require Import Kernel.
From S2P Require Import Spinlock.
From S2P Require Import Memory.
From S2P Require Import Cprintf.
From S2P Require Import Sched.
From S2P Require Import SchedProps.
From S2P Require Import Sleeplock.
From S2P Require Import Inode.

(** ** kbd.h *)

Definition SHIFT : Z := 1.
Definition CTL : Z := 2.
Definition ALT : Z := 4.
Definition CAPSLOCK : Z := 8.
Definition NUMLOCK : Z := 16.
Definition SCROLLLOCK : Z := 32.
Definition E0ESC : Z := 64.

(** C(x): control-x. *)
Definition ctrl (s : string) : Z := chr s - chr "@".

Definition shiftcode (d : Z) : Z :=
  if d =? 0x1D then CTL else if d =? 0x2A then SHIFT else if d =? 0x36 then SHIFT else
  if d =? 0x38 then ALT else if d =? 0x9D then CTL else if d =? 0xB8 then ALT else 0.

Definition togglecode (d : Z) : Z :=
  if d =? 0x3A then CAPSLOCK else if d =? 0x45 then NUMLOCK else if d =? 0x46 then SCROLLLOCK else 0.

(** The designated initialisers the three maps share, with their own KP_Enter
    and KP_Div. *)
Definition keypad (enter div d : Z) : Z :=
  if d =? 0x9C then enter else if d =? 0xB5 then div else
  if d =? 0xC8 then 0xE2 else if d =? 0xD0 then 0xE3 else
  if d =? 0xC9 then 0xE6 else if d =? 0xD1 then 0xE7 else
  if d =? 0xCB then 0xE4 else if d =? 0xCD then 0xE5 else
  if d =? 0x97 then 0xE0 else if d =? 0xCF then 0xE1 else
  if d =? 0xD2 then 0xE8 else if d =? 0xD3 then 0xE9 else 0.

Definition normal_keys : list Z :=
  [0; 27] ++ codes "1234567890-=" ++ [8; 9] ++ codes "qwertyuiop[]" ++ [10; 0] ++ codes "asdfghjkl;'`" ++ [0] ++
  codes "\zxcvbnm,./" ++ [0] ++ codes "*" ++ [0] ++ codes " " ++ replicate 13%nat 0 ++ codes "789-456+1230.".

Definition shift_keys : list Z :=
  [0; 27] ++ codes "!@#$%^&*()_+" ++ [8; 9] ++ codes "QWERTYUIOP{}" ++ [10; 0] ++ codes "ASDFGHJKL:" ++ [34] ++
  codes "~" ++ [0] ++ codes "|ZXCVBNM<>?" ++ [0] ++ codes "*" ++ [0] ++ codes " " ++ replicate 13%nat 0 ++
  codes "789-456+1230.".

Definition ctl_keys : list Z :=
  replicate 16%nat 0 ++ ((λ c, c - chr "@") <$> codes "QWERTYUIOP") ++ [0; 0; 13; 0] ++
  ((λ c, c - chr "@") <$> codes "ASDFGHJKL") ++ [0; 0; 0; 0; 28] ++
  ((λ c, c - chr "@") <$> codes "ZXCVBNM") ++ [0; 0; u8 (ctrl "/"); 0; 0].

Definition normalmap (d : Z) : Z := if d <? 128 then nth (Z.to_nat d) normal_keys 0 else keypad NL (chr "/") d.
Definition shiftmap (d : Z) : Z := if d <? 128 then nth (Z.to_nat d) shift_keys 0 else keypad NL (chr "/") d.
Definition ctlmap (d : Z) : Z := if d <? 128 then nth (Z.to_nat d) ctl_keys 0 else keypad 13 (u8 (ctrl "/")) d.

Definition charcode (s : Z) : Z → Z :=
  if s =? 0 then normalmap else if s =? SHIFT then shiftmap else ctlmap.

(** ** kbd.c *)

Definition upd_dev (f : dev_t → dev_t) : K unit := modify (λ k, set_dev (f k.(dev)) k).

Definition upd_shift (f : Z → Z) : K unit := upd_dev (λ d, set_kbd_shift (f d.(kbd_shift)) d).

(** What kbdgetc() returns for scan code [data], and the new shift. *)
Definition kbd_decode (shift data : Z) : Z * Z :=
  if data =? 0xE0 then (0, Z.lor shift E0ESC) else
  if truth (Z.land data 0x80) then
    let data := if truth (Z.land shift E0ESC) then data else Z.land data 0x7F in
    (0, Z.land shift (u32 (Z.lnot (Z.lor (shiftcode data) E0ESC)))) else
  let '(data, shift) := if truth (Z.land shift E0ESC)
                        then (Z.lor data 0x80, Z.land shift (u32 (Z.lnot E0ESC))) else (data, shift) in
  let shift := Z.lor shift (shiftcode data) in
  let shift := Z.lxor shift (togglecode data) in
  let c := charcode (Z.land shift (Z.lor CTL SHIFT)) data in
  let c := if truth (Z.land shift CAPSLOCK) then
             if (chr "a" <=? c) && (c <=? chr "z") then c + (chr "A" - chr "a")
             else if (chr "A" <=? c) && (c <=? chr "Z") then c + (chr "a" - chr "A") else c
           else c in
  (c, shift).

Definition kbdgetc : K Z :=
  l ← get (λ k, k.(dev).(kbd_in));
  match l with
  | [] => mret (-1)
  | data :: l' =>
      upd_dev (set_kbd_in l');;
      s ← get (λ k, k.(dev).(kbd_shift));
      let '(c, s') := kbd_decode s data in
      upd_shift (λ _, s');;
      mret c
  end.

(** ** uart.c *)

Definition uartgetc : K Z :=
  u ← get (λ k, k.(cons).(uart));
  if u =? 0 then mret (-1) else
  l ← get (λ k, k.(dev).(uart_in));
  match l with
  | [] => mret (-1)
  | c :: l' => upd_dev (set_uart_in l');; mret c
  end.

(** uartinit() on the port's own registers; [lsr] is what inb(COM1+5) returns.
    The bytes pending in the receiver are acknowledged by reading one. *)
Definition uartinit (lsr : Z) : K unit :=
  if u8 lsr =? 0xFF then mret tt else
  upd_cons (set_uart 1);;
  upd_dev (λ d, set_uart_in (tail d.(uart_in)) d);;
  for_acc (length (codes ("xv6..." +:+ nl))) 0
    (λ i _, uartputc (nth i (codes ("xv6..." +:+ nl)) 0)) tt.

(** ** console.c *)

Definition in_get (i : Z) : K Z := get (λ k, nth (Z.to_nat (u32 i `mod` INPUT_BUF)) k.(cons).(in_buf) 0).
Definition in_set (i c : Z) : K unit :=
  upd_cons (λ s, set_in_buf (<[Z.to_nat (u32 i `mod` INPUT_BUF) := u8 c]> s.(in_buf)) s).

(** The loop of control-U. *)
Definition kill_line_turn (_ : unit) : K (unit + unit) :=
  s ← get (λ k, k.(cons));
  if s.(in_e) =? s.(in_w) then mret (inr tt) else
  c ← in_get (s.(in_e) - 1);
  if c =? NL then mret (inr tt) else
  upd_cons (λ s, set_in_e (u32 (s.(in_e) - 1)) s);;
  consputc BACKSPACE;;
  mret (inl tt).

(** One turn of the loop of consoleintr(); the loop variable is doprocdump. *)
Definition consoleintr_turn (getc : K Z) (doprocdump : bool) : K (bool + bool) :=
  c ← getc;
  if c <? 0 then mret (inr doprocdump) else
  if c =? ctrl "P" then mret (inl true) else
  if c =? ctrl "U" then while32 kill_line_turn tt;; mret (inl doprocdump) else
  if (c =? ctrl "H") || (c =? 0x7f) then
    s ← get (λ k, k.(cons));
    when (negb (s.(in_e) =? s.(in_w))) (
      upd_cons (λ s, set_in_e (u32 (s.(in_e) - 1)) s);;
      consputc BACKSPACE);;
    mret (inl doprocdump)
  else
    s ← get (λ k, k.(cons));
    when (negb (c =? 0) && (u32 (s.(in_e) - s.(in_r)) <? INPUT_BUF)) (
      let c := if c =? 13 then NL else c in
      in_set s.(in_e) c;;
      upd_cons (λ s, set_in_e (u32 (s.(in_e) + 1)) s);;
      consputc c;;
      s' ← get (λ k, k.(cons));
      when ((c =? NL) || (c =? ctrl "D") || (s'.(in_e) =? u32 (s'.(in_r) + INPUT_BUF))) (
        upd_cons (λ s, set_in_w s.(in_e) s);;
        wakeup ChInput));;
    mret (inl doprocdump).

(** The words of procdump(); [callers] are the return addresses that
    getcallerpcs() finds on the stack of a sleeping process. *)
Definition state_name (s : procstate) : string :=
  match s with
  | UNUSED => "unused" | EMBRYO => "embryo" | SLEEPING => "sleep "
  | RUNNABLE => "runble" | RUNNING => "run   " | ZOMBIE => "zombie"
  end.

Fixpoint print_pcs (l : list Z) : K unit :=
  match l with
  | [] => mret tt
  | pc :: l' => if pc =? 0 then mret tt else cprintf " %p" [AInt pc];; print_pcs l'
  end.

Definition procdump (callers : nat → list Z) : K unit :=
  for_acc NPROC 0 (λ i _,
    p ← proc_get i;
    if bool_decide (p.(state) = UNUSED) then mret tt else
    cprintf "%d %s %s" [AInt p.(pid); AStr (codes (state_name p.(state))); AStr (cstr_of p.(name))];;
    when (bool_decide (p.(state) = SLEEPING)) (print_pcs (take 10 (callers i)));;
    cprintf nl []) tt.

Definition consoleintr (callers : nat → list Z) (getc : K Z) : K unit :=
  acquire LCons;;
  doprocdump ← while32 (consoleintr_turn getc) false;
  release LCons;;
  when doprocdump (procdump callers).

Definition kbdintr (callers : nat → list Z) : K unit := consoleintr callers kbdgetc.
Definition uartintr (callers : nat → list Z) : K unit := consoleintr callers uartgetc.

(** One turn of the loop of consoleread(); [n] bytes are still wanted, [acc]
    were stored (by [put], at their index from dst). *)
Definition consoleread_turn (put : Z → Z → K unit) (ip : option nat) (target : Z) (v : Z * list Z) :
    K ((Z * list Z) + (Z * list Z)) :=
  let '(n, acc) := v in
  let finish (n : Z) (acc : list Z) : K ((Z * list Z) + (Z * list Z)) :=
    release LCons;; ilock ip;; mret (inr (s32 (target - n), acc)) in
  if negb (0 <? n) then finish n acc else
  s ← get (λ k, k.(cons));
  if s.(in_r) =? s.(in_w) then
    p ← curproc;
    x ← proc_get p;
    if truth x.(killed) then release LCons;; ilock ip;; mret (inr (-1, acc)) else
    sleep ChInput LCons;;
    mret (inl (n, acc))
  else
    c ← in_get s.(in_r);
    upd_cons (λ s, set_in_r (u32 (s.(in_r) + 1)) s);;
    if c =? ctrl "D" then
      when (u32 n <? target) (upd_cons (λ s, set_in_r (u32 (s.(in_r) - 1)) s));;
      finish n acc
    else
      put (Z.of_nat (length acc)) c;;
      if c =? NL then finish (n - 1) (acc ++ [c]) else mret (inl (n - 1, acc ++ [c])).

Definition consoleread (put : Z → Z → K unit) (ip : option nat) (n : Z) : K (Z * list Z) :=
  iunlock ip;;
  let target := u32 n in
  acquire LCons;;
  while32 (consoleread_turn put ip target) (n, []).

(** [src i] is buf[i]. *)
Definition consolewrite (src : Z → K Z) (ip : option nat) (n : Z) : K Z :=
  iunlock ip;;
  acquire LCons;;
  for_acc (Z.to_nat n) 0 (λ i _, c ← src (Z.of_nat i); consputc (Z.land c 0xff)) tt;;
  release LCons;;
  ilock ip;;
  mret n.

(** consoleinit(), less the interrupt routing: the lock is on from here. The
    entry devsw[CONSOLE] it fills in is the case CONSOLE of [devsw_read] and
    [devsw_write]. *)
Definition consoleinit : K unit :=
  initlock LCons "console";;
  upd_cons (set_locking 1).

Definition CONSOLE : Z := 1.
