(* ===== verification/Fs.v ===== *)
(** * fs.c: file contents, directories and paths

    readi() and writei() copy between the buffer cache and either user memory
    or a local variable of the kernel; [readi_gen] and [writei_gen] take the
    store and the load of one byte as a parameter. Reading into a local
    variable returns its bytes. Path names are C strings in memory; a path
    element (char name[DIRSIZ]) is a list of DIRSIZ bytes. *)
From S2P Require Import Prelude.
From S2P Require Import Kernel.
From S2P Require Import Spinlock.
From S2P Require Import Memory.
From S2P Require Import Sched.
From S2P Require Import SchedProps.
From S2P Require Import Sleeplock.
From S2P Require Import Bio.
From S2P Require Import Log.
From S2P Require Import Inode.
From S2P Require Import Console.

(** ** Inode content *)

(** devsw[major].read and .write after consoleinit(). *)
Definition devsw_read (major : Z) : option ((Z → Z → K unit) → option nat → Z → K (Z * list Z)) :=
  if major =? CONSOLE then Some consoleread else None.
Definition devsw_write (major : Z) : option ((Z → K Z) → option nat → Z → K Z) :=
  if major =? CONSOLE then Some consolewrite else None.

(** Store the bytes [l] from index [i] on. *)
Fixpoint put_list (put : Z → Z → K unit) (i : Z) (l : list Z) : K unit :=
  match l with
  | [] => mret tt
  | b :: l' => put i b;; put_list put (i + 1) l'
  end.

(** Load [n] bytes from index [i] on. *)
Fixpoint fetch_list (fetch : Z → K Z) (i : Z) (n : nat) : K (list Z) :=
  match n with
  | O => mret []
  | S n' => b ← fetch i; l ← fetch_list fetch (i + 1) n'; mret (b :: l)
  end.

(** The loop of readi(); [acc] are the bytes stored so far. *)
Definition readi_turn (put : Z → Z → K unit) (ip : nat) (n : Z) (v : Z * Z * list Z) :
    K ((Z * Z * list Z) + (Z * list Z)) :=
  let '(tot, off, acc) := v in
  if negb (tot <? n) then mret (inr (s32 n, acc)) else
  blk ← bmap ip (off / BSIZE);
  x ← ino_get ip;
  bp ← bread x.(i_dev) blk;
  let m := Z.min (n - tot) (BSIZE - off `mod` BSIZE) in
  d ← buf_data bp;
  let bytes := take (Z.to_nat m) (drop (Z.to_nat (off `mod` BSIZE)) d) in
  put_list put tot bytes;;
  brelse bp;;
  mret (inl (tot + m, off + m, acc ++ bytes)).

Definition readi_gen (put : Z → Z → K unit) (ip : nat) (off n : Z) : K (Z * list Z) :=
  x ← ino_get ip;
  if x.(i_type) =? T_DEV then
    if (x.(i_major) <? 0) || (NDEV <=? x.(i_major)) then mret (-1, []) else
    match devsw_read x.(i_major) with
    | None => mret (-1, [])
    | Some read => read put (Some ip) (s32 n)
    end
  else
  if (x.(i_size) <? off) || (u32 (off + n) <? off) then mret (-1, []) else
  let n := if x.(i_size) <? u32 (off + n) then x.(i_size) - off else n in
  while_fuel (Z.to_nat (n / BSIZE + 3)) (readi_turn put ip n) (0, off, []).

(** Into memory at [dst], and into a local variable. *)
Definition readi (ip : nat) (dst off n : Z) : K Z :=
  '(r, _) ← readi_gen (λ i b, stb (u32 (dst + i)) b) ip off n;
  mret r.

Definition readi_local (ip : nat) (off n : Z) : K (Z * list Z) :=
  readi_gen (λ _ _, mret tt) ip off n.

(** The loop of writei(). *)
Definition writei_turn (fetch : Z → K Z) (ip : nat) (n : Z) (v : Z * Z) : K ((Z * Z) + Z) :=
  let '(tot, off) := v in
  if negb (tot <? n) then mret (inr off) else
  blk ← bmap ip (off / BSIZE);
  x ← ino_get ip;
  bp ← bread x.(i_dev) blk;
  let m := Z.min (n - tot) (BSIZE - off `mod` BSIZE) in
  bytes ← fetch_list fetch tot (Z.to_nat m);
  buf_upd bp (λ b, set_b_data (splice b.(b_data) (Z.to_nat (off `mod` BSIZE)) bytes) b);;
  log_write bp;;
  brelse bp;;
  mret (inl (tot + m, off + m)).

Definition writei_gen (fetch : Z → K Z) (ip : nat) (off n : Z) : K Z :=
  x ← ino_get ip;
  if x.(i_type) =? T_DEV then
    if (x.(i_major) <? 0) || (NDEV <=? x.(i_major)) then mret (-1) else
    match devsw_write x.(i_major) with
    | None => mret (-1)
    | Some write => write fetch (Some ip) (s32 n)
    end
  else
  if (x.(i_size) <? off) || (u32 (off + n) <? off) then mret (-1) else
  if MAXFILE * BSIZE <? u32 (off + n) then mret (-1) else
  off' ← while_fuel (Z.to_nat (n / BSIZE + 3)) (writei_turn fetch ip n) (0, off);
  x ← ino_get ip;
  when ((0 <? n) && (x.(i_size) <? off')) (
    ino_upd ip (set_i_size off');;
    iupdate ip);;
  mret (s32 n).

Definition writei (ip : nat) (src off n : Z) : K Z :=
  writei_gen (λ i, ldb (u32 (src + i))) ip off n.

Definition writei_local (ip : nat) (bytes : list Z) (off n : Z) : K Z :=
  writei_gen (byte_at bytes) ip off n.

(** A store of a short. *)
Definition st16 (va v : Z) : K unit := stb va v;; stb (u32 (va + 1)) (Z.shiftr (u16 v) 8).

(** struct stat in memory: type at 0, dev at 4, ino at 8, nlink at 12, size at 16. *)
Definition STAT : Z := 20.

Definition stati (ip : nat) (st : Z) : K unit :=
  x ← ino_get ip;
  st32 (u32 (st + 4)) x.(i_dev);;
  st32 (u32 (st + 8)) x.(i_inum);;
  st16 (u32 st) x.(i_type);;
  st16 (u32 (st + 12)) x.(i_nlink);;
  st32 (u32 (st + 16)) x.(i_size).

(** ** Directories *)

Definition DIRENT : Z := 16.  (* sizeof(struct dirent) *)

(** strncmp() and strncpy() on arrays that are not in memory. *)
Fixpoint strncmp_l (n : nat) (p q : list Z) : Z :=
  match n, p, q with
  | S n', a :: p', b :: q' => if a =? 0 then a - b else if a =? b then strncmp_l n' p' q' else a - b
  | _, _, _ => 0
  end.

Fixpoint strncpy_l (n : nat) (t : list Z) : list Z :=
  match n, t with
  | O, _ => []
  | S n', b :: t' => if b =? 0 then replicate n 0 else b :: strncpy_l n' t'
  | S n', [] => replicate n 0
  end.

Definition namecmp (s t : list Z) : Z := strncmp_l (Z.to_nat DIRSIZ) s t.

(** The bytes of a struct dirent. *)
Definition dirent (inum : Z) (name : list Z) : list Z := half_bytes (u16 inum) ++ name.
Definition de_inum (de : list Z) : Z := half_at de 0.
Definition de_name (de : list Z) : list Z := drop 2 de.

(** The loop of dirlookup(): the inode found and its offset. *)
Definition dirlookup_turn (dp : nat) (name : list Z) (off : Z) : K (Z + option (nat * Z)) :=
  x ← ino_get dp;
  if negb (off <? x.(i_size)) then mret (inr None) else
  '(r, de) ← readi_local dp off DIRENT;
  if negb (r =? DIRENT) then panic "dirlookup read" else
  if de_inum de =? 0 then mret (inl (u32 (off + DIRENT))) else
  if namecmp name (de_name de) =? 0 then
    x ← ino_get dp;
    i ← iget x.(i_dev) (de_inum de);
    mret (inr (Some (i, off)))
  else mret (inl (u32 (off + DIRENT))).

Definition dirlookup (dp : nat) (name : list Z) : K (option (nat * Z)) :=
  x ← ino_get dp;
  if negb (x.(i_type) =? T_DIR) then panic "dirlookup not DIR" else
  while_fuel (Z.to_nat (x.(i_size) / DIRENT + 2)) (dirlookup_turn dp name) 0.

(** The loop of dirlink(): the offset of the first empty entry. *)
Definition dirlink_turn (dp : nat) (off : Z) : K (Z + Z) :=
  x ← ino_get dp;
  if negb (off <? x.(i_size)) then mret (inr off) else
  '(r, de) ← readi_local dp off DIRENT;
  if negb (r =? DIRENT) then panic "dirlink read" else
  if de_inum de =? 0 then mret (inr off) else mret (inl (off + DIRENT)).

Definition dirlink (dp : nat) (name : list Z) (inum : Z) : K Z :=
  found ← dirlookup dp name;
  match found with
  | Some (i, _) => iput (Some i);; mret (-1)
  | None =>
      x ← ino_get dp;
      off ← while_fuel (Z.to_nat (x.(i_size) / DIRENT + 2)) (dirlink_turn dp) 0;
      r ← writei_local dp (dirent inum (strncpy_l (Z.to_nat DIRSIZ) name)) off DIRENT;
      if negb (r =? DIRENT) then panic "dirlink" else mret 0
  end.

(** ** Paths *)

Definition slash : Z := 47.

(** while( *path == '/' ) path++; *)
Definition skip_slashes (path : Z) : K Z :=
  while32 (λ p, c ← ldb p; mret (if c =? slash then inl (u32 (p + 1)) else inr p)) path.

(** while( *path != '/' && *path != 0 ) path++; *)
Definition skip_name (path : Z) : K Z :=
  while32 (λ p, c ← ldb p;
    mret (if (c =? slash) || (c =? 0) then inr p else inl (u32 (p + 1)))) path.

Definition skipelem (path : Z) (name : list Z) : K (option (Z * list Z)) :=
  path ← skip_slashes path;
  c ← ldb path;
  if c =? 0 then mret None else
  let s := path in
  path ← skip_name path;
  let len := s32 (path - s) in
  name ← (if DIRSIZ <=? len then
            bytes ← fetch_list (λ i, ldb (u32 (s + i))) 0 (Z.to_nat DIRSIZ);
            mret (splice name 0 bytes)
          else
            bytes ← fetch_list (λ i, ldb (u32 (s + i))) 0 (Z.to_nat len);
            mret (<[Z.to_nat len := 0]> (splice name 0 bytes)));
  path ← skip_slashes path;
  mret (Some (path, name)).

(** The loop of namex(). *)
Definition namex_turn (nameiparent_ : bool) (v : nat * Z * list Z) :
    K ((nat * Z * list Z) + (option nat * list Z)) :=
  let '(ip, path, name) := v in
  e ← skipelem path name;
  match e with
  | None =>
      if nameiparent_ then iput (Some ip);; mret (inr (None, name)) else mret (inr (Some ip, name))
  | Some (path, name) =>
      ilock (Some ip);;
      x ← ino_get ip;
      if negb (x.(i_type) =? T_DIR) then iunlockput (Some ip);; mret (inr (None, name)) else
      c ← ldb path;
      if nameiparent_ && (c =? 0) then iunlock (Some ip);; mret (inr (Some ip, name)) else
      next ← dirlookup ip name;
      match next with
      | None => iunlockput (Some ip);; mret (inr (None, name))
      | Some (nx, _) => iunlockput (Some ip);; mret (inl (nx, path, name))
      end
  end.

(** name[DIRSIZ] on the caller's stack, before anything is copied into it. *)
Definition name_buf : list Z := replicate (Z.to_nat DIRSIZ) 0.

Definition namex (path : Z) (nameiparent_ : bool) (name : list Z) : K (option nat * list Z) :=
  c ← ldb path;
  ip ← (if c =? slash then iget ROOTDEV ROOTINO
        else p ← curproc; x ← proc_get p; idup x.(cwd));
  while32 (namex_turn nameiparent_) (ip, path, name).

Definition namei (path : Z) : K (option nat) :=
  '(ip, _) ← namex path false name_buf;
  mret ip.

Definition nameiparent (path : Z) (name : list Z) : K (option nat * list Z) :=
  namex path true name.
