(* ===== verification/Pipe.v ===== *)
(** * pipe.c: pipes

    The struct pipe in the page at address [p] is [pipes p]; its lock is
    [LPipe p] and its two sleep channels are [ChNread p] and [ChNwrite p].
    pipewrite() and piperead() are split at their calls of sleep(): the loops
    [pipewrite_loop] and [piperead_loop] are what runs when the process enters
    the loop, for the first time or after it has slept. pipealloc(), which
    makes two files, is in the file for file.c. *)
From S2P Require Import Prelude.
From S2P Require Import Kernel.
From S2P Require Import Spinlock.
From S2P Require Import Memory.
From S2P Require Import Kalloc.
From S2P Require Import Sched.
From S2P Require Import SchedProps.
From S2P Require Import Sleeplock.

Definition PIPESIZE : Z := 512.

Definition pipe_get (p : Z) : K pipe := get (λ k, k.(pipes) p).
Definition pipe_upd (p : Z) (f : pipe → pipe) : K unit :=
  modify (λ k, set_pipes (<[p := f (k.(pipes) p)]> k.(pipes)) k).

(** p->data[p->nwrite++ % PIPESIZE] = c and c = p->data[p->nread++ % PIPESIZE]. *)
Definition push_byte (c : Z) (x : pipe) : pipe :=
  set_nwrite (u32 (x.(nwrite) + 1))
    (set_p_data (<[Z.to_nat (x.(nwrite) `mod` PIPESIZE) := c]> x.(p_data)) x).
Definition next_byte (x : pipe) : Z := nth (Z.to_nat (x.(nread) `mod` PIPESIZE)) x.(p_data) 0.
Definition pop_byte (x : pipe) : pipe := set_nread (u32 (x.(nread) + 1)) x.

(** myproc()->killed *)
Definition am_killed : K bool :=
  i ← curproc;
  x ← proc_get i;
  mret (truth x.(killed)).

Definition pipeclose (p writable : Z) : K unit :=
  acquire (LPipe p);;
  (if truth writable then
     pipe_upd p (set_writeopen 0);;
     wakeup (ChNread p)
   else
     pipe_upd p (set_readopen 0);;
     wakeup (ChNwrite p));;
  x ← pipe_get p;
  if (x.(readopen) =? 0) && (x.(writeopen) =? 0) then
    release (LPipe p);;
    kfree p
  else release (LPipe p).

(** One test of the loops of pipewrite(): a byte stored, or the wait for room. *)
Definition pipewrite_turn (p addr n i : Z) : K (Z + Z) :=
  if negb (i <? n) then
    wakeup (ChNread p);;
    release (LPipe p);;
    mret (inr n)
  else
  x ← pipe_get p;
  if x.(nwrite) =? u32 (x.(nread) + PIPESIZE) then
    stop ← (if x.(readopen) =? 0 then mret true else am_killed);
    if (stop : bool) then
      release (LPipe p);;
      mret (inr (-1))
    else
      wakeup (ChNread p);;
      sleep (ChNwrite p) (LPipe p);;
      mret (inl i)
  else
    c ← ldb (u32 (addr + i));
    pipe_upd p (push_byte c);;
    mret (inl (i + 1)).

Definition pipewrite_loop (p addr n i : Z) : K Z := while32 (pipewrite_turn p addr n) i.

Definition pipewrite (p addr n : Z) : K Z :=
  acquire (LPipe p);;
  pipewrite_loop p addr n 0.

(** The copying loop of piperead(). *)
Definition piperead_turn (p addr n i : Z) : K (Z + Z) :=
  if negb (i <? n) then mret (inr i) else
  x ← pipe_get p;
  if x.(nread) =? x.(nwrite) then mret (inr i) else
  stb (u32 (addr + i)) (next_byte x);;
  pipe_upd p pop_byte;;
  mret (inl (i + 1)).

(** The waiting loop of piperead(): [inr false] when the process was killed. *)
Definition piperead_wait_turn (p : Z) (_ : unit) : K (unit + bool) :=
  x ← pipe_get p;
  if (x.(nread) =? x.(nwrite)) && truth x.(writeopen) then
    stop ← am_killed;
    if (stop : bool) then mret (inr false) else
    sleep (ChNread p) (LPipe p);;
    mret (inl tt)
  else mret (inr true).

Definition piperead_loop (p addr n : Z) : K Z :=
  ok ← while32 (piperead_wait_turn p) tt;
  if negb ok then
    release (LPipe p);;
    mret (-1)
  else
    i ← while32 (piperead_turn p addr n) 0;
    wakeup (ChNwrite p);;
    release (LPipe p);;
    mret i.

Definition piperead (p addr n : Z) : K Z :=
  acquire (LPipe p);;
  piperead_loop p addr n.

(** ** A pipe as a bounded queue *)

(** The pipe holds the bytes [q], oldest first. *)
Record pipe_abs (x : pipe) (q : list Z) : Prop := {
  pa_size : length x.(p_data) = Z.to_nat PIPESIZE;
  pa_read : is_u32 x.(nread);
  pa_write : x.(nwrite) = u32 (x.(nread) + Z.of_nat (length q));
  pa_room : Z.of_nat (length q) <= PIPESIZE;
  pa_data : ∀ i b, q !! i = Some b →
    x.(p_data) !! Z.to_nat ((x.(nread) + Z.of_nat i) `mod` PIPESIZE) = Some b;
}.

(** The same ends are open. *)
Definition same_ends (x y : pipe) : Prop := y.(readopen) = x.(readopen) ∧ y.(writeopen) = x.(writeopen).

#[export] Instance same_ends_preorder : PreOrder same_ends.
Proof. unfold same_ends. split; [done|]. intros x y z [-> ->] [-> ->]. done. Qed.

Lemma pipe_index z : (u32 z) `mod` PIPESIZE = z `mod` PIPESIZE.
Proof. apply (u32_mod_pow2 z 9). lia. Qed.

Lemma pipe_full x q : pipe_abs x q →
  (x.(nwrite) =? u32 (x.(nread) + PIPESIZE)) = bool_decide (length q = Z.to_nat PIPESIZE).
Proof.
  intros [_ Hr Hw Hb _]. rewrite Hw. unfold PIPESIZE in *. destruct (bool_decide_reflect (length q = Z.to_nat 512)) as [E|E].
  - apply Z.eqb_eq. do 2 f_equal. lia.
  - apply Z.eqb_neq. intros H. apply E. word_lia.
Qed.

Lemma pipe_empty x q : pipe_abs x q → (x.(nread) =? x.(nwrite)) = bool_decide (q = []).
Proof.
  intros [_ Hr Hw Hb _]. rewrite Hw. unfold PIPESIZE in *. destruct (bool_decide_reflect (q = [])) as [->|E].
  - apply Z.eqb_eq. cbn. rewrite Z.add_0_r. by rewrite u32_small.
  - apply Z.eqb_neq. destruct q as [|b q]; [done|]. cbn [length] in *. word_lia.
Qed.

Lemma pipe_push x q c : pipe_abs x q → Z.of_nat (length q) < PIPESIZE →
  pipe_abs (push_byte c x) (q ++ [c]) ∧ same_ends x (push_byte c x).
Proof.
  intros [Hs Hr Hw Hb Hd] Hlt. split; [|done]. unfold push_byte. split; cbn.
  - by rewrite length_insert.
  - done.
  - rewrite Hw, length_app, u32_add_l. f_equal. cbn. lia.
  - rewrite length_app. cbn. lia.
  - intros i b Hi. rewrite Hw, pipe_index. apply lookup_app_Some in Hi as [Hi|[Hge Hi]].
    + pose proof (lookup_lt_Some _ _ _ Hi). rewrite list_lookup_insert_ne; [by apply Hd|].
      unfold PIPESIZE in *. intros E%Z2Nat.inj; Z.to_euclidean_division_equations; lia.
    + apply list_lookup_singleton_Some in Hi as [Hi <-].
      replace i with (length q) by lia. apply list_lookup_insert_eq. rewrite Hs. unfold PIPESIZE.
      Z.to_euclidean_division_equations; lia.
Qed.

Lemma pipe_pop x q c : pipe_abs x (c :: q) →
  next_byte x = c ∧ pipe_abs (pop_byte x) q ∧ same_ends x (pop_byte x).
Proof.
  intros [Hs Hr Hw Hb Hd]. split_and!; [| |done].
  - unfold next_byte. specialize (Hd 0%nat c eq_refl). rewrite Z.add_0_r in Hd.
    by apply nth_lookup_Some.
  - unfold pop_byte. split; cbn.
    + done.
    + apply u32_range.
    + rewrite Hw, u32_add_l. f_equal. cbn. lia.
    + cbn in Hb. lia.
    + intros i b Hi. rewrite <- (Hd (S i) b Hi). f_equal. f_equal. rewrite <- pipe_index, u32_add_l, pipe_index.
      f_equal. lia.
Qed.

(** ** Writing *)

(** [k] with the struct pipe [x] at [p]. *)
Definition with_pipe (p : Z) (x : pipe) (k : kernel) : kernel := set_pipes (<[p := x]> k.(pipes)) k.

Lemma with_pipe_twice p x y k : with_pipe p x (with_pipe p y k) = with_pipe p x k.
Proof. unfold with_pipe. cbn. by rewrite fn_insert_insert. Qed.

Lemma with_pipe_same p k : with_pipe p (k.(pipes) p) k = k.
Proof. unfold with_pipe. rewrite fn_insert_same. by destruct k. Qed.

Lemma with_pipe_get p x k : pipe_get p (with_pipe p x k) = Ok x (with_pipe p x k).
Proof. unfold pipe_get, get, with_pipe. cbn. by rewrite fn_lookup_insert. Qed.

Lemma with_pipe_upd p x f k : pipe_upd p f (with_pipe p x k) = Ok tt (with_pipe p (f x) k).
Proof.
  unfold pipe_upd, modify. rewrite <- (with_pipe_twice p (f x) x k). unfold with_pipe. cbn. by rewrite fn_lookup_insert.
Qed.

Definition push_all (x : pipe) (bs : list Z) : pipe := foldl (λ x b, push_byte b x) x bs.

Lemma pipe_push_all x q bs : pipe_abs x q → Z.of_nat (length (q ++ bs)) <= PIPESIZE →
  pipe_abs (push_all x bs) (q ++ bs) ∧ same_ends x (push_all x bs).
Proof.
  revert x q. induction bs as [|b bs IH]; intros x q Hx Hl; [by rewrite app_nil_r|].
  rewrite length_app in Hl. cbn in Hl. destruct (pipe_push x q b Hx ltac:(lia)) as [Hx' He].
  destruct (IH _ _ Hx') as [H1 H2]; [rewrite !length_app; cbn; lia|].
  rewrite <- app_assoc in H1. split; [done|]. by etrans.
Qed.

Section pipe_calls.
  Context (k : kernel) (c i : nat) (pr : proc) (p : Z).
  Hypothesis Hp : in_proc k c i pr.
  Hypothesis Hf : lk_free k.(hw) (LPipe p).
  Hypothesis Hpt : lk_free k.(hw) LPtable.
  #[local] Abbreviation h1 := (acq_hw c (LPipe p) k.(hw)).
  #[local] Abbreviation st x := (with_pipe p x (set_hw h1 k)).

Lemma pipe_at : cpu_at h1 c 1.
Proof using Hp. apply (acq_at _ _ 0), Hp. Qed.

Lemma pipe_acquire : acquire (LPipe p) k = Ok tt (st (k.(pipes) p)).
Proof using Hp Hf.
  rewrite (acquire_ok k c 0); [|apply Hp|lia|done]. symmetry. f_equal. apply (with_pipe_same p (set_hw h1 k)).
Qed.

Lemma pipe_killed x : am_killed (st x) = Ok (truth pr.(killed)) (st x).
Proof using Hp.
  unfold am_killed. mstep by (eapply (curproc_ok (st x) c 1 i); [apply pipe_at|lia|apply runs_acq, Hp]).
  change (hw (st x)) with h1. rewrite (touch_cs _ _ _ pipe_at) by lia.
  mstep by (apply proc_get_ok, Hp). done.
Qed.

Lemma pipe_release x : release (LPipe p) (st x) = Ok tt (set_hw (touch c k.(hw)) (with_pipe p x k)).
Proof using Hp Hf. apply (release_acquired _ _ 0 _ (with_pipe p x k)); [apply Hp|lia|done]. Qed.

Lemma pipe_wakeup ch x : wakeup ch (st x) = Ok tt (woken ch (st x)).
Proof using Hp Hpt.
  rewrite (wakeup_ok _ c 1); [|apply pipe_at|lia| |apply Hp].
  - change (hw (st x)) with h1. by rewrite (touch_cs _ _ _ pipe_at) by lia.
  - unfold lk_free. change (hw (st x)) with h1. by rewrite acq_other.
Qed.

Lemma pipe_wake_release ch x :
  (wakeup ch;; release (LPipe p)) (st x) = Ok tt (set_hw (touch c k.(hw)) (woken ch (with_pipe p x k))).
Proof using Hp Hf Hpt.
  mstep by apply pipe_wakeup.
  apply (release_acquired _ _ 0 _ (woken ch (with_pipe p x k))); [apply Hp|lia|done].
Qed.

Lemma pipe_sleep ch ch' x : ∃ h y,
  (wakeup ch';; sleep ch (LPipe p)) (st x) = Swtch (upd_proc i y (set_hw h (woken ch' (with_pipe p x k)))) ∧
  y.(state) = SLEEPING ∧ y.(chan) = ch ∧ lk_mine h c LPtable ∧ lk_free h (LPipe p).
Proof using Hp Hf Hpt.
  mstep by apply pipe_wakeup.
  destruct (sleep_ok (woken ch' (st x)) c i (wake ch' pr) ch (LPipe p)) as (E & Hm & Hfr & _).
  - done.
  - apply pipe_at.
  - apply acq_mine.
  - unfold lk_free. cbn [hw woken set_pt with_pipe set_pipes set_hw]. by rewrite acq_other.
  - apply runs_acq, Hp.
  - cbn. rewrite list_lookup_fmap. by rewrite (ip_proc _ _ _ _ Hp).
  - rewrite E. eexists _, _. split_and!; [reflexivity|done|done|exact Hm|exact Hfr].
Qed.

Lemma pipe_xlate x va w : xlate (st x) va w = xlate k va w.
Proof. done. Qed.

(** Copying bytes in while there is room. *)
Lemma pipewrite_copy addr n bs q : reads k addr bs → n = Z.of_nat (length bs) → n < 2 ^ 31 →
  ∀ m j x f, pipe_abs x q → (j + m <= length bs)%nat → Z.of_nat (length q + m) <= PIPESIZE →
  while_fuel (m + f) (pipewrite_turn p addr n) (Z.of_nat j) (st x)
  = while_fuel f (pipewrite_turn p addr n) (Z.of_nat (j + m)) (st (push_all x (take m (drop j bs)))).
Proof.
  intros Hbs -> Hn m. revert q. induction m as [|m IH]; intros q j x f Hx Hj Hq.
  { cbn. by rewrite Nat.add_0_r. }
  destruct (lookup_lt_is_Some_2 bs j ltac:(lia)) as [b Hb].
  rewrite (drop_S bs b j Hb). cbn [take push_all foldl Nat.add while_fuel].
  assert (E : (x.(nwrite) =? u32 (x.(nread) + PIPESIZE)) = false).
  { rewrite (pipe_full _ _ Hx). apply bool_decide_false. unfold PIPESIZE in *. lia. }
  destruct (Hbs j b Hb) as (a & Ha & Hr).
  assert (Et : pipewrite_turn p addr (Z.of_nat (length bs)) (Z.of_nat j) (st x)
               = Ok (inl (Z.of_nat j + 1)) (st (push_byte b x))).
  { unfold pipewrite_turn. rewrite (proj2 (Z.ltb_lt _ _)) by lia. cbn [negb]. mstep by apply with_pipe_get.
    rewrite E. mstep by (apply ldb_xlate; rewrite pipe_xlate; exact Ha).
    change (rd (mem (st x)) a) with (rd k.(mem) a). rewrite Hr. by mstep by apply with_pipe_upd. }
  rewrite (bind_Ok _ _ _ _ _ Et). destruct (pipe_push x q b Hx ltac:(lia)) as [Hx' _].
  replace (Z.of_nat j + 1) with (Z.of_nat (S j)) by lia. rewrite (IH (q ++ [b])); [|done|lia|rewrite length_app; cbn; lia].
  by rewrite Nat.add_succ_comm.
Qed.

(** The way out of pipewrite() when every byte is in the pipe. *)
Lemma pipewrite_end addr n x :
  pipewrite_turn p addr n n (st x)
  = Ok (inr n) (set_hw (touch c k.(hw)) (woken (ChNread p) (with_pipe p x k))).
Proof using Hp Hf Hpt.
  unfold pipewrite_turn. rewrite Z.ltb_irrefl. cbn [negb].
  pose proof (pipe_wake_release (ChNread p) x) as E. unfold mbind, M_bind in *.
  destruct (wakeup _ _) as [[] k'| |]; try done. by rewrite E.
Qed.

(** What pipewrite() does on a full pipe. *)
Lemma pipewrite_full addr n j x q : pipe_abs x q → Z.of_nat (length q) = PIPESIZE → j < n →
  (x.(readopen) = 0 ∨ pr.(killed) ≠ 0 →
     pipewrite_turn p addr n j (st x) = Ok (inr (-1)) (set_hw (touch c k.(hw)) (with_pipe p x k))) ∧
  (x.(readopen) ≠ 0 → pr.(killed) = 0 → ∃ h y,
     pipewrite_turn p addr n j (st x) = Swtch (upd_proc i y (set_hw h (woken (ChNread p) (with_pipe p x k)))) ∧
     y.(state) = SLEEPING ∧ y.(chan) = ChNwrite p ∧ lk_mine h c LPtable ∧ lk_free h (LPipe p)).
Proof using Hp Hf Hpt.
  intros Hx Hq Hj. unfold pipewrite_turn. rewrite (proj2 (Z.ltb_lt _ _)) by lia. cbn [negb].
  rewrite !(bind_Ok _ _ _ _ _ (with_pipe_get p x _)).
  rewrite (pipe_full _ _ Hx), bool_decide_true by lia. split.
  - intros H. rewrite (bind_Ok _ _ _ true (st x)); [by mstep by apply pipe_release|].
    destruct (Z.eqb_spec x.(readopen) 0) as [E|E]; [done|]. rewrite pipe_killed. unfold truth.
    destruct H as [?|H]; [done|]. by rewrite (proj2 (Z.eqb_neq _ _) H).
  - intros Ho Hk. rewrite (bind_Ok _ _ _ false (st x)); cycle 1.
    { rewrite (proj2 (Z.eqb_neq _ _) Ho), pipe_killed. unfold truth. by rewrite Hk. }
    destruct (pipe_sleep (ChNwrite p) (ChNread p) x) as (h & y & E & H). exists h, y. split; [|done].
    unfold mbind, M_bind in *. destruct (wakeup _ _) as [[] k'|e k'|k']; [by rewrite E|done|by injection E as ->].
Qed.

End pipe_calls.

(** ** Reading *)

Fixpoint pop_all (n : nat) (x : pipe) : pipe :=
  match n with
  | O => x
  | S n' => pop_all n' (pop_byte x)
  end.

Lemma pipe_pop_all n x q : pipe_abs x q → (n <= length q)%nat →
  pipe_abs (pop_all n x) (drop n q) ∧ same_ends x (pop_all n x).
Proof.
  revert x q. induction n as [|n IH]; intros x q Hx Hn; [done|]. destruct q as [|b q]; [cbn in Hn; lia|].
  destruct (pipe_pop x q b Hx) as (_ & Hx' & He). cbn [drop pop_all] in *.
  destruct (IH _ _ Hx') as [H1 H2]; [cbn in Hn; lia|]. split; [done|]. by etrans.
Qed.

Section pipe_reads.
  Context (k : kernel) (p addr n : Z) (f : Z → Z).
  Hypothesis Hw : window k addr n f.
  #[local] Abbreviation st x bs := (with_pipe p x (set_mem (put_at f 0 bs k.(mem)) k)).

Lemma piperead_copy m : ∀ bs x q, pipe_abs x q → (m <= length q)%nat → Z.of_nat (length bs + m) <= n →
  ∀ g, while_fuel (m + g) (piperead_turn p addr n) (Z.of_nat (length bs)) (st x bs)
  = while_fuel g (piperead_turn p addr n) (Z.of_nat (length bs + m)) (st (pop_all m x) (bs ++ take m q)).
Proof using Hw.
  induction m as [|m IH]; intros bs x q Hx Hm Hn g.
  { cbn. by rewrite Nat.add_0_r, app_nil_r. }
  destruct q as [|b q]; [cbn in Hm; lia|]. destruct (pipe_pop x q b Hx) as (Eb & Hx' & _).
  assert (Et : piperead_turn p addr n (Z.of_nat (length bs)) (st x bs)
               = Ok (inl (Z.of_nat (length bs) + 1)) (st (pop_byte x) (bs ++ [b]))).
  { unfold piperead_turn. rewrite (proj2 (Z.ltb_lt _ _)) by lia. cbn [negb]. mstep by apply with_pipe_get.
    rewrite (pipe_empty _ _ Hx), bool_decide_false by done. rewrite Eb.
    mstep by (apply (window_stb (with_pipe p x k) addr n f bs b); [destruct Hw; by split|lia]).
    change (set_mem ?m (with_pipe p x k)) with (with_pipe p x (set_mem m k)).
    by mstep by apply with_pipe_upd. }
  cbn [Nat.add while_fuel take pop_all]. rewrite (bind_Ok _ _ _ _ _ Et).
  replace (Z.of_nat (length bs) + 1) with (Z.of_nat (length (bs ++ [b]))) by (rewrite length_app; cbn; lia).
  rewrite (IH (bs ++ [b]) _ q); [|done|cbn in Hm; lia|rewrite length_app; cbn; lia].
  rewrite <- app_assoc, length_app. cbn [app length]. by replace (length bs + 1 + m)%nat with (length bs + S m)%nat by lia.
Qed.

(** The copying loop takes as many bytes as there are and as were asked for. *)
Lemma piperead_copies x q : pipe_abs x q → 0 <= n < 2 ^ 31 →
  let m := Nat.min (Z.to_nat n) (length q) in
  while32 (piperead_turn p addr n) 0 (with_pipe p x k) = Ok (Z.of_nat m) (st (pop_all m x) (take m q)).
Proof using Hw.
  intros Hx Hn m. apply (while32_fuel (m + 1)); [unfold PIPESIZE in *; destruct Hx; unfold PIPESIZE in *; lia|].
  pose proof (piperead_copy m [] x q Hx ltac:(lia) ltac:(cbn; lia) 1) as E. cbn [length app Nat.add put_at] in E.
  rewrite set_mem_id in E. etrans; [exact E|]. clear E. destruct (pipe_pop_all m x q Hx ltac:(lia)) as [Hx' _].
  cbn [while_fuel]. rewrite (bind_Ok _ _ _ (inr (Z.of_nat m)) (st (pop_all m x) (take m q))); [done|].
  unfold piperead_turn. destruct (Z.ltb_spec (Z.of_nat m) n); [|done]. cbn [negb]. mstep by apply with_pipe_get.
  rewrite (pipe_empty _ _ Hx'), bool_decide_true; [done|]. apply drop_ge. lia.
Qed.

End pipe_reads.

(** ** Properties *)

(** A running process and a pipe at 0x80400000 that holds the byte 7 and whose
    write counter has just wrapped around; user data at 0x80500000. *)
Definition demo_pipe : kernel :=
  with_pipe 0x80400000 (mk_pipe (<[511%nat := 7]> (replicate 512 0)) (2 ^ 32 - 1) 0 1 1)
    (set_mem (λ a, a - 0x80500000 + 65) (demo_running [set_state RUNNING (demo_proc 7 3)])).

Lemma demo_pipe_proc : in_proc demo_pipe 0 0 (set_state RUNNING (demo_proc 7 3)).
Proof.
  pose proof (demo_in_proc (set_state RUNNING (demo_proc 7 3)) [] ltac:(unfold NPROC; cbn; lia)) as [H1 H2 H3 H4].
  by split.
Qed.

Lemma demo_pipe_abs : pipe_abs (demo_pipe.(pipes) 0x80400000) [7].
Proof.
  unfold demo_pipe, with_pipe. cbn [pipes set_pipes]. rewrite fn_lookup_insert.
  split; cbn [p_data nread nwrite]; [done|unfold is_u32; lia|reflexivity|unfold PIPESIZE; cbn; lia|].
  intros [|i] b Hb; [|done]. injection Hb as <-. reflexivity.
Qed.

(** C24: pipewrite() implements appending to a queue of PIPESIZE bytes. With
    [q] in the pipe and the bytes [bs] still to be written (from the start or
    after a sleep), it appends them all, wakes the readers and returns n when
    they fit; otherwise it fills the pipe and then returns -1 if the reading
    end is closed or the process was killed, or wakes the readers and sleeps
    until there is room. No byte is lost or reordered when the 32-bit counters
    wrap around. *)
Theorem pipewrite_refines k c i pr p addr bs q j :
  in_proc k c i pr → lk_free k.(hw) (LPipe p) → lk_free k.(hw) LPtable →
  pipe_abs (k.(pipes) p) q → reads k addr bs → Z.of_nat (length bs) < 2 ^ 31 → (j <= length bs)%nat →
  let n := Z.of_nat (length bs) in
  let m := Nat.min (Z.to_nat PIPESIZE - length q) (length bs - j) in
  ∃ x, pipe_abs x (q ++ take m (drop j bs)) ∧ same_ends (k.(pipes) p) x ∧
  let run := (acquire (LPipe p);; pipewrite_loop p addr n (Z.of_nat j)) k in
  (m = (length bs - j)%nat →
     run = Ok n (set_hw (touch c k.(hw)) (woken (ChNread p) (with_pipe p x k)))) ∧
  ((m < length bs - j)%nat → x.(readopen) = 0 ∨ pr.(killed) ≠ 0 →
     run = Ok (-1) (set_hw (touch c k.(hw)) (with_pipe p x k))) ∧
  ((m < length bs - j)%nat → x.(readopen) ≠ 0 → pr.(killed) = 0 → ∃ h y,
     run = Swtch (upd_proc i y (set_hw h (woken (ChNread p) (with_pipe p x k)))) ∧
     y.(state) = SLEEPING ∧ y.(chan) = ChNwrite p ∧ lk_mine h c LPtable ∧ lk_free h (LPipe p)).
Proof.
  intros Hp Hf Hpt Hx Hbs Hn Hj n m. set (x0 := k.(pipes) p) in *. pose proof (pa_room _ _ Hx) as Hroom.
  assert (Hm : Z.of_nat (length q + m) <= PIPESIZE) by (unfold m, PIPESIZE in *; lia).
  assert (Hl : length (take m (drop j bs)) = m) by (rewrite length_take, length_drop; lia).
  exists (push_all x0 (take m (drop j bs))).
  destruct (pipe_push_all x0 q (take m (drop j bs)) Hx) as [Hx' He]; [rewrite length_app; lia|].
  split; [done|]. split; [done|]. cbv zeta.
  rewrite !(bind_Ok _ _ _ _ _ (pipe_acquire k c i pr p Hp Hf)). fold x0.
  pose proof (pipewrite_copy k c p addr n bs q Hbs eq_refl Hn m j x0 1 Hx ltac:(lia) Hm) as Hrun.
  unfold pipewrite_loop. set (x := push_all x0 _) in *.
  assert (H32 : Z.of_nat (m + 1) <= 2 ^ 32) by (unfold PIPESIZE in *; lia).
  split_and!.
  - intros Em. replace (Z.of_nat (j + m)) with n in Hrun by lia.
    apply (while32_fuel (m + 1)); [done|]. rewrite Hrun. cbn [while_fuel]. by mstep by (by eapply pipewrite_end).
  - intros Em Hc. apply (while32_fuel (m + 1)); [done|]. rewrite Hrun. cbn [while_fuel].
    mstep by (eapply (pipewrite_full k c i pr p); [done..| | |done]; [rewrite length_app, Hl; unfold m, PIPESIZE in *; lia|lia]).
    done.
  - intros Em Ho Hk.
    destruct (pipewrite_full k c i pr p Hp Hf Hpt addr n (Z.of_nat (j + m)) x _ Hx') as [_ H];
      [rewrite length_app, Hl; unfold m, PIPESIZE in *; lia|lia|].
    destruct (H Ho Hk) as (h & y & E & H'). exists h, y. split; [|done].
    apply (while32_run (m + 1)); [done| |done]. rewrite Hrun. cbn [while_fuel]. unfold mbind, M_bind. by rewrite E.
Qed.

Lemma pipewrite_refines_witness :
  ∃ x, pipe_abs x [7; 65; 66] ∧
    pipewrite 0x80400000 0x80500000 2 demo_pipe
    = Ok 2 (set_hw (touch 0 demo_pipe.(hw)) (woken (ChNread 0x80400000) (with_pipe 0x80400000 x demo_pipe))).
Proof.
  destruct (pipewrite_refines demo_pipe 0 0 (set_state RUNNING (demo_proc 7 3)) 0x80400000 0x80500000
              [65; 66] [7] 0 demo_pipe_proc) as (x & Hx & _ & Hrun & _).
  - by split.
  - by split.
  - exact demo_pipe_abs.
  - intros [|[|i]] b Hb; [| |done]; injection Hb as <-; eexists; split; reflexivity.
  - cbn. lia.
  - cbn. lia.
  - exists x. split; [exact Hx|]. apply Hrun. reflexivity.
Defined.

(** C25: piperead() implements taking bytes from the front of the queue. When
    there are bytes or the writing end is closed it stores the first min(n,
    length) bytes in order at the user's addresses, removes them, wakes the
    writers and returns their number, and no other byte of memory changes; on
    an empty pipe with an open writing end it sleeps, or returns -1 when the
    process was killed. *)
Theorem piperead_refines k c i pr p addr n q f :
  in_proc k c i pr → lk_free k.(hw) (LPipe p) → lk_free k.(hw) LPtable →
  pipe_abs (k.(pipes) p) q → window k addr n f → 0 <= n < 2 ^ 31 →
  let m := Nat.min (Z.to_nat n) (length q) in
  let mem' := put_at f 0 (take m q) k.(mem) in
  (q ≠ [] ∨ (k.(pipes) p).(writeopen) = 0 → ∃ x,
     pipe_abs x (drop m q) ∧ same_ends (k.(pipes) p) x ∧
     piperead p addr n k
     = Ok (Z.of_nat m) (set_hw (touch c k.(hw)) (woken (ChNwrite p) (with_pipe p x (set_mem mem' k)))) ∧
     (∀ t b, take m q !! t = Some b → rd mem' (f (Z.of_nat t)) = u8 b) ∧
     (∀ a, (∀ t, 0 <= t < Z.of_nat m → u32 (f t) ≠ u32 a) → rd mem' a = rd k.(mem) a)) ∧
  (q = [] → (k.(pipes) p).(writeopen) ≠ 0 → pr.(killed) ≠ 0 →
     piperead p addr n k = Ok (-1) (set_hw (touch c k.(hw)) k)) ∧
  (q = [] → (k.(pipes) p).(writeopen) ≠ 0 → pr.(killed) = 0 → ∃ h y,
     piperead p addr n k = Swtch (upd_proc i y (set_hw h k)) ∧
     y.(state) = SLEEPING ∧ y.(chan) = ChNread p ∧ lk_mine h c LPtable ∧ lk_free h (LPipe p)).
Proof.
  intros Hp Hf Hpt Hx Hw Hn m mem'. set (x0 := k.(pipes) p) in *. unfold piperead, piperead_loop.
  rewrite !(bind_Ok _ _ _ _ _ (pipe_acquire k c i pr p Hp Hf)). fold x0.
  assert (Hwait : piperead_wait_turn p tt (with_pipe p x0 (set_hw (acq_hw c (LPipe p) k.(hw)) k)) =
    (if bool_decide (q = []) && truth x0.(writeopen) then
       if truth pr.(killed) then mret (inr false) else sleep (ChNread p) (LPipe p);; mret (inl tt)
     else mret (inr true)) (with_pipe p x0 (set_hw (acq_hw c (LPipe p) k.(hw)) k))).
  { unfold piperead_wait_turn. mstep by apply with_pipe_get. rewrite (pipe_empty _ _ Hx).
    destruct (_ && _); [|done]. by mstep by (by eapply pipe_killed). }
  split_and!.
  - intros Hgo. exists (pop_all m x0). destruct (pipe_pop_all m x0 q Hx ltac:(lia)) as [Hx' He].
    split; [done|]. split; [done|]. split_and!.
    + mstep by (apply (while32_fuel 1); [lia|]; cbn [while_fuel]; unfold mbind, M_bind; rewrite Hwait;
        replace (bool_decide (q = []) && truth x0.(writeopen)) with false
          by (unfold truth; destruct Hgo as [Hq| ->]; [by rewrite bool_decide_false|by rewrite andb_false_r]);
        reflexivity).
      cbn [negb]. mstep by (apply (piperead_copies (set_hw (acq_hw c (LPipe p) k.(hw)) k) p addr n f); [|done|done]; destruct Hw; by split).
      assert (Hp' : in_proc (set_mem mem' k) c i pr) by (destruct Hp; by split).
      pose proof (pipe_wake_release (set_mem mem' k) c i pr p Hp' Hf Hpt (ChNwrite p) (pop_all m x0)) as E.
      unfold mbind, M_bind in *. change (with_pipe p ?x (set_mem ?m (set_hw ?h k))) with (with_pipe p x (set_hw h (set_mem m k))).
      change (mem (set_hw _ k)) with k.(mem). fold mem'. destruct (wakeup _ _) as [[] k'| |]; try done. by rewrite E.
    + intros t b Hb. eapply put_at_rd; [exact Hw| |done]. rewrite length_take. lia.
    + intros a Ha. apply put_at_ne. intros t Ht. apply Ha. rewrite length_take in Ht. lia.
  - intros -> Ho Hk. mstep by (apply (while32_fuel 1); [lia|]; cbn [while_fuel]; unfold mbind, M_bind; rewrite Hwait;
      unfold truth; rewrite (proj2 (Z.eqb_neq _ _) Ho), (proj2 (Z.eqb_neq _ _) Hk); reflexivity).
    cbn [negb]. mstep by (by eapply pipe_release). unfold x0. by rewrite with_pipe_same.
  - intros -> Ho Hk.
    destruct (sleep_ok (with_pipe p x0 (set_hw (acq_hw c (LPipe p) k.(hw)) k)) c i pr (ChNread p) (LPipe p)) as (E & Hm & Hfr & _).
    + done.
    + by eapply pipe_at.
    + apply acq_mine.
    + unfold lk_free. cbn [hw with_pipe set_pipes set_hw]. by rewrite acq_other.
    + apply runs_acq, Hp.
    + apply Hp.
    + eexists _, (set_context _ (set_state SLEEPING (set_chan (ChNread p) pr))).
      split_and!; [|reflexivity|reflexivity|exact Hm|exact Hfr].
      apply bind_Swtch. apply (while32_run 1); [lia| |done]. cbn [while_fuel]. unfold mbind, M_bind. rewrite Hwait.
      unfold truth. rewrite (proj2 (Z.eqb_neq _ _) Ho), Hk. cbn. unfold mbind, M_bind. rewrite E.
      change (set_hw ?h (with_pipe p x0 (set_hw ?g k))) with (set_hw h (with_pipe p x0 k)). unfold x0 at 3. by rewrite with_pipe_same.
Qed.

Lemma piperead_refines_witness :
  ∃ x, pipe_abs x [] ∧
    piperead 0x80400000 0x80600000 3 demo_pipe
    = Ok 1 (set_hw (touch 0 demo_pipe.(hw)) (woken (ChNwrite 0x80400000)
        (with_pipe 0x80400000 x (set_mem (wr 0x80600000 7 demo_pipe.(mem)) demo_pipe)))).
Proof.
  destruct (piperead_refines demo_pipe 0 0 (set_state RUNNING (demo_proc 7 3)) 0x80400000 0x80600000
              3 [7] (λ i, 0x80600000 + i) demo_pipe_proc) as (H & _).
  - by split.
  - by split.
  - exact demo_pipe_abs.
  - split.
    + intros i Hi. unfold xlate. rewrite u32_u32, (u32_small (0x80600000 + i)) by (unfold is_u32; lia).
      by rewrite (proj2 (Z.leb_le _ _)) by (unfold KERNBASE; lia).
    + intros i j Hi Hj. rewrite !u32_small by (unfold is_u32; lia). lia.
    + intros i j Hi Hj. rewrite u32_small by (unfold is_u32; lia). unfold KERNBASE. lia.
  - lia.
  - destruct H as (x & Hx & _ & E & _); [by left|]. exists x. split; [exact Hx|exact E].
Defined.
