(* ===== verification/File.v ===== *)
(** * file.c: the file table

    The open files of the system, ftable.file[], and the operations the system
    calls make on them; pipealloc() of pipe.c, which opens both ends of a new
    pipe. A struct file is named by its index. *)
From S2P Require Import Prelude.
From S2P Require Import Kernel.
From S2P Require Import Spinlock.
From S2P Require Import Kalloc.
From S2P Require Import Sched.
From S2P Require Import Log.
From S2P Require Import Inode.
From S2P Require Import Fs.
From S2P Require Import Pipe.

Definition file_get (f : nat) : K file := λ k,
  match k.(ftable) !! f with
  | Some x => Ok x k
  | None => Err (CpuFault "ftable.file") k
  end.
Definition file_upd (f : nat) (g : file → file) : K unit :=
  modify (λ k, set_ftable (alter g f k.(ftable)) k).

Definition fileinit : K unit := initlock LFtable "ftable".

Definition filealloc : K (option nat) :=
  acquire LFtable;;
  r ← for_range NFILE 0 (λ f,
        x ← file_get f;
        if x.(f_ref) =? 0 then
          file_upd f (set_f_ref 1);;
          release LFtable;;
          mret (Some f)
        else mret None);
  match r with
  | Some f => mret (Some f)
  | None => release LFtable;; mret None
  end.

Definition filedup (f : nat) : K nat :=
  acquire LFtable;;
  x ← file_get f;
  if x.(f_ref) <? 1 then panic "filedup" else
  file_upd f (set_f_ref (s32 (x.(f_ref) + 1)));;
  release LFtable;;
  mret f.

Definition fileclose (f : nat) : K unit :=
  acquire LFtable;;
  x ← file_get f;
  if x.(f_ref) <? 1 then panic "fileclose" else
  file_upd f (set_f_ref (x.(f_ref) - 1));;
  ff ← file_get f;
  if 0 <? ff.(f_ref) then release LFtable else
  file_upd f (set_f_ref 0);;
  file_upd f (set_f_type FD_NONE);;
  release LFtable;;
  match ff.(f_type) with
  | FD_PIPE => pipeclose ff.(f_pipe) ff.(f_writable)
  | FD_INODE =>
      begin_op;;
      iput ff.(f_ip);;
      end_op
  | FD_NONE => mret tt
  end.

Definition filestat (f : nat) (st : Z) : K Z :=
  x ← file_get f;
  match x.(f_type) with
  | FD_INODE =>
      ilock x.(f_ip);;
      ip ← deref x.(f_ip);
      stati ip st;;
      iunlock x.(f_ip);;
      mret 0
  | _ => mret (-1)
  end.

Definition fileread (f : nat) (addr n : Z) : K Z :=
  x ← file_get f;
  if x.(f_readable) =? 0 then mret (-1) else
  match x.(f_type) with
  | FD_PIPE => piperead x.(f_pipe) addr n
  | FD_INODE =>
      ilock x.(f_ip);;
      ip ← deref x.(f_ip);
      y ← file_get f;
      r ← readi ip addr y.(f_off) (u32 n);
      when (0 <? r) (file_upd f (λ y, set_f_off (u32 (y.(f_off) + r)) y));;
      iunlock x.(f_ip);;
      mret r
  | FD_NONE => panic "fileread"
  end.

(** The most filewrite() writes in one transaction. *)
Definition FWMAX : Z := ((MAXOPBLOCKS - 1 - 1 - 2) / 2) * 512.

Definition filewrite_turn (f : nat) (addr n i : Z) : K (Z + Z) :=
  let finish (i : Z) : K (Z + Z) := mret (inr (if i =? n then n else -1)) in
  if negb (i <? n) then finish i else
  let n1 := if FWMAX <? n - i then FWMAX else n - i in
  begin_op;;
  x ← file_get f;
  ilock x.(f_ip);;
  ip ← deref x.(f_ip);
  x ← file_get f;
  r ← writei ip (u32 (addr + i)) x.(f_off) n1;
  when (0 <? r) (file_upd f (λ y, set_f_off (u32 (y.(f_off) + r)) y));;
  iunlock x.(f_ip);;
  end_op;;
  if r <? 0 then finish i else
  if negb (r =? n1) then panic "short filewrite" else
  mret (inl (i + r)).

Definition filewrite (f : nat) (addr n : Z) : K Z :=
  x ← file_get f;
  if x.(f_writable) =? 0 then mret (-1) else
  match x.(f_type) with
  | FD_PIPE => pipewrite x.(f_pipe) addr n
  | FD_INODE => while32 (filewrite_turn f addr n) 0
  | FD_NONE => panic "filewrite"
  end.

(** ** pipealloc() *)

(** The label bad. *)
Definition pipealloc_bad (p : Z) (f0 f1 : option nat) : K (option (nat * nat)) :=
  when (truth p) (kfree p);;
  (match f0 with Some f => fileclose f | None => mret tt end);;
  (match f1 with Some f => fileclose f | None => mret tt end);;
  mret None.

Definition pipealloc : K (option (nat * nat)) :=
  f0 ← filealloc;
  match f0 with
  | None => pipealloc_bad 0 None None
  | Some a =>
      f1 ← filealloc;
      match f1 with
      | None => pipealloc_bad 0 (Some a) None
      | Some b =>
          p ← kalloc;
          if p =? 0 then pipealloc_bad 0 (Some a) (Some b) else
          pipe_upd p (set_readopen 1);;
          pipe_upd p (set_writeopen 1);;
          pipe_upd p (set_nwrite 0);;
          pipe_upd p (set_nread 0);;
          initlock (LPipe p) "pipe";;
          file_upd a (λ x, set_f_pipe p (set_f_writable 0 (set_f_readable 1 (set_f_type FD_PIPE x))));;
          file_upd b (λ x, set_f_pipe p (set_f_writable 1 (set_f_readable 0 (set_f_type FD_PIPE x))));;
          mret (Some (a, b))
      end
  end.
