(* ===== verification/Proc.v ===== *)
(** * proc.c: the life of a process

    allocproc(), userinit(), growproc(), fork(), exit(), wait() and forkret().
    The clock that allocproc() polls is a device: [fuel] bounds the polls. The
    trap frame and the saved context of a process are fields of [proc]; of the
    rest of its kernel stack nothing is kept. *)
From S2P Require Import Prelude.
From S2P Require Import Kernel.
From S2P Require Import Spinlock.
From S2P Require Import Memory.
From S2P Require Import Libstr.
From S2P Require Import Cprintf.
From S2P Require Import Kalloc.
From S2P Require Import Sched.
From S2P Require Import Vm.
From S2P Require Import Log.
From S2P Require Import Inode.
From S2P Require Import Fs.
From S2P Require Import File.

Definition pinit : K unit := initlock LPtable "ptable".

(** The scan of allocproc() for an UNUSED slot. *)
Definition find_unused : K (option nat) :=
  for_range NPROC 0 (λ i,
    p ← proc_get i;
    mret (if bool_decide (p.(state) = UNUSED) then Some i else None)).

Definition allocproc (fuel : nat) : K (option nat) :=
  acquire LPtable;;
  f ← find_unused;
  match f with
  | None => release LPtable;; mret None
  | Some p =>
      proc_upd p (set_state EMBRYO);;
      n ← get (λ k, k.(pt).(nextpid));
      proc_upd p (set_pid n);;
      modify (λ k, set_pt (set_nextpid (s32 (n + 1)) k.(pt)) k);;
      r ← cmostimess fuel;
      proc_upd p (set_prio (r.(second) `mod` 10 + 1));;
      release LPtable;;
      ks ← kalloc;
      proc_upd p (set_kstack ks);;
      if ks =? 0 then
        proc_upd p (set_state UNUSED);;
        mret None
      else
        proc_upd p (set_context CtxForkret);;
        mret (Some p)
  end.

(** safestrcpy() into an array of the process: [i] characters are copied,
    [fetch i] is t[i]. *)
Fixpoint safestrcpy_into (n : nat) (fetch : Z → K Z) (i : nat) (s : list Z) : K (list Z) :=
  match n with
  | O => mret s
  | S O => mret (<[i := 0]> s)
  | S n' =>
      c ← fetch (Z.of_nat i);
      if c =? 0 then mret (<[S i := 0]> (<[i := 0]> s))
      else safestrcpy_into n' fetch (S i) (<[i := c]> s)
  end.

Definition NAMELEN : nat := 16.  (* sizeof(p->name) *)

Definition zero_tf : trapframe :=
  mk_trapframe 0 0 0 0 0 0 0 0 0 0 0 0 0 0 0 0 0 0 0.

(** The trap frame of the first process. *)
Definition init_tf : trapframe :=
  let cs := Z.lor (Z.shiftl SEG_UCODE 3) DPL_USER in
  let ds := Z.lor (Z.shiftl SEG_UDATA 3) DPL_USER in
  set_tf_eip 0 (set_tf_esp PGSIZE (set_tf_eflags FL_IF
    (set_tf_ss ds (set_tf_es ds (set_tf_ds ds (set_tf_cs cs zero_tf)))))).

(** [initcode] and [initsize] are _binary_initcode_start and _size; [root] is
    the address of the string constant "/". *)
Definition userinit (fuel : nat) (initcode initsize root : Z) : K unit :=
  p ← allocproc fuel;
  modify (λ k, set_pt (set_initproc p k.(pt)) k);;
  match p with
  | None => fail (CpuFault "null process")
  | Some p =>
      pd ← setupkvm;
      proc_upd p (set_pgdir pd);;
      if pd =? 0 then panic "userinit: out of memory?" else
      inituvm pd initcode initsize;;
      proc_upd p (set_sz PGSIZE);;
      proc_upd p (set_tf init_tf);;
      x ← proc_get p;
      nm ← safestrcpy_into NAMELEN (byte_at (codes "initcode" ++ [0])) 0 x.(name);
      proc_upd p (set_name nm);;
      c ← namei root;
      proc_upd p (set_cwd c);;
      acquire LPtable;;
      proc_upd p (set_state RUNNABLE);;
      release LPtable
  end.

Definition growproc (n : Z) : K Z :=
  p ← curproc;
  x ← proc_get p;
  sz_ ← (if 0 <? n then
           s ← allocuvm x.(pgdir) x.(sz) (u32 (x.(sz) + n));
           mret (if s =? 0 then None else Some s)
         else if n <? 0 then
           s ← deallocuvm x.(pgdir) x.(sz) (u32 (x.(sz) + n));
           mret (if s =? 0 then None else Some s)
         else mret (Some x.(sz)));
  match sz_ with
  | None => mret (-1)
  | Some s =>
      proc_upd p (set_sz s);;
      switchuvm (Some p);;
      mret 0
  end.

(** curproc->ofile[fd] *)
Definition ofile_get (p fd : nat) : K (option nat) :=
  x ← proc_get p;
  match x.(ofile) !! fd with
  | Some v => mret v
  | None => fail (CpuFault "ofile")
  end.
Definition ofile_set (p fd : nat) (v : option nat) : K unit :=
  ofile_get p fd;;
  proc_upd p (λ x, set_ofile (<[fd := v]> x.(ofile)) x).

Definition fork (fuel : nat) : K Z :=
  p ← curproc;
  np ← allocproc fuel;
  match np with
  | None => mret (-1)
  | Some np =>
      x ← proc_get p;
      pd ← copyuvm x.(pgdir) x.(sz);
      proc_upd np (set_pgdir pd);;
      if pd =? 0 then
        y ← proc_get np;
        kfree y.(kstack);;
        proc_upd np (set_kstack 0);;
        proc_upd np (set_state UNUSED);;
        mret (-1)
      else
      proc_upd np (set_sz x.(sz));;
      proc_upd np (set_parent (Some p));;
      proc_upd np (set_tf (set_tf_eax 0 x.(tf)));;
      for_acc NOFILE 0 (λ i _,
        o ← ofile_get p i;
        match o with
        | Some f => f' ← filedup f; ofile_set np i (Some f')
        | None => mret tt
        end) tt;;
      x ← proc_get p;
      c ← idup x.(cwd);
      proc_upd np (set_cwd (Some c));;
      y ← proc_get np;
      nm ← safestrcpy_into NAMELEN (byte_at x.(name)) 0 y.(name);
      proc_upd np (set_name nm);;
      y ← proc_get np;
      let pid_ := y.(pid) in
      acquire LPtable;;
      proc_upd np (set_state RUNNABLE);;
      release LPtable;;
      mret pid_
  end.

(** The loop of exit() over the descriptors. *)
Definition close_files (p : nat) : K unit :=
  for_acc NOFILE 0 (λ fd _,
    o ← ofile_get p fd;
    match o with
    | Some f => fileclose f;; ofile_set p fd None
    | None => mret tt
    end) tt.

(** The loop of exit() that passes the children of [p] to init. *)
Definition reparent (p : nat) (init : option nat) : K unit :=
  for_acc NPROC 0 (λ i _,
    x ← proc_get i;
    when (bool_decide (x.(parent) = Some p)) (
      proc_upd i (set_parent init);;
      x ← proc_get i;
      when (bool_decide (x.(state) = ZOMBIE)) (wakeup1 (chan_of_proc init)))) tt.

Definition exit : K unit :=
  p ← curproc;
  init ← get (λ k, k.(pt).(initproc));
  if bool_decide (Some p = init) then panic "init exiting" else
  close_files p;;
  begin_op;;
  x ← proc_get p;
  iput x.(cwd);;
  end_op;;
  proc_upd p (set_cwd None);;
  acquire LPtable;;
  x ← proc_get p;
  wakeup1 (chan_of_proc x.(parent));;
  reparent p init;;
  proc_upd p (set_state ZOMBIE);;
  sched CtxExit;;
  panic "zombie exit".

(** What wait() does with a zombie child [i]. *)
Definition reap (i : nat) : K Z :=
  x ← proc_get i;
  let pid_ := x.(pid) in
  kfree x.(kstack);;
  proc_upd i (set_kstack 0);;
  freevm x.(pgdir);;
  proc_upd i (set_pid 0);;
  proc_upd i (set_parent None);;
  proc_upd i (λ x, set_name (<[0%nat := 0]> x.(name)) x);;
  proc_upd i (set_killed 0);;
  proc_upd i (set_state UNUSED);;
  proc_upd i (set_prio 0);;
  release LPtable;;
  mret pid_.

(** The scan of wait(): the pid of a child reaped, or whether there are children. *)
Fixpoint wait_scan (n i p : nat) (havekids : bool) : K (Z + bool) :=
  match n with
  | O => mret (inr havekids)
  | S n' =>
      x ← proc_get i;
      if negb (bool_decide (x.(parent) = Some p)) then wait_scan n' (S i) p havekids else
      if bool_decide (x.(state) = ZOMBIE) then pid_ ← reap i; mret (inl pid_)
      else wait_scan n' (S i) p true
  end.

(** One turn of the loop of wait(), entered again when the process has slept. *)
Definition wait_turn (p : nat) (_ : unit) : K (unit + Z) :=
  r ← wait_scan NPROC 0 p false;
  match r with
  | inl pid_ => mret (inr pid_)
  | inr havekids =>
      x ← proc_get p;
      if negb havekids || truth x.(killed) then
        release LPtable;;
        mret (inr (-1))
      else
        sleep (ChProc p) LPtable;;
        mret (inl tt)
  end.

Definition wait : K Z :=
  p ← curproc;
  acquire LPtable;;
  while32 (wait_turn p) tt.

Definition forkret : K unit :=
  release LPtable;;
  f ← get (λ k, k.(pt).(first));
  when f (
    modify (λ k, set_pt (set_first false k.(pt)) k);;
    iinit ROOTDEV;;
    initlog ROOTDEV).
