(* ===== verification/Syscall.v ===== *)
(** * syscall.c: the arguments of system calls

    A function that returns -1 or stores a value through a pointer returns
    [None] or [Some] of the value. User memory is read through the page table
    of the process, as the code does. The dispatcher syscall() is with trap(). *)
From S2P Require Import Prelude.
From S2P Require Import Kernel.
From S2P Require Import Spinlock.
From S2P Require Import Memory.
From S2P Require Import Sched.
From S2P Require Import SchedProps.
From S2P Require Import Sleeplock.

Definition fetchint (addr : Z) : K (option Z) :=
  p ← curproc;
  x ← proc_get p;
  if (x.(sz) <=? addr) || (x.(sz) <? u32 (addr + 4)) then mret None else
  v ← ld32 addr;
  mret (Some (s32 v)).

(** One turn of the loop of fetchstr(); the length of the string at [pp]. *)
Definition fetchstr_turn (pp ep s : Z) : K (Z + option Z) :=
  if negb (s <? ep) then mret (inr None) else
  c ← ldb s;
  if c =? 0 then mret (inr (Some (s32 (s - pp)))) else mret (inl (u32 (s + 1))).

(** The string's length; the string is at [addr]. *)
Definition fetchstr (addr : Z) : K (option Z) :=
  p ← curproc;
  x ← proc_get p;
  if x.(sz) <=? addr then mret None else
  while32 (fetchstr_turn addr x.(sz)) addr.

Definition argint (n : Z) : K (option Z) :=
  p ← curproc;
  x ← proc_get p;
  fetchint (u32 (x.(tf).(tf_esp) + 4 + 4 * n)).

Definition argptr (n size : Z) : K (option Z) :=
  p ← curproc;
  a ← argint n;
  match a with
  | None => mret None
  | Some i =>
      x ← proc_get p;
      if (size <? 0) || (x.(sz) <=? u32 i) || (x.(sz) <? u32 (u32 i + size)) then mret None
      else mret (Some (u32 i))
  end.

(** The address of the string and its length. *)
Definition argstr (n : Z) : K (option (Z * Z)) :=
  a ← argint n;
  match a with
  | None => mret None
  | Some addr =>
      l ← fetchstr (u32 addr);
      match l with
      | None => mret None
      | Some len => mret (Some (u32 addr, len))
      end
  end.

(** ** User memory as the kernel sees it *)

(** The byte and the word at user address [a]. *)
Definition ubyte (k : kernel) (a : Z) : Z := rd k.(mem) (default 0 (xlate k a false)).
Definition uword (k : kernel) (a : Z) : Z :=
  ubyte k a + 2 ^ 8 * ubyte k (a + 1) + 2 ^ 16 * ubyte k (a + 2) + 2 ^ 24 * ubyte k (a + 3).

(** The addresses below [s] are mapped. *)
Definition user_mapped (k : kernel) (s : Z) : Prop := ∀ a, 0 <= a < s → is_Some (xlate k a false).

Lemma ubyte_range k a : is_u8 (ubyte k a).
Proof. apply rd_range. Qed.

Lemma uword_range k a : is_u32 (uword k a).
Proof.
  unfold uword, is_u32. pose proof (ubyte_range k a). pose proof (ubyte_range k (a + 1)).
  pose proof (ubyte_range k (a + 2)). pose proof (ubyte_range k (a + 3)). unfold is_u8 in *. lia.
Qed.

Lemma ldb_user k s a : user_mapped k s → 0 <= a < s → ldb a k = Ok (ubyte k a) k.
Proof. intros Hm Ha. destruct (Hm a Ha) as [b Hb]. unfold ubyte. rewrite Hb. by apply ldb_xlate. Qed.

Lemma ld32_user k s a : user_mapped k s → 0 <= a → a + 4 <= s → ld32 a k = Ok (uword k a) k.
Proof.
  intros Hm H0 Ha. unfold ld32. do 4 (mstep by (apply (ldb_user k s); [done|lia])). done.
Qed.

Section args.
  Context (k : kernel) (c i : nat) (x : proc).
  Hypothesis Hp : in_proc k c i x.
  Hypothesis Hsz : 0 <= x.(sz) <= KERNBASE.
  Hypothesis Hm : user_mapped k x.(sz).
  #[local] Abbreviation settled_k := (set_hw (touch c k.(hw)) k).

Lemma curproc_settles : curproc k = Ok i settled_k ∧ curproc settled_k = Ok i settled_k.
Proof using Hp.
  destruct Hp as [Hat Hr Hx Hl]. split; [by eapply curproc_ok|].
  rewrite (curproc_ok settled_k c 0 i); [|by apply cpu_at_touch|lia|by apply runs_touch].
  cbn [hw set_hw]. by rewrite (touch_touch _ _ 0), set_hw_set_hw.
Qed.

Lemma args_get : proc_get i settled_k = Ok x settled_k.
Proof using Hp. apply proc_get_ok, Hp. Qed.

Lemma fetchint_ok k' addr : k' = k ∨ k' = settled_k → is_u32 addr →
  fetchint addr k' = Ok (if decide (addr + 4 <= x.(sz)) then Some (s32 (uword k addr)) else None) settled_k.
Proof using Hp Hsz Hm.
  intros Hk Ha. destruct curproc_settles as [E1 E2]. unfold fetchint.
  assert (E : curproc k' = Ok i settled_k) by (by destruct Hk as [-> | ->]). mstep by exact E. mstep by exact args_get.
  unfold is_u32, KERNBASE in *. destruct (decide (addr + 4 <= sz x)) as [Hlt|Hge].
  - rewrite (proj2 (Z.leb_gt _ _)) by lia. rewrite u32_small by (unfold is_u32; lia).
    rewrite (proj2 (Z.ltb_ge _ _)) by lia. cbn [orb].
    by mstep by (apply (ld32_user settled_k x.(sz)); [exact Hm|lia|lia]).
  - destruct (Z.leb_spec x.(sz) addr); [done|]. rewrite u32_small by (unfold is_u32; lia).
    by rewrite (proj2 (Z.ltb_lt _ _)) by lia.
Qed.

(** The address of the n-th argument. *)
Definition arg_addr (n : Z) : Z := u32 (x.(tf).(tf_esp) + 4 + 4 * n).

Lemma argint_ok k' n : k' = k ∨ k' = settled_k →
  argint n k' = Ok (if decide (arg_addr n + 4 <= x.(sz)) then Some (s32 (uword k (arg_addr n))) else None) settled_k.
Proof using Hp Hsz Hm.
  intros Hk. destruct curproc_settles as [E1 E2]. unfold argint.
  assert (E : curproc k' = Ok i settled_k) by (by destruct Hk as [-> | ->]). mstep by exact E. mstep by exact args_get.
  apply fetchint_ok; [by right|apply u32_range].
Qed.

Lemma argptr_ok n size : is_s32 size →
  argptr n size k = Ok (if decide (arg_addr n + 4 <= x.(sz) ∧ 0 <= size ∧ uword k (arg_addr n) < x.(sz) ∧
                                   uword k (arg_addr n) + size <= x.(sz))
                        then Some (uword k (arg_addr n)) else None) settled_k.
Proof using Hp Hsz Hm.
  intros Hs. unfold argptr. mstep by exact (proj1 curproc_settles). mstep by (apply argint_ok; by right).
  pose proof (uword_range k (arg_addr n)) as Hw. unfold is_s32, is_u32, KERNBASE in *.
  destruct (decide (arg_addr n + 4 <= sz x)) as [H1|H1]; [|by rewrite decide_False by tauto].
  mstep by exact args_get. rewrite u32_s32, (u32_small (uword _ _)) by (unfold is_u32; lia).
  destruct (Z.ltb_spec size 0); [by rewrite decide_False by lia|].
  destruct (Z.leb_spec x.(sz) (uword k (arg_addr n))); [by rewrite decide_False by lia|].
  rewrite u32_small by (unfold is_u32; lia).
  destruct (Z.ltb_spec x.(sz) (uword k (arg_addr n) + size)); [by rewrite decide_False by lia|].
  by rewrite decide_True by lia.
Qed.

(** The scan of fetchstr() over [n] bytes without a NUL. *)
Lemma fetchstr_scan pp n : ∀ s g, 0 <= pp <= s → s + Z.of_nat n <= x.(sz) →
  (∀ j, s <= j < s + Z.of_nat n → ubyte k j ≠ 0) →
  while_fuel (n + g) (fetchstr_turn pp x.(sz)) s settled_k
  = while_fuel g (fetchstr_turn pp x.(sz)) (s + Z.of_nat n) settled_k.
Proof using Hsz Hm.
  induction n as [|n IH]; intros s g Hs Hn Hz; [by rewrite Z.add_0_r|]. cbn [Nat.add while_fuel].
  rewrite (bind_Ok _ _ _ (inl (s + 1)) settled_k); cycle 1.
  { unfold fetchstr_turn. rewrite (proj2 (Z.ltb_lt _ _)) by lia. cbn [negb].
    mstep by (apply (ldb_user settled_k x.(sz)); [exact Hm|lia]). change (ubyte settled_k s) with (ubyte k s).
    rewrite (proj2 (Z.eqb_neq _ _)) by (apply Hz; lia). unfold KERNBASE in *. by rewrite u32_small by (unfold is_u32; lia). }
  rewrite IH; [|lia|lia|intros j Hj; apply Hz; lia]. f_equal. lia.
Qed.

(** The string at [a], of length [len], ends before the end of the process. *)
Definition user_string (a len : Z) : Prop :=
  0 <= len ∧ a + len < x.(sz) ∧ ubyte k (a + len) = 0 ∧ ∀ j, 0 <= j < len → ubyte k (a + j) ≠ 0.

Lemma fetchstr_ok k' a : k' = k ∨ k' = settled_k → 0 <= a →
  (∀ len, user_string a len → fetchstr a k' = Ok (Some len) settled_k) ∧
  ((∀ j, a <= j < x.(sz) → ubyte k j ≠ 0) → fetchstr a k' = Ok None settled_k).
Proof using Hp Hsz Hm.
  intros Hk Ha. destruct curproc_settles as [E1 E2]. unfold fetchstr.
  assert (E : curproc k' = Ok i settled_k) by (by destruct Hk as [-> | ->]).
  rewrite !(bind_Ok _ _ _ _ _ E), !(bind_Ok _ _ _ _ _ args_get). unfold KERNBASE in *. split.
  - intros len (H0 & Hl & Hnul & Hnz). rewrite (proj2 (Z.leb_gt _ _)) by lia.
    apply (while32_fuel (Z.to_nat len + 1)); [lia|]. rewrite fetchstr_scan; [|lia|lia|].
    + rewrite Z2Nat.id by done. cbn [while_fuel]. rewrite (bind_Ok _ _ _ (inr (Some len)) settled_k); [done|].
      unfold fetchstr_turn. rewrite (proj2 (Z.ltb_lt _ _)) by lia. cbn [negb].
      mstep by (apply (ldb_user settled_k x.(sz)); [exact Hm|lia]).
      change (ubyte settled_k ?b) with (ubyte k b). rewrite Hnul. cbn [Z.eqb].
      rewrite s32_small by (unfold is_s32; lia). unfold mret, M_ret. do 3 f_equal. lia.
    + intros j Hj. replace j with (a + (j - a)) by lia. apply Hnz. lia.
  - intros Hnz. destruct (Z.leb_spec x.(sz) a); [done|].
    apply (while32_fuel (Z.to_nat (x.(sz) - a) + 1)); [lia|]. rewrite fetchstr_scan; [|lia|lia|intros j Hj; apply Hnz; lia].
    cbn [while_fuel]. rewrite (bind_Ok _ _ _ (inr None) settled_k); [done|].
    unfold fetchstr_turn. by rewrite (proj2 (Z.ltb_ge _ _)) by lia.
Qed.

Lemma argstr_ok n :
  let a := uword k (arg_addr n) in
  (arg_addr n + 4 <= x.(sz) → ∀ len, user_string a len → argstr n k = Ok (Some (a, len)) settled_k) ∧
  (x.(sz) < arg_addr n + 4 ∨ (∀ j, a <= j < x.(sz) → ubyte k j ≠ 0) → argstr n k = Ok None settled_k).
Proof using Hp Hsz Hm.
  intros a. pose proof (uword_range k (arg_addr n)) as Hw. unfold argstr.
  rewrite !(bind_Ok _ _ _ _ _ (argint_ok k n (or_introl eq_refl))).
  assert (Ea : u32 (s32 (uword k (arg_addr n))) = a) by (rewrite u32_s32; by apply u32_small).
  destruct (fetchstr_ok settled_k a (or_intror eq_refl)) as [Hf1 Hf2]; [unfold a, is_u32 in *; lia|]. split.
  - intros Hn len Hl. rewrite decide_True by done. rewrite Ea. by mstep by (apply Hf1, Hl).
  - intros H. destruct (decide (arg_addr n + 4 <= sz x)); [|done]. destruct H as [H|H]; [lia|].
    rewrite Ea. by mstep by (apply Hf2, H).
Qed.

End args.

(** A string ends before the end of the process, or there is no NUL. *)
Lemma user_string_cases k x a : 0 <= a →
  (∃ len, user_string k x a len) ∨ ∀ j, a <= j < x.(sz) → ubyte k j ≠ 0.
Proof.
  intros Ha. assert (H : ∀ n, a + Z.of_nat n <= x.(sz) → (∃ len, user_string k x a len) ∨
    ∀ j, a <= j < a + Z.of_nat n → ubyte k j ≠ 0).
  { intros n. induction n as [|n IH]; intros Hn; [right; lia|].
    destruct IH as [H|H]; [lia|by left|]. destruct (decide (ubyte k (a + Z.of_nat n) = 0)) as [E|E].
    - left. exists (Z.of_nat n). split_and!; [lia|lia|done|]. intros j Hj. apply H. lia.
    - right. intros j Hj. destruct (decide (j = a + Z.of_nat n)) as [->|]; [done|]. apply H. lia. }
  destruct (decide (a <= x.(sz))) as [Hle|Hgt]; [|right; lia].
  destruct (H (Z.to_nat (x.(sz) - a))) as [H'|H']; [lia|by left|]. right. intros j Hj. apply H'. lia.
Qed.

Lemma user_string_unique k x a l l' : user_string k x a l → user_string k x a l' → l = l'.
Proof.
  intros (H0 & _ & Hn & Hz) (H0' & _ & Hn' & Hz'). destruct (Z.lt_trichotomy l l') as [H|[H|H]]; [|done|].
  - by destruct (Hz' l ltac:(lia)).
  - by destruct (Hz l' ltac:(lia)).
Qed.

(** ** Properties *)

(** C26: the kernel accepts a system call argument exactly when it lies in
    the process. The n-th argument is the word at esp+4+4n, accepted when it
    ends at or below the size of the process; argptr() accepts a pointer
    exactly when the block of [size] bytes it points to is non-empty room
    inside the process ([size] >= 0, start below the size, end at most the
    size, with no wrap-around letting a block in); argstr() accepts exactly
    the strings whose NUL is below the size and returns their length. Nothing
    else is changed. *)
Theorem argument_bounds k c i x n size :
  in_proc k c i x → 0 <= x.(sz) <= KERNBASE → user_mapped k x.(sz) → is_s32 size →
  let k' := set_hw (touch c k.(hw)) k in
  let at_ := arg_addr x n in
  let a := uword k at_ in
  (∃ r, argint n k = Ok r k' ∧ (r = Some (s32 a) ↔ at_ + 4 <= x.(sz)) ∧ (r = None ↔ x.(sz) < at_ + 4)) ∧
  (∃ r, argptr n size k = Ok r k' ∧
     (∀ p, r = Some p ↔ p = a ∧ at_ + 4 <= x.(sz) ∧ 0 <= size ∧ p < x.(sz) ∧ p + size <= x.(sz))) ∧
  (∃ r, argstr n k = Ok r k' ∧
     (∀ p len, r = Some (p, len) ↔ p = a ∧ at_ + 4 <= x.(sz) ∧ user_string k x p len)).
Proof.
  intros Hp Hsz Hm Hs k' at_ a. split_and!.
  - eexists. split; [apply (argint_ok k c i x Hp Hsz Hm k n); by left|]. fold at_ a.
    destruct (decide _); split; split; try done; lia.
  - eexists. split; [by apply (argptr_ok k c i x Hp Hsz Hm n size)|]. fold at_ a. intros p.
    destruct (decide _) as [H|H]; split.
    + intros [= <-]. tauto.
    + by intros [-> _].
    + done.
    + intros (-> & H'). tauto.
  - destruct (argstr_ok k c i x Hp Hsz Hm n) as [Hs1 Hs2]. fold at_ a in Hs1, Hs2.
    pose proof (uword_range k at_) as Ha. fold a in Ha.
    assert (Hdec : (at_ + 4 <= x.(sz) ∧ ∃ len, user_string k x a len) ∨
                   (x.(sz) < at_ + 4 ∨ ∀ j, a <= j < x.(sz) → ubyte k j ≠ 0)).
    { destruct (user_string_cases k x a (proj1 Ha)) as [H|H]; [|by right; right].
      destruct (decide (at_ + 4 <= x.(sz))); [by left|right; left; lia]. }
    destruct Hdec as [[Hat [len Hlen]]|Hno].
    + eexists. split; [by apply Hs1|]. intros p l. split.
      * intros [= <- <-]. done.
      * intros (-> & _ & Hl). by rewrite (user_string_unique k x a l len).
    + eexists. split; [by apply Hs2|]. intros p l. split; [done|]. intros (-> & Hat & H0 & Hl & Hnul & _).
      destruct Hno as [?|Hno]; [lia|]. destruct (Hno (a + l)); [|done]. unfold is_u32 in *. lia.
Qed.

(** A process of one page, mapped at the kernel page 0x80100000 by the table
    at 0x80110000 of the directory at 0x80300000. Its stack pointer is 100,
    its arguments are 200 (the address of the string "ls") and 4000. *)
Definition demo_user : proc :=
  set_tf (mk_trapframe 0 0 0 0 0 0 0 0 0 0 0 0 0 0 0 0 0 100 0)
    (set_sz 4096 (set_state RUNNING (demo_proc 7 3))).

Definition demo_args : kernel :=
  let k := demo_running [demo_user] in
  set_mem (λ a, match a with
    | 0x80300000 => 7 | 0x80300002 => 0x11
    | 0x80110000 => 7 | 0x80110002 => 0x10
    | 0x80100068 => 200
    | 0x8010006c => 0xa0 | 0x8010006d => 0x0f
    | 0x801000c8 => 108 | 0x801000c9 => 115
    | _ => 0
    end) (set_hw (set_cr3 (λ _, 0x300000) k.(hw)) k).

Lemma demo_args_proc : in_proc demo_args 0 0 demo_user.
Proof.
  pose proof (demo_in_proc demo_user [] ltac:(unfold NPROC; cbn; lia)) as [(y & [H1 H2 H3] & H4 & H5) (z & [H6 H7 H8] & H9) H10 H11].
  split; [exists y; split; [by split|done]|exists z; split; [by split|done]|done|done].
Qed.

Lemma demo_args_xlate a : 0 <= a < 4096 → xlate demo_args a false = Some (0x80100000 + a).
Proof.
  intros Ha. unfold xlate. rewrite (u32_small a) by (unfold is_u32; lia).
  rewrite (proj2 (Z.leb_gt _ _)) by (unfold KERNBASE; lia). unfold mmu.
  assert (E1 : PDX a = 0).
  { unfold PDX. rewrite (u32_small a) by (unfold is_u32; lia). rewrite Z.shiftr_div_pow2 by (unfold PDXSHIFT; lia).
    by rewrite Z.div_small by (unfold PDXSHIFT; lia). }
  assert (E2 : PTX a = 0).
  { unfold PTX. rewrite (u32_small a) by (unfold is_u32; lia). rewrite Z.shiftr_div_pow2 by (unfold PTXSHIFT; lia).
    by rewrite Z.div_small by (unfold PTXSHIFT; lia). }
  rewrite E1, E2. change (rd32 (mem demo_args) _) with 0x110007 at 1. cbv match.
  replace (Z.land (u32 a) 0xFFF) with a; [reflexivity|]. rewrite u32_small by (unfold is_u32; lia).
  change 0xFFF with (Z.ones 12). rewrite Z.land_ones by lia. by rewrite Z.mod_small by lia.
Qed.

Lemma argument_bounds_witness :
  (∃ k', argptr 1 96 demo_args = Ok (Some 4000) k') ∧ (∃ k', argptr 1 97 demo_args = Ok None k') ∧
  ∃ k', argstr 0 demo_args = Ok (Some (200, 2)) k'.
Proof.
  assert (Hm : user_mapped demo_args demo_user.(sz)) by (intros a Ha; rewrite demo_args_xlate by exact Ha; eauto).
  assert (Hs : 0 <= demo_user.(sz) <= KERNBASE) by (unfold KERNBASE; cbn; lia).
  destruct (argument_bounds demo_args 0 0 demo_user 1 96 demo_args_proc Hs Hm) as (_ & (r1 & E1 & H1) & _); [unfold is_s32; lia|].
  destruct (argument_bounds demo_args 0 0 demo_user 1 97 demo_args_proc Hs Hm) as (_ & (r2 & E2 & H2) & _); [unfold is_s32; lia|].
  destruct (argument_bounds demo_args 0 0 demo_user 0 0 demo_args_proc Hs Hm) as (_ & _ & (r3 & E3 & H3)); [unfold is_s32; lia|].
  split_and!.
  - eexists. rewrite E1. f_equal. apply H1. split_and!; [vm_compute; reflexivity|..]; vm_compute; congruence || reflexivity.
  - eexists. rewrite E2. f_equal. destruct r2 as [p|]; [|reflexivity]. destruct (proj1 (H2 p) eq_refl) as (-> & _ & _ & _ & H).
    exfalso. revert H. vm_compute. congruence.
  - eexists. rewrite E3. f_equal. apply H3. split_and!; [vm_compute; reflexivity|vm_compute; congruence|].
    split_and!; [lia|vm_compute; reflexivity|vm_compute; reflexivity|].
    intros j Hj. assert (j = 0 ∨ j = 1) as [-> | ->] by lia; vm_compute; congruence.
Defined.
