(* ===== verification/Sysproc.v ===== *)
(** * sysproc.c: the system calls on processes, time and priorities *)
From S2P Require Import Prelude.
From S2P Require Import Kernel.
From S2P Require Import Spinlock.
From S2P Require Import Sched.
From S2P Require Import Pipe.
From S2P Require Import Proc.
From S2P Require Import Syscall.

Definition sys_fork (fuel : nat) : K Z := fork fuel.

Definition sys_exit : K Z := exit;; mret 0.

Definition sys_wait : K Z := wait.

Definition sys_kill : K Z :=
  a ← argint 0;
  match a with
  | None => mret (-1)
  | Some pid_ => kill pid_
  end.

Definition sys_getpid : K Z :=
  p ← curproc;
  x ← proc_get p;
  mret x.(pid).

Definition sys_sbrk : K Z :=
  a ← argint 0;
  match a with
  | None => mret (-1)
  | Some n =>
      p ← curproc;
      x ← proc_get p;
      let addr := s32 x.(sz) in
      r ← growproc n;
      if r <? 0 then mret (-1) else mret addr
  end.

(** One turn of the loop of sys_sleep(), entered again when the process has slept. *)
Definition sys_sleep_turn (n ticks0 : Z) (_ : unit) : K (unit + Z) :=
  t ← get ticks;
  if u32 (t - ticks0) <? u32 n then
    stop ← am_killed;
    if (stop : bool) then
      release LTicks;;
      mret (inr (-1))
    else
      sleep ChTicks LTicks;;
      mret (inl tt)
  else
    release LTicks;;
    mret (inr 0).

Definition sys_sleep : K Z :=
  a ← argint 0;
  match a with
  | None => mret (-1)
  | Some n =>
      acquire LTicks;;
      ticks0 ← get ticks;
      while32 (sys_sleep_turn n ticks0) tt
  end.

Definition sys_uptime : K Z :=
  acquire LTicks;;
  xticks ← get ticks;
  release LTicks;;
  mret (s32 xticks).

(** ** The clock *)

Definition cmos_reads (reg : Z) : K Z := λ k,
  Ok (u8 (k.(rtc).(rtc_port) k.(rtc).(rtc_reads) reg))
     (set_rtc (set_rtc_reads (S k.(rtc).(rtc_reads)) k.(rtc)) k).

Definition fill_rtcdates : K rtcdate :=
  s ← cmos_reads SECS;
  mi ← cmos_reads MINS;
  h ← cmos_reads HOURS;
  d ← cmos_reads DAY;
  mo ← cmos_reads MONTH;
  y ← cmos_reads YEAR;
  mret (mk_rtcdate s mi h d mo y).

Definition cmostimes_turn (_ : unit) : K (unit + rtcdate) :=
  t1 ← fill_rtcdates;
  a ← cmos_reads CMOS_STATA;
  if negb (Z.land a CMOS_UIP =? 0) then mret (inl tt) else
  t2 ← fill_rtcdates;
  mret (if bool_decide (t1 = t2) then inr t1 else inl tt).

Definition cmostimes (fuel : nat) : K rtcdate :=
  sb_ ← cmos_reads CMOS_STATB;
  let bcd := Z.land sb_ (Z.shiftl 1 2) =? 0 in
  t1 ← while_fuel fuel cmostimes_turn tt;
  let t1 := if (bcd : bool) then
              mk_rtcdate (CONV t1.(second)) (CONV t1.(minute)) (CONV t1.(hour))
                (CONV t1.(day)) (CONV t1.(month)) (CONV t1.(year))
            else t1 in
  mret (mk_rtcdate t1.(second) t1.(minute) t1.(hour) t1.(day) t1.(month) (u32 (t1.(year) + 2000))).

(** The time of day in seconds, five and a half hours ahead of the clock. *)
Definition sys_ssm (fuel : nat) : K Z :=
  r ← cmostimes fuel;
  mret (u32 (r.(second) + r.(minute) * 60 + r.(hour) * 60 * 60 + 5 * 3600 + 30 * 60) `mod` 86400).

(** ** Priorities *)

Definition sys_getpriority : K Z :=
  p ← curproc;
  x ← proc_get p;
  gp x.(pid).

Definition sys_setpriority : K Z :=
  a ← argint 0;
  match a with
  | None => mret (-1)
  | Some prio_ =>
      p ← curproc;
      x ← proc_get p;
      sp x.(pid) prio_
  end.
