(* ===== verification/Exec.v ===== *)
(** * exec.c, and loaduvm() of vm.c

    exec() builds the new address space, loads the ELF segments into it, pushes
    the arguments and commits. The two headers are read into local variables;
    the local array ustack, from which copyout() reads, is at address [ustack]
    of the kernel stack. *)
From S2P Require Import Prelude.
From S2P Require Import Kernel.
From S2P Require Import Spinlock.
From S2P Require Import Memory.
From S2P Require Import Libstr.
From S2P Require Import Cprintf.
From S2P Require Import Sched.
From S2P Require Import Vm.
From S2P Require Import Log.
From S2P Require Import Inode.
From S2P Require Import Fs.
From S2P Require Import Proc.

(** ** loaduvm() *)

Definition loaduvm_turn (pgdir_ addr : Z) (ip : nat) (offset sz_ i : Z) : K (Z + Z) :=
  if negb (i <? sz_) then mret (inr 0) else
  pte ← walkpgdir pgdir_ (u32 (addr + i)) false;
  if pte =? 0 then panic "loaduvm: address should exist" else
  v ← ld32 pte;
  let pa := PTE_ADDR v in
  let n := if sz_ - i <? PGSIZE then sz_ - i else PGSIZE in
  r ← readi ip (P2V pa) (u32 (offset + i)) n;
  if negb (u32 r =? n) then mret (inr (-1)) else
  mret (inl (u32 (i + PGSIZE))).

Definition loaduvm (pgdir_ addr : Z) (ip : nat) (offset sz_ : Z) : K Z :=
  if negb (addr `mod` PGSIZE =? 0) then panic "loaduvm: addr must be page aligned" else
  while_fuel (Z.to_nat (sz_ / PGSIZE + 2)) (loaduvm_turn pgdir_ addr ip offset sz_) 0.

(** ** elf.h *)

Definition ELF_MAGIC : Z := 0x464C457F.
Definition ELF_PROG_LOAD : Z := 1.

Record elfhdr : Type := mk_elfhdr { magic : Z; entry_ : Z; phoff : Z; phnum : Z }.
Record proghdr : Type := mk_proghdr {
  ph_type : Z; ph_off : Z; ph_vaddr : Z; ph_filesz : Z; ph_memsz : Z }.

(** The fields exec() reads, at their offsets. *)
Definition ELFHDR : Z := 52.   (* sizeof(struct elfhdr) *)
Definition PROGHDR : Z := 32.  (* sizeof(struct proghdr) *)

Definition elfhdr_of (l : list Z) : elfhdr :=
  mk_elfhdr (word_at l 0) (word_at l 24) (word_at l 28) (half_at l 44).
Definition proghdr_of (l : list Z) : proghdr :=
  mk_proghdr (word_at l 0) (word_at l 4) (word_at l 8) (word_at l 16) (word_at l 20).

(** ** exec() *)

(** The label bad. *)
Definition exec_bad (pgdir_ : Z) (ip : option nat) : K Z :=
  when (truth pgdir_) (freevm pgdir_);;
  match ip with
  | Some _ => iunlockput ip;; end_op
  | None => mret tt
  end;;
  mret (-1).

(** One program header; [inr None] is goto bad. *)
Definition load_turn (pgdir_ : Z) (ip : nat) (elf : elfhdr) (v : Z * Z * Z) :
    K ((Z * Z * Z) + option Z) :=
  let '(i, off, sz_) := v in
  if negb (i <? elf.(phnum)) then mret (inr (Some sz_)) else
  '(r, bytes) ← readi_local ip off PROGHDR;
  if negb (r =? PROGHDR) then mret (inr None) else
  let ph := proghdr_of bytes in
  let next (s : Z) := (i + 1, u32 (off + PROGHDR), s) in
  if negb (ph.(ph_type) =? ELF_PROG_LOAD) then mret (inl (next sz_)) else
  if ph.(ph_memsz) <? ph.(ph_filesz) then mret (inr None) else
  if u32 (ph.(ph_vaddr) + ph.(ph_memsz)) <? ph.(ph_vaddr) then mret (inr None) else
  s ← allocuvm pgdir_ sz_ (u32 (ph.(ph_vaddr) + ph.(ph_memsz)));
  if s =? 0 then mret (inr None) else
  if negb (ph.(ph_vaddr) `mod` PGSIZE =? 0) then mret (inr None) else
  r ← loaduvm pgdir_ ph.(ph_vaddr) ip ph.(ph_off) ph.(ph_filesz);
  if r <? 0 then mret (inr None) else mret (inl (next s)).

(** One argument string; the result is argc and sp. *)
Definition push_turn (pgdir_ ustack : Z) (argv : list Z) (v : nat * Z) :
    K ((nat * Z) + option (nat * Z)) :=
  let '(argc, sp_) := v in
  match argv !! argc with
  | None => fail (CpuFault "argv")
  | Some a =>
      if a =? 0 then mret (inr (Some (argc, sp_))) else
      if (MAXARG <=? argc)%nat then mret (inr None) else
      l ← strlen a;
      let sp_ := Z.land (u32 (sp_ - (l + 1))) (u32 (Z.lnot 3)) in
      l ← strlen a;
      r ← copyout pgdir_ sp_ a (u32 (l + 1));
      if r <? 0 then mret (inr None) else
      st32 (u32 (ustack + 4 * (3 + Z.of_nat argc))) sp_;;
      mret (inl (S argc, sp_))
  end.

(** for(last=s=path; *s; s++) if( *s == '/' ) last = s+1; *)
Definition last_turn (v : Z * Z) : K ((Z * Z) + Z) :=
  let '(last, s) := v in
  c ← ldb s;
  if c =? 0 then mret (inr last) else
  mret (inl (if c =? slash then u32 (s + 1) else last, u32 (s + 1))).

(** From the commit point on. *)
Definition exec_commit (p : nat) (pgdir_ sz_ sp_ : Z) (elf : elfhdr) (path : Z) : K Z :=
  last ← while32 last_turn (path, path);
  x ← proc_get p;
  nm ← safestrcpy_into NAMELEN (λ i, ldb (u32 (last + i))) 0 x.(name);
  proc_upd p (set_name nm);;
  x ← proc_get p;
  let oldpgdir := x.(pgdir) in
  proc_upd p (set_pgdir pgdir_);;
  proc_upd p (set_sz sz_);;
  proc_upd p (λ x, set_tf (set_tf_eip elf.(entry_) x.(tf)) x);;
  proc_upd p (λ x, set_tf (set_tf_esp sp_ x.(tf)) x);;
  switchuvm (Some p);;
  freevm oldpgdir;;
  mret 0.

(** From the allocation of the stack on: the inode is closed. *)
Definition exec_stack (ustack : Z) (p : nat) (pgdir_ sz_ : Z) (elf : elfhdr) (path : Z) (argv : list Z) : K Z :=
  let sz_ := PGROUNDUP sz_ in
  sz_ ← allocuvm pgdir_ sz_ (u32 (sz_ + 2 * PGSIZE));
  if sz_ =? 0 then exec_bad pgdir_ None else
  clearpteu pgdir_ (u32 (sz_ - 2 * PGSIZE));;
  a ← while_fuel (MAXARG + 2) (push_turn pgdir_ ustack argv) (O, sz_);
  match a with
  | None => exec_bad pgdir_ None
  | Some (argc, sp_) =>
      let argc := Z.of_nat argc in
      st32 (u32 (ustack + 4 * (3 + argc))) 0;;
      st32 (u32 ustack) 0xffffffff;;
      st32 (u32 (ustack + 4)) argc;;
      st32 (u32 (ustack + 8)) (u32 (sp_ - (argc + 1) * 4));;
      let sp_ := u32 (sp_ - (3 + argc + 1) * 4) in
      r ← copyout pgdir_ sp_ ustack ((3 + argc + 1) * 4);
      if r <? 0 then exec_bad pgdir_ None else
      exec_commit p pgdir_ sz_ sp_ elf path
  end.

Definition exec (ustack path : Z) (argv : list Z) : K Z :=
  p ← curproc;
  begin_op;;
  o ← namei path;
  match o with
  | None =>
      end_op;;
      cprintf ("exec: fail" +:+ nl) [];;
      mret (-1)
  | Some ip =>
      ilock (Some ip);;
      '(r, bytes) ← readi_local ip 0 ELFHDR;
      if negb (r =? ELFHDR) then exec_bad 0 (Some ip) else
      let elf := elfhdr_of bytes in
      if negb (elf.(magic) =? ELF_MAGIC) then exec_bad 0 (Some ip) else
      pgdir_ ← setupkvm;
      if pgdir_ =? 0 then exec_bad 0 (Some ip) else
      s ← while_fuel (Z.to_nat (elf.(phnum) + 2)) (load_turn pgdir_ ip elf) (0, elf.(phoff), 0);
      match s with
      | None => exec_bad pgdir_ (Some ip)
      | Some sz_ =>
          iunlockput (Some ip);;
          end_op;;
          exec_stack ustack p pgdir_ sz_ elf path argv
      end
  end.
