(* ===== verification/Sysfile.v ===== *)
(** * sysfile.c: the system calls on files *)
From S2P Require Import Prelude.
From S2P Require Import Kernel.
From S2P Require Import Spinlock.
From S2P Require Import Memory.
From S2P Require Import Cprintf.
From S2P Require Import Sched.
From S2P Require Import Log.
From S2P Require Import Inode.
From S2P Require Import Fs.
From S2P Require Import File.
From S2P Require Import Proc.
From S2P Require Import Syscall.
From S2P Require Import Exec.

(** fcntl.h *)
Definition O_RDONLY : Z := 0x000.
Definition O_WRONLY : Z := 0x001.
Definition O_RDWR : Z := 0x002.
Definition O_CREATE : Z := 0x200.

(** The descriptor and its file. *)
Definition argfd (n : Z) : K (option (nat * nat)) :=
  a ← argint n;
  match a with
  | None => mret None
  | Some fd =>
      if (fd <? 0) || (Z.of_nat NOFILE <=? fd) then mret None else
      p ← curproc;
      o ← ofile_get p (Z.to_nat fd);
      match o with
      | None => mret None
      | Some f => mret (Some (Z.to_nat fd, f))
      end
  end.

Definition fdalloc (f : nat) : K (option nat) :=
  p ← curproc;
  for_range NOFILE 0 (λ fd,
    o ← ofile_get p fd;
    match o with
    | None => ofile_set p fd (Some f);; mret (Some fd)
    | Some _ => mret None
    end).

Definition sys_dup : K Z :=
  a ← argfd 0;
  match a with
  | None => mret (-1)
  | Some (_, f) =>
      fd ← fdalloc f;
      match fd with
      | None => mret (-1)
      | Some fd => filedup f;; mret (Z.of_nat fd)
      end
  end.

(** The arguments of read() and write(): file, address and count. *)
Definition rw_args : K (option (nat * Z * Z)) :=
  a ← argfd 0;
  match a with
  | None => mret None
  | Some (_, f) =>
      b ← argint 2;
      match b with
      | None => mret None
      | Some n =>
          c ← argptr 1 n;
          match c with
          | None => mret None
          | Some p => mret (Some (f, p, n))
          end
      end
  end.

Definition sys_read : K Z :=
  a ← rw_args;
  match a with
  | None => mret (-1)
  | Some (f, p, n) => fileread f p n
  end.

Definition sys_write : K Z :=
  a ← rw_args;
  match a with
  | None => mret (-1)
  | Some (f, p, n) => filewrite f p n
  end.

Definition sys_close : K Z :=
  a ← argfd 0;
  match a with
  | None => mret (-1)
  | Some (fd, f) =>
      p ← curproc;
      ofile_set p fd None;;
      fileclose f;;
      mret 0
  end.

Definition sys_fstat : K Z :=
  a ← argfd 0;
  match a with
  | None => mret (-1)
  | Some (_, f) =>
      b ← argptr 1 STAT;
      match b with
      | None => mret (-1)
      | Some st => filestat f st
      end
  end.

(** The label bad of sys_link(). *)
Definition link_bad (ip : nat) : K Z :=
  ilock (Some ip);;
  ino_upd ip (λ x, set_i_nlink (s16 (x.(i_nlink) - 1)) x);;
  iupdate ip;;
  iunlockput (Some ip);;
  end_op;;
  mret (-1).

Definition sys_link : K Z :=
  a ← argstr 0;
  match a with
  | None => mret (-1)
  | Some (old, _) =>
  b ← argstr 1;
  match b with
  | None => mret (-1)
  | Some (new, _) =>
      begin_op;;
      o ← namei old;
      match o with
      | None => end_op;; mret (-1)
      | Some ip =>
          ilock (Some ip);;
          x ← ino_get ip;
          if x.(i_type) =? T_DIR then
            iunlockput (Some ip);;
            end_op;;
            mret (-1)
          else
          ino_upd ip (λ x, set_i_nlink (s16 (x.(i_nlink) + 1)) x);;
          iupdate ip;;
          iunlock (Some ip);;
          '(d, name_) ← nameiparent new name_buf;
          match d with
          | None => link_bad ip
          | Some dp =>
              ilock (Some dp);;
              y ← ino_get dp;
              x ← ino_get ip;
              linked ← (if negb (y.(i_dev) =? x.(i_dev)) then mret false else
                        r ← dirlink dp name_ x.(i_inum);
                        mret (negb (r <? 0)));
              if negb linked then
                iunlockput (Some dp);;
                link_bad ip
              else
              iunlockput (Some dp);;
              iput (Some ip);;
              end_op;;
              mret 0
          end
      end
  end
  end.

Definition isdirempty_turn (dp : nat) (off : Z) : K (Z + Z) :=
  x ← ino_get dp;
  if negb (off <? x.(i_size)) then mret (inr 1) else
  '(r, de) ← readi_local dp off DIRENT;
  if negb (r =? DIRENT) then panic "isdirempty: readi" else
  if negb (de_inum de =? 0) then mret (inr 0) else mret (inl (off + DIRENT)).

Definition isdirempty (dp : nat) : K Z :=
  x ← ino_get dp;
  while_fuel (Z.to_nat (x.(i_size) / DIRENT + 2)) (isdirempty_turn dp) (2 * DIRENT).

(** The label bad of sys_unlink(). *)
Definition unlink_bad (dp : nat) : K Z :=
  iunlockput (Some dp);;
  end_op;;
  mret (-1).

(** From ilock(ip) on, [ip] being the entry at [off] of the directory [dp]. *)
Definition unlink_entry (dp ip : nat) (off : Z) : K Z :=
  ilock (Some ip);;
  x ← ino_get ip;
  if x.(i_nlink) <? 1 then panic "unlink: nlink < 1" else
  full ← (if x.(i_type) =? T_DIR then e ← isdirempty ip; mret (e =? 0) else mret false);
  if (full : bool) then
    iunlockput (Some ip);;
    unlink_bad dp
  else
  r ← writei_local dp (replicate (Z.to_nat DIRENT) 0) off DIRENT;
  if negb (r =? DIRENT) then panic "unlink: writei" else
  x ← ino_get ip;
  when (x.(i_type) =? T_DIR) (
    ino_upd dp (λ y, set_i_nlink (s16 (y.(i_nlink) - 1)) y);;
    iupdate dp);;
  iunlockput (Some dp);;
  ino_upd ip (λ y, set_i_nlink (s16 (y.(i_nlink) - 1)) y);;
  iupdate ip;;
  iunlockput (Some ip);;
  end_op;;
  mret 0.

(** A string constant, with its NUL. *)
Definition cstring (s : string) : list Z := codes s ++ [0].

Definition sys_unlink : K Z :=
  a ← argstr 0;
  match a with
  | None => mret (-1)
  | Some (path, _) =>
      begin_op;;
      '(d, name_) ← nameiparent path name_buf;
      match d with
      | None => end_op;; mret (-1)
      | Some dp =>
          ilock (Some dp);;
          if (namecmp name_ (cstring ".") =? 0) || (namecmp name_ (cstring "..") =? 0) then unlink_bad dp else
          o ← dirlookup dp name_;
          match o with
          | None => unlink_bad dp
          | Some (ip, off) => unlink_entry dp ip off
          end
      end
  end.

(** The part of create() that makes a new inode in the directory [dp]. *)
Definition create_new (dp : nat) (name_ : list Z) (type major minor : Z) : K (option nat) :=
  y ← ino_get dp;
  ip ← ialloc y.(i_dev) type;
  ilock (Some ip);;
  ino_upd ip (set_i_major major);;
  ino_upd ip (set_i_minor minor);;
  ino_upd ip (set_i_nlink 1);;
  iupdate ip;;
  when (type =? T_DIR) (
    ino_upd dp (λ y, set_i_nlink (s16 (y.(i_nlink) + 1)) y);;
    iupdate dp;;
    x ← ino_get ip;
    r ← dirlink ip (cstring ".") x.(i_inum);
    if r <? 0 then panic "create dots" else
    y ← ino_get dp;
    r ← dirlink ip (cstring "..") y.(i_inum);
    if r <? 0 then panic "create dots" else mret tt);;
  x ← ino_get ip;
  r ← dirlink dp name_ x.(i_inum);
  if r <? 0 then panic "create: dirlink" else
  iunlockput (Some dp);;
  mret (Some ip).

Definition create (path type major minor : Z) : K (option nat) :=
  '(d, name_) ← nameiparent path name_buf;
  match d with
  | None => mret None
  | Some dp =>
      ilock (Some dp);;
      o ← dirlookup dp name_;
      match o with
      | Some (ip, _) =>
          iunlockput (Some dp);;
          ilock (Some ip);;
          x ← ino_get ip;
          if (type =? T_FILE) && (x.(i_type) =? T_FILE) then mret (Some ip) else
          iunlockput (Some ip);;
          mret None
      | None => create_new dp name_ type major minor
      end
  end.

(** The inode that open() opens, locked; [None] after end_op(). *)
Definition open_inode (path omode : Z) : K (option nat) :=
  if truth (Z.land omode O_CREATE) then
    o ← create path T_FILE 0 0;
    match o with
    | None => end_op;; mret None
    | Some ip => mret (Some ip)
    end
  else
    o ← namei path;
    match o with
    | None => end_op;; mret None
    | Some ip =>
        ilock (Some ip);;
        x ← ino_get ip;
        if (x.(i_type) =? T_DIR) && negb (omode =? O_RDONLY) then
          iunlockput (Some ip);;
          end_op;;
          mret None
        else mret (Some ip)
    end.

(** The file and descriptor that open() allocates. *)
Definition open_fd : K (option (nat * nat)) :=
  o ← filealloc;
  match o with
  | None => mret None
  | Some f =>
      d ← fdalloc f;
      match d with
      | None => fileclose f;; mret None
      | Some fd => mret (Some (f, fd))
      end
  end.

Definition sys_open : K Z :=
  a ← argstr 0;
  match a with
  | None => mret (-1)
  | Some (path, _) =>
  b ← argint 1;
  match b with
  | None => mret (-1)
  | Some omode =>
      begin_op;;
      o ← open_inode path omode;
      match o with
      | None => mret (-1)
      | Some ip =>
          r ← open_fd;
          match r with
          | None =>
              iunlockput (Some ip);;
              end_op;;
              mret (-1)
          | Some (f, fd) =>
              iunlock (Some ip);;
              end_op;;
              file_upd f (set_f_type FD_INODE);;
              file_upd f (set_f_ip (Some ip));;
              file_upd f (set_f_off 0);;
              file_upd f (set_f_readable (if truth (Z.land omode O_WRONLY) then 0 else 1));;
              file_upd f (set_f_writable
                (if truth (Z.land omode O_WRONLY) || truth (Z.land omode O_RDWR) then 1 else 0));;
              mret (Z.of_nat fd)
          end
      end
  end
  end.

(** The end of mkdir() and mknod(). *)
Definition created (o : option nat) : K Z :=
  match o with
  | None => end_op;; mret (-1)
  | Some ip =>
      iunlockput (Some ip);;
      end_op;;
      mret 0
  end.

Definition sys_mkdir : K Z :=
  begin_op;;
  a ← argstr 0;
  match a with
  | None => created None
  | Some (path, _) =>
      o ← create path T_DIR 0 0;
      created o
  end.

Definition sys_mknod : K Z :=
  begin_op;;
  a ← argstr 0;
  match a with
  | None => created None
  | Some (path, _) =>
  b ← argint 1;
  match b with
  | None => created None
  | Some major =>
  c ← argint 2;
  match c with
  | None => created None
  | Some minor =>
      o ← create path T_DEV (s16 major) (s16 minor);
      created o
  end
  end
  end.

Definition sys_chdir : K Z :=
  p ← curproc;
  begin_op;;
  a ← argstr 0;
  o ← (match a with None => mret None | Some (path, _) => namei path end);
  match o with
  | None => end_op;; mret (-1)
  | Some ip =>
      ilock (Some ip);;
      x ← ino_get ip;
      if negb (x.(i_type) =? T_DIR) then
        iunlockput (Some ip);;
        end_op;;
        mret (-1)
      else
      iunlock (Some ip);;
      y ← proc_get p;
      iput y.(cwd);;
      end_op;;
      proc_upd p (set_cwd (Some ip));;
      mret 0
  end.

(** The loop of sys_exec() over the user's argv; [inr None] is return -1. *)
Definition exec_args_turn (uargv : Z) (v : nat * list Z) : K ((nat * list Z) + option (list Z)) :=
  let '(i, argv) := v in
  if (MAXARG <=? i)%nat then mret (inr None) else
  a ← fetchint (u32 (uargv + 4 * Z.of_nat i));
  match a with
  | None => mret (inr None)
  | Some uarg =>
      if uarg =? 0 then mret (inr (Some (<[i := 0]> argv))) else
      l ← fetchstr (u32 uarg);
      match l with
      | None => mret (inr None)
      | Some _ => mret (inl (S i, <[i := u32 uarg]> argv))
      end
  end.

Definition sys_exec (ustack : Z) : K Z :=
  a ← argstr 0;
  match a with
  | None => mret (-1)
  | Some (path, _) =>
  b ← argint 1;
  match b with
  | None => mret (-1)
  | Some uargv =>
      o ← while_fuel (MAXARG + 2) (exec_args_turn (u32 uargv)) (O, replicate MAXARG 0);
      match o with
      | None => mret (-1)
      | Some argv => exec ustack path argv
      end
  end
  end.

Definition sys_pipe : K Z :=
  a ← argptr 0 8;
  match a with
  | None => mret (-1)
  | Some fd =>
      o ← pipealloc;
      match o with
      | None => mret (-1)
      | Some (rf, wf) =>
          d0 ← fdalloc rf;
          match d0 with
          | None =>
              fileclose rf;;
              fileclose wf;;
              mret (-1)
          | Some fd0 =>
              d1 ← fdalloc wf;
              match d1 with
              | None =>
                  p ← curproc;
                  ofile_set p fd0 None;;
                  fileclose rf;;
                  fileclose wf;;
                  mret (-1)
              | Some fd1 =>
                  st32 (u32 fd) (Z.of_nat fd0);;
                  st32 (u32 (fd + 4)) (Z.of_nat fd1);;
                  mret 0
              end
          end
      end
  end.
