(* ===== verification/Ide.v ===== *)
(** * ide.c: the PIO driver of the disk

    The driver of the xv6.img kernel: a queue of buffers linked by qnext, the
    head being the active request. The controller is a device: the values its
    ports return are a function of the number of reads done, and the writes to
    its ports are recorded in order. [fuel] bounds the polls of the status
    port. iderw() is split at its call of sleep(): [iderw_wait] is the loop,
    entered again when the process has slept. *)
From S2P Require Import Prelude.
From S2P Require Import Kernel.
From S2P Require Import Spinlock.
From S2P Require Import Sched.
From S2P Require Import Sleeplock.
From S2P Require Import Bio.
From S2P Require Import Log.

Definition SECTOR_SIZE : Z := 512.
Definition IDE_BSY : Z := 0x80.
Definition IDE_DRDY : Z := 0x40.
Definition IDE_DF : Z := 0x20.
Definition IDE_ERR : Z := 0x01.
Definition IDE_CMD_READ : Z := 0x20.
Definition IDE_CMD_WRITE : Z := 0x30.
Definition IDE_CMD_RDMUL : Z := 0xc4.
Definition IDE_CMD_WRMUL : Z := 0xc5.
Definition FSSIZE : Z := 1000.

Definition upd_ide (f : ide_t → ide_t) : K unit := modify (λ k, set_ide (f k.(ide)) k).

(** inb, outb, insl and outsl of x86.h on the controller's ports. *)
Definition port_in (port : Z) : K Z := λ k,
  Ok (k.(ide).(ide_port) k.(ide).(ide_reads) port)
     (set_ide (set_ide_reads (S k.(ide).(ide_reads)) k.(ide)) k).
Definition inb (port : Z) : K Z := v ← port_in port; mret (u8 v).
Definition port_out (port v : Z) : K unit :=
  upd_ide (λ x, set_ide_out (x.(ide_out) ++ [(port, v)]) x).
Definition outb (port v : Z) : K unit := port_out port (u8 v).

Fixpoint insl (port : Z) (cnt : nat) : K (list Z) :=
  match cnt with
  | O => mret []
  | S n => v ← port_in port; l ← insl port n; mret (word_bytes v ++ l)
  end.
Definition outsl (port : Z) (data : list Z) (cnt : nat) : K unit :=
  for_acc cnt 0 (λ i _, port_out port (word_at data (4 * Z.of_nat i))) tt.

Definition idewait_turn (checkerr : bool) (_ : unit) : K (unit + Z) :=
  r ← inb 0x1f7;
  if negb (Z.land r (Z.lor IDE_BSY IDE_DRDY) =? IDE_DRDY) then mret (inl tt) else
  mret (inr (if checkerr && negb (Z.land r (Z.lor IDE_DF IDE_ERR) =? 0) then -1 else 0)).

Definition idewait (fuel : nat) (checkerr : bool) : K Z := while_fuel fuel (idewait_turn checkerr) tt.

Definition ideinit (fuel : nat) : K unit :=
  initlock LIde "ide";;
  idewait fuel false;;
  outb 0x1f6 (Z.lor 0xe0 (Z.shiftl 1 4));;
  for_range 1000 0 (λ _,
    r ← inb 0x1f7;
    if negb (r =? 0) then upd_ide (set_havedisk1 1);; mret (Some tt) else mret None);;
  outb 0x1f6 (Z.lor 0xe0 (Z.shiftl 0 4)).

Definition idestart (fuel : nat) (o : option nat) : K unit :=
  match o with
  | None => panic "idestart"
  | Some n =>
      b ← buf_get n;
      if FSSIZE <=? b.(b_blockno) then panic "incorrect blockno" else
      let sector_per_block := BSIZE / SECTOR_SIZE in
      let sector := b.(b_blockno) * sector_per_block in
      let read_cmd := if sector_per_block =? 1 then IDE_CMD_READ else IDE_CMD_RDMUL in
      let write_cmd := if sector_per_block =? 1 then IDE_CMD_WRITE else IDE_CMD_WRMUL in
      if 7 <? sector_per_block then panic "idestart" else
      idewait fuel false;;
      outb 0x3f6 0;;
      outb 0x1f2 sector_per_block;;
      outb 0x1f3 (Z.land sector 0xff);;
      outb 0x1f4 (Z.land (Z.shiftr sector 8) 0xff);;
      outb 0x1f5 (Z.land (Z.shiftr sector 16) 0xff);;
      outb 0x1f6 (Z.lor (Z.lor 0xe0 (Z.shiftl (Z.land b.(b_dev) 1) 4)) (Z.land (Z.shiftr sector 24) 0x0f));;
      if truth (Z.land b.(b_flags) B_DIRTY) then
        outb 0x1f7 write_cmd;;
        outsl 0x1f0 b.(b_data) (Z.to_nat (BSIZE / 4))
      else outb 0x1f7 read_cmd
  end.

Definition ideintr (fuel : nat) : K unit :=
  acquire LIde;;
  q ← get (λ k, k.(ide).(idequeue));
  match q with
  | None => release LIde
  | Some n =>
      b ← buf_get n;
      upd_ide (set_idequeue b.(b_qnext));;
      when (Z.land b.(b_flags) B_DIRTY =? 0) (
        r ← idewait fuel true;
        when (0 <=? r) (
          d ← insl 0x1f0 (Z.to_nat (BSIZE / 4));
          buf_upd n (set_b_data d)));;
      buf_upd n (λ b, set_b_flags (Z.lor b.(b_flags) B_VALID) b);;
      buf_upd n (λ b, set_b_flags (Z.land b.(b_flags) (Z.lnot B_DIRTY)) b);;
      wakeup (ChBuf n);;
      q' ← get (λ k, k.(ide).(idequeue));
      when (bool_decide (q' ≠ None)) (idestart fuel q');;
      release LIde
  end.

(** One step of for(pp=&idequeue; *pp; pp=&( *pp )->qnext): the buffer whose
    qnext is null, [None] for idequeue itself. *)
Definition queue_turn (v : option nat * option nat) : K ((option nat * option nat) + option nat) :=
  let '(owner, p) := v in
  match p with
  | None => mret (inr owner)
  | Some n => b ← buf_get n; mret (inl (Some n, b.(b_qnext)))
  end.

(** The loop of iderw(), entered again when the process has slept. *)
Definition iderw_wait_turn (n : nat) (_ : unit) : K (unit + unit) :=
  b ← buf_get n;
  if negb (Z.land b.(b_flags) (Z.lor B_VALID B_DIRTY) =? B_VALID) then
    sleep (ChBuf n) LIde;;
    mret (inl tt)
  else mret (inr tt).

Definition iderw_wait (n : nat) : K unit :=
  while32 (iderw_wait_turn n) tt;;
  release LIde.

Definition iderw (fuel : nat) (n : nat) : K unit :=
  h ← holdingsleep (SBuf n);
  if negb h then panic "iderw: buf not locked" else
  b ← buf_get n;
  if Z.land b.(b_flags) (Z.lor B_VALID B_DIRTY) =? B_VALID then panic "iderw: nothing to do" else
  d1 ← get (λ k, k.(ide).(havedisk1));
  if negb (b.(b_dev) =? 0) && (d1 =? 0) then panic "iderw: ide disk 1 not present" else
  acquire LIde;;
  buf_upd n (set_b_qnext None);;
  q ← get (λ k, k.(ide).(idequeue));
  owner ← while_fuel (S NBUF) queue_turn (None, q);
  (match owner with
   | None => upd_ide (set_idequeue (Some n))
   | Some m => buf_upd m (set_b_qnext (Some n))
   end);;
  q ← get (λ k, k.(ide).(idequeue));
  when (bool_decide (q = Some n)) (idestart fuel (Some n));;
  iderw_wait n.
