(* ===== verification/Trap.v ===== *)
(** * trap.c and the dispatcher of syscall.c

    Every entry into the kernel: system calls, interrupts and faults. What
    differs between the two kernels the Makefile builds, the disk's interrupt
    handler, is the parameter [ideintr]. [fuel] bounds the polls of the clock
    (fork() and ssm()), [callers] is what getcallerpcs() finds on the stack of
    a sleeping process, [ustack] is where exec() has its array. *)
From S2P Require Import Prelude.
From S2P Require Import Kernel.
From S2P Require Import Spinlock.
From S2P Require Import Cprintf.
From S2P Require Import Sched.
From S2P Require Import Console.
From S2P Require Import Pipe.
From S2P Require Import Proc.
From S2P Require Import Syscall.
From S2P Require Import Sysproc.
From S2P Require Import Sysfile.

Section trap.
Context (fuel : nat) (callers : nat → list Z) (ustack : Z) (ideintr : K unit).

(** syscalls[], by the numbers of syscall.h. *)
Definition syscalls (num : Z) : option (K Z) :=
  match num with
  | 1 => Some (sys_fork fuel)
  | 2 => Some sys_exit
  | 3 => Some sys_wait
  | 4 => Some sys_pipe
  | 5 => Some sys_read
  | 6 => Some sys_kill
  | 7 => Some (sys_exec ustack)
  | 8 => Some sys_fstat
  | 9 => Some sys_chdir
  | 10 => Some sys_dup
  | 11 => Some sys_getpid
  | 12 => Some sys_sbrk
  | 13 => Some sys_sleep
  | 14 => Some sys_uptime
  | 15 => Some sys_open
  | 16 => Some sys_write
  | 17 => Some sys_mknod
  | 18 => Some sys_unlink
  | 19 => Some sys_link
  | 20 => Some sys_mkdir
  | 21 => Some sys_close
  | 22 => Some (sys_ssm fuel)
  | 23 => Some sys_getpriority
  | 24 => Some sys_setpriority
  | _ => None
  end.

(** curproc->tf->eax = v *)
Definition set_result (p : nat) (v : Z) : K unit :=
  proc_upd p (λ x, set_tf (set_tf_eax (u32 v) x.(tf)) x).

Definition syscall : K unit :=
  p ← curproc;
  x ← proc_get p;
  let num := s32 x.(tf).(tf_eax) in
  match syscalls num with
  | Some f => r ← f; set_result p r
  | None =>
      cprintf ("%d %s: unknown sys call %d" +:+ nl) [AInt x.(pid); AStr (cstr_of x.(name)); AInt num];;
      set_result p (-1)
  end.

(** ** traps.h *)

Definition T_SYSCALL : Z := 64.
Definition T_IRQ0 : Z := 32.
Definition IRQ_TIMER : Z := 0.
Definition IRQ_KBD : Z := 1.
Definition IRQ_COM1 : Z := 4.
Definition IRQ_IDE : Z := 14.
Definition IRQ_SPURIOUS : Z := 31.

(** (tf->cs & 3) == DPL_USER, and the kernel's side of it. *)
Definition from_user (f : trapframe) : bool := Z.land f.(tf_cs) 3 =? DPL_USER.
Definition from_kernel (f : trapframe) : bool := Z.land f.(tf_cs) 3 =? 0.

(** The tick of the first processor. *)
Definition timer_intr : K unit :=
  c ← cpuid;
  when (bool_decide (c = O)) (
    acquire LTicks;;
    modify (λ k, set_ticks (u32 (k.(ticks) + 1)) k);;
    wakeup ChTicks;;
    release LTicks).

(** The default case of the switch. *)
Definition unexpected (f : trapframe) : K unit :=
  p ← myproc;
  match p with
  | Some i =>
      if from_kernel f then
        c ← cpuid;
        a ← get (λ k, k.(dev).(cr2));
        cprintf ("unexpected trap %d from cpu %d eip %x (cr2=0x%x)" +:+ nl)
          [AInt f.(tf_trapno); AInt (Z.of_nat c); AInt f.(tf_eip); AInt a];;
        panic "trap"
      else
        x ← proc_get i;
        c ← cpuid;
        a ← get (λ k, k.(dev).(cr2));
        cprintf ("pid %d %s: trap %d err %d on cpu %d eip 0x%x addr 0x%x--kill proc" +:+ nl)
          [AInt x.(pid); AStr (cstr_of x.(name)); AInt f.(tf_trapno); AInt f.(tf_err);
           AInt (Z.of_nat c); AInt f.(tf_eip); AInt a];;
        proc_upd i (set_killed 1)
  | None =>
      c ← cpuid;
      a ← get (λ k, k.(dev).(cr2));
      cprintf ("unexpected trap %d from cpu %d eip %x (cr2=0x%x)" +:+ nl)
        [AInt f.(tf_trapno); AInt (Z.of_nat c); AInt f.(tf_eip); AInt a];;
      panic "trap"
  end.

(** if(myproc() && myproc()->killed && (tf->cs&3) == DPL_USER) exit(); *)
Definition exit_if_killed (f : trapframe) : K unit :=
  p ← myproc;
  match p with
  | None => mret tt
  | Some i =>
      x ← proc_get i;
      when (truth x.(killed) && from_user f) exit
  end.

(** The switch on the trap number. *)
Definition trap_switch (f : trapframe) : K unit :=
  let n := f.(tf_trapno) in
  if n =? T_IRQ0 + IRQ_TIMER then timer_intr else
  if n =? T_IRQ0 + IRQ_IDE then ideintr else
  if n =? T_IRQ0 + IRQ_IDE + 1 then mret tt else
  if n =? T_IRQ0 + IRQ_KBD then kbdintr callers else
  if n =? T_IRQ0 + IRQ_COM1 then uartintr callers else
  if (n =? T_IRQ0 + 7) || (n =? T_IRQ0 + IRQ_SPURIOUS) then
    c ← cpuid;
    cprintf ("cpu%d: spurious interrupt at %x:%x" +:+ nl)
      [AInt (Z.of_nat c); AInt f.(tf_cs); AInt f.(tf_eip)]
  else unexpected f.

(** The yield at the end of trap(); the rest runs when the process is resumed. *)
Definition yield_on_tick (f : trapframe) : K unit :=
  p ← myproc;
  match p with
  | None => mret tt
  | Some i =>
      x ← proc_get i;
      when (bool_decide (x.(state) = RUNNING) && (f.(tf_trapno) =? T_IRQ0 + IRQ_TIMER)) yield
  end.

(** trap() on a system call. *)
Definition trap_syscall (f : trapframe) : K unit :=
  k1 ← am_killed;
  when k1 exit;;
  p ← curproc;
  proc_upd p (set_tf f);;
  syscall;;
  k2 ← am_killed;
  when k2 exit.

Definition trap (f : trapframe) : K unit :=
  if f.(tf_trapno) =? T_SYSCALL then trap_syscall f else
  trap_switch f;;
  exit_if_killed f;;
  yield_on_tick f;;
  exit_if_killed f.

End trap.

(** ** The interrupt descriptor table (mmu.h, tvinit) *)

Definition SEG_KCODE : Z := 1.
Definition STS_IG32 : Z := 0xE.
Definition STS_TG32 : Z := 0xF.

Record gatedesc : Type := mk_gatedesc {
  off_15_0 : Z;
  gd_cs : Z;
  gd_args : Z;
  gd_rsv1 : Z;
  gd_type : Z;
  gd_s : Z;
  gd_dpl : Z;
  gd_p : Z;
  off_31_16 : Z;
}.

Definition SETGATE (istrap : bool) (sel off d : Z) : gatedesc :=
  mk_gatedesc (Z.land (u32 off) 0xffff) sel 0 0 (if istrap then STS_TG32 else STS_IG32) 0 d 1
    (Z.shiftr (u32 off) 16).

(** The table tvinit() fills in; [vectors] are the entry points of vectors.S. *)
Definition tvinit (vectors : nat → Z) : K (list gatedesc) :=
  let idt := (λ i, SETGATE false (Z.shiftl SEG_KCODE 3) (vectors i) 0) <$> seq 0 256 in
  let sc := Z.to_nat T_SYSCALL in
  initlock LTicks "time";;
  mret (<[sc := SETGATE true (Z.shiftl SEG_KCODE 3) (vectors sc) DPL_USER]> idt).
