(* ===== verification/Ulib.v ===== *)
(** * ulib.c and printf.c: the library of the user programs

    A user program runs against the system calls: [Sys W] is their interface
    on a world [W] (the state of the rest of the system), and a program is a
    computation of the monad [U W], which may return, call exit(), use up the
    fuel of a loop, or do something C does not define. A C string is the list of its characters before the
    NUL, so s[i] is [nth i s 0]; functions that store through a pointer work
    on a memory [Z → Z]. *)
From S2P Require Import Prelude.
From S2P Require Import Cprintf.

(** ** Programs *)

Inductive ures (W A : Type) : Type :=
| URet (a : A) (w : W)
| UExit (w : W)
| UFuel (w : W)
| UUndef (w : W).
Arguments URet {W A} a w.
Arguments UExit {W A} w.
Arguments UFuel {W A} w.
Arguments UUndef {W A} w.

Definition U (W A : Type) : Type := W → ures W A.

#[export] Instance U_ret {W} : MRet (U W) := λ A a w, URet a w.
#[export] Instance U_bind {W} : MBind (U W) := λ A B f m w,
  match m w with
  | URet a w' => f a w'
  | UExit w' => UExit w'
  | UFuel w' => UFuel w'
  | UUndef w' => UUndef w'
  end.

Definition call {W A} (f : W → A * W) : U W A := λ w, let '(a, w') := f w in URet a w'.

Lemma call_ret {W A B} (f : W → A * W) (g : A → U W B) w a w' : f w = (a, w') → (call f ≫= g) w = g a w'.
Proof. intros E. unfold mbind, U_bind, call. by rewrite E. Qed.

Definition uexit {W A} : U W A := λ w, UExit w.

Lemma ubind_ret {W A B} (m : U W A) (f : A → U W B) w a w' : m w = URet a w' → (m ≫= f) w = f a w'.
Proof. intros E. unfold mbind, U_bind. by rewrite E. Qed.

(** A while loop of a program: [inl] goes round again. *)
Fixpoint uwhile {W L R} (fuel : nat) (body : L → U W (L + R)) (l : L) : U W R :=
  match fuel with
  | O => λ w, UFuel w
  | S f => r ← body l; match r with inl l' => uwhile f body l' | inr v => mret v end
  end.

(** for(x = each of l) body *)
Fixpoint uforeach {W A} (l : list A) (body : A → U W unit) : U W unit :=
  match l with
  | [] => mret tt
  | x :: l' => body x;; uforeach l' body
  end.

(** struct stat. *)
Record stat : Type := mk_stat { st_type : Z; st_dev : Z; st_ino : Z; st_nlink : Z; st_size : Z }.

(** The system calls (usys.S) a program makes: the value returned, and the
    bytes read() or the structure fstat() stores. *)
Class Sys (W : Type) : Type := {
  sys_open : list Z → Z → W → Z * W;
  sys_close : Z → W → Z * W;
  sys_read : Z → Z → W → Z * list Z * W;
  sys_write : Z → list Z → W → Z * W;
  sys_fstat : Z → W → Z * stat * W;
  sys_link : list Z → list Z → W → Z * W;
  sys_unlink : list Z → W → Z * W;
  sys_mkdir : list Z → W → Z * W;
  sys_kill : Z → W → Z * W;
}.

(** What the kernel guarantees of read(): -1 and nothing stored, or the number
    of bytes stored, at most the number asked for. *)
Class SysLaws (W : Type) `{Sys W} : Prop := {
  read_law fd n w : let '(r, bytes, _) := sys_read fd n w in
    r = -1 ∧ bytes = [] ∨ r = Z.of_nat (length bytes) ∧ r <= Z.max n 0;
}.

(** ** ulib.c: strings *)

(** The unsigned difference of the first characters that differ. *)
Fixpoint strcmp (p q : list Z) : Z :=
  match p with
  | [] => 0 - nth 0 q 0
  | a :: p' => if a =? nth 0 q 0 then strcmp p' (tail q) else a - nth 0 q 0
  end.

Definition strlen (s : list Z) : Z := Z.of_nat (length s).

(** The index of the first [c] in [s], null if there is none; the NUL itself
    is never found. *)
Fixpoint strchr (s : list Z) (c : Z) : option nat :=
  match s with
  | [] => None
  | a :: s' => if a =? c then Some O else S <$> strchr s' c
  end.

Fixpoint atoi_loop (n : Z) (s : list Z) : Z :=
  match s with
  | [] => n
  | c :: s' => if (chr "0" <=? c) && (c <=? chr "9") then atoi_loop (s32 (n * 10 + c - chr "0")) s' else n
  end.

Definition atoi (s : list Z) : Z := atoi_loop 0 s.

(** ** ulib.c: memory *)

(** *d++ = *s++, n times, in this order. *)
Fixpoint copy_loop (n : nat) (d s : Z) (m : Z → Z) : Z → Z :=
  match n with
  | O => m
  | S n' => copy_loop n' (d + 1) (s + 1) (<[d := m s]> m)
  end.

Definition memmove (vdst vsrc n : Z) (m : Z → Z) : Z → Z := copy_loop (Z.to_nat n) vdst vsrc m.

Fixpoint set_loop (n : nat) (d c : Z) (m : Z → Z) : Z → Z :=
  match n with
  | O => m
  | S n' => set_loop n' (d + 1) c (<[d := u8 c]> m)
  end.

Definition memset (dst c n : Z) (m : Z → Z) : Z → Z := set_loop (Z.to_nat (u32 n)) dst c m.

(** while(( *s++ = *t++ ) != 0); *)
Fixpoint strcpy_loop (fuel : nat) (s t : Z) (m : Z → Z) : option (Z → Z) :=
  match fuel with
  | O => None
  | S f => let m' := <[s := m t]> m in if m t =? 0 then Some m' else strcpy_loop f (s + 1) (t + 1) m'
  end.

Definition strcpy (fuel : nat) (s t : Z) (m : Z → Z) : option (Z → Z) := strcpy_loop fuel s t m.

Section lib.
Context {W : Type} `{Sys W}.

(** gets(): the line read into buf, at most max - 1 characters. *)
Definition gets_turn (max : Z) (buf : list Z) : U W (list Z + list Z) :=
  if negb (Z.of_nat (length buf) + 1 <? max) then mret (inr buf) else
  '(cc, b) ← call (sys_read 0 1);
  if cc <? 1 then mret (inr buf) else
  let c := nth 0 b 0 in
  if (c =? NL) || (c =? 13) then mret (inr (buf ++ [c])) else mret (inl (buf ++ [c])).

Definition gets (max : Z) : U W (list Z) := uwhile (Z.to_nat max + 1) (gets_turn max) [].

Definition O_RDONLY : Z := 0.

Definition stat_ (n : list Z) : U W (Z * option stat) :=
  fd ← call (sys_open n O_RDONLY);
  if fd <? 0 then mret (-1, None) else
  '(r, st) ← call (sys_fstat fd);
  call (sys_close fd);;
  mret (r, Some st).

(** ** printf.c *)

Definition putc (fd c : Z) : U W unit := call (sys_write fd [u8 c]);; mret tt.

(** digits[] *)
Definition udigit (d : Z) : Z := if d <? 10 then chr "0" + d else chr "A" + (d - 10).

(** do { buf[i++] = digits[x % base]; } while((x /= base) != 0) *)
Fixpoint udigits_loop (fuel : nat) (x base : Z) : list Z :=
  match fuel with
  | O => []
  | S f => udigit (x `mod` base) :: (if x / base =? 0 then [] else udigits_loop f (x / base) base)
  end.

(** buf[], filled from the last digit to the sign. *)
Definition printint_buf (xx base : Z) (sgn : bool) : list Z :=
  let neg := sgn && (xx <? 0) in
  let x := if neg then u32 (- xx) else u32 xx in
  udigits_loop 32 x base ++ (if neg then [chr "-"] else []).

Definition printint (fd xx base : Z) (sgn : bool) : U W unit :=
  uforeach (reverse (printint_buf xx base sgn)) (putc fd).

(** The format loop; [state] is whether a % was read, [ap] the arguments left. *)
Fixpoint printf_loop (fd : Z) (fmt : list Z) (state : bool) (ap : list arg) : U W unit :=
  match fmt with
  | [] => mret tt
  | c :: fmt' =>
      if negb state then
        if c =? chr "%" then printf_loop fd fmt' true ap
        else putc fd c;; printf_loop fd fmt' false ap
      else if c =? chr "d" then
        match ap with
        | AInt z :: ap' => printint fd (s32 z) 10 true;; printf_loop fd fmt' false ap'
        | _ => λ w, UUndef w
        end
      else if (c =? chr "x") || (c =? chr "p") then
        match ap with
        | AInt z :: ap' => printint fd (s32 z) 16 false;; printf_loop fd fmt' false ap'
        | _ => λ w, UUndef w
        end
      else if c =? chr "s" then
        match ap with
        | AStr s :: ap' => uforeach s (putc fd);; printf_loop fd fmt' false ap'
        | ANull :: ap' => uforeach (codes "(null)") (putc fd);; printf_loop fd fmt' false ap'
        | _ => λ w, UUndef w
        end
      else if c =? chr "c" then
        match ap with
        | AInt z :: ap' => putc fd z;; printf_loop fd fmt' false ap'
        | _ => λ w, UUndef w
        end
      else if c =? chr "%" then putc fd c;; printf_loop fd fmt' false ap
      else putc fd (chr "%");; putc fd c;; printf_loop fd fmt' false ap
  end.

Definition printf (fd : Z) (fmt : string) (args : list arg) : U W unit :=
  printf_loop fd (codes fmt) false args.

End lib.

(** ** A world of byte streams

    An open descriptor [fd] yields the pieces [fds fd] one read() after the
    other, a piece longer than what is asked for in several parts, then 0 for
    the end; what is written is recorded in order. A disk file can be opened
    once its name is in [disk]. *)
Record io : Type := mk_io {
  fds : Z → option (list (list Z));
  disk : list Z → option (list (list Z));
  nextfd : Z;
  outs : list (Z * list Z);
}.

Definition set_fd (fd : Z) (v : option (list (list Z))) (w : io) : io :=
  mk_io (<[fd := v]> w.(fds)) w.(disk) w.(nextfd) w.(outs).

(** The pieces left after a read() of at most [n] bytes. *)
Definition read_rest (n : nat) (c : list Z) (cs : list (list Z)) : list (list Z) :=
  match drop n c with [] => cs | r => r :: cs end.

#[export] Instance io_sys : Sys io := {
  sys_open := λ name mode w,
    match w.(disk) name with
    | Some cs => (w.(nextfd), mk_io (<[w.(nextfd) := Some cs]> w.(fds)) w.(disk) (w.(nextfd) + 1) w.(outs))
    | None => (-1, w)
    end;
  sys_close := λ fd w, match w.(fds) fd with Some _ => (0, set_fd fd None w) | None => (-1, w) end;
  sys_read := λ fd n w,
    match w.(fds) fd with
    | Some (c :: cs) =>
        let b := take (Z.to_nat n) c in
        (Z.of_nat (length b), b, set_fd fd (Some (read_rest (Z.to_nat n) c cs)) w)
    | Some [] => (0, [], w)
    | None => (-1, [], w)
    end;
  sys_write := λ fd b w, (Z.of_nat (length b), mk_io w.(fds) w.(disk) w.(nextfd) (w.(outs) ++ [(fd, b)]));
  sys_fstat := λ fd w, (-1, mk_stat 0 0 0 0 0, w);
  sys_link := λ a b w, (-1, w);
  sys_unlink := λ a w, (-1, w);
  sys_mkdir := λ a w, (-1, w);
  sys_kill := λ p w, (-1, w);
}.

(** [w] after [out] was written. *)
Definition said (out : list (Z * list Z)) (w : io) : io :=
  mk_io w.(fds) w.(disk) w.(nextfd) (w.(outs) ++ out).

Lemma write_io fd b (w : io) : sys_write fd b w = (Z.of_nat (length b), said [(fd, b)] w).
Proof. reflexivity. Qed.

#[export] Instance io_laws : SysLaws io.
Proof.
  split. intros fd n w. simpl. destruct (w.(fds) fd) as [[|c cs]|]; simpl; [lia| |by left].
  right. rewrite length_take. lia.
Qed.

(** ** Numbers printed and read back *)

Definition is_digit (c : Z) : bool := (chr "0" <=? c) && (c <=? chr "9").

(** The number a string of digits stands for, after the digits [n]. *)
Definition digits_value (n : Z) (s : list Z) : Z := foldl (λ n c, n * 10 + (c - chr "0")) n s.

Lemma digits_value_ge n s : 0 <= n → forallb is_digit s = true → n <= digits_value n s.
Proof.
  revert n. induction s as [|c s IH]; intros n Hn Hd; [done|]. simpl in *.
  apply andb_prop in Hd as [Hc Hd]. unfold is_digit in Hc. change (chr "0") with 48 in *. change (chr "9") with 57 in *.
  etrans; [|apply (IH (n * 10 + (c - 48)))]; [lia|lia|done].
Qed.

Lemma atoi_digits n s :
  0 <= n → forallb is_digit s = true → digits_value n s < 2 ^ 31 → atoi_loop n s = digits_value n s.
Proof.
  revert n. induction s as [|c s IH]; intros n Hn Hd Hv; [done|]. simpl in Hd. apply andb_prop in Hd as [Hc Hd].
  cbn [atoi_loop]. unfold is_digit in Hc. rewrite Hc. cbn [digits_value foldl] in *.
  change (chr "0") with 48 in *. change (chr "9") with 57 in *.
  assert (Hge := digits_value_ge (n * 10 + (c - 48)) s ltac:(lia) Hd).
  unfold digits_value in Hge at 1. change (chr "0") with 48 in *.
  rewrite s32_small by (unfold is_s32; fold (digits_value (n * 10 + (c - 48)) s) in *; lia).
  replace (n * 10 + c - 48) with (n * 10 + (c - 48)) by lia. by apply IH; [lia| |].
Qed.

Lemma udigits_decimal fuel x :
  0 <= x < 10 ^ Z.of_nat (S fuel) →
  forallb is_digit (udigits_loop (S fuel) x 10) = true ∧
  digits_value 0 (reverse (udigits_loop (S fuel) x 10)) = x.
Proof.
  revert x. induction fuel as [|fuel IH]; intros x Hx.
  - change (10 ^ Z.of_nat 1) with 10 in Hx. cbn [udigits_loop].
    rewrite Z.mod_small, Z.div_small by lia. simpl. unfold is_digit, udigit. bsplit; [|lia].
    change (chr "0") with 48. change (chr "9") with 57. simpl. split; [lia|lia].
  - remember (S fuel) as f. cbn [udigits_loop]. pose proof (Z.mod_pos_bound x 10 ltac:(lia)) as Hm.
    assert (Hdig : is_digit (udigit (x `mod` 10)) = true ∧ udigit (x `mod` 10) = 48 + x `mod` 10).
    { unfold is_digit, udigit. bsplit; [|lia]. change (chr "0") with 48. change (chr "9") with 57. split; lia. }
    destruct Hdig as [Hd He]. destruct (Z.eqb_spec (x / 10) 0) as [H0|H0].
    + simpl. rewrite Hd. split; [done|]. simpl. change (chr "0") with 48. rewrite He. pose proof (Z.div_mod x 10). lia.
    + destruct (IH (x / 10)) as [Hf Hv].
      { split; [apply Z.div_pos; lia|]. apply Z.div_lt_upper_bound; [lia|].
        rewrite (Nat2Z.inj_succ f), Z.pow_succ_r in Hx by lia. lia. }
      cbn [forallb]. rewrite Hd, Hf. split; [done|]. rewrite reverse_cons. unfold digits_value in *.
      rewrite foldl_app, Hv. simpl. change (chr "0") with 48. rewrite He. pose proof (Z.div_mod x 10). lia.
Qed.

Lemma reverse_digits l : forallb is_digit (reverse l) = forallb is_digit l.
Proof.
  induction l as [|c l IH]; [done|]. rewrite reverse_cons, forallb_app, IH. simpl. by rewrite andb_true_r, andb_comm.
Qed.

(** What printf("%d") prints for a non-negative int, atoi() reads back. *)
Lemma atoi_printint n : 0 <= n < 2 ^ 31 → atoi (reverse (printint_buf n 10 true)) = n.
Proof.
  intros Hn. unfold printint_buf. destruct (Z.ltb_spec n 0); [lia|]. cbn [andb]. rewrite app_nil_r.
  rewrite (u32_small n) by (unfold is_u32; lia).
  destruct (udigits_decimal 31 n) as [Hd Hv]; [change (10 ^ Z.of_nat 32) with (10 ^ 32); lia|].
  unfold atoi. rewrite atoi_digits; [done|lia|by rewrite reverse_digits|]. rewrite Hv. lia.
Qed.

(** ** Memory *)

(** The forward copy is right when the destination does not start inside the
    source. *)
Lemma memmove_forward d s n m x :
  0 <= n → d <= s ∨ s + n <= d →
  (d <= x < d + n → memmove d s n m x = m (s + (x - d))) ∧
  (~ d <= x < d + n → memmove d s n m x = m x).
Proof.
  intros Hn. assert (∃ k, n = Z.of_nat k) as [k ->] by (exists (Z.to_nat n); lia). clear Hn.
  unfold memmove. rewrite Nat2Z.id. revert d s m. induction k as [|k IH]; intros d s m Hd; cbn [copy_loop]; [split; [lia|done]|].
  destruct (IH (d + 1) (s + 1) (<[d := m s]> m)) as [IH1 IH2]; [lia|]. split; intros Hx.
  - destruct (decide (x = d)) as [->|Hne].
    + rewrite IH2, fn_lookup_insert by lia. f_equal. lia.
    + rewrite IH1, fn_lookup_insert_ne by lia. f_equal. lia.
  - rewrite IH2, fn_lookup_insert_ne by lia. done.
Qed.

(** When the destination starts inside the source, memmove() repeats the first
    bytes instead of moving the others. *)
Lemma memmove_overlap m : memmove 1 0 3 m 3 = m 0.
Proof. reflexivity. Qed.

(** ** Streams *)

(** [fd] is open and the bytes [s] are still to be read from it. *)
Definition stream (w : io) (fd : Z) (s : list Z) : Prop :=
  ∃ cs, w.(fds) fd = Some cs ∧ Forall (λ c, c ≠ []) cs ∧ concat cs = s.

(** [w'] is [w] after bytes were read from [fd]; [out] was written meanwhile. *)
Definition advanced (fd : Z) (out : list (Z * list Z)) (w w' : io) : Prop :=
  w'.(outs) = w.(outs) ++ out ∧ w'.(disk) = w.(disk) ∧ w'.(nextfd) = w.(nextfd) ∧
  ∀ fd', fd' ≠ fd → w'.(fds) fd' = w.(fds) fd'.

Lemma advanced_trans fd o1 o2 w1 w2 w3 : advanced fd o1 w1 w2 → advanced fd o2 w2 w3 → advanced fd (o1 ++ o2) w1 w3.
Proof.
  intros (A1 & A2 & A3 & A4) (B1 & B2 & B3 & B4). unfold advanced. rewrite B1, A1, app_assoc. repeat split; try congruence.
  intros fd' Hne. by rewrite B4, A4.
Qed.

Lemma advanced_refl fd w : advanced fd [] w w.
Proof. unfold advanced. rewrite app_nil_r. naive_solver. Qed.

(** A read() takes a part off the front of the stream, an empty one only at the end. *)
Lemma read_stream fd s n w : stream w fd s → 0 < n →
  ∃ b s' w', sys_read fd n w = (Z.of_nat (length b), b, w') ∧ s = b ++ s' ∧ Z.of_nat (length b) <= n ∧
    (b = [] → s = []) ∧ stream w' fd s' ∧ advanced fd [] w w'.
Proof.
  intros (cs & Hf & Hne & <-) Hn. unfold sys_read, io_sys. rewrite Hf. destruct cs as [|c cs].
  - exists [], [], w. split; [done|]. split; [done|]. split; [simpl; lia|]. split; [done|].
    split; [by exists []|apply advanced_refl].
  - apply Forall_cons in Hne as [Hc Hcs]. exists (take (Z.to_nat n) c), (drop (Z.to_nat n) c ++ concat cs).
    eexists. split; [done|]. split; [by rewrite app_assoc, take_drop|]. split; [rewrite length_take; lia|]. split.
    { intros E. destruct c as [|x c]; [done|]. destruct (Z.to_nat n) eqn:En; [lia|done]. }
    split.
    + exists (read_rest (Z.to_nat n) c cs). split; [simpl; by rewrite fn_lookup_insert|]. unfold read_rest.
      destruct (drop (Z.to_nat n) c) eqn:E; [done|]. split; [by constructor|]. done.
    + unfold advanced. simpl. rewrite app_nil_r. split_and!; try done. intros fd' Hne. by rewrite fn_lookup_insert_ne.
Qed.

(** What printing the characters [s] on [fd] writes. *)
Definition chars_to (fd : Z) (s : list Z) : list (Z * list Z) := (λ c, (fd, [u8 c])) <$> s.

Lemma uforeach_putc fd s (w : io) :
  uforeach s (putc fd) w = URet tt (said (chars_to fd s) w).
Proof.
  revert w. induction s as [|c s IH]; intros w; [unfold mret, U_ret, said; cbn; rewrite app_nil_r; by destruct w|].
  cbn [uforeach]. erewrite ubind_ret; [|reflexivity]. rewrite IH. unfold said. cbn. by rewrite <- app_assoc.
Qed.

(** The characters printf() prints; [None] when an argument is missing or has
    the wrong type. *)
Fixpoint spell (fmt : list Z) (state : bool) (ap : list arg) : option (list Z) :=
  match fmt, state with
  | [], _ => Some []
  | c :: fmt', false =>
      if c =? chr "%" then spell fmt' true ap else (c ::.) <$> spell fmt' false ap
  | c :: fmt', true =>
      if c =? chr "d" then
        match ap with
        | AInt z :: ap' => (reverse (printint_buf (s32 z) 10 true) ++.) <$> spell fmt' false ap'
        | _ => None
        end
      else if (c =? chr "x") || (c =? chr "p") then
        match ap with
        | AInt z :: ap' => (reverse (printint_buf (s32 z) 16 false) ++.) <$> spell fmt' false ap'
        | _ => None
        end
      else if c =? chr "s" then
        match ap with
        | AStr s :: ap' => (s ++.) <$> spell fmt' false ap'
        | ANull :: ap' => (codes "(null)" ++.) <$> spell fmt' false ap'
        | _ => None
        end
      else if c =? chr "c" then
        match ap with
        | AInt z :: ap' => (z ::.) <$> spell fmt' false ap'
        | _ => None
        end
      else if c =? chr "%" then (c ::.) <$> spell fmt' false ap
      else ([chr "%"; c] ++.) <$> spell fmt' false ap
  end.

Lemma said_said o1 o2 w : said o2 (said o1 w) = said (o1 ++ o2) w.
Proof. unfold said. simpl. by rewrite app_assoc. Qed.

Lemma chars_to_app fd a b : chars_to fd (a ++ b) = chars_to fd a ++ chars_to fd b.
Proof. apply fmap_app. Qed.

Lemma putc_io fd c (w : io) : putc fd c w = URet tt (said (chars_to fd [c]) w).
Proof. reflexivity. Qed.

(** One more piece of output before the rest of the format. *)
Lemma uprint_then fd a (m : U io unit) (f : U io unit) s' s w :
  (∀ w, m w = URet tt (said (chars_to fd a) w)) → (a ++.) <$> s' = Some s →
  (∀ t w, s' = Some t → f w = URet tt (said (chars_to fd t) w)) →
  (m;; f) w = URet tt (said (chars_to fd s) w).
Proof.
  intros Hm Hs Hf. destruct s' as [t|]; [|done]. injection Hs as <-.
  rewrite (ubind_ret _ _ _ _ _ (Hm w)), (Hf t _ eq_refl), said_said, chars_to_app. done.
Qed.

Lemma printf_loop_io fd fmt state ap s (w : io) :
  spell fmt state ap = Some s → printf_loop fd fmt state ap w = URet tt (said (chars_to fd s) w).
Proof.
  revert state ap s w. induction fmt as [|c fmt IH]; intros state ap s w Hs; cbn [spell printf_loop] in *.
  - injection Hs as <-. rewrite <- (uforeach_putc fd [] w). done.
  - assert (Hrec : ∀ b ap t w, spell fmt b ap = Some t → printf_loop fd fmt b ap w = URet tt (said (chars_to fd t) w)) by auto.
    destruct state; cbn [negb] in *.
    + repeat match type of Hs with (if ?b then _ else _) = _ => destruct b end.
      * destruct ap as [|[] ap]; try done. eapply uprint_then; [|exact Hs|by auto]. intros. apply uforeach_putc.
      * destruct ap as [|[] ap]; try done. eapply uprint_then; [|exact Hs|by auto]. intros. apply uforeach_putc.
      * destruct ap as [|[] ap]; try done; (eapply uprint_then; [|exact Hs|by auto]; intros; apply uforeach_putc).
      * destruct ap as [|[] ap]; try done. eapply (uprint_then fd [z]); [|exact Hs|by auto]. intros. apply putc_io.
      * eapply (uprint_then fd [c]); [|exact Hs|by auto]. intros. apply putc_io.
      * destruct (spell fmt false ap) as [t|] eqn:E; [|done]. injection Hs as <-.
        rewrite (ubind_ret _ _ _ _ _ (putc_io fd (chr "%") w)).
        erewrite (uprint_then fd [c] _ _ (Some t)); [|intros; apply putc_io|reflexivity|intros t' w' [= <-]; auto].
        by rewrite said_said.
    + destruct (c =? chr "%"); [auto|]. eapply (uprint_then fd [c]); [|exact Hs|by auto]. intros. apply putc_io.
Qed.
