(* ===== verification/Uprogs.v ===== *)
(** * The utilities: cat, wc, echo, ls, kill, ln, mkdir, rm

    The programs cat.c, wc.c, echo.c, ls.c, kill.c, ln.c, mkdir.c and rm.c
    over the interface of the system calls. argv is the list of the arguments,
    with the name of the program first. Loops that read until the end of a
    file take the fuel as an argument; the theorems say how much is enough. *)
From S2P Require Import Prelude.
From S2P Require Import Cprintf.
From S2P Require Import Ulib.

Section programs.
Context {W : Type} `{Sys W}.

(** ** cat.c *)

Definition cat_turn (fd : Z) (_ : unit) : U W (unit + Z) :=
  '(n, buf) ← call (sys_read fd 512);
  if 0 <? n then
    r ← call (sys_write 1 buf);
    if negb (r =? n) then
      printf 1 ("cat: write error" +:+ nl) [];;
      uexit
    else mret (inl tt)
  else mret (inr n).

Definition cat (fuel : nat) (fd : Z) : U W unit :=
  n ← uwhile fuel (cat_turn fd) tt;
  if n <? 0 then
    printf 1 ("cat: read error" +:+ nl) [];;
    uexit
  else mret tt.

Definition cat_main (fuel : nat) (argv : list (list Z)) : U W unit :=
  if (length argv <=? 1)%nat then
    cat fuel 0;;
    uexit
  else
  uforeach (drop 1 argv) (λ a,
    fd ← call (sys_open a 0);
    if fd <? 0 then
      printf 1 ("cat: cannot open %s" +:+ nl) [AStr a];;
      uexit
    else
    cat fuel fd;;
    call (sys_close fd);;
    mret tt);;
  uexit.

(** ** wc.c *)

Record counts : Type := mk_counts { wl : Z; ww : Z; wc_ : Z; inword : bool }.

(** " \r\t\n\v" *)
Definition wc_space : list Z := [32; 13; 9; NL; 11].

(** The body of the loop over buf[]. *)
Definition wc_char (x : counts) (b : Z) : counts :=
  let x := mk_counts x.(wl) x.(ww) (s32 (x.(wc_) + 1)) x.(inword) in
  let x := if b =? NL then mk_counts (s32 (x.(wl) + 1)) x.(ww) x.(wc_) x.(inword) else x in
  match strchr wc_space b with
  | Some _ => mk_counts x.(wl) x.(ww) x.(wc_) false
  | None => if x.(inword) then x else mk_counts x.(wl) (s32 (x.(ww) + 1)) x.(wc_) true
  end.

Definition wc_turn (fd : Z) (x : counts) : U W (counts + Z * counts) :=
  '(n, buf) ← call (sys_read fd 512);
  if 0 <? n then mret (inl (foldl wc_char x buf)) else mret (inr (n, x)).

Definition wc (fuel : nat) (fd : Z) (name : list Z) : U W unit :=
  '(n, x) ← uwhile fuel (wc_turn fd) (mk_counts 0 0 0 false);
  if n <? 0 then
    printf 1 ("wc: read error" +:+ nl) [];;
    uexit
  else printf 1 ("%d %d %d %s" +:+ nl) [AInt x.(wl); AInt x.(ww); AInt x.(wc_); AStr name].

Definition wc_main (fuel : nat) (argv : list (list Z)) : U W unit :=
  if (length argv <=? 1)%nat then
    wc fuel 0 [];;
    uexit
  else
  uforeach (drop 1 argv) (λ a,
    fd ← call (sys_open a 0);
    if fd <? 0 then
      printf 1 ("wc: cannot open %s" +:+ nl) [AStr a];;
      uexit
    else
    wc fuel fd a;;
    call (sys_close fd);;
    mret tt);;
  uexit.

(** ** echo.c *)

Fixpoint echo_loop (l : list (list Z)) : U W unit :=
  match l with
  | [] => mret tt
  | a :: l' =>
      printf 1 "%s%s" [AStr a; AStr (codes (match l' with [] => nl | _ => " " end))];;
      echo_loop l'
  end.

Definition echo_main (argv : list (list Z)) : U W unit :=
  echo_loop (drop 1 argv);;
  uexit.

(** ** kill.c, ln.c, mkdir.c, rm.c *)

Definition kill_main (argv : list (list Z)) : U W unit :=
  if (length argv <? 2)%nat then
    printf 2 ("usage: kill pid..." +:+ nl) [];;
    uexit
  else
  uforeach (drop 1 argv) (λ a, call (sys_kill (atoi a));; mret tt);;
  uexit.

Definition ln_main (argv : list (list Z)) : U W unit :=
  match argv with
  | [_; old; new] =>
      r ← call (sys_link old new);
      (if r <? 0 then printf 2 ("link %s %s: failed" +:+ nl) [AStr old; AStr new] else mret tt);;
      uexit
  | _ =>
      printf 2 ("Usage: ln old new" +:+ nl) [];;
      uexit
  end.

Fixpoint mkdir_loop (l : list (list Z)) : U W unit :=
  match l with
  | [] => mret tt
  | a :: l' =>
      r ← call (sys_mkdir a);
      if r <? 0 then printf 2 ("mkdir: %s failed to create" +:+ nl) [AStr a] else mkdir_loop l'
  end.

Definition mkdir_main (argv : list (list Z)) : U W unit :=
  if (length argv <? 2)%nat then
    printf 2 ("Usage: mkdir files..." +:+ nl) [];;
    uexit
  else
  mkdir_loop (drop 1 argv);;
  uexit.

Fixpoint rm_loop (l : list (list Z)) : U W unit :=
  match l with
  | [] => mret tt
  | a :: l' =>
      r ← call (sys_unlink a);
      if r <? 0 then printf 2 ("rm: %s failed to delete" +:+ nl) [AStr a] else rm_loop l'
  end.

Definition rm_main (argv : list (list Z)) : U W unit :=
  if (length argv <? 2)%nat then
    printf 2 ("Usage: rm files..." +:+ nl) [];;
    uexit
  else
  rm_loop (drop 1 argv);;
  uexit.

(** ** ls.c *)

Definition DIRSIZ : nat := 14.
Definition T_DIR : Z := 1.
Definition T_FILE : Z := 2.

(** The characters after the last slash. *)
Fixpoint basename (path : list Z) : list Z :=
  match path with
  | [] => []
  | c :: p => if existsb (Z.eqb (chr "/")) p then basename p else if c =? chr "/" then p else path
  end.

(** The static buffer is one longer than what is stored in it, and its last
    byte stays 0. *)
Definition fmtname (path : list Z) : list Z :=
  let p := basename path in
  if (DIRSIZ <=? length p)%nat then p else p ++ replicate (DIRSIZ - length p) (chr " ").

(** struct dirent: the inode number and the name, up to a NUL. *)
Definition de_inum (de : list Z) : Z := nth 0 de 0 + 2 ^ 8 * nth 1 de 0.
Definition de_name (de : list Z) : list Z := cstr_of (take DIRSIZ (drop 2 de)).

Definition ls_line (name : list Z) (st : stat) : U W unit :=
  printf 1 ("%s %d %d %d" +:+ nl) [AStr name; AInt st.(st_type); AInt st.(st_ino); AInt st.(st_size)].

Definition ls_turn (fd : Z) (path : list Z) (_ : unit) : U W (unit + unit) :=
  '(n, de) ← call (sys_read fd 16);
  if negb (n =? 16) then mret (inr tt) else
  if de_inum de =? 0 then mret (inl tt) else
  let buf := path ++ [chr "/"] ++ de_name de in
  '(r, st) ← stat_ buf;
  match st with
  | Some st => if r <? 0 then printf 1 ("ls: cannot stat %s" +:+ nl) [AStr buf] else ls_line (fmtname buf) st
  | None => printf 1 ("ls: cannot stat %s" +:+ nl) [AStr buf]
  end;;
  mret (inl tt).

Definition ls (fuel : nat) (path : list Z) : U W unit :=
  fd ← call (sys_open path 0);
  if fd <? 0 then printf 2 ("ls: cannot open %s" +:+ nl) [AStr path] else
  '(r, st) ← call (sys_fstat fd);
  if r <? 0 then
    printf 2 ("ls: cannot stat %s" +:+ nl) [AStr path];;
    call (sys_close fd);;
    mret tt
  else
  (if st.(st_type) =? T_FILE then ls_line (fmtname path) st
   else if st.(st_type) =? T_DIR then
     if 512 <? strlen path + 1 + Z.of_nat DIRSIZ + 1 then printf 1 ("ls: path too long" +:+ nl) []
     else uwhile fuel (ls_turn fd path) tt
   else mret tt);;
  call (sys_close fd);;
  mret tt.

Definition ls_main (fuel : nat) (argv : list (list Z)) : U W unit :=
  if (length argv <? 2)%nat then
    ls fuel (codes ".");;
    uexit
  else
  uforeach (drop 1 argv) (ls fuel);;
  uexit.

End programs.

(** ** cat copies *)

Lemma cat_loop fd s fuel (w : io) : stream w fd s → (length s < fuel)%nat →
  ∃ ps w', uwhile fuel (cat_turn fd) tt w = URet 0 w' ∧ concat ps = s ∧ stream w' fd [] ∧
    advanced fd ((1,.) <$> ps) w w'.
Proof.
  revert s w. induction fuel as [|fuel IH]; intros s w Hs Hf; [lia|]. cbn [uwhile].
  destruct (read_stream fd s 512 w Hs ltac:(lia)) as (b & s' & w' & E & -> & Hb & Hemp & Hs' & Hadv).
  destruct b as [|x b].
  - specialize (Hemp eq_refl). simpl in Hemp. subst s'. exists [], w'.
    erewrite ubind_ret; [|unfold cat_turn; rewrite (call_ret _ _ _ _ _ E); reflexivity]. done.
  - set (o := said [(1, x :: b)] w').
    assert (Ht : cat_turn fd tt w = URet (inl tt) o).
    { unfold cat_turn. rewrite (call_ret _ _ _ _ _ E). destruct (Z.ltb_spec 0 (Z.of_nat (length (x :: b)))); [|simpl in *; lia].
      rewrite (call_ret _ _ _ _ _ (write_io 1 (x :: b) w')). by rewrite Z.eqb_refl. }
    rewrite (ubind_ret _ _ _ _ _ Ht).
    destruct (IH s' o) as (ps & w2 & E2 & <- & Hs2 & Hadv2); [done|rewrite length_app in Hf; simpl in *; lia|].
    exists ((x :: b) :: ps), w2. split; [done|]. split; [done|]. split; [done|].
    rewrite fmap_cons. apply (advanced_trans fd [(1, x :: b)] _ w o w2); [|done].
    destruct Hadv as (A1 & A2 & A3 & A4). rewrite app_nil_r in A1. unfold advanced. simpl. by rewrite A1.
Qed.

(** cat(fd) writes to descriptor 1 what the stream of [fd] has, in order, in
    pieces, and nothing else. *)
Lemma cat_copies fd s fuel (w : io) : stream w fd s → (length s < fuel)%nat →
  ∃ ps w', cat fuel fd w = URet tt w' ∧ concat ps = s ∧ advanced fd ((1,.) <$> ps) w w'.
Proof.
  intros Hs Hf. destruct (cat_loop fd s fuel w Hs Hf) as (ps & w' & E & Hps & _ & Hadv).
  exists ps, w'. split; [|done]. unfold cat. by rewrite (ubind_ret _ _ _ _ _ E).
Qed.

(** ** wc counts *)

Definition is_space (c : Z) : bool := existsb (Z.eqb c) wc_space.

(** The words of a text: its longest runs of characters that are not space. *)
Fixpoint words (s : list Z) : list (list Z) :=
  match s with
  | [] => []
  | c :: s' =>
      if is_space c then words s' else
      match s' with
      | [] => [[c]]
      | d :: _ => if is_space d then [c] :: words s'
                  else match words s' with w :: ws => (c :: w) :: ws | [] => [[c]] end
      end
  end.

Definition lines (s : list Z) : list Z := filter (λ c, c = NL) s.

Lemma strchr_space b : is_Some (strchr wc_space b) ↔ is_space b = true.
Proof.
  unfold is_space, wc_space. cbn [strchr existsb]. rewrite !(Z.eqb_sym b).
  destruct (32 =? b), (13 =? b), (9 =? b), (NL =? b), (11 =? b); simpl; split;
    first [by intros [? ?] | intros _; by eexists | done].
Qed.

Lemma words_nonempty d s : is_space d = false → ∃ w ws, words (d :: s) = w :: ws.
Proof. intros E. cbn [words]. rewrite E. destruct s as [|e s]; [eauto|]. repeat case_match; eauto. Qed.

(** The words that a text adds after a word character, or after a space. *)
Definition more_words (inword : bool) (s : list Z) : nat :=
  match s with
  | c :: _ => if inword && negb (is_space c) then pred (length (words s)) else length (words s)
  | [] => O
  end.

Lemma more_words_cons iw c s : more_words iw (c :: s) =
  (if is_space c then more_words false s else (if iw then 0 else 1) + more_words true s)%nat.
Proof.
  unfold more_words. destruct (is_space c) eqn:E; simpl.
  - rewrite andb_false_r. cbn [words]. rewrite E. by destruct s.
  - rewrite andb_true_r. assert (Hw : length (words (c :: s)) = S (more_words true s)).
    { cbn [words]. rewrite E. unfold more_words. destruct s as [|d s]; [done|]. destruct (is_space d) eqn:Ed; [done|].
      destruct (words_nonempty d s Ed) as (w & ws & ->). done. }
    cbn [words] in Hw |- *. rewrite E in *. unfold more_words in Hw. rewrite Hw. by destruct iw.
Qed.

Lemma wc_char_step x c : is_s32 (x.(wl) + 1) → is_s32 (x.(ww) + 1) → is_s32 (x.(wc_) + 1) →
  wc_char x c = mk_counts (x.(wl) + if c =? NL then 1 else 0)
    (x.(ww) + if is_space c || x.(inword) then 0 else 1) (x.(wc_) + 1) (negb (is_space c)).
Proof.
  intros Hl Hw Hc. unfold wc_char. rewrite !s32_small by done. pose proof (strchr_space c) as Hsp.
  assert (E : is_space c = match strchr wc_space c with Some _ => true | None => false end).
  { destruct (strchr wc_space c); [by apply Hsp|]. destruct (is_space c); [|done]. by destruct (proj2 Hsp eq_refl). }
  rewrite E. destruct x as [l w n iw], (strchr wc_space c), (c =? NL), iw; simpl in *; rewrite ?s32_small by done; f_equal; lia.
Qed.

(** What the loop adds to the counters. *)
Lemma wc_chars s x : 0 <= x.(wl) → 0 <= x.(ww) → 0 <= x.(wc_) → x.(wl) + Z.of_nat (length s) < 2 ^ 31 →
  x.(ww) + Z.of_nat (length s) < 2 ^ 31 → x.(wc_) + Z.of_nat (length s) < 2 ^ 31 →
  ∃ iw, foldl wc_char x s = mk_counts (x.(wl) + Z.of_nat (length (lines s)))
    (x.(ww) + Z.of_nat (more_words x.(inword) s)) (x.(wc_) + Z.of_nat (length s)) iw.
Proof.
  revert x. induction s as [|c s IH]; intros x Hl0 Hw0 Hc0 Hl Hw Hc.
  { exists x.(inword). destruct x. simpl in *. f_equal; lia. }
  cbn [foldl length] in *. rewrite Nat2Z.inj_succ in *.
  rewrite more_words_cons, wc_char_step by (unfold is_s32; lia).
  assert (Hln : Z.of_nat (length (lines (c :: s))) = (if c =? NL then 1 else 0) + Z.of_nat (length (lines s))).
  { unfold lines. rewrite filter_cons. bsplit; destruct (decide (c = NL)); simpl; try done; lia. }
  destruct (IH (mk_counts (x.(wl) + if c =? NL then 1 else 0)
    (x.(ww) + if is_space c || x.(inword) then 0 else 1) (x.(wc_) + 1) (negb (is_space c)))) as [iw ->]; simpl.
  all: try (destruct (c =? NL), (is_space c), x.(inword); simpl; lia).
  exists iw. rewrite Hln. f_equal; destruct (is_space c), x.(inword); simpl; lia.
Qed.

Lemma wc_loop fd s fuel (w : io) x : stream w fd s → (length s < fuel)%nat →
  ∃ w', uwhile fuel (wc_turn fd) x w = URet (0, foldl wc_char x s) w' ∧ advanced fd [] w w'.
Proof.
  revert s w x. induction fuel as [|fuel IH]; intros s w x Hs Hf; [lia|]. cbn [uwhile].
  destruct (read_stream fd s 512 w Hs ltac:(lia)) as (b & s' & w' & E & -> & Hb & Hemp & Hs' & Hadv).
  destruct (decide (b = [])) as [->|Hne].
  - specialize (Hemp eq_refl). simpl in Hemp. subst s'. exists w'.
    erewrite ubind_ret; [|unfold wc_turn; rewrite (call_ret _ _ _ _ _ E); reflexivity]. done.
  - assert (Ht : wc_turn fd x w = URet (inl (foldl wc_char x b)) w').
    { unfold wc_turn. rewrite (call_ret _ _ _ _ _ E). destruct (Z.ltb_spec 0 (Z.of_nat (length b))); [done|].
      destruct b; simpl in *; [done|lia]. }
    rewrite (ubind_ret _ _ _ _ _ Ht).
    destruct (IH s' w' (foldl wc_char x b)) as (w2 & E2 & Hadv2); [done| |].
    { rewrite length_app in Hf. destruct b; simpl in *; [done|lia]. }
    exists w2. rewrite E2, foldl_app. split; [done|]. by apply (advanced_trans fd [] [] w w' w2).
Qed.

(** What wc() prints about a text. *)
Definition report (s name : list Z) : list Z :=
  reverse (printint_buf (Z.of_nat (length (lines s))) 10 true) ++ [chr " "] ++
  reverse (printint_buf (Z.of_nat (length (words s))) 10 true) ++ [chr " "] ++
  reverse (printint_buf (Z.of_nat (length s)) 10 true) ++ [chr " "] ++ name ++ [NL].

Lemma report_spell s name : Z.of_nat (length s) < 2 ^ 31 →
  spell (codes ("%d %d %d %s" +:+ nl)) false
    [AInt (Z.of_nat (length (lines s))); AInt (Z.of_nat (length (words s))); AInt (Z.of_nat (length s)); AStr name] =
  Some (report s name).
Proof.
  intros Hlen. assert (Hl : (length (lines s) <= length s)%nat) by apply length_filter.
  assert (Hw : (length (words s) <= length s)%nat).
  { clear. induction s as [|c s IH]; [done|]. cbn [words]. destruct (is_space c); [simpl; lia|].
    destruct s as [|d s]; [done|]. destruct (is_space d); [cbn [length] in *; lia|].
    destruct (words (d :: s)); cbn [length] in *; lia. }
  unfold report. rewrite <- (s32_small (Z.of_nat (length (lines s)))), <- (s32_small (Z.of_nat (length (words s)))),
    <- (s32_small (Z.of_nat (length s))) at 2 by (unfold is_s32; lia).
  reflexivity.
Qed.

(** wc(fd, name) reports the number of lines, words and characters of the
    whole text, however read() cuts it into pieces. *)
Lemma wc_counts fd s name fuel (w : io) :
  stream w fd s → (length s < fuel)%nat → Z.of_nat (length s) < 2 ^ 31 →
  ∃ w', wc fuel fd name w = URet tt w' ∧ advanced fd (chars_to 1 (report s name)) w w'.
Proof.
  intros Hs Hf Hlen. destruct (wc_loop fd s fuel w (mk_counts 0 0 0 false) Hs Hf) as (w' & E & Hadv).
  destruct (wc_chars s (mk_counts 0 0 0 false)) as [iw Ex]; [simpl; lia..|]. rewrite Ex in E. cbn [wl ww wc_ inword] in E.
  assert (Hmw : more_words false s = length (words s)) by by destruct s.
  rewrite Hmw, !Z.add_0_l in E. exists (said (chars_to 1 (report s name)) w').
  split; [|apply (advanced_trans fd [] _ w w'); [done|]; by unfold advanced].
  unfold wc. rewrite (ubind_ret _ _ _ _ _ E). apply printf_loop_io, report_spell, Hlen.
Qed.
