(* ===== verification/Grep.v ===== *)
(** * grep.c

    The matcher (match, matchhere, matchstar) on C strings, and the loop that
    reads a file into the array buf[1024], cuts it into lines and writes the
    lines that match. The first theorem compares the matcher with the language
    of the pattern, a list of pieces (a character or a dot, possibly starred)
    with the two anchors; the second one says which lines of a file are
    printed. *)
From S2P Require Import Prelude.
From S2P Require Import Cprintf.
From S2P Require Import Ulib.

#[local] Arguments chr : simpl never.

(** ** The matcher *)

(** do { ... } while( *text!='\0' && ( *text++==c || c=='.' )), with [here]
    for matchhere(re, .). *)
Fixpoint matchstar (here : list Z → bool) (c : Z) (text : list Z) : bool :=
  if here text then true else
  match text with
  | [] => false
  | t :: text' => if (t =? c) || (c =? chr ".") then matchstar here c text' else false
  end.

Fixpoint matchhere (re text : list Z) : bool :=
  match re with
  | [] => true
  | c :: re1 =>
      let rest :=
        if (c =? chr "$") && bool_decide (re1 = []) then bool_decide (text = []) else
        match text with
        | t :: text' => if (c =? chr ".") || (c =? t) then matchhere re1 text' else false
        | [] => false
        end in
      match re1 with
      | d :: re2 => if d =? chr "*" then matchstar (matchhere re2) c text else rest
      | [] => rest
      end
  end.

(** do { if(matchhere(re, text)) return 1; } while( *text++ != '\0') *)
Fixpoint match_any (re text : list Z) : bool :=
  if matchhere re text then true else
  match text with
  | [] => false
  | _ :: text' => match_any re text'
  end.

Definition match_ (re text : list Z) : bool :=
  match re with
  | c :: re1 => if c =? chr "^" then matchhere re1 text else match_any re text
  | [] => match_any re text
  end.

(** ** grep() *)

Definition GBUF : nat := 1024.

Section grep.
Context {W : Type} `{Sys W}.

(** One line of the buffer, from [p] on. *)
Definition line_turn (pattern : list Z) (v : list Z * nat) : U W ((list Z * nat) + (list Z * nat)) :=
  let '(buf, p) := v in
  match strchr (cstr_of (drop p buf)) NL with
  | None => mret (inr (buf, p))
  | Some i =>
      let q := (p + i)%nat in
      let buf := <[q := 0]> buf in
      if match_ pattern (cstr_of (drop p buf)) then
        let buf := <[q := NL]> buf in
        call (sys_write 1 (take (q + 1 - p) (drop p buf)));;
        mret (inl (buf, (q + 1)%nat))
      else mret (inl (buf, (q + 1)%nat))
  end.

(** One read() and the lines it completes; [m] bytes of the buffer are in use. *)
Definition grep_turn (pattern : list Z) (fd : Z) (v : list Z * nat) : U W ((list Z * nat) + unit) :=
  let '(buf, m) := v in
  '(n, b) ← call (sys_read fd (Z.of_nat (GBUF - m - 1)));
  if negb (0 <? n) then mret (inr tt) else
  let m := (m + length b)%nat in
  let buf := <[m := 0]> (take (m - length b) buf ++ b ++ drop m buf) in
  '(buf, p) ← uwhile GBUF (line_turn pattern) (buf, O);
  let m := if (p =? 0)%nat then O else m in
  if (0 <? m)%nat then
    let m := (m - p)%nat in
    let moved := take m (drop p buf) in
    mret (inl (moved ++ drop (length moved) buf, m))
  else mret (inl (buf, m)).

Definition grep (fuel : nat) (pattern : list Z) (fd : Z) : U W unit :=
  uwhile fuel (grep_turn pattern fd) (replicate GBUF 0, O).

Definition grep_main (fuel : nat) (argv : list (list Z)) : U W unit :=
  match argv with
  | _ :: pattern :: files =>
      (match files with
       | [] => grep fuel pattern 0
       | _ => uforeach files (λ a,
           fd ← call (sys_open a 0);
           if fd <? 0 then
             printf 1 ("grep: cannot open %s" +:+ nl) [AStr a];;
             uexit
           else
           grep fuel pattern fd;;
           call (sys_close fd);;
           mret tt)
       end);;
      uexit
  | _ =>
      printf 2 ("usage: grep pattern [file ...]" +:+ nl) [];;
      uexit
  end.

End grep.

(** ** The language of a pattern *)

(** A piece: a character or any character, once or any number of times. *)
Record piece : Type := mk_piece { pc_char : Z; pc_star : bool }.

Definition accepts (c t : Z) : Prop := c = chr "." ∨ t = c.

Inductive lang : list piece → list Z → Prop :=
| lang_nil : lang [] []
| lang_one c ps t w : accepts c t → lang ps w → lang (mk_piece c false :: ps) (t :: w)
| lang_skip c ps w : lang ps w → lang (mk_piece c true :: ps) w
| lang_more c ps t w : accepts c t → lang (mk_piece c true :: ps) w → lang (mk_piece c true :: ps) (t :: w).

(** The pieces of a pattern without its ^, and whether it ends in a $. A star
    belongs to the character before it; a star that starts the pattern and a $
    before its end are characters. *)
Fixpoint pieces (re : list Z) : list piece * bool :=
  match re with
  | [] => ([], false)
  | c :: re1 =>
      match re1 with
      | d :: re2 =>
          if d =? chr "*" then let '(ps, e) := pieces re2 in (mk_piece c true :: ps, e)
          else let '(ps, e) := pieces re1 in (mk_piece c false :: ps, e)
      | [] => if c =? chr "$" then ([], true) else ([mk_piece c false], false)
      end
  end.

(** [text] has a part in the language, at the anchors if there are any. *)
Definition found (re text : list Z) : Prop :=
  let '(start, re) :=
    match re with
    | c :: re1 => if c =? chr "^" then (true, re1) else (false, re)
    | [] => (false, re)
    end in
  let '(ps, end_) := pieces re in
  ∃ a b c, text = a ++ b ++ c ∧ lang ps b ∧ (start = true → a = []) ∧ (end_ = true → c = []).

Lemma accepts_spec c t : (t =? c) || (c =? chr ".") = true ↔ accepts c t.
Proof. unfold accepts. rewrite orb_true_iff, !Z.eqb_eq. tauto. Qed.

Lemma lang_star c ps w : lang (mk_piece c true :: ps) w ↔ ∃ a b, w = a ++ b ∧ Forall (accepts c) a ∧ lang ps b.
Proof.
  split.
  - intros Hl. remember (mk_piece c true :: ps) as q eqn:Eq. induction Hl as [| |c' ps' w Hw _|c' ps' t w Ht _ IH]; simplify_eq.
    + by exists [], w.
    + destruct (IH eq_refl) as (a & b & -> & Ha & Hb). exists (t :: a), b. split; [done|]. by split; [constructor|].
  - intros (a & b & -> & Ha & Hb). induction Ha; [by apply lang_skip|by apply lang_more].
Qed.

Lemma lang_single c ps w : lang (mk_piece c false :: ps) w ↔ ∃ t b, w = t :: b ∧ accepts c t ∧ lang ps b.
Proof.
  split; [|intros (t & b & -> & ? & ?); by apply lang_one].
  intros Hl. remember (mk_piece c false :: ps) as q eqn:Eq. destruct Hl; simplify_eq. eauto.
Qed.

Lemma lang_empty w : lang [] w ↔ w = [].
Proof. split; [by inversion 1|intros ->; constructor]. Qed.

(** matchstar() skips characters that [c] accepts. *)
Lemma matchstar_spec here c text :
  matchstar here c text = true ↔ ∃ a b, text = a ++ b ∧ Forall (accepts c) a ∧ here b = true.
Proof.
  induction text as [|t text IH]; cbn [matchstar]; destruct (here _) eqn:E.
  - split; [|done]. intros _. by exists [], [].
  - split; [done|]. intros (a & b & Ht & _ & Hb). destruct a, b; simplify_eq/=. congruence.
  - split; [|done]. intros _. by exists [], (t :: text).
  - destruct ((t =? c) || (c =? chr ".")) eqn:Ec.
    + rewrite IH. split.
      * intros (a & b & -> & Ha & Hb). exists (t :: a), b. split; [done|]. split; [|done]. constructor; [by apply accepts_spec|done].
      * intros ([|t' a] & b & Ht & Ha & Hb); simplify_eq/=; [congruence|]. apply Forall_cons in Ha as [_ Ha]. eauto.
    + split; [done|]. intros ([|t' a] & b & Ht & Ha & Hb); simplify_eq/=; [congruence|].
      apply Forall_cons in Ha as [Ha _]. apply accepts_spec in Ha. congruence.
Qed.

(** [text] starts with a word of the language, and ends with it if [e]. *)
Definition starts (ps : list piece) (e : bool) (text : list Z) : Prop :=
  ∃ b c, text = b ++ c ∧ lang ps b ∧ (e = true → c = []).

Lemma starts_star c ps e text :
  starts (mk_piece c true :: ps) e text ↔ ∃ a b, text = a ++ b ∧ Forall (accepts c) a ∧ starts ps e b.
Proof.
  unfold starts. setoid_rewrite lang_star. split.
  - intros (b & r & -> & (a & b' & -> & Ha & Hb) & He). exists a, (b' ++ r). rewrite app_assoc. naive_solver.
  - intros (a & b & -> & Ha & b' & r & -> & Hb & He). exists (a ++ b'), r. rewrite app_assoc. naive_solver.
Qed.

Lemma starts_single c ps e text :
  starts (mk_piece c false :: ps) e text ↔ ∃ t text', text = t :: text' ∧ accepts c t ∧ starts ps e text'.
Proof.
  unfold starts. setoid_rewrite lang_single. split.
  - intros (b & r & -> & (t & b' & -> & Ht & Hb) & He). exists t, (b' ++ r). naive_solver.
  - intros (t & text' & -> & Ht & b & r & -> & Hb & He). exists (t :: b), r. naive_solver.
Qed.

Lemma matchhere_spec re text :
  matchhere re text = true ↔ starts (pieces re).1 (pieces re).2 text.
Proof.
  remember (length re) as n eqn:En. revert re text En. induction (lt_wf n) as [n _ IH]. intros re text ->.
  destruct re as [|c re1]; cbn [matchhere pieces].
  { split; [|done]. intros _. exists [], text. split; [done|]. by split; [constructor|]. }
  assert (Hone : ∀ ps e, (∀ t, matchhere re1 t = true ↔ starts ps e t) →
    match text with
    | t :: text' => if (c =? chr ".") || (c =? t) then matchhere re1 text' else false
    | [] => false
    end = true ↔ starts (mk_piece c false :: ps) e text).
  { intros ps e Hre. rewrite starts_single. destruct text as [|t text']; [naive_solver|].
    rewrite (Z.eqb_sym c t), orb_comm. destruct ((t =? c) || (c =? chr ".")) eqn:Ec.
    - rewrite Hre. apply accepts_spec in Ec. naive_solver.
    - split; [done|]. intros (t' & s & ? & Ha%accepts_spec & _). simplify_eq. congruence. }
  destruct re1 as [|d re2].
  - rewrite bool_decide_true, andb_true_r by done. destruct (c =? chr "$") eqn:Ec; simpl.
    + rewrite bool_decide_eq_true. unfold starts. setoid_rewrite lang_empty. split; [intros ->; by exists [], []|].
      intros (b & r & -> & -> & Hr). by rewrite Hr.
    + apply (Hone [] false). intros t. exact (IH 0%nat ltac:(simpl; lia) [] t eq_refl).
  - rewrite bool_decide_false, andb_false_r by done. destruct (d =? chr "*").
    + destruct (pieces re2) as [ps e] eqn:Ep. simpl. rewrite matchstar_spec, starts_star.
      assert (Hre : ∀ b, matchhere re2 b = true ↔ starts ps e b).
      { intros b. rewrite (IH (length re2)) by (simpl; lia || done). by rewrite Ep. }
      by setoid_rewrite Hre.
    + destruct (pieces (d :: re2)) as [ps e] eqn:Ep. apply (Hone ps e). intros t.
      rewrite (IH (length (d :: re2))) by (simpl; lia || done). by rewrite Ep.
Qed.

Lemma match_any_spec re text :
  match_any re text = true ↔ ∃ a b, text = a ++ b ∧ matchhere re b = true.
Proof.
  induction text as [|t text IH]; cbn [match_any]; destruct (matchhere re _) eqn:E.
  - split; [|done]. intros _. by exists [], [].
  - split; [done|]. intros (a & b & Ht & Hb). destruct a, b; simplify_eq/=. congruence.
  - split; [|done]. intros _. by exists [], (t :: text).
  - rewrite IH. split; [intros (a & b & -> & Hb); by exists (t :: a), b|].
    intros ([|t' a] & b & Ht & Hb); simplify_eq/=; [congruence|eauto].
Qed.

(** C31: grep's matcher, with its two mutually recursive functions and their
    do-while loops, accepts exactly the texts in which a part is in the
    language of the pattern, at the beginning after a ^ and at the end before
    a $. *)
Theorem match_equivalent re text : match_ re text = true ↔ found re text.
Proof.
  assert (Hany : ∀ r, match_any r text = true ↔ ∃ a b c, text = a ++ b ++ c ∧ lang (pieces r).1 b ∧
      (false = true → a = []) ∧ ((pieces r).2 = true → c = [])).
  { intros r. rewrite match_any_spec. setoid_rewrite matchhere_spec. unfold starts. naive_solver. }
  unfold match_, found. destruct re as [|c re]; [by rewrite Hany|]. destruct (c =? chr "^").
  - rewrite matchhere_spec. unfold starts. destruct (pieces re) as [ps e]. simpl. split.
    + intros (b & r & -> & Hb & Hr). by exists [], b, r.
    + intros (a & b & r & -> & Hb & Ha & Hr). rewrite Ha by done. by exists b, r.
  - rewrite Hany. by destruct (pieces (c :: re)).
Qed.

(** ** Lines *)

(** The lines of a text that end in a newline, and what follows the last one. *)
Fixpoint text_lines (s : list Z) : list (list Z) * list Z :=
  match s with
  | [] => ([], [])
  | c :: s' =>
      let '(ls, r) := text_lines s' in
      if c =? NL then ([] :: ls, r)
      else match ls with [] => ([], c :: r) | l :: ls' => ((c :: l) :: ls', r) end
  end.

(** What is written for the lines that match. *)
Definition matching (pattern : list Z) (ls : list (list Z)) : list (Z * list Z) :=
  (λ l, (1, l ++ [NL])) <$> filter (λ l, match_ pattern l = true) ls.

Definition plain (s : list Z) : Prop := Forall (λ c, c ≠ 0) s.

Lemma text_lines_none l : (NL ∉ l) → text_lines l = ([], l).
Proof.
  induction l as [|c l IH]; [done|]. rewrite not_elem_of_cons. intros [Hc Hl]. cbn [text_lines].
  rewrite IH by done. bsplit; [congruence|done].
Qed.

Lemma text_lines_first l s : (NL ∉ l) →
  text_lines (l ++ NL :: s) = (l :: (text_lines s).1, (text_lines s).2).
Proof.
  induction l as [|c l IH]; cbn [app text_lines].
  - intros _. by destruct (text_lines s).
  - rewrite not_elem_of_cons. intros [Hc Hl]. rewrite IH by done. bsplit; [congruence|done].
Qed.

Lemma text_lines_cut s : ((NL ∉ s) ∧ text_lines s = ([], s)) ∨ ∃ l s', s = l ++ NL :: s' ∧ (NL ∉ l).
Proof.
  induction s as [|c s IH]; [left; split; [set_solver|done]|].
  destruct (decide (c = NL)) as [->|Hc]; [right; exists [], s; set_solver|].
  destruct IH as [[Hn _]|(l & s' & -> & Hl)].
  - left. assert (Hn' : NL ∉ c :: s) by set_solver. split; [done|]. by apply text_lines_none.
  - right. exists (c :: l), s'. set_solver.
Qed.

(** More text continues the last line. *)
Lemma text_lines_app a b : text_lines (a ++ b) =
  ((text_lines a).1 ++ (text_lines ((text_lines a).2 ++ b)).1, (text_lines ((text_lines a).2 ++ b)).2).
Proof.
  remember (length a) as n eqn:En. revert a En. induction (lt_wf n) as [n _ IH]. intros a ->.
  destruct (text_lines_cut a) as [[Hn E]|(l & s' & -> & Hl)].
  - rewrite E. simpl. by destruct (text_lines (a ++ b)).
  - rewrite <- app_assoc. cbn [app]. rewrite !text_lines_first by done. cbn [fst snd].
    rewrite (IH (length s')) by (rewrite ?length_app; simpl; lia || done). done.
Qed.

Lemma text_lines_rest s : (NL ∉ (text_lines s).2) ∧ ∃ a, s = a ++ (text_lines s).2 ∧ ((text_lines s).1 = [] ↔ a = []).
Proof.
  remember (length s) as n eqn:En. revert s En. induction (lt_wf n) as [n _ IH]. intros s ->.
  destruct (text_lines_cut s) as [[Hn E]|(l & s' & -> & Hl)].
  - rewrite E. simpl. split; [done|]. by exists [].
  - rewrite text_lines_first by done. cbn [fst snd].
    destruct (IH (length s')) with (s := s') as [Hn (a & Ea & _)]; [rewrite length_app; simpl; lia|done|].
    split; [done|]. exists (l ++ NL :: a). rewrite Ea at 1. rewrite <- app_assoc. split; [done|]. split; [done|]. by destruct l.
Qed.

Lemma strchr_none s c : (c ∉ s) → strchr s c = None.
Proof. induction s as [|a s IH]; [done|]. rewrite not_elem_of_cons. intros [Ha Hs]. cbn [strchr]. bsplit; [congruence|]. by rewrite IH. Qed.

Lemma strchr_first l s c : (c ∉ l) → strchr (l ++ c :: s) c = Some (length l).
Proof.
  induction l as [|a l IH]; cbn [app strchr]; [by rewrite Z.eqb_refl|]. rewrite not_elem_of_cons. intros [Ha Hl].
  bsplit; [congruence|]. by rewrite IH.
Qed.

Lemma cstr_of_plain s r : plain s → cstr_of (s ++ 0 :: r) = s.
Proof. induction 1 as [|c s Hc _ IH]; cbn [app cstr_of]; [done|]. bsplit; [done|]. by rewrite IH. Qed.

Lemma drop_store (buf : list Z) p q v l x r : drop p buf = l ++ x :: r → q = (p + length l)%nat →
  drop p (<[q := v]> buf) = l ++ v :: r.
Proof.
  intros E ->. rewrite drop_insert_ge, E by lia. replace (p + length l - p)%nat with (length l + 0)%nat by lia.
  by rewrite insert_app_r.
Qed.

Lemma plain_app a b : plain (a ++ b) ↔ plain a ∧ plain b.
Proof. apply Forall_app. Qed.

Lemma matching_cons pattern l ls :
  matching pattern (l :: ls) = (if match_ pattern l then [(1, l ++ [NL])] else []) ++ matching pattern ls.
Proof. unfold matching. rewrite filter_cons. destruct (match_ pattern l) eqn:E; [by rewrite decide_True|by rewrite decide_False]. Qed.

(** The inner loop on a buffer that holds the text [t] from [p] on: it writes
    the lines that match and stops at the beginning of the last, partial one. *)
Lemma lines_loop pattern fuel t buf p junk (w : io) :
  plain t → drop p buf = t ++ 0 :: junk → (length t < fuel)%nat →
  ∃ buf' p', uwhile fuel (line_turn pattern) (buf, p) w =
      URet (buf', p') (said (matching pattern (text_lines t).1) w) ∧
    drop p' buf' = (text_lines t).2 ++ 0 :: junk ∧ (p' + length (text_lines t).2 = p + length t)%nat ∧
    length buf' = length buf.
Proof.
  revert t buf p w. induction fuel as [|fuel IH]; intros t buf p w Ht Hb Hf; [lia|]. cbn [uwhile].
  destruct (text_lines_cut t) as [[Hn E]|(l & t' & -> & Hl)].
  - exists buf, p. rewrite E. cbn [fst snd]. erewrite ubind_ret.
    2: { unfold line_turn. rewrite Hb, cstr_of_plain, strchr_none by done. reflexivity. }
    unfold mret, U_ret, said. cbn. rewrite app_nil_r. split; [by destruct w|]. done.
  - apply plain_app in Ht as [Hpl Ht]. apply Forall_cons in Ht as [_ Ht]. rewrite text_lines_first by done. cbn [fst snd].
    rewrite <- app_assoc in Hb. cbn [app] in Hb. set (q := (p + length l)%nat).
    assert (H0 := drop_store buf p q 0 _ _ _ Hb eq_refl).
    assert (H1 := drop_store _ p q NL _ _ _ H0 eq_refl).
    assert (Hnext : ∀ b x, drop p b = l ++ x :: t' ++ 0 :: junk → drop (q + 1) b = t' ++ 0 :: junk).
    { intros b x Eb. replace (q + 1)%nat with (p + (length l + 1))%nat by (subst q; lia).
      rewrite <- drop_drop, Eb, <- drop_drop, drop_app_length. done. }
    set (buf' := if match_ pattern l then <[q := NL]> (<[q := 0]> buf) else <[q := 0]> buf).
    assert (Hturn : line_turn pattern (buf, p) w =
      URet (inl (buf', (q + 1)%nat)) (said (if match_ pattern l then [(1, l ++ [NL])] else []) w)).
    { unfold line_turn. rewrite Hb. change (l ++ NL :: t' ++ 0 :: junk) with (l ++ (NL :: t') ++ 0 :: junk).
      rewrite (app_assoc l), cstr_of_plain, strchr_first by (done || by apply plain_app; split; [|constructor]).
      fold q. rewrite H0, cstr_of_plain by done. unfold buf'. destruct (match_ pattern l).
      - rewrite H1. replace (take (q + 1 - p) (l ++ NL :: t' ++ 0 :: junk)) with (l ++ [NL]).
        + by rewrite (call_ret _ _ _ _ _ (write_io 1 _ w)).
        + replace (q + 1 - p)%nat with (length l + 1)%nat by (subst q; lia). by rewrite take_app_add.
      - unfold mret, U_ret, said. cbn. rewrite app_nil_r. by destruct w. }
    rewrite (ubind_ret _ _ _ _ _ Hturn).
    destruct (IH t' buf' (q + 1)%nat (said (if match_ pattern l then [(1, l ++ [NL])] else []) w))
      as (buf2 & p2 & E2 & Hd & Hp & Hlen).
    { done. }
    { unfold buf'. destruct (match_ pattern l); [by apply (Hnext _ NL)|by apply (Hnext _ 0)]. }
    { rewrite length_app in Hf. simpl in Hf. lia. }
    exists buf2, p2. rewrite E2, said_said, matching_cons. split; [done|]. split; [done|]. split.
    + rewrite length_app. simpl. subst q. lia.
    + rewrite Hlen. unfold buf'. destruct (match_ pattern l); by rewrite !length_insert.
Qed.

(** ** The file *)

(** A disk file: a read() gets as much as it asks for or the rest. *)
Definition whole (s : list Z) : list (list Z) := match s with [] => [] | _ => [s] end.

Lemma read_file fd s n (w : io) : w.(fds) fd = Some (whole s) →
  ∃ w', sys_read fd (Z.of_nat n) w = (Z.of_nat (length (take n s)), take n s, w') ∧
    w'.(fds) fd = Some (whole (drop n s)) ∧ advanced fd [] w w'.
Proof.
  intros Hf. unfold sys_read, io_sys. rewrite Hf. destruct s as [|c s].
  - exists w. rewrite take_nil, drop_nil. split; [done|]. split; [done|]. apply advanced_refl.
  - eexists. rewrite Nat2Z.id. split; [reflexivity|]. split.
    + simpl fds. rewrite fn_lookup_insert. unfold read_rest, whole. by destruct (drop n (c :: s)).
    + unfold advanced. simpl. rewrite app_nil_r. split_and!; try done. intros fd' Hne. by rewrite fn_lookup_insert_ne.
Qed.

(** The lines fit in the buffer with their newline and a NUL. *)
Definition short (s : list Z) : Prop :=
  Forall (λ l, (length l < 1023)%nat) (text_lines s).1 ∧ (length (text_lines s).2 < 1023)%nat.

Lemma short_prefix l s : (NL ∉ l) → short (l ++ s) → (length l < 1023)%nat.
Proof.
  intros Hl [Hs Hr]. destruct (text_lines_cut s) as [[Hn _]|(l' & s' & -> & Hl')].
  - rewrite (text_lines_none (l ++ s)) in Hr by set_solver. simpl in Hr. rewrite length_app in Hr. lia.
  - rewrite app_assoc, text_lines_first in Hs by set_solver. apply Forall_cons in Hs as [Hs _]. rewrite length_app in Hs. lia.
Qed.

Lemma short_rest t s : short (t ++ s) → short ((text_lines t).2 ++ s).
Proof. intros [Hs Hr]. rewrite text_lines_app in Hs, Hr. simpl in *. apply Forall_app in Hs as [_ Hs]. done. Qed.

(** The buffer after a read(): the partial line, the bytes read and a NUL. *)
Lemma buffer_filled (buf pl b : list Z) m : length buf = GBUF → take m buf = pl → m = length pl → (m + length b < GBUF)%nat →
  ∃ junk, <[(m + length b)%nat := 0]> (take m buf ++ b ++ drop (m + length b) buf) = (pl ++ b) ++ 0 :: junk.
Proof.
  intros Hlen Hpl -> Hm. rewrite Hpl. destruct (drop (length pl + length b) buf) as [|x junk] eqn:E.
  - apply (f_equal length) in E. rewrite length_drop in E. simpl in E. lia.
  - exists junk. rewrite app_assoc, <- length_app, <- (Nat.add_0_r (length (pl ++ b))). by rewrite insert_app_r.
Qed.

(** A buffer without a newline is not full, so the file ends in it. *)
Lemma buffer_full pl s : let n := (GBUF - length pl - 1)%nat in
  (NL ∉ pl ++ take n s) → short ((pl ++ take n s) ++ drop n s) → drop n s = [].
Proof.
  intros n Hnl Hs. pose proof (short_prefix _ _ Hnl Hs) as Hlt. rewrite length_app, length_take in Hlt.
  apply drop_ge. subst n. unfold GBUF in *. lia.
Qed.

Section loop.
Context (pattern : list Z) (fd : Z).

(** What a turn leaves: a buffer that starts with the partial line [r], or an
    empty one when the line was dropped. *)
Lemma grep_turn_file pl b buf (w w' : io) junk :
  length buf = GBUF → take (length pl) buf = pl → b ≠ [] → (length (pl ++ b) < GBUF)%nat → plain (pl ++ b) →
  sys_read fd (Z.of_nat (GBUF - length pl - 1)) w = (Z.of_nat (length b), b, w') →
  <[(length pl + length b)%nat := 0]> (take (length pl) buf ++ b ++ drop (length pl + length b) buf) = (pl ++ b) ++ 0 :: junk →
  ∃ buf' r, grep_turn pattern fd (buf, length pl) w =
      URet (inl (buf', length r)) (said (matching pattern (text_lines (pl ++ b)).1) w') ∧
    length buf' = GBUF ∧ take (length r) buf' = r ∧
    (r = (text_lines (pl ++ b)).2 ∨ r = [] ∧ (text_lines (pl ++ b)) = ([], pl ++ b)).
Proof.
  intros Hlen Hpl Hb Hsz Ht Hread Hbuf. set (t := pl ++ b) in *.
  destruct (lines_loop pattern GBUF t ((t ++ 0 :: junk)) 0 junk w' Ht eq_refl Hsz) as (buf' & p & E & Hd & Hp & Hl).
  assert (Hturn : grep_turn pattern fd (buf, length pl) w =
    URet (inl (if (p =? 0)%nat then (buf', O) else
      (take (length t - p) (drop p buf') ++ drop (length (take (length t - p) (drop p buf'))) buf', (length t - p)%nat)))
      (said (matching pattern (text_lines t).1) w')).
  { unfold grep_turn. rewrite (call_ret _ _ _ _ _ Hread).
    destruct (Z.ltb_spec 0 (Z.of_nat (length b))); [|destruct b; simpl in *; [done|lia]]. cbn [negb].
    replace (length pl + length b - length b)%nat with (length pl) by lia. rewrite Hbuf, (ubind_ret _ _ _ _ _ E).
    assert (0 < length t)%nat by (subst t; rewrite length_app; destruct b; simpl in *; [done|lia]).
    replace (length pl + length b)%nat with (length t) by (subst t; by rewrite length_app).
    destruct (Nat.eqb_spec p 0); [done|]. by destruct (Nat.ltb_spec 0 (length t)); [|lia]. }
  assert (Hbl : length buf' = GBUF).
  { rewrite Hl, <- Hbuf, length_insert, !length_app, length_take, length_drop. subst t. rewrite length_app in Hsz. lia. }
  set (r := (text_lines t).2) in *. destruct (Nat.eqb_spec p 0) as [->|Hp0].
  - exists buf', []. split; [exact Hturn|]. split; [done|]. split; [done|]. right. split; [done|].
    destruct (text_lines_rest t) as [_ (a & Ea & Ha)]. fold r in Ea.
    assert (a = []) as -> by (destruct a; [done|apply (f_equal length) in Ea; rewrite length_app in Ea; simpl in *; lia]).
    destruct (text_lines t) as [ls r'] eqn:El. simpl in *. subst r. rewrite (proj2 Ha eq_refl). by rewrite Ea.
  - exists (r ++ drop (length r) buf'), r.
    assert (Hm : take (length t - p) (drop p buf') = r).
    { rewrite Hd. replace (length t - p)%nat with (length r) by lia. by rewrite take_app_length. }
    split; [rewrite Hturn, Hm; by replace (length t - p)%nat with (length r) by lia|].
    split; [rewrite length_app, length_drop; subst t; rewrite length_app in *; lia|].
    split; [by rewrite take_app_length|by left].
Qed.

Lemma grep_loop fuel pl s buf (w : io) :
  length buf = GBUF → take (length pl) buf = pl → (NL ∉ pl) → plain (pl ++ s) → short (pl ++ s) →
  w.(fds) fd = Some (whole s) → (S (length s) < fuel)%nat →
  ∃ w', uwhile fuel (grep_turn pattern fd) (buf, length pl) w = URet tt w' ∧
    advanced fd (matching pattern (text_lines (pl ++ s)).1) w w'.
Proof.
  revert pl s buf w. induction fuel as [|fuel IH]; intros pl s buf w Hlen Hpl Hn Ht Hs Hf Hfuel; [lia|]. cbn [uwhile].
  assert (Hpls := short_prefix pl s Hn Hs). set (n := (GBUF - length pl - 1)%nat).
  destruct (read_file fd s n w Hf) as (w' & Hr & Hf' & Hadv). destruct (decide (s = [])) as [->|Hne].
  - exists w'. erewrite ubind_ret; [|unfold grep_turn; fold n; rewrite (call_ret _ _ _ _ _ Hr), take_nil; reflexivity].
    split; [done|]. by rewrite app_nil_r, text_lines_none.
  - assert (Hb : take n s ≠ []).
    { destruct s; [done|]. by replace n with (S (GBUF - length pl - 2)) by (subst n; unfold GBUF; lia). }
    set (b := take n s) in *. set (s' := drop n s) in *. assert (Es : s = b ++ s') by (symmetry; apply take_drop).
    assert (Hbn : (length b <= n)%nat) by (unfold b; rewrite length_take; lia).
    assert (Hsz : (length (pl ++ b) < GBUF)%nat) by (rewrite length_app; subst n; unfold GBUF in *; lia).
    rewrite Es, app_assoc in Ht, Hs. apply plain_app in Ht as [Htb Hts].
    destruct (buffer_filled buf pl b (length pl) Hlen Hpl eq_refl) as [junk Hjunk]; [by rewrite <- length_app|].
    destruct (grep_turn_file pl b buf w w' junk Hlen Hpl Hb Hsz Htb Hr Hjunk) as (buf' & r & E & Hlen' & Hr' & Hcase).
    rewrite (ubind_ret _ _ _ _ _ E). assert (HlenS : (length s' < length s)%nat).
    { rewrite Es, length_app. destruct b; simpl in *; [done|lia]. }
    rewrite Es, app_assoc, (text_lines_app (pl ++ b) s'). cbn [fst]. set (w2 := said _ w').
    assert (Hstep : advanced fd (matching pattern (text_lines (pl ++ b)).1) w w2).
    { destruct Hadv as (A1 & A2 & A3 & A4). rewrite app_nil_r in A1. unfold w2, advanced, said. cbn [outs disk nextfd fds]. by rewrite A1. }
    assert (Hr2 : plain (text_lines (pl ++ b)).2).
    { destruct (text_lines_rest (pl ++ b)) as [_ (a & Ea & _)]. rewrite Ea in Htb. by apply plain_app in Htb as [_ ?]. }
    unfold matching at 1. rewrite filter_app, fmap_app. fold (matching pattern (text_lines (pl ++ b)).1).
    fold (matching pattern (text_lines ((text_lines (pl ++ b)).2 ++ s')).1).
    destruct Hcase as [->|[-> Et]].
    + destruct (IH (text_lines (pl ++ b)).2 s' buf' w2) as (w3 & E3 & Hadv3); try done.
      * apply text_lines_rest.
      * by apply plain_app.
      * by apply short_rest.
      * lia.
      * exists w3. split; [done|]. by eapply advanced_trans.
    + assert (NL ∉ (pl ++ b)) as Hnl by (replace (pl ++ b) with (text_lines (pl ++ b)).2 by (by rewrite Et); apply text_lines_rest).
      assert (s' = []) as Es' by (by apply (buffer_full pl s)).
      assert (Hfu : (1 < fuel)%nat) by lia. rewrite Es' in *.
      destruct (IH [] [] buf' w2 Hlen' eq_refl) as (w3 & E3 & Hadv3);
        [apply not_elem_of_nil|apply Forall_nil_2|by split; [apply Forall_nil_2|simpl; lia]|done|done|].
      exists w3. split; [done|]. rewrite app_nil_r, Et. cbn [snd]. rewrite text_lines_none by done.
      rewrite Et in Hstep. by apply (advanced_trans fd _ [] w w2 w3).
Qed.

End loop.

(** On a file without NUL characters whose lines have less than 1023
    characters, grep() writes to descriptor 1 the lines that match, in order. *)
Lemma grep_prints pattern fd s fuel (w : io) :
  w.(fds) fd = Some (whole s) → plain s → short s → (S (length s) < fuel)%nat →
  ∃ w', grep fuel pattern fd w = URet tt w' ∧ advanced fd (matching pattern (text_lines s).1) w w'.
Proof. intros. apply (grep_loop pattern fd fuel [] s); try done. set_solver. Qed.

(** A line that arrives in two pieces (from a pipe or the console) loses its
    beginning: "abc" is not found in "ab" followed by "c\n". *)
Lemma grep_short_read :
  let w cs := mk_io (λ fd, if fd =? 0 then Some cs else None) (λ _, None) 3 [] in
  (∃ w', grep 10 (codes "abc") 0 (w [codes "abc" ++ [NL]]) = URet tt w' ∧ w'.(outs) = [(1, codes "abc" ++ [NL])]) ∧
  (∃ w', grep 10 (codes "abc") 0 (w [codes "ab"; codes "c" ++ [NL]]) = URet tt w' ∧ w'.(outs) = []).
Proof. split; eexists; split; reflexivity. Qed.
