(* ===== verification/Umalloc.v ===== *)
(** * umalloc.c: malloc() and free()

    The Kernighan and Ritchie allocator: free blocks are kept in a circular
    list in address order, which starts at the static header [base]. A header
    is named by its address; [hm] is what the memory holds there. [sbrk] is the
    system call: it moves the break if [grow] says the kernel can give the
    memory. The loops take fuel; the theorems say that twice the number of free
    blocks, and a little more, is enough. *)
From stdpp Require Import gmap.
From S2P Require Import Prelude.
From S2P Require Import Ulib.

(** union header: 8 bytes. *)
Record header : Type := mk_header { hptr : Z; hsize : Z }.

Definition HEADER : Z := 8.

(** The static variable freep, the memory and the break of the process. *)
Record heap : Type := mk_heap { hm : Z → header; freep : Z; brk : Z }.

Definition set_hm (f : (Z → header) → Z → header) (s : heap) : heap := mk_heap (f s.(hm)) s.(freep) s.(brk).
Definition set_freep (v : Z) (s : heap) : heap := mk_heap s.(hm) v s.(brk).

Section malloc.
Context (base : Z) (grow : Z → bool).

Definition hget {A} (f : heap → A) : U heap A := λ s, URet (f s) s.
Definition hupd (f : heap → heap) : U heap unit := λ s, URet tt (f s).

(** p->s.ptr, p->s.size and their assignment. *)
Definition ptr (p : Z) : U heap Z := hget (λ s, (s.(hm) p).(hptr)).
Definition size (p : Z) : U heap Z := hget (λ s, (s.(hm) p).(hsize)).
Definition set_ptr (p v : Z) : U heap unit :=
  hupd (set_hm (λ m, <[p := mk_header v (m p).(hsize)]> m)).
Definition set_size (p v : Z) : U heap unit :=
  hupd (set_hm (λ m, <[p := mk_header (m p).(hptr) v]> m)).

(** p + n *)
Definition units (p n : Z) : Z := u32 (p + HEADER * n).

Definition sbrk (n : Z) : U heap (option Z) := λ s,
  if grow (s.(brk) + n) then URet (Some s.(brk)) (mk_heap s.(hm) s.(freep) (s.(brk) + n))
  else URet None s.

(** One test of the loop of free(): [inr] leaves it. *)
Definition free_turn (bp p : Z) : U heap (Z + Z) :=
  nx ← ptr p;
  if (p <? bp) && (bp <? nx) then mret (inr p) else
  if (nx <=? p) && ((p <? bp) || (bp <? nx)) then mret (inr p) else
  mret (inl nx).

Definition free (fuel : nat) (ap : Z) : U heap unit :=
  let bp := u32 (ap - HEADER) in
  fp ← hget freep;
  p ← uwhile fuel (free_turn bp) fp;
  nx ← ptr p;
  bsz ← size bp;
  (if units bp bsz =? nx then
     nsz ← size nx;
     set_size bp (u32 (bsz + nsz));;
     nn ← ptr nx;
     set_ptr bp nn
   else set_ptr bp nx);;
  psz ← size p;
  (if units p psz =? bp then
     bsz ← size bp;
     set_size p (u32 (psz + bsz));;
     bn ← ptr bp;
     set_ptr p bn
   else set_ptr p bp);;
  hupd (set_freep p).

(** 0 when sbrk() fails. *)
Definition morecore (fuel : nat) (nu : Z) : U heap Z :=
  let nu := if nu <? 4096 then 4096 else nu in
  o ← sbrk (s32 (nu * HEADER));
  match o with
  | None => mret 0
  | Some hp =>
      set_size hp nu;;
      free fuel (units hp 1);;
      hget freep
  end.

(** One turn of the loop of malloc(). *)
Definition malloc_turn (fuel : nat) (nunits : Z) (v : Z * Z) : U heap ((Z * Z) + Z) :=
  let '(prevp, p) := v in
  sz ← size p;
  if nunits <=? sz then
    q ← (if sz =? nunits then
           nx ← ptr p;
           set_ptr prevp nx;;
           mret p
         else
           set_size p (u32 (sz - nunits));;
           let q := units p (u32 (sz - nunits)) in
           set_size q nunits;;
           mret q);
    hupd (set_freep prevp);;
    mret (inr (units q 1))
  else
  fp ← hget freep;
  if p =? fp then
    p ← morecore fuel nunits;
    if p =? 0 then mret (inr 0) else
    nx ← ptr p;
    mret (inl (p, nx))
  else
  nx ← ptr p;
  mret (inl (p, nx)).

Definition nunits_of (nbytes : Z) : Z := u32 (nbytes + HEADER - 1) / HEADER + 1.

Definition malloc (fuel : nat) (nbytes : Z) : U heap Z :=
  let nunits := nunits_of nbytes in
  fp ← hget freep;
  (if fp =? 0 then
     hupd (set_freep base);;
     set_ptr base base;;
     set_size base 0
   else mret tt);;
  prevp ← hget freep;
  p ← ptr prevp;
  uwhile fuel (malloc_turn fuel nunits) (prevp, p).

(** ** The free list *)

#[local] Ltac hlia :=
  unfold is_u32, HEADER in *; cbn [fst snd] in *;
  change (2 ^ 32) with 4294967296 in *; change (2 ^ 31) with 2147483648 in *; lia.

(** The headers of [F], linked in this order; the last one points to [e]. *)
Fixpoint chain (m : Z → header) (F : list (Z * Z)) (e : Z) : Prop :=
  match F with
  | [] => True
  | (a, n) :: F' => m a = mk_header (match F' with [] => e | (b, _) :: _ => b end) n ∧ chain m F' e
  end.

Definition first_of (F : list (Z * Z)) (e : Z) : Z := match F with [] => e | (b, _) :: _ => b end.

Lemma hchain_app m F1 F2 e : chain m (F1 ++ F2) e ↔ chain m F1 (first_of F2 e) ∧ chain m F2 e.
Proof.
  induction F1 as [|[a n] F1 IH]; cbn [app chain]; [tauto|]. rewrite IH.
  destruct F1 as [|[b k] F1]; cbn [app]; [|tauto]. destruct F2 as [|[b k] F2]; cbn [first_of]; tauto.
Qed.

Lemma hchain_frame m m' F e : (∀ a n, (a, n) ∈ F → m' a = m a) → chain m F e → chain m' F e.
Proof.
  induction F as [|[a n] F IH]; cbn [chain]; [done|]. intros Hf [Ha Hc]. split.
  - rewrite (Hf a n) by left. done.
  - apply IH; [|done]. intros b k Hb. apply (Hf b k). by right.
Qed.

(** Blocks in address order, with a gap after each. *)
Definition apart (x y : Z * Z) : Prop := x.1 + HEADER * x.2 < y.1.
Fixpoint spaced (F : list (Z * Z)) : Prop :=
  match F with [] => True | x :: F' => Forall (apart x) F' ∧ spaced F' end.

(** Two blocks have no byte in common. *)
Definition disjoint_blocks (x y : Z * Z) : Prop :=
  x.1 + HEADER * x.2 <= y.1 ∨ y.1 + HEADER * y.2 <= x.1.

Context (lo : Z).

(** A block of the heap. *)
Record block_ok (top : Z) (x : Z * Z) : Prop := {
  bk_size : 0 < x.2;
  bk_align : x.1 `mod` HEADER = 0;
  bk_low : lo <= x.1;
  bk_high : x.1 + HEADER * x.2 <= top;
}.

(** The heap with free blocks [F] and allocated blocks [A]. *)
Record heap_ok (s : heap) (F A : list (Z * Z)) : Prop := {
  ho_ring : s.(freep) = 0 ∧ F = [] ∧ A = [] ∨ chain s.(hm) ((base, 0) :: F) base ∧ s.(freep) ∈ base :: F.*1;
  ho_spaced : spaced F;
  ho_blocks : Forall (block_ok s.(brk)) (F ++ A);
  ho_disjoint : ∀ x y, x ∈ F → y ∈ A → disjoint_blocks x y;
  ho_alloc : ∀ i j x y, A !! i = Some x → A !! j = Some y → i ≠ j → disjoint_blocks x y;
  ho_sizes : ∀ a n, (a, n) ∈ A → (s.(hm) a).(hsize) = n;
  ho_brk : s.(brk) `mod` HEADER = 0 ∧ lo <= s.(brk) <= 2 ^ 31;
}.

(** ** Walking round the ring *)

Lemma spaced_app F1 F2 : spaced (F1 ++ F2) ↔ spaced F1 ∧ spaced F2 ∧ ∀ x y, x ∈ F1 → y ∈ F2 → apart x y.
Proof.
  induction F1 as [|x F1 IH]; cbn [app spaced]; [set_solver|]. rewrite IH, Forall_app, !Forall_forall. set_solver.
Qed.

(** The index after [i] in a ring of [n] nodes, and the number of steps from
    [i] to [j]. *)
Definition nxt (n i : nat) : nat := if decide (S i = n) then O else S i.
Definition dist (n i j : nat) : nat := if decide (i <= j)%nat then j - i else n - i + j.

Lemma nxt_lt n i : (i < n)%nat → (nxt n i < n)%nat.
Proof. unfold nxt. case_decide; lia. Qed.

Lemma dist_nxt n i j : (i < n)%nat → (j < n)%nat → i ≠ j → dist n i j = S (dist n (nxt n i) j).
Proof. unfold dist, nxt. repeat case_decide; lia. Qed.

Lemma dist_all n f j : (f < n)%nat → (j < n)%nat → (dist n (nxt n f) j <= dist n (nxt n f) f)%nat.
Proof. unfold dist, nxt. repeat case_decide; lia. Qed.

(** The address of the node at an index. *)
Definition addr (N : list (Z * Z)) (i : nat) : Z := (N !!! i).1.

Lemma chain_lookup m N i a n : chain m N (first_of N 0) → N !! i = Some (a, n) →
  m a = mk_header (addr N (nxt (length N) i)) n.
Proof.
  intros Hc Hi. remember (first_of N 0) as e eqn:Ee. rewrite <- (take_drop_middle N i (a, n) Hi) in Hc. apply hchain_app in Hc as [_ Hc].
  cbn [chain] in Hc. destruct Hc as [-> _]. f_equal. unfold addr, nxt. assert (i < length N)%nat by (by eapply lookup_lt_Some).
  case_decide as Hd.
  - rewrite drop_ge by lia. subst e. by destruct N as [|[b k] N].
  - destruct (lookup_lt_is_Some_2 N (S i)) as [[b k] Hb]; [lia|].
    rewrite (drop_S _ _ _ Hb). by rewrite (list_lookup_total_correct _ _ _ Hb).
Qed.

Lemma spaced_lookup N i j x y : spaced N → N !! i = Some x → N !! j = Some y → (i < j)%nat → apart x y.
Proof.
  intros Hs Hi Hj Hij. rewrite <- (take_drop_middle N i x Hi) in Hs. apply spaced_app in Hs as (_ & Hs & _).
  cbn [spaced] in Hs. destruct Hs as [Hs _]. rewrite Forall_forall in Hs. apply Hs.
  apply list_elem_of_lookup. exists (j - S i)%nat. rewrite lookup_drop. by replace (S i + (j - S i))%nat with j by lia.
Qed.

(** ** free() *)

Lemma addr_lookup N i : (i < length N)%nat → ∃ n, N !! i = Some (addr N i, n).
Proof. intros Hi. destruct (lookup_lt_is_Some_2 N i Hi) as [[a n] E]. exists n. unfold addr. by rewrite (list_lookup_total_correct _ _ _ E). Qed.

Lemma addr_lt N a b : spaced N → (∀ x, x ∈ N → 0 <= x.2) → (a < b)%nat → (b < length N)%nat → addr N a < addr N b.
Proof.
  intros Hs Hsz Hab Hb. destruct (addr_lookup N a) as [na Ea]; [lia|]. destruct (addr_lookup N b Hb) as [nb Eb].
  pose proof (spaced_lookup _ _ _ _ _ Hs Ea Eb Hab) as Ha. unfold apart in Ha.
  pose proof (Hsz _ (list_elem_of_lookup_2 _ _ _ Ea)). hlia.
Qed.

(** The loop of free() goes round to the node [j] before the block. *)
Lemma free_walk s N bp j i fuel :
  chain s.(hm) N (first_of N 0) → spaced N → (∀ x, x ∈ N → 0 <= x.2) →
  (∀ k, (k < length N)%nat → if decide (k <= j)%nat then addr N k < bp else bp < addr N k) →
  (i < length N)%nat → (j < length N)%nat → (dist (length N) i j < fuel)%nat →
  uwhile fuel (free_turn bp) (addr N i) s = URet (addr N j) s.
Proof.
  intros Hc Hs Hsz Hord Hi Hj. revert i Hi. induction fuel as [|fuel IH]; intros i Hi Hf; [lia|]. cbn [uwhile].
  assert (Hlt := λ a b, addr_lt N a b Hs Hsz).
  destruct (addr_lookup N i Hi) as [n Ei]. pose proof (chain_lookup _ _ _ _ _ Hc Ei) as Em.
  pose proof (nxt_lt _ _ Hi) as Hni. pose proof (Hord i Hi) as Oi. pose proof (Hord _ Hni) as On.
  assert (Hord2 : if decide (S i = length N) then addr N (nxt (length N) i) <= addr N i else addr N i < addr N (nxt (length N) i)).
  { unfold nxt. destruct (decide (S i = length N)); [|apply Hlt; lia]. destruct (decide (i = 0%nat)) as [->|]; [done|]. apply Z.lt_le_incl, Hlt; lia. }
  assert (H0 := Hord 0%nat ltac:(lia)). rewrite decide_True in H0 by lia.
  assert (Ht : free_turn bp (addr N i) s = URet (if decide (i = j) then inr (addr N i) else inl (addr N (nxt (length N) i))) s).
  { unfold free_turn. erewrite ubind_ret; [|reflexivity]. rewrite Em. cbn [hptr].
    unfold nxt in *. repeat case_decide; subst; repeat (bsplit; simpl); try done; try lia. }
  rewrite (ubind_ret _ _ _ _ _ Ht). case_decide as Hij; [by subst|]. apply IH; [done|].
  pose proof (dist_nxt _ _ _ Hi Hj Hij). lia.
Qed.

(** A block put before the blocks [G]: joined with the first of them when there
    is no gap. *)
Definition join (x : Z * Z) (G : list (Z * Z)) : list (Z * Z) :=
  match G with
  | y :: G' => if x.1 + HEADER * x.2 =? y.1 then (x.1, x.2 + y.2) :: G' else x :: G
  | [] => [x]
  end.

Definition free_of (z : Z * Z) (G : list (Z * Z)) : Prop := ∀ x, x ∈ G → disjoint_blocks x z.

Lemma join_spaced x G : spaced G → (∀ y, y ∈ G → x.1 + HEADER * x.2 <= y.1) → (∀ y, y ∈ G → 0 < y.2) → spaced (join x G).
Proof.
  destruct G as [|y G]; cbn [join spaced]; [done|]. intros [Hy HG] Hx Hsz. bsplit.
  - cbn [spaced]. split; [|done]. eapply Forall_impl; [exact Hy|]. intros z. unfold apart, HEADER in *. cbn [fst snd]. lia.
  - cbn [spaced]. split; [|done]. pose proof (Hx y ltac:(left)). pose proof (Hsz y ltac:(left)). rewrite Forall_forall in Hy |- *.
    intros z Hz. unfold apart in *. apply elem_of_cons in Hz as [->|Hz]; [lia|]. specialize (Hy z Hz). unfold HEADER in *. lia.
Qed.

Lemma join_blocks top x G : Forall (block_ok top) (x :: G) → Forall (block_ok top) (join x G).
Proof.
  destruct G as [|y G]; cbn [join]; [done|]. intros [Hx [Hy HG]%Forall_cons]%Forall_cons. bsplit; [|by repeat (apply Forall_cons; split)].
  apply Forall_cons. split; [|done]. destruct Hx, Hy. split; cbn [fst snd] in *; unfold HEADER in *; lia.
Qed.

Lemma join_bounds l h x G : l <= x.1 ∧ 0 < x.2 ∧ x.1 + HEADER * x.2 <= h →
  (∀ y, y ∈ G → l <= y.1 ∧ 0 < y.2 ∧ y.1 + HEADER * y.2 <= h) →
  ∀ y, y ∈ join x G → l <= y.1 ∧ 0 < y.2 ∧ y.1 + HEADER * y.2 <= h.
Proof.
  intros Hx HG y. destruct G as [|z G]; cbn [join]; [by intros ->%list_elem_of_singleton|].
  pose proof (HG z ltac:(left)). bsplit; intros [->|Hy]%elem_of_cons; try (by apply HG; set_solver); hlia.
Qed.

Lemma join_free_of z x G : 0 < z.2 → free_of z (x :: G) → free_of z (join x G).
Proof.
  intros Hz. destruct G as [|y G]; cbn [join]; [done|]. intros Hf. bsplit; [|done].
  intros w [->|Hw]%elem_of_cons; [|apply Hf; set_solver]. pose proof (Hf x ltac:(set_solver)) as Hx. pose proof (Hf y ltac:(set_solver)) as Hy.
  unfold disjoint_blocks, HEADER in *. cbn [fst snd]. lia.
Qed.

Lemma join_head x G : (∀ y, y ∈ G → 0 < y.2) → ∃ n G', join x G = (x.1, n) :: G' ∧ x.2 <= n ∧ (∀ y, y ∈ G' → y ∈ G).
Proof.
  intros Hy. destruct G as [|y G]; cbn [join]; [exists x.2, []; by destruct x|]. specialize (Hy y ltac:(left)) as Hy'. bsplit.
  - exists (x.2 + y.2), G. split; [done|]. split; [lia|set_solver].
  - exists x.2, (y :: G). destruct x. done.
Qed.

(** The statements of free() that link a block to the next one: [join]. *)
Lemma link_join s a n G e nx :
  nx = first_of G e → (s.(hm) a).(hsize) = n → chain s.(hm) G e → (∀ y, y ∈ G → a < y.1 ∧ 0 < y.2 ∧ y.1 + HEADER * y.2 <= 2 ^ 31) →
  0 <= a → 0 <= n → a + HEADER * n <= 2 ^ 31 → (G = [] → a + HEADER * n ≠ e) →
  ∃ s', (if units a n =? nx then
           nsz ← size nx;
           set_size a (u32 (n + nsz));;
           nn ← ptr nx;
           set_ptr a nn
         else set_ptr a nx) s = URet tt s' ∧
    s'.(freep) = s.(freep) ∧ s'.(brk) = s.(brk) ∧ chain s'.(hm) (join (a, n) G) e ∧ (∀ x, x ≠ a → s'.(hm) x = s.(hm) x).
Proof.
  intros -> Hn Hc Hy Ha Hn0 Htop He. unfold units. rewrite u32_small by hlia.
  destruct G as [|[b k] G]; cbn [first_of join fst snd].
  - rewrite (proj2 (Z.eqb_neq _ _)) by auto. eexists. split; [reflexivity|]. cbn. repeat split.
    + rewrite fn_lookup_insert. by rewrite Hn.
    + intros x Hx. by rewrite fn_lookup_insert_ne.
  - destruct (Hy (b, k) ltac:(left)) as (Hb & Hk & Hbk). cbn [fst snd] in *. destruct Hc as [Hmb Hc].
    assert (Hnot : ∀ y l, (y, l) ∈ G → y ≠ a) by (intros y l Hyl ->; destruct (Hy (a, l) ltac:(by right)); simpl in *; lia).
    bsplit.
    + eexists. split.
      { erewrite ubind_ret; [|reflexivity]. erewrite ubind_ret; [|reflexivity]. erewrite ubind_ret; reflexivity. }
      cbn [freep brk set_hm hm]. split_and!; [done|done| |].
      * cbn [chain]. rewrite fn_lookup_insert. cbn [hsize]. rewrite !fn_lookup_insert, fn_lookup_insert_ne by lia. rewrite Hmb. cbn [hptr hsize].
        rewrite u32_small by hlia. split; [done|].
        eapply hchain_frame; [|exact Hc]. intros y l Hyl. rewrite !fn_lookup_insert_ne by (intros E; by apply (Hnot y l)). done.
      * intros x Hx. by rewrite !fn_lookup_insert_ne.
    + eexists. split; [reflexivity|]. cbn [freep brk set_hm hm]. split_and!; [done|done| |].
      * cbn [chain]. rewrite fn_lookup_insert, fn_lookup_insert_ne by lia. rewrite Hn. split; [done|]. split; [done|].
        eapply hchain_frame; [|exact Hc]. intros y l Hyl. rewrite fn_lookup_insert_ne; [done|]. intros E. by apply (Hnot y l).
      * intros x Hx. by rewrite fn_lookup_insert_ne.
Qed.

(** The free list, as malloc() and free() find it. *)
Record ring (s : heap) (F : list (Z * Z)) : Prop := {
  r_chain : chain s.(hm) ((base, 0) :: F) base;
  r_freep : s.(freep) ∈ base :: F.*1;
  r_spaced : spaced F;
  r_blocks : Forall (block_ok s.(brk)) F;
  r_brk : s.(brk) `mod` HEADER = 0 ∧ lo <= s.(brk) <= 2 ^ 31;
}.

(** What happens to a block [z] that is not free: none of the free blocks
    reaches into it and what it holds is not changed. *)
Definition frame (s s' : heap) (F' : list (Z * Z)) (z : Z * Z) : Prop :=
  free_of z F' ∧ ∀ x, z.1 <= x < z.1 + HEADER * z.2 → s'.(hm) x = s.(hm) x.

Context (Hbase : 0 < base) (Hlo : base + HEADER <= lo).

(** The free blocks below and above a block. *)
Lemma split_at (b : Z * Z) F : spaced F → (∀ x, x ∈ F → 0 < x.2) → 0 < b.2 → free_of b F →
  ∃ F1 F2, F = F1 ++ F2 ∧ (∀ x, x ∈ F1 → x.1 + HEADER * x.2 <= b.1) ∧ (∀ x, x ∈ F2 → b.1 + HEADER * b.2 <= x.1).
Proof.
  induction F as [|x F IH]; intros Hs Hsz Hb Hd.
  - exists [], []. set_solver.
  - cbn [spaced] in Hs. destruct Hs as [Hx Hs]. destruct (Hd x ltac:(left)) as [Hl|Hr].
    + destruct IH as (F1 & F2 & -> & H1 & H2); [done|set_solver|done|intros y Hy; apply Hd; by right|].
      exists (x :: F1), F2. set_solver.
    + exists [], (x :: F). split; [done|]. split; [set_solver|]. intros y [->|Hy]%elem_of_cons; [done|].
      rewrite Forall_forall in Hx. specialize (Hx y Hy). pose proof (Hsz x ltac:(left)). unfold apart in Hx. hlia.
Qed.

Lemma snoc_case {A} (x : A) l : ∃ l' y, x :: l = l' ++ [y].
Proof. destruct (exists_last (l := x :: l)) as (l' & y & E); [done|]. eauto. Qed.

(** free() between the blocks [F1] and [F2], the last of [F1] (or base) being
    [p]. *)
Lemma free_links s L p pn b F2 fuel :
  let N := L ++ (p, pn) :: F2 in
  chain s.(hm) N base → (s.(hm) b.1).(hsize) = b.2 →
  uwhile fuel (free_turn b.1) s.(freep) s = URet p s →
  (∀ x, x ∈ L → x.1 < p) → base <= p → 0 <= pn → p < b.1 → 0 < b.2 → b.1 + HEADER * b.2 <= 2 ^ 31 → p + HEADER * pn <= b.1 →
  (∀ y, y ∈ F2 → b.1 + HEADER * b.2 <= y.1 ∧ 0 < y.2 ∧ y.1 + HEADER * y.2 <= 2 ^ 31) →
  ∃ s', free fuel (b.1 + HEADER) s = URet tt s' ∧ s'.(freep) = p ∧ s'.(brk) = s.(brk) ∧
    chain s'.(hm) (L ++ join (p, pn) (join b F2)) base ∧ (∀ x, x ≠ b.1 → x ≠ p → s'.(hm) x = s.(hm) x).
Proof.
  intros N Hc Hb Hw HL Hp0 Hpn Hp Hb0 Hbt Hpb H2. destruct b as [bp n]. cbn [fst snd] in *.
  apply hchain_app in Hc as [HcL [Hmp Hc2]]. fold (first_of F2 base) in Hmp.
  destruct (link_join s bp n F2 base (first_of F2 base)) as (s1 & E1 & Hf1 & Hk1 & Hc1 & Hm1); try (hlia || done).
  { intros y Hy. destruct (H2 y Hy). split; [hlia|done]. }
  destruct (join_head (bp, n) F2) as (n' & G' & EG & Hn' & HG'); [intros; by apply H2|]. cbn [fst snd] in *.
  assert (HJ : ∀ y, y ∈ join (bp, n) F2 → bp <= y.1 ∧ 0 < y.2 ∧ y.1 + HEADER * y.2 <= 2 ^ 31).
  { apply join_bounds; [hlia|]. intros y Hy. destruct (H2 y Hy). hlia. }
  destruct (link_join s1 p pn (join (bp, n) F2) base bp) as (s2 & E2 & Hf2 & Hk2 & Hc2' & Hm2); try (hlia || done).
  { by rewrite EG. }
  { rewrite Hm1 by lia. by rewrite Hmp. }
  { intros y Hy. destruct (HJ y Hy). hlia. }
  { rewrite EG. done. }
  exists (set_freep p s2). split_and!; [|done|by cbn; rewrite Hk2|..].
  - unfold free. rewrite u32_small by hlia. replace (bp + HEADER - HEADER) with bp by lia.
    erewrite ubind_ret; [|reflexivity]. rewrite (ubind_ret _ _ _ _ _ Hw). erewrite ubind_ret; [|reflexivity]. erewrite ubind_ret; [|reflexivity].
    cbv beta. rewrite Hmp, Hb. cbn [hptr]. rewrite (ubind_ret _ _ _ _ _ E1). erewrite ubind_ret; [|reflexivity]. cbv beta.
    rewrite (Hm1 p), Hmp by lia. cbn [hsize]. rewrite (ubind_ret _ _ _ _ _ E2). done.
  - cbn [set_freep hm]. apply hchain_app. split; [|done].
    destruct (join_head (p, pn) (join (bp, n) F2)) as (pn' & G2 & -> & _).
    { intros. by apply HJ. }
    cbn [first_of] in *. eapply hchain_frame; [|exact HcL]. intros a k Hak. specialize (HL _ Hak). cbn in HL. rewrite Hm2, Hm1 by lia. done.
  - intros x Hx Hx'. cbn [set_freep hm]. by rewrite Hm2, Hm1.
Qed.

Lemma ring_block s F x : ring s F → x ∈ F → block_ok s.(brk) x.
Proof. intros [_ _ _ Hb _] Hx. rewrite Forall_forall in Hb. by apply Hb. Qed.

Lemma ring_spaced s F : ring s F → spaced ((base, 0) :: F).
Proof.
  intros Hr. cbn [spaced]. split; [|apply Hr]. apply Forall_forall. intros x Hx.
  destruct (ring_block _ _ _ Hr Hx). unfold apart. hlia.
Qed.

Lemma ring_sizes s F x : ring s F → x ∈ (base, 0) :: F → 0 <= x.2.
Proof. intros Hr [->|Hx]%elem_of_cons; [done|]. destruct (ring_block _ _ _ Hr Hx). lia. Qed.

Lemma ring_index s F : ring s F → ∃ f, (f < S (length F))%nat ∧ s.(freep) = addr ((base, 0) :: F) f.
Proof.
  intros Hr. pose proof (r_freep _ _ Hr) as Hf. change (base :: F.*1) with (((base, 0) :: F).*1) in Hf.
  apply list_elem_of_fmap in Hf as (x & -> & Hx). apply list_elem_of_lookup in Hx as [f Hx]. exists f. split.
  - apply lookup_lt_Some in Hx. done.
  - unfold addr. by rewrite (list_lookup_total_correct _ _ _ Hx).
Qed.

(** The loop of free() finds the node before the block. *)
Lemma free_finds s F1 F2 L p pn b fuel :
  ring s (F1 ++ F2) → (base, 0) :: F1 = L ++ [(p, pn)] →
  (∀ x, x ∈ F1 → x.1 < b) → (∀ x, x ∈ F2 → b < x.1) → base < b → (length (F1 ++ F2) + 1 < fuel)%nat →
  uwhile fuel (free_turn b) s.(freep) s = URet p s.
Proof.
  intros Hr EL H1 H2 Hb Hf. destruct (ring_index _ _ Hr) as (f & Hfl & ->).
  assert (EN : (base, 0) :: F1 ++ F2 = L ++ (p, pn) :: F2) by (rewrite app_comm_cons, EL, <- app_assoc; done).
  assert (Hlen : length L = length F1) by (apply (f_equal length) in EL; rewrite length_app in EL; simpl in EL; lia).
  assert (Ep : p = addr ((base, 0) :: F1 ++ F2) (length L)).
  { unfold addr. rewrite EN. rewrite (list_lookup_total_correct _ _ (p, pn)); [done|]. by rewrite list_lookup_middle. }
  rewrite Ep. rewrite length_app in *. apply free_walk; cbn [length]; rewrite ?length_app; try lia.
  - apply Hr.
  - by eapply ring_spaced.
  - intros x Hx. by eapply ring_sizes.
  - intros k Hk. destruct (addr_lookup ((base, 0) :: F1 ++ F2) k) as [n Ek]; [cbn [length]; rewrite length_app; lia|].
    revert Ek. rewrite app_comm_cons at 1. case_decide as Hkl; intros Ek.
    + rewrite lookup_app_l in Ek by (cbn [length]; lia). apply list_elem_of_lookup_2 in Ek. apply elem_of_cons in Ek as [Ek|Ek]; [injection Ek as -> ->; done|]. by apply (H1 _ Ek).
    + rewrite lookup_app_r in Ek by (cbn [length]; lia). apply list_elem_of_lookup_2 in Ek. by apply (H2 _ Ek).
  - unfold dist. case_decide; lia.
Qed.

Lemma join_length x G : (length (join x G) <= S (length G))%nat.
Proof. destruct G as [|y G]; cbn [join]; [done|]. bsplit; cbn [length]; lia. Qed.

Lemma join_above x G : (∀ y, y ∈ G → x.1 <= y.1) → ∀ y, y ∈ join x G → x.1 <= y.1.
Proof.
  intros HG y. destruct G as [|z G]; cbn [join]; [by intros ->%list_elem_of_singleton|].
  bsplit; intros [->|Hy]%elem_of_cons; cbn [fst]; try lia; apply HG; set_solver.
Qed.

(** The list that free() makes is a free list. *)
Lemma rejoin top F1 F2 L p pn b :
  (base, 0) :: F1 = L ++ [(p, pn)] → spaced (F1 ++ F2) → Forall (block_ok top) (b :: F1 ++ F2) →
  (∀ x, x ∈ F1 → x.1 + HEADER * x.2 <= b.1) → (∀ x, x ∈ F2 → b.1 + HEADER * b.2 <= x.1) →
  ∃ F', L ++ join (p, pn) (join b F2) = (base, 0) :: F' ∧ p ∈ base :: F'.*1 ∧ spaced F' ∧ Forall (block_ok top) F' ∧
    (∃ x, x ∈ F' ∧ b.2 <= x.2) ∧ (length F' <= S (length (F1 ++ F2)))%nat ∧
    ∀ z, 0 < z.2 → free_of z (b :: F1 ++ F2) → free_of z F'.
Proof.
  intros EL (Hs1 & Hs2 & H12)%spaced_app [Hb [HB1 HB2]%Forall_app]%Forall_cons H1 H2.
  assert (P2 : ∀ y, y ∈ F2 → 0 < y.2) by (intros y Hy; rewrite Forall_forall in HB2; apply (HB2 y Hy)).
  destruct (join_head b F2 P2) as (n' & G' & EG & Hn' & HG').
  assert (HsG : spaced (join b F2)) by (by apply join_spaced).
  assert (HBG : Forall (block_ok top) (join b F2)) by (apply join_blocks; by apply Forall_cons).
  pose proof (join_length b F2) as HlG.
  assert (HfG : ∀ z, 0 < z.2 → free_of z (b :: F1 ++ F2) → free_of z (join b F2)).
  { intros z Hz Hf. apply join_free_of; [done|]. intros x Hx. apply Hf. set_solver. }
  destruct L as [|x L]; simplify_list_eq.
  - exists (join b F2). rewrite EG at 1. cbn [join fst snd]. destruct Hb as [? _ Hl _]. rewrite (proj2 (Z.eqb_neq _ _)) by hlia. rewrite <- EG.
    split_and!; [done|left|done|done| |done|done]. exists (b.1, n'). rewrite EG. split; [left|done].
  - set (G := join b F2) in *. apply Forall_app in HB1 as [HBL [Hp _]%Forall_cons].
    assert (PG : ∀ y, y ∈ G → 0 < y.2) by (intros y Hy; rewrite Forall_forall in HBG; apply (HBG y Hy)).
    assert (AG : ∀ y, y ∈ G → b.1 <= y.1) by (apply join_above; intros y Hy; specialize (H2 y Hy); destruct Hb; hlia).
    assert (Hpb := H1 (p, pn) ltac:(set_solver)). cbn [fst snd] in Hpb.
    destruct (join_head (p, pn) G PG) as (pn' & G2 & EG2 & Hpn' & HG2). cbn [fst snd] in *.
    apply spaced_app in Hs1 as (HsL & _ & HLp).
    exists (L ++ join (p, pn) G). split_and!.
    + done.
    + rewrite fmap_app, EG2. set_solver.
    + apply spaced_app. split_and!; [done|apply join_spaced; [done| |done]; intros y Hy; specialize (AG y Hy); cbn [fst snd]; lia|].
      intros x y Hx Hy. specialize (HLp x (p, pn) Hx ltac:(left)). unfold apart in *. cbn [fst] in *.
      assert (p <= y.1); [|lia]. apply (join_above (p, pn) G); [|done]. intros w Hw. specialize (AG w Hw). destruct Hp. hlia.
    + apply Forall_app. split; [done|]. apply join_blocks. by apply Forall_cons.
    + assert (Hbig : ∃ x, x ∈ join (p, pn) G ∧ b.2 <= x.2); [|set_solver]. rewrite EG. cbn [join fst snd]. destruct Hp. bsplit.
      * eexists. split; [left|]. hlia.
      * exists (b.1, n'). split; [right; left|done].
    + pose proof (join_length (p, pn) G). rewrite !length_app in *. cbn [length] in *. lia.
    + intros z Hz Hf y [Hy|Hy]%elem_of_app; [apply Hf; set_solver|]. revert y Hy. apply join_free_of; [done|].
      intros y [->|Hy]%elem_of_cons; [apply Hf; set_solver|]. by apply (HfG z Hz Hf).
Qed.

(** free() of a block that is not free. *)
Lemma free_ring s F b fuel : ring s F → block_ok s.(brk) b → free_of b F → (s.(hm) b.1).(hsize) = b.2 → (length F + 1 < fuel)%nat →
  ∃ s' F', free fuel (b.1 + HEADER) s = URet tt s' ∧ ring s' F' ∧ s'.(brk) = s.(brk) ∧
    (∃ x, x ∈ F' ∧ b.2 <= x.2) ∧ (length F' <= S (length F))%nat ∧
    ∀ z, block_ok s.(brk) z → free_of z (b :: F) → frame s s' F' z.
Proof.
  intros Hr Hb Hfb Hm Hf. assert (HB := λ x, ring_block _ _ x Hr).
  destruct (split_at b F) as (F1 & F2 & -> & H1 & H2); [apply Hr|intros x Hx; apply (HB x Hx)|apply Hb|done|].
  destruct (snoc_case (base, 0) F1) as (L & [p pn] & EL).
  destruct (rejoin s.(brk) F1 F2 L p pn b) as (F' & EF & Hp & Hs & HBs & Hbig & Hlen & Hfree); try done; [apply Hr|apply Forall_cons; split; [done|apply Hr]|].
  assert (Hpx : (p, pn) = (base, 0) ∨ (p, pn) ∈ F1) by (apply elem_of_cons; rewrite EL; set_solver).
  pose proof (r_brk _ _ Hr) as [Hal Hbrk]. destruct Hb as [Hb1 Hb2 Hb3 Hb4].
  assert (Hpp : base <= p ∧ 0 <= pn ∧ p + HEADER * pn <= b.1 ∧ p < b.1).
  { destruct Hpx as [[= -> ->]|Hin]; [hlia|]. specialize (H1 _ Hin). destruct (HB (p, pn)) as [? _ ? _]; [set_solver|]. hlia. }
  assert (Hw : uwhile fuel (free_turn b.1) s.(freep) s = URet p s).
  { eapply free_finds; try done; [| |hlia].
    - intros x Hx. specialize (H1 x Hx). destruct (HB x ltac:(set_solver)). hlia.
    - intros x Hx. specialize (H2 x Hx). hlia. }
  assert (EN : (base, 0) :: F1 ++ F2 = L ++ (p, pn) :: F2) by (rewrite app_comm_cons, EL, <- app_assoc; done).
  destruct (free_links s L p pn b F2 fuel) as (s' & E & Efp & Ebrk & Hc & Hsame); try (hlia || done).
  { rewrite <- EN. apply Hr. }
  { intros x Hx. pose proof (ring_spaced _ _ Hr) as Hsp. rewrite EN in Hsp. apply spaced_app in Hsp as (_ & _ & Hsp).
    specialize (Hsp x (p, pn) Hx ltac:(left)). unfold apart in Hsp. pose proof (ring_sizes _ _ x Hr) as Hx0. rewrite EN in Hx0. specialize (Hx0 ltac:(set_solver)). hlia. }
  { intros y Hy. split; [by apply H2|]. destruct (HB y ltac:(set_solver)). hlia. }
  exists s', F'. split_and!; try done.
  - split; rewrite ?Ebrk, ?Efp; try done. by rewrite <- EF.
  - intros z [Hz1 _ Hz3 _] Hz. split; [by apply Hfree|]. intros x Hx. apply Hsame.
    + intros ->. destruct (Hz b ltac:(left)); hlia.
    + intros ->. destruct Hpx as [[= -> ->]|Hin]; [hlia|]. destruct (HB (p, pn)) as [? _ ? _]; [set_solver|]. destruct (Hz (p, pn) ltac:(set_solver)); hlia.
Qed.

(** ** malloc() *)

(** The kernel never gives a process memory at or above KERNBASE. *)
Context (Hgrow : ∀ x, grow x = true → x <= 2 ^ 31).

(** What morecore() asks for, in units. *)
Definition request (nu : Z) : Z := if nu <? 4096 then 4096 else nu.

Lemma morecore_fails s nu fuel : 0 < nu < 2 ^ 28 → grow (s.(brk) + HEADER * request nu) = false →
  morecore fuel nu s = URet 0 s.
Proof.
  intros Hnu Hg. unfold morecore. fold (request nu). rewrite s32_small by (unfold request, is_s32, HEADER; bsplit; lia).
  rewrite (Z.mul_comm (request nu)). erewrite ubind_ret; [|unfold sbrk; rewrite Hg; reflexivity]. done.
Qed.

Lemma block_ok_mono top top' x : top <= top' → block_ok top x → block_ok top' x.
Proof. intros Ht [? ? ? ?]. split; lia. Qed.

Lemma morecore_ring s F nu fuel : ring s F → 0 < nu < 2 ^ 28 → grow (s.(brk) + HEADER * request nu) = true → (length F + 1 < fuel)%nat →
  ∃ s' F', morecore fuel nu s = URet s'.(freep) s' ∧ ring s' F' ∧ s'.(brk) = s.(brk) + HEADER * request nu ∧
    (∃ x, x ∈ F' ∧ nu <= x.2) ∧ (length F' <= S (length F))%nat ∧
    ∀ z, block_ok s.(brk) z → free_of z F → frame s s' F' z.
Proof.
  intros Hr Hnu Hg Hf. unfold morecore. fold (request nu).
  assert (Hreq : nu <= request nu < 2 ^ 28) by (unfold request; bsplit; lia).
  rewrite s32_small by (unfold is_s32, HEADER; lia). rewrite (Z.mul_comm (request nu)).
  erewrite ubind_ret; [|unfold sbrk; rewrite Hg; reflexivity]. cbv beta iota. erewrite ubind_ret; [|reflexivity]. cbv beta.
  pose proof (Hgrow _ Hg) as Hmax. pose proof (r_brk _ _ Hr) as [Hal Hbrk]. assert (HB := λ x, ring_block _ _ x Hr).
  unfold units. rewrite u32_small by hlia. rewrite Z.mul_1_r. set (b := (s.(brk), request nu)).
  set (s1 := set_hm _ _). assert (Hsame : ∀ x, x ≠ s.(brk) → s1.(hm) x = s.(hm) x) by (intros x Hx; unfold s1; cbn [set_hm hm]; by rewrite fn_lookup_insert_ne).
  assert (Hr1 : ring s1 F).
  { destruct Hr as [Hc Hfp Hsp Hbl _]. split; try done.
    - eapply hchain_frame; [|exact Hc]. intros a n Han. apply Hsame. apply elem_of_cons in Han as [[= -> ->]|Han]; [hlia|].
      destruct (HB _ Han). hlia.
    - eapply Forall_impl; [exact Hbl|]. intros x. apply block_ok_mono. unfold s1. cbn [set_hm brk]. hlia.
    - unfold s1. cbn [set_hm brk]. unfold HEADER in *. Z.to_euclidean_division_equations. hlia. }
  destruct (free_ring s1 F b fuel) as (s' & F' & E & Hr' & Ebrk & Hbig & Hlen & Hfr); [done|..|done|].
  { split; unfold s1; cbn [set_hm brk b fst snd]; hlia. }
  { intros x Hx. left. destruct (HB x Hx). unfold b. hlia. }
  { unfold s1, b. cbn [set_hm hm fst snd]. by rewrite fn_lookup_insert. }
  exists s', F'. split_and!; try done.
  - etransitivity; [eapply ubind_ret; exact E|done].
  - destruct Hbig as (x & Hx & Hbx). exists x. split; [done|]. unfold b in Hbx. cbn [snd] in Hbx. lia.
  - intros z Hz Hfz. destruct (Hfr z) as [Hf1 Hf2].
    + eapply block_ok_mono; [|exact Hz]. unfold s1. cbn [set_hm brk]. hlia.
    + intros x [->|Hx]%elem_of_cons; [|by apply Hfz]. right. destruct Hz. unfold b. hlia.
    + split; [done|]. intros x Hx. rewrite Hf2 by done. apply Hsame. destruct Hz. hlia.
Qed.

(** What taking the block [b] out of the free blocks gives. *)
Record taken (d : nat) (s : heap) (F : list (Z * Z)) (s' : heap) (F' : list (Z * Z)) (b : Z * Z) : Prop := {
  tk_ring : ring s' F';
  tk_len : (length F' <= d + length F)%nat;
  tk_brk : s.(brk) <= s'.(brk);
  tk_size : (s'.(hm) b.1).(hsize) = b.2;
  tk_block : block_ok s'.(brk) b;
  tk_free : free_of b F';
  tk_frame : ∀ z, block_ok s.(brk) z → free_of z F → frame s s' F' z ∧ disjoint_blocks b z;
}.

Lemma spaced_disjoint F1 x F2 y : spaced (F1 ++ x :: F2) → y ∈ F1 ++ F2 → disjoint_blocks y x.
Proof.
  intros (_ & [H2 _] & H1)%spaced_app [Hy|Hy]%elem_of_app.
  - specialize (H1 y x Hy ltac:(left)). left. unfold apart in H1. lia.
  - rewrite Forall_forall in H2. specialize (H2 y Hy). right. unfold apart in H2. lia.
Qed.

(** A block of the size asked for. *)
Lemma take_exact s F1 F2 L q qn a n fuel : ring s (F1 ++ (a, n) :: F2) → (base, 0) :: F1 = L ++ [(q, qn)] →
  ∃ s', malloc_turn fuel n (q, a) s = URet (inr (a + HEADER)) s' ∧ taken 0 s (F1 ++ (a, n) :: F2) s' (F1 ++ F2) (a, n).
Proof.
  intros Hr EL. assert (HB := λ x, ring_block _ _ x Hr). pose proof (HB (a, n) ltac:(set_solver)) as Ha.
  pose proof (r_brk _ _ Hr) as Hbrk. pose proof (ring_spaced _ _ Hr) as Hsp.
  assert (EN : (base, 0) :: F1 ++ (a, n) :: F2 = L ++ (q, qn) :: (a, n) :: F2) by (rewrite app_comm_cons, EL, <- app_assoc; done).
  pose proof (r_chain _ _ Hr) as Hc. rewrite EN in Hc, Hsp. apply hchain_app in Hc as [HcL [Hq Hc]]. cbn [chain] in Hc. destruct Hc as [Hma Hc2].
  fold (first_of F2 base) in Hma. apply spaced_app in Hsp as (_ & [Hq2 _] & HLq). rewrite Forall_forall in Hq2.
  assert (Hqx : (q, qn) = (base, 0) ∨ (q, qn) ∈ F1) by (apply elem_of_cons; rewrite EL; set_solver).
  assert (Hq0 : base <= q ∧ 0 <= qn) by (destruct Hqx as [[= -> ->]|Hin]; [lia|destruct (HB (q, qn)) as [? _ ? _]; [set_solver|hlia]]).
  exists (set_freep q (set_hm (λ m, <[q := mk_header (first_of F2 base) (m q).(hsize)]> m) s)). split.
  { unfold malloc_turn. erewrite ubind_ret; [|reflexivity]. cbv beta. rewrite Hma. cbn [hsize]. rewrite Z.leb_refl, Z.eqb_refl.
    erewrite ubind_ret; [|erewrite ubind_ret; [|reflexivity]; cbv beta; rewrite Hma; reflexivity]. cbv beta. erewrite ubind_ret; [|reflexivity].
    unfold units. rewrite u32_small by (destruct Ha; hlia). by rewrite Z.mul_1_r. }
  assert (Hne : ∀ x, x ≠ q → <[q := mk_header (first_of F2 base) (s.(hm) q).(hsize)]> s.(hm) x = s.(hm) x) by (intros; by rewrite fn_lookup_insert_ne).
  split; cbn [set_freep set_hm hm brk freep fst snd]; try done.
  - split; cbn [set_freep set_hm hm brk freep]; try done.
    + rewrite app_comm_cons, EL, <- app_assoc. apply hchain_app. split; [|cbn [app chain]; split].
      * cbn [first_of app] in *. eapply hchain_frame; [|exact HcL]. intros x k Hx. apply Hne.
        specialize (HLq (x, k) (q, qn) Hx ltac:(left)). pose proof (ring_sizes _ _ (x, k) Hr) as Hk. rewrite EN in Hk. specialize (Hk ltac:(set_solver)). unfold apart in HLq. hlia.
      * rewrite fn_lookup_insert, Hq. by destruct F2 as [|[]].
      * eapply hchain_frame; [|exact Hc2]. intros x k Hx. apply Hne. specialize (Hq2 (x, k) ltac:(by right)). unfold apart in Hq2. hlia.
    + destruct Hqx as [[= -> ->]|Hin]; [left|]. right. rewrite fmap_app. apply elem_of_app. left. apply list_elem_of_fmap. by exists (q, qn).
    + pose proof (r_spaced _ _ Hr) as (? & [? ?] & ?)%spaced_app. apply spaced_app. set_solver.
    + pose proof (r_blocks _ _ Hr) as [? [_ ?]%Forall_cons]%Forall_app. by apply Forall_app.
  - rewrite !length_app. cbn [length]. lia.
  - specialize (Hq2 (a, n) ltac:(left)). unfold apart in Hq2. rewrite Hne by hlia. by rewrite Hma.
  - intros y Hy. eapply spaced_disjoint; [apply Hr|done].
  - intros z Hz Hfz. split; [|apply Hfz; set_solver]. split; [intros y Hy; apply Hfz; set_solver|]. intros x Hx.
    apply Hne. intros ->. destruct Hz. destruct Hqx as [[= -> ->]|Hin]; [hlia|].
    destruct (HB (q, qn)) as [? _ ? _]; [set_solver|]. destruct (Hfz (q, qn) ltac:(set_solver)); hlia.
Qed.

(** A larger block: its end is taken. *)
Lemma take_split s F1 F2 q a n nunits fuel : ring s (F1 ++ (a, n) :: F2) → q ∈ base :: F1.*1 → 0 < nunits < n →
  let r := a + HEADER * (n - nunits) in
  ∃ s', malloc_turn fuel nunits (q, a) s = URet (inr (r + HEADER)) s' ∧
    taken 0 s (F1 ++ (a, n) :: F2) s' (F1 ++ (a, n - nunits) :: F2) (r, nunits).
Proof.
  intros Hr Hq Hn r. assert (HB := λ x, ring_block _ _ x Hr). pose proof (HB (a, n) ltac:(set_solver)) as Ha.
  pose proof (r_brk _ _ Hr) as Hbrk. pose proof (r_chain _ _ Hr) as Hc. rewrite app_comm_cons in Hc.
  apply hchain_app in Hc as [Hc1 [Hma Hc2]]. fold (first_of F2 base) in Hma. cbn [first_of] in Hc1.
  pose proof (r_spaced _ _ Hr) as Hsp. assert (Hds := λ y, spaced_disjoint F1 (a, n) F2 y Hsp).
  assert (Hout : ∀ x k, (x, k) ∈ (base, 0) :: F1 ++ F2 → x < a ∨ a + HEADER * n <= x).
  { intros x k [[= -> ->]|Hx]%elem_of_cons; [destruct Ha; hlia|]. destruct (HB (x, k)) as [? _ _ _]; [set_solver|]. destruct (Hds (x, k) Hx); hlia. }
  set (m1 := <[a := mk_header (s.(hm) a).(hptr) (n - nunits)]> s.(hm)).
  set (m2 := <[r := mk_header (m1 r).(hptr) nunits]> m1).
  assert (Hne : ∀ x, x < a ∨ a + HEADER * n <= x → m2 x = s.(hm) x).
  { intros x Hx. unfold m2, m1. rewrite !fn_lookup_insert_ne; [done|..]; unfold r; hlia. }
  exists (mk_heap m2 q s.(brk)). split.
  { unfold malloc_turn. erewrite ubind_ret; [|reflexivity]. cbv beta. rewrite Hma. cbn [hsize].
    rewrite (proj2 (Z.leb_le _ _)), (proj2 (Z.eqb_neq _ _)) by lia. rewrite (u32_small (n - nunits)) by (destruct Ha; hlia).
    erewrite ubind_ret; [|unfold units; rewrite u32_small by (destruct Ha; hlia); reflexivity]. cbv beta. erewrite ubind_ret; [|reflexivity].
    fold r. unfold units. rewrite u32_small by (unfold r; destruct Ha; hlia). by rewrite Z.mul_1_r. }
  assert (Hsp' : spaced (F1 ++ (a, n - nunits) :: F2)).
  { apply spaced_app in Hsp as (? & [Hf ?] & Hx). apply spaced_app. cbn [spaced]. split_and!; [done| |done|].
    - eapply Forall_impl; [exact Hf|]. intros y. unfold apart. hlia.
    - intros x y Hx1 [->|Hy]%elem_of_cons; [|apply Hx; set_solver]. apply (Hx x (a, n)); set_solver. }
  split; cbn [hm brk freep fst snd]; try done.
  - split; cbn [hm brk freep]; try done.
    + rewrite app_comm_cons. apply hchain_app. split; [|split].
      * eapply hchain_frame; [|exact Hc1]. intros x k Hx. apply Hne, (Hout x k). set_solver.
      * unfold m2. rewrite fn_lookup_insert_ne by (unfold r; hlia). unfold m1. rewrite fn_lookup_insert. by rewrite Hma.
      * eapply hchain_frame; [|exact Hc2]. intros x k Hx. apply Hne, (Hout x k). set_solver.
    + rewrite fmap_app. set_solver.
    + pose proof (r_blocks _ _ Hr) as [? [_ ?]%Forall_cons]%Forall_app. apply Forall_app. split; [done|]. apply Forall_cons. split; [|done].
      destruct Ha. split; hlia.
  - by rewrite !length_app.
  - unfold m2. by rewrite fn_lookup_insert.
  - destruct Ha. split; unfold r; try hlia. unfold HEADER in *. Z.to_euclidean_division_equations. hlia.
  - intros y Hy. assert (Hy' : y = (a, n - nunits) ∨ y ∈ F1 ++ F2) by set_solver. destruct Hy' as [->|Hy'].
    + left. unfold r. hlia.
    + destruct (Hds y Hy'); [left|right]; unfold r; hlia.
  - intros z Hz Hfz. pose proof (Hfz (a, n) ltac:(set_solver)) as Hza. split; [split|].
    + intros y Hy. assert (Hy' : y = (a, n - nunits) ∨ y ∈ F1 ++ F2) by set_solver. destruct Hy' as [->|Hy']; [|apply Hfz; set_solver].
      destruct Hza; [left|right]; hlia.
    + intros x Hx. apply Hne. destruct Hza; hlia.
    + destruct Hza; [left|right]; unfold r; hlia.
Qed.

(** A turn of malloc() at a block that is large enough. *)
Lemma take_at s F i a n nunits fuel :
  let N := (base, 0) :: F in let k := nxt (length N) i in
  ring s F → (i < length N)%nat → N !! k = Some (a, n) → 0 < nunits <= n →
  ∃ s' F' r, malloc_turn fuel nunits (addr N i, addr N k) s = URet (inr (r + HEADER)) s' ∧ taken 0 s F s' F' (r, nunits).
Proof.
  intros N k Hr Hi Hk Hn. assert (Ea : addr N k = a) by (unfold addr; by rewrite (list_lookup_total_correct _ _ _ Hk)). rewrite Ea.
  unfold k, nxt in Hk. case_decide as Hd; [cbn in Hk; injection Hk as <- <-; lia|]. cbn [N lookup list_lookup] in Hk.
  destruct (addr_lookup N i Hi) as [qn Eq]. pose proof (take_drop_middle F i _ Hk) as EF.
  assert (EL : (base, 0) :: take i F = take i N ++ [(addr N i, qn)]) by (rewrite <- (take_S_r _ _ _ Eq); done).
  rewrite <- EF in Hr |- *. destruct (decide (n = nunits)) as [->|Hne].
  - destruct (take_exact s (take i F) (drop (S i) F) _ _ qn a nunits fuel Hr EL) as (s' & E & Ht). eauto.
  - destruct (take_split s (take i F) (drop (S i) F) (addr N i) a n nunits fuel) as (s' & E & Ht); [done| |lia|eauto].
    change (base :: (take i F).*1) with (((base, 0) :: take i F).*1). rewrite EL, fmap_app. set_solver.
Qed.

(** A turn at one that is not. *)
Lemma scan_turn s F f q k n nunits fuel :
  let N := (base, 0) :: F in
  ring s F → (f < length N)%nat → s.(freep) = addr N f → k ≠ f → N !! k = Some (addr N k, n) → n < nunits →
  malloc_turn fuel nunits (q, addr N k) s = URet (inl (addr N k, addr N (nxt (length N) k))) s.
Proof.
  intros N Hr Hf Hfp Hne En Hn. assert (Hk := lookup_lt_Some _ _ _ En).
  assert (Emem : s.(hm) (addr N k) = mk_header (addr N (nxt (length N) k)) n) by (by apply chain_lookup; [apply Hr|]).
  assert (Hlt := λ a b, addr_lt N a b (ring_spaced _ _ Hr) (λ x, ring_sizes _ _ x Hr)).
  unfold malloc_turn. erewrite ubind_ret; [|reflexivity]. cbv beta. rewrite Emem. cbn [hsize]. rewrite (proj2 (Z.leb_gt _ _)) by lia.
  erewrite ubind_ret; [|reflexivity]. cbv beta. rewrite Hfp. rewrite (proj2 (Z.eqb_neq _ _)).
  - erewrite ubind_ret; [|reflexivity]. cbv beta. by rewrite Emem.
  - destruct (decide (k < f)%nat) as [H|H]; [specialize (Hlt k f H Hf)|specialize (Hlt f k ltac:(lia) Hk)]; lia.
Qed.

(** malloc() goes round to the first block that is large enough, or to freep. *)
Lemma malloc_scan s F f nunits fuel :
  let N := (base, 0) :: F in let len := length N in
  ring s F → (f < len)%nat → s.(freep) = addr N f →
  ∀ i turns, (i < len)%nat → (dist len (nxt len i) f <= turns)%nat →
  ∃ i' c a n, (c <= dist len (nxt len i) f)%nat ∧ (i' < len)%nat ∧ N !! nxt len i' = Some (a, n) ∧
    uwhile turns (malloc_turn fuel nunits) (addr N i, addr N (nxt len i)) s =
    uwhile (turns - c) (malloc_turn fuel nunits) (addr N i', addr N (nxt len i')) s ∧
    (nunits <= n ∨ n < nunits ∧ nxt len i' = f ∧
       ∀ k x, N !! k = Some x → (dist len (nxt len i) k <= dist len (nxt len i) f)%nat → x.2 < nunits).
Proof.
  intros N len Hr Hf Hfp i turns. remember (dist len (nxt len i) f) as d eqn:Ed. revert i turns Ed.
  induction d as [|d IH]; intros i turns Ed Hi Ht; pose proof (nxt_lt _ _ Hi) as Hk; destruct (addr_lookup N (nxt len i) Hk) as [n En].
  - exists i, 0%nat, (addr N (nxt len i)), n. rewrite Nat.sub_0_r. split_and!; try done. destruct (decide (nunits <= n)); [by left|]. right.
    assert (Ek : nxt len i = f) by (revert Ed; unfold dist; case_decide; lia). split_and!; [lia|done|]. intros k x Hx Hd.
    assert (Hkl := lookup_lt_Some _ _ _ Hx). assert (k = f) as -> by (revert Hd; rewrite Ek; fold len in Hkl; unfold dist; repeat case_decide; lia).
    rewrite Ek in En. rewrite En in Hx. injection Hx as <-. cbn. lia.
  - destruct (decide (nunits <= n)) as [Hle|Hgt].
    { exists i, 0%nat, (addr N (nxt len i)), n. rewrite Nat.sub_0_r. split_and!; try done; [lia|by left]. }
    assert (Hne : nxt len i ≠ f) by (intros E; revert Ed; rewrite E; unfold dist; case_decide; lia).
    pose proof (dist_nxt _ _ _ Hk Hf Hne) as Hd. destruct turns as [|turns]; [lia|].
    destruct (IH (nxt len i) turns) as (i' & c & a & n' & Hc & Hi' & Hn' & Erun & Hres); [lia|done|lia|].
    exists i', (S c), a, n'. split_and!; [lia|done|done| |].
    + change (S turns - S c)%nat with (turns - c)%nat. rewrite <- Erun. cbn [uwhile].
      pose proof (scan_turn s F f (addr N i) (nxt len i) n nunits fuel Hr Hf Hfp Hne En ltac:(lia)) as Eturn. cbv zeta in Eturn.
      by rewrite (ubind_ret _ _ _ _ _ Eturn).
    + destruct Hres as [?|(? & ? & Hall)]; [by left|right]. split_and!; [done|done|]. intros k x Hx Hdk.
      destruct (decide (nxt len i = k)) as [<-|Hnk]; [rewrite En in Hx; injection Hx as <-; cbn; lia|].
      apply (Hall k x Hx). pose proof (dist_nxt len (nxt len i) k Hk (lookup_lt_Some _ _ _ Hx) Hnk). lia.
Qed.

Lemma ring_freep s F : ring s F → s.(freep) ≠ 0.
Proof.
  intros Hr. pose proof (r_freep _ _ Hr) as Hin. apply elem_of_cons in Hin as [->|Hin]; [lia|].
  apply list_elem_of_fmap in Hin as (y & -> & Hy). destruct (ring_block _ _ _ Hr Hy). hlia.
Qed.

Lemma frame_trans s s1 s' F' z : (∀ x, z.1 <= x < z.1 + HEADER * z.2 → s1.(hm) x = s.(hm) x) → frame s1 s' F' z → frame s s' F' z.
Proof. intros H1 [Hf H2]. split; [done|]. intros x Hx. by rewrite H2, H1. Qed.

(** The loop of malloc() from freep: a round over the free blocks. *)
Lemma malloc_round s F nunits fuel turns : ring s F → 0 < nunits → (length F + 1 < turns)%nat →
  (∃ s' F' r, uwhile turns (malloc_turn fuel nunits) (s.(freep), (s.(hm) s.(freep)).(hptr)) s = URet (r + HEADER) s' ∧
     taken 0 s F s' F' (r, nunits)) ∨
  (∀ x, x ∈ F → x.2 < nunits) ∧
  ∃ q c, (c <= length F)%nat ∧
    uwhile turns (malloc_turn fuel nunits) (s.(freep), (s.(hm) s.(freep)).(hptr)) s =
    uwhile (turns - c) (malloc_turn fuel nunits) (q, s.(freep)) s ∧ (s.(hm) s.(freep)).(hsize) < nunits.
Proof.
  intros Hr Hn Ht. destruct (ring_index _ _ Hr) as (f & Hf & Hfp). set (N := (base, 0) :: F) in *. change (S (length F)) with (length N) in Hf.
  destruct (addr_lookup N f Hf) as [fn Ef]. rewrite Hfp. pose proof (chain_lookup _ _ _ _ _ (r_chain _ _ Hr) Ef) as Em. rewrite Em. cbn [hptr hsize].
  fold N. assert (Hd : (dist (length N) (nxt (length N) f) f <= length F)%nat) by (change (length N) with (S (length F)) in *; unfold dist, nxt; repeat case_decide; lia).
  destruct (malloc_scan s F f nunits fuel Hr Hf Hfp f turns Hf ltac:(fold N; lia)) as (i & c & a & n & Hc & Hi & Ea & Erun & Hres).
  fold N in Hc, Hi, Ea, Erun, Hres. rewrite Erun. destruct Hres as [Hle|(Hlt & Ei & Hall)].
  - left. destruct (take_at s F i a n nunits fuel Hr Hi Ea ltac:(lia)) as (s' & F' & r & Et & Htk). exists s', F', r. split; [|done].
    destruct (turns - c)%nat as [|t] eqn:Etc; [lia|]. cbn [uwhile]. fold N in Et. by rewrite (ubind_ret _ _ _ _ _ Et).
  - right. split.
    + intros x Hx. apply list_elem_of_lookup in Hx as [k Hk]. apply (Hall (S k) x); [done|]. apply dist_all; [done|].
      change (length N) with (S (length F)). apply lookup_lt_Some in Hk. lia.
    + exists (addr N i), c. rewrite Ei. split_and!; [lia|done|]. rewrite Ei, Ef in Ea. by injection Ea as _ <-.
Qed.

(** malloc() once the list is set up. *)
Lemma malloc_ring s F nunits fuel : ring s F → 0 < nunits < 2 ^ 28 → (2 * length F + 5 < fuel)%nat →
  let run := uwhile fuel (malloc_turn fuel nunits) (s.(freep), (s.(hm) s.(freep)).(hptr)) s in
  (run = URet 0 s ∧ grow (s.(brk) + HEADER * request nunits) = false ∧ ∀ x, x ∈ F → x.2 < nunits) ∨
  ∃ s' F' r, run = URet (r + HEADER) s' ∧ taken 1 s F s' F' (r, nunits).
Proof.
  intros Hr Hn Hfuel run. destruct (malloc_round s F nunits fuel fuel Hr ltac:(lia) ltac:(lia)) as [(s' & F' & r & E & [])|(Hall & q & c & Hc & E & Hsz)].
  { right. exists s', F', r. split; [done|]. split; try done. lia. }
  unfold run. rewrite E. destruct (fuel - c)%nat as [|t] eqn:Et; [lia|]. cbn [uwhile].
  destruct (grow (s.(brk) + HEADER * request nunits)) eqn:Hg.
  - right. destruct (morecore_ring s F nunits fuel Hr Hn Hg ltac:(lia)) as (s1 & F1 & Em & Hr1 & Hb1 & (x & Hx & Hbig) & Hlen & Hfr).
    pose proof (ring_freep _ _ Hr1) as Hnz.
    assert (Eturn : malloc_turn fuel nunits (q, s.(freep)) s = URet (inl (s1.(freep), (s1.(hm) s1.(freep)).(hptr))) s1).
    { unfold malloc_turn. erewrite ubind_ret; [|reflexivity]. cbv beta. rewrite (proj2 (Z.leb_gt _ _)) by lia.
      erewrite ubind_ret; [|reflexivity]. cbv beta. rewrite Z.eqb_refl, (ubind_ret _ _ _ _ _ Em). rewrite (proj2 (Z.eqb_neq _ _)) by done. done. }
    rewrite (ubind_ret _ _ _ _ _ Eturn). destruct (malloc_round s1 F1 nunits fuel t Hr1 ltac:(lia) ltac:(lia)) as [(s' & F' & r & E' & Htk)|(Hall1 & _)].
    + exists s', F', r. split; [done|]. destruct Htk as [T1 T0 T2 T3 T4 T5 T6]. assert (0 <= request nunits) by (unfold request; bsplit; lia).
      split; try done; [lia|hlia|]. intros z Hz Hfz. destruct (Hfr z Hz Hfz) as [Hf1 Hsame].
      destruct (T6 z) as [Hf2 Hdis]; [eapply block_ok_mono; [|exact Hz]; hlia|done|]. split; [|done]. by eapply frame_trans.
    + specialize (Hall1 x Hx). lia.
  - left. split; [|done]. pose proof (morecore_fails s nunits fuel Hn Hg) as Em.
    assert (Eturn : malloc_turn fuel nunits (q, s.(freep)) s = URet (inr 0) s).
    { unfold malloc_turn. erewrite ubind_ret; [|reflexivity]. cbv beta. rewrite (proj2 (Z.leb_gt _ _)) by lia.
      erewrite ubind_ret; [|reflexivity]. cbv beta. rewrite Z.eqb_refl, (ubind_ret _ _ _ _ _ Em). done. }
    by rewrite (ubind_ret _ _ _ _ _ Eturn).
Qed.

(** ** The heap: free and allocated blocks *)

(** What an operation may do to the allocated blocks: nothing. *)
Definition same_blocks (s s' : heap) (A : list (Z * Z)) : Prop :=
  ∀ z, z ∈ A → ∀ x, z.1 <= x < z.1 + HEADER * z.2 → s'.(hm) x = s.(hm) x.

Lemma heap_block s F A z : heap_ok s F A → z ∈ F ++ A → block_ok s.(brk) z.
Proof. intros [_ _ Hb _ _ _ _] Hz. rewrite Forall_forall in Hb. by apply Hb. Qed.

Lemma disjoint_sym x y : disjoint_blocks x y → disjoint_blocks y x.
Proof. unfold disjoint_blocks. lia. Qed.

(** The allocated blocks survive what frames them. *)
Lemma heap_keep s F A s' F' : heap_ok s F A → ring s' F' → s.(brk) <= s'.(brk) → (∀ z, z ∈ A → frame s s' F' z) →
  heap_ok s' F' A ∧ same_blocks s s' A.
Proof.
  intros Hh Hr Hbrk Hfr. split; [|intros z Hz; apply (Hfr z Hz)]. destruct Hr as [Hc Hfp Hsp Hbl Hb]. split; [by right|done|..].
  - apply Forall_app. split; [done|]. apply Forall_forall. intros z Hz. eapply block_ok_mono; [done|]. eapply heap_block; [done|set_solver].
  - intros x y Hx Hy. by apply (Hfr y Hy).
  - apply Hh.
  - intros a n Hin. destruct (heap_block _ _ _ (a, n) Hh) as [Hn _ _ _]; [set_solver|]. rewrite (proj2 (Hfr _ Hin)) by hlia. by apply Hh.
  - done.
Qed.

Lemma heap_add s F A b : heap_ok s F A → s.(freep) ≠ 0 → (s.(hm) b.1).(hsize) = b.2 → block_ok s.(brk) b → free_of b F →
  (∀ z, z ∈ A → disjoint_blocks b z) → heap_ok s F (A ++ [b]).
Proof.
  intros [Hr Hsp Hbl Hd Ha Hs Hb] Hf Hm Hbb Hfb Hdb. split; try done.
  - destruct Hr as [(? & _)|?]; [done|by right].
  - rewrite app_assoc. apply Forall_app. split; [done|by apply Forall_singleton].
  - intros x y Hx Hy. apply elem_of_app in Hy as [Hy|Hy]; [by apply Hd|]. apply list_elem_of_singleton in Hy as ->. by apply Hfb.
  - intros i j x y Hi Hj Hij. apply lookup_app_Some in Hi as [Hi|[Hi Hi']]; apply lookup_app_Some in Hj as [Hj|[Hj Hj']]; [by eapply Ha|..];
      repeat match goal with H : [_] !! _ = Some _ |- _ => apply list_lookup_singleton_Some in H as [? <-] end.
    + apply disjoint_sym, Hdb. by eapply list_elem_of_lookup_2.
    + apply Hdb. by eapply list_elem_of_lookup_2.
    + lia.
  - intros a n Hx. apply elem_of_app in Hx as [Hx|Hx]; [by apply Hs|]. apply list_elem_of_singleton in Hx as <-. done.
Qed.

Lemma heap_drop s F A1 b A2 : heap_ok s F (A1 ++ b :: A2) → heap_ok s F (A1 ++ A2) ∧ (∀ z, z ∈ A1 ++ A2 → disjoint_blocks b z).
Proof.
  intros Hh. split.
  - destruct Hh as [Hr Hsp Hbl Hd Ha Hs Hb]. split; try done.
    + destruct Hr as [(? & ? & Hnil)|?]; [by destruct A1|by right].
    + rewrite !Forall_app, Forall_cons in Hbl. rewrite !Forall_app. tauto.
    + intros x y Hx Hy. apply Hd; [done|set_solver].
    + assert (Hshift : ∀ i x, (A1 ++ A2) !! i = Some x → (A1 ++ b :: A2) !! (if decide (i < length A1)%nat then i else S i) = Some x).
      { intros i x Hi. case_decide; [rewrite lookup_app_l in Hi |- * by done; done|]. rewrite lookup_app_r in Hi |- * by lia.
        by replace (S i - length A1)%nat with (S (i - length A1)) by lia. }
      intros i j x y Hi Hj Hij. eapply (Ha _ _ x y (Hshift _ _ Hi) (Hshift _ _ Hj)). repeat case_decide; lia.
    + intros a n Hin. apply Hs. set_solver.
  - intros z [Hz|Hz]%elem_of_app; apply list_elem_of_lookup in Hz as [i Hi].
    + eapply (ho_alloc _ _ _ Hh (length A1) i); [by apply list_lookup_middle|by apply lookup_app_l_Some|]. apply lookup_lt_Some in Hi. lia.
    + eapply (ho_alloc _ _ _ Hh (length A1) (length A1 + S i)%nat); [by apply list_lookup_middle| |lia].
      rewrite lookup_app_r by lia. by replace (length A1 + S i - length A1)%nat with (S i) by lia.
Qed.

Lemma heap_ring s F A : heap_ok s F A → s.(freep) = 0 ∧ F = [] ∧ A = [] ∨ ring s F ∧ s.(freep) ≠ 0.
Proof.
  intros [Hr Hsp Hbl _ _ _ Hb]. destruct Hr as [?|[? ?]]; [by left|]. apply Forall_app in Hbl as [? _].
  assert (Hr : ring s F) by done. right. split; [done|]. by eapply ring_freep.
Qed.

Lemma nunits_of_bounds nbytes : 0 <= nbytes <= 2 ^ 31 - 16 → 0 < nunits_of nbytes < 2 ^ 28 ∧ nbytes <= HEADER * (nunits_of nbytes - 1).
Proof. intros H. unfold nunits_of. rewrite u32_small by hlia. unfold HEADER in *. Z.to_euclidean_division_equations. hlia. Qed.

(** The first call sets up the list. *)
Lemma malloc_start s F A fuel nbytes : heap_ok s F A →
  ∃ s0, malloc fuel nbytes s = uwhile fuel (malloc_turn fuel (nunits_of nbytes)) (s0.(freep), (s0.(hm) s0.(freep)).(hptr)) s0 ∧
    ring s0 F ∧ s0.(brk) = s.(brk) ∧ same_blocks s s0 A.
Proof.
  intros Hh. unfold malloc. erewrite ubind_ret; [|reflexivity]. cbv beta. bsplit.
  - destruct (heap_ring _ _ _ Hh) as [(_ & -> & ->)|[_ ?]]; [|done]. pose proof (ho_brk _ _ _ Hh) as Hb.
    eexists. split; [erewrite ubind_ret; [|reflexivity]; reflexivity|]. cbn [set_hm set_freep hm freep brk]. split_and!; [|done|by intros ? ?%elem_of_nil].
    split; cbn [set_hm set_freep hm freep brk chain spaced]; try done; [|left]. split; [|done]. by rewrite !fn_lookup_insert.
  - destruct (heap_ring _ _ _ Hh) as [(? & _)|[? _]]; [done|]. by exists s.
Qed.

(** malloc() returns a block of its own, or 0 if no free block is large enough
    and the kernel refuses more memory. *)
Lemma malloc_ok s F A fuel nbytes : heap_ok s F A → 0 < nunits_of nbytes < 2 ^ 28 → (2 * length F + 5 < fuel)%nat →
  let n := nunits_of nbytes in
  ∃ s' F' r, malloc fuel nbytes s = URet r s' ∧ same_blocks s s' A ∧ (length F' <= S (length F))%nat ∧
    (r = 0 ∧ heap_ok s' F' A ∧ grow (s.(brk) + HEADER * request n) = false ∧ (∀ x, x ∈ F' → x.2 < n) ∨
     r ≠ 0 ∧ heap_ok s' F' (A ++ [(r - HEADER, n)])).
Proof.
  intros Hh Hn Hf n. destruct (malloc_start s F A fuel nbytes Hh) as (s0 & -> & Hr & Hb & Hsame). fold n in Hn |- *.
  assert (HA : ∀ z, z ∈ A → block_ok s0.(brk) z ∧ free_of z F).
  { intros z Hz. rewrite Hb. split; [eapply heap_block; [exact Hh|set_solver]|]. intros x Hx. by apply (ho_disjoint _ _ _ Hh). }
  destruct (malloc_ring s0 F n fuel Hr Hn Hf) as [(-> & Hg & Hsm)|(s' & F' & r & -> & [T1 T2 T3 T4 T5 T6 T7])].
  - destruct (heap_keep s F A s0 F Hh Hr) as [Hh' _]; [lia| |].
    { intros z Hz. split; [by apply HA|]. by apply Hsame. }
    exists s0, F, 0. split_and!; try done; [lia|]. left. rewrite <- Hb. done.
  - destruct (heap_keep s F A s' F' Hh T1) as [Hh' Hs']; [lia| |].
    { intros z Hz. eapply frame_trans; [by apply Hsame|]. by apply T7; apply HA. }
    exists s', F', (r + HEADER). split_and!; try done. right. replace (r + HEADER - HEADER) with r by lia.
    split; [destruct T5; hlia|]. apply heap_add; try done; [by eapply ring_freep|]. intros z Hz. by apply T7; apply HA.
Qed.

(** The size wraps: for 2^32-1 bytes malloc() hands out a block that is only a
    header. *)
Lemma malloc_overflow s F A fuel : heap_ok s F A → (2 * length F + 5 < fuel)%nat → grow (s.(brk) + HEADER * 4096) = true →
  ∃ s' F' r, malloc fuel (2 ^ 32 - 1) s = URet r s' ∧ r ≠ 0 ∧ heap_ok s' F' (A ++ [(r - HEADER, 1)]).
Proof.
  intros Hh Hf Hg. destruct (malloc_ok s F A fuel (2 ^ 32 - 1) Hh ltac:(done) Hf) as (s' & F' & r & E & _ & _ & [(_ & _ & Hg' & _)|[Hr Hh']]).
  - change (grow (s.(brk) + HEADER * 4096) = false) in Hg'. congruence.
  - by exists s', F', r.
Qed.

(** free() gives a block back. *)
Lemma free_ok s F A1 b A2 fuel : heap_ok s F (A1 ++ b :: A2) → (length F + 1 < fuel)%nat →
  ∃ s' F', free fuel (b.1 + HEADER) s = URet tt s' ∧ heap_ok s' F' (A1 ++ A2) ∧ s'.(brk) = s.(brk) ∧
    same_blocks s s' (A1 ++ A2) ∧ (length F' <= S (length F))%nat.
Proof.
  intros Hh Hf. destruct (heap_ring _ _ _ Hh) as [(_ & _ & Hnil)|[Hr _]]; [by destruct A1|].
  destruct (heap_drop _ _ _ _ _ Hh) as [Hh' Hd].
  destruct (free_ring s F b fuel Hr) as (s' & F' & E & Hr' & Hb & _ & Hlen & Hfr); [eapply heap_block; [exact Hh|set_solver]| | |done|].
  { intros x Hx. apply (ho_disjoint _ _ _ Hh); set_solver. }
  { destruct b as [a n]. apply (ho_sizes _ _ _ Hh). set_solver. }
  destruct (heap_keep _ _ _ s' F' Hh' Hr') as [H1 H2]; [lia| |].
  { intros z Hz. apply Hfr; [eapply heap_block; [exact Hh'|set_solver]|]. intros x [->|Hx]%elem_of_cons; [by apply Hd|]. by apply (ho_disjoint _ _ _ Hh'). }
  exists s', F'. done.
Qed.

(** ** A program that uses the heap *)

(** What a program does: it asks for memory, gives back the block it holds at
    an index, or writes the unit [k] of one. *)
Inductive use : Type :=
| Malloc (nbytes : Z)
| Free (i : nat)
| Write (i : nat) (k : Z) (v : header).

(** The heap, with the blocks that the program holds and what it has written
    in each. *)
Definition held : Type := heap * list (Z * Z * gmap Z header).

Definition do_use (fuel : nat) (u : use) (c : held) : option held :=
  let '(s, B) := c in
  match u with
  | Malloc nbytes =>
      match malloc fuel nbytes s with
      | URet r s' => Some (s', if r =? 0 then B else B ++ [(r - HEADER, nunits_of nbytes, ∅)])
      | _ => None
      end
  | Free i =>
      match B !! i with
      | Some (b, _) => match free fuel (b.1 + HEADER) s with URet _ s' => Some (s', delete i B) | _ => None end
      | None => Some c
      end
  | Write i k v =>
      match B !! i with
      | Some (b, w) =>
          if (0 <? k) && (k <? b.2)
          then Some (set_hm (λ m, <[b.1 + HEADER * k := v]> m) s, <[i := (b, <[k := v]> w)]> B)
          else Some c
      | None => Some c
      end
  end.

Fixpoint do_uses (fuel : nat) (us : list use) (c : held) : option held :=
  match us with
  | [] => Some c
  | u :: us' => match do_use fuel u c with Some c' => do_uses fuel us' c' | None => None end
  end.

Definition use_ok (u : use) : Prop := match u with Malloc nbytes => 0 <= nbytes <= 2 ^ 31 - 16 | _ => True end.

(** Every block holds what was written in it. *)
Definition holds (s : heap) (B : list (Z * Z * gmap Z header)) : Prop :=
  ∀ b w, (b, w) ∈ B → ∀ k v, w !! k = Some v → 0 < k < b.2 ∧ s.(hm) (b.1 + HEADER * k) = v.

Lemma holds_same s s' B : holds s B → same_blocks s s' B.*1 → holds s' B.
Proof.
  intros H Hs b w Hin k v Hk. destruct (H b w Hin k v Hk) as [Hr Hm]. split; [done|]. rewrite <- Hm. apply (Hs b); [|hlia].
  apply list_elem_of_fmap. by exists (b, w).
Qed.

(** The heap after [d] uses. *)
Definition served (d : nat) (c : held) : Prop :=
  ∃ F, heap_ok c.1 F c.2.*1 ∧ (length F <= d)%nat ∧ holds c.1 c.2.

Lemma use_malloc fuel d nbytes c : served d c → 0 <= nbytes <= 2 ^ 31 - 16 → (2 * d + 5 < fuel)%nat →
  ∃ c', do_use fuel (Malloc nbytes) c = Some c' ∧ served (S d) c'.
Proof.
  intros (F & Hh & Hl & Hd) Hn Hf. destruct c as [s B]. cbn [fst snd do_use] in *.
  destruct (malloc_ok s F B.*1 fuel nbytes Hh (proj1 (nunits_of_bounds _ Hn)) ltac:(lia)) as (s' & F' & r & -> & Hs & Hl' & Hres). eexists. split; [reflexivity|].
  pose proof (holds_same _ _ _ Hd Hs) as Hd'. exists F'. destruct Hres as [(-> & Hh' & _)|[Hr Hh']]; cbn [fst snd].
  - split_and!; [done|lia|done].
  - rewrite (proj2 (Z.eqb_neq _ _)) by done. rewrite fmap_app. split_and!; [done|lia|].
    intros b w [Hin|Hin]%elem_of_app; [by apply Hd'|]. apply list_elem_of_singleton in Hin as [= -> ->]. intros k v Hk. by rewrite lookup_empty in Hk.
Qed.

Lemma use_free fuel d i c : served d c → (2 * d + 5 < fuel)%nat → ∃ c', do_use fuel (Free i) c = Some c' ∧ served (S d) c'.
Proof.
  intros (F & Hh & Hl & Hd) Hf. destruct c as [s B]. cbn [fst snd do_use] in *. destruct (B !! i) as [[b w]|] eqn:Ei.
  - pose proof (take_drop_middle B i _ Ei) as EB. rewrite <- EB, fmap_app, fmap_cons in Hh. cbn [fst] in Hh.
    destruct (free_ok s F _ b _ fuel Hh ltac:(lia)) as (s' & F' & -> & Hh' & _ & Hs & Hl'). eexists. split; [reflexivity|].
    rewrite <- fmap_app in Hh', Hs. rewrite <- delete_take_drop in Hh', Hs. exists F'. split_and!; [done|cbn; lia|]. cbn [fst snd].
    apply (holds_same s); [|done]. intros b' w' Hin. apply Hd. rewrite delete_take_drop in Hin. rewrite <- EB. set_solver.
  - eexists. split; [reflexivity|]. exists F. split_and!; [done|lia|done].
Qed.

(** A write inside a block touches neither the list nor another block. *)
Lemma heap_write s F A i b k v : heap_ok s F A → A !! i = Some b → 0 < k < b.2 →
  let s' := set_hm (λ m, <[b.1 + HEADER * k := v]> m) s in
  heap_ok s' F A ∧ ∀ j z x, A !! j = Some z → j ≠ i → z.1 <= x < z.1 + HEADER * z.2 → s'.(hm) x = s.(hm) x.
Proof.
  intros Hh Hi Hk s'. assert (Hb := list_elem_of_lookup_2 _ _ _ Hi). assert (HB := λ z, heap_block _ _ _ z Hh).
  assert (Hne : ∀ x, x ≠ b.1 + HEADER * k → s'.(hm) x = s.(hm) x) by (intros x Hx; unfold s'; cbn [set_hm hm]; by rewrite fn_lookup_insert_ne).
  destruct (HB b ltac:(set_solver)) as [_ _ Hlow _].
  assert (Hoth : ∀ j z x, A !! j = Some z → j ≠ i → z.1 <= x < z.1 + HEADER * z.2 → s'.(hm) x = s.(hm) x).
  { intros j z x Hj Hji Hx. apply Hne. destruct (ho_alloc _ _ _ Hh j i z b Hj Hi Hji); hlia. }
  split; [|done]. destruct Hh as [Hr Hsp Hbl Hd Ha Hs Hbk]. split; try done.
  - destruct Hr as [?|[Hc ?]]; [by left|right]. split; [|done]. eapply hchain_frame; [|exact Hc]. intros a n [[= -> ->]|Han]%elem_of_cons; apply Hne; [hlia|].
    destruct (HB (a, n)) as [? _ _ _]; [set_solver|]. destruct (Hd (a, n) b Han Hb); hlia.
  - intros a n Hin. destruct (HB (a, n)) as [? _ _ _]; [set_solver|]. apply list_elem_of_lookup in Hin as [j Hj]. rewrite Hne.
    + apply Hs. by eapply list_elem_of_lookup_2.
    + destruct (decide (j = i)) as [->|Hji]; [rewrite Hi in Hj; injection Hj as ->; hlia|]. destruct (Ha j i (a, n) b Hj Hi Hji); hlia.
Qed.

Lemma use_write fuel d i k v c : served d c → ∃ c', do_use fuel (Write i k v) c = Some c' ∧ served (S d) c'.
Proof.
  intros (F & Hh & Hl & Hd). destruct c as [s B]. cbn [fst snd do_use] in *.
  assert (Hsame : served (S d) (s, B)) by (exists F; split_and!; [done|cbn; lia|done]).
  destruct (B !! i) as [[b w]|] eqn:Ei; [|by eauto]. destruct ((0 <? k) && (k <? b.2)) eqn:Ek; [|by eauto].
  apply andb_true_iff in Ek as [Hk1%Z.ltb_lt Hk2%Z.ltb_lt].
  assert (Eb : B.*1 !! i = Some b) by (by rewrite list_lookup_fmap, Ei). eexists. split; [reflexivity|]. exists F. cbn [fst snd].
  destruct (heap_write s F B.*1 i b k v Hh Eb ltac:(lia)) as [Hh' Hoth]. rewrite list_fmap_insert, list_insert_id by done.
  split_and!; [done|lia|]. intros b' w' Hin k' v' Hk'. apply list_elem_of_lookup in Hin as [j Hj].
  destruct (decide (j = i)) as [->|Hji].
  - rewrite list_lookup_insert_eq in Hj by (by eapply lookup_lt_Some). injection Hj as <- <-. cbn [set_hm hm].
    destruct (decide (k' = k)) as [->|Hkk].
    + rewrite lookup_insert_eq in Hk'. injection Hk' as <-. by rewrite fn_lookup_insert.
    + rewrite lookup_insert_ne in Hk' by done. destruct (Hd b w (list_elem_of_lookup_2 _ _ _ Ei) k' v' Hk') as [? <-].
      split; [done|]. rewrite fn_lookup_insert_ne; [done|]. hlia.
  - rewrite list_lookup_insert_ne in Hj by done. destruct (Hd b' w' (list_elem_of_lookup_2 _ _ _ Hj) k' v' Hk') as [? <-].
    split; [done|]. apply (Hoth j b'); [by rewrite list_lookup_fmap, Hj|done|hlia].
Qed.

Lemma do_uses_ok fuel us d c : served d c → Forall use_ok us → (2 * (d + length us) + 5 < fuel)%nat →
  ∃ c', do_uses fuel us c = Some c' ∧ served (d + length us) c'.
Proof.
  revert d c. induction us as [|u us IH]; intros d c Hc Hus Hf; cbn [do_uses length] in *; [exists c; by rewrite Nat.add_0_r|].
  apply Forall_cons in Hus as [Hu Hus].
  assert (Hstep : ∃ c', do_use fuel u c = Some c' ∧ served (S d) c').
  { destruct u; [apply use_malloc|apply use_free|apply use_write]; done || lia. }
  destruct Hstep as (c1 & -> & Hc1). destruct (IH (S d) c1 Hc1 Hus ltac:(lia)) as (c' & E & Hs). exists c'. split; [done|].
  by replace (d + S (length us))%nat with (S d + length us)%nat by lia.
Qed.

(** C27: a program that calls malloc() and free() and writes in the blocks it
    holds, from a process without a heap: every call returns; the blocks it
    holds are inside the memory that sbrk() gave, no two of them and no free
    block have a byte in common; each still holds everything that was written
    in it; and the free list is in address order with every two neighbours
    joined. *)
Theorem malloc_free_safe (m : Z → header) (brk0 : Z) (us : list use) (fuel : nat) :
  brk0 `mod` HEADER = 0 → lo <= brk0 <= 2 ^ 31 → Forall use_ok us → (2 * length us + 5 < fuel)%nat →
  ∃ s B F, do_uses fuel us (mk_heap m 0 brk0, []) = Some (s, B) ∧ heap_ok s F B.*1 ∧ holds s B.
Proof.
  intros Hal Hb Hus Hf. destruct (do_uses_ok fuel us 0 (mk_heap m 0 brk0, [])) as ([s B] & E & F & Hh & _ & Hd); [|done|done|].
  - exists []. split_and!; [|done|by intros ? ? ?%elem_of_nil]. split; cbn; try done; [by left|by intros ? ? ?%elem_of_nil|by intros ? ? ?%elem_of_nil].
  - by exists s, B, F.
Qed.

End malloc.

Lemma malloc_free_safe_witness :
  let us := [Malloc 10; Malloc 50000; Write 0 1 (mk_header 7 9); Free 1; Malloc 3; Free 0] in
  ∃ s B F, do_uses 256 (λ x, x <=? 2 ^ 31) 20 us (mk_heap (λ _, mk_header 0 0) 0 12288, []) = Some (s, B) ∧ heap_ok 256 4096 s F B.*1 ∧ holds s B.
Proof.
  refine (malloc_free_safe 256 (λ x, x <=? 2 ^ 31) 4096 _ _ _ (λ _, mk_header 0 0) 12288 _ 20 _ _ _ _).
  - lia.
  - unfold HEADER. lia.
  - intros x. apply Z.leb_le.
  - reflexivity.
  - lia.
  - repeat (apply Forall_cons; split); try apply Forall_nil; cbn [use_ok]; try exact I; lia.
  - cbn [length]. lia.
Defined.
