(* ===== verification/Sh.v ===== *)
(** * sh.c: the shell

    The shell reads a line, parses it and runs it in a child. The parser works
    on positions in the line [buf], the characters before the NUL: *s is
    [char s], 0 at the end [es]. Its functions pass the position *ps and return
    it; panic() ends the process. A command holds the strings of the line as
    pairs of positions (argv and eargv, file and efile) until nulterminate()
    cuts the line, and then the C strings that start there. A process sees
    fork() return 0 or a pid; exec() does not come back if it succeeds. *)
From S2P Require Import Prelude.
From S2P Require Import Cprintf.
From S2P Require Import Ulib.

#[local] Arguments chr : simpl never.

(** The system calls of the shell, and malloc() of umalloc.c (0 when there is
    no memory). *)
Class ShSys (W : Type) : Type := {
  sys_fork : W → Z * W;
  sys_wait : W → Z * W;
  sys_exec : list Z → list (list Z) → W → bool * W;
  sys_pipe : W → Z * (Z * Z) * W;
  sys_dup : Z → W → Z * W;
  sys_chdir : list Z → W → Z * W;
  user_malloc : Z → W → Z * W;
}.

Definition MAXARGS : Z := 10.
Definition O_WRONLY : Z := 1.
Definition O_RDWR : Z := 2.
Definition O_CREATE : Z := 512.

(** struct cmd and its five kinds. *)
Inductive cmd (T : Type) : Type :=
| EXEC (argv : list T)
| REDIR (c : cmd T) (file : T) (mode fd : Z)
| PIPE (l r : cmd T)
| LIST (l r : cmd T)
| BACK (c : cmd T).
Arguments EXEC {T} argv.
Arguments REDIR {T} c file mode fd.
Arguments PIPE {T} l r.
Arguments LIST {T} l r.
Arguments BACK {T} c.

(** The strings of a command. *)
Fixpoint cmd_map {S T} (f : S → T) (c : cmd S) : cmd T :=
  match c with
  | EXEC argv => EXEC (f <$> argv)
  | REDIR c file mode fd => REDIR (cmd_map f c) (f file) mode fd
  | PIPE l r => PIPE (cmd_map f l) (cmd_map f r)
  | LIST l r => LIST (cmd_map f l) (cmd_map f r)
  | BACK c => BACK (cmd_map f c)
  end.

Definition span : Type := nat * nat.

(** " \t\r\n\v" *)
Definition whitespace : list Z := [32; 9; 13; NL; 11].
Definition symbols : list Z := codes "<|>&;()".

Definition among (l : list Z) (c : Z) : bool := match strchr l c with Some _ => true | None => false end.

Section shell.
Context {W : Type} `{Sys W} `{ShSys W}.

Definition panic {A} (s : string) : U W A :=
  printf 2 ("%s" +:+ nl) [AStr (codes s)];;
  uexit.

Definition fork1 : U W Z :=
  pid ← call sys_fork;
  if pid =? -1 then panic "fork" else mret pid.

(** ** Parsing *)

Section parser.
Context (buf : list Z).

Definition es : nat := length buf.
Definition char (s : nat) : Z := nth s buf 0.

(** while(s < es && p( *s )) s++ *)
Fixpoint skip_loop (p : Z → bool) (n s : nat) : nat :=
  match n with
  | O => s
  | S n' => if (s <? es)%nat && p (char s) then skip_loop p n' (S s) else s
  end.
Definition skip (p : Z → bool) (s : nat) : nat := skip_loop p (es - s) s.

(** The token, where it starts and ends, and the position after it. *)
Definition gettoken (s : nat) : Z * nat * nat * nat :=
  let s := skip (among whitespace) s in
  let q := s in
  let c := char s in
  let '(ret, s) :=
    if c =? 0 then (c, s)
    else if among (codes "|();&<") c then (c, S s)
    else if c =? chr ">" then
      if char (S s) =? chr ">" then (chr "+", S (S s)) else (c, S s)
    else (chr "a", skip (λ c, negb (among whitespace c) && negb (among symbols c)) s) in
  let eq := s in
  (ret, q, eq, skip (among whitespace) s).

Definition peek (s : nat) (toks : list Z) : nat * bool :=
  let s := skip (among whitespace) s in
  (s, negb (char s =? 0) && among toks (char s)).

(** The constructors: malloc() and memset() of the structure; a null pointer
    is not checked for. *)
Definition alloc (n : Z) : U W unit :=
  p ← call (user_malloc n);
  if p =? 0 then (λ w, UUndef w) : U W unit else mret tt.

Definition execcmd : U W (cmd span) := alloc 84;; mret (EXEC []).
Definition redircmd (c : cmd span) (file : span) (mode fd : Z) : U W (cmd span) := alloc 24;; mret (REDIR c file mode fd).
Definition pipecmd (l r : cmd span) : U W (cmd span) := alloc 12;; mret (PIPE l r).
Definition listcmd (l r : cmd span) : U W (cmd span) := alloc 12;; mret (LIST l r).
Definition backcmd (c : cmd span) : U W (cmd span) := alloc 8;; mret (BACK c).

Definition redir_turn (v : cmd span * nat) : U W ((cmd span * nat) + (cmd span * nat)) :=
  let '(c, s) := v in
  let '(s, b) := peek s (codes "<>") in
  if negb b then mret (inr (c, s)) else
  let '(tok, _, _, s) := gettoken s in
  let '(tok2, q, eq, s) := gettoken s in
  if negb (tok2 =? chr "a") then panic "missing file for redirection" else
  if tok =? chr "<" then c ← redircmd c (q, eq) O_RDONLY 0; mret (inl (c, s))
  else if tok =? chr ">" then c ← redircmd c (q, eq) (Z.lor O_WRONLY O_CREATE) 1; mret (inl (c, s))
  else if tok =? chr "+" then c ← redircmd c (q, eq) (Z.lor O_WRONLY O_CREATE) 1; mret (inl (c, s))
  else mret (inl (c, s)).

Definition parseredirs (c : cmd span) (s : nat) : U W (cmd span * nat) :=
  uwhile (S (es - s)) redir_turn (c, s).

(** cmd->argv[argc] = q; cmd->eargv[argc] = eq, where cmd is the struct
    execcmd under the redirections of [c]. *)
Fixpoint put_arg (a : span) (c : cmd span) : cmd span :=
  match c with
  | EXEC argv => EXEC (argv ++ [a])
  | REDIR c file mode fd => REDIR (put_arg a c) file mode fd
  | c => c
  end.

Definition arg_turn (v : cmd span * Z * nat) : U W ((cmd span * Z * nat) + (cmd span * nat)) :=
  let '(ret, argc, s) := v in
  let '(s, b) := peek s (codes "|)&;") in
  if b then mret (inr (ret, s)) else
  let '(tok, q, eq, s) := gettoken s in
  if tok =? 0 then mret (inr (ret, s)) else
  if negb (tok =? chr "a") then panic "syntax" else
  let ret := put_arg (q, eq) ret in
  let argc := argc + 1 in
  if MAXARGS <=? argc then panic "too many args" else
  '(ret, s) ← parseredirs ret s;
  mret (inl (ret, argc, s)).

Definition back_turn (v : cmd span * nat) : U W ((cmd span * nat) + (cmd span * nat)) :=
  let '(c, s) := v in
  let '(s, b) := peek s (codes "&") in
  if negb b then mret (inr (c, s)) else
  let '(_, _, _, s) := gettoken s in
  c ← backcmd c;
  mret (inl (c, s)).

Fixpoint parseline (fuel : nat) (s : nat) {struct fuel} : U W (cmd span * nat) :=
  match fuel with
  | O => λ w, UFuel w
  | S f =>
      '(c, s) ← parsepipe f s;
      '(c, s) ← uwhile (S (es - s)) back_turn (c, s);
      let '(s, b) := peek s (codes ";") in
      if b then
        let '(_, _, _, s) := gettoken s in
        '(r, s) ← parseline f s;
        c ← listcmd c r;
        mret (c, s)
      else mret (c, s)
  end
with parsepipe (fuel : nat) (s : nat) {struct fuel} : U W (cmd span * nat) :=
  match fuel with
  | O => λ w, UFuel w
  | S f =>
      '(c, s) ← parseexec f s;
      let '(s, b) := peek s (codes "|") in
      if b then
        let '(_, _, _, s) := gettoken s in
        '(r, s) ← parsepipe f s;
        c ← pipecmd c r;
        mret (c, s)
      else mret (c, s)
  end
with parseblock (fuel : nat) (s : nat) {struct fuel} : U W (cmd span * nat) :=
  match fuel with
  | O => λ w, UFuel w
  | S f =>
      let '(s, b) := peek s (codes "(") in
      if negb b then panic "parseblock" else
      let '(_, _, _, s) := gettoken s in
      '(c, s) ← parseline f s;
      let '(s, b) := peek s (codes ")") in
      if negb b then panic "syntax - missing )" else
      let '(_, _, _, s) := gettoken s in
      parseredirs c s
  end
with parseexec (fuel : nat) (s : nat) {struct fuel} : U W (cmd span * nat) :=
  match fuel with
  | O => λ w, UFuel w
  | S f =>
      let '(s, b) := peek s (codes "(") in
      if b then parseblock f s else
      ret ← execcmd;
      '(ret, s) ← parseredirs ret s;
      uwhile (S (es - s)) arg_turn (ret, 0, s)
  end.

(** Each call consumes a character or goes one level down the grammar. *)
Definition parse_fuel : nat := 4 * es + 4.

(** *eargv[i] = 0 for every string: the line is cut at the end of each. *)
Fixpoint nulterminate (c : cmd span) (l : list Z) : list Z :=
  match c with
  | EXEC argv => foldl (λ l a, <[a.2 := 0]> l) l argv
  | REDIR c file _ _ => <[file.2 := 0]> (nulterminate c l)
  | PIPE a b | LIST a b => nulterminate b (nulterminate a l)
  | BACK c => nulterminate c l
  end.

(** The command and the line that was cut. *)
Definition parsecmd : U W (cmd span * list Z) :=
  '(c, s) ← parseline parse_fuel 0;
  let '(s, _) := peek s [] in
  if negb (s =? es)%nat then
    printf 2 ("leftovers: %s" +:+ nl) [AStr (drop s buf)];;
    panic "syntax"
  else
  mret (c, nulterminate c buf).

End parser.

(** The C string at a position of the line. *)
Definition cstr (l : list Z) (a : span) : list Z := cstr_of (drop a.1 l).

(** ** Running *)

(** exec() comes back only if it fails. *)
Definition exec (path : list Z) (argv : list (list Z)) : U W Z := λ w,
  let '(ok, w') := sys_exec path argv w in if ok then UExit w' else URet (-1) w'.

Fixpoint runcmd (c : cmd (list Z)) : U W unit :=
  match c with
  | EXEC argv =>
      match argv with
      | [] => uexit
      | a0 :: _ =>
          exec a0 argv;;
          printf 2 ("exec %s failed" +:+ nl) [AStr a0];;
          uexit
      end
  | REDIR c file mode fd =>
      call (sys_close fd);;
      r ← call (sys_open file mode);
      if r <? 0 then
        printf 2 ("open %s failed" +:+ nl) [AStr file];;
        uexit
      else
      runcmd c;;
      uexit
  | LIST l r =>
      pid ← fork1;
      (if pid =? 0 then runcmd l else mret tt);;
      call sys_wait;;
      runcmd r;;
      uexit
  | PIPE l r =>
      '(e, p) ← call sys_pipe;
      let '(p0, p1) := p in
      if e <? 0 then panic "pipe" else
      pid ← fork1;
      (if pid =? 0 then
         call (sys_close 1);;
         call (sys_dup p1);;
         call (sys_close p0);;
         call (sys_close p1);;
         runcmd l
       else mret tt);;
      pid ← fork1;
      (if pid =? 0 then
         call (sys_close 0);;
         call (sys_dup p0);;
         call (sys_close p0);;
         call (sys_close p1);;
         runcmd r
       else mret tt);;
      call (sys_close p0);;
      call (sys_close p1);;
      call sys_wait;;
      call sys_wait;;
      uexit
  | BACK c =>
      pid ← fork1;
      (if pid =? 0 then runcmd c else mret tt);;
      uexit
  end.

(** The line without its NUL; -1 at the end of the input. *)
Definition getcmd (nbuf : Z) : U W (Z * list Z) :=
  printf 2 "$ " [];;
  buf ← gets nbuf;
  if nth 0 buf 0 =? 0 then mret (-1, buf) else mret (0, buf).

(** while((fd = open("console", O_RDWR)) >= 0) *)
Definition console_turn (_ : unit) : U W (unit + unit) :=
  fd ← call (sys_open (codes "console") O_RDWR);
  if negb (0 <=? fd) then mret (inr tt) else
  if 3 <=? fd then
    call (sys_close fd);;
    mret (inr tt)
  else mret (inl tt).

Definition main_turn (_ : unit) : U W (unit + unit) :=
  '(r, buf) ← getcmd 100;
  if negb (0 <=? r) then mret (inr tt) else
  if (nth 0 buf 0 =? chr "c") && (nth 1 buf 0 =? chr "d") && (nth 2 buf 0 =? chr " ") then
    let line := cstr_of buf in
    let dir := drop 3 (take (length line - 1) line) in
    r ← call (sys_chdir dir);
    (if r <? 0 then printf 2 ("cannot cd %s" +:+ nl) [AStr dir] else mret tt);;
    mret (inl tt)
  else
  pid ← fork1;
  (if pid =? 0 then
     '(c, l) ← parsecmd (cstr_of buf);
     runcmd (cmd_map (cstr l) c)
   else mret tt);;
  call sys_wait;;
  mret (inl tt).

Definition main (fuel : nat) : U W unit :=
  uwhile fuel console_turn tt;;
  uwhile fuel main_turn tt;;
  uexit.

End shell.
