(* ===== verification/ShParse.v ===== *)
(** * The parser of the shell

    For every line the parser ends, in a command whose strings are words of
    the line or in panic(); and it reads back every command that [show]
    prints. *)
From S2P Require Import Prelude.
From S2P Require Import Cprintf.
From S2P Require Import Ulib.
From S2P Require Import Sh.

#[local] Arguments chr : simpl never.
#[local] Arguments codes : simpl never.

(** A character of a word. *)
Definition wordc (c : Z) : bool := negb (among whitespace c) && negb (among symbols c).

(** ** Triples for the programs *)

Section triples.
Context {W : Type}.

(** [m] returns a value with [Q], or the process exits. *)
Definition ends {A} (Q : A → Prop) (m : U W A) : Prop :=
  ∀ w, match m w with URet a _ => Q a | UExit _ => True | _ => False end.

Lemma ends_ret {A} (Q : A → Prop) a : Q a → ends Q (mret a).
Proof. intros HQ w. done. Qed.

Lemma ends_bind {A B} (R : A → Prop) (Q : B → Prop) (m : U W A) f : ends R m → (∀ a, R a → ends Q (f a)) → ends Q (m ≫= f).
Proof.
  intros Hm Hf w. unfold mbind, U_bind. specialize (Hm w). destruct (m w) as [a w'|w'|w'|w']; try done. by apply Hf.
Qed.

Lemma ends_exit {A} (Q : A → Prop) : ends Q uexit.
Proof. intros w. done. Qed.

Lemma ends_call {A} (f : W → A * W) : ends (λ _, True) (call f).
Proof. intros w. unfold call. by destruct (f w). Qed.

Lemma ends_mono {A} (Q Q' : A → Prop) m : (∀ a, Q a → Q' a) → ends Q m → ends Q' m.
Proof. intros HQ Hm w. specialize (Hm w). destruct (m w); auto. Qed.

(** A loop that keeps [I] and decreases a measure. *)
Lemma ends_while {L R} (I : L → Prop) (mu : L → nat) (Q : R → Prop) fuel body l :
  I l → (mu l < fuel)%nat →
  (∀ l, I l → ends (λ r, match r with inl l' => I l' ∧ (mu l' < mu l)%nat | inr v => Q v end) (body l)) →
  ends Q (uwhile fuel body l).
Proof.
  intros Hl Hf Hb. revert l Hl Hf. induction fuel as [|fuel IH]; intros l Hl Hf; [lia|]. cbn [uwhile].
  eapply ends_bind; [by apply Hb|]. intros [l'|v]; [|apply ends_ret]. intros [HI Hmu]. apply IH; [done|lia].
Qed.

Context `{Sys W}.

Lemma putc_ends fd c : ends (λ _, True) (putc fd c).
Proof. eapply ends_bind; [apply ends_call|]. intros. by apply ends_ret. Qed.

Lemma putcs_ends fd l : ends (λ _, True) (uforeach l (putc fd)).
Proof. induction l as [|c l IH]; [by apply ends_ret|]. eapply ends_bind; [apply putc_ends|done]. Qed.

(** printf() with the arguments that its format asks for. *)
Lemma printf_ends fd fmt args : is_Some (spell (codes fmt) false args) → ends (λ _, True) (printf fd fmt args).
Proof.
  unfold printf. generalize (codes fmt) false. clear fmt. intros fmt. revert args.
  induction fmt as [|c fmt IH]; intros ap state Hs; cbn [printf_loop spell] in *; [by apply ends_ret|].
  assert (Hpre : ∀ (m : U W unit) a b ap', ends (λ _, True) m → is_Some ((a ++.) <$> spell fmt b ap') → ends (λ _, True) (m;; printf_loop fd fmt b ap')).
  { intros m a b ap' Hm Hs'. eapply ends_bind; [exact Hm|]. intros. apply IH. by apply fmap_is_Some in Hs'. }
  destruct state; cbn [negb] in *.
  - repeat match goal with |- ends _ (if ?b then _ else _) => destruct b end.
    + destruct ap as [|[] ap]; try (by destruct Hs). eapply Hpre; [apply putcs_ends|exact Hs].
    + destruct ap as [|[] ap]; try (by destruct Hs). eapply Hpre; [apply putcs_ends|exact Hs].
    + destruct ap as [|[] ap]; try (by destruct Hs); (eapply Hpre; [apply putcs_ends|exact Hs]).
    + destruct ap as [|[] ap]; try (by destruct Hs). eapply (Hpre _ [z]); [apply putc_ends|exact Hs].
    + eapply (Hpre _ [c]); [apply putc_ends|exact Hs].
    + eapply ends_bind; [apply putc_ends|]. intros _ _. eapply (Hpre _ [chr "%"; c]); [apply putc_ends|exact Hs].
  - destruct (c =? chr "%"); [by apply IH|]. eapply (Hpre _ [c]); [apply putc_ends|exact Hs].
Qed.

Lemma panic_ends {A} (Q : A → Prop) s : ends Q (panic s).
Proof. eapply ends_bind; [apply printf_ends; eexists; reflexivity|]. intros. apply ends_exit. Qed.

Context `{ShSys W}.

(** The world after calls of malloc(). *)
Inductive mallocs : W → W → Prop :=
| mallocs_none w : mallocs w w
| mallocs_one n w w' : mallocs (user_malloc n w).2 w' → mallocs w w'.

Lemma mallocs_trans w1 w2 w3 : mallocs w1 w2 → mallocs w2 w3 → mallocs w1 w3.
Proof. induction 1 as [|n w w' _ IH]; intros H3; [done|]. apply (mallocs_one n). by apply IH. Qed.

(** [m] returns a value with [Q], and does nothing to the world but allocate. *)
Definition gives {A} (Q : A → Prop) (m : U W A) : Prop := ∀ w, ∃ a w', m w = URet a w' ∧ mallocs w w' ∧ Q a.

Lemma gives_ret {A} (Q : A → Prop) a : Q a → gives Q (mret a).
Proof. intros HQ w. exists a, w. split; [done|]. split; [constructor|done]. Qed.

Lemma gives_bind {A B} (R : A → Prop) (Q : B → Prop) (m : U W A) f : gives R m → (∀ a, R a → gives Q (f a)) → gives Q (m ≫= f).
Proof.
  intros Hm Hf w. destruct (Hm w) as (a & w1 & E & M1 & HR). destruct (Hf a HR w1) as (b & w2 & E2 & M2 & HQ).
  exists b, w2. rewrite (ubind_ret _ _ _ _ _ E). split; [done|]. split; [by eapply mallocs_trans|done].
Qed.

End triples.

(** ** Tokens *)

Lemma among_elem l c : among l c = true ↔ c ∈ l.
Proof.
  unfold among. induction l as [|a l IH]; cbn [strchr]; [split; [done|by intros ?%elem_of_nil]|]. rewrite elem_of_cons. bsplit.
  - split; auto.
  - destruct (strchr l c); cbn in *; rewrite <- IH; naive_solver.
Qed.

(** The tokens of a printed line, each followed by a space. *)
Inductive tok : Type := Word (w : list Z) | Sym (c : Z).

Definition text (t : tok) : list Z := match t with Word w => w | Sym c => [c] end ++ [32].

Fixpoint render (ts : list tok) : list Z := match ts with [] => [] | t :: ts' => text t ++ render ts' end.

Definition word_ok (w : list Z) : Prop := w ≠ [] ∧ Forall (λ c, wordc c = true ∧ c ≠ 0) w.

Definition tok_ok (t : tok) : Prop := match t with Word w => word_ok w | Sym c => c ∈ symbols end.

(** ** Printing a command *)

Definition paren (ts : list tok) : list tok := Sym (chr "(") :: ts ++ [Sym (chr ")")].

(** The tokens of a command where a line (0), the command of & or ; (1), a
    pipeline (2) or a single command (3) is expected. *)
Fixpoint toks (lv : nat) (t : cmd (list Z)) : list tok :=
  match t with
  | EXEC argv => Word <$> argv
  | REDIR c file _ fd => toks 3 c ++ [Sym (if fd =? 0 then chr "<" else chr ">"); Word file]
  | PIPE l r => let p := toks 3 l ++ Sym (chr "|") :: toks 2 r in if (lv <=? 2)%nat then p else paren p
  | BACK c => let p := toks 1 c ++ [Sym (chr "&")] in if (lv <=? 1)%nat then p else paren p
  | LIST l r => let p := toks 1 l ++ Sym (chr ";") :: toks 0 r in if (lv <=? 0)%nat then p else paren p
  end.

Definition show (t : cmd (list Z)) : list Z := render (toks 0 t).

(** The commands the parser can make. *)
Fixpoint printable (t : cmd (list Z)) : Prop :=
  match t with
  | EXEC argv => Forall word_ok argv ∧ Z.of_nat (length argv) < MAXARGS
  | REDIR c file mode fd =>
      printable c ∧ word_ok file ∧ (mode = O_RDONLY ∧ fd = 0 ∨ mode = Z.lor O_WRONLY O_CREATE ∧ fd = 1)
  | PIPE l r | LIST l r => printable l ∧ printable r
  | BACK c => printable c
  end.

Lemma paren_ok ts : Forall tok_ok ts → Forall tok_ok (paren ts).
Proof.
  intros Hts. apply Forall_cons. split; [by apply among_elem|]. apply Forall_app. split; [done|]. apply Forall_singleton. by apply among_elem.
Qed.

Lemma toks_ok lv t : printable t → Forall tok_ok (toks lv t).
Proof.
  assert (Hmid : ∀ a c b, Forall tok_ok a → among symbols c = true → Forall tok_ok b → Forall tok_ok (a ++ Sym c :: b)).
  { intros a c b Ha Hc Hb. apply Forall_app. split; [done|]. apply Forall_cons. split; [by apply among_elem|done]. }
  revert lv. induction t as [argv|c IH file mode fd|l IHl r IHr|l IHl r IHr|c IH]; intros lv Hp; cbn [toks printable] in *.
  - apply Forall_fmap. apply Hp.
  - apply Hmid; [apply IH, Hp|by destruct (fd =? 0)|]. apply Forall_singleton, Hp.
  - destruct Hp. case_match; [|apply paren_ok]; apply Hmid; auto.
  - destruct Hp. case_match; [|apply paren_ok]; apply Hmid; auto.
  - case_match; [|apply paren_ok]; apply Hmid; auto.
Qed.

(** Redirections put around a command, the inner ones first. *)
Definition redir : Type := list Z * Z * Z.

Definition wrap (t : cmd (list Z)) (rs : list redir) : cmd (list Z) := foldl (λ t '(file, mode, fd), REDIR t file mode fd) t rs.

Fixpoint rtoks (rs : list redir) : list tok :=
  match rs with
  | [] => []
  | (file, _, fd) :: rs' => Sym (if fd =? 0 then chr "<" else chr ">") :: Word file :: rtoks rs'
  end.

Definition redir_ok (r : redir) : Prop :=
  let '(_, mode, fd) := r in mode = O_RDONLY ∧ fd = 0 ∨ mode = Z.lor O_WRONLY O_CREATE ∧ fd = 1.

(** What may follow a command. *)
Definition closes (syms : string) (rest : list tok) : Prop :=
  match rest with [] => True | Sym c :: _ => c ∈ codes syms | Word _ :: _ => False end.

Lemma render_app a b : render (a ++ b) = render a ++ render b.
Proof. induction a as [|t a IH]; cbn [render app]; [done|]. by rewrite IH, app_assoc. Qed.

(** The text of a token does not start with white space. *)
Lemma render_head ts c l : Forall tok_ok ts → render ts = c :: l → among whitespace c = false.
Proof.
  intros Hok E. destruct ts as [|[w|x] ts]; [done|..]; apply Forall_cons in Hok as [Ht _]; cbn [tok_ok] in Ht.
  - destruct Ht as [Hne Hw]. destruct w as [|y w]; [done|]. injection E as <- _. apply Forall_cons in Hw as [[Hy _] _].
    unfold wordc in Hy. by destruct (among whitespace y).
  - injection E as <- _. revert Ht. unfold symbols. intros Ht. destruct (among whitespace x) eqn:Ex; [|done]. apply among_elem in Ex.
    unfold whitespace in Ex. exfalso. revert Ht Ex. clear. intros. set_solver.
Qed.

Section lexer.
Context (buf : list Z) (Hbuf : Forall (λ c, c ≠ 0) buf).

Lemma char_end s : char buf s = 0 ↔ (es buf <= s)%nat.
Proof.
  unfold char, es. split; intros Hs.
  - destruct (decide (length buf <= s)%nat) as [|Hlt]; [done|]. rewrite Forall_forall in Hbuf. exfalso.
    apply (Hbuf (nth s buf 0)); [|done]. apply list_elem_of_lookup. exists s. apply nth_error_lookup_2 || idtac.
    rewrite nth_lookup. destruct (lookup_lt_is_Some_2 buf s ltac:(lia)) as [x ->]. done.
  - by apply nth_overflow.
Qed.

Lemma skip_loop_spec p n s : (s <= es buf)%nat → (es buf - s <= n)%nat →
  let r := skip_loop buf p n s in
  (s <= r <= es buf)%nat ∧ (∀ i, (s <= i < r)%nat → p (char buf i) = true) ∧ ((r < es buf)%nat → p (char buf r) = false).
Proof.
  revert s. induction n as [|n IH]; intros s Hs Hn; cbn [skip_loop]; [repeat split; lia|].
  destruct (Nat.ltb_spec s (es buf)) as [Hlt|Hge]; cbn [andb]; [|repeat split; lia].
  destruct (p (char buf s)) eqn:Ep; [|repeat split; try lia; done].
  destruct (IH (S s) ltac:(lia) ltac:(lia)) as (H1 & H2 & H3). split_and!; [lia|lia| |done].
  intros i Hi. destruct (decide (i = s)) as [->|]; [done|]. apply H2. lia.
Qed.

Lemma skip_spec p s : (s <= es buf)%nat →
  let r := skip buf p s in
  (s <= r <= es buf)%nat ∧ (∀ i, (s <= i < r)%nat → p (char buf i) = true) ∧ ((r < es buf)%nat → p (char buf r) = false).
Proof. intros Hs. by apply skip_loop_spec. Qed.

(** A pair of positions around a word of the line. *)
Definition span_ok (a : span) : Prop :=
  (a.1 < a.2 <= es buf)%nat ∧ (∀ i, (a.1 <= i < a.2)%nat → wordc (char buf i) = true) ∧
  ((a.2 < es buf)%nat → wordc (char buf a.2) = false).

Lemma peek_spec s toks : (s <= es buf)%nat →
  let '(s', b) := peek buf s toks in
  (s <= s' <= es buf)%nat ∧ ((s' < es buf)%nat → among whitespace (char buf s') = false) ∧
  (b = true → (s' < es buf)%nat ∧ char buf s' ∈ toks).
Proof.
  intros Hs. unfold peek. destruct (skip_spec (among whitespace) s Hs) as (H1 & _ & H3). split_and!; try done; try lia.
  intros [Hz Hm]%andb_true_iff. split; [|by apply among_elem]. apply negb_true_iff, Z.eqb_neq in Hz. rewrite char_end in Hz. lia.
Qed.

Lemma gettoken_spec s : (s <= es buf)%nat →
  let '(ret, q, eq, s') := gettoken buf s in
  (s <= q <= eq)%nat ∧ (∀ i, (s <= i < q)%nat → among whitespace (char buf i) = true) ∧
  (eq <= s' <= es buf)%nat ∧ (ret = 0 → q = es buf) ∧ (ret ≠ 0 → (q < s')%nat) ∧ (ret = chr "a" → span_ok (q, eq)).
Proof.
  intros Hs. unfold gettoken. destruct (skip_spec (among whitespace) s Hs) as (Q1 & Q2 & Q3). set (q := skip buf (among whitespace) s) in *.
  assert (Hfin : ∀ e, (e <= es buf)%nat → (e <= skip buf (among whitespace) e <= es buf)%nat) by (intros e He; apply (skip_spec _ e He)).
  destruct (Z.eqb_spec (char buf q) 0) as [Hz|Hnz].
  { rewrite Hz. assert (q = es buf) by (apply char_end in Hz; lia). specialize (Hfin q ltac:(lia)). split_and!; try lia; done. }
  assert (Hq : (q < es buf)%nat) by (rewrite char_end in Hnz; lia). destruct (among (codes "|();&<") (char buf q)) eqn:Es1.
  { specialize (Hfin (S q) ltac:(lia)). split_and!; try lia; try done. intros E. rewrite E in Es1. done. }
  destruct (Z.eqb_spec (char buf q) (chr ">")) as [Hgt|Hngt].
  { destruct (Z.eqb_spec (char buf (S q)) (chr ">")) as [Hg2|_].
    - assert (S q < es buf)%nat by (assert (Hne : char buf (S q) ≠ 0) by (by rewrite Hg2); rewrite char_end in Hne; lia).
      specialize (Hfin (S (S q)) ltac:(lia)). split_and!; try lia; done.
    - specialize (Hfin (S q) ltac:(lia)). split_and!; try lia; [done|by rewrite Hgt..]. }
  destruct (skip_spec wordc q ltac:(lia)) as (E1 & E2 & E3). fold wordc. change (λ c, negb (among whitespace c) && negb (among symbols c)) with wordc.
  set (e := skip buf wordc q) in *. specialize (Hfin e ltac:(lia)).
  assert (Hw : wordc (char buf q) = true).
  { unfold wordc. rewrite Q3 by done. cbn [negb andb]. apply negb_true_iff. destruct (among symbols (char buf q)) eqn:Em; [|done].
    apply among_elem in Em. exfalso. assert (Hsub : char buf q ∈ codes "|();&<" ∨ char buf q = chr ">") by (revert Em; unfold symbols; clear; intros; set_solver).
    destruct Hsub as [Hin|]; [|done]. apply among_elem in Hin. congruence. }
  assert (q < e)%nat by (destruct (decide (q = e)) as [Eq|]; [rewrite <- Eq in E3; rewrite E3 in Hw by done; done|lia]).
  split_and!; try lia; [done|done|]. intros _. split_and!; cbn [fst snd]; [lia|lia|done|done].
Qed.

(** A token follows where peek() says so. *)
Lemma peek_gettoken s toks s1 : (s <= es buf)%nat → peek buf s toks = (s1, true) →
  let '(ret, q, eq, s') := gettoken buf s1 in (s < s' <= es buf)%nat.
Proof.
  intros Hs Hp. pose proof (peek_spec s toks Hs) as Hs1. rewrite Hp in Hs1. destruct Hs1 as (H1 & Hw & H2). destruct (H2 eq_refl) as [H3 _].
  pose proof (gettoken_spec s1 ltac:(lia)) as Hg. destruct (gettoken buf s1) as [[[ret q] e] s']. destruct Hg as (G1 & Gw & G2 & G3 & G4 & _).
  assert (q = s1) as ->. { destruct (decide (q = s1)) as [|Hne]; [done|]. specialize (Gw s1 ltac:(lia)). rewrite Hw in Gw by done. done. }
  assert (ret ≠ 0) as Hr by (intros E; specialize (G3 E); lia). specialize (G4 Hr). lia.
Qed.

(** ** The parser ends *)

(** What the parser makes: words of the line, no more arguments than argv[]
    holds, the two kinds of redirection. *)
Fixpoint wf (c : cmd span) : Prop :=
  match c with
  | EXEC argv => Forall span_ok argv ∧ Z.of_nat (length argv) < MAXARGS
  | REDIR c file mode fd => wf c ∧ span_ok file ∧ (mode = O_RDONLY ∧ fd = 0 ∨ mode = Z.lor O_WRONLY O_CREATE ∧ fd = 1)
  | PIPE l r | LIST l r => wf l ∧ wf r
  | BACK c => wf c
  end.

(** The number of arguments of the command under the redirections. *)
Fixpoint argc_of (c : cmd span) : option Z :=
  match c with
  | EXEC argv => Some (Z.of_nat (length argv))
  | REDIR c _ _ _ => argc_of c
  | _ => None
  end.

Lemma put_arg_wf a c n : wf c → span_ok a → argc_of c = Some n → n + 1 < MAXARGS → wf (put_arg a c) ∧ argc_of (put_arg a c) = Some (n + 1).
Proof.
  intros Hc Ha Hn Hlt. induction c as [argv|c IH file mode fd|l IHl r IHr|l IHl r IHr|c IH]; cbn [argc_of put_arg wf] in *; try done.
  - injection Hn as <-. rewrite length_app. cbn [length]. split_and!; [|lia|f_equal; lia]. apply Forall_app. split; [apply Hc|by apply Forall_singleton].
  - destruct Hc as (Hc & Hf & Hm). destruct (IH Hc Hn). done.
Qed.

Context {W : Type} `{Sys W} `{ShSys W} (Hmalloc : ∀ n (w : W), (user_malloc n w).1 ≠ 0).

Lemma alloc_ret n (w : W) : alloc n w = URet tt (user_malloc n w).2.
Proof.
  unfold alloc, mbind, U_bind, call. pose proof (Hmalloc n w) as Hn. destruct (user_malloc n w) as [p w']. cbn [fst] in Hn.
  by rewrite (proj2 (Z.eqb_neq _ _)) by done.
Qed.

(** A constructor returns the structure. *)
Lemma alloc_ends {A} (Q : A → Prop) n (a : A) : Q a → ends Q ((alloc n;; mret a) : U W A).
Proof. intros HQ w. by rewrite (ubind_ret _ _ _ _ _ (alloc_ret n w)). Qed.

(** A command parsed from [s] on. *)
Definition parsed (s : nat) (r : cmd span * nat) : Prop := (s <= r.2 <= es buf)%nat ∧ wf r.1.

Lemma parseredirs_ends c s n : wf c → (s <= es buf)%nat → (n = None ∨ argc_of c = n) →
  ends (λ r, parsed s r ∧ (n = None ∨ argc_of r.1 = n)) (parseredirs buf c s : U W _).
Proof.
  intros Hc Hs Hn. unfold parseredirs.
  apply (ends_while (λ v, wf v.1 ∧ (s <= v.2 <= es buf)%nat ∧ (n = None ∨ argc_of v.1 = n)) (λ v, (es buf - v.2)%nat)); [done|cbn; lia|].
  intros [c1 s1] (Hw & Hs1 & Hn1). cbn [fst snd] in *. unfold redir_turn. pose proof (peek_spec s1 (codes "<>") ltac:(lia)) as Hp.
  destruct (peek buf s1 (codes "<>")) as [s2 b] eqn:Ep. destruct Hp as (P1 & P2 & P3). destruct b; cbn [negb].
  2:{ apply ends_ret. split; [|done]. split; [cbn; lia|done]. }
  pose proof (peek_gettoken s1 _ s2 ltac:(lia) Ep) as Hg. destruct (gettoken buf s2) as [[[tok q0] e0] s3].
  pose proof (gettoken_spec s3 ltac:(lia)) as Hg2. destruct (gettoken buf s3) as [[[tok2 q] e] s4]. destruct Hg2 as (G1 & _ & G2 & _ & _ & G5).
  destruct (Z.eqb_spec tok2 (chr "a")) as [Ha|]; cbn [negb]; [|apply panic_ends]. specialize (G5 Ha).
  repeat match goal with |- ends _ (if ?b then _ else _) => destruct b end.
  1-3: eapply (ends_bind (λ c', wf c' ∧ (n = None ∨ argc_of c' = n))); [apply alloc_ends; cbn [wf argc_of]; split_and!; auto|];
       intros c' [Hw' Hn']; apply ends_ret; cbn [fst snd]; split_and!; done || lia.
  apply ends_ret. cbn [fst snd]. split_and!; done || lia.
Qed.

Lemma args_ends ret s : wf ret → (s <= es buf)%nat → argc_of ret = Some 0 →
  ends (parsed s) (uwhile (S (es buf - s)) (arg_turn buf) (ret, 0, s) : U W _).
Proof.
  intros Hr Hs Hn.
  apply (ends_while (λ v, wf v.1.1 ∧ (s <= v.2 <= es buf)%nat ∧ argc_of v.1.1 = Some v.1.2) (λ v, (es buf - v.2)%nat)); [done|cbn; lia|].
  intros [[c1 n] s1] (Hw & Hs1 & Hn1). cbn [fst snd] in *. unfold arg_turn. pose proof (peek_spec s1 (codes "|)&;") ltac:(lia)) as Hp.
  destruct (peek buf s1 (codes "|)&;")) as [s2 b]. destruct Hp as (P1 & _ & _). destruct b.
  { apply ends_ret. split; [cbn; lia|done]. }
  pose proof (gettoken_spec s2 ltac:(lia)) as Hg. destruct (gettoken buf s2) as [[[tok q] e] s3]. destruct Hg as (G1 & _ & G2 & _ & G4 & G5).
  destruct (Z.eqb_spec tok 0) as [|Hnz]; [apply ends_ret; split; [cbn; lia|done]|]. specialize (G4 Hnz).
  destruct (Z.eqb_spec tok (chr "a")) as [Ha|]; cbn [negb]; [|apply panic_ends].
  destruct (Z.leb_spec MAXARGS (n + 1)) as [|Hlt]; [apply panic_ends|].
  destruct (put_arg_wf (q, e) c1 n Hw (G5 Ha) Hn1 Hlt) as [Hw' Hn'].
  eapply ends_bind; [apply (parseredirs_ends _ s3 (Some (n + 1))); [done|lia|by right]|].
  intros [c2 s4] [[Hs4 Hw2] [|Hn2]]; [done|]. apply ends_ret. cbn [fst snd] in *. split_and!; done || lia.
Qed.

Lemma back_ends c s : wf c → (s <= es buf)%nat → ends (parsed s) (uwhile (S (es buf - s)) (back_turn buf) (c, s) : U W _).
Proof.
  intros Hc Hs. apply (ends_while (λ v, wf v.1 ∧ (s <= v.2 <= es buf)%nat) (λ v, (es buf - v.2)%nat)); [done|cbn; lia|].
  intros [c1 s1] (Hw & Hs1). cbn [fst snd] in *. unfold back_turn. pose proof (peek_spec s1 (codes "&") ltac:(lia)) as Hp.
  destruct (peek buf s1 (codes "&")) as [s2 b] eqn:Ep. destruct Hp as (P1 & _ & _). destruct b; cbn [negb].
  2:{ apply ends_ret. split; [cbn; lia|done]. }
  pose proof (peek_gettoken s1 _ s2 ltac:(lia) Ep) as Hg. destruct (gettoken buf s2) as [[[tok q0] e0] s3].
  eapply (ends_bind wf); [by apply alloc_ends|]. intros c' Hw'. apply ends_ret. cbn [fst snd]. split_and!; done || lia.
Qed.

(** Every function of the grammar, with the fuel that is enough for it. *)
Lemma parse_ends fuel : ∀ s, (s <= es buf)%nat →
  ((4 * (es buf - s) + 4 <= fuel)%nat → ends (parsed s) (parseline buf fuel s : U W _)) ∧
  ((4 * (es buf - s) + 3 <= fuel)%nat → ends (parsed s) (parsepipe buf fuel s : U W _)) ∧
  ((4 * (es buf - s) + 1 <= fuel)%nat → ends (parsed s) (parseblock buf fuel s : U W _)) ∧
  ((4 * (es buf - s) + 2 <= fuel)%nat → ends (parsed s) (parseexec buf fuel s : U W _)).
Proof.
  induction fuel as [|fuel IH]; intros s Hs; [split_and!; lia|]. split_and!; intros Hf; cbn [parseline parsepipe parseblock parseexec].
  - eapply ends_bind; [apply IH; lia|]. intros [c1 s1] [Hs1 Hw1]. cbn [fst snd] in *.
    eapply ends_bind; [apply back_ends; [done|lia]|]. intros [c2 s2] [Hs2 Hw2]. cbn [fst snd] in *.
    pose proof (peek_spec s2 (codes ";") ltac:(lia)) as Hp. destruct (peek buf s2 (codes ";")) as [s3 b] eqn:Ep. destruct Hp as (P1 & _ & _).
    destruct b; [|apply ends_ret; split; [cbn; lia|done]].
    pose proof (peek_gettoken s2 _ s3 ltac:(lia) Ep) as Hg. destruct (gettoken buf s3) as [[[tok q] e] s4].
    eapply ends_bind; [apply IH; lia|]. intros [c4 s5] [Hs5 Hw5]. cbn [fst snd] in *.
    eapply (ends_bind wf); [by apply alloc_ends|]. intros c5 Hc5. apply ends_ret. split; [cbn; lia|done].
  - eapply ends_bind; [apply IH; lia|]. intros [c2 s2] [Hs2 Hw2]. cbn [fst snd] in *.
    pose proof (peek_spec s2 (codes "|") ltac:(lia)) as Hp. destruct (peek buf s2 (codes "|")) as [s3 b] eqn:Ep. destruct Hp as (P1 & _ & _).
    destruct b; [|apply ends_ret; split; [cbn; lia|done]].
    pose proof (peek_gettoken s2 _ s3 ltac:(lia) Ep) as Hg. destruct (gettoken buf s3) as [[[tok q] e] s4].
    eapply ends_bind; [apply IH; lia|]. intros [c4 s5] [Hs5 Hw5]. cbn [fst snd] in *.
    eapply (ends_bind wf); [by apply alloc_ends|]. intros c5 Hc5. apply ends_ret. split; [cbn; lia|done].
  - destruct (peek buf s (codes "(")) as [s1 b] eqn:Ep. destruct b; cbn [negb]; [|apply panic_ends].
    pose proof (peek_gettoken s _ s1 Hs Ep) as Hg. destruct (gettoken buf s1) as [[[tok q] e] s2].
    eapply ends_bind; [apply IH; lia|]. intros [c3 s3] [Hs3 Hw3]. cbn [fst snd] in *.
    destruct (peek buf s3 (codes ")")) as [s4 b] eqn:Ep2. destruct b; cbn [negb]; [|apply panic_ends].
    pose proof (peek_gettoken s3 _ s4 ltac:(lia) Ep2) as Hg2. destruct (gettoken buf s4) as [[[tok2 q2] e2] s5].
    eapply ends_mono; [|apply (parseredirs_ends c3 s5 None); [done|lia|by left]]. intros [c6 s6] [[Hs6 Hw6] _]. split; [cbn in *; lia|done].
  - pose proof (peek_spec s (codes "(") Hs) as Hp. destruct (peek buf s (codes "(")) as [s1 b]. destruct Hp as (P1 & _ & _). destruct b.
    + eapply ends_mono; [|apply IH; lia]. intros [c2 s2] [Hs2 Hw2]. split; [cbn in *; lia|done].
    + eapply (ends_bind (λ c, wf c ∧ argc_of c = Some 0)); [apply alloc_ends; cbn [wf argc_of length]; split_and!; auto; apply Forall_nil_2 || done|].
      intros c [Hw Hn]. eapply ends_bind; [apply (parseredirs_ends c s1 (Some 0)); [done|lia|by right]|].
      intros [c2 s2] [[Hs2 Hw2] [|Hn2]]; [done|]. cbn [fst snd] in *.
      eapply ends_mono; [|apply args_ends; [done|lia|done]]. intros [c3 s3] [Hs3 Hw3]. split; [cbn in *; lia|done].
Qed.

(** ** Cutting the line *)

(** The words of a command. *)
Fixpoint spans (c : cmd span) : list span :=
  match c with
  | EXEC argv => argv
  | REDIR c file _ _ => spans c ++ [file]
  | PIPE l r | LIST l r => spans l ++ spans r
  | BACK c => spans c
  end.

Definition slice (a : span) : list Z := take (a.2 - a.1) (drop a.1 buf).

Lemma nulterminate_spans c l : nulterminate c l = foldl (λ l a, <[a.2 := 0]> l) l (spans c).
Proof.
  revert l. induction c as [argv|c IH file mode fd|a IHa b IHb|a IHa b IHb|c IH]; intros l; cbn [nulterminate spans]; rewrite ?foldl_app; [done|..].
  - by rewrite IH.
  - by rewrite IHa, IHb.
  - by rewrite IHa, IHb.
  - done.
Qed.

Lemma cut_length (L : list span) l : length (foldl (λ l a, <[a.2 := 0]> l) l L) = length l.
Proof. revert l. induction L as [|a L IH]; intros l; [done|]. cbn [foldl]. by rewrite IH, length_insert. Qed.

Lemma cut_lookup (L : list span) l i : (i < length l)%nat →
  foldl (λ l a, <[a.2 := 0]> l) l L !! i = if decide (i ∈ L.*2) then Some 0 else l !! i.
Proof.
  revert l. induction L as [|a L IH]; intros l Hi; [done|]. cbn [foldl]. rewrite IH by (by rewrite length_insert).
  destruct (decide (i = a.2)) as [->|Hne].
  - rewrite list_lookup_insert_eq by done. rewrite (decide_True (P := a.2 ∈ (a :: L).*2)) by (rewrite fmap_cons; left). by case_decide.
  - rewrite list_lookup_insert_ne by done. rewrite fmap_cons. repeat case_decide; try done; set_solver.
Qed.

Lemma wf_spans c : wf c → Forall span_ok (spans c).
Proof.
  induction c as [argv|c IH file mode fd|a IHa b IHb|a IHa b IHb|c IH]; cbn [wf spans]; intros Hw.
  - apply Hw.
  - apply Forall_app. split; [apply IH, Hw|apply Forall_singleton, Hw].
  - apply Forall_app. naive_solver.
  - apply Forall_app. naive_solver.
  - by apply IH.
Qed.

Lemma cstr_of_app l1 l2 : Forall (λ c, c ≠ 0) l1 → (∀ c, l2 !! 0%nat = Some c → c = 0) → cstr_of (l1 ++ l2) = l1.
Proof.
  intros H1 H2. induction l1 as [|c l1 IH]; cbn [app cstr_of].
  - destruct l2 as [|c l2]; [done|]. rewrite (H2 c eq_refl). done.
  - apply Forall_cons in H1 as [Hc H1]. rewrite (proj2 (Z.eqb_neq _ _)) by done. by rewrite IH.
Qed.

Lemma char_lookup i c : buf !! i = Some c → char buf i = c.
Proof. intros Hi. unfold char. rewrite nth_lookup, Hi. done. Qed.

(** In the line that was cut, each word is a C string: the cuts are never
    inside a word. *)
Lemma cut_cstr L a : Forall span_ok L → a ∈ L → cstr (foldl (λ l a, <[a.2 := 0]> l) buf L) a = slice a.
Proof.
  intros HL Ha. rewrite Forall_forall in HL. destruct (HL a Ha) as (Hlen & Hword & Hstop). unfold cstr. set (l := foldl _ _ _).
  assert (Hl : length l = es buf) by apply cut_length.
  rewrite <- (take_drop (a.2 - a.1) (drop a.1 l)). rewrite drop_drop. replace (a.1 + (a.2 - a.1))%nat with a.2 by lia.
  assert (Et : take (a.2 - a.1) (drop a.1 l) = slice a).
  { apply list_eq. intros i. unfold slice. destruct (decide (i < a.2 - a.1)%nat) as [Hi|Hi].
    - rewrite !lookup_take_lt by done. rewrite !lookup_drop. unfold l. rewrite cut_lookup by (fold (es buf); lia). rewrite decide_False; [done|].
      intros (b & Eb & Hb)%list_elem_of_fmap. destruct (HL b Hb) as (_ & _ & Hsb). rewrite <- Eb in Hsb.
      rewrite Hword in Hsb by lia. by discriminate Hsb; lia.
    - rewrite !lookup_ge_None_2; rewrite ?length_take, ?length_drop; [done|lia|lia]. }
  rewrite Et. apply cstr_of_app.
  - unfold slice. apply Forall_take, Forall_drop, Hbuf.
  - intros c Hc. rewrite lookup_drop, Nat.add_0_r in Hc. unfold l in Hc. assert (Ha2 := lookup_lt_Some _ _ _ Hc). rewrite cut_length in Ha2.
    rewrite cut_lookup in Hc by done. rewrite decide_True in Hc by (apply list_elem_of_fmap; by exists a). by injection Hc.
Qed.

Lemma cmd_map_ext {T} (f g : span → T) c : (∀ a, a ∈ spans c → f a = g a) → cmd_map f c = cmd_map g c.
Proof.
  induction c as [argv|c IH file mode fd|a IHa b IHb|a IHa b IHb|c IH]; cbn [spans cmd_map]; intros Hfg; f_equal; try (by apply Hfg; set_solver);
    try (by apply IH; intros; apply Hfg; set_solver); try (by apply IHa; intros; apply Hfg; set_solver); try (by apply IHb; intros; apply Hfg; set_solver).
  apply list_fmap_ext. intros i a Hi. apply Hfg. by eapply list_elem_of_lookup_2.
Qed.

Lemma nulterminate_cstr c : wf c → cmd_map (cstr (nulterminate c buf)) c = cmd_map slice c.
Proof. intros Hw. apply cmd_map_ext. intros a Ha. rewrite nulterminate_spans. apply cut_cstr; [by apply wf_spans|done]. Qed.

(** parsecmd() on any line. *)
Lemma parsecmd_ends : ends (λ r, wf r.1 ∧ cmd_map (cstr r.2) r.1 = cmd_map slice r.1) (parsecmd buf : U W _).
Proof.
  unfold parsecmd. eapply ends_bind; [apply parse_ends; [lia|unfold parse_fuel; lia]|]. intros [c s] [Hs Hw]. cbn [fst snd] in *.
  destruct (peek buf s []) as [s1 b]. destruct (s1 =? es buf)%nat; cbn [negb].
  - apply ends_ret. split; [done|]. by apply nulterminate_cstr.
  - eapply ends_bind; [apply printf_ends; eexists; reflexivity|]. intros. apply panic_ends.
Qed.

(** ** The tokens of a line *)

(** The line from [s] on is the text of the tokens [ts]. *)
Definition lies (s : nat) (ts : list tok) : Prop :=
  (s <= es buf)%nat ∧ drop s buf = render ts ∧ Forall tok_ok ts.

Lemma lies_length s ts : lies s ts → (es buf - s)%nat = length (render ts).
Proof. intros (_ & E & _). rewrite <- E, length_drop. done. Qed.

Lemma char_drop s c l : drop s buf = c :: l → char buf s = c ∧ (s < es buf)%nat ∧ drop (S s) buf = l.
Proof.
  intros E. assert (Hs : buf !! s = Some c) by (rewrite <- (Nat.add_0_r s), <- lookup_drop, E; done).
  split; [by apply char_lookup|]. split; [by eapply lookup_lt_Some|]. rewrite (drop_S _ _ _ Hs) in E. by injection E.
Qed.

Lemma skip_at p s l1 l2 : (s <= es buf)%nat → drop s buf = l1 ++ l2 → Forall (λ c, p c = true) l1 →
  (∀ c l, l2 = c :: l → p c = false) → skip buf p s = (s + length l1)%nat.
Proof.
  intros Hs E H1 H2. destruct (skip_spec p s Hs) as (R1 & R2 & R3). set (r := skip buf p s) in *.
  assert (Hc : ∀ i c, (l1 ++ l2) !! i = Some c → char buf (s + i) = c) by (intros i c Hi; apply char_lookup; by rewrite <- lookup_drop, E).
  assert (Hlen : (length l1 + length l2)%nat = (es buf - s)%nat) by (rewrite <- length_app, <- E, length_drop; done).
  destruct (decide (r < s + length l1)%nat) as [Hlt|]; [|destruct (decide (s + length l1 < r)%nat) as [Hgt|]; [|lia]]; exfalso.
  - destruct (lookup_lt_is_Some_2 l1 (r - s)%nat ltac:(lia)) as [c Hi]. specialize (Hc (r - s)%nat c). rewrite lookup_app_l in Hc by lia. specialize (Hc Hi).
    replace (s + (r - s))%nat with r in Hc by lia. rewrite Forall_forall in H1. specialize (H1 c (list_elem_of_lookup_2 _ _ _ Hi)).
    specialize (R3 ltac:(lia)). congruence.
  - destruct l2 as [|c l2]; [cbn [length] in Hlen; lia|]. specialize (H2 c l2 eq_refl). specialize (R2 (s + length l1)%nat ltac:(lia)).
    rewrite (Hc (length l1) c) in R2 by (by apply list_lookup_middle). congruence.
Qed.

(** No white space before a token. *)
Lemma lies_skip s ts : lies s ts → skip buf (among whitespace) s = s.
Proof.
  intros (Hs & E & Hok). rewrite (skip_at _ s [] (render ts)); [cbn; lia|done|done|by apply Forall_nil|].
  intros c l El. by apply (render_head ts c l).
Qed.

(** The space after a token. *)
Lemma lies_space s ts : (s <= es buf)%nat → drop s buf = 32 :: render ts → Forall tok_ok ts →
  skip buf (among whitespace) s = S s ∧ lies (S s) ts.
Proof.
  intros Hs E Hok. destruct (char_drop s _ _ E) as (_ & Hlt & E'). split; [|split_and!; [lia|done|done]].
  rewrite (skip_at _ s [32] (render ts)); [cbn; lia|done|done|by repeat constructor|]. intros c l El. by apply (render_head ts c l).
Qed.

Lemma peek_at s ts toks : lies s ts → (∀ c, c ∈ toks → among symbols c = true) →
  peek buf s toks = (s, match ts with Sym c :: _ => among toks c | _ => false end).
Proof.
  intros Hl Ht. unfold peek. rewrite (lies_skip s ts Hl). f_equal. destruct Hl as (Hs & E & Hok). destruct ts as [|t ts].
  - destruct (char_end s) as [_ Hz]. rewrite Hz; [done|]. apply (f_equal length) in E. rewrite length_drop in E. cbn in E. unfold es. lia.
  - apply Forall_cons in Hok as [Ht1 _]. destruct t as [w|c].
    + destruct Ht1 as [Hne Hw]. destruct w as [|c w]; [done|]. apply Forall_cons in Hw as [[Hc Hnz] _].
      destruct (char_drop s c _ E) as [-> _]. rewrite (proj2 (Z.eqb_neq _ _)) by done. cbn [negb andb].
      destruct (among toks c) eqn:Em; [|done]. apply among_elem in Em. unfold wordc in Hc. rewrite (Ht c Em) in Hc. by rewrite andb_false_r in Hc.
    + destruct (char_drop s c _ E) as [-> _]. cbn in Ht1. destruct (Z.eqb_spec c 0) as [->|]; [|done]. by apply among_elem in Ht1.
Qed.

Lemma gettoken_word s w ts : lies s (Word w :: ts) →
  gettoken buf s = (chr "a", s, s + length w, S (s + length w))%nat ∧ lies (S (s + length w)) ts ∧ slice (s, s + length w)%nat = w.
Proof.
  intros Hl. pose proof (lies_skip _ _ Hl) as Hsk. destruct Hl as (Hs & E & [[Hne Hw] Hok]%Forall_cons). cbn [render] in E. unfold text in E. rewrite <- app_assoc in E.
  assert (Hlen : (s + length w <= es buf)%nat) by (apply (f_equal length) in E; rewrite length_drop, length_app in E; unfold es in *; lia).
  assert (E2 : drop (s + length w) buf = 32 :: render ts) by (rewrite <- drop_drop, E, drop_app_length; done).
  destruct (lies_space _ _ Hlen E2 Hok) as [Hsp Hl2]. split_and!; [|done|].
  - unfold gettoken. rewrite Hsk. destruct w as [|c w]; [done|]. destruct (char_drop s c _ E) as [-> _]. pose proof Hw as [[Hc Hnz] _]%Forall_cons.
    rewrite (proj2 (Z.eqb_neq _ _)) by done.
    assert (Hsym : among symbols c = false) by (unfold wordc in Hc; destruct (among symbols c); [by rewrite andb_false_r in Hc|done]).
    destruct (among (codes "|();&<") c) eqn:E1.
    { apply among_elem in E1. assert (Hin : among symbols c = true) by (apply among_elem; revert E1; unfold symbols; clear; intros; set_solver). congruence. }
    destruct (Z.eqb_spec c (chr ">")) as [->|]; [done|]. fold wordc. change (λ c, negb (among whitespace c) && negb (among symbols c)) with wordc.
    rewrite (skip_at wordc s (c :: w) (32 :: render ts)); [by rewrite Hsp|done|done|eapply Forall_impl; [exact Hw|]; by intros x [? _]|].
    by intros x l [= <- <-].
  - unfold slice. cbn [fst snd]. rewrite E. replace (s + length w - s)%nat with (length w) by lia. by rewrite take_app_length.
Qed.

Lemma gettoken_sym s c ts : lies s (Sym c :: ts) → gettoken buf s = (c, s, S s, S (S s)) ∧ lies (S (S s)) ts.
Proof.
  intros Hl. pose proof (lies_skip _ _ Hl) as Hsk. destruct Hl as (Hs & E & [Hc Hok]%Forall_cons). cbn [render text app] in E.
  destruct (char_drop s _ _ E) as (Ec & Hlt & E2). destruct (lies_space (S s) ts ltac:(lia) E2 Hok) as [Hsp Hl2]. split; [|done].
  destruct (char_drop (S s) _ _ E2) as (Ec2 & _ & _). unfold gettoken. rewrite Hsk, Ec. cbn [tok_ok] in Hc.
  destruct (Z.eqb_spec c 0) as [->|]; [by apply among_elem in Hc|]. destruct (among (codes "|();&<") c) eqn:E1; [by rewrite Hsp|].
  destruct (Z.eqb_spec c (chr ">")) as [->|Hne]; [rewrite Ec2; change (32 =? chr ">") with false; cbv iota; by rewrite Hsp|]. exfalso.
  assert (Hin : c ∈ codes "|();&<" ∨ c = chr ">") by (revert Hc; unfold symbols; clear; intros; set_solver).
  destruct Hin as [Hin|]; [|done]. apply among_elem in Hin. congruence.
Qed.

Lemma gettoken_end s : lies s [] → gettoken buf s = (0, s, s, s).
Proof.
  intros Hl. pose proof (lies_skip _ _ Hl) as Hsk. pose proof (lies_length _ _ Hl) as Hlen. cbn in Hlen. destruct Hl as (Hs & _ & _).
  unfold gettoken. rewrite Hsk. rewrite (proj2 (char_end s)) by lia. cbn [Z.eqb]. by rewrite Hsk.
Qed.

(** ** Reading a printed command back *)

(** What parsing [t] gives before the tokens [rest]. *)
Definition reads (t : cmd (list Z)) (rest : list tok) (r : cmd span * nat) : Prop :=
  lies r.2 rest ∧ cmd_map slice r.1 = t.

Lemma alloc_gives {A} (Q : A → Prop) n (a : A) : Q a → gives Q ((alloc n;; mret a) : U W A).
Proof. intros HQ w. exists a, (user_malloc n w).2. rewrite (ubind_ret _ _ _ _ _ (alloc_ret n w)). split; [done|]. split; [apply (mallocs_one n); constructor|done]. Qed.

(** The symbols that peek() is asked for are symbols of the shell. *)
Ltac syms := intros ? ?%among_elem; repeat match goal with H : among (codes _) _ = true |- _ => apply among_elem in H end;
  apply among_elem; unfold symbols; set_solver.

(** No redirection follows. *)
Definition unredirected (rest : list tok) : Prop := match rest with Sym c :: _ => among (codes "<>") c = false | _ => True end.

Lemma closes_unredirected rest : closes "|)&;" rest → unredirected rest.
Proof.
  destruct rest as [|[w|x] rest]; [done|done|]. cbn [closes unredirected]. intros Hc. destruct (among (codes "<>") x) eqn:Ex; [|done].
  apply among_elem in Ex. exfalso. revert Hc Ex. clear. intros. set_solver.
Qed.

Lemma redirs_none fuel c s rest : lies s rest → unredirected rest → (0 < fuel)%nat →
  gives (λ r, r = (c, s)) (uwhile fuel (redir_turn buf) (c, s) : U W _).
Proof.
  intros Hl Hr Hf. destruct fuel as [|fuel]; [lia|]. cbn [uwhile]. eapply (gives_bind (λ v, v = inr (c, s))); [|intros v ->; by apply gives_ret].
  unfold redir_turn. rewrite (peek_at s rest) by (done || syms). destruct rest as [|[w|x] rest]; [by apply gives_ret|by apply gives_ret|].
  cbn [unredirected] in Hr. rewrite Hr. by apply gives_ret.
Qed.

Lemma redirs_at rs : ∀ fuel c s rest, lies s (rtoks rs ++ rest) → Forall redir_ok rs → unredirected rest → (length rs < fuel)%nat →
  gives (reads (wrap (cmd_map slice c) rs) rest) (uwhile fuel (redir_turn buf) (c, s) : U W _).
Proof.
  induction rs as [|[[file mode] fd] rs IH]; intros fuel c s rest Hl Hok Hrest Hf.
  - intros w. destruct (redirs_none fuel c s rest Hl Hrest ltac:(cbn in Hf; lia) w) as (r & w' & E & M & ->). by exists (c, s), w'.
  - destruct fuel as [|fuel]; [cbn [length] in Hf; lia|]. cbn [uwhile]. cbn [rtoks app] in Hl. apply Forall_cons in Hok as [Hr Hok].
    set (sym := if fd =? 0 then chr "<" else chr ">") in *. destruct (gettoken_sym s sym _ Hl) as [Eg1 Hl2].
    destruct (gettoken_word _ file _ Hl2) as (Eg2 & Hl3 & Hsl).
    set (s3 := S (S (S s) + length file)) in *. set (a := (S (S s), S (S s) + length file)%nat) in *.
    eapply (gives_bind (λ v, v = inl (REDIR c a mode fd, s3))).
    + unfold redir_turn. rewrite (peek_at s _ _ Hl) by syms. assert (Hsym : among (codes "<>") sym = true) by (unfold sym; by destruct (fd =? 0)).
      rewrite Hsym. cbn [negb]. rewrite Eg1, Eg2, Z.eqb_refl. cbn [negb].
      unfold sym. cbn [redir_ok] in Hr. destruct Hr as [[-> ->]|[-> ->]]; cbn [Z.eqb]; rewrite ?Z.eqb_refl; change (chr ">" =? chr "<") with false;
        (eapply (gives_bind (λ r, r = REDIR c a _ _)); [by apply alloc_gives|]; intros ? ->; by apply gives_ret).
    + intros v ->. cbn [length] in Hf. specialize (IH fuel (REDIR c a mode fd) s3 rest Hl3 Hok Hrest ltac:(lia)).
      cbn [wrap foldl cmd_map] in IH |- *. rewrite Hsl in IH. exact IH.
Qed.

Lemma rtoks_length rs : (length rs <= length (render (rtoks rs)))%nat.
Proof. induction rs as [|[[f m] d] rs IH]; cbn [rtoks render length text app]; rewrite ?length_app; cbn [length]; lia. Qed.

Lemma words_length l : (length l <= length (render (Word <$> l)))%nat.
Proof. induction l as [|v l IH]; [done|]. cbn [fmap list_fmap render length]. unfold text. rewrite !length_app. cbn [length]. lia. Qed.

Lemma parseredirs_at c s rs rest : lies s (rtoks rs ++ rest) → Forall redir_ok rs → unredirected rest →
  gives (reads (wrap (cmd_map slice c) rs) rest) (parseredirs buf c s : U W _).
Proof.
  intros Hl Hok Hr. unfold parseredirs. apply redirs_at; try done. rewrite (lies_length _ _ Hl), render_app, length_app.
  pose proof (rtoks_length rs). lia.
Qed.

(** The end of the arguments. *)
Lemma args_stop fuel c n s rest : lies s rest → closes "|)&;" rest → (0 < fuel)%nat →
  gives (reads (cmd_map slice c) rest) (uwhile fuel (arg_turn buf) (c, n, s) : U W _).
Proof.
  intros Hl Hc Hf. destruct fuel as [|fuel]; [lia|]. cbn [uwhile]. eapply (gives_bind (λ v, v = inr (c, s))); [|intros v ->; by apply gives_ret].
  unfold arg_turn. rewrite (peek_at s rest) by (done || syms). destruct rest as [|[w|x] rest]; [|done|].
  - rewrite (gettoken_end s Hl). by apply gives_ret.
  - cbn [closes] in Hc. apply among_elem in Hc. rewrite Hc. by apply gives_ret.
Qed.

Lemma args_at ws : ∀ fuel args s rs rest, ws ≠ [] → lies s ((Word <$> ws) ++ rtoks rs ++ rest) → Forall redir_ok rs → closes "|)&;" rest →
  Z.of_nat (length args + length ws) < MAXARGS → (length ws < fuel)%nat →
  gives (reads (wrap (EXEC ((slice <$> args) ++ ws)) rs) rest) (uwhile fuel (arg_turn buf) (EXEC args, Z.of_nat (length args), s) : U W _).
Proof.
  induction ws as [|w ws IH]; intros fuel args s rs rest Hne Hl Hok Hc Hn Hf; [done|]. destruct fuel as [|fuel]; [lia|]. cbn [uwhile length] in *.
  cbn [fmap list_fmap app] in Hl. destruct (gettoken_word s w _ Hl) as (Eg & Hl2 & Hsl). set (a := (s, s + length w)%nat) in *. set (s2 := S (s + length w)) in *.
  assert (Eturn : arg_turn buf (EXEC args, Z.of_nat (length args), s) =
    '(ret, s) ← parseredirs buf (EXEC (args ++ [a])) s2; mret (inl (ret, Z.of_nat (length args) + 1, s)) :> U W _).
  { unfold arg_turn. rewrite (peek_at s _ _ Hl) by syms. rewrite Eg. change (chr "a" =? 0) with false. rewrite Z.eqb_refl. cbn [negb].
    rewrite (proj2 (Z.leb_gt _ _)) by lia. done. }
  rewrite Eturn. replace (Z.of_nat (length args) + 1) with (Z.of_nat (length (args ++ [a]))) by (rewrite length_app; cbn [length]; lia).
  destruct ws as [|w2 ws].
  - eapply (gives_bind (λ v, ∃ c' s', v = inl (c', Z.of_nat (length (args ++ [a])), s') ∧ reads (wrap (EXEC ((slice <$> args) ++ [w])) rs) rest (c', s'))).
    + eapply gives_bind; [apply (parseredirs_at _ s2 rs rest Hl2 Hok); by apply closes_unredirected|]. intros [c' s'] Hr. apply gives_ret. exists c', s'.
      split; [done|]. cbn [cmd_map] in Hr. rewrite fmap_app in Hr. cbn [fmap list_fmap] in Hr. rewrite Hsl in Hr. done.
    + intros v (c' & s' & -> & Hl' & <-). apply args_stop; [done|done|cbn [length] in Hf; lia].
  - eapply (gives_bind (λ v, v = inl (EXEC (args ++ [a]), Z.of_nat (length (args ++ [a])), s2))).
    + eapply gives_bind; [eapply redirs_none; [exact Hl2|done|lia]|]. intros r ->. by apply gives_ret.
    + intros v ->. specialize (IH fuel (args ++ [a]) s2 rs rest ltac:(done) Hl2 Hok Hc). rewrite length_app, fmap_app, <- app_assoc in IH.
      cbn [fmap list_fmap app length] in IH. rewrite Hsl in IH. rewrite length_app. apply IH; cbn [length] in *; lia.
Qed.

(** No symbol of [syms'] follows what is closed by one of [syms]. *)
Lemma closes_not syms syms' rest : closes syms rest → forallb (λ c, negb (among (codes syms') c)) (codes syms) = true →
  match rest with Sym c :: _ => among (codes syms') c | _ => false end = false.
Proof.
  intros Hc Hd. destruct rest as [|[w|x] rest]; [done|done|]. cbn [closes] in Hc. rewrite forallb_forall in Hd.
  apply negb_true_iff, Hd. by apply list_elem_of_In.
Qed.

Lemma closes_mono syms syms' rest : closes syms rest → forallb (among (codes syms')) (codes syms) = true → closes syms' rest.
Proof.
  intros Hc Hd. destruct rest as [|[w|x] rest]; [done|done|]. cbn [closes] in *. rewrite forallb_forall in Hd.
  apply among_elem, Hd. by apply list_elem_of_In.
Qed.

(** A simple command. *)
Lemma exec_at argv rs s rest fuel : lies s ((Word <$> argv) ++ rtoks rs ++ rest) → Forall redir_ok rs → closes "|)&;" rest →
  Z.of_nat (length argv) < MAXARGS → (0 < fuel)%nat → gives (reads (wrap (EXEC argv) rs) rest) (parseexec buf fuel s : U W _).
Proof.
  intros Hl Hok Hc Hn Hf. destruct fuel as [|fuel]; [lia|]. cbn [parseexec]. rewrite (peek_at s _ _ Hl) by syms.
  assert (Hb : match (Word <$> argv) ++ rtoks rs ++ rest with Sym c :: _ => among (codes "(") c | _ => false end = false).
  { destruct argv as [|w argv]; [|done]. destruct rs as [|[[f m] d] rs]; [by eapply closes_not|]. cbn. by destruct (d =? 0). }
  rewrite Hb. eapply (gives_bind (λ c, c = EXEC [])); [by apply alloc_gives|]. intros c ->.
  destruct argv as [|w argv].
  - eapply gives_bind; [apply (parseredirs_at _ s rs rest Hl Hok); by apply closes_unredirected|]. intros [c1 s1] [Hl1 E1].
    cbn [fst cmd_map fmap list_fmap] in E1. rewrite <- E1. apply args_stop; [done|done|lia].
  - eapply gives_bind; [eapply redirs_none; [exact Hl|done|lia]|]. intros r ->. apply (args_at (w :: argv) _ []); try done.
    rewrite (lies_length _ _ Hl), render_app, length_app. apply Nat.lt_succ_r. etrans; [|apply Nat.le_add_r].
    apply words_length.
Qed.

(** What each function of the grammar reads; [n] times & and the redirections
    [rs] may follow. *)
Fixpoint backs (n : nat) (t : cmd (list Z)) : cmd (list Z) := match n with O => t | S n' => backs n' (BACK t) end.

Definition G3 (t : cmd (list Z)) : Prop := ∀ rs s rest fuel, lies s (toks 3 t ++ rtoks rs ++ rest) → Forall redir_ok rs → closes "|)&;" rest →
  (4 * (es buf - s) + 2 <= fuel)%nat → gives (reads (wrap t rs) rest) (parseexec buf fuel s : U W _).
Definition G2 (t : cmd (list Z)) : Prop := ∀ s rest fuel, lies s (toks 2 t ++ rest) → closes ")&;" rest →
  (4 * (es buf - s) + 3 <= fuel)%nat → gives (reads t rest) (parsepipe buf fuel s : U W _).
Definition G1 (t : cmd (list Z)) : Prop := ∀ n s rest fuel, lies s (toks 1 t ++ replicate n (Sym (chr "&")) ++ rest) → closes ");" rest →
  (4 * (es buf - s) + 3 <= fuel)%nat →
  gives (reads (backs n t) rest) ('(c, s1) ← parsepipe buf fuel s; uwhile (S (es buf - s1)) (back_turn buf) (c, s1) : U W _).
Definition G0 (t : cmd (list Z)) : Prop := ∀ s rest fuel, lies s (toks 0 t ++ rest) → closes ")" rest →
  (4 * (es buf - s) + 4 <= fuel)%nat → gives (reads t rest) (parseline buf fuel s : U W _).

(** After the tokens [ts] less of the line is left. *)
Lemma lies_left s s' ts rest : lies s (ts ++ rest) → lies s' rest → (es buf - s = length (render ts) + (es buf - s'))%nat.
Proof. intros H1 H2. rewrite (lies_length _ _ H1), (lies_length _ _ H2), render_app, length_app. done. Qed.

(** A command in parentheses. *)
Lemma g3_of_g0 t : toks 3 t = paren (toks 0 t) → G0 t → G3 t.
Proof.
  intros Et HG rs s rest fuel Hl Hok Hc Hf. rewrite Et in Hl. unfold paren in Hl. cbn [app] in Hl. rewrite <- app_assoc in Hl. cbn [app] in Hl.
  destruct fuel as [|[|fuel]]; [lia|lia|]. cbn [parseexec parseblock].
  pose proof (peek_at s _ (codes "(") Hl ltac:(syms)) as Ep. cbn in Ep. rewrite Ep. change (among (codes "(") (chr "(")) with true. cbv iota.
  rewrite Ep. change (among (codes "(") (chr "(")) with true. cbn [negb]. destruct (gettoken_sym s _ _ Hl) as [-> Hl2].
  pose proof (lies_length _ _ Hl) as L1. pose proof (lies_length _ _ Hl2) as L2. cbn [render text app length] in L1.
  eapply gives_bind; [apply (HG (S (S s)) _ fuel Hl2); [by apply among_elem|lia]|]. intros [c3 s3] [Hl3 E3]. cbn [fst snd] in *.
  rewrite (peek_at s3 _ _ Hl3) by syms. change (among (codes ")") (chr ")")) with true. cbn [negb].
  destruct (gettoken_sym s3 _ _ Hl3) as [-> Hl4]. rewrite <- E3. apply (parseredirs_at c3 _ rs rest Hl4 Hok). by apply closes_unredirected.
Qed.

Lemma g2_of_g3 t : toks 2 t = toks 3 t → G3 t → G2 t.
Proof.
  intros Et HG s rest fuel Hl Hc Hf. rewrite Et in Hl. destruct fuel as [|fuel]; [lia|]. cbn [parsepipe].
  eapply gives_bind; [apply (HG [] s rest fuel Hl); [by apply Forall_nil|by eapply closes_mono|lia]|]. intros [c1 s1] [Hl1 E1]. cbn [fst snd] in *.
  rewrite (peek_at s1 _ _ Hl1) by syms. rewrite (closes_not ")&;" "|" rest) by done. apply gives_ret. done.
Qed.

Lemma g2_pipe l r : G3 l → G2 r → G2 (PIPE l r).
Proof.
  intros Hl Hr s rest fuel Ha Hc Hf. cbn [toks Nat.leb] in Ha. rewrite <- app_assoc in Ha. cbn [app] in Ha. destruct fuel as [|fuel]; [lia|]. cbn [parsepipe].
  eapply gives_bind; [apply (Hl [] s _ fuel Ha); [by apply Forall_nil|by apply among_elem|lia]|]. intros [c1 s1] [Hl1 E1]. cbn [fst snd] in *.
  rewrite (peek_at s1 _ _ Hl1) by syms. change (among (codes "|") (chr "|")) with true. cbv iota. destruct (gettoken_sym s1 _ _ Hl1) as [-> Hl2].
  pose proof (lies_left _ _ _ _ Ha Hl1) as L1. pose proof (lies_length _ _ Hl1) as L2. pose proof (lies_length _ _ Hl2) as L3. cbn [render text app length] in L2.
  eapply gives_bind; [apply (Hr _ rest fuel Hl2 Hc); lia|]. intros [c3 s3] [Hl3 E3]. cbn [fst snd] in *.
  eapply (gives_bind (λ c, c = PIPE c1 c3)); [by apply alloc_gives|]. intros c ->. apply gives_ret. split; [done|]. cbn [fst cmd_map]. by rewrite E1, E3.
Qed.

(** The & after a pipeline. *)
Lemma backs_at n : ∀ fuel c s rest, lies s (replicate n (Sym (chr "&")) ++ rest) → closes ");" rest → (n < fuel)%nat →
  gives (reads (backs n (cmd_map slice c)) rest) (uwhile fuel (back_turn buf) (c, s) : U W _).
Proof.
  induction n as [|n IH]; intros fuel c s rest Hl Hc Hf; (destruct fuel as [|fuel]; [lia|]); cbn [uwhile replicate app] in *.
  - eapply (gives_bind (λ v, v = inr (c, s))); [|intros v ->; by apply gives_ret]. unfold back_turn. rewrite (peek_at s _ _ Hl) by syms.
    rewrite (closes_not ");" "&" rest) by done. by apply gives_ret.
  - destruct (gettoken_sym s _ _ Hl) as [Eg Hl2]. eapply (gives_bind (λ v, v = inl (BACK c, S (S s)))).
    + unfold back_turn. rewrite (peek_at s _ _ Hl) by syms. change (among (codes "&") (chr "&")) with true. cbn [negb]. rewrite Eg.
      eapply (gives_bind (λ r, r = BACK c)); [by apply alloc_gives|]. intros ? ->. by apply gives_ret.
    + intros v ->. cbn [backs]. change (BACK (cmd_map slice c)) with (cmd_map slice (BACK c)). apply IH; [done|done|lia].
Qed.

Lemma replicate_length n : (n <= length (render (replicate n (Sym (chr "&")))))%nat.
Proof. induction n as [|n IH]; cbn [replicate render text app length]; lia. Qed.

Lemma g1_of_g2 t : toks 1 t = toks 2 t → G2 t → G1 t.
Proof.
  intros Et HG n s rest fuel Hl Hc Hf. rewrite Et in Hl.
  eapply gives_bind; [apply (HG s _ fuel Hl); [|done]|].
  { destruct n; [by eapply closes_mono|by apply among_elem]. }
  intros [c1 s1] [Hl1 E1]. cbn [fst snd] in *. rewrite <- E1. apply backs_at; [done|done|].
  rewrite (lies_length _ _ Hl1), render_app, length_app. pose proof (replicate_length n). lia.
Qed.

Lemma g1_back c : G1 c → G1 (BACK c).
Proof.
  intros HG n s rest fuel Hl Hc Hf. cbn [toks Nat.leb] in Hl. rewrite <- app_assoc in Hl. apply (HG (S n) s rest fuel Hl Hc Hf).
Qed.

(** The pipeline and the & are one part of parseline(). *)
Definition line_tail (f : nat) (v : cmd span * nat) : U W (cmd span * nat) :=
  let '(c, s) := v in
  let '(s, b) := peek buf s (codes ";") in
  if b then
    let '(_, _, _, s) := gettoken buf s in
    '(r, s) ← parseline buf f s;
    c ← listcmd c r;
    mret (c, s)
  else mret (c, s).

Lemma parseline_split Q f s :
  gives Q (('(c, s1) ← parsepipe buf f s; uwhile (S (es buf - s1)) (back_turn buf) (c, s1)) ≫= line_tail f) →
  gives Q (parseline buf (S f) s : U W _).
Proof.
  change (parseline buf (S f) s : U W _) with ('(c, s1) ← parsepipe buf f s; '(c, s2) ← uwhile (S (es buf - s1)) (back_turn buf) (c, s1); line_tail f (c, s2) : U W _).
  generalize (line_tail f) as k. generalize (parsepipe buf f s : U W _) as m. intros m k HQ w. destruct (HQ w) as (a & w' & E & M & Ha). exists a, w'.
  split; [|done]. rewrite <- E. unfold mbind, U_bind. destruct (m w) as [[c1 s1] w1|w1|w1|w1]; [|done..].
  by destruct (uwhile _ _ (c1, s1) w1) as [[c2 s2] w2|w2|w2|w2].
Qed.

Lemma g0_of_g1 t : toks 0 t = toks 1 t → G1 t → G0 t.
Proof.
  intros Et HG s rest fuel Hl Hc Hf. rewrite Et in Hl. destruct fuel as [|fuel]; [lia|]. apply parseline_split.
  eapply gives_bind; [apply (HG 0%nat s rest fuel Hl); [by eapply closes_mono|lia]|]. intros [c1 s1] [Hl1 E1]. cbn [fst snd backs line_tail] in *.
  rewrite (peek_at s1 _ _ Hl1) by syms. rewrite (closes_not ")" ";" rest) by done. by apply gives_ret.
Qed.

Lemma g0_list l r : G1 l → G0 r → G0 (LIST l r).
Proof.
  intros Hl Hr s rest fuel Ha Hc Hf. cbn [toks Nat.leb] in Ha. rewrite <- app_assoc in Ha. cbn [app] in Ha. destruct fuel as [|fuel]; [lia|].
  apply parseline_split. eapply gives_bind; [apply (Hl 0%nat s _ fuel Ha); [by apply among_elem|lia]|]. intros [c1 s1] [Hl1 E1]. cbn [fst snd backs line_tail] in *.
  rewrite (peek_at s1 _ _ Hl1) by syms. change (among (codes ";") (chr ";")) with true. cbv iota. destruct (gettoken_sym s1 _ _ Hl1) as [-> Hl2].
  pose proof (lies_left _ _ _ _ Ha Hl1) as L1. pose proof (lies_length _ _ Hl1) as L2. pose proof (lies_length _ _ Hl2) as L3. cbn [render text app length] in L2.
  eapply gives_bind; [apply (Hr _ rest fuel Hl2 Hc); lia|]. intros [c3 s3] [Hl3 E3]. cbn [fst snd] in *.
  eapply (gives_bind (λ c, c = LIST c1 c3)); [by apply alloc_gives|]. intros c ->. apply gives_ret. split; [done|]. cbn [fst cmd_map]. by rewrite E1, E3.
Qed.

(** Every printable command is read back, at every place of the grammar. *)
Lemma parse_toks t : printable t → G0 t ∧ G1 t ∧ G2 t ∧ G3 t.
Proof.
  induction t as [argv|c IH file mode fd|l IHl r IHr|l IHl r IHr|c IH]; cbn [printable]; intros Hp.
  - assert (H3 : G3 (EXEC argv)) by (intros rs s rest fuel Hl Hok Hc Hf; apply exec_at; try done; [apply Hp|lia]).
    assert (H2 := g2_of_g3 (EXEC argv) eq_refl H3). assert (H1 := g1_of_g2 (EXEC argv) eq_refl H2). by pose proof (g0_of_g1 (EXEC argv) eq_refl H1).
  - destruct Hp as (Hp & Hw & Hm). destruct (IH Hp) as (_ & _ & _ & Hc3). set (t := REDIR c file mode fd).
    assert (H3 : G3 t).
    { intros rs s rest fuel Hl Hok Hc Hf. cbn [t toks] in Hl. rewrite <- app_assoc in Hl.
      apply (Hc3 ((file, mode, fd) :: rs) s rest fuel Hl); [by apply Forall_cons|done|done]. }
    assert (H2 := g2_of_g3 t eq_refl H3). assert (H1 := g1_of_g2 t eq_refl H2). by pose proof (g0_of_g1 t eq_refl H1).
  - destruct Hp as [Hp1 Hp2]. destruct (IHl Hp1) as (_ & _ & _ & L3). destruct (IHr Hp2) as (_ & _ & R2 & _).
    assert (H2 := g2_pipe l r L3 R2). assert (H1 := g1_of_g2 (PIPE l r) eq_refl H2). assert (H0' := g0_of_g1 (PIPE l r) eq_refl H1).
    by pose proof (g3_of_g0 (PIPE l r) eq_refl H0').
  - destruct Hp as [Hp1 Hp2]. destruct (IHl Hp1) as (_ & L1 & _). destruct (IHr Hp2) as (R0 & _).
    assert (H0' := g0_list l r L1 R0). assert (H3 := g3_of_g0 (LIST l r) eq_refl H0'). assert (H2 := g2_of_g3 (LIST l r) eq_refl H3).
    by pose proof (g1_of_g2 (LIST l r) eq_refl H2).
  - destruct (IH Hp) as (_ & C1 & _). assert (H1 := g1_back c C1). assert (H0' := g0_of_g1 (BACK c) eq_refl H1).
    assert (H3 := g3_of_g0 (BACK c) eq_refl H0'). by pose proof (g2_of_g3 (BACK c) eq_refl H3).
Qed.

End lexer.

Lemma show_nonzero t : printable t → Forall (λ c, c ≠ 0) (show t).
Proof.
  intros Hp. unfold show. pose proof (toks_ok 0 t Hp) as Hok. induction Hok as [|x l Hx Hl IH]; cbn [render]; [by apply Forall_nil|].
  apply Forall_app. split; [|done]. unfold text. apply Forall_app. split; [|by apply Forall_singleton]. destruct x as [w|c]; cbn [tok_ok] in Hx.
  - eapply Forall_impl; [apply Hx|]. by intros ? [_ ?].
  - apply Forall_singleton. intros ->. by apply among_elem in Hx.
Qed.

(** parsecmd() reads a printed command back. *)
Lemma parsecmd_reads {W : Type} `{Sys W} `{ShSys W} (t : cmd (list Z)) (w : W) :
  (∀ n (w : W), (user_malloc n w).1 ≠ 0) → printable t →
  ∃ c l w', parsecmd (show t) w = URet (c, l) w' ∧ mallocs w w' ∧ cmd_map (cstr l) c = t.
Proof.
  intros Hm Hp. set (buf := show t). assert (Hz : Forall (λ c, c ≠ 0) buf) by (by apply show_nonzero).
  assert (Hl : lies buf 0 (toks 0 t ++ [])) by (rewrite app_nil_r; split_and!; [lia|done|by apply toks_ok]).
  destruct (parse_toks buf Hz Hm t Hp) as (HG & _).
  destruct (HG 0%nat [] (parse_fuel buf) Hl I ltac:(unfold parse_fuel; lia) w) as ([c s] & w' & E & M & Hl' & Et). cbn [fst snd] in *.
  pose proof (parsecmd_ends buf Hz Hm w) as Hend. exists c, (nulterminate c buf), w'.
  assert (Erun : parsecmd buf w = URet (c, nulterminate c buf) w').
  { unfold parsecmd. rewrite (ubind_ret _ _ _ _ _ E). rewrite (peek_at buf Hz s [] [] Hl') by (by intros ? ?%elem_of_nil).
    pose proof (lies_length _ _ _ Hl') as Hlen. destruct Hl' as (Hs & _). cbn in Hlen. rewrite (proj2 (Nat.eqb_eq _ _)) by lia. done. }
  split; [done|]. split; [done|]. rewrite Erun in Hend. destruct Hend as [_ Hend]. cbn [fst snd] in Hend. by rewrite Hend.
Qed.

(** C29: the shell reads back what is printed: for every command whose words
    have no white space, symbol or NUL, with fewer than MAXARGS arguments each,
    parsecmd() on the printed line returns, having only allocated memory, and
    the C strings that it leaves in the line that nulterminate() cut are those
    of the command. *)
Theorem parsecmd_show {W : Type} `{Sys W} `{ShSys W} (t : cmd (list Z)) (w : W) :
  (∀ n (w : W), (user_malloc n w).1 ≠ 0) → printable t →
  ∃ c l w', parsecmd (show t) w = URet (c, l) w' ∧ mallocs w w' ∧ cmd_map (cstr l) c = t.
Proof. apply parsecmd_reads. Qed.

(** C30: the parser on any line: it returns or the process exits through
    panic(), it never loops; the command it returns has fewer than MAXARGS
    arguments everywhere, its strings are words of the line (no white space or
    symbol in them and none after their end), and in the line that
    nulterminate() cut each is exactly its word. *)
Theorem parsecmd_total {W : Type} `{Sys W} `{ShSys W} (buf : list Z) (w : W) :
  (∀ n (w : W), (user_malloc n w).1 ≠ 0) → Forall (λ c, c ≠ 0) buf →
  match parsecmd buf w with
  | URet (c, l) _ => wf buf c ∧ cmd_map (cstr l) c = cmd_map (slice buf) c
  | UExit _ => True
  | _ => False
  end.
Proof. intros Hm Hz. pose proof (parsecmd_ends buf Hz Hm w) as He. by destruct (parsecmd buf w) as [[c l] w'|w'|w'|w']. Qed.
