(* ===== verification/ShRun.v ===== *)
(** * Running a pipeline

    What the processes of a pipeline are left with when they call exec(): a
    world with the descriptors of one process, where the calls give out the
    lowest free descriptor (as fdalloc() of sysfile.c does) and fork() returns
    what [forks] says, 0 in the child and a pid in the parent. *)
From S2P Require Import Prelude.
From S2P Require Import Cprintf.
From S2P Require Import Ulib.
From S2P Require Import Sh.
From S2P Require Import ShParse.

#[local] Arguments chr : simpl never.

(** What a descriptor refers to. *)
Inductive chan : Type :=
| Tty
| OnDisk (name : list Z) (mode : Z)
| PipeR (n : nat)
| PipeW (n : nat).

Record process : Type := mk_process {
  pfds : list (option chan);
  forks : list Z;
  npipes : nat;
  openable : list Z → bool;
  runnable : list Z → bool;
  image : option (list (list Z));
}.

Definition set_pfds (f : list (option chan)) (p : process) : process :=
  mk_process f p.(forks) p.(npipes) p.(openable) p.(runnable) p.(image).

(** The lowest free descriptor. *)
Fixpoint lowest (l : list (option chan)) : option nat :=
  match l with
  | [] => None
  | None :: _ => Some O
  | Some _ :: l' => S <$> lowest l'
  end.

(** A new descriptor for [c]; -1 when there is none. *)
Definition install (c : chan) (p : process) : Z * process :=
  match lowest p.(pfds) with
  | Some fd => (Z.of_nat fd, set_pfds (<[fd := Some c]> p.(pfds)) p)
  | None => (-1, p)
  end.

Definition chan_of (fd : Z) (p : process) : option chan :=
  if fd <? 0 then None else mjoin (p.(pfds) !! Z.to_nat fd).

Definition shut (fd : Z) (p : process) : Z * process :=
  match chan_of fd p with
  | Some _ => (0, set_pfds (<[Z.to_nat fd := None]> p.(pfds)) p)
  | None => (-1, p)
  end.

#[export] Instance process_sys : Sys process := {
  sys_open := λ name mode p, if p.(openable) name then install (OnDisk name mode) p else (-1, p);
  sys_close := shut;
  sys_read := λ fd n p, (-1, [], p);
  sys_write := λ fd b p, (Z.of_nat (length b), p);
  sys_fstat := λ fd p, (-1, mk_stat 0 0 0 0 0, p);
  sys_link := λ a b p, (-1, p);
  sys_unlink := λ a p, (-1, p);
  sys_mkdir := λ a p, (-1, p);
  sys_kill := λ q p, (-1, p);
}.

#[export] Instance process_shsys : ShSys process := {
  sys_fork := λ p,
    match p.(forks) with
    | [] => (-1, p)
    | pid :: l => (pid, mk_process p.(pfds) l p.(npipes) p.(openable) p.(runnable) p.(image))
    end;
  sys_wait := λ p, (1, p);
  sys_exec := λ path argv p,
    if p.(runnable) path
    then (true, mk_process p.(pfds) p.(forks) p.(npipes) p.(openable) p.(runnable) (Some argv))
    else (false, p);
  sys_pipe := λ p,
    let '(r, p1) := install (PipeR p.(npipes)) p in
    let '(w, p2) := install (PipeW p.(npipes)) p1 in
    if (r <? 0) || (w <? 0) then (-1, (0, 0), p)
    else (0, (r, w), mk_process p2.(pfds) p2.(forks) (S p2.(npipes)) p2.(openable) p2.(runnable) p2.(image));
  sys_dup := λ fd p, match chan_of fd p with Some c => install c p | None => (-1, p) end;
  sys_chdir := λ d p, (0, p);
  user_malloc := λ n p, (4096, p);
}.

(** A process with the standard descriptors open and no other. *)
Definition std (i o e : chan) (fk : list Z) (n : nat) (op rn : list Z → bool) (im : option (list (list Z))) : process :=
  mk_process (Some i :: Some o :: Some e :: replicate 13 None) fk n op rn im.

(** A simple command with its redirections, and a pipeline of them. *)
Definition stage : Type := list (list Z) * list redir.
Definition stage_cmd (st : stage) : cmd (list Z) := wrap (EXEC st.1) st.2.

Fixpoint pipeline (st : stage) (sts : list stage) : cmd (list Z) :=
  match sts with
  | [] => stage_cmd st
  | st' :: sts' => PIPE (stage_cmd st) (pipeline st' sts')
  end.

(** What the redirections of descriptor [d] make of the channel [c]: the
    innermost counts. *)
Fixpoint redirected (d : Z) (rs : list redir) (c : chan) : chan :=
  match rs with
  | [] => c
  | (file, mode, fd) :: rs' => if fd =? d then OnDisk file mode else redirected d rs' c
  end.

Definition stage_ok (op rn : list Z → bool) (st : stage) : Prop :=
  Forall redir_ok st.2 ∧ Forall (λ r, op r.1.1 = true) st.2 ∧ ∃ a0 l, st.1 = a0 :: l ∧ rn a0 = true.

Section run.
Context (op rn : list Z → bool) (e : chan).

Lemma runcmd_redir t file mode fd i o fk n im : op file = true → redir_ok (file, mode, fd) →
  runcmd (REDIR t file mode fd) (std i o e fk n op rn im) =
  (runcmd t;; uexit) (std (redirected 0 [(file, mode, fd)] i) (redirected 1 [(file, mode, fd)] o) e fk n op rn im).
Proof.
  intros Ho [[-> ->]|[-> ->]]; cbn [runcmd]; (erewrite call_ret; [|cbn; reflexivity]); (erewrite call_ret; [|cbn; rewrite Ho; reflexivity]); reflexivity.
Qed.

Lemma redirected_app d a b c : redirected d (a ++ b) c = redirected d a (redirected d b c).
Proof. induction a as [|[[f m] x] a IH]; cbn [redirected app]; [done|]. by destruct (x =? d). Qed.

Lemma then_exit {A B} (m : U process A) (f : A → U process B) p p' : m p = UExit p' → (m ≫= f) p = UExit p'.
Proof. intros E. unfold mbind, U_bind. by rewrite E. Qed.

(** A simple command execs with its descriptors redirected. *)
Lemma runcmd_stage st i o fk n im : stage_ok op rn st →
  runcmd (stage_cmd st) (std i o e fk n op rn im) =
  UExit (std (redirected 0 st.2 i) (redirected 1 st.2 o) e fk n op rn (Some st.1)).
Proof.
  destruct st as [argv rs]. intros (Hok & Hop & a0 & l & Ea & Hrn). cbn [fst snd] in *. subst argv. unfold stage_cmd. cbn [fst snd].
  revert i o Hok Hop. induction rs as [|[[f m] d] rs IH] using rev_ind; intros i o Hok Hop.
  - cbn [wrap foldl runcmd redirected]. apply then_exit. unfold exec. cbn. by rewrite Hrn.
  - apply Forall_app in Hok as [Hok [Hr _]%Forall_cons]. apply Forall_app in Hop as [Hop [Ho _]%Forall_cons].
    unfold wrap. rewrite foldl_app. cbn [foldl]. fold (wrap (EXEC (a0 :: l)) rs). rewrite (runcmd_redir _ _ _ _ _ _ _ _ _ Ho Hr).
    rewrite (then_exit _ _ _ _ (IH _ _ Hok Hop)), !redirected_app. done.
Qed.

(** The three processes of a pipe. *)
Lemma pipe_left l r i o fk n im p' : runcmd l (std i (PipeW n) e fk (S n) op rn im) = UExit p' →
  runcmd (PIPE l r) (std i o e (0 :: fk) n op rn im) = UExit p'.
Proof.
  intros Hl. cbn [runcmd]. erewrite call_ret; [|cbn; reflexivity]. cbv beta iota. change (0 <? 0) with false. cbv iota.
  erewrite ubind_ret; [|reflexivity]. change (0 =? 0) with true. cbv iota. apply then_exit.
  do 4 (erewrite call_ret; [|cbn; reflexivity]). exact Hl.
Qed.

Lemma pipe_right l r i o pid fk n im p' : 0 < pid → runcmd r (std (PipeR n) o e fk (S n) op rn im) = UExit p' →
  runcmd (PIPE l r) (std i o e (pid :: 0 :: fk) n op rn im) = UExit p'.
Proof.
  intros Hp Hr. cbn [runcmd]. erewrite call_ret; [|cbn; reflexivity]. cbv beta iota. change (0 <? 0) with false. cbv iota.
  assert (Hf : ∀ p, fork1 (mk_process p (pid :: 0 :: fk) (S n) op rn im) = URet pid (mk_process p (0 :: fk) (S n) op rn im)).
  { intros p. unfold fork1. erewrite call_ret; [|reflexivity]. by rewrite (proj2 (Z.eqb_neq _ _)) by lia. }
  rewrite (ubind_ret _ _ _ _ _ (Hf _)). rewrite (proj2 (Z.eqb_neq _ _)) by lia. erewrite ubind_ret; [|reflexivity].
  erewrite ubind_ret; [|reflexivity]. change (0 =? 0) with true. cbv iota. apply then_exit.
  do 4 (erewrite call_ret; [|cbn; reflexivity]). exact Hr.
Qed.

(** What fork() returns in the process that runs the stage [k]. *)
Fixpoint path (pid : Z) (sts : list stage) (k : nat) : list Z :=
  match sts, k with
  | [], _ => []
  | _ :: _, O => [0]
  | _ :: sts', S k' => pid :: 0 :: path pid sts' k'
  end.

(** The process of the stage [k] of a pipeline. *)
Lemma pipeline_run pid : 0 < pid → ∀ sts st k s i o n im, Forall (stage_ok op rn) (st :: sts) → (st :: sts) !! k = Some s →
  runcmd (pipeline st sts) (std i o e (path pid sts k) n op rn im) =
  UExit (std (redirected 0 s.2 (if decide (k = 0%nat) then i else PipeR (n + k - 1)))
             (redirected 1 s.2 (if decide (k = length sts) then o else PipeW (n + k))) e []
             (n + if decide (k = length sts) then k else S k) op rn (Some s.1)).
Proof.
  intros Hp. induction sts as [|st' sts IH]; intros st k s i o n im Hok Hk.
  - apply list_lookup_singleton_Some in Hk as [-> <-]. apply Forall_cons in Hok as [Hok _]. cbn [pipeline path length]. rewrite !decide_True by done.
    rewrite runcmd_stage by done. by rewrite Nat.add_0_r.
  - apply Forall_cons in Hok as [Hst Hok]. destruct k as [|k]; cbn [pipeline path length].
    + injection Hk as <-. apply pipe_left. rewrite runcmd_stage by done. cbn. by rewrite Nat.add_0_r, Nat.add_1_r.
    + apply pipe_right; [done|]. rewrite (IH st' k s (PipeR n) o (S n) im Hok Hk). do 2 f_equal.
      * f_equal. destruct (decide (k = 0%nat)) as [->|]; cbn; f_equal; lia.
      * f_equal. repeat case_decide; try lia; [done|]. f_equal. lia.
      * repeat case_decide; lia.
Qed.

(** The shell itself keeps no end of the pipe. *)
Lemma pipe_parent l r i o pid1 pid2 fk n im : 0 < pid1 → 0 < pid2 →
  runcmd (PIPE l r) (std i o e (pid1 :: pid2 :: fk) n op rn im) = UExit (std i o e fk (S n) op rn im).
Proof.
  intros H1 H2. cbn [runcmd]. erewrite call_ret; [|cbn; reflexivity]. cbv beta iota. change (0 <? 0) with false. cbv iota.
  assert (Hf : ∀ p pid l, 0 < pid → fork1 (mk_process p (pid :: l) (S n) op rn im) = URet pid (mk_process p l (S n) op rn im)).
  { intros p pid fk' Hpid. unfold fork1. erewrite call_ret; [|reflexivity]. by rewrite (proj2 (Z.eqb_neq _ _)) by lia. }
  rewrite (ubind_ret _ _ _ _ _ (Hf _ _ _ H1)). rewrite (proj2 (Z.eqb_neq _ _)) by lia. erewrite ubind_ret; [|reflexivity].
  rewrite (ubind_ret _ _ _ _ _ (Hf _ _ _ H2)). rewrite (proj2 (Z.eqb_neq _ _)) by lia. erewrite ubind_ret; [|reflexivity].
  do 4 (erewrite call_ret; [|cbn; reflexivity]). done.
Qed.

End run.

(** A stage that can be printed. *)
Definition stage_printable (st : stage) : Prop :=
  Forall word_ok st.1 ∧ Z.of_nat (length st.1) < MAXARGS ∧ Forall redir_ok st.2 ∧ Forall (λ r, word_ok r.1.1) st.2.

Lemma wrap_printable t rs : printable t → Forall redir_ok rs → Forall (λ r, word_ok r.1.1) rs → printable (wrap t rs).
Proof.
  revert t. induction rs as [|[[f m] d] rs IH]; intros t Ht Hr Hw; [done|].
  apply Forall_cons in Hr as [Hr1 Hr]. apply Forall_cons in Hw as [Hw1 Hw]. by apply (IH (REDIR t f m d)).
Qed.

Lemma pipeline_printable st sts : Forall stage_printable (st :: sts) → printable (pipeline st sts).
Proof.
  assert (Hst : ∀ st, stage_printable st → printable (stage_cmd st)) by (intros [argv rs] (H1 & H2 & H3 & H4); by apply wrap_printable).
  revert st. induction sts as [|st' sts IH]; intros st [H1 H2]%Forall_cons; cbn [pipeline printable]; auto.
Qed.

(** malloc() has no effect on the descriptors. *)
Lemma mallocs_process (p p' : process) : mallocs p p' → p' = p.
Proof. by induction 1. Qed.

(** What the child of the shell does with a line. *)
Definition child (line : list Z) : U process unit :=
  '(c, l) ← parsecmd line;
  runcmd (cmd_map (cstr l) c).

(** C28: the line of a pipeline of simple commands with redirections: each of
    the processes that the shell forks for it calls exec() with the arguments
    of its command; its standard input is the pipe of the command before, its
    standard output the pipe to the next one (for the first and last those of
    the shell), unless redirected; it holds no other end of a pipe. *)
Theorem shell_pipeline (op rn : list Z → bool) (i o e : chan) (pid : Z) (st : stage) (sts : list stage) (k n : nat) (s : stage) im :
  0 < pid → Forall (stage_ok op rn) (st :: sts) → Forall stage_printable (st :: sts) → (st :: sts) !! k = Some s →
  child (show (pipeline st sts)) (std i o e (path pid sts k) n op rn im) =
  UExit (std (redirected 0 s.2 (if decide (k = 0%nat) then i else PipeR (n + k - 1)))
             (redirected 1 s.2 (if decide (k = length sts) then o else PipeW (n + k))) e []
             (n + if decide (k = length sts) then k else S k) op rn (Some s.1)).
Proof.
  intros Hp Hok Hpr Hk. unfold child.
  destruct (parsecmd_reads (pipeline st sts) (std i o e (path pid sts k) n op rn im)) as (c & l & p' & E & M & Et); [done|by apply pipeline_printable|].
  rewrite (ubind_ret _ _ _ _ _ E). apply mallocs_process in M as ->. rewrite Et. by apply pipeline_run.
Qed.

(** cat < a | wc > b, the second process. *)
Lemma shell_pipeline_witness :
  let st := ([codes "cat"], [(codes "a", O_RDONLY, 0)]) in
  let st' := ([codes "wc"; codes "-l"], [(codes "b", Z.lor O_WRONLY O_CREATE, 1)]) in
  child (show (pipeline st [st'])) (std Tty Tty Tty [7; 0] 0 (λ _, true) (λ _, true) None) =
  UExit (std (PipeR 0) (OnDisk (codes "b") 513) Tty [] 1 (λ _, true) (λ _, true) (Some [codes "wc"; codes "-l"])).
Proof.
  refine (shell_pipeline (λ _, true) (λ _, true) Tty Tty Tty 7 ([codes "cat"], [(codes "a", O_RDONLY, 0)])
    [([codes "wc"; codes "-l"], [(codes "b", Z.lor O_WRONLY O_CREATE, 1)])] 1 0 _ None _ _ _ eq_refl); [lia|..].
  - repeat (apply Forall_cons; split); try apply Forall_nil_2; (split; [|split]); cbn [fst snd]; repeat (apply Forall_cons; split);
      try apply Forall_nil_2; cbn; eauto.
  - repeat (apply Forall_cons; split); try apply Forall_nil_2; (split; [|split; [|split]]); cbn [fst snd];
      repeat (apply Forall_cons; split); try apply Forall_nil_2; cbn; try done; auto; split; try done; repeat (apply Forall_cons; split); try apply Forall_nil_2; done.
Defined.

(** (ls; cat a & ) > b | wc *)
Definition sample : cmd (list Z) :=
  PIPE (REDIR (LIST (EXEC [codes "ls"]) (BACK (EXEC [codes "cat"; codes "a"]))) (codes "b") (Z.lor O_WRONLY O_CREATE) 1) (EXEC [codes "wc"]).

Lemma parsecmd_show_witness :
  ∃ c l p', parsecmd (show sample) (std Tty Tty Tty [] 0 (λ _, true) (λ _, true) None) = URet (c, l) p' ∧
    mallocs (std Tty Tty Tty [] 0 (λ _, true) (λ _, true) None) p' ∧ cmd_map (cstr l) c = sample.
Proof.
  apply parsecmd_show; [done|]. cbn [printable sample].
  repeat match goal with
    | |- word_ok ?w => let w' := eval vm_compute in w in change w with w'; split; [discriminate|]
    | |- _ ∧ _ => split
    | |- Forall _ (_ :: _) => apply Forall_cons; split
    | |- Forall _ [] => apply Forall_nil_2
    end; try done; auto.
Defined.

Lemma parsecmd_total_witness :
  let buf := codes "a >b c" in
  match parsecmd buf (std Tty Tty Tty [] 0 (λ _, true) (λ _, true) None) with
  | URet (c, l) _ => wf buf c ∧ cmd_map (cstr l) c = cmd_map (slice buf) c
  | UExit _ => True
  | _ => False
  end.
Proof. apply (parsecmd_total (codes "a >b c")); [done|]. repeat (apply Forall_cons; split); [done..|]. apply Forall_nil_2. Defined.
