(* ===== verification/Uproc.v ===== *)
(** * init and the programs that exercise processes

    init.c, zombie.c, forktest.c, stressfs.c and the programs that try the
    priorities, my_prog.c, my_prog0.c and my_prog1.c, over the interface of the
    system calls. As in the shell a process sees fork() return 0 or a pid. *)
From S2P Require Import Prelude.
From S2P Require Import Cprintf.
From S2P Require Import Ulib.
From S2P Require Import Sh.

#[local] Arguments chr : simpl never.
#[local] Arguments codes : simpl never.

Class ProcSys (W : Type) : Type := {
  sys_mknod : list Z → Z → Z → W → Z * W;
  sys_sleep : Z → W → Z * W;
  sys_getpid : W → Z * W;
  sys_setpriority : Z → W → Z * W;
  sys_getpriority : W → Z * W;
}.

Section programs.
Context {W : Type} `{Sys W} `{ShSys W} `{ProcSys W}.

(** ** init.c *)

(** while((wpid=wait()) >= 0 && wpid != pid) *)
Definition reap_turn (pid : Z) (_ : unit) : U W (unit + unit) :=
  wpid ← call sys_wait;
  if (0 <=? wpid) && negb (wpid =? pid) then
    printf 1 ("zombie!" +:+ nl) [];;
    mret (inl tt)
  else mret (inr tt).

Definition init_turn (fuel : nat) (_ : unit) : U W (unit + unit) :=
  printf 1 ("init: starting sh" +:+ nl) [];;
  pid ← call sys_fork;
  if pid <? 0 then
    printf 1 ("init: fork failed" +:+ nl) [];;
    uexit
  else if pid =? 0 then
    exec (codes "sh") [codes "sh"];;
    printf 1 ("init: exec sh failed" +:+ nl) [];;
    uexit
  else
  uwhile fuel (reap_turn pid) tt;;
  mret (inl tt).

(** Descriptors 0, 1 and 2 are the console. *)
Definition init_console : U W unit :=
  r ← call (sys_open (codes "console") O_RDWR);
  (if r <? 0 then
     call (sys_mknod (codes "console") 1 1);;
     call (sys_open (codes "console") O_RDWR);;
     mret tt
   else mret tt);;
  call (sys_dup 0);;
  call (sys_dup 0);;
  mret tt.

Definition init_main (fuel : nat) : U W unit :=
  init_console;;
  uwhile fuel (init_turn fuel) tt.

(** ** zombie.c *)

Definition zombie_main : U W unit :=
  pid ← call sys_fork;
  (if 0 <? pid then call (sys_sleep 5);; mret tt else mret tt);;
  uexit.

(** ** forktest.c *)

(** The printf() of this program. *)
Definition write_str (fd : Z) (s : string) : U W unit := call (sys_write fd (codes s));; mret tt.

(** for(n=0; n<N; n++): the number of children; [k] turns are left. *)
Fixpoint fork_loop (k : nat) (n : Z) : U W Z :=
  match k with
  | O => mret n
  | S k' =>
      pid ← call sys_fork;
      if pid <? 0 then mret n else
      if pid =? 0 then uexit else
      fork_loop k' (n + 1)
  end.

Fixpoint wait_loop (n : nat) : U W unit :=
  match n with
  | O => mret tt
  | S n' =>
      r ← call sys_wait;
      if r <? 0 then
        write_str 1 ("wait stopped early" +:+ nl);;
        uexit
      else wait_loop n'
  end.

Definition forktest : U W unit :=
  write_str 1 ("fork test" +:+ nl);;
  n ← fork_loop 1000 0;
  if n =? 1000 then
    write_str 1 ("fork claimed to work N times!" +:+ nl);;
    uexit
  else
  wait_loop (Z.to_nat n);;
  r ← call sys_wait;
  if negb (r =? -1) then
    write_str 1 ("wait got too many" +:+ nl);;
    uexit
  else write_str 1 ("fork test OK" +:+ nl).

Definition forktest_main : U W unit :=
  forktest;;
  uexit.

(** ** stressfs.c *)

(** for(i = 0; i < 4; i++) if(fork() > 0) break; *)
Fixpoint spread_loop (k : nat) (i : Z) : U W Z :=
  match k with
  | O => mret i
  | S k' =>
      pid ← call sys_fork;
      if 0 <? pid then mret i else spread_loop k' (i + 1)
  end.

Definition stressfs_main : U W unit :=
  printf 1 ("stressfs starting" +:+ nl) [];;
  let data := replicate 512 (chr "a") in
  i ← spread_loop 4 0;
  printf 1 ("write %d" +:+ nl) [AInt i];;
  let path := codes "stressfs" ++ [u8 (chr "0" + i)] in
  fd ← call (sys_open path (Z.lor O_CREATE O_RDWR));
  uforeach (seq 0 20) (λ _, call (sys_write fd data);; mret tt);;
  call (sys_close fd);;
  printf 1 ("read" +:+ nl) [];;
  fd ← call (sys_open path O_RDONLY);
  uforeach (seq 0 20) (λ _, call (sys_read fd 512);; mret tt);;
  call (sys_close fd);;
  call sys_wait;;
  uexit.

(** ** my_prog.c, my_prog0.c, my_prog1.c *)

(** for(j=...;j<3000;j++) sum = sum + j*j, [n] turns left. *)
Fixpoint squares_loop (n : nat) (j sum : Z) : Z :=
  match n with
  | O => sum
  | S n' => squares_loop n' (j + 1) (s32 (sum + j * j))
  end.

(** for(i=0;i<n;i++) around it, with [m] turns of the inner loop. *)
Fixpoint work_loop (m n : nat) (sum : Z) : Z :=
  match n with
  | O => sum
  | S n' => work_loop m n' (squares_loop m 0 sum)
  end.

(** printf(1, fmt, getpid(), getpriority()): the compiler computes the
    arguments from the last to the first. *)
Definition say_prio (fmt : string) : U W unit :=
  prio ← call sys_getpriority;
  pid ← call sys_getpid;
  printf 1 fmt [AInt pid; AInt prio].

(** for(k=0;k<10;k++), [n] turns left. *)
Fixpoint compute_loop (n : nat) (sum : Z) : U W Z :=
  match n with
  | O => mret sum
  | S n' =>
      let sum := work_loop 3000 1000 sum in
      say_prio ("(%d) during computation, prio: %d" +:+ nl);;
      compute_loop n' sum
  end.

Definition my_prog_main : U W unit :=
  call (sys_setpriority 1);;
  k ← call sys_fork;
  if k =? 0 then
    call (sys_setpriority 9);;
    say_prio ("(%d) before sleeping, prio : %d" +:+ nl);;
    call (sys_setpriority 9);;
    call (sys_sleep 5);;
    say_prio ("(%d) after wake-up, prio : %d" +:+ nl);;
    uexit
  else
    call (sys_setpriority 1);;
    say_prio ("(pid: %d) before computation, prio: %d" +:+ nl);;
    call (sys_setpriority 1);;
    sum ← compute_loop 10 0;
    call (sys_sleep 1);;
    prio ← call sys_getpriority;
    pid ← call sys_getpid;
    printf 1 ("(%d) after execution, prio: %d, sum: %d" +:+ nl) [AInt pid; AInt prio; AInt sum];;
    call sys_wait;;
    uexit.

Definition my_prog0_main : U W unit :=
  call (sys_setpriority 9);;
  say_prio ("(pid: %d) priority: %d" +:+ nl);;
  call (sys_sleep 6);;
  say_prio ("(pid: %d) priority: %d" +:+ nl);;
  uexit.

Definition my_prog1_main : U W unit :=
  call (sys_setpriority 2);;
  say_prio ("(pid: %d) priority: %d" +:+ nl);;
  let sum := work_loop 3000 1000 0 in
  printf 1 ("sum: %d" +:+ nl) [AInt sum];;
  say_prio ("(pid: %d) priority: %d" +:+ nl);;
  uexit.

End programs.

(** ** The computation of the priority programs *)

(** j*j + ... + (j+n-1)*(j+n-1) *)
Fixpoint squares (n : nat) (j : Z) : Z := match n with O => 0 | S n' => j * j + squares n' (j + 1) end.

Lemma s32_add a b : s32 (s32 a + b) = s32 (a + b).
Proof. words_mod. Z.to_euclidean_division_equations. lia. Qed.

Lemma squares_loop_sum n : ∀ j sum, is_s32 sum → squares_loop n j sum = s32 (sum + squares n j).
Proof.
  induction n as [|n IH]; intros j sum Hs; cbn [squares_loop squares]; [by rewrite Z.add_0_r, s32_small|].
  rewrite IH by apply s32_range. rewrite s32_add. f_equal. lia.
Qed.

Lemma work_loop_sum m n : ∀ sum, is_s32 sum → work_loop m n sum = s32 (sum + Z.of_nat n * squares m 0).
Proof.
  induction n as [|n IH]; intros sum Hs; [cbn; by rewrite Z.add_0_r, s32_small|]. cbn [work_loop]. rewrite squares_loop_sum by done.
  rewrite IH by apply s32_range. rewrite s32_add. f_equal. lia.
Qed.

(** The sum that my_prog1 prints: its int has gone round more than 2000 times. *)
Lemma my_prog1_sum : work_loop 3000 1000 0 = s32 8995500500000.
Proof. rewrite work_loop_sum by done. by vm_compute. Qed.

(** ** Waiting for all children *)

(** What forktest relies on: a world where fork() works [free] times and
    wait() returns once for each child. *)
Record family : Type := mk_family { free_slots : nat; children : nat; said_ : list (list Z) }.

#[export] Instance family_sys : Sys family := {
  sys_open := λ _ _ w, (-1, w);
  sys_close := λ _ w, (-1, w);
  sys_read := λ _ _ w, (-1, [], w);
  sys_write := λ _ b w, (Z.of_nat (length b), mk_family w.(free_slots) w.(children) (w.(said_) ++ [b]));
  sys_fstat := λ _ w, (-1, mk_stat 0 0 0 0 0, w);
  sys_link := λ _ _ w, (-1, w);
  sys_unlink := λ _ w, (-1, w);
  sys_mkdir := λ _ w, (-1, w);
  sys_kill := λ _ w, (-1, w);
}.

#[export] Instance family_shsys : ShSys family := {
  sys_fork := λ w, match w.(free_slots) with O => (-1, w) | S n => (7, mk_family n (S w.(children)) w.(said_)) end;
  sys_wait := λ w, match w.(children) with O => (-1, w) | S n => (7, mk_family (S w.(free_slots)) n w.(said_)) end;
  sys_exec := λ _ _ w, (false, w);
  sys_pipe := λ w, (-1, (0, 0), w);
  sys_dup := λ _ w, (-1, w);
  sys_chdir := λ _ w, (-1, w);
  user_malloc := λ _ w, (0, w);
}.

Lemma fork_loop_family k : ∀ n f c o, (f < k)%nat →
  fork_loop k n (mk_family f c o) = URet (n + Z.of_nat f) (mk_family 0 (f + c) o).
Proof.
  induction k as [|k IH]; intros n f c o Hf; [lia|]. cbn [fork_loop]. destruct f as [|f].
  - cbn. by rewrite Z.add_0_r.
  - erewrite call_ret; [|reflexivity]. cbn [Z.ltb Z.eqb Z.compare free_slots children said_]. rewrite IH by lia. f_equal; [lia|]. f_equal. lia.
Qed.

Lemma wait_loop_family n : ∀ f c o, wait_loop n (mk_family f (n + c) o) = URet tt (mk_family (n + f) c o).
Proof.
  induction n as [|n IH]; intros f c o; [done|]. cbn [wait_loop].
  erewrite call_ret; [|reflexivity]. cbn [Z.ltb Z.compare free_slots children said_]. rewrite IH. f_equal. f_equal. lia.
Qed.

(** With fewer than N slots the test passes and every slot is free again. *)
Lemma forktest_ok f : (f < 1000)%nat →
  forktest (mk_family f 0 []) = URet tt (mk_family f 0 [codes ("fork test" +:+ nl); codes ("fork test OK" +:+ nl)]).
Proof.
  intros Hf. unfold forktest.
  assert (Hw : ∀ s f c o, write_str 1 s (mk_family f c o) = URet tt (mk_family f c (o ++ [codes s]))) by reflexivity.
  rewrite (ubind_ret _ _ _ _ _ (Hw _ _ _ _)). cbn [app].
  rewrite (ubind_ret _ _ _ _ _ (fork_loop_family 1000 0 f 0 _ Hf)). rewrite (proj2 (Z.eqb_neq _ _)) by lia. rewrite Z.add_0_l, Nat2Z.id.
  rewrite (ubind_ret _ _ _ _ _ (wait_loop_family f 0 0 _)). erewrite call_ret; [|reflexivity]. cbn [Z.eqb negb]. rewrite Nat.add_0_r. done.
Qed.
