(* ===== verification/Usertests.v ===== *)
(** * usertests.c: the tests of the system

    Every test of usertests.c over the interface of the system calls. As in the
    shell a process sees fork() return 0 or a pid, and a child ends with exit().
    buf[8192] and uninit[10000] are data of the process, which the world keeps;
    so are the memory that sbrk() and malloc() give, read and written through
    pointers, and the instructions that a user process must not execute. *)
From S2P Require Import Prelude.
From S2P Require Import Cprintf.
From S2P Require Import Kernel.
From S2P Require Import Log.
From S2P Require Import Ulib.
From S2P Require Import Sh.
From S2P Require Import Uproc.

#[local] Arguments chr : simpl never.
#[local] Arguments codes : simpl never.

Class TestSys (W : Type) : Type := {
  prog_buf : W → list Z;  (* buf[8192] *)
  set_prog_buf : list Z → W → W;
  prog_uninit : W → list Z;  (* uninit[10000] *)
  sys_sbrk : Z → W → Z * W;
  load_byte : Z → W → option Z * W;  (* None: the process is killed *)
  store_byte : Z → Z → W → bool * W;  (* false: the process is killed *)
  user_free : Z → W → W;
  bare_sleep : Z → W → Z * W;  (* sleep() with the stack pointer set to an address *)
  link_ptr : list Z → Z → W → Z * W;  (* link() with a pointer for the new name *)
  read_ptr : Z → Z → Z → W → Z * W;  (* read() to an address *)
  port_out : Z → Z → W → bool * W;
  port_in : Z → W → option Z * W;
}.

Definition O_CR : Z := Z.lor O_CREATE O_RDWR.

(** ** C's statements *)

Section statements.
Context {W : Type} `{Sys W} `{ShSys W} `{ProcSys W} `{TestSys W}.

(** printf(stdout, fmt, ...); stdout is 1. *)
Definition say (fmt : string) (args : list arg) : U W unit := printf 1 fmt args.

(** if(b){ printf(1, fmt, ...); exit(); } *)
Definition exit_if (b : bool) (fmt : string) (args : list arg) : U W unit :=
  if b then say fmt args;; uexit else mret tt.

(** for(i = ...; n more turns; i++) body *)
Fixpoint ufor (n : nat) (i : Z) (body : Z → U W unit) : U W unit :=
  match n with
  | O => mret tt
  | S n' => body i;; ufor n' (i + 1) body
  end.

(** The same, when the body may return from the function ([true]). *)
Fixpoint ufor_ret (n : nat) (i : Z) (body : Z → U W bool) : U W bool :=
  match n with
  | O => mret false
  | S n' => r ← body i; if (r : bool) then mret true else ufor_ret n' (i + 1) body
  end.

Definition drop_ {A} (m : U W A) : U W unit := m;; mret tt.

(** System calls whose result is not used. *)
Definition close_ (fd : Z) : U W unit := drop_ (call (sys_close fd)).
Definition unlink_ (p : list Z) : U W unit := drop_ (call (sys_unlink p)).
Definition wait_ : U W unit := drop_ (call sys_wait).

(** read(fd, buf, n), write(fd, buf, n), memset(buf, c, n) *)
Definition read_buf (fd n : Z) : U W Z :=
  '(r, bytes) ← call (sys_read fd n);
  call (λ w, (tt, set_prog_buf (splice (prog_buf w) 0 bytes) w));;
  mret r.
Definition buf_bytes : U W (list Z) := call (λ w, (prog_buf w, w)).
Definition write_buf (fd n : Z) : U W Z :=
  b ← buf_bytes;
  call (sys_write fd (take (Z.to_nat n) b)).
Definition memset_buf (c n : Z) : U W unit :=
  call (λ w, (tt, set_prog_buf (splice (prog_buf w) 0 (replicate (Z.to_nat n) (u8 c))) w)).
Definition put_buf (i : nat) (bytes : list Z) : U W unit :=
  call (λ w, (tt, set_prog_buf (splice (prog_buf w) i bytes) w)).

(** Accesses through a pointer. *)
Definition load (a : Z) : U W Z := λ w,
  match load_byte a w with
  | (Some v, w') => URet v w'
  | (None, w') => UExit w'
  end.
Definition store (a v : Z) : U W unit := λ w,
  match store_byte a (u8 v) w with
  | (true, w') => URet tt w'
  | (false, w') => UExit w'
  end.
Definition load_ptr (a : Z) : U W Z :=
  b0 ← load a;
  b1 ← load (u32 (a + 1));
  b2 ← load (u32 (a + 2));
  b3 ← load (u32 (a + 3));
  mret (b0 + 2 ^ 8 * b1 + 2 ^ 16 * b2 + 2 ^ 24 * b3).
Definition store_ptr (a v : Z) : U W unit :=
  store a v;;
  store (u32 (a + 1)) (Z.shiftr v 8);;
  store (u32 (a + 2)) (Z.shiftr v 16);;
  store (u32 (a + 3)) (Z.shiftr v 24).

(** for(;;) ; *)
Definition spin (fuel : nat) : U W unit := uwhile fuel (λ _, mret (inl tt)) tt.

End statements.

Section tests.
Context {W : Type} `{Sys W} `{ShSys W} `{ProcSys W} `{TestSys W}.
Context (fuel : nat).

(** ** Reference counts of inodes *)

Definition iputtest : U W unit :=
  say ("iput test" +:+ nl) [];;
  r ← call (sys_mkdir (codes "iputdir"));
  exit_if (r <? 0) ("mkdir failed" +:+ nl) [];;
  r ← call (sys_chdir (codes "iputdir"));
  exit_if (r <? 0) ("chdir iputdir failed" +:+ nl) [];;
  r ← call (sys_unlink (codes "../iputdir"));
  exit_if (r <? 0) ("unlink ../iputdir failed" +:+ nl) [];;
  r ← call (sys_chdir (codes "/"));
  exit_if (r <? 0) ("chdir / failed" +:+ nl) [];;
  say ("iput test ok" +:+ nl) [].

Definition exitiputtest : U W unit :=
  say ("exitiput test" +:+ nl) [];;
  pid ← call sys_fork;
  exit_if (pid <? 0) ("fork failed" +:+ nl) [];;
  if pid =? 0 then
    r ← call (sys_mkdir (codes "iputdir"));
    exit_if (r <? 0) ("mkdir failed" +:+ nl) [];;
    r ← call (sys_chdir (codes "iputdir"));
    exit_if (r <? 0) ("child chdir failed" +:+ nl) [];;
    r ← call (sys_unlink (codes "../iputdir"));
    exit_if (r <? 0) ("unlink ../iputdir failed" +:+ nl) [];;
    uexit
  else
  wait_;;
  say ("exitiput test ok" +:+ nl) [].

Definition openiputtest : U W unit :=
  say ("openiput test" +:+ nl) [];;
  r ← call (sys_mkdir (codes "oidir"));
  exit_if (r <? 0) ("mkdir oidir failed" +:+ nl) [];;
  pid ← call sys_fork;
  exit_if (pid <? 0) ("fork failed" +:+ nl) [];;
  if pid =? 0 then
    fd ← call (sys_open (codes "oidir") O_RDWR);
    exit_if (0 <=? fd) ("open directory for write succeeded" +:+ nl) [];;
    uexit
  else
  call (sys_sleep 1);;
  r ← call (sys_unlink (codes "oidir"));
  exit_if (negb (r =? 0)) ("unlink failed" +:+ nl) [];;
  wait_;;
  say ("openiput test ok" +:+ nl) [].

(** ** Simple file system tests *)

Definition opentest : U W unit :=
  say ("open test" +:+ nl) [];;
  fd ← call (sys_open (codes "echo") 0);
  exit_if (fd <? 0) ("open echo failed!" +:+ nl) [];;
  close_ fd;;
  fd ← call (sys_open (codes "doesnotexist") 0);
  exit_if (0 <=? fd) ("open doesnotexist succeeded!" +:+ nl) [];;
  say ("open test ok" +:+ nl) [].

Definition writetest : U W unit :=
  say ("small file test" +:+ nl) [];;
  fd ← call (sys_open (codes "small") O_CR);
  (if 0 <=? fd then say ("creat small succeeded; ok" +:+ nl) []
   else say ("error: creat small failed!" +:+ nl) [];; uexit);;
  ufor 100 0 (λ i,
    r ← call (sys_write fd (codes "aaaaaaaaaa"));
    exit_if (negb (r =? 10)) ("error: write aa %d new file failed" +:+ nl) [AInt i];;
    r ← call (sys_write fd (codes "bbbbbbbbbb"));
    exit_if (negb (r =? 10)) ("error: write bb %d new file failed" +:+ nl) [AInt i]);;
  say ("writes ok" +:+ nl) [];;
  close_ fd;;
  fd ← call (sys_open (codes "small") O_RDONLY);
  (if 0 <=? fd then say ("open small succeeded ok" +:+ nl) []
   else say ("error: open small failed!" +:+ nl) [];; uexit);;
  i ← read_buf fd 2000;
  (if i =? 2000 then say ("read succeeded ok" +:+ nl) []
   else say ("read failed" +:+ nl) [];; uexit);;
  close_ fd;;
  r ← call (sys_unlink (codes "small"));
  exit_if (r <? 0) ("unlink small failed" +:+ nl) [];;
  say ("small file test ok" +:+ nl) [].

(** One read of writetest1(); [n] blocks were read. *)
Definition writetest1_turn (fd n : Z) : U W (Z + unit) :=
  i ← read_buf fd 512;
  if i =? 0 then
    exit_if (n =? MAXFILE - 1) "read only %d blocks from big" [AInt n];;
    mret (inr tt)
  else
  exit_if (negb (i =? 512)) ("read failed %d" +:+ nl) [AInt i];;
  b ← buf_bytes;
  exit_if (negb (s32 (word_at b 0) =? n)) ("read content of block %d is %d" +:+ nl) [AInt n; AInt (s32 (word_at b 0))];;
  mret (inl (n + 1)).

Definition writetest1 : U W unit :=
  say ("big files test" +:+ nl) [];;
  fd ← call (sys_open (codes "big") O_CR);
  exit_if (fd <? 0) ("error: creat big failed!" +:+ nl) [];;
  ufor (Z.to_nat MAXFILE) 0 (λ i,
    put_buf 0 (word_bytes i);;
    r ← write_buf fd 512;
    exit_if (negb (r =? 512)) ("error: write big file failed" +:+ nl) [AInt i]);;
  close_ fd;;
  fd ← call (sys_open (codes "big") O_RDONLY);
  exit_if (fd <? 0) ("error: open big failed!" +:+ nl) [];;
  uwhile fuel (writetest1_turn fd) 0;;
  close_ fd;;
  r ← call (sys_unlink (codes "big"));
  exit_if (r <? 0) ("unlink big failed" +:+ nl) [];;
  say ("big files ok" +:+ nl) [].

Definition createtest : U W unit :=
  say ("many creates, followed by unlink test" +:+ nl) [];;
  ufor 52 0 (λ i,
    fd ← call (sys_open [chr "a"; u8 (chr "0" + i)] O_CR);
    close_ fd);;
  ufor 52 0 (λ i, unlink_ [chr "a"; u8 (chr "0" + i)]);;
  say ("many creates, followed by unlink; ok" +:+ nl) [].

Definition dirtest : U W unit :=
  say ("mkdir test" +:+ nl) [];;
  r ← call (sys_mkdir (codes "dir0"));
  exit_if (r <? 0) ("mkdir failed" +:+ nl) [];;
  r ← call (sys_chdir (codes "dir0"));
  exit_if (r <? 0) ("chdir dir0 failed" +:+ nl) [];;
  r ← call (sys_chdir (codes ".."));
  exit_if (r <? 0) ("chdir .. failed" +:+ nl) [];;
  r ← call (sys_unlink (codes "dir0"));
  exit_if (r <? 0) ("unlink dir0 failed" +:+ nl) [];;
  say ("mkdir test ok" +:+ nl) [].

Definition echoargv : list (list Z) := [codes "echo"; codes "ALL"; codes "TESTS"; codes "PASSED"].

Definition exectest : U W unit :=
  say ("exec test" +:+ nl) [];;
  r ← exec (codes "echo") echoargv;
  exit_if (r <? 0) ("exec echo failed" +:+ nl) [].

(** ** Processes and pipes *)

(** for(i = 0; i < 1033; i++) buf[i] = seq++ *)
Definition pipe1_fill (seq : Z) : list Z := (λ i, u8 (seq + Z.of_nat i)) <$> List.seq 0 1033.

(** The check of the bytes read; [false] if one is wrong. *)
Fixpoint pipe1_check (l : list Z) (seq : Z) : bool :=
  match l with
  | [] => true
  | b :: l' => if negb (Z.land b 0xff =? Z.land seq 0xff) then false else pipe1_check l' (seq + 1)
  end.

(** One read of pipe1(): [Some total] at the end, [None] after oops 2. *)
Definition pipe1_turn (fd : Z) (v : Z * Z * Z) : U W (Z * Z * Z + option Z) :=
  let '(cc, seq, total) := v in
  n ← read_buf fd cc;
  if 0 <? n then
    b ← buf_bytes;
    if negb (pipe1_check (take (Z.to_nat n) b) seq) then
      say ("pipe1 oops 2" +:+ nl) [];;
      mret (inr None)
    else
    let cc' := cc * 2 in
    mret (inl (if 8192 <? cc' then 8192 else cc', seq + n, total + n))
  else mret (inr (Some total)).

Definition pipe1 : U W unit :=
  '(r, (fd0, fd1)) ← call sys_pipe;
  exit_if (negb (r =? 0)) ("pipe() failed" +:+ nl) [];;
  pid ← call sys_fork;
  if pid =? 0 then
    close_ fd0;;
    ufor 5 0 (λ n,
      put_buf 0 (pipe1_fill (1033 * n));;
      r ← write_buf fd1 1033;
      exit_if (negb (r =? 1033)) ("pipe1 oops 1" +:+ nl) []);;
    uexit
  else if 0 <? pid then
    close_ fd1;;
    t ← uwhile fuel (pipe1_turn fd0) (1, 0, 0);
    match t with
    | None => mret tt
    | Some total =>
        exit_if (negb (total =? 5 * 1033)) ("pipe1 oops 3 total %d" +:+ nl) [AInt total];;
        close_ fd0;;
        wait_;;
        say ("pipe1 ok" +:+ nl) []
    end
  else
    say ("fork() failed" +:+ nl) [];;
    uexit.

Definition preempt : U W unit :=
  say "preempt: " [];;
  pid1 ← call sys_fork;
  (if pid1 =? 0 then spin fuel else mret tt);;
  pid2 ← call sys_fork;
  (if pid2 =? 0 then spin fuel else mret tt);;
  '(_, (fd0, fd1)) ← call sys_pipe;
  pid3 ← call sys_fork;
  (if pid3 =? 0 then
     close_ fd0;;
     r ← call (sys_write fd1 (codes "x"));
     (if negb (r =? 1) then say "preempt write error" [] else mret tt);;
     close_ fd1;;
     spin fuel
   else mret tt);;
  close_ fd1;;
  r ← read_buf fd0 8192;
  if negb (r =? 1) then say "preempt read error" [] else
  close_ fd0;;
  say "kill... " [];;
  call (sys_kill pid1);;
  call (sys_kill pid2);;
  call (sys_kill pid3);;
  say "wait... " [];;
  wait_;;
  wait_;;
  wait_;;
  say ("preempt ok" +:+ nl) [].

Definition exitwait_turn (_ : Z) : U W bool :=
  pid ← call sys_fork;
  if pid <? 0 then say ("fork failed" +:+ nl) [];; mret true else
  if negb (pid =? 0) then
    r ← call sys_wait;
    if negb (r =? pid) then say ("wait wrong pid" +:+ nl) [];; mret true else mret false
  else uexit.

Definition exitwait : U W unit :=
  r ← ufor_ret 100 0 exitwait_turn;
  if (r : bool) then mret tt else say ("exitwait ok" +:+ nl) [].

(** The two loops of mem(): a list through the blocks, and its release. *)
Definition mem_turn (m1 : Z) : U W (Z + Z) :=
  m2 ← call (user_malloc 10001);
  if negb (m2 =? 0) then store_ptr m2 m1;; mret (inl m2) else mret (inr m1).
Definition mem_free_turn (m1 : Z) : U W (Z + unit) :=
  if m1 =? 0 then mret (inr tt) else
  m2 ← load_ptr m1;
  call (λ w, (tt, user_free m1 w));;
  mret (inl m2).

Definition mem : U W unit :=
  say ("mem test" +:+ nl) [];;
  ppid ← call sys_getpid;
  pid ← call sys_fork;
  if pid =? 0 then
    m1 ← uwhile fuel mem_turn 0;
    uwhile fuel mem_free_turn m1;;
    m1 ← call (user_malloc (1024 * 20));
    if m1 =? 0 then
      say ("couldn't allocate mem?!!" +:+ nl) [];;
      call (sys_kill ppid);;
      uexit
    else
    call (λ w, (tt, user_free m1 w));;
    say ("mem ok" +:+ nl) [];;
    uexit
  else wait_.

(** ** Files shared by processes *)

(** for(i = 0; i < 1000; i++) write(); a failure ends the loop. *)
Fixpoint sharedfd_write (n : nat) (fd : Z) (data : list Z) : U W unit :=
  match n with
  | O => mret tt
  | S n' =>
      r ← call (sys_write fd data);
      if negb (r =? 10) then say ("fstests: write sharedfd failed" +:+ nl) [] else sharedfd_write n' fd data
  end.

(** The ten bytes of the local buf[] are counted whatever read() returned. *)
Definition sharedfd_turn (fd : Z) (v : list Z * Z * Z) : U W (list Z * Z * Z + Z * Z) :=
  let '(b, nc, np) := v in
  '(n, bytes) ← call (sys_read fd 10);
  let b := splice b 0 bytes in
  if 0 <? n then
    mret (inl (b, nc + Z.of_nat (length (filter (λ x, x = chr "c") b)), np + Z.of_nat (length (filter (λ x, x = chr "p") b))))
  else mret (inr (nc, np)).

Definition sharedfd : U W unit :=
  say ("sharedfd test" +:+ nl) [];;
  unlink_ (codes "sharedfd");;
  fd ← call (sys_open (codes "sharedfd") O_CR);
  if fd <? 0 then say "fstests: cannot open sharedfd for writing" [] else
  pid ← call sys_fork;
  let data := replicate 10 (if pid =? 0 then chr "c" else chr "p") in
  sharedfd_write 1000 fd data;;
  (if pid =? 0 then uexit else wait_);;
  close_ fd;;
  fd ← call (sys_open (codes "sharedfd") 0);
  if fd <? 0 then say ("fstests: cannot open sharedfd for reading" +:+ nl) [] else
  '(nc, np) ← uwhile fuel (sharedfd_turn fd) (data, 0, 0);
  close_ fd;;
  unlink_ (codes "sharedfd");;
  if (nc =? 10000) && (np =? 10000) then say ("sharedfd ok" +:+ nl) []
  else
    say ("sharedfd oops %d %d" +:+ nl) [AInt nc; AInt np];;
    uexit.

(** One read of fourfiles() of the file number [i]. *)
Definition fourfiles_turn (fd i total : Z) : U W (Z + Z) :=
  n ← read_buf fd 8192;
  if 0 <? n then
    b ← buf_bytes;
    exit_if (negb (forallb (λ x, x =? chr "0" + i) (take (Z.to_nat n) b))) ("wrong char" +:+ nl) [];;
    mret (inl (total + n))
  else mret (inr total).

Definition fourfiles_name (i : Z) : list Z := [chr "f"; chr "0" + i].

Definition fourfiles : U W unit :=
  say ("fourfiles test" +:+ nl) [];;
  ufor 4 0 (λ pi,
    let fname := fourfiles_name pi in
    unlink_ fname;;
    pid ← call sys_fork;
    exit_if (pid <? 0) ("fork failed" +:+ nl) [];;
    if pid =? 0 then
      fd ← call (sys_open fname O_CR);
      exit_if (fd <? 0) ("create failed" +:+ nl) [];;
      memset_buf (chr "0" + pi) 512;;
      ufor 12 0 (λ _,
        n ← write_buf fd 500;
        exit_if (negb (n =? 500)) ("write failed %d" +:+ nl) [AInt n]);;
      uexit
    else mret tt);;
  ufor 4 0 (λ _, wait_);;
  ufor 2 0 (λ i,
    let fname := fourfiles_name i in
    fd ← call (sys_open fname 0);
    total ← uwhile fuel (fourfiles_turn fd i) 0;
    close_ fd;;
    exit_if (negb (total =? 12 * 500)) ("wrong length %d" +:+ nl) [AInt total];;
    unlink_ fname);;
  say ("fourfiles ok" +:+ nl) [].

(** name[0] = 'p' + a; name[1] = '0' + b; name[2] = 0 *)
Definition cd_name (a b : Z) : list Z := [u8 (chr "p" + a); u8 (chr "0" + b)].

Definition createdelete_child (pi : Z) : U W unit :=
  ufor 20 0 (λ i,
    fd ← call (sys_open (cd_name pi i) O_CR);
    exit_if (fd <? 0) ("create failed" +:+ nl) [];;
    close_ fd;;
    if (0 <? i) && (i `rem` 2 =? 0) then
      r ← call (sys_unlink (cd_name pi (i `quot` 2)));
      exit_if (r <? 0) ("unlink failed" +:+ nl) []
    else mret tt).

Definition createdelete : U W unit :=
  say ("createdelete test" +:+ nl) [];;
  ufor 4 0 (λ pi,
    pid ← call sys_fork;
    exit_if (pid <? 0) ("fork failed" +:+ nl) [];;
    if pid =? 0 then createdelete_child pi;; uexit else mret tt);;
  ufor 4 0 (λ _, wait_);;
  ufor 20 0 (λ i, ufor 4 0 (λ pi,
    fd ← call (sys_open (cd_name pi i) 0);
    (if ((i =? 0) || (10 <=? i)) && (fd <? 0) then
       say ("oops createdelete %s didn't exist" +:+ nl) [AStr (cd_name pi i)];;
       uexit
     else exit_if (((1 <=? i) && (i <? 10)) && (0 <=? fd)) ("oops createdelete %s did exist" +:+ nl) [AStr (cd_name pi i)]);;
    (if 0 <=? fd then close_ fd else mret tt)));;
  ufor 20 0 (λ i, ufor 4 0 (λ pi, unlink_ (cd_name i i)));;
  say ("createdelete ok" +:+ nl) [].

Definition unlinkread : U W unit :=
  say ("unlinkread test" +:+ nl) [];;
  fd ← call (sys_open (codes "unlinkread") O_CR);
  exit_if (fd <? 0) ("create unlinkread failed" +:+ nl) [];;
  call (sys_write fd (codes "hello"));;
  close_ fd;;
  fd ← call (sys_open (codes "unlinkread") O_RDWR);
  exit_if (fd <? 0) ("open unlinkread failed" +:+ nl) [];;
  r ← call (sys_unlink (codes "unlinkread"));
  exit_if (negb (r =? 0)) ("unlink unlinkread failed" +:+ nl) [];;
  fd1 ← call (sys_open (codes "unlinkread") O_CR);
  call (sys_write fd1 (codes "yyy"));;
  close_ fd1;;
  r ← read_buf fd 8192;
  exit_if (negb (r =? 5)) "unlinkread read failed" [];;
  b ← buf_bytes;
  exit_if (negb (nth 0 b 0 =? chr "h")) ("unlinkread wrong data" +:+ nl) [];;
  r ← write_buf fd 10;
  exit_if (negb (r =? 10)) ("unlinkread write failed" +:+ nl) [];;
  close_ fd;;
  unlink_ (codes "unlinkread");;
  say ("unlinkread ok" +:+ nl) [].

Definition linktest : U W unit :=
  say ("linktest" +:+ nl) [];;
  unlink_ (codes "lf1");;
  unlink_ (codes "lf2");;
  fd ← call (sys_open (codes "lf1") O_CR);
  exit_if (fd <? 0) ("create lf1 failed" +:+ nl) [];;
  r ← call (sys_write fd (codes "hello"));
  exit_if (negb (r =? 5)) ("write lf1 failed" +:+ nl) [];;
  close_ fd;;
  r ← call (sys_link (codes "lf1") (codes "lf2"));
  exit_if (r <? 0) ("link lf1 lf2 failed" +:+ nl) [];;
  unlink_ (codes "lf1");;
  r ← call (sys_open (codes "lf1") 0);
  exit_if (0 <=? r) ("unlinked lf1 but it is still there!" +:+ nl) [];;
  fd ← call (sys_open (codes "lf2") 0);
  exit_if (fd <? 0) ("open lf2 failed" +:+ nl) [];;
  r ← read_buf fd 8192;
  exit_if (negb (r =? 5)) ("read lf2 failed" +:+ nl) [];;
  close_ fd;;
  r ← call (sys_link (codes "lf2") (codes "lf2"));
  exit_if (0 <=? r) ("link lf2 lf2 succeeded! oops" +:+ nl) [];;
  unlink_ (codes "lf2");;
  r ← call (sys_link (codes "lf2") (codes "lf1"));
  exit_if (0 <=? r) ("link non-existant succeeded! oops" +:+ nl) [];;
  r ← call (sys_link (codes ".") (codes "lf1"));
  exit_if (0 <=? r) ("link . lf1 succeeded! oops" +:+ nl) [];;
  say ("linktest ok" +:+ nl) [].

(** ** Concurrent creation and removal *)

(** The characters before the NUL. *)
Fixpoint cut0 (l : list Z) : list Z :=
  match l with
  | [] => []
  | c :: l' => if c =? 0 then [] else c :: cut0 l'
  end.

Definition C_name (i : Z) : list Z := [chr "C"; u8 (chr "0" + i)].

(** One entry of the directory; [fa] are the numbers seen, [n] how many. *)
Definition concreate_turn (fd : Z) (v : list Z * list bool * Z) : U W (list Z * list bool * Z + Z) :=
  let '(de, fa, n) := v in
  '(r, bytes) ← call (sys_read fd 16);
  let de := splice de 0 bytes in
  let name := drop 2 de in
  if negb (0 <? r) then mret (inr n) else
  if half_at de 0 =? 0 then mret (inl (de, fa, n)) else
  if (nth 0 name 0 =? chr "C") && (nth 2 name 0 =? 0) then
    let i := s8 (nth 1 name 0) - chr "0" in
    exit_if ((i <? 0) || (40 <=? i)) ("concreate weird file %s" +:+ nl) [AStr (cut0 name)];;
    exit_if (nth (Z.to_nat i) fa false) ("concreate duplicate file %s" +:+ nl) [AStr (cut0 name)];;
    mret (inl (de, <[Z.to_nat i := true]> fa, n + 1))
  else mret (inl (de, fa, n)).

Definition concreate : U W unit :=
  say ("concreate test" +:+ nl) [];;
  ufor 40 0 (λ i,
    let file := C_name i in
    unlink_ file;;
    pid ← call sys_fork;
    (if negb (pid =? 0) && (i `rem` 3 =? 1) then drop_ (call (sys_link (codes "C0") file))
     else if (pid =? 0) && (i `rem` 5 =? 1) then drop_ (call (sys_link (codes "C0") file))
     else
       fd ← call (sys_open file O_CR);
       exit_if (fd <? 0) ("concreate create %s failed" +:+ nl) [AStr file];;
       close_ fd);;
    if pid =? 0 then uexit else wait_);;
  fd ← call (sys_open (codes ".") 0);
  n ← uwhile fuel (concreate_turn fd) (replicate 16 0, replicate 40 false, 0);
  close_ fd;;
  exit_if (negb (n =? 40)) ("concreate not enough files in directory listing" +:+ nl) [];;
  ufor 40 0 (λ i,
    let file := C_name i in
    pid ← call sys_fork;
    exit_if (pid <? 0) ("fork failed" +:+ nl) [];;
    (if ((i `rem` 3 =? 0) && (pid =? 0)) || ((i `rem` 3 =? 1) && negb (pid =? 0)) then
       ufor 4 0 (λ _, fd ← call (sys_open file 0); close_ fd)
     else ufor 4 0 (λ _, unlink_ file));;
    if pid =? 0 then uexit else wait_);;
  say ("concreate ok" +:+ nl) [].

(** for(i = 0; i < 100; i++), [n] turns left, with the random number. *)
Fixpoint linkunlink_loop (n : nat) (x : Z) : U W unit :=
  match n with
  | O => mret tt
  | S n' =>
      let x := u32 (x * 1103515245 + 12345) in
      (if x `mod` 3 =? 0 then fd ← call (sys_open (codes "x") (Z.lor O_RDWR O_CREATE)); close_ fd
       else if x `mod` 3 =? 1 then drop_ (call (sys_link (codes "cat") (codes "x")))
       else unlink_ (codes "x"));;
      linkunlink_loop n' x
  end.

Definition linkunlink : U W unit :=
  say ("linkunlink test" +:+ nl) [];;
  unlink_ (codes "x");;
  pid ← call sys_fork;
  exit_if (pid <? 0) ("fork failed" +:+ nl) [];;
  linkunlink_loop 100 (if negb (pid =? 0) then 1 else 97);;
  (if negb (pid =? 0) then wait_ else uexit);;
  say ("linkunlink ok" +:+ nl) [].

(** ** Directories *)

Definition bd_name (i : Z) : list Z := [chr "x"; u8 (chr "0" + i `quot` 64); u8 (chr "0" + i `rem` 64)].

Definition bigdir : U W unit :=
  say ("bigdir test" +:+ nl) [];;
  unlink_ (codes "bd");;
  fd ← call (sys_open (codes "bd") O_CREATE);
  exit_if (fd <? 0) ("bigdir create failed" +:+ nl) [];;
  close_ fd;;
  ufor 500 0 (λ i,
    r ← call (sys_link (codes "bd") (bd_name i));
    exit_if (negb (r =? 0)) ("bigdir link failed" +:+ nl) []);;
  unlink_ (codes "bd");;
  ufor 500 0 (λ i,
    r ← call (sys_unlink (bd_name i));
    exit_if (negb (r =? 0)) "bigdir unlink failed" []);;
  say ("bigdir ok" +:+ nl) [].

Definition subdir : U W unit :=
  say ("subdir test" +:+ nl) [];;
  unlink_ (codes "ff");;
  r ← call (sys_mkdir (codes "dd"));
  exit_if (negb (r =? 0)) ("subdir mkdir dd failed" +:+ nl) [];;
  fd ← call (sys_open (codes "dd/ff") O_CR);
  exit_if (fd <? 0) ("create dd/ff failed" +:+ nl) [];;
  call (sys_write fd (codes "ff"));;
  close_ fd;;
  r ← call (sys_unlink (codes "dd"));
  exit_if (0 <=? r) ("unlink dd (non-empty dir) succeeded!" +:+ nl) [];;
  r ← call (sys_mkdir (codes "/dd/dd"));
  exit_if (negb (r =? 0)) ("subdir mkdir dd/dd failed" +:+ nl) [];;
  fd ← call (sys_open (codes "dd/dd/ff") O_CR);
  exit_if (fd <? 0) ("create dd/dd/ff failed" +:+ nl) [];;
  call (sys_write fd (codes "FF"));;
  close_ fd;;
  fd ← call (sys_open (codes "dd/dd/../ff") 0);
  exit_if (fd <? 0) ("open dd/dd/../ff failed" +:+ nl) [];;
  cc ← read_buf fd 8192;
  b ← buf_bytes;
  exit_if (negb (cc =? 2) || negb (nth 0 b 0 =? chr "f")) ("dd/dd/../ff wrong content" +:+ nl) [];;
  close_ fd;;
  r ← call (sys_link (codes "dd/dd/ff") (codes "dd/dd/ffff"));
  exit_if (negb (r =? 0)) ("link dd/dd/ff dd/dd/ffff failed" +:+ nl) [];;
  r ← call (sys_unlink (codes "dd/dd/ff"));
  exit_if (negb (r =? 0)) ("unlink dd/dd/ff failed" +:+ nl) [];;
  r ← call (sys_open (codes "dd/dd/ff") O_RDONLY);
  exit_if (0 <=? r) ("open (unlinked) dd/dd/ff succeeded" +:+ nl) [];;
  r ← call (sys_chdir (codes "dd"));
  exit_if (negb (r =? 0)) ("chdir dd failed" +:+ nl) [];;
  r ← call (sys_chdir (codes "dd/../../dd"));
  exit_if (negb (r =? 0)) ("chdir dd/../../dd failed" +:+ nl) [];;
  r ← call (sys_chdir (codes "dd/../../../dd"));
  exit_if (negb (r =? 0)) ("chdir dd/../../dd failed" +:+ nl) [];;
  r ← call (sys_chdir (codes "./.."));
  exit_if (negb (r =? 0)) ("chdir ./.. failed" +:+ nl) [];;
  fd ← call (sys_open (codes "dd/dd/ffff") 0);
  exit_if (fd <? 0) ("open dd/dd/ffff failed" +:+ nl) [];;
  r ← read_buf fd 8192;
  exit_if (negb (r =? 2)) ("read dd/dd/ffff wrong len" +:+ nl) [];;
  close_ fd;;
  r ← call (sys_open (codes "dd/dd/ff") O_RDONLY);
  exit_if (0 <=? r) ("open (unlinked) dd/dd/ff succeeded!" +:+ nl) [];;
  r ← call (sys_open (codes "dd/ff/ff") O_CR);
  exit_if (0 <=? r) ("create dd/ff/ff succeeded!" +:+ nl) [];;
  r ← call (sys_open (codes "dd/xx/ff") O_CR);
  exit_if (0 <=? r) ("create dd/xx/ff succeeded!" +:+ nl) [];;
  r ← call (sys_open (codes "dd") O_CREATE);
  exit_if (0 <=? r) ("create dd succeeded!" +:+ nl) [];;
  r ← call (sys_open (codes "dd") O_RDWR);
  exit_if (0 <=? r) ("open dd rdwr succeeded!" +:+ nl) [];;
  r ← call (sys_open (codes "dd") O_WRONLY);
  exit_if (0 <=? r) ("open dd wronly succeeded!" +:+ nl) [];;
  r ← call (sys_link (codes "dd/ff/ff") (codes "dd/dd/xx"));
  exit_if (r =? 0) ("link dd/ff/ff dd/dd/xx succeeded!" +:+ nl) [];;
  r ← call (sys_link (codes "dd/xx/ff") (codes "dd/dd/xx"));
  exit_if (r =? 0) ("link dd/xx/ff dd/dd/xx succeeded!" +:+ nl) [];;
  r ← call (sys_link (codes "dd/ff") (codes "dd/dd/ffff"));
  exit_if (r =? 0) ("link dd/ff dd/dd/ffff succeeded!" +:+ nl) [];;
  r ← call (sys_mkdir (codes "dd/ff/ff"));
  exit_if (r =? 0) ("mkdir dd/ff/ff succeeded!" +:+ nl) [];;
  r ← call (sys_mkdir (codes "dd/xx/ff"));
  exit_if (r =? 0) ("mkdir dd/xx/ff succeeded!" +:+ nl) [];;
  r ← call (sys_mkdir (codes "dd/dd/ffff"));
  exit_if (r =? 0) ("mkdir dd/dd/ffff succeeded!" +:+ nl) [];;
  r ← call (sys_unlink (codes "dd/xx/ff"));
  exit_if (r =? 0) ("unlink dd/xx/ff succeeded!" +:+ nl) [];;
  r ← call (sys_unlink (codes "dd/ff/ff"));
  exit_if (r =? 0) ("unlink dd/ff/ff succeeded!" +:+ nl) [];;
  r ← call (sys_chdir (codes "dd/ff"));
  exit_if (r =? 0) ("chdir dd/ff succeeded!" +:+ nl) [];;
  r ← call (sys_chdir (codes "dd/xx"));
  exit_if (r =? 0) ("chdir dd/xx succeeded!" +:+ nl) [];;
  r ← call (sys_unlink (codes "dd/dd/ffff"));
  exit_if (negb (r =? 0)) ("unlink dd/dd/ff failed" +:+ nl) [];;
  r ← call (sys_unlink (codes "dd/ff"));
  exit_if (negb (r =? 0)) ("unlink dd/ff failed" +:+ nl) [];;
  r ← call (sys_unlink (codes "dd"));
  exit_if (r =? 0) ("unlink non-empty dd succeeded!" +:+ nl) [];;
  r ← call (sys_unlink (codes "dd/dd"));
  exit_if (r <? 0) ("unlink dd/dd failed" +:+ nl) [];;
  r ← call (sys_unlink (codes "dd"));
  exit_if (r <? 0) ("unlink dd failed" +:+ nl) [];;
  say ("subdir ok" +:+ nl) [].

(** ** Large files *)

(** for(sz = 499; sz < 12*512; sz += 471): 12 turns. *)
Fixpoint bigwrite_loop (n : nat) (sz : Z) : U W unit :=
  match n with
  | O => mret tt
  | S n' =>
      if negb (sz <? 12 * 512) then mret tt else
      fd ← call (sys_open (codes "bigwrite") O_CR);
      exit_if (fd <? 0) ("cannot create bigwrite" +:+ nl) [];;
      ufor 2 0 (λ _,
        cc ← write_buf fd sz;
        exit_if (negb (cc =? sz)) ("write(%d) ret %d" +:+ nl) [AInt sz; AInt cc]);;
      close_ fd;;
      unlink_ (codes "bigwrite");;
      bigwrite_loop n' (sz + 471)
  end.

Definition bigwrite : U W unit :=
  say ("bigwrite test" +:+ nl) [];;
  unlink_ (codes "bigwrite");;
  bigwrite_loop 13 499;;
  say ("bigwrite ok" +:+ nl) [].

Definition bigfile_turn (fd : Z) (v : Z * Z) : U W (Z * Z + Z) :=
  let '(i, total) := v in
  cc ← read_buf fd 300;
  exit_if (cc <? 0) ("read bigfile failed" +:+ nl) [];;
  if cc =? 0 then mret (inr total) else
  exit_if (negb (cc =? 300)) ("short read bigfile" +:+ nl) [];;
  b ← buf_bytes;
  exit_if (negb (nth 0 b 0 =? i `quot` 2) || negb (nth 299 b 0 =? i `quot` 2)) ("read bigfile wrong data" +:+ nl) [];;
  mret (inl (i + 1, total + cc)).

Definition bigfile : U W unit :=
  say ("bigfile test" +:+ nl) [];;
  unlink_ (codes "bigfile");;
  fd ← call (sys_open (codes "bigfile") O_CR);
  exit_if (fd <? 0) "cannot create bigfile" [];;
  ufor 20 0 (λ i,
    memset_buf i 600;;
    r ← write_buf fd 600;
    exit_if (negb (r =? 600)) ("write bigfile failed" +:+ nl) []);;
  close_ fd;;
  fd ← call (sys_open (codes "bigfile") 0);
  exit_if (fd <? 0) ("cannot open bigfile" +:+ nl) [];;
  total ← uwhile fuel (bigfile_turn fd) (0, 0);
  close_ fd;;
  exit_if (negb (total =? 20 * 600)) ("read bigfile wrong total" +:+ nl) [];;
  unlink_ (codes "bigfile");;
  say ("bigfile test ok" +:+ nl) [].

Definition fourteen : U W unit :=
  say ("fourteen test" +:+ nl) [];;
  r ← call (sys_mkdir (codes "12345678901234"));
  exit_if (negb (r =? 0)) ("mkdir 12345678901234 failed" +:+ nl) [];;
  r ← call (sys_mkdir (codes "12345678901234/123456789012345"));
  exit_if (negb (r =? 0)) ("mkdir 12345678901234/123456789012345 failed" +:+ nl) [];;
  fd ← call (sys_open (codes "123456789012345/123456789012345/123456789012345") O_CREATE);
  exit_if (fd <? 0) ("create 123456789012345/123456789012345/123456789012345 failed" +:+ nl) [];;
  close_ fd;;
  fd ← call (sys_open (codes "12345678901234/12345678901234/12345678901234") 0);
  exit_if (fd <? 0) ("open 12345678901234/12345678901234/12345678901234 failed" +:+ nl) [];;
  close_ fd;;
  r ← call (sys_mkdir (codes "12345678901234/12345678901234"));
  exit_if (r =? 0) ("mkdir 12345678901234/12345678901234 succeeded!" +:+ nl) [];;
  r ← call (sys_mkdir (codes "123456789012345/12345678901234"));
  exit_if (r =? 0) ("mkdir 12345678901234/123456789012345 succeeded!" +:+ nl) [];;
  say ("fourteen ok" +:+ nl) [].

Definition rmdot : U W unit :=
  say ("rmdot test" +:+ nl) [];;
  r ← call (sys_mkdir (codes "dots"));
  exit_if (negb (r =? 0)) ("mkdir dots failed" +:+ nl) [];;
  r ← call (sys_chdir (codes "dots"));
  exit_if (negb (r =? 0)) ("chdir dots failed" +:+ nl) [];;
  r ← call (sys_unlink (codes "."));
  exit_if (r =? 0) ("rm . worked!" +:+ nl) [];;
  r ← call (sys_unlink (codes ".."));
  exit_if (r =? 0) ("rm .. worked!" +:+ nl) [];;
  r ← call (sys_chdir (codes "/"));
  exit_if (negb (r =? 0)) ("chdir / failed" +:+ nl) [];;
  r ← call (sys_unlink (codes "dots/."));
  exit_if (r =? 0) ("unlink dots/. worked!" +:+ nl) [];;
  r ← call (sys_unlink (codes "dots/.."));
  exit_if (r =? 0) ("unlink dots/.. worked!" +:+ nl) [];;
  r ← call (sys_unlink (codes "dots"));
  exit_if (negb (r =? 0)) ("unlink dots failed!" +:+ nl) [];;
  say ("rmdot ok" +:+ nl) [].

Definition dirfile : U W unit :=
  say ("dir vs file" +:+ nl) [];;
  fd ← call (sys_open (codes "dirfile") O_CREATE);
  exit_if (fd <? 0) ("create dirfile failed" +:+ nl) [];;
  close_ fd;;
  r ← call (sys_chdir (codes "dirfile"));
  exit_if (r =? 0) ("chdir dirfile succeeded!" +:+ nl) [];;
  fd ← call (sys_open (codes "dirfile/xx") 0);
  exit_if (0 <=? fd) ("create dirfile/xx succeeded!" +:+ nl) [];;
  fd ← call (sys_open (codes "dirfile/xx") O_CREATE);
  exit_if (0 <=? fd) ("create dirfile/xx succeeded!" +:+ nl) [];;
  r ← call (sys_mkdir (codes "dirfile/xx"));
  exit_if (r =? 0) ("mkdir dirfile/xx succeeded!" +:+ nl) [];;
  r ← call (sys_unlink (codes "dirfile/xx"));
  exit_if (r =? 0) ("unlink dirfile/xx succeeded!" +:+ nl) [];;
  r ← call (sys_link (codes "README") (codes "dirfile/xx"));
  exit_if (r =? 0) ("link to dirfile/xx succeeded!" +:+ nl) [];;
  r ← call (sys_unlink (codes "dirfile"));
  exit_if (negb (r =? 0)) ("unlink dirfile failed!" +:+ nl) [];;
  fd ← call (sys_open (codes ".") O_RDWR);
  exit_if (0 <=? fd) ("open . for writing succeeded!" +:+ nl) [];;
  fd ← call (sys_open (codes ".") 0);
  r ← call (sys_write fd (codes "x"));
  exit_if (0 <? r) ("write . succeeded!" +:+ nl) [];;
  close_ fd;;
  say ("dir vs file OK" +:+ nl) [].

Definition iref_turn (_ : Z) : U W unit :=
  r ← call (sys_mkdir (codes "irefd"));
  exit_if (negb (r =? 0)) ("mkdir irefd failed" +:+ nl) [];;
  r ← call (sys_chdir (codes "irefd"));
  exit_if (negb (r =? 0)) ("chdir irefd failed" +:+ nl) [];;
  call (sys_mkdir (codes ""));;
  call (sys_link (codes "README") (codes ""));;
  fd ← call (sys_open (codes "") O_CREATE);
  (if 0 <=? fd then close_ fd else mret tt);;
  fd ← call (sys_open (codes "xx") O_CREATE);
  (if 0 <=? fd then close_ fd else mret tt);;
  unlink_ (codes "xx").

Definition iref : U W unit :=
  say ("empty file name" +:+ nl) [];;
  ufor (50 + 1) 0 iref_turn;;
  call (sys_chdir (codes "/"));;
  say ("empty file name OK" +:+ nl) [].

(** ** Limits *)

(** for(n=0; n<1000; n++): the number of children; [k] turns are left. *)
Fixpoint fork_many (k : nat) (n : Z) : U W Z :=
  match k with
  | O => mret n
  | S k' =>
      pid ← call sys_fork;
      if pid <? 0 then mret n else
      if pid =? 0 then uexit else
      fork_many k' (n + 1)
  end.

Definition forktest : U W unit :=
  say ("fork test" +:+ nl) [];;
  n ← fork_many 1000 0;
  exit_if (n =? 1000) ("fork claimed to work 1000 times!" +:+ nl) [];;
  ufor (Z.to_nat n) 0 (λ _,
    r ← call sys_wait;
    exit_if (r <? 0) ("wait stopped early" +:+ nl) []);;
  r ← call sys_wait;
  exit_if (negb (r =? -1)) ("wait got too many" +:+ nl) [];;
  say ("fork test OK" +:+ nl) [].

(** sbrk() as a pointer. *)
Definition sbrk (n : Z) : U W Z :=
  r ← call (sys_sbrk (s32 n));
  mret (u32 r).
Definition BIG : Z := 100 * 1024 * 1024.
Definition NOPTR : Z := 0xffffffff.

(** for(i = 0; i < 5000; i++): a byte at a time, [n] turns left. *)
Fixpoint sbrk_bytes (n : nat) (i a : Z) : U W Z :=
  match n with
  | O => mret a
  | S n' =>
      b ← sbrk 1;
      exit_if (negb (b =? a)) ("sbrk test failed %d %x %x" +:+ nl) [AInt i; AInt a; AInt b];;
      store b 1;;
      sbrk_bytes n' (i + 1) (u32 (b + 1))
  end.

(** Can one grow, shrink and grow again? [oldbrk] is given back. *)
Definition sbrk_resize (oldbrk : Z) : U W unit :=
  a ← sbrk 0;
  let amt := u32 (BIG - a) in
  p ← sbrk amt;
  exit_if (negb (p =? a)) ("sbrk test failed to grow big address space; enough phys mem?" +:+ nl) [];;
  let lastaddr := BIG - 1 in
  store lastaddr 99;;
  a ← sbrk 0;
  c ← sbrk (-4096);
  exit_if (c =? NOPTR) ("sbrk could not deallocate" +:+ nl) [];;
  c ← sbrk 0;
  exit_if (negb (c =? u32 (a - 4096))) ("sbrk deallocation produced wrong address, a %x c %x" +:+ nl) [AInt a; AInt c];;
  a ← sbrk 0;
  c ← sbrk 4096;
  bad ← (if negb (c =? a) then mret true else s ← sbrk 0; mret (negb (s =? u32 (a + 4096))));
  exit_if bad ("sbrk re-allocation failed, a %x c %x" +:+ nl) [AInt a; AInt c];;
  v ← load lastaddr;
  exit_if (s8 v =? 99) ("sbrk de-allocation didn't really deallocate" +:+ nl) [];;
  a ← sbrk 0;
  s ← sbrk 0;
  c ← sbrk (- (s - oldbrk));
  exit_if (negb (c =? a)) ("sbrk downsize failed, a %x c %x" +:+ nl) [AInt a; AInt c].

(** Can we read the kernel's memory? *)
Definition sbrk_kernel (a : Z) : U W unit :=
  ppid ← call sys_getpid;
  pid ← call sys_fork;
  exit_if (pid <? 0) ("fork failed" +:+ nl) [];;
  (if pid =? 0 then
     v ← load a;
     say ("oops could read %x = %x" +:+ nl) [AInt a; AInt (s8 v)];;
     call (sys_kill ppid);;
     uexit
   else mret tt);;
  wait_.

(** The ten children that take a lot of memory: their pids. *)
Fixpoint sbrk_children (n : nat) (fd0 fd1 : Z) : U W (list Z) :=
  match n with
  | O => mret []
  | S n' =>
      pid ← call sys_fork;
      (if pid =? 0 then
         s ← sbrk 0;
         sbrk (u32 (BIG - s));;
         call (sys_write fd1 (codes "x"));;
         uwhile fuel (λ _, call (sys_sleep 1000);; mret (inl tt)) tt
       else mret tt);;
      (if negb (pid =? -1) then drop_ (call (sys_read fd0 1)) else mret tt);;
      l ← sbrk_children n' fd0 fd1;
      mret (pid :: l)
  end.

Definition sbrktest : U W unit :=
  say ("sbrk test" +:+ nl) [];;
  oldbrk ← sbrk 0;
  a ← sbrk 0;
  a ← sbrk_bytes 5000 0 a;
  pid ← call sys_fork;
  exit_if (pid <? 0) ("sbrk test fork failed" +:+ nl) [];;
  sbrk 1;;
  c ← sbrk 1;
  exit_if (negb (c =? u32 (a + 1))) ("sbrk test failed post-fork" +:+ nl) [];;
  (if pid =? 0 then uexit else mret tt);;
  wait_;;
  sbrk_resize oldbrk;;
  ufor 40 0 (λ i, sbrk_kernel (KERNBASE + 50000 * i));;
  '(r, (fd0, fd1)) ← call sys_pipe;
  exit_if (negb (r =? 0)) ("pipe() failed" +:+ nl) [];;
  pids ← sbrk_children 10 fd0 fd1;
  c ← sbrk 4096;
  uforeach pids (λ pid, if pid =? -1 then mret tt else call (sys_kill pid);; wait_);;
  exit_if (c =? NOPTR) ("failed sbrk leaked memory" +:+ nl) [];;
  s ← sbrk 0;
  (if oldbrk <? s then s' ← sbrk 0; drop_ (sbrk (- (s' - oldbrk))) else mret tt);;
  say ("sbrk test OK" +:+ nl) [].

Definition validateint (p : Z) : U W unit := drop_ (call (bare_sleep p)).

(** for(p = 0; p <= 1100*1024; p += 4096) *)
Definition validate_turn (i : Z) : U W unit :=
  let p := 4096 * i in
  pid ← call sys_fork;
  (if pid =? 0 then validateint p;; uexit else mret tt);;
  call (sys_sleep 0);;
  call (sys_sleep 0);;
  call (sys_kill pid);;
  wait_;;
  r ← call (link_ptr (codes "nosuchfile") p);
  exit_if (negb (r =? -1)) ("link should not succeed" +:+ nl) [].

Definition validatetest : U W unit :=
  say ("validate test" +:+ nl) [];;
  ufor 276 0 validate_turn;;
  say ("validate ok" +:+ nl) [].

Definition bsstest : U W unit :=
  say ("bss test" +:+ nl) [];;
  u ← call (λ w, (prog_uninit w, w));
  exit_if (negb (forallb (λ b, b =? 0) u)) ("bss test failed" +:+ nl) [];;
  say ("bss test ok" +:+ nl) [].

Definition bigarg : list Z := codes ("bigargs test: failed" +:+ nl) ++ replicate 199 32.

Definition bigargtest : U W unit :=
  unlink_ (codes "bigarg-ok");;
  pid ← call sys_fork;
  (if pid =? 0 then
     say ("bigarg test" +:+ nl) [];;
     exec (codes "echo") (replicate (MAXARG - 1) bigarg);;
     say ("bigarg test ok" +:+ nl) [];;
     fd ← call (sys_open (codes "bigarg-ok") O_CREATE);
     close_ fd;;
     uexit
   else exit_if (pid <? 0) ("bigargtest: fork failed" +:+ nl) []);;
  wait_;;
  fd ← call (sys_open (codes "bigarg-ok") 0);
  exit_if (fd <? 0) ("bigarg test failed!" +:+ nl) [];;
  close_ fd;;
  unlink_ (codes "bigarg-ok").

Definition ff_name (n : Z) : list Z :=
  [chr "f"; u8 (chr "0" + n `quot` 1000); u8 (chr "0" + (n `rem` 1000) `quot` 100); u8 (chr "0" + (n `rem` 100) `quot` 10); u8 (chr "0" + n `rem` 10)].

Definition fsfull_write_turn (fd total : Z) : U W (Z + Z) :=
  cc ← write_buf fd 512;
  if cc <? 512 then mret (inr total) else mret (inl (total + cc)).

Definition fsfull_turn (nfiles : Z) : U W (Z + Z) :=
  let name := ff_name nfiles in
  say ("writing %s" +:+ nl) [AStr name];;
  fd ← call (sys_open name O_CR);
  if fd <? 0 then say ("open %s failed" +:+ nl) [AStr name];; mret (inr nfiles) else
  total ← uwhile fuel (fsfull_write_turn fd) 0;
  say ("wrote %d bytes" +:+ nl) [AInt total];;
  close_ fd;;
  if total =? 0 then mret (inr nfiles) else mret (inl (nfiles + 1)).

Definition fsfull : U W unit :=
  say ("fsfull test" +:+ nl) [];;
  nfiles ← uwhile fuel fsfull_turn 0;
  uforeach (reverse (List.seq 0 (Z.to_nat (nfiles + 1)))) (λ n, unlink_ (ff_name (Z.of_nat n)));;
  say ("fsfull test finished" +:+ nl) [].

(** An instruction that a user process must not execute. *)
Definition outb_ (port v : Z) : U W unit := λ w,
  match port_out port v w with
  | (true, w') => URet tt w'
  | (false, w') => UExit w'
  end.
Definition inb_ (port : Z) : U W Z := λ w,
  match port_in port w with
  | (Some v, w') => URet v w'
  | (None, w') => UExit w'
  end.

Definition uio : U W unit :=
  say ("uio test" +:+ nl) [];;
  pid ← call sys_fork;
  (if pid =? 0 then
     outb_ 0x70 0x09;;
     inb_ 0x71;;
     say ("uio: uio succeeded; test FAILED" +:+ nl) [];;
     uexit
   else exit_if (pid <? 0) ("fork failed" +:+ nl) []);;
  wait_;;
  say ("uio test done" +:+ nl) [].

Definition argptest : U W unit :=
  fd ← call (sys_open (codes "init") O_RDONLY);
  (if fd <? 0 then printf 2 ("open failed" +:+ nl) [];; uexit else mret tt);;
  s ← sbrk 0;
  call (read_ptr fd (u32 (s - 1)) (-1));;
  close_ fd;;
  say ("arg test passed" +:+ nl) [].

(** rand(): the new state is the result. *)
Definition rand (randstate : Z) : Z := u32 (randstate * 1664525 + 1013904223).

Definition usertests_main : U W unit :=
  say ("usertests starting" +:+ nl) [];;
  fd ← call (sys_open (codes "usertests.ran") 0);
  exit_if (0 <=? fd) ("already ran user tests -- rebuild fs.img" +:+ nl) [];;
  fd ← call (sys_open (codes "usertests.ran") O_CREATE);
  close_ fd;;
  argptest;;
  createdelete;;
  linkunlink;;
  concreate;;
  fourfiles;;
  sharedfd;;
  bigargtest;;
  bigwrite;;
  bigargtest;;
  bsstest;;
  sbrktest;;
  validatetest;;
  opentest;;
  writetest;;
  writetest1;;
  createtest;;
  openiputtest;;
  exitiputtest;;
  iputtest;;
  mem;;
  pipe1;;
  preempt;;
  exitwait;;
  rmdot;;
  fourteen;;
  bigfile;;
  subdir;;
  linktest;;
  unlinkread;;
  dirfile;;
  iref;;
  forktest;;
  bigdir;;
  uio;;
  exectest;;
  uexit.

End tests.
