(* ===== verification/Mp.v ===== *)
(** * mp.c: finding the processors

    mpinit() reads the tables that the BIOS leaves in memory. [mem] is that
    memory, one byte at each virtual address; the numbers of several bytes are
    little-endian. The fields of struct mp, mpconf, mpproc and mpioapic (mp.h)
    are read at their offsets. *)
From S2P Require Import Prelude.
From S2P Require Import Kernel.
From S2P Require Import Cprintf.

Section mp.
Context (mem : Z → Z).

Definition rd16 (a : Z) : Z := mem a + 256 * mem (a + 1).
Definition rd32 (a : Z) : Z := rd16 a + 65536 * rd16 (a + 2).

(** for(i=0; i<len; i++) sum += addr[i] *)
Fixpoint sum_loop (n : nat) (addr s : Z) : Z :=
  match n with
  | O => s
  | S n' => sum_loop n' (addr + 1) (s32 (s + mem addr))
  end.
Definition sum (addr len : Z) : Z := u8 (sum_loop (Z.to_nat len) addr 0).

(** memcmp(p, s, 4) == 0 *)
Fixpoint bytes_at (p : Z) (l : list Z) : bool :=
  match l with
  | [] => true
  | c :: l' => (mem p =? c) && bytes_at (p + 1) l'
  end.

(** sizeof(struct mp), struct mpconf, struct mpproc and struct mpioapic. *)
Definition MPSIZE : Z := 16.
Definition CONFSIZE : Z := 44.
Definition PROCSIZE : Z := 20.
Definition IOAPICSIZE : Z := 8.

(** The loop of mpsearch1(): [n] steps are left before the end. *)
Fixpoint search_loop (n : nat) (p e : Z) : option Z :=
  match n with
  | O => None
  | S n' =>
      if negb (p <? e) then None else
      if bytes_at p (codes "_MP_") && (sum p MPSIZE =? 0) then Some p
      else search_loop n' (p + MPSIZE) e
  end.
Definition mpsearch1 (a len : Z) : option Z :=
  let addr := P2V a in
  search_loop (Z.to_nat len) addr (addr + len).

Definition mpsearch : option Z :=
  let bda := P2V 0x400 in
  let p := Z.shiftl (Z.lor (Z.shiftl (mem (bda + 0x0F)) 8) (mem (bda + 0x0E))) 4 in
  let found :=
    if negb (p =? 0) then mpsearch1 p 1024
    else
      let p := Z.lor (Z.shiftl (mem (bda + 0x14)) 8) (mem (bda + 0x13)) * 1024 in
      mpsearch1 (u32 (p - 1024)) 1024 in
  match found with
  | Some mp => Some mp
  | None => mpsearch1 0xF0000 0x10000
  end.

(** The struct mp and the struct mpconf. *)
Definition mpconfig : option (Z * Z) :=
  match mpsearch with
  | None => None
  | Some mp =>
      if rd32 (mp + 4) =? 0 then None else
      let conf := P2V (rd32 (mp + 4)) in
      if negb (bytes_at conf (codes "PCMP")) then None else
      if negb (mem (conf + 6) =? 1) && negb (mem (conf + 6) =? 4) then None else
      if negb (sum conf (rd16 (conf + 4)) =? 0) then None else
      Some (mp, conf)
  end.

Definition MPPROC : Z := 0.
Definition MPBUS : Z := 1.
Definition MPIOAPIC : Z := 2.
Definition MPIOINTR : Z := 3.
Definition MPLINTR : Z := 4.

Definition NCPU : Z := 8.

(** cpus[0], ..., cpus[ncpu-1] (their APIC ids), ioapicid and ismp. *)
Record found : Type := mk_found { apicids : list Z; ioapicid : Z; ismp : bool }.

(** One turn of the loop: the [break] of the default case only leaves the
    switch. *)
Definition mp_turn (p : Z) (s : found) : Z * found :=
  if mem p =? MPPROC then
    (p + PROCSIZE,
     if Z.of_nat (length s.(apicids)) <? NCPU
     then mk_found (s.(apicids) ++ [mem (p + 1)]) s.(ioapicid) s.(ismp) else s)
  else if mem p =? MPIOAPIC then (p + IOAPICSIZE, mk_found s.(apicids) (mem (p + 1)) s.(ismp))
  else if (mem p =? MPBUS) || (mem p =? MPIOINTR) || (mem p =? MPLINTR) then (p + 8, s)
  else (p, mk_found s.(apicids) s.(ioapicid) false).

Fixpoint mp_loop (fuel : nat) (p e : Z) (s : found) : option found :=
  match fuel with
  | O => None
  | S f => if p <? e then let '(p', s') := mp_turn p s in mp_loop f p' e s' else Some s
  end.

(** What mpinit() leaves: the message of panic(), the loop still running, or
    lapic, the processors found and the bytes sent to ports. *)
Inductive mpresult : Type :=
| MpPanic (msg : string)
| MpRunning
| MpDone (lapic : Z) (s : found) (outs : list (Z * Z)).

Definition mpinit (fuel : nat) (s : found) (imcr : Z) : mpresult :=
  match mpconfig with
  | None => MpPanic "Expect to run on an SMP"
  | Some (mp, conf) =>
      let s := mk_found s.(apicids) s.(ioapicid) true in
      let lapic := rd32 (conf + 36) in
      match mp_loop fuel (conf + CONFSIZE) (conf + rd16 (conf + 4)) s with
      | None => MpRunning
      | Some s =>
          if negb s.(ismp) then MpPanic "Didn't find a suitable machine"
          else MpDone lapic s (if negb (mem (mp + 12) =? 0) then [(0x22, 0x70); (0x23, Z.lor imcr 1)] else [])
      end
  end.

(** ** The search *)

(** The bytes at [p] are a struct mp. *)
Definition is_mp (p : Z) : bool := bytes_at p (codes "_MP_") && (sum p MPSIZE =? 0).

(** The first one at a multiple of its size from the start of the area. *)
Lemma search_loop_spec n p e : (e - p <= Z.of_nat n * MPSIZE) →
  match search_loop n p e with
  | Some q => is_mp q = true ∧ ∃ k, 0 <= k ∧ q = p + k * MPSIZE ∧ q < e ∧ ∀ j, 0 <= j < k → is_mp (p + j * MPSIZE) = false
  | None => ∀ j, 0 <= j → p + j * MPSIZE < e → is_mp (p + j * MPSIZE) = false
  end.
Proof.
  unfold MPSIZE. revert p. induction n as [|n IH]; intros p Hn; cbn [search_loop]; [intros; lia|].
  destruct (Z.ltb_spec p e) as [Hlt|]; cbn [negb]; [|intros; lia]. fold (is_mp p). destruct (is_mp p) eqn:Em.
  - split; [done|]. exists 0. split_and!; lia.
  - specialize (IH (p + 16) ltac:(lia)). unfold MPSIZE. destruct (search_loop n (p + 16) e) as [q|].
    + destruct IH as (Hq & k & Hk & -> & Hlt' & Hall). split; [done|]. exists (k + 1). split_and!; [lia|lia|lia|].
      intros j Hj. destruct (decide (j = 0)) as [->|]; [by rewrite Z.mul_0_l, Z.add_0_r|].
      replace (p + j * 16) with (p + 16 + (j - 1) * 16) by lia. apply Hall. lia.
    + intros j Hj Hlt'. destruct (decide (j = 0)) as [->|]; [by rewrite Z.mul_0_l, Z.add_0_r|].
      replace (p + j * 16) with (p + 16 + (j - 1) * 16) by lia. apply IH; lia.
Qed.

(** ** The table *)

Inductive entry : Type := Proc (apicid : Z) | Ioapic (apicno : Z) | Skipped (ty : Z).

Definition entry_size (x : entry) : Z := match x with Proc _ => PROCSIZE | _ => 8 end.

Definition entry_at (p : Z) (x : entry) : Prop :=
  match x with
  | Proc id => mem p = MPPROC ∧ mem (p + 1) = id
  | Ioapic n => mem p = MPIOAPIC ∧ mem (p + 1) = n
  | Skipped ty => mem p = ty ∧ (ty = MPBUS ∨ ty = MPIOINTR ∨ ty = MPLINTR)
  end.

(** The entries [l] from [p] to [e]. *)
Fixpoint entries (p e : Z) (l : list entry) : Prop :=
  match l with
  | [] => p = e
  | x :: l' => entry_at p x ∧ entries (p + entry_size x) e l'
  end.

Definition procs (l : list entry) : list Z := omap (λ x, match x with Proc id => Some id | _ => None end) l.
Definition last_ioapic (n : Z) (l : list entry) : Z := foldl (λ n x, match x with Ioapic m => m | _ => n end) n l.

(** The processors of the table after those known, NCPU at most. *)
Definition table_found (s : found) (l : list entry) : found :=
  mk_found (take (Z.to_nat NCPU) (s.(apicids) ++ procs l)) (last_ioapic s.(ioapicid) l) s.(ismp).

Lemma entries_le p e l : entries p e l → p <= e.
Proof. revert p. induction l as [|x l IH]; intros p; cbn [entries]; [lia|]. intros [_ H]. specialize (IH _ H). destruct x; unfold entry_size, PROCSIZE in *; lia. Qed.

Lemma mp_turn_entry p x s : entry_at p x → Z.of_nat (length s.(apicids)) <= NCPU →
  mp_turn p s = (p + entry_size x, table_found s [x]).
Proof.
  unfold mp_turn, table_found. intros Hx Hlen. destruct s as [ids io mpb]. cbn [apicids] in *.
  destruct x as [id|m|ty]; cbn [entry_at entry_size] in *; cbn [procs omap list_omap last_ioapic foldl].
  - destruct Hx as [-> ->]. rewrite Z.eqb_refl. f_equal. destruct (Z.ltb_spec (Z.of_nat (length ids)) NCPU).
    + by rewrite take_ge by (rewrite length_app; cbn [length]; lia).
    + f_equal. by rewrite take_app_le, take_ge by lia.
  - destruct Hx as [-> ->]. cbn. rewrite app_nil_r, take_ge by lia. done.
  - rewrite app_nil_r, take_ge by lia. destruct Hx as [-> [-> | [-> | ->]]]; done.
Qed.

Lemma table_found_cons s x l : table_found (table_found s [x]) l = table_found s (x :: l).
Proof.
  unfold table_found. cbn [apicids ioapicid ismp]. f_equal.
  replace (procs (x :: l)) with (procs [x] ++ procs l) by (destruct x; done). rewrite app_assoc. generalize (s.(apicids) ++ procs [x]) (procs l). clear.
  intros a b. destruct (decide (length a <= Z.to_nat NCPU)%nat).
  - by rewrite (take_ge a) by lia.
  - rewrite !take_app_le by (rewrite ?length_take; lia). rewrite take_take. by rewrite Nat.min_id.
Qed.

Lemma mp_loop_table l : ∀ fuel p e s, entries p e l → (length l < fuel)%nat → Z.of_nat (length s.(apicids)) <= NCPU →
  mp_loop fuel p e s = Some (table_found s l).
Proof.
  induction l as [|x l IH]; intros fuel p e s Hl Hf Hn; (destruct fuel as [|fuel]; [cbn [length] in Hf; lia|]); cbn [mp_loop entries] in *.
  - subst p. rewrite Z.ltb_irrefl. unfold table_found. cbn [procs omap list_omap last_ioapic foldl]. rewrite app_nil_r, take_ge by lia. by destruct s.
  - destruct Hl as [Hx Hl]. pose proof (entries_le _ _ _ Hl). rewrite (proj2 (Z.ltb_lt _ _)) by (destruct x; unfold entry_size, PROCSIZE in *; lia).
    rewrite (mp_turn_entry p x s Hx Hn). rewrite IH; [by rewrite table_found_cons|done|cbn [length] in Hf; lia|].
    unfold table_found. cbn [apicids]. rewrite length_take. unfold NCPU. lia.
Qed.

(** An entry of another type after the entries [l]: the loop never moves on. *)
Lemma mp_loop_stuck fuel p e s : p < e → 5 <= mem p → mp_loop fuel p e s = None.
Proof.
  revert s. induction fuel as [|fuel IH]; intros s Hp Hm; [done|]. cbn [mp_loop]. rewrite (proj2 (Z.ltb_lt _ _)) by done.
  assert (E : mp_turn p s = (p, mk_found s.(apicids) s.(ioapicid) false)).
  { unfold mp_turn, MPPROC, MPIOAPIC, MPBUS, MPIOINTR, MPLINTR. do 5 rewrite (proj2 (Z.eqb_neq _ _)) by lia. done. }
  rewrite E. by apply IH.
Qed.

Lemma mp_loop_unknown l : ∀ fuel p q e s, entries p q l → q < e → 5 <= mem q → mp_loop fuel p e s = None.
Proof.
  induction l as [|x l IH]; intros fuel p q e s Hl Hq Hm; cbn [entries] in Hl; [subst p; by apply mp_loop_stuck|].
  destruct Hl as [Hx Hl]. destruct fuel as [|fuel]; [done|]. cbn [mp_loop]. pose proof (entries_le _ _ _ Hl).
  rewrite (proj2 (Z.ltb_lt _ _)) by (destruct x; unfold entry_size, PROCSIZE in *; lia).
  assert (E : (mp_turn p s).1 = p + entry_size x).
  { unfold mp_turn. destruct x as [id|m|ty]; cbn [entry_at entry_size] in *; [destruct Hx as [-> _]; done..|]. destruct Hx as [-> [-> | [-> | ->]]]; done. }
  destruct (mp_turn p s) as [p' s']. cbn [fst] in E. subst p'. by eapply IH.
Qed.

(** The tables of a machine: the struct mp and the header of the
    configuration table that mpconfig() accepts. *)
Lemma mpinit_table mp conf l fuel imcr : mpconfig = Some (mp, conf) → entries (conf + CONFSIZE) (conf + rd16 (conf + 4)) l → (length l < fuel)%nat →
  mpinit fuel (mk_found [] 0 false) imcr =
  MpDone (rd32 (conf + 36)) (mk_found (take (Z.to_nat NCPU) (procs l)) (last_ioapic 0 l) true)
    (if negb (mem (mp + 12) =? 0) then [(0x22, 0x70); (0x23, Z.lor imcr 1)] else []).
Proof.
  intros Hc Hl Hf. unfold mpinit. rewrite Hc. cbn [apicids ioapicid]. rewrite (mp_loop_table l) by done. done.
Qed.

(** mpinit() does not reach its second panic() for a table with an entry it
    does not know: it never leaves the loop. *)
Lemma mpinit_unknown mp conf l q fuel s imcr : mpconfig = Some (mp, conf) → entries (conf + CONFSIZE) q l →
  q < conf + rd16 (conf + 4) → 5 <= mem q → mpinit fuel s imcr = MpRunning.
Proof. intros Hc Hl Hq Hm. unfold mpinit. rewrite Hc. by rewrite (mp_loop_unknown l fuel _ q). Qed.

End mp.
