(* ===== verification/Apic.v ===== *)
(** * lapic.c, ioapic.c, picirq.c: the interrupt controllers

    The registers of the local APIC and of the I/O APIC, the ports and the
    clock of one processor. A read of ICRLO shows DELIVS [busy] times, the
    number of polls until the interrupt is delivered; the CMOS returns
    [clock t r] for register [r] at the time [t], which every read advances. *)
From S2P Require Import Prelude.
From S2P Require Import Cprintf.
From S2P Require Import Sched.
From S2P Require Import Ulib.

Definition ID : Z := 0x20 / 4.
Definition VER : Z := 0x30 / 4.
Definition TPR : Z := 0x80 / 4.
Definition EOI : Z := 0xB0 / 4.
Definition SVR : Z := 0xF0 / 4.
Definition ENABLE : Z := 0x100.
Definition ESR : Z := 0x280 / 4.
Definition ICRLO : Z := 0x300 / 4.
Definition INIT : Z := 0x500.
Definition STARTUP : Z := 0x600.
Definition DELIVS : Z := 0x1000.
Definition ASSERT : Z := 0x4000.
Definition LEVEL : Z := 0x8000.
Definition BCAST : Z := 0x80000.
Definition ICRHI : Z := 0x310 / 4.
Definition TIMER : Z := 0x320 / 4.
Definition X1 : Z := 0xB.
Definition PERIODIC : Z := 0x20000.
Definition PCINT : Z := 0x340 / 4.
Definition LINT0 : Z := 0x350 / 4.
Definition LINT1 : Z := 0x360 / 4.
Definition ERROR : Z := 0x370 / 4.
Definition MASKED : Z := 0x10000.
Definition TICR : Z := 0x380 / 4.
Definition TDCR : Z := 0x3E0 / 4.

Definition T_IRQ0 : Z := 32.
Definition IRQ_TIMER : Z := 0.
Definition IRQ_ERROR : Z := 19.
Definition IRQ_SPURIOUS : Z := 31.

Record hw : Type := mk_hw {
  lapic : Z;
  lregs : Z → Z;
  sent : list (Z * Z);
  busy : nat;
  ioreg : Z;
  ioregs : Z → Z;
  ports : list (Z * Z);
  wrv : Z * Z;
  now : nat;
}.

Section apic.
Context (clock : nat → Z → Z).

Definition hset (f : hw → hw) : U hw unit := λ h, URet tt (f h).
Definition hread {A} (f : hw → A) : U hw A := λ h, URet (f h) h.

Definition outb (port v : Z) : U hw unit :=
  hset (λ h, mk_hw h.(lapic) h.(lregs) h.(sent) h.(busy) h.(ioreg) h.(ioregs) (h.(ports) ++ [(port, v)]) h.(wrv) h.(now)).

(** ** lapic.c *)

(** lapic[index]: a poll of ICRLO while the delivery is pending. *)
Definition lapicr (index : Z) : U hw Z := λ h,
  if index =? ICRLO then
    match h.(busy) with
    | O => URet (h.(lregs) index) h
    | S n => URet (Z.lor (h.(lregs) index) DELIVS)
               (mk_hw h.(lapic) h.(lregs) h.(sent) n h.(ioreg) h.(ioregs) h.(ports) h.(wrv) h.(now))
    end
  else URet (h.(lregs) index) h.

Definition lapicw (index value : Z) : U hw unit :=
  hset (λ h, mk_hw h.(lapic) (<[index := value]> h.(lregs)) (h.(sent) ++ [(index, value)]) h.(busy) h.(ioreg) h.(ioregs) h.(ports) h.(wrv) h.(now));;
  lapicr ID;;
  mret tt.

Definition wait_turn (_ : unit) : U hw (unit + unit) :=
  v ← lapicr ICRLO;
  if negb (Z.land v DELIVS =? 0) then mret (inl tt) else mret (inr tt).

Definition lapicinit (fuel : nat) : U hw unit :=
  l ← hread lapic;
  if l =? 0 then mret tt else
  lapicw SVR (Z.lor ENABLE (T_IRQ0 + IRQ_SPURIOUS));;
  lapicw TDCR X1;;
  lapicw TIMER (Z.lor PERIODIC (T_IRQ0 + IRQ_TIMER));;
  lapicw TICR 10000000;;
  lapicw LINT0 MASKED;;
  lapicw LINT1 MASKED;;
  v ← lapicr VER;
  (if 4 <=? Z.land (Z.shiftr v 16) 0xFF then lapicw PCINT MASKED else mret tt);;
  lapicw ERROR (T_IRQ0 + IRQ_ERROR);;
  lapicw ESR 0;;
  lapicw ESR 0;;
  lapicw EOI 0;;
  lapicw ICRHI 0;;
  lapicw ICRLO (Z.lor (Z.lor BCAST INIT) LEVEL);;
  uwhile fuel wait_turn tt;;
  lapicw TPR 0.

Definition lapicid : U hw Z :=
  l ← hread lapic;
  if l =? 0 then mret 0 else
  v ← lapicr ID;
  mret (Z.shiftr v 24).

Definition lapiceoi : U hw unit :=
  l ← hread lapic;
  if negb (l =? 0) then lapicw EOI 0 else mret tt.

Definition CMOS_PORT : Z := 0x70.
Definition CMOS_RETURN : Z := 0x71.

(** The body of the loop that sends the startup interrupt. *)
Definition startup_turn (apicid addr : Z) : U hw unit :=
  lapicw ICRHI (u32 (Z.shiftl apicid 24));;
  lapicw ICRLO (Z.lor STARTUP (Z.shiftr addr 12)).

Definition lapicstartap (apicid addr : Z) : U hw unit :=
  outb CMOS_PORT 0xF;;
  outb (CMOS_PORT + 1) 0x0A;;
  hset (λ h, mk_hw h.(lapic) h.(lregs) h.(sent) h.(busy) h.(ioreg) h.(ioregs) h.(ports) (0, u16 (Z.shiftr addr 4)) h.(now));;
  lapicw ICRHI (u32 (Z.shiftl apicid 24));;
  lapicw ICRLO (Z.lor (Z.lor INIT LEVEL) ASSERT);;
  lapicw ICRLO (Z.lor INIT LEVEL);;
  startup_turn apicid addr;;
  startup_turn apicid addr.

(** inb(CMOS_RETURN) after [reg] was selected. *)
Definition cmos_in (reg : Z) : U hw Z := λ h,
  URet (u8 (clock h.(now) reg))
    (mk_hw h.(lapic) h.(lregs) h.(sent) h.(busy) h.(ioreg) h.(ioregs) h.(ports) h.(wrv) (S h.(now))).

Definition cmos_read (reg : Z) : U hw Z :=
  outb CMOS_PORT reg;;
  cmos_in reg.

Definition fill_rtcdate : U hw rtcdate :=
  s ← cmos_read SECS;
  mi ← cmos_read MINS;
  h ← cmos_read HOURS;
  d ← cmos_read DAY;
  mo ← cmos_read MONTH;
  y ← cmos_read YEAR;
  mret (mk_rtcdate s mi h d mo y).

Definition cmostime_turn (_ : unit) : U hw (unit + rtcdate) :=
  t1 ← fill_rtcdate;
  a ← cmos_read CMOS_STATA;
  if negb (Z.land a CMOS_UIP =? 0) then mret (inl tt) else
  t2 ← fill_rtcdate;
  if decide (t1 = t2) then mret (inr t1) else mret (inl tt).

Definition cmostime (fuel : nat) : U hw rtcdate :=
  sb ← cmos_read CMOS_STATB;
  let bcd := Z.land sb (Z.shiftl 1 2) =? 0 in
  t1 ← uwhile fuel cmostime_turn tt;
  let t := if bcd
           then mk_rtcdate (CONV t1.(second)) (CONV t1.(minute)) (CONV t1.(hour))
                           (CONV t1.(day)) (CONV t1.(month)) (CONV t1.(year))
           else t1 in
  mret (mk_rtcdate t.(second) t.(minute) t.(hour) t.(day) t.(month) (u32 (t.(year) + 2000))).

(** ** ioapic.c *)

Definition REG_ID : Z := 0x00.
Definition REG_VER : Z := 0x01.
Definition REG_TABLE : Z := 0x10.
Definition INT_DISABLED : Z := 0x10000.

(** ioapic->reg selects the register that ioapic->data is. *)
Definition ioselect (reg : Z) : U hw unit :=
  hset (λ h, mk_hw h.(lapic) h.(lregs) h.(sent) h.(busy) reg h.(ioregs) h.(ports) h.(wrv) h.(now)).

Definition ioapicread (reg : Z) : U hw Z :=
  ioselect reg;;
  hread (λ h, h.(ioregs) h.(ioreg)).

Definition ioapicwrite (reg data : Z) : U hw unit :=
  ioselect reg;;
  hset (λ h, mk_hw h.(lapic) h.(lregs) h.(sent) h.(busy) h.(ioreg) (<[h.(ioreg) := data]> h.(ioregs)) h.(ports) h.(wrv) h.(now)).

(** for(i = ...; n more turns) *)
Fixpoint ioapic_loop (n : nat) (i : Z) : U hw unit :=
  match n with
  | O => mret tt
  | S n' =>
      ioapicwrite (REG_TABLE + 2 * i) (Z.lor INT_DISABLED (T_IRQ0 + i));;
      ioapicwrite (REG_TABLE + 2 * i + 1) 0;;
      ioapic_loop n' (i + 1)
  end.

(** The result is whether the message about the id is printed. *)
Definition ioapicinit (ioapicid : Z) : U hw bool :=
  v ← ioapicread REG_VER;
  let maxintr := Z.land (Z.shiftr v 16) 0xFF in
  d ← ioapicread REG_ID;
  let id := Z.shiftr d 24 in
  ioapic_loop (Z.to_nat (maxintr + 1)) 0;;
  mret (negb (id =? ioapicid)).

Definition ioapicenable (irq cpunum : Z) : U hw unit :=
  ioapicwrite (REG_TABLE + 2 * irq) (T_IRQ0 + irq);;
  ioapicwrite (REG_TABLE + 2 * irq + 1) (u32 (Z.shiftl cpunum 24)).

(** ** picirq.c *)

Definition picinit : U hw unit :=
  outb 0x21 0xFF;;
  outb 0xA1 0xFF.

(** ** The local APIC *)

(** [h] with the register writes [ws], in order. *)
Definition wrote (ws : list (Z * Z)) (n : nat) (h : hw) : hw :=
  mk_hw h.(lapic) (foldl (λ r w, <[w.1 := w.2]> r) h.(lregs) ws) (h.(sent) ++ ws) n h.(ioreg) h.(ioregs) h.(ports) h.(wrv) h.(now).

Lemma lapicw_wrote i v ws n h : lapicw i v (wrote ws n h) = URet tt (wrote (ws ++ [(i, v)]) n h).
Proof. unfold lapicw. erewrite ubind_ret; [|reflexivity]. erewrite ubind_ret; [|reflexivity]. unfold wrote. cbn. by rewrite foldl_app, <- app_assoc. Qed.

Lemma wait_wrote fuel n ws h : (n < fuel)%nat → Z.land ((wrote ws n h).(lregs) ICRLO) DELIVS = 0 →
  uwhile fuel wait_turn tt (wrote ws n h) = URet tt (wrote ws 0 h).
Proof.
  intros Hf Hd. change ((wrote ws n h).(lregs)) with ((wrote ws 0 h).(lregs)) in Hd. revert n Hf. induction fuel as [|fuel IH]; intros n Hf; [lia|].
  cbn [uwhile]. destruct n as [|n].
  - assert (E : wait_turn tt (wrote ws 0 h) = URet (inr tt) (wrote ws 0 h)).
    { unfold wait_turn. erewrite ubind_ret; [|reflexivity]. cbv beta. by rewrite Hd. }
    by rewrite (ubind_ret _ _ _ _ _ E).
  - assert (E : wait_turn tt (wrote ws (S n) h) = URet (inl tt) (wrote ws n h)).
    { unfold wait_turn. erewrite ubind_ret; [|reflexivity]. cbv beta. rewrite Z.land_lor_distr_l.
      change ((wrote ws (S n) h).(lregs)) with ((wrote ws 0 h).(lregs)). by rewrite Hd. }
    rewrite (ubind_ret _ _ _ _ _ E). apply IH. lia.
Qed.

(** The writes of lapicinit(). *)
Definition lapic_setup (ver : Z) : list (Z * Z) :=
  [(SVR, Z.lor ENABLE (T_IRQ0 + IRQ_SPURIOUS)); (TDCR, X1); (TIMER, Z.lor PERIODIC (T_IRQ0 + IRQ_TIMER)); (TICR, 10000000);
   (LINT0, MASKED); (LINT1, MASKED)] ++
  (if 4 <=? Z.land (Z.shiftr ver 16) 0xFF then [(PCINT, MASKED)] else []) ++
  [(ERROR, T_IRQ0 + IRQ_ERROR); (ESR, 0); (ESR, 0); (EOI, 0); (ICRHI, 0); (ICRLO, Z.lor (Z.lor BCAST INIT) LEVEL); (TPR, 0)].

(** lapicinit() returns once the interrupt is delivered. *)
Lemma lapicinit_done fuel h : h.(lapic) ≠ 0 → (h.(busy) < fuel)%nat →
  lapicinit fuel h = URet tt (wrote (lapic_setup (h.(lregs) VER)) 0 h).
Proof.
  intros Hl Hf. unfold lapicinit. erewrite ubind_ret; [|reflexivity]. cbv beta. rewrite (proj2 (Z.eqb_neq _ _)) by done.
  assert (Eh : wrote [] h.(busy) h = h) by (unfold wrote; cbn; rewrite app_nil_r; by destruct h). rewrite <- Eh at 1.
  do 6 (rewrite (ubind_ret _ _ _ _ _ (lapicw_wrote _ _ _ _ _))). cbn [app].
  erewrite ubind_ret; [|unfold lapicr; reflexivity]. cbv beta. unfold lapic_setup. set (ver := h.(lregs) VER).
  match goal with |- context [Z.shiftr ?v 16] => change v with ver end.
  destruct (4 <=? Z.land (Z.shiftr ver 16) 255).
  - do 7 (rewrite (ubind_ret _ _ _ _ _ (lapicw_wrote _ _ _ _ _))). cbn [app]. (erewrite ubind_ret; [|apply wait_wrote; [exact Hf|reflexivity]]). by rewrite lapicw_wrote.
  - erewrite ubind_ret; [|reflexivity]. do 6 (rewrite (ubind_ret _ _ _ _ _ (lapicw_wrote _ _ _ _ _))). cbn [app].
    (erewrite ubind_ret; [|apply wait_wrote; [exact Hf|reflexivity]]). by rewrite lapicw_wrote.
Qed.

(** ** The I/O APIC *)

Lemma ioapicwrite_ret reg v h : ∃ h', ioapicwrite reg v h = URet tt h' ∧ ∀ r, h'.(ioregs) r = if decide (r = reg) then v else h.(ioregs) r.
Proof. eexists. split; [reflexivity|]. intros r. cbn. case_decide as E; [subst; by rewrite fn_lookup_insert|by rewrite fn_lookup_insert_ne]. Qed.

(** The entry of an interrupt in the redirection table. *)
Definition routed (h : hw) (i lo hi : Z) : Prop := h.(ioregs) (REG_TABLE + 2 * i) = lo ∧ h.(ioregs) (REG_TABLE + 2 * i + 1) = hi.

Lemma ioapic_loop_ret n i h : ∃ h', ioapic_loop n i h = URet tt h' ∧
  (∀ j, i <= j < i + Z.of_nat n → routed h' j (Z.lor INT_DISABLED (T_IRQ0 + j)) 0) ∧
  (∀ r, r < REG_TABLE + 2 * i ∨ REG_TABLE + 2 * (i + Z.of_nat n) <= r → h'.(ioregs) r = h.(ioregs) r).
Proof.
  revert i h. induction n as [|n IH]; intros i h; cbn [ioapic_loop]; [exists h; split_and!; [done|lia|done]|].
  destruct (ioapicwrite_ret (REG_TABLE + 2 * i) (Z.lor INT_DISABLED (T_IRQ0 + i)) h) as (h1 & E1 & R1). rewrite (ubind_ret _ _ _ _ _ E1).
  destruct (ioapicwrite_ret (REG_TABLE + 2 * i + 1) 0 h1) as (h2 & E2 & R2). rewrite (ubind_ret _ _ _ _ _ E2).
  destruct (IH (i + 1) h2) as (h3 & E3 & T3 & R3). exists h3. split_and!; [done| |].
  - intros j Hj. destruct (decide (j = i)) as [->|]; [|apply T3; lia].
    split; rewrite R3 by lia; rewrite R2, ?R1; repeat case_decide; try lia; done.
  - intros r Hr. rewrite R3, R2, R1 by lia. repeat case_decide; lia.
Qed.

(** Entries up to the largest interrupt the chip reports. *)
Definition maxintr (h : hw) : Z := Z.land (Z.shiftr (h.(ioregs) REG_VER) 16) 0xFF.

Lemma ioapicinit_ret id h : ∃ b h', ioapicinit id h = URet b h' ∧ (b = true ↔ Z.shiftr (h.(ioregs) REG_ID) 24 ≠ id) ∧
  (∀ j, 0 <= j <= maxintr h → routed h' j (Z.lor INT_DISABLED (T_IRQ0 + j)) 0).
Proof.
  unfold ioapicinit. erewrite ubind_ret; [|reflexivity]. cbv beta. erewrite ubind_ret; [|reflexivity]. cbv beta.
  cbn [ioregs ioreg]. fold (maxintr h). match goal with |- context [ioapic_loop ?n ?i ≫= _] => set (N := n) end.
  match goal with |- context [(ioapic_loop N 0 ≫= _) ?h0] => destruct (ioapic_loop_ret N 0 h0) as (h1 & E & T & _) end.
  rewrite (ubind_ret _ _ _ _ _ E). eexists _, h1. split; [reflexivity|]. split.
  - rewrite negb_true_iff, Z.eqb_neq. done.
  - intros j Hj. apply T. unfold N. lia.
Qed.

(** After ioapicinit() and ioapicenable() only that interrupt is enabled, on
    that processor. *)
Lemma ioapicenable_routes irq cpu h : 0 <= irq → ∃ h', ioapicenable irq cpu h = URet tt h' ∧ routed h' irq (T_IRQ0 + irq) (u32 (Z.shiftl cpu 24)) ∧
  ∀ j lo hi, 0 <= j → j ≠ irq → routed h j lo hi → routed h' j lo hi.
Proof.
  intros Hi. unfold ioapicenable. destruct (ioapicwrite_ret (REG_TABLE + 2 * irq) (T_IRQ0 + irq) h) as (h1 & E1 & R1). rewrite (ubind_ret _ _ _ _ _ E1).
  destruct (ioapicwrite_ret (REG_TABLE + 2 * irq + 1) (u32 (Z.shiftl cpu 24)) h1) as (h2 & E2 & R2). exists h2. split; [done|]. split.
  - split; rewrite R2, ?R1; repeat case_decide; try lia; done.
  - intros j lo hi Hj Hne [H1 H2]. split; rewrite R2, R1; repeat case_decide; try lia; done.
Qed.

(** ** The clock *)

(** A number below 100 in binary-coded decimal. *)
Definition bcd (x : Z) : Z := x / 10 * 16 + x `mod` 10.

Lemma CONV_bcd x : 0 <= x < 100 → CONV (bcd x) = x.
Proof.
  intros Hx. unfold CONV, bcd. change 15 with (Z.ones 4). rewrite Z.land_ones, Z.shiftr_div_pow2 by lia. change (2 ^ 4) with 16.
  rewrite Z.div_add_l, (Z.add_comm (_ * 16)), Z.mod_add by lia. pose proof (Z.mod_pos_bound x 10 ltac:(lia)).
  rewrite (Z.div_small (x `mod` 10) 16), (Z.mod_small (x `mod` 10) 16) by lia. rewrite u32_small by (unfold is_u32; pose proof (Z.div_mod x 10); lia).
  pose proof (Z.div_mod x 10). lia.
Qed.

(** A clock that stands still while it is read, in binary-coded decimal: the
    date it shows, of this century. *)
Lemma cmostime_reads c fuel h :
  (∀ t r, clock t r = c r) → Z.land (u8 (c CMOS_STATA)) CMOS_UIP = 0 → Z.land (u8 (c CMOS_STATB)) 4 = 0 → (0 < fuel)%nat →
  ∀ s mi ho d mo y, Forall (λ x, 0 <= x < 100) [s; mi; ho; d; mo; y] →
  c SECS = bcd s → c MINS = bcd mi → c HOURS = bcd ho → c DAY = bcd d → c MONTH = bcd mo → c YEAR = bcd y →
  ∃ h', cmostime fuel h = URet (mk_rtcdate s mi ho d mo (2000 + y)) h'.
Proof.
  intros Hc Hu Hb Hf s mi ho d mo y Hr Es Emi Eho Ed Emo Ey. rewrite !Forall_cons in Hr. destruct Hr as (Rs & Rmi & Rho & Rd & Rmo & Ry & _).
  assert (Hr : ∀ r h, ∃ h', cmos_read r h = URet (u8 (c r)) h') by (intros; eexists; unfold cmos_read, cmos_in; erewrite ubind_ret; [|reflexivity]; by rewrite Hc).
  assert (Hb8 : ∀ x, 0 <= x < 100 → u8 (bcd x) = bcd x).
  { intros x Hx. apply u8_small. unfold is_u8, bcd. pose proof (Z.mod_pos_bound x 10 ltac:(lia)). pose proof (Z.div_mod x 10). change (2 ^ 8) with 256. lia. }
  set (t := mk_rtcdate (bcd s) (bcd mi) (bcd ho) (bcd d) (bcd mo) (bcd y)).
  assert (Hfill : ∀ h, ∃ h', fill_rtcdate h = URet t h').
  { intros h0. unfold fill_rtcdate.
    destruct (Hr SECS h0) as [h1 E1]. rewrite (ubind_ret _ _ _ _ _ E1). destruct (Hr MINS h1) as [h2 E2]. rewrite (ubind_ret _ _ _ _ _ E2).
    destruct (Hr HOURS h2) as [h3 E3]. rewrite (ubind_ret _ _ _ _ _ E3). destruct (Hr DAY h3) as [h4 E4]. rewrite (ubind_ret _ _ _ _ _ E4).
    destruct (Hr MONTH h4) as [h5 E5]. rewrite (ubind_ret _ _ _ _ _ E5). destruct (Hr YEAR h5) as [h6 E6]. rewrite (ubind_ret _ _ _ _ _ E6).
    exists h6. rewrite Es, Emi, Eho, Ed, Emo, Ey, !Hb8 by done. done. }
  unfold cmostime. destruct (Hr CMOS_STATB h) as [h1 E1]. rewrite (ubind_ret _ _ _ _ _ E1). destruct fuel as [|fuel]; [lia|]. cbn [uwhile].
  destruct (Hfill h1) as [h2 E2]. destruct (Hr CMOS_STATA h2) as [h3 E3]. destruct (Hfill h3) as [h4 E4].
  assert (Et : cmostime_turn tt h1 = URet (inr t) h4).
  { unfold cmostime_turn. rewrite (ubind_ret _ _ _ _ _ E2), (ubind_ret _ _ _ _ _ E3), Hu. cbn [Z.eqb negb]. rewrite (ubind_ret _ _ _ _ _ E4). by rewrite decide_True. }
  exists h4. erewrite ubind_ret; [|rewrite (ubind_ret _ _ _ _ _ Et); reflexivity]. change (Z.shiftl 1 2) with 4. rewrite Hb. cbn [Z.eqb].
  unfold t. cbn [second minute hour day month year]. rewrite !CONV_bcd by done. rewrite u32_small by (unfold is_u32; lia). by rewrite Z.add_comm.
Qed.

End apic.
