(* ===== verification/Boot.v ===== *)
(** * bootmain.c: loading the kernel

    The boot loader reads the kernel, an ELF image, from the disk into
    physical memory. The machine is the byte memory, the command block of the
    IDE controller (the last value written to each port) and the number of
    times the status shows busy before the next answer; [img] is the disk, byte
    by byte. *)
From S2P Require Import Prelude.
From S2P Require Import Ulib.

Record boot : Type := mk_boot { bmem : Z → Z; bports : Z → Z; bbusy : nat }.

Definition SECTSIZE : Z := 512.
Definition ELF_MAGIC : Z := 0x464C457F.

Section boot.
Context (img : Z → Z) (delay : boot → nat).

Definition bset (f : boot → boot) : U boot unit := λ s, URet tt (f s).

(** inb(0x1F7): ready (0x40) once the controller is no longer busy (0x80). *)
Definition status : U boot Z := λ s,
  match s.(bbusy) with
  | O => URet 0x40 s
  | S n => URet 0x80 (mk_boot s.(bmem) s.(bports) n)
  end.

Definition bout (port v : Z) : U boot unit :=
  bset (λ s, mk_boot s.(bmem) (<[port := u8 v]> s.(bports)) (if port =? 0x1F7 then delay s else s.(bbusy))).

Definition wait_turn (_ : unit) : U boot (unit + unit) :=
  v ← status;
  if negb (Z.land v 0xC0 =? 0x40) then mret (inl tt) else mret (inr tt).

Definition waitdisk (fuel : nat) : U boot unit := uwhile fuel wait_turn tt.

(** The sector that the command block names (LBA). *)
Definition lba (p : Z → Z) : Z :=
  Z.lor (Z.lor (Z.lor (p 0x1F3) (Z.shiftl (p 0x1F4) 8)) (Z.shiftl (p 0x1F5) 16)) (Z.shiftl (Z.land (p 0x1F6) 0x0F) 24).

(** insl(0x1F0, dst, SECTSIZE/4): the bytes of the sector. *)
Definition binsl (dst : Z) : U boot unit :=
  bset (λ s, mk_boot (λ a, if (dst <=? a) && (a <? dst + SECTSIZE) then img (SECTSIZE * lba s.(bports) + (a - dst)) else s.(bmem) a)
               s.(bports) s.(bbusy)).

Definition readsect (fuel : nat) (dst offset : Z) : U boot unit :=
  waitdisk fuel;;
  bout 0x1F2 1;;
  bout 0x1F3 offset;;
  bout 0x1F4 (Z.shiftr offset 8);;
  bout 0x1F5 (Z.shiftr offset 16);;
  bout 0x1F6 (Z.lor (Z.shiftr offset 24) 0xE0);;
  bout 0x1F7 0x20;;
  waitdisk fuel;;
  binsl dst.

(** for(; pa < epa; pa += SECTSIZE, offset++), [n] turns at most. *)
Fixpoint readseg_loop (fuel n : nat) (pa epa offset : Z) : U boot unit :=
  match n with
  | O => λ s, UFuel s
  | S n' =>
      if negb (pa <? epa) then mret tt else
      readsect fuel pa offset;;
      readseg_loop fuel n' (pa + SECTSIZE) epa (offset + 1)
  end.

Definition readseg (fuel : nat) (pa count offset : Z) : U boot unit :=
  let epa := pa + count in
  let pa := pa - offset `mod` SECTSIZE in
  readseg_loop fuel (Z.to_nat (count / SECTSIZE + 3)) pa epa (offset / SECTSIZE + 1).

Definition bstosb (addr n : Z) : U boot unit :=
  bset (λ s, mk_boot (λ a, if (addr <=? a) && (a <? addr + n) then 0 else s.(bmem) a) s.(bports) s.(bbusy)).

(** The fields of struct elfhdr and struct proghdr. *)
Definition rdw (m : Z → Z) (a : Z) : Z := m a + 256 * m (a + 1) + 65536 * m (a + 2) + 16777216 * m (a + 3).
Definition rdh (m : Z → Z) (a : Z) : Z := m a + 256 * m (a + 1).
Definition word (a : Z) : U boot Z := λ s, URet (rdw s.(bmem) a) s.

Definition ELF : Z := 0x10000.
Definition PHSIZE : Z := 32.

(** The loop over the program headers: [n] are left. *)
Fixpoint seg_loop (fuel n : nat) (ph : Z) : U boot unit :=
  match n with
  | O => mret tt
  | S n' =>
      pa ← word (ph + 12);
      filesz ← word (ph + 16);
      off ← word (ph + 4);
      readseg fuel pa filesz off;;
      memsz ← word (ph + 20);
      filesz ← word (ph + 16);
      (if filesz <? memsz then bstosb (pa + filesz) (memsz - filesz) else mret tt);;
      seg_loop fuel n' (ph + PHSIZE)
  end.

(** The entry point called; none if the image is not an ELF executable. *)
Definition bootmain (fuel : nat) : U boot (option Z) :=
  readseg fuel ELF 4096 0;;
  magic ← word (ELF + 0);
  if negb (magic =? ELF_MAGIC) then mret None else
  phoff ← word (ELF + 28);
  phnum ← (λ s, URet (rdh s.(bmem) (ELF + 44)) s);
  seg_loop fuel (Z.to_nat phnum) (ELF + phoff);;
  entry ← word (ELF + 24);
  mret (Some entry).

(** ** Reading *)

(** The kernel image: the disk from sector 1 on. *)
Definition kimg (o : Z) : Z := img (SECTSIZE + o).

Context (D : nat) (HD : ∀ s, (delay s <= D)%nat).

Lemma waitdisk_ready fuel s : (s.(bbusy) < fuel)%nat → waitdisk fuel s = URet tt (mk_boot s.(bmem) s.(bports) 0).
Proof.
  destruct s as [m p n]. cbn [bbusy bmem bports]. revert n. unfold waitdisk. induction fuel as [|fuel IH]; intros n Hn; [lia|]. cbn [uwhile]. destruct n as [|n].
  - done.
  - assert (E : wait_turn tt (mk_boot m p (S n)) = URet (inl tt) (mk_boot m p n)) by done. rewrite (ubind_ret _ _ _ _ _ E). apply IH. lia.
Qed.

Lemma lor_shiftl a b n : 0 <= n → 0 <= a < 2 ^ n → Z.lor a (Z.shiftl b n) = a + b * 2 ^ n.
Proof.
  intros Hn Ha. assert (E : Z.land a (Z.shiftl b n) = 0).
  { apply Z.bits_inj'. intros i Hi. rewrite Z.land_spec, Z.bits_0, Z.shiftl_spec by done.
    destruct (decide (i < n)) as [Hlt|Hge]; [by rewrite (Z.testbit_neg_r b), andb_false_r by lia|].
    rewrite <- (Z.mod_small a (2 ^ n)) by done. by rewrite Z.mod_pow2_bits_high by lia. }
  rewrite <- Z.shiftl_mul_pow2 by done. rewrite <- Z.add_lor_land, E. lia.
Qed.

(** The four bytes of a sector number. *)
Lemma lba_bytes o : 0 <= o < 2 ^ 28 → ∀ p, p 0x1F3 = u8 o → p 0x1F4 = u8 (Z.shiftr o 8) → p 0x1F5 = u8 (Z.shiftr o 16) →
  p 0x1F6 = u8 (Z.lor (Z.shiftr o 24) 0xE0) → lba p = o.
Proof.
  intros Ho p E3 E4 E5 E6. unfold lba. rewrite E3, E4, E5, E6. rewrite !Z.shiftr_div_pow2 by lia.
  change 0xE0 with (Z.shiftl 14 4). rewrite (lor_shiftl (o / 2 ^ 24) 14 4) by (lia || word_lia).
  change 0x0F with (Z.ones 4). rewrite Z.land_ones by lia. rewrite !u8_mod. change (2 ^ 28) with 268435456 in Ho.
  change (2 ^ 8) with 256. change (2 ^ 16) with 65536. change (2 ^ 24) with 16777216. change (2 ^ 4) with 16.
  rewrite (lor_shiftl (o `mod` 256) _ 8), (lor_shiftl _ _ 16), (lor_shiftl _ _ 24); change (2 ^ 8) with 256; change (2 ^ 16) with 65536; change (2 ^ 24) with 16777216;
    Z.to_euclidean_division_equations; lia.
Qed.

Lemma readsect_reads fuel dst o s : 0 <= o < 2 ^ 28 → (s.(bbusy) < fuel)%nat → (D < fuel)%nat →
  ∃ s', readsect fuel dst o s = URet tt s' ∧ s'.(bbusy) = 0%nat ∧
    ∀ a, s'.(bmem) a = if (dst <=? a) && (a <? dst + SECTSIZE) then img (SECTSIZE * o + (a - dst)) else s.(bmem) a.
Proof.
  intros Ho Hb Hd. unfold readsect. rewrite (ubind_ret _ _ _ _ _ (waitdisk_ready fuel s Hb)).
  do 6 (erewrite ubind_ret; [|reflexivity]). cbn [bmem bports bbusy Z.eqb].
  match goal with |- context [mk_boot ?m ?p ?n] => set (p' := p); set (n' := n) end.
  rewrite (ubind_ret _ _ _ _ _ (waitdisk_ready fuel (mk_boot s.(bmem) p' n') ltac:(cbn [bbusy]; unfold n'; eapply Nat.le_lt_trans; [apply HD|done]))).
  eexists. split; [reflexivity|]. cbn [bmem bbusy bports]. split; [done|]. intros a. rewrite (lba_bytes o Ho p'); [done|reflexivity..].
Qed.

Lemma readseg_loop_reads fuel n : ∀ pa epa o s, (epa - pa <= SECTSIZE * (Z.of_nat n - 1)) → (0 < n)%nat → 0 <= o → o + Z.of_nat n < 2 ^ 28 →
  s.(bbusy) = 0%nat → (D < fuel)%nat →
  ∃ s' k, readseg_loop fuel n pa epa o s = URet tt s' ∧ s'.(bbusy) = 0%nat ∧ 0 <= k ∧ epa <= pa + SECTSIZE * k ∧ (k = 0 ∨ pa + SECTSIZE * k < epa + SECTSIZE) ∧
    ∀ a, s'.(bmem) a = if (pa <=? a) && (a <? pa + SECTSIZE * k) then img (SECTSIZE * o + (a - pa)) else s.(bmem) a.
Proof.
  unfold SECTSIZE. induction n as [|n IH]; intros pa epa o s Hn H0 Ho Hmax Hb Hd; [lia|]. cbn [readseg_loop]. destruct (Z.ltb_spec pa epa) as [Hlt|Hge]; cbn [negb].
  - destruct (readsect_reads fuel pa o s ltac:(lia) ltac:(lia) Hd) as (s1 & E1 & Hb1 & M1). rewrite (ubind_ret _ _ _ _ _ E1). unfold SECTSIZE in *.
    destruct (IH (pa + 512) epa (o + 1) s1 ltac:(lia) ltac:(lia) ltac:(lia) ltac:(lia) Hb1 Hd) as (s2 & k & E2 & Hb2 & Hk & Hk1 & Hk2 & M2).
    exists s2, (k + 1). split_and!; [done|done|lia|lia|lia|]. intros a. rewrite M2, M1.
    repeat (bsplit; cbn [andb]); try lia; try (f_equal; lia); done.
  - exists s, 0. split_and!; [done|done|lia|lia|by left|]. intros a. repeat (bsplit; cbn [andb]); lia || done.
Qed.

(** readseg(): the bytes asked for, and no other byte than those of the
    sectors they are in. *)
Lemma readseg_reads fuel pa count off s : 0 <= off → 0 <= count → off + count < 2 ^ 36 → s.(bbusy) = 0%nat → (D < fuel)%nat →
  ∃ s', readseg fuel pa count off s = URet tt s' ∧ s'.(bbusy) = 0%nat ∧
    (∀ x, 0 <= x < count → s'.(bmem) (pa + x) = kimg (off + x)) ∧
    (∀ a, a < pa - off `mod` SECTSIZE ∨ pa + count + SECTSIZE <= a → s'.(bmem) a = s.(bmem) a).
Proof.
  intros Ho Hc Hmax Hb Hd. unfold readseg. pose proof (Z.mod_pos_bound off SECTSIZE ltac:(done)) as Hm. pose proof (Z.div_mod off SECTSIZE ltac:(done)) as Hdm.
  pose proof (Z.div_mod count SECTSIZE ltac:(done)) as Hcd. pose proof (Z.mod_pos_bound count SECTSIZE ltac:(done)) as Hcm. unfold SECTSIZE in *.
  pose proof (Z.div_pos count 512 ltac:(lia) ltac:(lia)). pose proof (Z.div_pos off 512 ltac:(lia) ltac:(lia)).
  destruct (readseg_loop_reads fuel (Z.to_nat (count / 512 + 3)) (pa - off `mod` 512) (pa + count) (off / 512 + 1) s) as (s' & k & E & Hb' & Hk & Hk1 & Hk2 & M);
    unfold SECTSIZE in *; try lia; try done.
  exists s'. split_and!; [done|done| |].
  - intros x Hx. rewrite M. rewrite (proj2 (Z.leb_le _ _)), (proj2 (Z.ltb_lt _ _)) by lia. cbn [andb]. unfold kimg, SECTSIZE. f_equal. lia.
  - intros a Ha. rewrite M. repeat (bsplit; cbn [andb]); try lia; done.
Qed.

(** ** Segments *)

Record seg : Type := mk_seg { p_off : Z; p_paddr : Z; p_filesz : Z; p_memsz : Z }.

(** The program header at [ph]. *)
Definition seg_at (m : Z → Z) (ph : Z) : seg := mk_seg (rdw m (ph + 4)) (rdw m (ph + 12)) (rdw m (ph + 16)) (rdw m (ph + 20)).

(** The bytes that loading a segment may change. *)
Definition touches (g : seg) (a : Z) : Prop :=
  g.(p_paddr) - g.(p_off) `mod` SECTSIZE <= a < g.(p_paddr) + Z.max (g.(p_filesz) + SECTSIZE) g.(p_memsz).

(** The segment as the kernel expects it: its bytes of the file, then zeroes. *)
Definition loaded (m : Z → Z) (g : seg) : Prop :=
  (∀ x, 0 <= x < g.(p_filesz) → m (g.(p_paddr) + x) = kimg (g.(p_off) + x)) ∧
  (∀ x, g.(p_filesz) <= x < g.(p_memsz) → m (g.(p_paddr) + x) = 0).

Record seg_ok (g : seg) : Prop := {
  sg_off : 0 <= g.(p_off);
  sg_filesz : 0 <= g.(p_filesz) <= g.(p_memsz);
  sg_end : g.(p_off) + g.(p_filesz) < 2 ^ 36;
}.

(** The program headers [l], one after the other. *)
Fixpoint headers (m : Z → Z) (ph : Z) (l : list seg) : Prop :=
  match l with
  | [] => True
  | g :: l' => seg_at m ph = g ∧ headers m (ph + PHSIZE) l'
  end.

(** The header page is left alone. *)
Definition spares (lo hi : Z) (g : seg) : Prop := ∀ a, touches g a → a < lo ∨ hi <= a.

Lemma headers_same m m' l : ∀ ph lo hi, lo <= ph → ph + PHSIZE * Z.of_nat (length l) <= hi → (∀ a, lo <= a < hi → m' a = m a) →
  headers m ph l → headers m' ph l.
Proof.
  unfold PHSIZE. induction l as [|g l IH]; intros ph lo hi Hl Hh Hm; cbn [headers length] in *; [done|]. intros [Hg Hr]. split.
  - rewrite <- Hg. unfold seg_at, rdw. rewrite !Hm by lia. done.
  - apply (IH _ lo hi); [unfold PHSIZE; lia|unfold PHSIZE; lia|done|done].
Qed.

(** One segment: loaded, and nothing but what it touches is changed. *)
Lemma seg_loads fuel n g ph s : seg_at s.(bmem) ph = g → seg_ok g → spares ph (ph + PHSIZE) g → s.(bbusy) = 0%nat → (D < fuel)%nat →
  ∃ s', seg_loop fuel (S n) ph s = seg_loop fuel n (ph + PHSIZE) s' ∧ s'.(bbusy) = 0%nat ∧ loaded s'.(bmem) g ∧
    (∀ a, ~ touches g a → s'.(bmem) a = s.(bmem) a).
Proof.
  intros Hg [H1 H2 H3] Hsp Hb Hd. cbn [seg_loop]. do 3 (erewrite ubind_ret; [|reflexivity]). subst g. set (g := seg_at s.(bmem) ph) in *.
  change (rdw s.(bmem) (ph + 12)) with g.(p_paddr). change (rdw s.(bmem) (ph + 16)) with g.(p_filesz). change (rdw s.(bmem) (ph + 4)) with g.(p_off).
  destruct (readseg_reads fuel g.(p_paddr) g.(p_filesz) g.(p_off) s) as (s1 & E1 & Hb1 & R1 & F1); try lia; try done.
  rewrite (ubind_ret _ _ _ _ _ E1). pose proof (Z.mod_pos_bound g.(p_off) SECTSIZE ltac:(done)) as Hm.
  assert (Hkeep : ∀ a, ~ touches g a → s1.(bmem) a = s.(bmem) a) by (intros a Ha; apply F1; unfold touches, SECTSIZE in *; lia).
  assert (Hhdr : ∀ a, ph <= a < ph + PHSIZE → s1.(bmem) a = s.(bmem) a) by (intros a Ha; apply Hkeep; intros Ht; specialize (Hsp a Ht); lia).
  do 2 (erewrite ubind_ret; [|reflexivity]). unfold PHSIZE in Hhdr.
  assert (Eg : seg_at s1.(bmem) ph = g) by (unfold g, seg_at, rdw; rewrite !Hhdr by lia; done).
  change (rdw s1.(bmem) (ph + 20)) with (seg_at s1.(bmem) ph).(p_memsz). change (rdw s1.(bmem) (ph + 16)) with (seg_at s1.(bmem) ph).(p_filesz). rewrite Eg.
  destruct (Z.ltb_spec g.(p_filesz) g.(p_memsz)) as [Hlt|Hge].
  - erewrite ubind_ret; [|reflexivity]. eexists. split; [reflexivity|]. cbn [bbusy bmem]. split; [done|]. split; [split|].
    + intros x Hx. repeat (bsplit; cbn [andb]); try lia; by apply R1.
    + intros x Hx. rewrite (proj2 (Z.leb_le _ _)), (proj2 (Z.ltb_lt _ _)) by lia. done.
    + intros a Ha. rewrite <- (Hkeep a Ha). repeat (bsplit; cbn [andb]); try done. exfalso. apply Ha. unfold touches, SECTSIZE in *. lia.
  - erewrite ubind_ret; [|reflexivity]. exists s1. split_and!; [done|done| |done]. split; [done|]. intros x Hx. lia.
Qed.

(** All of them, when no segment reaches into the headers or into a segment
    before it. *)
Lemma segs_load fuel lo hi l : ∀ ph s, headers s.(bmem) ph l → Forall seg_ok l → Forall (spares lo hi) l →
  (∀ i j g h, l !! i = Some g → l !! j = Some h → (i < j)%nat → ∀ a, g.(p_paddr) <= a < g.(p_paddr) + g.(p_memsz) → ~ touches h a) →
  lo <= ph → ph + PHSIZE * Z.of_nat (length l) <= hi → s.(bbusy) = 0%nat → (D < fuel)%nat →
  ∃ s', seg_loop fuel (length l) ph s = URet tt s' ∧ Forall (loaded s'.(bmem)) l ∧ (∀ a, (∀ g, g ∈ l → ~ touches g a) → s'.(bmem) a = s.(bmem) a).
Proof.
  induction l as [|g l IH]; intros ph s Hh Hok Hsp Hord Hlo Hhi Hb Hd; [exists s; split_and!; [done|by apply Forall_nil|done]|].
  cbn [headers length] in *. destruct Hh as [Hg Hh]. apply Forall_cons in Hok as [Hok1 Hok]. apply Forall_cons in Hsp as [Hsp1 Hsp].
  destruct (seg_loads fuel (length l) g ph s Hg Hok1) as (s1 & E1 & Hb1 & L1 & F1); [|done|done|].
  { intros a Ha. specialize (Hsp1 a Ha). unfold PHSIZE in *. lia. }
  destruct (IH (ph + PHSIZE) s1) as (s2 & E2 & L2 & F2); try done.
  { eapply (headers_same s.(bmem) _ l (ph + PHSIZE) lo hi); try done; [unfold PHSIZE; lia|lia|]. intros a Ha. apply F1. intros Ht. specialize (Hsp1 a Ht). lia. }
  { intros i j x y Hi Hj Hij. apply (Hord (S i) (S j)); [done|done|lia]. }
  { unfold PHSIZE in *. lia. }
  { lia. }
  exists s2. rewrite E1. split_and!; [done| |].
  - apply Forall_cons. split; [|done]. assert (Hk : ∀ a, g.(p_paddr) <= a < g.(p_paddr) + g.(p_memsz) → s2.(bmem) a = s1.(bmem) a).
    { intros a Ha. apply F2. intros h Hin. apply list_elem_of_lookup in Hin as [j Hj]. apply (Hord 0%nat (S j) g h); [done|done|lia|done]. }
    destruct L1 as [R Z0]. destruct Hok1. split; intros x Hx; rewrite Hk by lia; [by apply R|by apply Z0].
  - intros a Ha. rewrite F2, F1; [done|apply Ha; left|]. intros h Hin. apply Ha. by right.
Qed.

(** Headers of the file, where they are read. *)
Lemma headers_kimg m l : ∀ ph, 0 <= ph → ph + PHSIZE * Z.of_nat (length l) <= 4096 → (∀ x, 0 <= x < 4096 → m (ELF + x) = kimg x) →
  headers kimg ph l → headers m (ELF + ph) l.
Proof.
  unfold PHSIZE. induction l as [|g l IH]; intros ph H0 Hp Hm; cbn [headers length] in *; [done|]. intros [Hg Hr]. split.
  - rewrite <- Hg. unfold seg_at, rdw. rewrite <- !Z.add_assoc. rewrite !Hm by lia. done.
  - rewrite <- Z.add_assoc. apply IH; [unfold PHSIZE; lia|unfold PHSIZE; lia|done|done].
Qed.


End boot.

(** One segment of 600 bytes of the file and 100 zeroes. *)
Definition demo_img (a : Z) : Z :=
  let o := a - 512 in
  if o =? 0 then 0x7F else if o =? 1 then 0x45 else if o =? 2 then 0x4C else if o =? 3 then 0x46
  else if o =? 26 then 0x10 else if o =? 28 then 52 else if o =? 44 then 1
  else if o =? 57 then 0x10 else if o =? 66 then 0x10 else if o =? 68 then 0x58 else if o =? 69 then 2 else if o =? 72 then 0xBC else if o =? 73 then 2
  else if o <? 4096 then 0 else o `mod` 251.

