(* ===== verification/Main.v ===== *)
(** * main.c: starting the machine, and the segments of vm.c

    main() calls the initialisation of every component; its state is a
    [board]: the kernel's data, the interrupt controllers, and per processor
    the descriptor tables it has loaded. A computation on one part is lifted to
    the board ([on_kernel], [on_apic]). The processors that startothers() wakes
    run mpenter() while the first one polls c->started: [on_cpu] runs a
    computation on another processor. The assembly between the startup
    interrupt and mpenter() (entryother.S) and the addresses that the linker
    chooses are parameters. *)
From S2P Require Import Prelude.
From S2P Require Import Ulib.
From S2P Require Import Mp.
From S2P Require Import Apic.
From S2P Require Import Cprintf.
From S2P Require Import Kernel.
From S2P Require Import Spinlock.
From S2P Require Import Memory.
From S2P Require Import Libstr.
From S2P Require Import Kalloc.
From S2P Require Import Sched.
From S2P Require Import Vm.
From S2P Require Import Uvm.
From S2P Require Import Bio.
From S2P Require Import Console.
From S2P Require Import File.
From S2P Require Import Proc.
From S2P Require Import Ide.
From S2P Require Import Trap.

(** ** Segment descriptors (mmu.h) *)

Record segdesc : Type := mk_segdesc {
  lim_15_0 : Z;
  base_15_0 : Z;
  base_23_16 : Z;
  sg_type : Z;
  sg_s : Z;
  sg_dpl : Z;
  sg_p : Z;
  lim_19_16 : Z;
  sg_avl : Z;
  sg_rsv1 : Z;
  sg_db : Z;
  sg_g : Z;
  base_31_24 : Z;
}.

Definition STA_X : Z := 0x8.
Definition STA_W : Z := 0x2.
Definition STA_R : Z := 0x2.
Definition SEG_KDATA : Z := 2.
Definition NSEGS : Z := 6.

Definition SEG (type base lim dpl : Z) : segdesc :=
  mk_segdesc (Z.land (Z.shiftr lim 12) 0xffff) (Z.land (u32 base) 0xffff)
    (Z.land (Z.shiftr (u32 base) 16) 0xff) type 1 dpl 1
    (Z.shiftr (u32 lim) 28) 0 0 1 1 (Z.shiftr (u32 base) 24).

(** ** The machine *)

Record board : Type := mk_board {
  bd_kern : kernel;
  bd_apic : Apic.hw;  (* the devices as the processor that executes sees them *)
  bd_lapics : Z → Z → Z;  (* the local APIC registers of the others, by APIC id *)
  bd_ioapicid : Z;
  bd_started : nat → Z;  (* cpus[i].started *)
  bd_gdt : list (list segdesc);  (* cpus[i].gdt *)
  bd_gdtr : Z → option (nat * Z);  (* the table a processor has loaded, and its size *)
  bd_idt : list gatedesc;
  bd_idtr : Z → Z;  (* the size of the interrupt table a processor has loaded *)
}.

Definition set_kern (v : kernel) (w : board) : board :=
  mk_board v w.(bd_apic) w.(bd_lapics) w.(bd_ioapicid) w.(bd_started) w.(bd_gdt) w.(bd_gdtr) w.(bd_idt) w.(bd_idtr).
Definition set_apic (v : Apic.hw) (w : board) : board :=
  mk_board w.(bd_kern) v w.(bd_lapics) w.(bd_ioapicid) w.(bd_started) w.(bd_gdt) w.(bd_gdtr) w.(bd_idt) w.(bd_idtr).
Definition set_lapics (v : Z → Z → Z) (w : board) : board :=
  mk_board w.(bd_kern) w.(bd_apic) v w.(bd_ioapicid) w.(bd_started) w.(bd_gdt) w.(bd_gdtr) w.(bd_idt) w.(bd_idtr).
Definition set_ioapicid (v : Z) (w : board) : board :=
  mk_board w.(bd_kern) w.(bd_apic) w.(bd_lapics) v w.(bd_started) w.(bd_gdt) w.(bd_gdtr) w.(bd_idt) w.(bd_idtr).
Definition set_started (v : nat → Z) (w : board) : board :=
  mk_board w.(bd_kern) w.(bd_apic) w.(bd_lapics) w.(bd_ioapicid) v w.(bd_gdt) w.(bd_gdtr) w.(bd_idt) w.(bd_idtr).
Definition set_gdt (v : list (list segdesc)) (w : board) : board :=
  mk_board w.(bd_kern) w.(bd_apic) w.(bd_lapics) w.(bd_ioapicid) w.(bd_started) v w.(bd_gdtr) w.(bd_idt) w.(bd_idtr).
Definition set_gdtr (v : Z → option (nat * Z)) (w : board) : board :=
  mk_board w.(bd_kern) w.(bd_apic) w.(bd_lapics) w.(bd_ioapicid) w.(bd_started) w.(bd_gdt) v w.(bd_idt) w.(bd_idtr).
Definition set_idt (v : list gatedesc) (w : board) : board :=
  mk_board w.(bd_kern) w.(bd_apic) w.(bd_lapics) w.(bd_ioapicid) w.(bd_started) w.(bd_gdt) w.(bd_gdtr) v w.(bd_idtr).
Definition set_idtr (v : Z → Z) (w : board) : board :=
  mk_board w.(bd_kern) w.(bd_apic) w.(bd_lapics) w.(bd_ioapicid) w.(bd_started) w.(bd_gdt) w.(bd_gdtr) w.(bd_idt) v.

Definition on_kernel {A} (m : K A) : M board A := λ w,
  match m w.(bd_kern) with
  | Ok a k => Ok a (set_kern k w)
  | Err e k => Err e (set_kern k w)
  | Swtch k => Swtch (set_kern k w)
  end.

Definition on_apic {A} (m : U Apic.hw A) : M board A := λ w,
  match m w.(bd_apic) with
  | URet a h => Ok a (set_apic h w)
  | UFuel h => Err NoFuel (set_apic h w)
  | UExit h | UUndef h => Err Hang (set_apic h w)
  end.

(** The devices, seen from another local APIC. *)
Definition with_lregs (r : Z → Z) (h : Apic.hw) : Apic.hw :=
  Apic.mk_hw h.(Apic.lapic) r h.(sent) h.(busy) h.(ioreg) h.(ioregs) h.(ports) h.(wrv) h.(now).

Definition as_cpu (id : Z) (w : board) : board :=
  let me := w.(bd_kern).(hw).(lapic) in
  let rs := <[me := w.(bd_apic).(lregs)]> w.(bd_lapics) in
  set_lapics rs (set_apic (with_lregs (rs id) w.(bd_apic))
    (set_kern (set_hw (set_lapic id w.(bd_kern).(hw)) w.(bd_kern)) w)).

(** [m] executed by the processor with APIC id [id]. *)
Definition on_cpu {A} (id : Z) (m : M board A) : M board A := λ w,
  let me := w.(bd_kern).(hw).(lapic) in
  match m (as_cpu id w) with
  | Ok a w' => Ok a (as_cpu me w')
  | Err e w' => Err e w'
  | Swtch w' => Swtch w'
  end.

(** The processor that executes, and the tables it loads (x86.h). *)
Definition this_cpu : M board nat := on_kernel cpuid.
Definition this_id : M board Z := get (λ w, w.(bd_kern).(hw).(lapic)).

Definition lgdt (c : nat) (size : Z) : M board unit :=
  id ← this_id;
  modify (λ w, set_gdtr (<[id := Some (c, size - 1)]> w.(bd_gdtr)) w).

Definition lidt (size : Z) : M board unit :=
  id ← this_id;
  modify (λ w, set_idtr (<[id := size - 1]> w.(bd_idtr)) w).

Definition gdt_set (c : nat) (i : Z) (d : segdesc) : M board unit :=
  modify (λ w, set_gdt (alter (λ g, <[Z.to_nat i := d]> g) c w.(bd_gdt)) w).

(** ** vm.c: seginit() *)

Definition seginit : M board unit :=
  c ← this_cpu;
  gdt_set c SEG_KCODE (SEG (Z.lor STA_X STA_R) 0 0xffffffff 0);;
  gdt_set c SEG_KDATA (SEG STA_W 0 0xffffffff 0);;
  gdt_set c SEG_UCODE (SEG (Z.lor STA_X STA_R) 0 0xffffffff DPL_USER);;
  gdt_set c SEG_UDATA (SEG STA_W 0 0xffffffff DPL_USER);;
  lgdt c (8 * NSEGS).

(** ** The calls of main() that reach more than one part *)

(** trap.c: idtinit() *)
Definition idtinit : M board unit := lidt (8 * 256).

Definition tvinit (vectors : nat → Z) : M board unit :=
  t ← on_kernel (Trap.tvinit vectors);
  modify (set_idt t).

(** mp.c: what mpinit() found goes to cpus[], ncpu, ioapicid and lapic. *)
Definition mpinit (fuel : nat) (imcr : Z) : M board unit :=
  m ← get (λ w, w.(bd_kern).(mem));
  match Mp.mpinit m fuel (mk_found [] 0 false) imcr with
  | MpPanic msg => panic msg
  | MpRunning => fail NoFuel
  | MpDone l s outs =>
      modify (λ w, set_ioapicid s.(ioapicid) (set_kern (set_hw (set_cpus
        ((λ id, mk_cpu id 0 false None 0) <$> s.(apicids)) w.(bd_kern).(hw)) w.(bd_kern)) w));;
      modify (λ w, let h := w.(bd_apic) in
        set_apic (Apic.mk_hw l h.(lregs) h.(sent) h.(busy) h.(ioreg) h.(ioregs) (h.(ports) ++ outs) h.(wrv) h.(now)) w)
  end.

Definition ioapicinit : M board unit :=
  id ← get bd_ioapicid;
  b ← on_apic (Apic.ioapicinit id);
  when b (on_kernel (cprintf ("ioapicinit: id isn't equal to ioapicid; not a MP" +:+ nl) [])).

Definition IRQ_KBD : Z := 1.
Definition IRQ_COM1 : Z := 4.
Definition IRQ_IDE : Z := 14.

Definition consoleinit : M board unit :=
  on_kernel Console.consoleinit;;
  on_apic (ioapicenable IRQ_KBD 0).

(** The serial port: the bytes sent to its registers, then what Console.v
    models; the interrupt is routed before the message is sent. *)
Definition COM1 : Z := 0x3f8.
Definition uartinit (lsr : Z) : M board unit :=
  on_apic (Apic.outb (COM1 + 2) 0;;
    Apic.outb (COM1 + 3) 0x80;;
    Apic.outb (COM1 + 0) (115200 / 9600);;
    Apic.outb (COM1 + 1) 0;;
    Apic.outb (COM1 + 3) 0x03;;
    Apic.outb (COM1 + 4) 0;;
    Apic.outb (COM1 + 1) 0x01);;
  when (negb (u8 lsr =? 0xFF)) (on_apic (ioapicenable IRQ_COM1 0));;
  on_kernel (Console.uartinit lsr).

Definition ncpu : M board Z := get (λ w, Z.of_nat (length w.(bd_kern).(hw).(cpus))).

Definition ideinit (fuel : nat) : M board unit :=
  n ← ncpu;
  on_apic (ioapicenable IRQ_IDE (n - 1));;
  on_kernel (Ide.ideinit fuel).

(** ** main.c *)

(** The entry code of the other processors goes to this address. *)
Definition ENTRYCODE : Z := P2V 0x7000.

(** The first statements of scheduler(): the processor is idle. *)
Definition scheduler_enter : K unit :=
  c ← mycpu;
  cpu_upd c (set_cproc None).

Section main.
  Context (fuel : nat) (imcr lsr : Z) (vectors : nat → Z).
  Context (entry_start entry_size mpenter_addr entrypgdir initcode initsize root : Z).

(** mpmain(), up to the loop of scheduler(). *)
Definition mpmain : M board unit :=
  c1 ← this_cpu;
  c2 ← this_cpu;
  on_kernel (cprintf ("cpu%d: starting %d" +:+ nl) [AInt (Z.of_nat c2); AInt (Z.of_nat c1)]);;
  idtinit;;
  c ← on_kernel mycpu;
  modify (λ w, set_started (<[c := 1]> w.(bd_started)) w);;
  on_kernel scheduler_enter.

Definition mpenter : M board unit :=
  on_kernel switchkvm;;
  seginit;;
  on_apic (lapicinit fuel);;
  mpmain.

(** while(c->started == 0): the processor that was sent the startup interrupt
    runs from mpenter() on. *)
Definition wait_started (c : nat) (id : Z) : M board unit :=
  s ← get (λ w, w.(bd_started) c);
  if s =? 0 then on_cpu id mpenter else mret tt.

Definition startother (c : nat) : M board unit :=
  me ← on_kernel mycpu;
  if decide (c = me) then mret tt else
  stack ← on_kernel kalloc;
  on_kernel (st32 (ENTRYCODE - 4) (u32 (stack + KSTACKSIZE)));;
  on_kernel (st32 (ENTRYCODE - 8) mpenter_addr);;
  on_kernel (st32 (ENTRYCODE - 12) (V2P entrypgdir));;
  x ← get (λ w, w.(bd_kern).(hw).(cpus) !! c);
  match x with
  | None => fail (CpuFault "cpus[]")
  | Some x =>
      on_apic (lapicstartap x.(apicid) (V2P ENTRYCODE));;
      wait_started c x.(apicid)
  end.

Fixpoint startothers_loop (n c : nat) : M board unit :=
  match n with
  | O => mret tt
  | S n' => startother c;; startothers_loop n' (S c)
  end.

Definition startothers : M board unit :=
  on_kernel (memmove ENTRYCODE entry_start (u32 entry_size));;
  n ← ncpu;
  startothers_loop (Z.to_nat n) 0.

Definition main : M board unit :=
  e ← get (λ w, w.(bd_kern).(kend));
  on_kernel (kinit1 fuel e (P2V (4 * 1024 * 1024)));;
  on_kernel kvmalloc;;
  mpinit fuel imcr;;
  on_apic (lapicinit fuel);;
  seginit;;
  on_apic picinit;;
  ioapicinit;;
  consoleinit;;
  uartinit lsr;;
  on_kernel pinit;;
  tvinit vectors;;
  on_kernel binit;;
  on_kernel fileinit;;
  ideinit fuel;;
  startothers;;
  on_kernel (kinit2 fuel (P2V (4 * 1024 * 1024)) (P2V PHYSTOP));;
  on_kernel (userinit fuel initcode initsize root);;
  mpmain.

End main.

(** The page table of entry.S and entryother.S: 4 MB pages. *)
Definition PTE_PS : Z := 0x80.
Definition entrypgdir_table (i : nat) : Z :=
  if decide (i = 0%nat ∨ i = Z.to_nat (Z.shiftr KERNBASE 22)) then Z.lor (Z.lor (Z.lor 0 PTE_P) PTE_W) PTE_PS else 0.

(** ** Segments *)

(** The base and the limit that the processor takes from a descriptor. *)
Definition seg_base (d : segdesc) : Z := d.(base_15_0) + Z.shiftl d.(base_23_16) 16 + Z.shiftl d.(base_31_24) 24.
Definition seg_limit (d : segdesc) : Z :=
  let l := d.(lim_15_0) + Z.shiftl d.(lim_19_16) 16 in
  if d.(sg_g) =? 1 then l * 4096 + 4095 else l.

(** A descriptor holds the whole base, and the limit in pages. *)
Lemma SEG_base t b l d : is_u32 b → seg_base (SEG t b l d) = b.
Proof.
  intros Hb. unfold is_u32 in Hb. unfold seg_base, SEG. cbn [base_15_0 base_23_16 base_31_24]. rewrite u32_small by done.
  change 0xffff with (Z.ones 16). change 0xff with (Z.ones 8). rewrite !Z.land_ones, !Z.shiftr_div_pow2, !Z.shiftl_mul_pow2 by lia.
  Z.to_euclidean_division_equations. lia.
Qed.

Lemma SEG_limit t b l d : is_u32 l → seg_limit (SEG t b l d) = l / 4096 * 4096 + 4095.
Proof.
  intros Hl. unfold is_u32 in Hl. unfold seg_limit, SEG. cbn [lim_15_0 lim_19_16 sg_g]. rewrite Z.eqb_refl, u32_small by done.
  change 0xffff with (Z.ones 16). rewrite !Z.land_ones, !Z.shiftr_div_pow2, !Z.shiftl_mul_pow2 by lia.
  Z.to_euclidean_division_equations. lia.
Qed.

(** Code and data of kernel and user are the whole address space. *)
Definition flat (g : list segdesc) : Prop :=
  ∀ i t d, (i, t, d) ∈ [(SEG_KCODE, Z.lor STA_X STA_R, 0); (SEG_KDATA, STA_W, 0); (SEG_UCODE, Z.lor STA_X STA_R, DPL_USER); (SEG_UDATA, STA_W, DPL_USER)] →
  ∃ s, g !! Z.to_nat i = Some s ∧ seg_base s = 0 ∧ seg_limit s = 2 ^ 32 - 1 ∧ s.(sg_type) = t ∧ s.(sg_dpl) = d ∧ s.(sg_p) = 1.

(** What seginit() stores. *)
Definition flat_gdt (g : list segdesc) : list segdesc :=
  <[Z.to_nat SEG_UDATA := SEG STA_W 0 0xffffffff DPL_USER]> (<[Z.to_nat SEG_UCODE := SEG (Z.lor STA_X STA_R) 0 0xffffffff DPL_USER]>
    (<[Z.to_nat SEG_KDATA := SEG STA_W 0 0xffffffff 0]> (<[Z.to_nat SEG_KCODE := SEG (Z.lor STA_X STA_R) 0 0xffffffff 0]> g))).

Lemma flat_gdt_flat g : length g = 6%nat → flat (flat_gdt g).
Proof.
  intros Hg i t d Hin. do 6 (destruct g as [|? g]; [done|]). 
  rewrite !elem_of_cons in Hin. destruct Hin as [H|[H|[H|[H|H]]]]; [..|by apply elem_of_nil in H];
    injection H as -> -> ->; eexists; (split; [reflexivity|]); by vm_compute.
Qed.

(** ** The other processors *)

(** What initialising a processor leaves of the others. *)
Record hw_same (h h' : machine) : Prop := {
  hs_lapic : h'.(lapic) = h.(lapic);
  hs_if : h'.(eflags_if) = h.(eflags_if);
  hs_locks : h'.(locks) = h.(locks);
  hs_cpus : (λ x, (x.(apicid), x.(ncli))) <$> h'.(cpus) = (λ x, (x.(apicid), x.(ncli))) <$> h.(cpus);
}.

#[export] Instance hw_same_preorder : PreOrder hw_same.
Proof. split; [done|]. intros h1 h2 h3 [A1 A2 A3 A4] [B1 B2 B3 B4]. split; congruence. Qed.

Lemma hw_same_alter c f h : (∀ x, (f x).(apicid) = x.(apicid) ∧ (f x).(ncli) = x.(ncli)) → hw_same h (alter_cpu c f h).
Proof.
  intros Hf. split; try done. cbn. apply list_eq. intros j. rewrite !list_lookup_fmap. destruct (decide (j = c)) as [->|].
  - rewrite list_lookup_alter_eq. destruct (h.(cpus) !! c) as [x|]; [|done]. cbn. destruct (Hf x) as [-> ->]. done.
  - by rewrite list_lookup_alter_ne.
Qed.

Lemma settled_same c h h' : settled c h h' → hw_same h h'.
Proof. intros [->|[_ ->]]; [done|]. apply hw_same_alter. intros x. by case_match. Qed.

Lemma hw_same_cr3 h v : hw_same h (set_cr3 v h).
Proof. done. Qed.

Lemma on_kernel_ok {A} (m : K A) w a k : m w.(bd_kern) = Ok a k → on_kernel m w = Ok a (set_kern k w).
Proof. intros E. unfold on_kernel. by rewrite E. Qed.

Lemma on_apic_ok {A} (m : U Apic.hw A) w a h : m w.(bd_apic) = URet a h → on_apic m w = Ok a (set_apic h w).
Proof. intros E. unfold on_apic. by rewrite E. Qed.

(** The processor that executes is cpus[c], outside any critical section. *)
Record running (k : kernel) (c : nat) : Prop := {
  ru_cpu : cpu_at k.(hw) c 0;
  ru_if : IF_of k.(hw) = false;
}.

Lemma running_mycpu k c : running k c → mycpu k = Ok c k.
Proof. intros [(x & Hx & _) HI]. by eapply mycpu_ok. Qed.

Lemma hw_same_lookup h h' c x : hw_same h h' → h.(cpus) !! c = Some x → ∃ y, h'.(cpus) !! c = Some y ∧ y.(apicid) = x.(apicid) ∧ y.(ncli) = x.(ncli).
Proof.
  intros [_ _ _ E] Hx. apply (f_equal (λ l, l !! c)) in E. rewrite !list_lookup_fmap, Hx in E. cbn in E.
  destruct (h'.(cpus) !! c) as [y|]; [|done]. cbn in E. injection E as E1 E2. by exists y.
Qed.

Lemma hw_same_sym h h' : hw_same h h' → hw_same h' h.
Proof. by intros [A1 A2 A3 A4]. Qed.

Lemma running_same k k' c : hw_same k.(hw) k'.(hw) → running k c → running k' c.
Proof.
  intros Hs [(x & [X1 X2 X3] & Hn & H0 & Hi) HI]. pose proof Hs as [A1 A2 A3 A4]. destruct (hw_same_lookup _ _ _ _ Hs X1) as (y & Y1 & Y2 & Y3).
  split; [|unfold IF_of in *; by rewrite A1, A2]. exists y. split_and!; [split; [done|by rewrite A1, Y2|]|congruence|lia|unfold IF_of in *; by rewrite A1, A2].
  intros j z Hj Hz. destruct (hw_same_lookup _ _ _ _ (hw_same_sym _ _ Hs) Hz) as (z' & Z1 & Z2 & _). rewrite A1, <- Z2. by apply (X3 j).
Qed.

Lemma running_cons k c : running k c → cons_ok k.(cons) → lk_free k.(hw) LCons → cons_ready k c.
Proof. intros [Hc _] Ho Hl. split; [done|]. right. split; [exists 0; split; [done|lia]|done]. Qed.

Lemma seginit_ok w c : running w.(bd_kern) c →
  seginit w = Ok tt (set_gdtr (<[w.(bd_kern).(hw).(lapic) := Some (c, 47)]> w.(bd_gdtr)) (set_gdt (alter flat_gdt c w.(bd_gdt)) w)).
Proof.
  intros Hc. unfold seginit, this_cpu, cpuid. mstep by (apply on_kernel_ok, running_mycpu, Hc).
  unfold gdt_set, lgdt, this_id. repeat mstep. unfold modify. do 2 f_equal. unfold set_gdt. cbn. f_equal.
  apply list_eq. intros j. destruct (decide (j = c)) as [->|]; [rewrite !list_lookup_alter_eq; by destruct (w.(bd_gdt) !! c)|by rewrite !list_lookup_alter_ne].
Qed.

(** mpmain() on cpus[c], up to the scheduler's loop. *)
Lemma mpmain_ok w c : running w.(bd_kern) c → cons_ok w.(bd_kern).(cons) → lk_free w.(bd_kern).(hw) LCons →
  let k := w.(bd_kern) in let id := k.(hw).(lapic) in
  ∃ h s, mpmain w = Ok tt (mk_board (set_hw h (set_cons s k)) w.(bd_apic) w.(bd_lapics) w.(bd_ioapicid)
      (<[c := 1]> w.(bd_started)) w.(bd_gdt) w.(bd_gdtr) w.(bd_idt) (<[id := 2047]> w.(bd_idtr))) ∧
    hw_same k.(hw) h ∧ h.(cr3) = k.(hw).(cr3) ∧ cons_ok s.
Proof.
  intros Hc Hco Hl k id. assert (∃ l, render (codes ("cpu%d: starting %d" +:+ nl)) [AInt (Z.of_nat c); AInt (Z.of_nat c)] = Some l) as [l Hr] by (eexists; reflexivity).
  destruct (cprintf_ok _ _ l k c (running_cons k c Hc Hco Hl) Hr) as (h & k2 & E2 & (s & -> & Hs & _) & Hst).
  pose proof (settled_same _ _ _ Hst) as Hsame. set (k3 := set_hw h (set_cons s k)) in E2. assert (Hc3 : running k3 c) by (by apply (running_same k)).
  assert (Eid : h.(lapic) = id) by apply Hsame.
  exists (alter_cpu c (set_cproc None) h), s. split_and!; [|etransitivity; [apply Hsame|]; by apply hw_same_alter|cbn; by rewrite (proj1 (settled_cr3 _ _ _ Hst))|done].
  unfold mpmain, this_cpu, cpuid. do 2 (mstep by (apply on_kernel_ok, running_mycpu, Hc)). mstep by (apply on_kernel_ok, E2).
  unfold idtinit, lidt, this_id. mstep. mstep by (apply on_kernel_ok, running_mycpu, Hc3). mstep.
  erewrite on_kernel_ok; [|unfold scheduler_enter; mstep by (apply running_mycpu, Hc3); reflexivity]. cbn. by rewrite Eid.
Qed.

(** mpenter() on cpus[c]. *)
Lemma mpenter_ok fuel w c : running w.(bd_kern) c → cons_ok w.(bd_kern).(cons) → lk_free w.(bd_kern).(hw) LCons →
  w.(bd_apic).(Apic.lapic) ≠ 0 → (w.(bd_apic).(busy) < fuel)%nat →
  let k := w.(bd_kern) in let id := k.(hw).(lapic) in
  ∃ h s, mpenter fuel w = Ok tt (mk_board (set_hw h (set_cons s k)) (wrote (lapic_setup (w.(bd_apic).(lregs) VER)) 0 w.(bd_apic)) w.(bd_lapics) w.(bd_ioapicid)
      (<[c := 1]> w.(bd_started)) (alter flat_gdt c w.(bd_gdt)) (<[id := Some (c, 47)]> w.(bd_gdtr)) w.(bd_idt) (<[id := 2047]> w.(bd_idtr))) ∧
    hw_same k.(hw) h ∧ h.(cr3) = <[id := V2P k.(kpgdir)]> k.(hw).(cr3) ∧ cons_ok s.
Proof.
  intros Hc Hco Hl Hap Hb k id. set (k1 := set_hw (set_cr3 (<[id := V2P k.(kpgdir)]> k.(hw).(cr3)) k.(hw)) k).
  assert (Hc1 : running k1 c) by (by apply (running_same k)).
  destruct (mpmain_ok (set_apic (wrote (lapic_setup (w.(bd_apic).(lregs) VER)) 0 w.(bd_apic))
    (set_gdtr (<[id := Some (c, 47)]> w.(bd_gdtr)) (set_gdt (alter flat_gdt c w.(bd_gdt)) (set_kern k1 w)))) c Hc1 Hco Hl) as (h & s & E & Hs & Hcr & Hcons).
  exists h, s. split_and!; [|by destruct Hs|exact Hcr|done]. unfold mpenter. mstep by (apply (on_kernel_ok switchkvm _ tt k1); reflexivity). mstep by (apply seginit_ok, Hc1).
  mstep by (apply on_apic_ok, lapicinit_done; done). exact E.
Qed.

(** The interrupts that start the processor [id] at [addr]. *)
Definition start_writes (id addr : Z) : list (Z * Z) :=
  let to := (ICRHI, u32 (Z.shiftl id 24)) in
  let go := (ICRLO, Z.lor STARTUP (Z.shiftr addr 12)) in
  [to; (ICRLO, Z.lor (Z.lor INIT LEVEL) ASSERT); (ICRLO, Z.lor INIT LEVEL); to; go; to; go].

Lemma lapicstartap_done id addr h : ∃ h', lapicstartap id addr h = URet tt h' ∧ h'.(Apic.lapic) = h.(Apic.lapic) ∧ h'.(busy) = h.(busy) ∧
  h'.(sent) = h.(sent) ++ start_writes id addr.
Proof.
  unfold lapicstartap. do 3 (erewrite ubind_ret; [|reflexivity]).
  set (h1 := Apic.mk_hw _ _ _ _ _ _ _ (0, _) _). assert (Eh : wrote [] h1.(busy) h1 = h1) by (unfold wrote; cbn; by rewrite app_nil_r). rewrite <- Eh.
  do 3 (rewrite (ubind_ret _ _ _ _ _ (lapicw_wrote _ _ _ _ _))). unfold startup_turn.
  erewrite ubind_ret; [|rewrite (ubind_ret _ _ _ _ _ (lapicw_wrote _ _ _ _ _)), lapicw_wrote; reflexivity].
  rewrite (ubind_ret _ _ _ _ _ (lapicw_wrote _ _ _ _ _)), lapicw_wrote. by eexists.
Qed.

(** The state while the processors are started; [l] are the free pages. *)
Record booting (fuel : nat) (w : board) (l : list Z) : Prop := {
  bo_ids : NoDup (apicid <$> w.(bd_kern).(hw).(cpus));
  bo_if : ∀ id, w.(bd_kern).(hw).(eflags_if) id = false;
  bo_cli : ∀ j x, w.(bd_kern).(hw).(cpus) !! j = Some x → x.(ncli) = 0;
  bo_cons : cons_ok w.(bd_kern).(cons);
  bo_lock : lk_free w.(bd_kern).(hw) LCons;
  bo_kmem : w.(bd_kern).(kmem).(use_lock) = 0;
  bo_free : free_ok w.(bd_kern) l;
  bo_apic : w.(bd_apic).(Apic.lapic) ≠ 0;
  bo_busy : (w.(bd_apic).(busy) < fuel)%nat;
  bo_gdt : ∀ j x, w.(bd_kern).(hw).(cpus) !! j = Some x → ∃ g, w.(bd_gdt) !! j = Some g ∧ length g = 6%nat;
}.

Lemma booting_running fuel w l id c x : booting fuel w l → w.(bd_kern).(hw).(cpus) !! c = Some x → x.(apicid) = id →
  running (set_hw (set_lapic id w.(bd_kern).(hw)) w.(bd_kern)) c.
Proof.
  intros Hb Hx <-. split; [|apply (bo_if _ _ _ Hb)]. exists x. split_and!; [split; [done|done|]|by eapply bo_cli|done|done].
  intros j y Hj Hy E. change (w.(bd_kern).(hw).(cpus) !! j = Some y) in Hy. assert (j = c); [|lia]. eapply (NoDup_lookup _ _ _ _ (bo_ids _ _ _ Hb)); rewrite list_lookup_fmap; [by rewrite Hy|]. rewrite Hx. cbn in E |- *. by rewrite E.
Qed.

(** Only these parts of the board matter. *)
Lemma booting_next fuel w l w' l' : booting fuel w l → hw_same (set_lapic w'.(bd_kern).(hw).(lapic) w.(bd_kern).(hw)) w'.(bd_kern).(hw) →
  cons_ok w'.(bd_kern).(cons) → w'.(bd_kern).(kmem).(use_lock) = 0 → free_ok w'.(bd_kern) l' → w'.(bd_apic).(Apic.lapic) ≠ 0 → (w'.(bd_apic).(busy) < fuel)%nat →
  (∀ j g, w.(bd_gdt) !! j = Some g → length g = 6%nat → ∃ g', w'.(bd_gdt) !! j = Some g' ∧ length g' = 6%nat) → booting fuel w' l'.
Proof.
  intros [B1 B2 B3 B4 B5 B6 B7 B8 B9 B10] Hs H1 H2 H3 H4 H5 H6. pose proof Hs as [_ S2 S3 S4]. cbn in S2, S3, S4.
  assert (Hback : ∀ j y, w'.(bd_kern).(hw).(cpus) !! j = Some y → ∃ x, w.(bd_kern).(hw).(cpus) !! j = Some x ∧ x.(apicid) = y.(apicid) ∧ x.(ncli) = y.(ncli)).
  { intros j y Hy. exact (hw_same_lookup _ _ _ _ (hw_same_sym _ _ Hs) Hy). }
  split; try done.
  - assert (E : apicid <$> w'.(bd_kern).(hw).(cpus) = apicid <$> w.(bd_kern).(hw).(cpus)); [|by rewrite E].
    apply (f_equal (fmap fst)) in S4. by rewrite <- !list_fmap_compose in S4.
  - intros id. by rewrite S2.
  - intros j y Hy. destruct (Hback j y Hy) as (x & Hx & _ & <-). by eapply B3.
  - by unfold lk_free; rewrite S3.
  - intros j y Hy. destruct (Hback j y Hy) as (x & Hx & _). destruct (B10 j x Hx) as (g & Hg & Hl). by eapply H6.
Qed.

(** What starting cpus[c], with entry [x], leaves. *)
Record started_one (w : board) (c : nat) (x : cpu) (w' : board) : Prop := {
  so_hw : hw_same w.(bd_kern).(hw) w'.(bd_kern).(hw);
  so_cr3 : w'.(bd_kern).(hw).(cr3) = <[x.(apicid) := V2P w.(bd_kern).(kpgdir)]> w.(bd_kern).(hw).(cr3);
  so_kpgdir : w'.(bd_kern).(kpgdir) = w.(bd_kern).(kpgdir);
  so_kend : w'.(bd_kern).(kend) = w.(bd_kern).(kend);
  so_started : w'.(bd_started) = <[c := 1]> w.(bd_started);
  so_gdt : w'.(bd_gdt) = alter flat_gdt c w.(bd_gdt);
  so_gdtr : w'.(bd_gdtr) = <[x.(apicid) := Some (c, 47)]> w.(bd_gdtr);
  so_idtr : w'.(bd_idtr) = <[x.(apicid) := 2047]> w.(bd_idtr);
  so_lapics : ∀ id, id ≠ w.(bd_kern).(hw).(lapic) → id ≠ x.(apicid) → w'.(bd_lapics) id = w.(bd_lapics) id;
  so_sent : w'.(bd_apic).(sent) = w.(bd_apic).(sent) ++ start_writes x.(apicid) 0x7000 ++ lapic_setup (w.(bd_lapics) x.(apicid) VER);
}.

(** The words below the entry code are not in a free page. *)
Lemma free_ok_below k l a v : free_ok k l → kaddr a 4 → a + 4 <= k.(kend) → free_ok (set_mem (wr32 a v k.(mem)) k) l.
Proof.
  intros [F1 F2 F3 F4] Ha He. split; try done. eapply flist_ext; [|exact F1]. intros p Hp. rewrite Forall_forall in F3. destruct (F3 p Hp) as (P1 & P2 & P3).
  symmetry. apply rd32_wr32_ne; [done|unfold kaddr, PHYSTOP, PGSIZE, KERNBASE, kend_ok in *; lia|lia].
Qed.

(** [mpenter] on the processor [id]. *)
Lemma on_cpu_ok fuel w l c x : booting fuel w l → w.(bd_kern).(hw).(cpus) !! c = Some x → x.(apicid) ≠ w.(bd_kern).(hw).(lapic) →
  ∃ w', on_cpu x.(apicid) (mpenter fuel) w = Ok tt w' ∧ booting fuel w' l ∧ 
    hw_same w.(bd_kern).(hw) w'.(bd_kern).(hw) ∧ w'.(bd_kern).(hw).(cr3) = <[x.(apicid) := V2P w.(bd_kern).(kpgdir)]> w.(bd_kern).(hw).(cr3) ∧
    w'.(bd_kern).(kpgdir) = w.(bd_kern).(kpgdir) ∧ w'.(bd_kern).(kend) = w.(bd_kern).(kend) ∧ 
    w'.(bd_started) = <[c := 1]> w.(bd_started) ∧ w'.(bd_gdt) = alter flat_gdt c w.(bd_gdt) ∧ w'.(bd_gdtr) = <[x.(apicid) := Some (c, 47)]> w.(bd_gdtr) ∧
    w'.(bd_idtr) = <[x.(apicid) := 2047]> w.(bd_idtr) ∧ (∀ id, id ≠ w.(bd_kern).(hw).(lapic) → id ≠ x.(apicid) → w'.(bd_lapics) id = w.(bd_lapics) id) ∧
    w'.(bd_apic).(sent) = w.(bd_apic).(sent) ++ lapic_setup (w.(bd_lapics) x.(apicid) VER).
Proof.
  intros Hb Hx Hne. pose proof Hb as [B1 B2 B3 B4 B5 B6 B7 B8 B9 B10]. pose proof (booting_running _ _ _ _ _ _ Hb Hx eq_refl) as Hrun.
  destruct (mpenter_ok fuel (as_cpu x.(apicid) w) c Hrun B4 B5 B8 B9) as (h & s & E & Hs & Hcr & Hc). pose proof Hs as [S1 S2 S3 S4]. cbn in S1, S2, S3, S4.
  unfold on_cpu. rewrite E. eexists. split; [reflexivity|]. cbn. split_and!; try done.
  - eapply booting_next; [exact Hb|..]; cbn; try done.
    + split; [apply B7|apply B7|apply B7|apply B7].
    + lia.
    + intros j g Hg Hl. destruct (decide (j = c)) as [->|]; [rewrite list_lookup_alter_eq, Hg|rewrite list_lookup_alter_ne by done; by exists g].
      eexists. split; [reflexivity|]. unfold flat_gdt. by rewrite !length_insert.
  - intros id H1 H2. rewrite S1. rewrite !fn_lookup_insert_ne by done. done.
  - do 2 f_equal. cbn. by rewrite fn_lookup_insert_ne.
Qed.

Lemma startother_ok fuel mpa epd w b l c x p :
  booting fuel w (p :: l) → running w.(bd_kern) b → w.(bd_kern).(hw).(cpus) !! c = Some x → c ≠ b → w.(bd_started) c = 0 → ENTRYCODE <= w.(bd_kern).(kend) →
  ∃ w', startother fuel mpa epd c w = Ok tt w' ∧ booting fuel w' l ∧ running w'.(bd_kern) b ∧ started_one w c x w'.
Proof.
  intros Hb Hrun Hx Hcb Hst Hend. pose proof Hb as [B1 B2 B3 B4 B5 B6 B7 B8 B9 B10].
  destruct (kalloc_ok _ b (p :: l) B7 ltac:(by left)) as (k1 & E1 & Hfr & Hf1 & Hm1). cbn [head tail default from_option id] in E1, Hf1.
  pose proof (kmem_frame_kend _ _ _ Hfr) as Hke. pose proof (kmem_frame_settled _ _ _ Hfr) as Hset.
  assert (Hent : ∀ j, 0 <= j < 3 → kaddr (ENTRYCODE - 12 + 4 * j) 4) by (intros j Hj; unfold kaddr, ENTRYCODE, KERNBASE; change (P2V 28672) with 0x80007000; lia).
  pose proof (Hent 0 ltac:(lia)) as K0. pose proof (Hent 1 ltac:(lia)) as K1. pose proof (Hent 2 ltac:(lia)) as K2. clear Hent.
  replace (ENTRYCODE - 12 + 4 * 0) with (ENTRYCODE - 12) in K0 by lia. replace (ENTRYCODE - 12 + 4 * 1) with (ENTRYCODE - 8) in K1 by lia.
  replace (ENTRYCODE - 12 + 4 * 2) with (ENTRYCODE - 4) in K2 by lia.
  set (k2 := set_mem (wr32 (ENTRYCODE - 4) (u32 (p + KSTACKSIZE)) k1.(mem)) k1). assert (Hf2 : free_ok k2 l) by (apply free_ok_below; [done|done|lia]).
  set (k3 := set_mem (wr32 (ENTRYCODE - 8) mpa k2.(mem)) k2). assert (Hf3 : free_ok k3 l) by (apply free_ok_below; [done|done|change (kend k2) with (kend k1); lia]).
  set (k4 := set_mem (wr32 (ENTRYCODE - 12) (V2P epd) k3.(mem)) k3). assert (Hf4 : free_ok k4 l) by (apply free_ok_below; [done|done|change (kend k3) with (kend k1); lia]).
  pose proof (settled_same _ _ _ Hset) as Hs1. assert (Hs4 : hw_same w.(bd_kern).(hw) k4.(hw)) by exact Hs1.
  destruct (hw_same_lookup _ _ _ _ Hs4 Hx) as (y & Hy & Hya & Hyn).
  destruct (lapicstartap_done y.(apicid) (V2P ENTRYCODE) w.(bd_apic)) as (h' & E5 & Hl5 & Hb5 & Hs5).
  set (w5 := set_apic h' (set_kern k4 w)).
  assert (Hbo5 : booting fuel w5 l).
  { destruct Hfr as (hh & mm & ff & -> & _). eapply booting_next; [exact Hb|..]; cbn; try done; [by destruct Hs1|by rewrite Hl5|by rewrite Hb5|intros j g Hg Hl; by exists g]. }
  assert (Hne : y.(apicid) ≠ k4.(hw).(lapic)).
  { rewrite (hs_lapic _ _ Hs4), Hya. intros E. apply Hcb. destruct Hrun as [(z & [Z1 Z2 _] & _) _].
    eapply (NoDup_lookup _ _ _ _ B1); rewrite list_lookup_fmap; [by rewrite Hx|rewrite Z1; cbn; by rewrite Z2, E]. }
  destruct (on_cpu_ok fuel w5 l c y Hbo5 Hy Hne) as (w' & E6 & Hbo & Q1 & Q2 & Q3 & Q4 & Q5 & Q6 & Q7 & Q8 & Q9 & Q10).
  exists w'. split_and!; [|done|apply (running_same w.(bd_kern)); [|done]; etransitivity; [exact Hs4|exact Q1]|].
  - unfold startother. mstep by (apply on_kernel_ok, running_mycpu, Hrun). rewrite decide_False by done.
    mstep by (apply on_kernel_ok; exact E1). mstep by (apply on_kernel_ok; exact (st32_kern _ _ _ K2)). mstep by (apply on_kernel_ok; exact (st32_kern _ _ _ K1)).
    mstep by (apply on_kernel_ok; exact (st32_kern _ _ _ K0)). mstep. lazymatch goal with |- context [match ?t with Some _ => _ | None => _ end] => change t with (k4.(hw).(cpus) !! c) end. rewrite Hy. mstep by (apply on_apic_ok; exact E5).
    unfold wait_started. mstep. lazymatch goal with |- context [if ?t =? 0 then _ else _] => change t with (w.(bd_started) c) end. rewrite Hst. exact E6.
  - split.
    + etransitivity; [exact Hs4|exact Q1].
    + rewrite Q2, Hya. destruct Hfr as (hh & mm & ff & -> & Hsc). cbn. by rewrite (proj1 (settled_cr3 _ _ _ Hsc)).
    + rewrite Q3. by destruct Hfr as (hh & mm & ff & -> & Hsc).
    + rewrite Q4. exact Hke.
    + exact Q5.
    + exact Q6.
    + by rewrite Q7, Hya.
    + by rewrite Q8, Hya.
    + intros id H1 H2. apply Q9; [|by rewrite Hya]. cbn. by rewrite (hs_lapic _ _ Hs1).
    + rewrite Q10. cbn. rewrite Hs5, Hya, <- app_assoc. done.
Qed.

(** The processors before [c], other than the first one [b], are up. *)
Definition up_to (w0 : board) (b c : nat) (w : board) : Prop :=
  ∀ j x, (j < c)%nat → j ≠ b → w0.(bd_kern).(hw).(cpus) !! j = Some x →
  w.(bd_started) j = 1 ∧ (∃ g, w.(bd_gdt) !! j = Some g ∧ flat g) ∧ w.(bd_gdtr) x.(apicid) = Some (j, 47) ∧ w.(bd_idtr) x.(apicid) = 2047 ∧
  w.(bd_kern).(hw).(cr3) x.(apicid) = V2P w0.(bd_kern).(kpgdir) ∧
  ∃ s1 s2, w.(bd_apic).(sent) = w0.(bd_apic).(sent) ++ s1 ++ (start_writes x.(apicid) 0x7000 ++ lapic_setup (w0.(bd_lapics) x.(apicid) VER)) ++ s2.

(** The processors from [c] on are as they were. *)
Record waiting (w0 : board) (b c : nat) (w : board) : Prop := {
  wg_hw : hw_same w0.(bd_kern).(hw) w.(bd_kern).(hw);
  wg_kpgdir : w.(bd_kern).(kpgdir) = w0.(bd_kern).(kpgdir);
  wg_kend : w.(bd_kern).(kend) = w0.(bd_kern).(kend);
  wg_started : ∀ j, (c <= j)%nat → w.(bd_started) j = w0.(bd_started) j;
  wg_lapics : ∀ j x, (c <= j)%nat → j ≠ b → w0.(bd_kern).(hw).(cpus) !! j = Some x → w.(bd_lapics) x.(apicid) = w0.(bd_lapics) x.(apicid);
  wg_sent : ∃ s, w.(bd_apic).(sent) = w0.(bd_apic).(sent) ++ s;
  wg_up : up_to w0 b c w;
}.

Lemma waiting_skip w0 b w : waiting w0 b b w → waiting w0 b (S b) w.
Proof.
  intros [G1 G2 G3 G4 G5 G6 G7]. split; try done; [intros j Hj; apply G4; lia|intros j x Hj; apply G5; lia|].
  intros j x Hj Hb. apply G7; [lia|done].
Qed.

Lemma waiting_step fuel l w0 b c w x w' : waiting w0 b c w → booting fuel w l → running w.(bd_kern) b → c ≠ b → w.(bd_kern).(hw).(cpus) !! c = Some x → started_one w c x w' → waiting w0 b (S c) w'.
Proof.
  intros [G1 G2 G3 G4 G5 (s0 & G6) G7] Hb Hrun Hcb Hx [O1 O2 O3 O4 O5 O6 O7 O8 O9 O10].
  destruct (hw_same_lookup _ _ _ _ (hw_same_sym _ _ G1) Hx) as (x0 & Hx0 & Ea & _).
  assert (Hids : ∀ j z, j ≠ c → w0.(bd_kern).(hw).(cpus) !! j = Some z → z.(apicid) ≠ x.(apicid)).
  { intros j z Hj Hz E. apply Hj. destruct (hw_same_lookup _ _ _ _ G1 Hz) as (z' & Hz' & Ez & _).
    eapply (NoDup_lookup _ _ _ _ (bo_ids _ _ _ Hb)); rewrite list_lookup_fmap; [by rewrite Hz'|]. rewrite Hx. cbn. congruence. }
  split; [by etransitivity|congruence|congruence| | | |].
  - intros j Hj. rewrite O5, fn_lookup_insert_ne by lia. apply G4. lia.
  - intros j z Hj Hjb Hz. rewrite O9; [apply (G5 j); [lia|done|done]| |by apply (Hids j); [lia|]].
    destruct Hrun as [(y & [Y1 Y2 Y3] & _) _]. rewrite <- Y2. destruct (hw_same_lookup _ _ _ _ G1 Hz) as (z' & Hz' & Ez & _).
    intros E. apply Hjb. eapply (NoDup_lookup _ _ _ _ (bo_ids _ _ _ Hb)); rewrite list_lookup_fmap; [by rewrite Hz'|]. rewrite Y1. cbn. congruence.
  - rewrite O10, G6, <- app_assoc. by eexists.
  - intros j z Hj Hjb Hz. destruct (decide (j = c)) as [->|Hjc].
    + rewrite Hx0 in Hz. injection Hz as <-. rewrite O5, O6, O7, O8, O2, Ea, !fn_lookup_insert. split_and!; try done.
      * destruct (bo_gdt _ _ _ Hb c x Hx) as (g & Hg & Hl). exists (flat_gdt g). split; [by rewrite list_lookup_alter_eq, Hg|by apply flat_gdt_flat].
      * by rewrite G2.
      * exists s0, []. rewrite O10, G6, app_nil_r, <- app_assoc. rewrite <- Ea at 2. by rewrite (G5 c x0), Ea by (lia || done).
    + destruct (G7 j z ltac:(lia) Hjb Hz) as (U1 & U2 & U3 & U4 & U5 & s1 & s2 & U6). pose proof (Hids j z Hjc Hz).
      rewrite O5, O6, O7, O8, O2, !fn_lookup_insert_ne by done. rewrite list_lookup_alter_ne by done. split_and!; try done.
      eexists s1, _. rewrite O10, U6, <- !app_assoc. reflexivity.
Qed.

Lemma startothers_loop_ok fuel mpa epd w0 b n : ∀ c w l, 
  waiting w0 b c w → booting fuel w l → running w.(bd_kern) b → ENTRYCODE <= w.(bd_kern).(kend) → (c + n = length w0.(bd_kern).(hw).(cpus))%nat →
  (∀ j, (c <= j)%nat → j ≠ b → w0.(bd_started) j = 0) → (n - (if decide (c <= b)%nat then 1 else 0) <= length l)%nat → (b < c + n)%nat →
  ∃ w', startothers_loop fuel mpa epd n c w = Ok tt w' ∧ waiting w0 b (c + n) w' ∧ running w'.(bd_kern) b ∧
    booting fuel w' (drop (n - (if decide (c <= b)%nat then 1 else 0)) l).
Proof.
  induction n as [|n IH]; intros c w l Hw Hb Hrun He Hn Hz Hl Hbn; cbn [startothers_loop].
  - exists w. rewrite Nat.add_0_r, drop_0. done.
  - destruct (decide (c = b)) as [->|Hcb].
    + destruct (IH (S b) w l) as (w' & E & W' & R' & B'); [by apply waiting_skip|done|done|done|lia|intros j Hj; apply Hz; lia| |lia|].
      { rewrite decide_False by lia. rewrite decide_True in Hl by lia. lia. }
      exists w'. rewrite decide_False in B' by lia. rewrite decide_True by lia. replace (b + S n)%nat with (S b + n)%nat by lia. replace (S n - 1)%nat with (n - 0)%nat by lia. split_and!; try done.
      unfold startother. erewrite bind_Ok; [exact E|]. mstep by (apply on_kernel_ok, running_mycpu, Hrun). rewrite decide_True by done. by destruct w.
    + pose proof Hw as [G1 G2 G3 G4 G5 G6 G7]. destruct (lookup_lt_is_Some_2 w0.(bd_kern).(hw).(cpus) c ltac:(lia)) as [x0 Hx0].
      destruct (hw_same_lookup _ _ _ _ G1 Hx0) as (x & Hx & _). destruct l as [|p l]; [cbn in Hl; case_decide; lia|].
      destruct (startother_ok fuel mpa epd w b l c x p Hb Hrun Hx Hcb) as (w1 & E1 & B1 & R1 & S1); [rewrite G4 by lia; by apply Hz; lia|done|].
      destruct (IH (S c) w1 l) as (w' & E & W' & R' & B'); [by eapply waiting_step|done|done|by rewrite (so_kend _ _ _ _ S1)|lia|intros j Hj; apply Hz; lia| |lia|].
      { cbn in Hl. repeat case_decide; lia. }
      exists w'. replace (c + S n)%nat with (S c + n)%nat by lia. split_and!; [by mstep by exact E1|done|done|].
      replace (S n - (if decide (c <= b)%nat then 1 else 0))%nat with (S (n - (if decide (S c <= b)%nat then 1 else 0))) by (repeat case_decide; lia). done.
Qed.

Lemma free_ok_copy k l d s n : free_ok k l → kaddr d n → d + n <= k.(kend) → free_ok (set_mem (copym d s n k.(mem)) k) l.
Proof.
  intros [F1 F2 F3 F4] Hd He. split; try done. eapply flist_ext; [|exact F1]. intros p Hp. rewrite Forall_forall in F3. destruct (F3 p Hp) as (P1 & P2 & P3).
  assert (Ha : ∀ j, 0 <= j < 4 → rd k.(mem) (p + j) = rd (copym d s n k.(mem)) (p + j)); [|unfold rd32; rewrite <- (Z.add_0_r p) at 1 5; by rewrite !Ha by lia].
  intros j Hj. assert (Hu : is_u32 (p + j)) by (unfold is_u32, kaddr, PHYSTOP, PGSIZE, KERNBASE, kend_ok in *; lia).
  rewrite !rd_val by done. unfold copym.
  inside_cases; [lia|done].
Qed.


(** Two processors with APIC ids 0 and 1. *)
Definition demo_board : board :=
  mk_board (set_hw (set_eflags_if (λ _, false) (boot_hw 2)) two_pages) (Apic.mk_hw 0xfee00000 (λ _, 0) [] 0 0 (λ _, 0) [] (0, 0) 0)
    (λ _ _, 0) 0 (λ _, 0) (replicate 8 (replicate 6 (mk_segdesc 0 0 0 0 0 0 0 0 0 0 0 0 0))) (λ _, None) [] (λ _, 0).

