(* ===== verification/Mkfs.v ===== *)
(** * mkfs.c: building the file system image

    mkfs runs on the build host and writes the disk the kernel boots from. The
    image is a file of sectors; reading past its end fails and ends the
    program, writing there extends it. The host is little-endian, so that the
    bytes that xint() and xshort() store are those of their argument. The files
    to copy are their names with the pieces that read() returns for them. A
    program that ends in [UExit] has called exit(1) or failed an assert; it
    returns when it reaches exit(0). *)
From S2P Require Import Prelude.
From S2P Require Import Kernel.
From S2P Require Import Cprintf.
From S2P Require Import Log.
From S2P Require Import Inode.
From S2P Require Import InodeProps.
From S2P Require Import Ulib.

Record image : Type := mk_image { sect : Z → list Z; nsect : Z; freeinode : Z; freeblock : Z }.

Definition NINODES : Z := 200.
Definition FSSIZE : Z := 1000.
Definition nbitmap : Z := FSSIZE / (BSIZE * 8) + 1.
Definition ninodeblocks : Z := NINODES / IPB + 1.
Definition nlog : Z := LOGSIZE.
Definition nmeta : Z := 2 + nlog + ninodeblocks + nbitmap.
Definition nblocks : Z := FSSIZE - nmeta.
Definition zeroes : list Z := replicate 512 0.

Definition xshort (x : Z) : Z := half_at (half_bytes x) 0.
Definition xint (x : Z) : Z := word_at (word_bytes x) 0.

Definition sb : superblock :=
  mk_superblock (xint FSSIZE) (xint nblocks) (xint NINODES) (xint nlog) (xint 2) (xint (2 + nlog)) (xint (2 + nlog + ninodeblocks)).

Definition wsect (sec : Z) (buf : list Z) : U image unit := λ s,
  URet tt (mk_image (<[sec := buf]> s.(sect)) (Z.max s.(nsect) (sec + 1)) s.(freeinode) s.(freeblock)).

Definition rsect (sec : Z) : U image (list Z) := λ s,
  if sec <? s.(nsect) then URet (s.(sect) sec) s else UExit s.

Definition winode (inum : Z) (ip : inode) : U image unit :=
  buf ← rsect (IBLOCK inum sb);
  wsect (IBLOCK inum sb) (put_dinode (dino_off inum) ip buf).

(** struct dinode din after bzero(). *)
Definition blank : inode := mk_inode 0 0 0 0 0 0 0 0 0 (replicate 13 0).

Definition rinode (inum : Z) : U image inode :=
  buf ← rsect (IBLOCK inum sb);
  mret (get_dinode (dino_off inum) buf blank).


(** freeinode++ and freeblock++ *)
Definition next_inode : U image Z := λ s,
  URet s.(freeinode) (mk_image s.(sect) s.(nsect) (u32 (s.(freeinode) + 1)) s.(freeblock)).
Definition next_block : U image Z := λ s,
  URet s.(freeblock) (mk_image s.(sect) s.(nsect) s.(freeinode) (u32 (s.(freeblock) + 1))).

Definition ialloc (type : Z) : U image Z :=
  inum ← next_inode;
  winode inum (mk_inode 0 0 0 0 (xshort type) 0 0 (xshort 1) (xint 0) (replicate 13 0));;
  mret inum.

(** for(i = 0; i < used; i++), [n] turns left. *)
Fixpoint mark_loop (n : nat) (i : Z) (buf : list Z) : list Z :=
  match n with
  | O => buf
  | S n' =>
      mark_loop n' (i + 1)
        (<[Z.to_nat (i / 8) := Z.lor (nth (Z.to_nat (i / 8)) buf 0) (Z.shiftl 1 (i `mod` 8))]> buf)
  end.

Definition balloc (used : Z) : U image unit :=
  if negb (used <? BSIZE * 8) then uexit else
  wsect sb.(sb_bmapstart) (mark_loop (Z.to_nat used) 0 zeroes).

Definition set_addr (i : Z) (v : Z) (din : inode) : inode := set_i_addrs (<[Z.to_nat i := v]> din.(i_addrs)) din.
Definition addr_of (i : Z) (din : inode) : Z := nth (Z.to_nat i) din.(i_addrs) 0.

(** The block of the file block [fbn], allocated if there is none. *)
Definition iblock (fbn : Z) (din : inode) : U image (inode * Z) :=
  if fbn <? NDIRECT then
    din ← (if xint (addr_of fbn din) =? 0 then
             b ← next_block;
             mret (set_addr fbn (xint b) din)
           else mret din);
    mret (din, xint (addr_of fbn din))
  else
    din ← (if xint (addr_of NDIRECT din) =? 0 then
             b ← next_block;
             mret (set_addr NDIRECT (xint b) din)
           else mret din);
    indirect ← rsect (xint (addr_of NDIRECT din));
    let j := 4 * (fbn - NDIRECT) in
    indirect ← (if word_at indirect j =? 0 then
                  b ← next_block;
                  let indirect := put_word j (xint b) indirect in
                  wsect (xint (addr_of NDIRECT din)) indirect;;
                  mret indirect
                else mret indirect);
    mret (din, xint (word_at indirect j)).

(** One turn of while(n > 0): din, off and the bytes left. *)
Definition iappend_turn (v : inode * Z * list Z) : U image ((inode * Z * list Z) + (inode * Z)) :=
  let '(din, off, p) := v in
  let n := Z.of_nat (length p) in
  if negb (0 <? n) then mret (inr (din, off)) else
  let fbn := off / BSIZE in
  if negb (fbn <? MAXFILE) then uexit else
  '(din, x) ← iblock fbn din;
  let n1 := Z.min n ((fbn + 1) * BSIZE - off) in
  buf ← rsect x;
  wsect x (splice buf (Z.to_nat (off - fbn * BSIZE)) (take (Z.to_nat n1) p));;
  mret (inl (din, off + n1, drop (Z.to_nat n1) p)).

Definition iappend (inum : Z) (p : list Z) : U image unit :=
  din ← rinode inum;
  '(din, off) ← uwhile (S (length p)) iappend_turn (din, xint din.(i_size), p);
  winode inum (set_i_size (xint off) din).

(** struct dirent de, with the name cut to DIRSIZ characters. *)
Definition dirent (inum : Z) (name : list Z) : list Z :=
  half_bytes (xshort inum) ++ take 14 (name ++ replicate 14 0).

(** for(i = 0; i < FSSIZE; i++) wsect(i, zeroes), [n] turns left. *)
Fixpoint zero_loop (n : nat) (i : Z) : U image unit :=
  match n with
  | O => mret tt
  | S n' => wsect i zeroes;; zero_loop n' (i + 1)
  end.

(** A name without its leading underscore. *)
Definition strip (name : list Z) : list Z :=
  match name with c :: l => if c =? chr "_" then l else name | [] => [] end.

(** The body of the loop over the arguments; the pieces are [None] when the
    file cannot be opened. *)
Definition add_file (f : list Z * option (list (list Z))) : U image unit :=
  let '(name, pieces) := f in
  match strchr name (chr "/"), pieces with
  | None, Some ps =>
      inum ← ialloc T_FILE;
      iappend ROOTINO (dirent inum (strip name));;
      uforeach ps (iappend inum)
  | _, _ => uexit
  end.

Definition super_block : list Z :=
  put_words 0 [sb.(sb_size); sb.(sb_nblocks); sb.(sb_ninodes); sb.(sb_nlog); sb.(sb_logstart); sb.(sb_inodestart); sb.(sb_bmapstart)] zeroes.

(** The size of the root directory rounded up to blocks. *)
Definition fix_root : U image unit :=
  din ← rinode ROOTINO;
  let off := xint din.(i_size) in
  let off := (off / BSIZE + 1) * BSIZE in
  winode ROOTINO (set_i_size (xint off) din).

Definition mkfs_main (files : list (list Z * option (list (list Z)))) : U image unit :=
  (λ s, URet tt (mk_image s.(sect) s.(nsect) s.(freeinode) nmeta));;
  zero_loop (Z.to_nat FSSIZE) 0;;
  wsect 1 super_block;;
  rootino ← ialloc T_DIR;
  if negb (rootino =? ROOTINO) then uexit else
  iappend rootino (dirent rootino (codes "."));;
  iappend rootino (dirent rootino (codes ".."));;
  uforeach files add_file;;
  fix_root;;
  b ← (λ s, URet s.(freeblock) s);
  balloc b.

(** ** Constants *)

Lemma xint_id x : is_u32 x → xint x = x.
Proof. intros Hx. unfold xint. change (word_bytes x) with (put_word 0 x [0; 0; 0; 0]). rewrite word_at_put by (cbn; lia). by apply u32_small. Qed.

Lemma nmeta_eq : nmeta = 59.
Proof. reflexivity. Qed.

(** The superblock that the kernel reads. *)
Lemma super_block_reads :
  mk_superblock (word_at super_block 0) (word_at super_block 4) (word_at super_block 8) (word_at super_block 12)
                (word_at super_block 16) (word_at super_block 20) (word_at super_block 24) = sb.
Proof. by vm_compute. Qed.

(** ** The blocks of a file *)

(** The blocks of a file: its data blocks [L] and the indirect block [ib]. *)
Definition owned (L : list Z) (ib : Z) : list Z := L ++ (if decide (12 < length L)%nat then [ib] else []).

(** How many blocks a file of [n] data blocks takes. *)
Definition cost (n : nat) : Z := Z.of_nat n + (if decide (12 < n)%nat then 1 else 0).

(** The addresses in the inode and in the indirect block. *)
Record bmap_ok (sec : Z → list Z) (d : inode) (L : list Z) (ib : Z) : Prop := {
  bm_len : length d.(i_addrs) = 13%nat;
  bm_direct : ∀ j, (j < 12)%nat → nth j d.(i_addrs) 0 = nth j L 0;
  bm_indirect : nth 12 d.(i_addrs) 0 = if decide (12 < length L)%nat then ib else 0;
  bm_entries : (12 < length L)%nat → ∀ j, (j < 128)%nat → word_at (sec ib) (4 * Z.of_nat j) = nth (12 + j) L 0;
  bm_max : (length L <= 140)%nat;
}.

Record img_ok (s : image) : Prop := {
  io_len : ∀ b, length (s.(sect) b) = 512%nat;
  io_zero : ∀ b, s.(freeblock) <= b → s.(sect) b = zeroes;
  io_free : nmeta <= s.(freeblock) <= s.(nsect);
  io_max : s.(nsect) <= 2 ^ 31;
}.

Record own (s : image) (d : inode) (L : list Z) (ib : Z) : Prop := {
  ow_map : bmap_ok s.(sect) d L ib;
  ow_range : ∀ b, b ∈ owned L ib → nmeta <= b < s.(freeblock);
  ow_nodup : NoDup (owned L ib);
}.

Lemma nth_elem (L : list Z) j : (j < length L)%nat → nth j L 0 ∈ L.
Proof. intros Hj. apply list_elem_of_lookup. exists j. rewrite nth_lookup. by destruct (lookup_lt_is_Some_2 L j Hj) as [x ->]. Qed.

Lemma nth_insert_eq (l : list Z) i v : (i < length l)%nat → nth i (<[i := v]> l) 0 = v.
Proof. intros Hi. by rewrite nth_lookup, list_lookup_insert_eq. Qed.

Lemma nth_insert_ne (l : list Z) i j v : i ≠ j → nth j (<[i := v]> l) 0 = nth j l 0.
Proof. intros Hi. by rewrite !nth_lookup, list_lookup_insert_ne. Qed.

Lemma nth_snoc (L : list Z) x j : nth j (L ++ [x]) 0 = if decide (j = length L) then x else nth j L 0.
Proof.
  destruct (decide (j = length L)) as [->|Hne]; [by rewrite app_nth2, Nat.sub_diag by lia|]. destruct (decide (j < length L)%nat).
  - by rewrite app_nth1.
  - rewrite app_nth2 by lia. rewrite (nth_overflow L) by lia. apply nth_overflow. cbn. lia.
Qed.

(** A block the file has. *)
Lemma iblock_old s d L ib fbn : img_ok s → own s d L ib → (fbn < length L)%nat →
  iblock (Z.of_nat fbn) d s = URet (d, nth fbn L 0) s.
Proof.
  intros [H1 H2 H3 H4] [[M1 M2 M3 M4 M5] R Nd] Hf. rewrite nmeta_eq in *.
  assert (Hr : ∀ b, b ∈ owned L ib → is_u32 b ∧ b ≠ 0) by (intros b Hb; specialize (R b Hb); unfold is_u32; lia).
  assert (Hx : nth fbn L 0 ∈ owned L ib) by (apply elem_of_app; left; by apply nth_elem).
  destruct (Hr _ Hx) as [Hx1 Hx2]. unfold iblock, NDIRECT, addr_of. destruct (Z.ltb_spec (Z.of_nat fbn) 12).
  - rewrite Nat2Z.id, M2, xint_id by (lia || done). rewrite (proj2 (Z.eqb_neq _ _)) by done. erewrite ubind_ret; [|reflexivity].
    cbv beta. rewrite M2, xint_id by (lia || done). done.
  - change (Z.to_nat 12) with 12%nat. rewrite M3, decide_True by lia.
    assert (Hi : ib ∈ owned L ib) by (unfold owned; rewrite decide_True by lia; set_solver). destruct (Hr _ Hi) as [Hi1 Hi2].
    rewrite xint_id by done. rewrite (proj2 (Z.eqb_neq _ _)) by done. erewrite ubind_ret; [|reflexivity]. cbv beta.
    rewrite M3, decide_True, xint_id by (lia || done). unfold rsect at 1. specialize (R ib Hi).
    erewrite ubind_ret; [|rewrite (proj2 (Z.ltb_lt _ _)) by lia; reflexivity]. cbv beta.
    replace (4 * (Z.of_nat fbn - 12)) with (4 * Z.of_nat (fbn - 12)) by lia. rewrite M4 by lia. replace (12 + (fbn - 12))%nat with fbn by lia.
    rewrite (proj2 (Z.eqb_neq _ _)) by done. erewrite ubind_ret; [|reflexivity]. cbv beta. rewrite M4 by lia. replace (12 + (fbn - 12))%nat with fbn by lia.
    by rewrite xint_id.
Qed.

(** The file after a block [x] was added to it. *)
Record grown (s : image) (d : inode) (L : list Z) (ib : Z) (s' : image) (d' : inode) (x ib' : Z) : Prop := {
  gr_img : img_ok s';
  gr_own : own s' d' (L ++ [x]) ib';
  gr_free : s'.(freeblock) = s.(freeblock) + cost (S (length L)) - cost (length L);
  gr_nsect : s'.(nsect) = s.(nsect);
  gr_inode : s'.(freeinode) = s.(freeinode);
  gr_fresh : s.(freeblock) <= x;
  gr_empty : s'.(sect) x = zeroes;
  gr_old : ∀ b, b ∈ owned (L ++ [x]) ib' → b ∈ owned L ib ∨ s.(freeblock) <= b;
  gr_data : ∀ b, b ∈ L → s'.(sect) b = s.(sect) b;
  gr_other : ∀ b, b < s.(freeblock) → b ∉ owned L ib → s'.(sect) b = s.(sect) b;
  gr_dino : d' = set_i_addrs d'.(i_addrs) d;
}.

Lemma cost_S n : cost (S n) - cost n = if decide (n = 12%nat) then 2 else 1.
Proof. unfold cost. repeat case_decide; lia. Qed.

Lemma next_block_ret s : s.(freeblock) < 2 ^ 31 → 0 <= s.(freeblock) →
  next_block s = URet s.(freeblock) (mk_image s.(sect) s.(nsect) s.(freeinode) (s.(freeblock) + 1)).
Proof. intros H1 H2. unfold next_block. by rewrite u32_small by (unfold is_u32; lia). Qed.

Lemma rsect_ret sec s : sec < s.(nsect) → rsect sec s = URet (s.(sect) sec) s.
Proof. intros Hs. unfold rsect. by rewrite (proj2 (Z.ltb_lt _ _)). Qed.

Lemma elem_snoc (L : list Z) b x : b ∈ L ++ [x] ↔ b ∈ L ∨ b = x.
Proof. by rewrite elem_of_app, list_elem_of_singleton. Qed.

Lemma elem_snoc2 (L : list Z) b x y : b ∈ L ++ [x; y] ↔ b ∈ L ∨ b = x ∨ b = y.
Proof. by rewrite elem_of_app, elem_of_cons, list_elem_of_singleton. Qed.

Lemma owned_snoc_direct L ib x : (length L < 12)%nat → owned (L ++ [x]) ib = L ++ [x] ∧ owned L ib = L.
Proof. intros HL. unfold owned. rewrite !decide_False by (rewrite ?length_app; cbn; lia). by rewrite !app_nil_r. Qed.

(** A new direct block [x]. *)
Lemma bmap_add_direct (sec sec' : Z → list Z) d L ib x : bmap_ok sec d L ib → (length L < 12)%nat →
  bmap_ok sec' (set_i_addrs (<[length L := x]> d.(i_addrs)) d) (L ++ [x]) ib.
Proof.
  intros [M1 M2 M3 M4 M5] HL. split; cbn [i_addrs set_i_addrs]; rewrite ?length_insert, ?length_app; cbn [length]; try done; try lia.
  - intros j Hj. rewrite nth_snoc. destruct (decide (j = length L)) as [->|]; [apply nth_insert_eq; lia|]. rewrite nth_insert_ne by done. by apply M2.
  - rewrite nth_insert_ne by lia. rewrite M3. rewrite !decide_False by lia. done.
Qed.

Lemma iblock_direct s d L ib : img_ok s → own s d L ib → (length L < 12)%nat → s.(freeblock) < s.(nsect) →
  ∃ d' s', iblock (Z.of_nat (length L)) d s = URet (d', s.(freeblock)) s' ∧ grown s d L ib s' d' s.(freeblock) ib.
Proof.
  intros [H1 H2 H3 H4] [HM R Nd] HL Hfree. pose proof HM as [M1 M2 M3 M4 M5]. rewrite nmeta_eq in *. set (x := s.(freeblock)) in *.
  destruct (owned_snoc_direct L ib x HL) as [O1 O2]. rewrite O2 in *. set (n := length L) in *.
  exists (set_addr (Z.of_nat n) x d), (mk_image s.(sect) s.(nsect) s.(freeinode) (x + 1)).
  assert (Hx : xint x = x) by (apply xint_id; unfold is_u32; lia). split.
  - unfold iblock, NDIRECT, addr_of. rewrite (proj2 (Z.ltb_lt _ _)) by lia. rewrite Nat2Z.id, M2 by lia. rewrite (nth_overflow L) by lia. change (xint 0 =? 0) with true. cbv iota.
    erewrite ubind_ret; [|rewrite (ubind_ret _ _ _ _ _ (next_block_ret s ltac:(lia) ltac:(lia))); reflexivity]. cbv beta. fold x. rewrite Hx.
    unfold set_addr. cbn [i_addrs set_i_addrs]. rewrite Nat2Z.id, nth_insert_eq, Hx by lia. done.
  - split; cbn [sect nsect freeinode freeblock]; try done; try lia.
    + split; cbn [sect nsect freeblock]; [done|intros; apply H2; lia|rewrite nmeta_eq; lia|done].
    + split; cbn [sect freeblock].
      * unfold set_addr. rewrite Nat2Z.id. by apply (bmap_add_direct s.(sect)).
      * rewrite O1. rewrite nmeta_eq. intros b [Hb|Hb]%elem_of_app; [specialize (R b Hb); lia|]. apply list_elem_of_singleton in Hb as ->. lia.
      * rewrite O1. apply NoDup_app. split_and!; [done| |apply NoDup_singleton]. intros b Hb Hbx. apply list_elem_of_singleton in Hbx as ->. specialize (R x Hb). lia.
    + rewrite <- Z.add_sub_assoc, cost_S. fold n. rewrite decide_False by lia. done.
    + apply H2. lia.
    + rewrite O1, O2. intros b [Hb|Hb]%elem_snoc; [by left|right; lia].
Qed.

Lemma put_entry buf j0 v j : length buf = 512%nat → (j0 < 128)%nat → (j < 128)%nat → is_u32 v →
  word_at (put_word (4 * Z.of_nat j0) v buf) (4 * Z.of_nat j) = if decide (j = j0) then v else word_at buf (4 * Z.of_nat j).
Proof.
  intros Hl Hj0 Hj Hv. destruct (decide (j = j0)) as [->|Hne]; [rewrite word_at_put by lia; by apply u32_small|].
  unfold put_word. rewrite word_at_splice_ne; [done|]. unfold Log.apart. cbn [length word_bytes]. lia.
Qed.

Lemma zero_entry j : (j < 128)%nat → word_at zeroes (4 * Z.of_nat j) = 0.
Proof.
  intros Hj. unfold word_at, zeroes. assert (Hn : ∀ i, nth i (replicate 512 0) 0 = 0) by (intros i; rewrite nth_lookup; destruct (replicate 512 0 !! i) eqn:E; [apply lookup_replicate in E as [-> _]; done|done]).
  by rewrite !Hn.
Qed.

Lemma owned_indirect L ib x : (12 <= length L)%nat → owned (L ++ [x]) ib = L ++ [x; ib].
Proof. intros HL. unfold owned. rewrite decide_True by (rewrite length_app; cbn; lia). by rewrite <- app_assoc. Qed.

(** A new entry [x] of the indirect block [ib]. *)
Lemma bmap_add_entry (sec sec' : Z → list Z) d' L ib x :
  length (sec ib) = 512%nat → (12 <= length L < 140)%nat → length d'.(i_addrs) = 13%nat → (∀ j, (j < 12)%nat → nth j d'.(i_addrs) 0 = nth j L 0) →
  nth 12 d'.(i_addrs) 0 = ib → (∀ j, (j < 128)%nat → word_at (sec ib) (4 * Z.of_nat j) = nth (12 + j) L 0) → is_u32 x →
  sec' ib = put_word (4 * Z.of_nat (length L - 12)) x (sec ib) → bmap_ok sec' d' (L ++ [x]) ib.
Proof.
  intros H1 HL D1 D2 D3 He Hx E. split; rewrite ?length_app; cbn [length]; try lia; try done.
  - intros j Hj. rewrite nth_snoc, decide_False by lia. by apply D2.
  - by rewrite decide_True by lia.
  - intros _ j Hj. rewrite E, put_entry by (done || lia). rewrite nth_snoc. destruct (decide (j = length L - 12)%nat) as [->|].
    + by rewrite decide_True by lia.
    + rewrite decide_False by lia. by apply He.
Qed.

Lemma iblock_indirect s d L ib : img_ok s → own s d L ib → (12 < length L < 140)%nat → s.(freeblock) < s.(nsect) →
  ∃ s', iblock (Z.of_nat (length L)) d s = URet (d, s.(freeblock)) s' ∧ grown s d L ib s' d s.(freeblock) ib.
Proof.
  intros Hio [HM R Nd] HL Hfree. pose proof Hio as [H1 H2 H3 H4]. pose proof HM as [M1 M2 M3 M4 M5]. rewrite nmeta_eq in *. set (x := s.(freeblock)) in *.
  rewrite decide_True in M3 by lia. assert (Eo : owned L ib = L ++ [ib]) by (unfold owned; by rewrite decide_True by lia). rewrite Eo in *.
  pose proof (R ib ltac:(apply elem_snoc; by right)) as Rib. assert (Hx : is_u32 x) by (unfold is_u32; lia). assert (Hib : is_u32 ib) by (unfold is_u32; lia).
  set (sec' := <[ib := put_word (4 * Z.of_nat (length L - 12)) x (s.(sect) ib)]> s.(sect)).
  exists (mk_image sec' s.(nsect) s.(freeinode) (x + 1)). split.
  - unfold iblock, NDIRECT, addr_of. rewrite (proj2 (Z.ltb_ge _ _)) by lia. change (Z.to_nat 12) with 12%nat. rewrite M3, xint_id by done.
    rewrite (proj2 (Z.eqb_neq _ _)) by lia. erewrite ubind_ret; [|reflexivity]. cbv beta. rewrite M3, xint_id by done. unfold rsect at 1.
    erewrite ubind_ret; [|rewrite (proj2 (Z.ltb_lt _ _)) by lia; reflexivity]. cbv beta.
    replace (4 * (Z.of_nat (length L) - 12)) with (4 * Z.of_nat (length L - 12)) by lia. rewrite M4 by lia.
    rewrite (nth_overflow L) by lia. change (0 =? 0) with true. cbv iota.
    erewrite ubind_ret; [|rewrite (ubind_ret _ _ _ _ _ (next_block_ret s ltac:(lia) ltac:(lia))); cbv beta; erewrite ubind_ret; [|reflexivity]; reflexivity]. cbv beta.
    fold x. rewrite (xint_id x Hx). rewrite put_entry by (done || lia). rewrite decide_True by done. rewrite (xint_id x Hx). cbn [sect nsect freeinode freeblock].
    rewrite Z.max_l by lia. done.
  - assert (Hsame : ∀ b, b ≠ ib → sec' b = s.(sect) b) by (intros b Hb; unfold sec'; by rewrite fn_lookup_insert_ne).
    apply NoDup_app in Nd as (NL & Nib & _). split; cbn [sect nsect freeinode freeblock]; try done; try lia.
    + split; cbn [sect nsect freeblock]; [|intros; rewrite Hsame by lia; apply H2; lia|rewrite nmeta_eq; lia|done].
      intros b. unfold sec'. destruct (decide (b = ib)) as [->|]; [by rewrite fn_lookup_insert, length_put_word|]. by rewrite fn_lookup_insert_ne.
    + split; cbn [sect freeblock].
      * apply (bmap_add_entry s.(sect)); try done; first [lia|by apply M4; lia|unfold sec'; by rewrite fn_lookup_insert].
      * rewrite owned_indirect, nmeta_eq by lia. intros b [Hb|[->| ->]]%elem_snoc2; [|lia|lia]. specialize (R b ltac:(apply elem_snoc; by left)). lia.
      * rewrite owned_indirect by lia. apply NoDup_app. split_and!; [done| |].
        -- intros b Hb [->|Hbi]%elem_of_cons; [specialize (R x ltac:(apply elem_snoc; by left)); lia|]. apply (Nib b Hb Hbi).
        -- apply NoDup_cons. split; [|apply NoDup_singleton]. intros Hxi%list_elem_of_singleton. lia.
    + rewrite <- Z.add_sub_assoc, cost_S. rewrite decide_False by lia. done.
    + rewrite Hsame by lia. apply H2. lia.
    + rewrite owned_indirect, Eo by lia. intros b [Hb|[->| ->]]%elem_snoc2; [left; apply elem_snoc; by left|right; lia|left; apply elem_snoc; by right].
    + intros b Hb. apply Hsame. intros ->. apply (Nib ib Hb). by left.
    + intros b Hb Hnb. apply Hsame. intros ->. apply Hnb. rewrite Eo. apply elem_snoc. by right.
    + by destruct d.
Qed.

Lemma iblock_first s d L ib : img_ok s → own s d L ib → length L = 12%nat → s.(freeblock) + 2 <= s.(nsect) →
  ∃ d' s', iblock (Z.of_nat (length L)) d s = URet (d', s.(freeblock) + 1) s' ∧ grown s d L ib s' d' (s.(freeblock) + 1) s.(freeblock).
Proof.
  intros Hio [HM R Nd] HL Hfree. pose proof Hio as [H1 H2 H3 H4]. pose proof HM as [M1 M2 M3 M4 M5]. rewrite nmeta_eq in *. set (ib' := s.(freeblock)) in *.
  set (x := ib' + 1). rewrite decide_False in M3 by lia. assert (Eo : owned L ib = L) by (unfold owned; by rewrite decide_False, app_nil_r by lia). rewrite Eo in *.
  assert (Hx : is_u32 x) by (unfold x, is_u32; lia). assert (Hib : is_u32 ib') by (unfold is_u32; lia). assert (Hz : s.(sect) ib' = zeroes) by (apply H2; lia).
  set (sec' := <[ib' := put_word (4 * Z.of_nat (length L - 12)) x (s.(sect) ib')]> s.(sect)). set (d' := set_addr 12 ib' d).
  assert (Ed : addr_of 12 d' = ib') by (unfold d', addr_of, set_addr; cbn [i_addrs set_i_addrs]; apply nth_insert_eq; lia).
  exists d', (mk_image sec' s.(nsect) s.(freeinode) (x + 1)). split.
  - unfold iblock, NDIRECT. rewrite (proj2 (Z.ltb_ge _ _)) by lia. change (addr_of 12 d) with (nth 12 d.(i_addrs) 0). rewrite M3. change (xint 0 =? 0) with true. cbv iota.
    erewrite ubind_ret; [|rewrite (ubind_ret _ _ _ _ _ (next_block_ret s ltac:(lia) ltac:(lia))); reflexivity]. cbv beta. fold ib'. rewrite (xint_id ib' Hib). fold d'.
    rewrite Ed, (xint_id ib' Hib). erewrite ubind_ret; [|apply rsect_ret; cbn [nsect]; lia]. cbn [sect].
    replace (4 * (Z.of_nat (length L) - 12)) with (4 * Z.of_nat (length L - 12)) by lia. rewrite Hz, zero_entry by lia. change (0 =? 0) with true. cbv iota.
    erewrite ubind_ret; [|rewrite (ubind_ret _ _ _ _ _ (next_block_ret (mk_image _ _ _ (ib' + 1)) ltac:(cbn; lia) ltac:(cbn; lia))); cbv beta; erewrite ubind_ret; [|reflexivity]; reflexivity].
    cbv beta. cbn [sect nsect freeinode freeblock]. fold x. rewrite (xint_id x Hx). rewrite put_entry by (done || lia). rewrite decide_True by done. rewrite (xint_id x Hx).
    rewrite Z.max_l by lia. unfold sec'. by rewrite Hz.
  - assert (Hsame : ∀ b, b ≠ ib' → sec' b = s.(sect) b) by (intros b Hb; unfold sec'; by rewrite fn_lookup_insert_ne).
    split; cbn [sect nsect freeinode freeblock]; try done; try (unfold x; lia).
    + split; cbn [sect nsect freeblock]; [|intros; rewrite Hsame by (unfold x in *; lia); apply H2; unfold x in *; lia|rewrite nmeta_eq; unfold x; lia|done].
      intros b. unfold sec'. destruct (decide (b = ib')) as [->|]; [by rewrite fn_lookup_insert, length_put_word|]. by rewrite fn_lookup_insert_ne.
    + split; cbn [sect freeblock].
      * apply (bmap_add_entry s.(sect)); try done; try lia; [| | |unfold sec'; by rewrite fn_lookup_insert]; cbn [d' set_addr set_i_addrs i_addrs].
        -- by rewrite length_insert.
        -- intros j Hj. change (Z.to_nat 12) with 12%nat. rewrite nth_insert_ne by lia. by apply M2.
        -- intros j Hj. rewrite Hz, zero_entry by done. by rewrite nth_overflow by lia.
      * rewrite owned_indirect, nmeta_eq by lia. intros b [Hb|[->| ->]]%elem_snoc2; [|unfold x; lia..]. specialize (R b Hb). unfold x. lia.
      * rewrite owned_indirect by lia. apply NoDup_app. split_and!; [done| |].
        -- intros b Hb [->|Hbi]%elem_of_cons; [specialize (R x Hb); unfold x in *; lia|]. apply list_elem_of_singleton in Hbi as ->. specialize (R ib' Hb). lia.
        -- apply NoDup_cons. split; [|apply NoDup_singleton]. intros Hxi%list_elem_of_singleton. unfold x in *. lia.
    + rewrite <- Z.add_sub_assoc, cost_S. rewrite decide_True by lia. unfold x. lia.
    + rewrite Hsame by (unfold x; lia). apply H2. unfold x. lia.
    + rewrite owned_indirect, Eo by lia. intros b [Hb|[->| ->]]%elem_snoc2; [by left|right; unfold x; lia|right; lia].
    + intros b Hb. apply Hsame. intros ->. specialize (R ib' Hb). lia.
    + intros b Hb Hnb. apply Hsame. lia.
Qed.

(** A new block at the end of a file. *)
Lemma iblock_new s d L ib : img_ok s → own s d L ib → (length L < 140)%nat → s.(freeblock) + cost (S (length L)) - cost (length L) <= s.(nsect) →
  ∃ d' x ib' s', iblock (Z.of_nat (length L)) d s = URet (d', x) s' ∧ grown s d L ib s' d' x ib'.
Proof.
  intros Hio Hown HL Hfree. rewrite <- Z.add_sub_assoc, cost_S in Hfree. destruct (decide (length L = 12%nat)) as [H12|H12].
  - destruct (iblock_first s d L ib Hio Hown H12 Hfree) as (d' & s' & E & G). eauto 10.
  - destruct (decide (length L < 12)%nat) as [Hlt|Hge].
    + destruct (iblock_direct s d L ib Hio Hown Hlt ltac:(lia)) as (d' & s' & E & G). eauto 10.
    + destruct (iblock_indirect s d L ib Hio Hown ltac:(lia) ltac:(lia)) as (s' & E & G). eauto 10.
Qed.

(** ** The bytes of a file *)

(** The blocks [L] hold the bytes [c], the last block some of them. *)
Definition content (sec : Z → list Z) (L : list Z) (c : list Z) : Prop :=
  (512 * length L < length c + 512)%nat ∧ (length c <= 512 * length L)%nat ∧
  ∀ k, (k < 512 * length L)%nat → nth (k mod 512) (sec (nth (k / 512) L 0)) 0 = nth k c 0.

Definition nblk (n : nat) : nat := (n + 511) / 512.

Lemma content_nblk sec L c : content sec L c → length L = nblk (length c).
Proof. intros (H1 & H2 & _). unfold nblk. apply (Nat.div_unique _ 512 _ (length c + 511 - 512 * length L)); lia. Qed.

(** The block and the place in it of a byte. *)
Lemma block_of q k : (512 * q <= k < 512 * S q)%nat → (k / 512 = q ∧ k mod 512 = k - 512 * q)%nat.
Proof. intros Hk. split; symmetry; [apply (Nat.div_unique _ 512 _ (k - 512 * q))|apply (Nat.mod_unique _ 512 q)]; lia. Qed.

(** The file [d] with the bytes [c], after bytes were added: [c']. *)
Record appended (s : image) (L : list Z) (ib : Z) (d : inode) (s' : image) (L' : list Z) (ib' : Z) (d' : inode) (c' : list Z) : Prop := {
  ap_img : img_ok s';
  ap_own : own s' d' L' ib';
  ap_content : content s'.(sect) L' c';
  ap_free : s'.(freeblock) = s.(freeblock) + cost (length L') - cost (length L);
  ap_nsect : s'.(nsect) = s.(nsect);
  ap_inode : s'.(freeinode) = s.(freeinode);
  ap_grow : s.(freeblock) <= s'.(freeblock);
  ap_fresh : ∀ b, b ∈ owned L' ib' → b ∈ owned L ib ∨ s.(freeblock) <= b;
  ap_other : ∀ b, b < s.(freeblock) → b ∉ owned L ib → s'.(sect) b = s.(sect) b;
  ap_dino : d' = set_i_addrs d'.(i_addrs) d;
}.

Lemma appended_refl s d L ib c : img_ok s → own s d L ib → content s.(sect) L c → appended s L ib d s L ib d c.
Proof. intros. split; try done; try lia; [by left|by destruct d]. Qed.

Lemma appended_trans s1 L1 ib1 d1 s2 L2 ib2 d2 c2 s3 L3 ib3 d3 c3 :
  appended s1 L1 ib1 d1 s2 L2 ib2 d2 c2 → appended s2 L2 ib2 d2 s3 L3 ib3 d3 c3 → appended s1 L1 ib1 d1 s3 L3 ib3 d3 c3.
Proof.
  intros [A1 A2 A3 A4 A5 A6 A7 A8 A9 A10] [B1 B2 B3 B4 B5 B6 B7 B8 B9 B10]. split; try done; try lia; try congruence.
  - intros b Hb. destruct (B8 b Hb) as [Hb'|]; [|right; lia]. by apply A8.
  - intros b Hb Hn. rewrite B9, A9; [done|done|done|lia|]. intros Hb'. destruct (A8 b Hb'); [done|lia].
  - rewrite B10, A10. by destruct d1.
Qed.

(** A write in the last block. *)
Lemma write_last s d L ib c p n1 : img_ok s → own s d L ib → L ≠ [] →
  (512 * (length L - 1) <= length c)%nat → (length c + n1 <= 512 * length L)%nat → (n1 <= length p)%nat → (0 < n1)%nat →
  (∀ k, (k < 512 * length L)%nat → nth (k mod 512) (s.(sect) (nth (k / 512) L 0)) 0 = nth k c 0) →
  let x := nth (length L - 1) L 0 in
  let s' := mk_image (<[x := splice (s.(sect) x) (length c - 512 * (length L - 1)) (take n1 p)]> s.(sect)) s.(nsect) s.(freeinode) s.(freeblock) in
  appended s L ib d s' L ib d (c ++ take n1 p).
Proof.
  intros Hio Hown HL Hc1 Hc2 Hn1 Hn0 Hdata x s'. pose proof Hio as [H1 H2 H3 H4]. pose proof Hown as [HM R Nd].
  assert (HLn : (0 < length L)%nat) by (destruct L; [done|cbn; lia]). assert (Hx : x ∈ L) by (apply nth_elem; lia).
  assert (Hxo : x ∈ owned L ib) by (apply elem_of_app; by left). pose proof (R x Hxo) as Rx.
  set (o := (length c - 512 * (length L - 1))%nat) in *. set (blk := splice (s.(sect) x) o (take n1 p)) in *.
  assert (Hsame : ∀ b, b ≠ x → s'.(sect) b = s.(sect) b) by (intros b Hb; cbn; by rewrite fn_lookup_insert_ne).
  assert (Hblk : s'.(sect) x = blk) by (cbn; by rewrite fn_lookup_insert).
  assert (Hlast : ∀ j, (j < length L)%nat → nth j L 0 = x → j = (length L - 1)%nat).
  { intros j Hj Ej. apply NoDup_app in Nd as (NL & _ & _). eapply (NoDup_lookup L j (length L - 1) x NL).
    - rewrite <- Ej, nth_lookup. by destruct (lookup_lt_is_Some_2 L j Hj) as [y ->].
    - unfold x. rewrite nth_lookup. by destruct (lookup_lt_is_Some_2 L (length L - 1) ltac:(lia)) as [y ->]. }
  assert (Hlp : length (take n1 p) = n1) by (rewrite length_take; lia).
  split; try done; try lia.
  - split; [| |done|done].
    + intros b. destruct (decide (b = x)) as [->|Hne]; [rewrite Hblk; unfold blk; by rewrite length_splice|]. by rewrite Hsame.
    + intros b Hb. cbn [freeblock s'] in Hb. rewrite Hsame by lia. by apply H2.
  - split; try done. destruct HM as [M1 M2 M3 M4 M5]. split; try done. intros H12 j Hj. rewrite Hsame; [by apply M4|].
    intros E. unfold owned in Nd. rewrite decide_True in Nd by done. apply NoDup_app in Nd as (_ & Nib & _). apply (Nib x Hx). rewrite E. by left.
  - split_and!; [rewrite length_app; lia|rewrite length_app; lia|]. intros k Hk.
    destruct (decide (length c <= k < length c + n1)%nat) as [Hin|Hout].
    + destruct (block_of (length L - 1) k ltac:(lia)) as [-> ->]. fold x. rewrite Hblk. unfold blk. rewrite !nth_lookup, lookup_app_r by lia.
      replace (k - 512 * (length L - 1))%nat with (o + (k - length c))%nat by (unfold o; lia).
      by rewrite splice_eq by (rewrite ?H1, Hlp; unfold o; lia).
    + transitivity (nth k c 0).
      * rewrite <- (Hdata k Hk). destruct (decide (nth (k / 512) L 0 = x)) as [Ex|Hne]; [|by rewrite Hsame].
        assert (Hq : (k / 512 < length L)%nat) by (apply Nat.Div0.div_lt_upper_bound; lia). assert (Eq := Hlast _ Hq Ex).
        rewrite Ex, Hblk. unfold blk. rewrite !nth_lookup. rewrite splice_ne; [done|]. unfold o. rewrite Hlp.
        pose proof (Nat.div_mod_eq k 512). lia.
      * destruct (decide (k < length c)%nat); [by rewrite app_nth1|]. rewrite (nth_overflow c), nth_overflow; [done|rewrite length_app; lia|lia].
  - cbn [freeblock s']. lia.
  - intros b Hb. by left.
  - intros b Hb Hn. rewrite Hsame; [done|]. intros ->. done.
  - by destruct d.
Qed.

(** A block that was added and then written. *)
Lemma grown_appended s d L ib s1 d1 x ib1 s2 d2 ib2 c' : grown s d L ib s1 d1 x ib1 →
  appended s1 (L ++ [x]) ib1 d1 s2 (L ++ [x]) ib2 d2 c' → appended s L ib d s2 (L ++ [x]) ib2 d2 c'.
Proof.
  intros [G1 G2 G3 G4 G5 G6 G7 G8 G9 G10 G11] [A1 A2 A3 A4 A5 A6 A7 A8 A9 A10].
  assert (Hmono : s.(freeblock) <= s1.(freeblock)) by (rewrite G3, <- Z.add_sub_assoc, cost_S; case_decide; lia).
  split; try done; try congruence; try lia.
  - rewrite A4, G3, length_app. cbn [length]. rewrite Nat.add_1_r. lia.
  - intros b Hb. destruct (A8 b Hb) as [Hb'|]; [by apply G8|right; lia].
  - intros b Hb Hn. rewrite A9, G10; [done|done|done|lia|]. intros Hb'. destruct (G8 b Hb'); [done|lia].
  - rewrite A10, G11. by destruct d.
Qed.

Lemma cost_mono m n : (m <= n)%nat → cost m <= cost n.
Proof. unfold cost. repeat case_decide; lia. Qed.

Lemma nblk_le c p : (0 < p)%nat → (c mod 512 = 0)%nat → (S (c / 512) <= nblk (c + p))%nat.
Proof.
  intros Hp Hm. unfold nblk. apply Nat.div_le_lower_bound; [lia|]. pose proof (Nat.div_mod_eq c 512). lia.
Qed.

(** A turn of iappend(). *)
Lemma iappend_turn_ok s d L ib c p : img_ok s → own s d L ib → content s.(sect) L c → p ≠ [] → (length c + length p <= 140 * 512)%nat →
  s.(freeblock) + cost (nblk (length c + length p)) - cost (length L) <= s.(nsect) →
  ∃ n1 s' d' L' ib', (0 < n1 <= length p)%nat ∧
    iappend_turn (d, Z.of_nat (length c), p) s = URet (inl (d', Z.of_nat (length c + n1), drop n1 p)) s' ∧
    appended s L ib d s' L' ib' d' (c ++ take n1 p).
Proof.
  intros Hio Hown Hcon Hp Hmax Hroom. pose proof Hcon as (C1 & C2 & C3). assert (Hlp : (0 < length p)%nat) by (destruct p; [done|cbn; lia]).
  pose proof (Nat.div_mod_eq (length c) 512) as Hdm. pose proof (Nat.mod_upper_bound (length c) 512 ltac:(done)) as Hmb.
  remember (length c / 512)%nat as fbn eqn:Efbn.
  set (n1 := Nat.min (length p) (512 * S fbn - length c)). exists n1.
  assert (Eturn : iappend_turn (d, Z.of_nat (length c), p) =
    '(din, x) ← iblock (Z.of_nat fbn) d;
    buf ← rsect x;
    wsect x (splice buf (length c - 512 * fbn) (take n1 p));;
    mret (inl (din, Z.of_nat (length c + n1), drop n1 p)) :> U image _).
  { unfold iappend_turn. rewrite (proj2 (Z.ltb_lt 0 _)) by lia. cbn [negb]. change BSIZE with 512. change MAXFILE with 140.
    assert (Ef : Z.of_nat (length c) / 512 = Z.of_nat fbn) by (rewrite Efbn, Nat2Z.inj_div; done). rewrite Ef.
    rewrite (proj2 (Z.ltb_lt (Z.of_nat fbn) 140)) by lia. cbn [negb].
    replace (Z.to_nat (Z.min (Z.of_nat (length p)) ((Z.of_nat fbn + 1) * 512 - Z.of_nat (length c)))) with n1 by (unfold n1; lia).
    replace (Z.to_nat (Z.of_nat (length c) - Z.of_nat fbn * 512)) with (length c - 512 * fbn)%nat by lia.
    replace (Z.of_nat (length c) + Z.min (Z.of_nat (length p)) ((Z.of_nat fbn + 1) * 512 - Z.of_nat (length c))) with (Z.of_nat (length c + n1)) by (unfold n1; lia).
    done. }
  rewrite Eturn. destruct (decide (length c mod 512 = 0)%nat) as [Hz|Hnz].
  - assert (HL : fbn = length L) by lia. rewrite HL.
    pose proof (cost_mono (S (length L)) (nblk (length c + length p)) ltac:(rewrite <- HL, Efbn; by apply nblk_le)).
    destruct (iblock_new s d L ib Hio Hown ltac:(lia) ltac:(lia)) as (d1 & x & ib1 & s1 & E1 & G). rewrite (ubind_ret _ _ _ _ _ E1).
    pose proof G as [G1 G2 G3 G4 G5 G6 G7 G8 G9 G10 G11]. pose proof (ow_range _ _ _ _ G2 x ltac:(apply elem_of_app; left; apply elem_snoc; by right)) as Rx.
    pose proof (io_free _ G1) as F1. rewrite (ubind_ret _ _ _ _ _ (rsect_ret x s1 ltac:(lia))).
    assert (HL1 : length (L ++ [x]) = S (length L)) by (rewrite length_app; cbn; lia).
    pose proof (write_last s1 d1 (L ++ [x]) ib1 c p n1 G1 G2) as A. rewrite HL1 in A. replace (S (length L) - 1)%nat with (length L) in A by lia.
    rewrite nth_snoc, decide_True in A by done.
    eexists _, d1, (L ++ [x]), ib1. split; [unfold n1; lia|]. split; [erewrite ubind_ret; reflexivity|].
    cbn [sect nsect freeinode freeblock]. rewrite Z.max_l by lia. eapply grown_appended; [exact G|]. apply A; try (unfold n1; lia); [by destruct L|].
    intros k Hk. destruct (decide (k < 512 * length L)%nat) as [Hlt|Hge].
    + assert (k / 512 < length L)%nat by (apply Nat.Div0.div_lt_upper_bound; lia).
      rewrite nth_snoc, decide_False by lia. rewrite G9 by (by apply nth_elem). by apply C3.
    + destruct (block_of (length L) k ltac:(lia)) as [-> ->]. rewrite nth_snoc, decide_True, G7 by done.
      rewrite (nth_overflow c) by lia. unfold zeroes. rewrite nth_lookup, lookup_replicate_2 by lia. done.
  - assert (HL : fbn = (length L - 1)%nat) by lia. assert (HL0 : (0 < length L)%nat) by lia. rewrite HL.
    rewrite (ubind_ret _ _ _ _ _ (iblock_old s d L ib (length L - 1) Hio Hown ltac:(lia))).
    pose proof (ow_range _ _ _ _ Hown (nth (length L - 1) L 0) ltac:(apply elem_of_app; left; apply nth_elem; lia)) as Rx. pose proof (io_free _ Hio) as F1.
    rewrite (ubind_ret _ _ _ _ _ (rsect_ret (nth (length L - 1) L 0) s ltac:(lia))). eexists _, d, L, ib. split; [unfold n1; lia|]. split; [erewrite ubind_ret; reflexivity|].
    rewrite Z.max_l by lia. apply (write_last s d L ib c p n1 Hio Hown); try done; try (unfold n1; lia). intros ->. cbn in HL0. lia.
Qed.

Lemma iappend_loop_ok fuel : ∀ p s d L ib c, img_ok s → own s d L ib → content s.(sect) L c → (length c + length p <= 140 * 512)%nat →
  s.(freeblock) + cost (nblk (length c + length p)) - cost (length L) <= s.(nsect) → (length p < fuel)%nat →
  ∃ s' d' L' ib', uwhile fuel iappend_turn (d, Z.of_nat (length c), p) s = URet (d', Z.of_nat (length (c ++ p))) s' ∧
    appended s L ib d s' L' ib' d' (c ++ p).
Proof.
  induction fuel as [|fuel IH]; intros p s d L ib c Hio Hown Hcon Hmax Hroom Hf; [lia|]. cbn [uwhile].
  destruct (decide (p = [])) as [->|Hne].
  - exists s, d, L, ib. erewrite ubind_ret; [|reflexivity]. rewrite app_nil_r. split; [done|]. by apply appended_refl.
  - destruct (iappend_turn_ok s d L ib c p Hio Hown Hcon Hne Hmax Hroom) as (n1 & s1 & d1 & L1 & ib1 & Hn1 & E1 & A1).
    rewrite (ubind_ret _ _ _ _ _ E1). pose proof A1 as [B1 B2 B3 B4 B5 B6 B7 B8 B9 B10].
    assert (Hl1 : length (c ++ take n1 p) = (length c + n1)%nat) by (rewrite length_app, length_take; lia).
    assert (Hl2 : (length (c ++ take n1 p) + length (drop n1 p) = length c + length p)%nat) by (rewrite Hl1, length_drop; lia).
    destruct (IH (drop n1 p) s1 d1 L1 ib1 (c ++ take n1 p) B1 B2 B3) as (s2 & d2 & L2 & ib2 & E2 & A2); [lia|rewrite Hl2; lia|rewrite length_drop; lia|].
    rewrite Hl1, <- app_assoc, take_drop in E2. rewrite <- app_assoc, take_drop in A2. exists s2, d2, L2, ib2. split; [done|]. by eapply appended_trans.
Qed.

(** ** The inodes *)

(** The inode [inum] on the disk. *)
Definition dino (s : image) (inum : Z) : inode := get_dinode (dino_off inum) (s.(sect) (IBLOCK inum sb)) blank.

Lemma IBLOCK_sb inum : 0 <= inum < 208 → IBLOCK inum sb = inum / 8 + 32 ∧ 32 <= IBLOCK inum sb < 58.
Proof.
  intros Hi. unfold IBLOCK, IPB. change (sb.(sb_inodestart)) with 32. change (BSIZE / DINODE) with 8.
  rewrite u32_small; unfold is_u32; Z.to_euclidean_division_equations; lia.
Qed.

(** winode() changes its inode only. *)
Lemma winode_ok inum x s : 0 <= inum < 208 → dino_ok x → img_ok s →
  ∃ s', winode inum x s = URet tt s' ∧ img_ok s' ∧ dino s' inum = filled x blank ∧
    (∀ j, 0 <= j < 208 → j ≠ inum → dino s' j = dino s j) ∧
    (∀ b, b < 32 ∨ 58 <= b → s'.(sect) b = s.(sect) b) ∧
    s'.(nsect) = s.(nsect) ∧ s'.(freeinode) = s.(freeinode) ∧ s'.(freeblock) = s.(freeblock).
Proof.
  intros Hi Hx Hio. pose proof Hio as [H1 H2 H3 H4]. rewrite nmeta_eq in *. destruct (IBLOCK_sb inum Hi) as [Eb Rb].
  unfold winode. rewrite (ubind_ret _ _ _ _ _ (rsect_ret (IBLOCK inum sb) s ltac:(lia))). eexists. split; [reflexivity|]. cbn [sect nsect freeinode freeblock].
  assert (Ho : 0 <= dino_off inum ∧ dino_off inum + DINODE <= 512) by (unfold dino_off, IPB; change (BSIZE / DINODE) with 8; change DINODE with 64; Z.to_euclidean_division_equations; lia).
  split_and!; try done; try lia.
  - split; cbn [sect nsect freeblock]; [|intros b Hb; rewrite fn_lookup_insert_ne by lia; by apply H2|rewrite nmeta_eq; lia|lia].
    intros b. destruct (decide (b = IBLOCK inum sb)) as [->|]; [by rewrite fn_lookup_insert, length_put_dinode|by rewrite fn_lookup_insert_ne].
  - unfold dino. cbn [sect]. rewrite fn_lookup_insert. apply get_put_dinode; [done|lia|]. rewrite H1. lia.
  - intros j Hj Hne. unfold dino. cbn [sect]. destruct (IBLOCK_sb j Hj) as [Ej Rj]. destruct (decide (IBLOCK j sb = IBLOCK inum sb)) as [E|]; [|by rewrite fn_lookup_insert_ne].
    rewrite E, fn_lookup_insert. apply get_put_dinode_ne; [done|lia|]. unfold Log.apart, dino_off, IPB. change (BSIZE / DINODE) with 8. change DINODE with 64.
    Z.to_euclidean_division_equations. lia.
  - intros b Hb. rewrite fn_lookup_insert_ne by lia. done.
Qed.

Record mfile : Type := mk_mfile { f_type : Z; f_blocks : list Z; f_ib : Z; f_data : list Z }.

(** The inode [d] is the file [f]. *)
Record is_file (s : image) (d : inode) (f : mfile) : Prop := {
  fi_own : own s d f.(f_blocks) f.(f_ib);
  fi_dino : dino_ok d;
  fi_type : d.(i_type) = f.(f_type);
  fi_nlink : d.(i_nlink) = 1;
  fi_size : d.(i_size) = Z.of_nat (length f.(f_data));
  fi_data : content s.(sect) f.(f_blocks) f.(f_data);
}.

(** The blocks the files take. *)
Definition room (T : list mfile) : Z := foldr (λ f n, cost (length f.(f_blocks)) + n) 0 T.

(** No block is in two files. *)
Definition all_apart (T : list mfile) : Prop :=
  ∀ i j f g b, T !! i = Some f → T !! j = Some g → i ≠ j → b ∈ owned f.(f_blocks) f.(f_ib) → b ∉ owned g.(f_blocks) g.(f_ib).

(** The image with the files [T] as inodes 1, 2, ... *)
Record fs_ok (s : image) (T : list mfile) : Prop := {
  fo_img : img_ok s;
  fo_super : s.(sect) 1 = super_block;
  fo_next : s.(freeinode) = Z.of_nat (length T) + 1;
  fo_few : (length T < 200)%nat;
  fo_room : s.(freeblock) = nmeta + room T;
  fo_file : ∀ i f, T !! i = Some f → is_file s (dino s (Z.of_nat i + 1)) f;
  fo_apart : all_apart T;
}.

(** A file whose blocks and inode are left alone. *)
Lemma is_file_same s s' d f : is_file s d f → s.(freeblock) <= s'.(freeblock) → (∀ b, b ∈ owned f.(f_blocks) f.(f_ib) → s'.(sect) b = s.(sect) b) →
  is_file s' d f.
Proof.
  intros [[[M1 M2 M3 M4 M5] R Nd] F2 F3 F4 F5 (C1 & C2 & C3)] Hfree Hsame. split; try done.
  - split; [split|..]; try done.
    + intros H12 j Hj. rewrite Hsame; [by apply M4|]. unfold owned. rewrite decide_True by done. apply elem_snoc. by right.
    + intros b Hb. specialize (R b Hb). lia.
  - split_and!; [done|done|]. intros k Hk. rewrite Hsame; [by apply C3|]. apply elem_of_app. left. apply nth_elem.
    apply Nat.Div0.div_lt_upper_bound. lia.
Qed.

(** An inode that is written back with the addresses it had. *)
Lemma is_file_filled s d f : is_file s d f → is_file s (filled d blank) f.
Proof. intros [[[M1 M2 M3 M4 M5] R Nd] [] F3 F4 F5 F6]. split; try done; split; try done. Qed.

Lemma own_addrs s d L ib : img_ok s → own s d L ib → Forall is_u32 d.(i_addrs).
Proof.
  intros [H1 H2 H3 H4] [[M1 M2 M3 M4 M5] R Nd]. rewrite nmeta_eq in *. apply Forall_lookup_2. intros j v Hj.
  assert (Ev : v = nth j d.(i_addrs) 0) by (by rewrite nth_lookup, Hj). pose proof (lookup_lt_Some _ _ _ Hj).
  assert (Hr : ∀ b, b ∈ owned L ib → is_u32 b) by (intros b Hb; specialize (R b Hb); unfold is_u32; lia).
  destruct (decide (j < 12)%nat) as [Hlt|].
  - rewrite Ev, M2 by done. destruct (decide (j < length L)%nat); [apply Hr, elem_of_app; left; by apply nth_elem|]. rewrite nth_overflow by lia. done.
  - replace j with 12%nat in Ev by lia. rewrite Ev, M3. case_decide; [|done]. apply Hr. unfold owned. rewrite decide_True by done. apply elem_snoc. by right.
Qed.


Lemma room_insert T i f g : T !! i = Some f → room (<[i := g]> T) = room T + cost (length g.(f_blocks)) - cost (length f.(f_blocks)).
Proof.
  revert i. induction T as [|h T IH]; intros i Hi; [done|]. destruct i as [|i]; cbn in Hi; [simplify_eq; cbn; lia|].
  change (cost (length h.(f_blocks)) + room (<[i := g]> T) = cost (length h.(f_blocks)) + room T + cost (length g.(f_blocks)) - cost (length f.(f_blocks))).
  rewrite (IH i Hi). lia.
Qed.

Lemma apart_insert T i f f' m : all_apart T → T !! i = Some f →
  (∀ j g b, T !! j = Some g → b ∈ owned g.(f_blocks) g.(f_ib) → b < m) →
  (∀ b, b ∈ owned f'.(f_blocks) f'.(f_ib) → b ∈ owned f.(f_blocks) f.(f_ib) ∨ m <= b) → all_apart (<[i := f']> T).
Proof.
  intros HT Hi Hm Hf j k g h b Hj Hk Hne Hb Hb'. pose proof (lookup_lt_Some _ _ _ Hi) as Hlt.
  destruct (decide (i = j)) as [<-|Hij]; [|rewrite list_lookup_insert_ne in Hj by done]; destruct (decide (i = k)) as [<-|Hik]; try done;
    [rewrite list_lookup_insert_ne in Hk by done; rewrite list_lookup_insert_eq in Hj by done
    |rewrite list_lookup_insert_eq in Hk by done|rewrite list_lookup_insert_ne in Hk by done]; simplify_eq.
  - destruct (Hf b Hb) as [Hb2|]; [by eapply (HT i k)|]. specialize (Hm k h b Hk Hb'). lia.
  - destruct (Hf b Hb') as [Hb2|]; [by eapply (HT j i)|]. specialize (Hm j g b Hj Hb). lia.
  - by eapply (HT j k).
Qed.

(** The image after one file was changed. *)
Lemma fs_ok_update s T i f f' s' : fs_ok s T → T !! i = Some f → img_ok s' →
  s'.(sect) 1 = s.(sect) 1 → s'.(freeinode) = s.(freeinode) →
  s'.(freeblock) = s.(freeblock) + cost (length f'.(f_blocks)) - cost (length f.(f_blocks)) → s.(freeblock) <= s'.(freeblock) →
  is_file s' (dino s' (Z.of_nat i + 1)) f' →
  (∀ b, b ∈ owned f'.(f_blocks) f'.(f_ib) → b ∈ owned f.(f_blocks) f.(f_ib) ∨ s.(freeblock) <= b) →
  (∀ j, 0 <= j < 208 → j ≠ Z.of_nat i + 1 → dino s' j = dino s j) →
  (∀ b, 59 <= b < s.(freeblock) → b ∉ owned f.(f_blocks) f.(f_ib) → s'.(sect) b = s.(sect) b) → fs_ok s' (<[i := f']> T).
Proof.
  intros [F1 F2 F3 F4 F5 F6 F7] Hi Hio Hsb Hfi Hfb Hge Hf' Hfresh Hdino Hsame. pose proof (lookup_lt_Some _ _ _ Hi) as Hlt. split.
  - done.
  - congruence.
  - rewrite length_insert. congruence.
  - by rewrite length_insert.
  - rewrite Hfb, F5, (room_insert T i f f' Hi). lia.
  - intros j g Hj. destruct (decide (i = j)) as [<-|Hne]; [by rewrite list_lookup_insert_eq in Hj by done; simplify_eq|].
    rewrite list_lookup_insert_ne in Hj by done. pose proof (lookup_lt_Some _ _ _ Hj). pose proof (F6 j g Hj) as G. rewrite Hdino by lia.
    apply (is_file_same s); [done|lia|]. intros b Hb. pose proof (ow_range _ _ _ _ (fi_own _ _ _ G) b Hb) as R. rewrite nmeta_eq in R.
    apply Hsame; [lia|]. by eapply F7.
  - eapply (apart_insert T i f f' s.(freeblock)); try done. intros j g b Hj Hb. apply (ow_range _ _ _ _ (fi_own _ _ _ (F6 j g Hj)) b Hb).
Qed.

Lemma rinode_ok inum s : 0 <= inum < 208 → img_ok s → rinode inum s = URet (dino s inum) s.
Proof.
  intros Hi [H1 H2 H3 H4]. rewrite nmeta_eq in H3. destruct (IBLOCK_sb inum Hi) as [_ R]. unfold rinode.
  by rewrite (ubind_ret _ _ _ _ _ (rsect_ret (IBLOCK inum sb) s ltac:(lia))).
Qed.

(** iappend() adds the bytes at the end of its file and leaves the others. *)
Lemma iappend_ok s T i f p : fs_ok s T → T !! i = Some f → (length f.(f_data) + length p <= 140 * 512)%nat →
  s.(freeblock) + cost (nblk (length f.(f_data) + length p)) - cost (length f.(f_blocks)) <= s.(nsect) →
  ∃ s' f', iappend (Z.of_nat i + 1) p s = URet tt s' ∧ fs_ok s' (<[i := f']> T) ∧ s'.(nsect) = s.(nsect) ∧
    f'.(f_type) = f.(f_type) ∧ f'.(f_data) = f.(f_data) ++ p.
Proof.
  intros Hfs Hi Hmax Hroom. pose proof Hfs as [F1 F2 F3 F4 F5 F6 F7]. pose proof (lookup_lt_Some _ _ _ Hi) as Hlt. pose proof F1 as [I1 I2 I3 I4]. rewrite nmeta_eq in I3.
  destruct (IBLOCK_sb (Z.of_nat i + 1) ltac:(lia)) as [Eb Rb]. pose proof (F6 i f Hi) as [O1 O2 O3 O4 O5 O6].
  destruct (iappend_loop_ok (S (length p)) p s (dino s (Z.of_nat i + 1)) f.(f_blocks) f.(f_ib) f.(f_data) F1 O1 O6 Hmax Hroom ltac:(lia))
    as (s1 & d1 & L1 & ib1 & E1 & A). pose proof A as [A1 A2 A3 A4 A5 A6 A7 A8 A9 A10].
  set (f' := mk_mfile f.(f_type) L1 ib1 (f.(f_data) ++ p)). set (x := set_i_size (Z.of_nat (length (f.(f_data) ++ p))) d1).
  assert (Hsz : is_u32 (Z.of_nat (length (f.(f_data) ++ p)))) by (rewrite length_app; unfold is_u32; lia).
  assert (Hf1 : is_file s1 x f').
  { split; try done; try (cbn; rewrite A10; done). { destruct A2 as [[] ? ?]. by split. }
    destruct O2. split; cbn; try done; try (rewrite A10; done); [apply (bm_len _ _ _ _ (ow_map _ _ _ _ A2))|by eapply own_addrs]. }
  destruct (winode_ok (Z.of_nat i + 1) x s1 ltac:(lia) (fi_dino _ _ _ Hf1) A1) as (s2 & E2 & W1 & W2 & W3 & W4 & W5 & W6 & W7).
  assert (Hlow : ∀ b, b < 58 → s1.(sect) b = s.(sect) b).
  { intros b Hb. apply A9; [lia|]. intros Hb'. pose proof (ow_range _ _ _ _ O1 b Hb') as R. rewrite nmeta_eq in R. lia. }
  exists s2, f'. split_and!; [| |congruence|done|done].
  - unfold iappend. rewrite (ubind_ret _ _ _ _ _ (rinode_ok (Z.of_nat i + 1) s ltac:(lia) F1)).
    rewrite O5, xint_id by (unfold is_u32; lia). rewrite (ubind_ret _ _ _ _ _ E1). by rewrite xint_id.
  - apply (fs_ok_update s T i f f' s2); try done; try congruence; try (rewrite W7, A4; done || lia); try lia.
    + rewrite W4, Hlow by lia. done.
    + rewrite W2. apply is_file_filled. apply (is_file_same s1); [done|lia|].
      intros b Hb. pose proof (ow_range _ _ _ _ A2 b Hb) as R. rewrite nmeta_eq in R. apply W4. lia.
    + intros j Hj Hne. rewrite W3 by done. unfold dino. rewrite Hlow; [done|]. destruct (IBLOCK_sb j Hj). lia.
    + intros b Hb Hnb. rewrite W4 by lia. apply A9; [lia|done].
Qed.

(** ** The free map *)

Lemma map_mark d i j : 0 <= i → 0 <= j → i / 8 < Z.of_nat (length d) →
  bit_of (<[Z.to_nat (i / 8) := Z.lor (nth (Z.to_nat (i / 8)) d 0) (Z.shiftl 1 (i `mod` 8))]> d) j = bool_decide (j = i) || bit_of d j.
Proof.
  intros Hi Hj Hl. pose proof (Z.mod_pos_bound i 8 ltac:(lia)). pose proof (Z.mod_pos_bound j 8 ltac:(lia)).
  pose proof (Z.div_pos i 8 Hi ltac:(lia)). pose proof (Z.div_pos j 8 Hj ltac:(lia)). unfold bit_of.
  destruct (decide (j / 8 = i / 8)) as [E|Hne].
  - rewrite E, nth_insert_eq by lia. rewrite Z.lor_spec, Z.shiftl_1_l, orb_comm. f_equal. rewrite Z.pow2_bits_eqb by lia.
    case_bool_decide as Hb; [subst; apply Z.eqb_refl|]. apply Z.eqb_neq. intros E2. apply Hb. pose proof (Z.div_mod j 8). pose proof (Z.div_mod i 8). lia.
  - rewrite nth_insert_ne by lia. rewrite bool_decide_false; [done|]. intros ->. done.
Qed.

Lemma mark_loop_bits n : ∀ i d j, 0 <= i → 0 <= j → i + Z.of_nat n <= 8 * Z.of_nat (length d) →
  bit_of (mark_loop n i d) j = bool_decide (i <= j < i + Z.of_nat n) || bit_of d j.
Proof.
  induction n as [|n IH]; intros i d j Hi Hj Hn; cbn [mark_loop]; [by rewrite bool_decide_false by lia|].
  rewrite IH by (rewrite ?length_insert; lia). rewrite map_mark by (try lia; apply Z.div_lt_upper_bound; lia).
  rewrite orb_assoc. f_equal. repeat case_bool_decide; done || lia.
Qed.

Lemma length_mark_loop n : ∀ i d, length (mark_loop n i d) = length d.
Proof. induction n as [|n IH]; intros i d; cbn [mark_loop]; [done|]. by rewrite IH, length_insert. Qed.

(** balloc() marks the first blocks in use and no other. *)
Lemma balloc_ok s used : 0 <= used < 4096 → 58 < s.(nsect) → ∃ s', balloc used s = URet tt s' ∧
  (∀ b, 0 <= b < 4096 → in_use sb s'.(sect) b = (b <? used)) ∧ (∀ b, b ≠ 58 → s'.(sect) b = s.(sect) b) ∧
  s'.(nsect) = s.(nsect) ∧ s'.(freeblock) = s.(freeblock) ∧ length (s'.(sect) 58) = 512%nat.
Proof.
  intros Hu Hn. unfold balloc. change (BSIZE * 8) with 4096. rewrite (proj2 (Z.ltb_lt used 4096)) by lia. eexists. split; [reflexivity|].
  cbn [sect nsect freeinode freeblock]. change (sb.(sb_bmapstart)) with 58. split_and!; try done; try lia.
  - intros b Hb. unfold in_use. rewrite Z.mod_small by (unfold BPB, BSIZE; lia).
    replace (BBLOCK b sb) with 58.
    2: { unfold BBLOCK. rewrite Z.div_small by (unfold BPB, BSIZE; lia). done. }
    rewrite fn_lookup_insert. rewrite mark_loop_bits by (try lia; unfold zeroes; rewrite length_replicate; lia).
    rewrite Z2Nat.id by lia. replace (bit_of zeroes b) with false.
    2: { unfold bit_of, zeroes. rewrite nth_lookup. destruct (_ !! _) as [v|] eqn:E; [apply lookup_replicate in E as [-> _]|]; by rewrite Z.testbit_0_l. }
    rewrite orb_false_r. case_bool_decide; symmetry; [apply Z.ltb_lt|apply Z.ltb_ge]; lia.
  - intros b Hb. by rewrite fn_lookup_insert_ne.
  - rewrite fn_lookup_insert, length_mark_loop. done.
Qed.

(** ** The files of the image *)

(** The image of [FSSIZE] sectors has inodes 1, 2, ... of these types and
    contents. *)
Definition data_of (T : list mfile) : list (Z * list Z) := (λ f, (f.(f_type), f.(f_data))) <$> T.
Definition need (D : list (Z * list Z)) : Z := foldr (λ x n, cost (nblk (length x.2)) + n) 0 D.
Definition holds (s : image) (D : list (Z * list Z)) : Prop := ∃ T, fs_ok s T ∧ data_of T = D ∧ s.(nsect) = FSSIZE.

Lemma need_cons x D : need (x :: D) = cost (nblk (length x.2)) + need D.
Proof. reflexivity. Qed.

Lemma need_app D E : need (D ++ E) = need D + need E.
Proof. induction D as [|x D IH]; [done|]. rewrite <- app_comm_cons, !need_cons, IH. lia. Qed.

Lemma need_nonneg D : 0 <= need D.
Proof. induction D as [|x D IH]; [done|]. rewrite need_cons. unfold cost. case_decide; lia. Qed.

Lemma need_insert D i x y : D !! i = Some x → need (<[i := y]> D) = need D + cost (nblk (length y.2)) - cost (nblk (length x.2)).
Proof.
  intros Hi. rewrite insert_take_drop by (by eapply lookup_lt_Some). rewrite <- (take_drop_middle D i x Hi) at 3. rewrite !need_app, !need_cons. lia.
Qed.

Lemma room_need s T : fs_ok s T → room T = need (data_of T).
Proof.
  intros [_ _ _ _ _ F _]. assert (H : Forall (λ f, length f.(f_blocks) = nblk (length f.(f_data))) T).
  { apply Forall_lookup_2. intros i f Hi. eapply content_nblk, (fi_data _ _ _ (F i f Hi)). }
  clear F. induction H as [|f T Hf _ IH]; [done|]. 
  change (cost (length f.(f_blocks)) + room T = cost (nblk (length f.(f_data))) + need (data_of T)). by rewrite Hf, IH.
Qed.

Lemma holds_free s D : holds s D → s.(freeblock) = nmeta + need D.
Proof. intros (T & Hfs & <- & _). rewrite <- (room_need s T Hfs). apply (fo_room _ _ Hfs). Qed.

Lemma holds_iappend s D i ty c p : holds s D → D !! i = Some (ty, c) → (length c + length p <= 140 * 512)%nat →
  nmeta + need (<[i := (ty, c ++ p)]> D) <= FSSIZE →
  ∃ s', iappend (Z.of_nat i + 1) p s = URet tt s' ∧ holds s' (<[i := (ty, c ++ p)]> D).
Proof.
  intros Hh Hi Hmax Hroom. pose proof (holds_free _ _ Hh) as Hfree. destruct Hh as (T & Hfs & <- & Hn).
  unfold data_of in Hi. apply list_lookup_fmap_Some in Hi as (f & [= -> ->] & Hi).
  rewrite (need_insert _ i (f.(f_type), f.(f_data))) in Hroom by (unfold data_of; by rewrite list_lookup_fmap, Hi). cbn [snd] in Hroom. rewrite length_app in Hroom.
  destruct (iappend_ok s T i f p Hfs Hi Hmax) as (s' & f' & E & Hfs' & Hn' & Ht & Hd).
  { rewrite (content_nblk _ _ _ (fi_data _ _ _ (fo_file _ _ Hfs i f Hi))). lia. }
  exists s'. split; [done|]. exists (<[i := f']> T). split_and!; [done| |congruence]. unfold data_of. rewrite list_fmap_insert. cbn. by rewrite Ht, Hd.
Qed.

(** Pieces added one after the other. *)
Lemma holds_pieces ps : ∀ s D i ty c, holds s D → D !! i = Some (ty, c) → (length c + length (concat ps) <= 140 * 512)%nat →
  nmeta + need (<[i := (ty, c ++ concat ps)]> D) <= FSSIZE →
  ∃ s', uforeach ps (iappend (Z.of_nat i + 1)) s = URet tt s' ∧ holds s' (<[i := (ty, c ++ concat ps)]> D).
Proof.
  induction ps as [|p ps IH]; intros s D i ty c Hh Hi Hmax Hroom; cbn [uforeach concat] in *.
  - exists s. rewrite app_nil_r, list_insert_id by done. done.
  - rewrite length_app in Hmax. pose proof (lookup_lt_Some _ _ _ Hi) as Hlt. rewrite (need_insert _ i _ _ Hi) in Hroom. cbn [snd] in Hroom. rewrite !length_app in Hroom.
    assert (Hm : cost (nblk (length c + length p)) <= cost (nblk (length c + (length p + length (concat ps))))).
    { apply cost_mono. unfold nblk. apply Nat.Div0.div_le_mono. lia. }
    destruct (holds_iappend s D i ty c p Hh Hi ltac:(lia)) as (s1 & E1 & H1).
    { rewrite (need_insert _ i _ _ Hi). cbn [snd]. rewrite length_app. lia. }
    rewrite (ubind_ret _ _ _ _ _ E1). destruct (IH s1 (<[i := (ty, c ++ p)]> D) i ty (c ++ p) H1) as (s2 & E2 & H2).
    + by apply list_lookup_insert_eq.
    + rewrite length_app. lia.
    + rewrite list_insert_insert_eq, (need_insert _ i _ _ Hi), <- app_assoc. cbn [snd]. rewrite !length_app. lia.
    + exists s2. rewrite list_insert_insert_eq, <- app_assoc in H2. done.
Qed.

Lemma is_file_new s ty : is_s16 ty → is_file s (mk_inode 0 0 0 0 ty 0 0 1 0 (replicate 13 0)) (mk_mfile ty [] 0 []).
Proof.
  intros Ht. assert (Hz : ∀ j, nth j (replicate 13 0) 0 = 0) by (intros j; rewrite nth_lookup; by destruct (_ !! _) as [v|] eqn:E; [apply lookup_replicate in E as [-> _]|]).
  split; try done.
  - split; [split|..]; cbn [f_blocks f_ib owned app length i_addrs]; try done; try lia.
    + intros j Hj. rewrite Hz. by destruct j.
    + rewrite decide_False by lia. intros b Hb. by apply not_elem_of_nil in Hb.
    + rewrite decide_False by lia. constructor.
  - split; cbn; try done. by repeat constructor.
  - cbn. split_and!; [cbn; lia|done|]. intros k Hk. cbn in Hk. lia.
Qed.

(** ialloc() adds an empty file. *)
Lemma holds_ialloc s D ty : holds s D → (length D < 199)%nat → is_s16 ty → xshort ty = ty →
  ∃ s', ialloc ty s = URet (Z.of_nat (length D) + 1) s' ∧ holds s' (D ++ [(ty, [])]).
Proof.
  intros (T & Hfs & <- & Hn) Hlen Ht Ex. unfold data_of in *. rewrite length_fmap in *. pose proof Hfs as [F1 F2 F3 F4 F5 F6 F7].
  unfold ialloc. erewrite ubind_ret; [|reflexivity]. rewrite Ex, F3. change (xshort 1) with 1. change (xint 0) with 0.
  set (d0 := mk_inode 0 0 0 0 ty 0 0 1 0 (replicate 13 0)). set (f := mk_mfile ty [] 0 []).
  rewrite u32_small by (unfold is_u32; lia). set (s1 := mk_image s.(sect) s.(nsect) (Z.of_nat (length T) + 1 + 1) s.(freeblock)).
  assert (H1 : img_ok s1) by (destruct F1; split; done). pose proof (is_file_new s1 ty Ht) as Hf.
  destruct (winode_ok (Z.of_nat (length T) + 1) d0 s1 ltac:(lia) (fi_dino _ _ _ Hf) H1) as (s2 & E2 & W1 & W2 & W3 & W4 & W5 & W6 & W7).
  rewrite (ubind_ret _ _ _ _ _ E2). exists s2. split; [done|]. exists (T ++ [f]). split_and!; [|unfold data_of; by rewrite fmap_app|by rewrite W5].
  assert (Hlook : ∀ i g, (T ++ [f]) !! i = Some g → T !! i = Some g ∨ i = length T ∧ g = f).
  { intros i g Hi. apply lookup_app_Some in Hi as [Hi|[Hi Hg]]; [by left|]. right. destruct (i - length T)%nat as [|n] eqn:En; [|by destruct n].
    cbn in Hg. simplify_eq. split; [lia|done]. }
  split; rewrite ?length_app; cbn [length].
  - done.
  - by rewrite W4 by lia.
  - rewrite W6. cbn. lia.
  - lia.
  - rewrite W7. cbn [freeblock s1]. rewrite F5. unfold room. rewrite foldr_app. done.
  - intros i g [Hi|[-> ->]]%Hlook; [|rewrite W2; by apply (is_file_filled s2), is_file_new].
    pose proof (lookup_lt_Some _ _ _ Hi). pose proof (F6 i g Hi) as G. rewrite W3 by lia. apply (is_file_same s); [done|by rewrite W7|].
    intros b Hb. pose proof (ow_range _ _ _ _ (fi_own _ _ _ G) b Hb) as R. rewrite nmeta_eq in R. by rewrite W4 by lia.
  - intros i j g h b [Hi|[-> ->]]%Hlook [Hj|[-> ->]]%Hlook Hne Hb; [by eapply (F7 i j)|apply not_elem_of_nil|by apply not_elem_of_nil in Hb|done].
Qed.

(** What the arguments put in the image: a name and the pieces read for it. *)
Definition dir_entry (i : nat) (f : list Z * list (list Z)) : list Z := dirent (Z.of_nat i + 2) (strip f.1).
Definition layout (F : list (list Z * list (list Z))) : list (Z * list Z) :=
  (T_DIR, dirent 1 (codes ".") ++ dirent 1 (codes "..") ++ concat (imap dir_entry F)) :: ((λ f, (T_FILE, concat f.2)) <$> F).

Lemma length_dirent n name : length (dirent n name) = 16%nat.
Proof. unfold dirent. rewrite length_app, length_take, length_app, length_replicate. change (length (half_bytes _)) with 2%nat. lia. Qed.

Lemma layout_snoc F f : layout (F ++ [f]) =
  <[0%nat := (T_DIR, (dirent 1 (codes ".") ++ dirent 1 (codes "..") ++ concat (imap dir_entry F)) ++ dir_entry (length F) f)]> (layout F) ++ [(T_FILE, concat f.2)].
Proof.
  unfold layout. rewrite imap_app, concat_app, fmap_app. cbn [imap concat fmap list_fmap list_insert insert app]. rewrite app_nil_r, <- !app_assoc.
  by rewrite Nat.add_0_r.
Qed.

Lemma length_layout F : length (layout F) = S (length F).
Proof. unfold layout. cbn. by rewrite length_fmap. Qed.

Lemma length_entries F : length (concat (imap dir_entry F)) = (16 * length F)%nat.
Proof.
  induction F as [|f F IH] using rev_ind; [done|]. rewrite imap_app, concat_app, !length_app, IH. cbn [imap concat]. rewrite app_nil_r. unfold dir_entry, compose.
  rewrite length_dirent. cbn [length]. lia.
Qed.

Lemma need_layout_mono F G : need (layout F) <= need (layout (F ++ G)).
Proof.
  unfold layout. rewrite imap_app, concat_app, fmap_app, !need_cons, need_app. cbn [snd]. pose proof (need_nonneg ((λ f, (T_FILE, concat f.2)) <$> G)).
  match goal with |- cost (nblk ?a) + _ <= cost (nblk ?b) + _ => assert (cost (nblk a) <= cost (nblk b)) end; [|lia].
  apply cost_mono. unfold nblk. apply Nat.Div0.div_le_mono. rewrite !length_app. lia.
Qed.

(** One argument. *)
Lemma holds_add_file s F name ps : holds s (layout F) → (length F < 198)%nat → strchr name (chr "/") = None →
  (length (concat ps) <= 140 * 512)%nat → nmeta + need (layout (F ++ [(name, ps)])) <= FSSIZE →
  ∃ s', add_file (name, Some ps) s = URet tt s' ∧ holds s' (layout (F ++ [(name, ps)])).
Proof.
  intros Hh Hlen Hslash Hmax Hroom. rewrite layout_snoc in *. set (dir := dirent 1 (codes ".") ++ dirent 1 (codes "..") ++ concat (imap dir_entry F)) in *.
  assert (Hdir : length dir = (32 + 16 * length F)%nat) by (unfold dir; rewrite !length_app, !length_dirent, length_entries; lia).
  unfold add_file. rewrite Hslash. destruct (holds_ialloc s (layout F) T_FILE Hh) as (s1 & E1 & H1); [rewrite length_layout; lia|done|done|].
  rewrite (ubind_ret _ _ _ _ _ E1). rewrite length_layout. replace (Z.of_nat (S (length F)) + 1) with (Z.of_nat (length F) + 2) by lia.
  set (D := layout F ++ [(T_FILE, [])]) in *. change (dirent (Z.of_nat (length F) + 2) (strip name)) with (dir_entry (length F) (name, ps)).
  set (e := dir_entry (length F) (name, ps)) in *. assert (He : length e = 16%nat) by apply length_dirent.
  assert (H0 : D !! 0%nat = Some (T_DIR, dir)) by done.
  assert (ED : <[0%nat := (T_DIR, dir ++ e)]> D = <[0%nat := (T_DIR, dir ++ e)]> (layout F) ++ [(T_FILE, [])]) by done.
  rewrite need_app, need_cons in Hroom. change (need []) with 0 in Hroom. cbn [snd] in Hroom.
  assert (Hc0 : cost (nblk 0) = 0) by done. assert (Hcp : 0 <= cost (nblk (length (concat ps)))) by (unfold cost; case_decide; lia).
  destruct (holds_iappend s1 D 0 T_DIR dir e H1 H0 ltac:(lia)) as (s2 & E2 & H2).
  { rewrite ED, need_app, need_cons. change (need []) with 0. cbn [snd length]. rewrite Hc0. lia. }
  change ROOTINO with (Z.of_nat 0 + 1). rewrite (ubind_ret _ _ _ _ _ E2). rewrite ED in H2.
  set (D2 := <[0%nat := (T_DIR, dir ++ e)]> (layout F)) in *. assert (HD2 : length D2 = S (length F)) by (unfold D2; by rewrite length_insert, length_layout).
  destruct (holds_pieces ps s2 (D2 ++ [(T_FILE, [])]) (S (length F)) T_FILE [] H2) as (s3 & E3 & H3).
  - rewrite lookup_app_r, HD2, Nat.sub_diag by lia. done.
  - exact Hmax.
  - rewrite insert_app_r_alt, HD2, Nat.sub_diag, need_app by lia. cbn [insert list_insert app]. rewrite need_cons. change (need []) with 0. cbn [snd]. lia.
  - exists s3. replace (Z.of_nat (length F) + 2) with (Z.of_nat (S (length F)) + 1) by lia. split; [done|].
    rewrite insert_app_r_alt, HD2, Nat.sub_diag in H3 by lia. done.
Qed.

Lemma holds_add_files G : ∀ s F, holds s (layout F) → (length F + length G <= 198)%nat →
  Forall (λ f, strchr f.1 (chr "/") = None ∧ (length (concat f.2) <= 140 * 512)%nat) G → nmeta + need (layout (F ++ G)) <= FSSIZE →
  ∃ s', uforeach ((λ f, (f.1, Some f.2)) <$> G) add_file s = URet tt s' ∧ holds s' (layout (F ++ G)).
Proof.
  induction G as [|[name ps] G IH]; intros s F Hh Hlen HG Hroom; [exists s; by rewrite app_nil_r|].
  apply Forall_cons in HG as [[H1 H2] HG]. cbn [length fst snd] in *. replace (F ++ (name, ps) :: G) with ((F ++ [(name, ps)]) ++ G) in * by by rewrite <- app_assoc.
  pose proof (need_layout_mono (F ++ [(name, ps)]) G). destruct (holds_add_file s F name ps Hh ltac:(lia) H1 H2 ltac:(lia)) as (s1 & E1 & Hh1).
  destruct (IH s1 (F ++ [(name, ps)]) Hh1) as (s2 & E2 & Hh2); [rewrite length_app; cbn; lia|done|done|]. exists s2. split; [|done].
  cbn [fmap list_fmap uforeach fst snd]. by rewrite (ubind_ret _ _ _ _ _ E1).
Qed.

(** ** The whole program *)

Lemma zero_loop_ok n : ∀ i s, 0 <= i → 0 <= s.(nsect) →
  ∃ s', zero_loop n i s = URet tt s' ∧ (∀ b, s'.(sect) b = if decide (i <= b < i + Z.of_nat n) then zeroes else s.(sect) b) ∧
    s'.(nsect) = (if decide (n = 0%nat) then s.(nsect) else Z.max s.(nsect) (i + Z.of_nat n)) ∧ s'.(freeinode) = s.(freeinode) ∧ s'.(freeblock) = s.(freeblock).
Proof.
  induction n as [|n IH]; intros i s Hi Hn; cbn [zero_loop].
  - exists s. split_and!; try done. intros b. by rewrite decide_False by lia.
  - erewrite ubind_ret; [|reflexivity]. destruct (IH (i + 1) (mk_image (<[i := zeroes]> s.(sect)) (Z.max s.(nsect) (i + 1)) s.(freeinode) s.(freeblock)))
      as (s' & E & H1 & H2 & H3 & H4); [lia|cbn; lia|]. exists s'. cbn [sect nsect freeinode freeblock] in *. split_and!; try done.
    + intros b. rewrite H1. destruct (decide (b = i)) as [->|Hne]; [rewrite decide_False, fn_lookup_insert, decide_True by lia; done|].
      rewrite fn_lookup_insert_ne by done. repeat case_decide; done || lia.
    + rewrite H2. repeat case_decide; lia.
Qed.

(** The image before any file. *)
Definition start (s : image) : Prop := s.(sect) = (λ _, zeroes) ∧ s.(nsect) = 0 ∧ s.(freeinode) = 1.

Lemma holds_start s (k : U image unit) : start s → ∃ s', ((λ s, URet tt (mk_image s.(sect) s.(nsect) s.(freeinode) nmeta)) ;;
    zero_loop (Z.to_nat FSSIZE) 0;; wsect 1 super_block;; k) s = k s' ∧ holds s' [].
Proof.
  intros (H1 & H2 & H3). erewrite ubind_ret; [|reflexivity].
  destruct (zero_loop_ok (Z.to_nat FSSIZE) 0 (mk_image s.(sect) s.(nsect) s.(freeinode) nmeta)) as (s1 & E1 & Z1 & Z2 & Z3 & Z4); [lia|cbn; lia|].
  rewrite (ubind_ret _ _ _ _ _ E1). erewrite ubind_ret; [|reflexivity]. eexists. split; [reflexivity|]. cbn [sect nsect freeinode freeblock] in *. rewrite Z2Nat.id in Z2 by done.
  rewrite decide_False in Z2 by (unfold FSSIZE; lia). assert (Hn : s1.(nsect) = 1000) by (rewrite Z2, H2; done).
  assert (Hs : ∀ b, s1.(sect) b = zeroes) by (intros b; rewrite Z1, H1; by case_decide).
  exists []. split_and!; cbn [nsect]; [|done|rewrite Hn; done]. split; cbn [sect nsect freeinode freeblock]; try done; try lia.
  - split; cbn [sect nsect freeblock]; rewrite ?nmeta_eq, ?Hn, ?Z4; try lia.
    + intros b. destruct (decide (b = 1)) as [->|]; [by rewrite fn_lookup_insert; vm_compute|]. rewrite fn_lookup_insert_ne by done. by rewrite Hs.
    + rewrite nmeta_eq. intros b Hb. by rewrite fn_lookup_insert_ne by lia.
    + rewrite nmeta_eq. lia.
  - by rewrite Z3.
  - cbn. lia.
Qed.

(** Inode 1 after the two entries of the root directory. *)
Lemma holds_root s (k : U image unit) : holds s [] → ∃ s', (rootino ← ialloc T_DIR;
    if negb (rootino =? ROOTINO) then uexit else
    iappend rootino (dirent rootino (codes "."));; iappend rootino (dirent rootino (codes ".."));; k) s = k s' ∧ holds s' (layout []).
Proof.
  intros H0. destruct (holds_ialloc s [] T_DIR H0) as (s1 & E1 & H1); [cbn; lia|done|done|]. rewrite (ubind_ret _ _ _ _ _ E1).
  change (Z.of_nat (length []) + 1) with (Z.of_nat 0 + 1). change (Z.of_nat 0 + 1 =? ROOTINO) with true. cbn [negb].
  change ([] ++ [(T_DIR, [])]) with [(T_DIR, @nil Z)] in H1. set (e1 := dirent (Z.of_nat 0 + 1) (codes ".")). set (e2 := dirent (Z.of_nat 0 + 1) (codes "..")).
  assert (L1 : length e1 = 16%nat) by apply length_dirent. assert (L2 : length e2 = 16%nat) by apply length_dirent.
  destruct (holds_iappend s1 [(T_DIR, [])] 0 T_DIR [] e1 H1 eq_refl) as (s2 & E2 & H2); [rewrite L1; cbn [length]; lia|by vm_compute|].
  rewrite (ubind_ret _ _ _ _ _ E2). destruct (holds_iappend s2 [(T_DIR, e1)] 0 T_DIR e1 e2 H2 eq_refl) as (s3 & E3 & H3); [rewrite L1, L2; lia|by vm_compute|].
  rewrite (ubind_ret _ _ _ _ _ E3). exists s3. split; [done|]. exact H3.
Qed.

(** The finished image. *)
Record built (s : image) (F : list (list Z * list (list Z))) (T : list mfile) : Prop := {
  bu_data : data_of T = layout F;
  bu_super : s.(sect) 1 = super_block;
  bu_size : s.(nsect) = FSSIZE;
  bu_len : ∀ b, length (s.(sect) b) = 512%nat;
  bu_root : ∀ f, T !! 0%nat = Some f → is_file s (set_i_size (Z.of_nat (length f.(f_data))) (dino s ROOTINO)) f ∧
    (dino s ROOTINO).(i_size) = (Z.of_nat (length f.(f_data)) / BSIZE + 1) * BSIZE;
  bu_file : ∀ i f, T !! S i = Some f → is_file s (dino s (Z.of_nat i + 2)) f;
  bu_apart : all_apart T;
  bu_free : s.(freeblock) = nmeta + need (layout F);
  bu_room : s.(freeblock) <= FSSIZE;
  bu_map : ∀ b, 0 <= b < FSSIZE → in_use sb s.(sect) b = (b <? s.(freeblock));
}.

(** The size of the root directory, and nothing else, is changed. *)
Lemma fix_root_ok s T root : fs_ok s T → T !! 0%nat = Some root → (length root.(f_data) < 140 * 512)%nat →
  ∃ s', fix_root s = URet tt s' ∧
    dino s' ROOTINO = filled (set_i_size ((Z.of_nat (length root.(f_data)) / BSIZE + 1) * BSIZE) (dino s ROOTINO)) blank ∧
    (∀ j, 0 <= j < 208 → j ≠ ROOTINO → dino s' j = dino s j) ∧ (∀ b, b < 32 ∨ 58 <= b → s'.(sect) b = s.(sect) b) ∧
    s'.(nsect) = s.(nsect) ∧ s'.(freeblock) = s.(freeblock) ∧ ∀ b, length (s'.(sect) b) = 512%nat.
Proof.
  intros Hfs H0 Hlen. pose proof (fo_file _ _ Hfs 0%nat root H0) as [O1 O2 O3 O4 O5 O6]. pose proof (fo_img _ _ Hfs) as F1.
  change (Z.of_nat 0 + 1) with ROOTINO in *. set (off := (Z.of_nat (length root.(f_data)) / BSIZE + 1) * BSIZE).
  assert (Hoff : is_u32 off) by (unfold off, BSIZE, is_u32; Z.to_euclidean_division_equations; lia).
  destruct (winode_ok ROOTINO (set_i_size off (dino s ROOTINO)) s ltac:(unfold ROOTINO; lia)) as (s' & E & W1 & W2 & W3 & W4 & W5 & W6 & W7); [|done|].
  { destruct O2. by split. }
  exists s'. split_and!; try done; [|by apply W1]. unfold fix_root. rewrite (ubind_ret _ _ _ _ _ (rinode_ok ROOTINO s ltac:(unfold ROOTINO; lia) F1)).
  rewrite O5, (xint_id (Z.of_nat _)) by (unfold is_u32; lia). cbv zeta. fold off. by rewrite xint_id.
Qed.

Lemma built_end s F : holds s (layout F) → (length F <= 198)%nat → nmeta + need (layout F) <= FSSIZE →
  ∃ s' T, (fix_root;; b ← (λ s, URet s.(freeblock) s); balloc b : U image unit) s = URet tt s' ∧ built s' F T.
Proof.
  intros Hh HF Hroom. pose proof (holds_free _ _ Hh) as Hfree. destruct Hh as (T & Hfs & HT & Hn). pose proof Hfs as [F1 F2 F3 F4 F5 F6 F7].
  rewrite nmeta_eq in *. pose proof (need_nonneg (layout F)). unfold FSSIZE in Hroom.
  assert (∃ root, T !! 0%nat = Some root ∧ length root.(f_data) = (32 + 16 * length F)%nat) as (root & Hroot & Hlen).
  { unfold layout in HT. remember (dirent 1 (codes ".") ++ dirent 1 (codes "..") ++ concat (imap dir_entry F)) as dir eqn:Edir.
    destruct T as [|root T]; [done|]. exists root. split; [done|]. injection HT as _ Hd _. rewrite Hd, Edir, !length_app, !length_dirent, length_entries. lia. }
  destruct (fix_root_ok s T root Hfs Hroot ltac:(lia)) as (s1 & E1 & R1 & R2 & R3 & R4 & R5 & R6).
  destruct (balloc_ok s1 s1.(freeblock) ltac:(lia)) as (s2 & E2 & B1 & B2 & B3 & B5 & B6); [rewrite R4, Hn; done|].
  assert (Hblk : ∀ b, nmeta <= b → s2.(sect) b = s.(sect) b) by (rewrite nmeta_eq; intros b Hb; rewrite B2, R3 by lia; done).
  assert (Hdino : ∀ j, 0 <= j < 208 → dino s2 j = dino s1 j).
  { intros j Hj. destruct (IBLOCK_sb j Hj). unfold dino. by rewrite B2 by lia. }
  assert (Hfile : ∀ d f, is_file s d f → is_file s2 d f).
  { intros d f Hf. apply (is_file_same s); [done|lia|]. intros b Hb. apply Hblk. apply (ow_range _ _ _ _ (fi_own _ _ _ Hf) b Hb). }
  exists s2, T. split; [rewrite (ubind_ret _ _ _ _ _ E1); erewrite ubind_ret; [exact E2|reflexivity]|]. split; try done.
  - by rewrite B2, R3 by lia.
  - congruence.
  - intros b. destruct (decide (b = 58)) as [->|]; [done|]. by rewrite B2.
  - intros f Hf. rewrite Hroot in Hf. simplify_eq. rewrite Hdino, R1 by (unfold ROOTINO; lia). split; [|done]. apply Hfile.
    pose proof (F6 0%nat f Hroot) as G. change (Z.of_nat 0 + 1) with ROOTINO in G. pose proof (is_file_filled _ _ _ G) as G2.
    replace (set_i_size _ _) with (filled (dino s ROOTINO) blank); [done|].
    pose proof (fi_size _ _ _ G) as Gs. clear -Gs. destruct (dino s ROOTINO). cbn in *. by subst.
  - intros i f Hi. pose proof (lookup_lt_Some _ _ _ Hi). rewrite Hdino, R2 by (unfold ROOTINO; lia). apply Hfile. pose proof (F6 (S i) f Hi) as G.
    by replace (Z.of_nat (S i) + 1) with (Z.of_nat i + 2) in G by lia.
  - rewrite B5, R5, nmeta_eq. lia.
  - unfold FSSIZE. lia.
  - unfold FSSIZE. intros b Hb. rewrite B1, B5 by lia. done.
Qed.

Lemma mkfs_image (F : list (list Z * list (list Z))) (s : image) :
  start s → (length F <= 198)%nat →
  Forall (λ f, strchr f.1 (chr "/") = None ∧ (length (concat f.2) <= 140 * 512)%nat) F → nmeta + need (layout F) <= FSSIZE →
  ∃ s' T, mkfs_main ((λ f, (f.1, Some f.2)) <$> F) s = URet tt s' ∧ built s' F T.
Proof.
  intros Hs Hlen HF Hroom. unfold mkfs_main.
  match goal with |- ∃ s' T, (_ ≫= λ _, _ ≫= λ _, _ ≫= λ _, ?k) s = _ ∧ _ => destruct (holds_start s k Hs) as (s1 & E1 & H1) end.
  setoid_rewrite E1.
  match goal with |- ∃ s' T, (_ ≫= λ r, if _ then uexit else _ ≫= λ _, _ ≫= λ _, ?k) s1 = _ ∧ _ => destruct (holds_root s1 k H1) as (s2 & E2 & H2) end.
  setoid_rewrite E2. destruct (holds_add_files F s2 [] H2) as (s3 & E3 & H3); [done..|]. setoid_rewrite (ubind_ret _ _ _ _ _ E3).
  by apply built_end.
Qed.

(** C19: mkfs, started on an empty image with files whose names have no slash
    and that fit, ends in exit(0) and leaves an image that holds them: inode 2,
    3, ... is a regular file whose blocks, direct and indirect, have the bytes
    that were read, followed by zeroes, and whose size is their number; the
    root directory lists ., .. and the names without their underscore; no block
    belongs to two files; the superblock is the one the kernel expects, and the
    free map has the blocks in use and no other. *)
Theorem mkfs_builds (F : list (list Z * list (list Z))) (s : image) :
  start s → (length F <= 198)%nat →
  Forall (λ f, strchr f.1 (chr "/") = None ∧ (length (concat f.2) <= 140 * 512)%nat) F → nmeta + need (layout F) <= FSSIZE →
  ∃ s' T, mkfs_main ((λ f, (f.1, Some f.2)) <$> F) s = URet tt s' ∧ built s' F T.
Proof. apply mkfs_image. Qed.

Lemma mkfs_builds_witness : ∃ s' T,
  mkfs_main [(codes "_sh", Some [[1; 2; 3]; [4]]); (codes "README", Some [])] (mk_image (λ _, zeroes) 0 1 0) = URet tt s' ∧
  built s' [(codes "_sh", [[1; 2; 3]; [4]]); (codes "README", [])] T.
Proof.
  apply (mkfs_builds [(codes "_sh", [[1; 2; 3]; [4]]); (codes "README", [])] (mk_image (λ _, zeroes) 0 1 0)).
  - split_and!; reflexivity.
  - cbn. lia.
  - apply Forall_cons. split; [split; [reflexivity|cbn [fst snd concat app length]; lia]|].
    apply Forall_cons. split; [split; [reflexivity|cbn [fst snd concat app length]; lia]|]. by apply Forall_nil.
  - by vm_compute.
Defined.

(** A root directory that fills its last block is given a size with one block
    more than it has. *)
Lemma root_hole s F T f : built s F T → T !! 0%nat = Some f → Z.of_nat (length f.(f_data)) `mod` BSIZE = 0 →
  BSIZE * Z.of_nat (length f.(f_blocks)) < (dino s ROOTINO).(i_size).
Proof.
  intros Hb H0 Hm. destruct (bu_root _ _ _ Hb f H0) as [Hf ->]. destruct (fi_data _ _ _ Hf) as (C1 & C2 & _).
  unfold BSIZE in *. Z.to_euclidean_division_equations. lia.
Qed.
