(* ===== verification/FsProps.v ===== *)
(** * fs.c: reading files

    readi() on a file whose blocks are on the disk or in the cache, by one
    process, and the files that mkfs leaves in the image. The relations between
    an inode, its blocks and its bytes are those of Mkfs.v, on the logical
    contents of the blocks. *)
From S2P Require Import Prelude.
From S2P Require Import Cprintf.
From S2P Require Import Ulib.
From S2P Require Import Mkfs.
From S2P Require Import Kernel.
From S2P Require Import Spinlock.
From S2P Require Import Memory.
From S2P Require Import Sched.
From S2P Require Import SchedProps.
From S2P Require Import Sleeplock.
From S2P Require Import Bio.
From S2P Require Import BioProps.
From S2P Require Import Log.
From S2P Require Import LogProps.
From S2P Require Import Inode.
From S2P Require Import InodeProps.
From S2P Require Import Console.
From S2P Require Import Fs.

(** The inode [x] is the file [c], with data blocks [L] and indirect block
    [ib] on a disk of [size] blocks. *)
Record file_at (size : Z) (lg : Z → list Z) (x : inode) (L : list Z) (ib : Z) (c : list Z) : Prop := {
  fa_dev : x.(i_dev) = DISKDEV;
  fa_type : x.(i_type) ≠ T_DEV;
  fa_size : x.(i_size) = Z.of_nat (length c);
  fa_map : bmap_ok lg x L ib;
  fa_blocks : ∀ b, b ∈ owned L ib → 0 < b < size;
  fa_data : content lg L c;
}.

(** ** Memory and the file system are apart *)

Lemma fs_step_mem c k x k' m : fs_step c k x k' → fs_step c (set_mem m k) x (set_mem m k').
Proof. intros (h & ps & -> & H1 & H2). by exists h, ps. Qed.

Lemma fs_move_mem c k k' m : fs_move k c k' → fs_move (set_mem m k) c (set_mem m k').
Proof. intros [S R Z]. split; [by apply fs_step_mem|done|done]. Qed.

Lemma fs_move_same_mem c k k' : fs_move k c k' → k'.(mem) = k.(mem).
Proof. by intros [(h & ps & -> & _) _ _]. Qed.

Lemma at_rest_mem c i pr st nl bs k D lg m : at_rest c i pr st nl bs k D lg → at_rest c i pr st nl bs (set_mem m k) D lg.
Proof. intros [[[] ? ?] ? ? ?]. by split; [split; [split|..]|..]. Qed.

Lemma fs_step_window c k x k' va n f : fs_step c k x k' → window k va n f → window k' va n f.
Proof.
  intros (h & ps & -> & Hs & _) [W1 W2 W3].
  assert (E1 : h.(cr3) = k.(hw).(cr3)) by (destruct Hs as [->|[_ ->]]; done).
  assert (E2 : h.(lapic) = k.(hw).(lapic)) by (destruct Hs as [->|[_ ->]]; done).
  split; [|done|]; unfold xlate in *; cbn; rewrite ?E1, ?E2; done.
Qed.

Lemma fs_move_window c k k' va n f : fs_move k c k' → window k va n f → window k' va n f.
Proof. intros [Hs _ _]. by eapply fs_step_window. Qed.

Lemma set_mem_same k : set_mem k.(mem) k = k.
Proof. by destruct k. Qed.

(** Bytes stored one after the other. *)
Lemma put_list_window k va n f l : ∀ acc, window k va n f → Z.of_nat (length acc) + Z.of_nat (length l) <= n →
  put_list (λ j b, stb (u32 (va + j)) b) (Z.of_nat (length acc)) l (set_mem (put_at f 0 acc k.(mem)) k) =
  Ok tt (set_mem (put_at f 0 (acc ++ l) k.(mem)) k).
Proof.
  induction l as [|b l IH]; intros acc Hw Hn; cbn [put_list length] in *; [by rewrite app_nil_r|].
  mstep by (apply (window_stb k va n f); [done|lia]). replace (Z.of_nat (length acc) + 1) with (Z.of_nat (length (acc ++ [b]))) by (rewrite length_app; cbn; lia).
  rewrite IH; [|done|rewrite length_app; cbn; lia]. by rewrite <- app_assoc.
Qed.

Section reading.
  Context (c i : nat) (pr : proc) (st nl : Z).

(** A block is read, something is stored in memory, and the block released. *)
Lemma read_block k bs lg b (put : list Z → K unit) m :
  at_rest c i pr st nl bs k bs lg → (length bs < NBUF)%nat → 0 <= b < k.(fs).(disk).(disksize) →
  (∀ k', fs_move k c k' → put (lg b) k' = Ok tt (set_mem m k')) →
  ∃ n k1 k2, bread DISKDEV b k = Ok n k1 ∧ buf_data n k1 = Ok (lg b) k1 ∧ put (lg b) k1 = Ok tt (set_mem m k1) ∧ brelse n (set_mem m k1) = Ok tt k2 ∧
    fs_move (set_mem m k) c k2 ∧ at_rest c i pr st nl bs k2 bs lg ∧ k2.(fs).(disk) = k.(fs).(disk).
Proof using.
  intros Hr Hn Hb Hput. pose proof Hr as [He Hc _ _].
  destruct (bread_ok k c i pr [] bs lg b) as (n & k1 & E1 & G1); [done|done|done|apply not_elem_of_nil| |].
  { left. exists bs. split; [|done]. intros x [Hx|?]; [by apply elem_of_nil in Hx|done]. }
  pose proof (got_move _ _ _ _ _ _ _ _ _ G1) as M1.
  destruct (brelse_ok (set_mem m k1) c i pr n b [] bs lg) as (k2 & E2 & K2 & Hc2 & Ed2).
  { eapply env_move in He; [|exact M1]. destruct He as [[] ? ?]. by split; [split|..]. }
  { apply G1. }
  { apply not_elem_of_nil. }
  { apply G1. }
  { destruct (decide (b ∈ bs)); [by left|right]. cbn. rewrite (gt_disk _ _ _ _ _ _ _ _ _ G1). apply (co_clean _ _ _ _ _ Hc); [apply not_elem_of_nil|done]. }
  assert (M2 : fs_move (set_mem m k) c k2) by (eapply fs_move_trans; [by apply fs_move_mem|by apply kept_move]).
  exists n, k1, k2. split_and!; [done| |by apply Hput|done|done| |].
  - unfold buf_data. apply (buf_data_ok k1 n b pr.(pid) [b] bs lg); [apply G1|constructor|apply G1].
  - eapply at_rest_move; [by apply at_rest_mem|done|done].
  - rewrite Ed2. apply G1.
Qed.

Lemma addr_get_ok k ip x j v : k.(fs).(inodes) !! ip = Some x → length x.(i_addrs) = 13%nat → (j < 13)%nat → nth j x.(i_addrs) 0 = v →
  addr_get ip (Z.of_nat j) k = Ok v k.
Proof using.
  intros Hx Hl Hj Hv. unfold addr_get, ino_get. mstep by (by rewrite Hx). unfold byte_at. rewrite Nat2Z.id.
  destruct (lookup_lt_is_Some_2 x.(i_addrs) j ltac:(lia)) as [w Hw]. rewrite nth_lookup, Hw in Hv. cbn in Hv. subst w.
  rewrite Hw. by rewrite (proj2 (Z.leb_le 0 _)) by lia.
Qed.

(** bmap() of a block that the file has. *)
Lemma bmap_old k bs lg ip x L ib fbn :
  at_rest c i pr st nl bs k bs lg → (length bs < NBUF)%nat → k.(fs).(inodes) !! ip = Some x → x.(i_dev) = DISKDEV →
  bmap_ok lg x L ib → (∀ b, b ∈ owned L ib → 0 < b < k.(fs).(disk).(disksize)) → (fbn < length L)%nat →
  ∃ k', bmap ip (Z.of_nat fbn) k = Ok (nth fbn L 0) k' ∧ fs_move k c k' ∧ at_rest c i pr st nl bs k' bs lg ∧ k'.(fs).(disk) = k.(fs).(disk).
Proof using.
  intros Hr Hn Hx F1 [M1 M2 M3 M4 M5] F5 Hlt. unfold bmap.
  assert (Hy : nth fbn L 0 ∈ owned L ib) by (apply elem_of_app; left; by apply nth_elem).
  destruct (Z.ltb_spec (Z.of_nat fbn) NDIRECT) as [Hd|Hd]; unfold NDIRECT in Hd.
  - exists k. split; [|split; [apply fs_move_refl|done]]. unfold addr_alloc. mstep by (eapply addr_get_ok; [done|done|lia|apply M2; lia]).
    destruct (Z.eqb_spec (nth fbn L 0) 0) as [E|]; [specialize (F5 _ Hy); lia|done].
  - rewrite (proj2 (Z.ltb_lt _ _)) by (change NINDIRECT with 128; change NDIRECT with 12; lia).
    rewrite decide_True in M3 by lia. assert (Hib : ib ∈ owned L ib) by (unfold owned; rewrite decide_True by lia; apply elem_snoc; by right).
    pose proof (F5 _ Hib) as Rib. destruct (peek_ok c i pr st nl k bs lg ib Hr Hn ltac:(lia)) as (n & k1 & k2 & E1 & E2 & E3 & Mv & Hr2 & Ed).
    exists k2. split; [|done]. unfold addr_alloc. change NDIRECT with (Z.of_nat 12).
    mstep by (erewrite bind_Ok by (eapply addr_get_ok; [done|done|lia|done]); cbv beta; by destruct (Z.eqb_spec ib 0) as [E|]; [lia|]).
    unfold ino_get. mstep by (by rewrite Hx). rewrite F1. mstep by exact E1. mstep by exact E2.
    replace (4 * (Z.of_nat fbn - Z.of_nat 12)) with (4 * Z.of_nat (fbn - 12)) by lia. rewrite (M4 ltac:(lia)) by lia.
    replace (12 + (fbn - 12))%nat with fbn by lia. destruct (Z.eqb_spec (nth fbn L 0) 0) as [E|]; [specialize (F5 _ Hy); lia|].
    mstep. by mstep by exact E3.
Qed.

(** The part of a block that holds a part of the file. *)
Lemma content_part lg L ct o m : content lg L ct → (∀ b, length (lg b) = 512%nat) → (o + m <= length ct)%nat → (o mod 512 + m <= 512)%nat →
  take m (drop (o mod 512) (lg (nth (o / 512) L 0))) = take m (drop o ct).
Proof using.
  intros (C1 & C2 & C3) Hl Hm Ho. apply list_eq. intros j. destruct (decide (j < m)%nat) as [Hj|]; [|by rewrite !lookup_take_ge by lia].
  rewrite !lookup_take_lt, !lookup_drop by done. pose proof (Nat.div_mod_eq o 512) as Hdm.
  destruct (block_of (o / 512) (o + j) ltac:(lia)) as [Eq Em]. pose proof (C3 (o + j)%nat ltac:(lia)) as Hv. rewrite Eq, Em in Hv.
  replace (o + j - 512 * (o / 512))%nat with (o mod 512 + j)%nat in Hv by lia. remember (lg (nth (o / 512) L 0)) as d eqn:Ed. assert (Hd : length d = 512%nat) by (by rewrite Ed).
  destruct (lookup_lt_is_Some_2 ct (o + j) ltac:(lia)) as [v Ev]. destruct (lookup_lt_is_Some_2 d (o mod 512 + j) ltac:(lia)) as [w Ew].
  rewrite !nth_lookup, Ev, Ew in Hv. cbn in Hv. by rewrite Ev, Ew, Hv.
Qed.

(** The state in the loop of readi(): [acc] has been copied. *)
Definition copied (f : Z → Z) (k : kernel) (bs : list Z) (lg : Z → list Z) (acc : list Z) (kt : kernel) : Prop :=
  fs_move (set_mem (put_at f 0 acc k.(mem)) k) c kt ∧ at_rest c i pr st nl bs kt bs lg.

Lemma readi_turn_ok k bs lg ip x L ib ct va n f off acc kt :
  let o := (off + length acc)%nat in
  let m := Nat.min (n - length acc) (512 - o mod 512) in
  let bytes := take m (drop o ct) in
  copied f k bs lg acc kt → (length bs < NBUF)%nat → window k va (Z.of_nat n) f → k.(fs).(inodes) !! ip = Some x →
  file_at k.(fs).(disk).(disksize) lg x L ib ct → (length acc < n)%nat → (off + n <= length ct)%nat →
  ∃ kt', readi_turn (λ j b, stb (u32 (va + j)) b) ip (Z.of_nat n) (Z.of_nat (length acc), Z.of_nat o, acc) kt =
      Ok (inl (Z.of_nat (length acc + m), Z.of_nat (o + m), acc ++ bytes)) kt' ∧
    copied f k bs lg (acc ++ bytes) kt'.
Proof using.
  intros o m bytes [Hmv Hr] Hn Hw Hx Hf Ha Hend. pose proof Hmv as [_ (Ei & _) Es]. cbn in Ei, Es.
  pose proof (fa_data _ _ _ _ _ _ Hf) as Hcon. pose proof Hcon as (C1 & C2 & _).
  assert (Hq : (o / 512 < length L)%nat) by (apply Nat.Div0.div_lt_upper_bound; lia). pose proof (Nat.mod_upper_bound o 512 ltac:(done)) as Hmb.
  destruct (bmap_old kt bs lg ip x L ib (o / 512)) as (k1 & E1 & M1 & Hr1 & _); [done|done|by rewrite Ei|apply Hf|apply Hf|rewrite Es; apply Hf|done|].
  set (b := nth (o / 512) L 0) in *. assert (Rb : 0 < b < k.(fs).(disk).(disksize)) by (apply (fa_blocks _ _ _ _ _ _ Hf), elem_of_app; left; by apply nth_elem).
  pose proof (fs_move_trans _ _ _ _ Hmv M1) as Hmv1. pose proof Hmv1 as [_ (Ei1 & _) Es1]. cbn in Ei1, Es1.
  assert (Hbytes : take m (drop (o mod 512) (lg b)) = bytes).
  { apply (content_part lg L ct o m Hcon); [|lia|lia]. intros b'. apply (co_size _ _ _ _ _ (ar_cache _ _ _ _ _ _ _ _ _ Hr)). }
  assert (Hlb : length bytes = m) by (unfold bytes; rewrite length_take, length_drop; lia).
  destruct (read_block k1 bs lg b (λ d, put_list (λ j b, stb (u32 (va + j)) b) (Z.of_nat (length acc)) (take m (drop (o mod 512) d))) (put_at f 0 (acc ++ bytes) k.(mem)))
    as (nb & k2 & k3 & E2 & E3 & E4 & E5 & M5 & Hr5 & _); [done|done|lia| |].
  { intros k' Hk'. rewrite Hbytes. pose proof (fs_move_trans _ _ _ _ Hmv1 Hk') as Mk.
    pose proof (fs_move_mem _ _ _ k.(mem) Mk) as Mk2. change (set_mem (mem k) (set_mem (put_at f 0 acc (mem k)) k)) with (set_mem k.(mem) k) in Mk2. rewrite set_mem_same in Mk2.
    pose proof (put_list_window (set_mem k.(mem) k') va (Z.of_nat n) f bytes acc (fs_move_window _ _ _ _ _ _ Mk2 Hw) ltac:(lia)) as E.
    pose proof (fs_move_same_mem _ _ _ Mk) as Em. cbn in Em. cbn [mem set_mem] in E. rewrite <- Em in E at 1.
    change (set_mem (mem k') (set_mem (mem k) k')) with (set_mem k'.(mem) k') in E. rewrite set_mem_same in E. exact E. }
  exists k3. split.
  - unfold readi_turn. rewrite (proj2 (Z.ltb_lt (Z.of_nat (length acc)) (Z.of_nat n))) by lia. cbn [negb].
    replace (Z.of_nat o / BSIZE) with (Z.of_nat (o / 512)) by (rewrite Nat2Z.inj_div; done). mstep by exact E1.
    unfold ino_get. mstep by (by rewrite Ei1, Hx). rewrite (fa_dev _ _ _ _ _ _ Hf). mstep by exact E2. cbv zeta. mstep by exact E3.
    replace (Z.of_nat o `mod` BSIZE) with (Z.of_nat (o mod 512)) by (rewrite Nat2Z.inj_mod; done).
    replace (Z.min (Z.of_nat n - Z.of_nat (length acc)) (BSIZE - Z.of_nat (o mod 512))) with (Z.of_nat m) by (unfold m, BSIZE; lia).
    rewrite !Nat2Z.id. mstep by exact E4. mstep by exact E5. rewrite Hbytes, <- !Nat2Z.inj_add. done.
  - split; [|done]. eapply fs_move_trans; [|exact M5]. apply (fs_move_mem _ _ _ (put_at f 0 (acc ++ bytes) k.(mem))) in Hmv1. exact Hmv1.
Qed.

Lemma readi_loop_ok fuel : ∀ k bs lg ip x L ib ct va n f off acc kt, let o := (off + length acc)%nat in
  copied f k bs lg acc kt → (length bs < NBUF)%nat → window k va (Z.of_nat n) f → k.(fs).(inodes) !! ip = Some x →
  file_at k.(fs).(disk).(disksize) lg x L ib ct → acc = take (length acc) (drop off ct) → (length acc <= n)%nat → (off + n <= length ct)%nat →
  (0 < fuel)%nat → (length acc < n → n - length acc + o mod 512 <= 512 * (fuel - 1))%nat →
  ∃ kt', while_fuel fuel (readi_turn (λ j b, stb (u32 (va + j)) b) ip (Z.of_nat n)) (Z.of_nat (length acc), Z.of_nat o, acc) kt =
      Ok (s32 (Z.of_nat n), take n (drop off ct)) kt' ∧ copied f k bs lg (take n (drop off ct)) kt'.
Proof using.
  induction fuel as [|fuel IH]; intros k bs lg ip x L ib ct va n f off acc kt o Hc Hn Hw Hx Hf Hacc Hle Hend Hf0 Hfuel; [lia|]. cbn [while_fuel].
  destruct (decide (length acc = n)) as [E|Hne].
  - exists kt. rewrite E in Hacc. rewrite <- Hacc. split; [|done]. erewrite bind_Ok; [|unfold readi_turn; rewrite (proj2 (Z.ltb_ge _ _)) by lia; reflexivity]. done.
  - destruct (readi_turn_ok k bs lg ip x L ib ct va n f off acc kt Hc Hn Hw Hx Hf ltac:(lia) Hend) as (k1 & E1 & Hc1). fold o in E1, Hc1.
    rewrite (bind_Ok _ _ _ _ _ E1). cbv beta iota. set (m := Nat.min (n - length acc) (512 - o mod 512)) in *.
    set (bytes := take m (drop o ct)) in *. assert (Hlb : length bytes = m) by (unfold bytes; rewrite length_take, length_drop; lia).
    assert (Hla : length (acc ++ bytes) = (length acc + m)%nat) by (rewrite length_app; lia).
    pose proof (Nat.mod_upper_bound o 512 ltac:(done)). pose proof (Nat.div_mod_eq o 512).
    replace (o + m)%nat with (off + length (acc ++ bytes))%nat by (rewrite Hla; unfold o; lia). rewrite <- Hla.
    apply (IH k bs lg ip x L ib ct va n f off (acc ++ bytes) k1); try done; try lia.
    + rewrite Hla. rewrite Hacc at 1. unfold bytes, o. rewrite <- drop_drop, take_take_drop. done.
    + rewrite Hla. intros Hlt. replace (off + (length acc + m))%nat with (512 * S (o / 512))%nat by (unfold m, o in *; lia).
      rewrite Nat.mul_comm, Nat.Div0.mod_mul. unfold m in *. lia.
Qed.

End reading.

Lemma readi_ok c i pr st nl k bs lg ip x L ib ct dst off n f :
  at_rest c i pr st nl bs k bs lg → (length bs < NBUF)%nat → k.(fs).(inodes) !! ip = Some x →
  file_at k.(fs).(disk).(disksize) lg x L ib ct → is_u32 off → is_u32 n →
  let m := Z.to_nat (Z.min n (Z.of_nat (length ct) - off)) in
  let bytes := take m (drop (Z.to_nat off) ct) in
  let mem' := put_at f 0 bytes k.(mem) in
  window k dst (Z.of_nat m) f →
  (Z.of_nat (length ct) < off ∨ 2 ^ 32 <= off + n → readi ip dst off n k = Ok (-1) k) ∧
  (off <= Z.of_nat (length ct) → off + n < 2 ^ 32 → ∃ k',
     readi ip dst off n k = Ok (Z.of_nat m) k' ∧ fs_move (set_mem mem' k) c k' ∧ at_rest c i pr st nl bs k' bs lg ∧
     (∀ t b, bytes !! t = Some b → rd k'.(mem) (f (Z.of_nat t)) = u8 b) ∧
     (∀ a, (∀ t, 0 <= t < Z.of_nat m → u32 (f t) ≠ u32 a) → rd k'.(mem) a = rd k.(mem) a)).
Proof.
  intros Hr Hn Hx Hf Hoff Hlen m bytes mem' Hw. pose proof Hf as [F1 F2 F3 F4 F5 F6]. unfold readi, readi_gen, ino_get, is_u32 in *.
  pose proof F6 as (C1 & C2 & _). pose proof (bm_max _ _ _ _ F4) as Hmax.
  split.
  - intros Hbad. rewrite (bind_Ok _ _ k (-1, []) k); [done|]. mstep by (by rewrite Hx). rewrite (proj2 (Z.eqb_neq _ _) F2), F3.
    replace ((Z.of_nat (length ct) <? off) || (u32 (off + n) <? off)) with true; [done|]. symmetry. apply orb_true_iff.
    destruct Hbad as [H|H]; [left|right]; apply Z.ltb_lt; [done|]. words_mod. Z.to_euclidean_division_equations. lia.
  - intros Hin Hfit. assert (Hu : u32 (off + n) = off + n) by (apply u32_small; unfold is_u32; lia).
    assert (Hc0 : copied c i pr st nl f k bs lg [] k) by (split; [cbn; rewrite set_mem_same; apply fs_move_refl|done]).
    destruct (readi_loop_ok c i pr st nl (Z.to_nat (Z.of_nat m / BSIZE + 3)) k bs lg ip x L ib ct dst m f (Z.to_nat off) [] k Hc0 Hn Hw Hx Hf) as (k' & E & M' & Hr').
    + done.
    + cbn. lia.
    + lia.
    + unfold BSIZE. Z.to_euclidean_division_equations. lia.
    + cbn [length]. intros _. rewrite Nat.add_0_r. pose proof (Nat.mod_upper_bound (Z.to_nat off) 512 ltac:(done)). unfold BSIZE. Z.to_euclidean_division_equations. lia.
    + exists k'. fold bytes in E, M'. fold mem' in M'. pose proof (fs_move_same_mem _ _ _ M') as Em. cbn in Em. split_and!; try done.
      * rewrite (bind_Ok _ _ k (Z.of_nat m, bytes) k'); [done|]. mstep by (by rewrite Hx). rewrite (proj2 (Z.eqb_neq _ _) F2), F3, Hu.
        rewrite (proj2 (Z.ltb_ge _ _)) by done. rewrite (proj2 (Z.ltb_ge _ _)) by lia. cbn [orb]. cbv zeta.
        replace (if Z.of_nat (length ct) <? off + n then Z.of_nat (length ct) - off else n) with (Z.of_nat m) by (destruct (Z.ltb_spec (Z.of_nat (length ct)) (off + n)); lia).
        cbn [length] in E. rewrite Nat.add_0_r, Z2Nat.id in E by lia. rewrite s32_small in E by (unfold is_s32; lia). exact E.
      * intros t b Hb. rewrite Em. eapply put_at_rd; [exact Hw| |exact Hb]. unfold bytes. rewrite length_take. lia.
      * intros a Ha. rewrite Em. apply put_at_ne. intros j Hj E2. apply (Ha j); [|done]. unfold bytes in Hj. rewrite length_take in Hj. lia.
Qed.

(** C21: readi() on every branch, for a file of bytes [ct] whose blocks are in
    the cache or on the disk. It fails when the offset is past the end or when
    off + n overflows. Otherwise it returns the number of bytes between off and
    the end of the file, at most n; they are at the addresses from dst on, in
    order, across direct and indirect blocks; no other byte of memory, no block
    and no inode has changed. *)
Theorem readi_reads c i pr st nl k bs lg ip x L ib ct dst off n f :
  at_rest c i pr st nl bs k bs lg → (length bs < NBUF)%nat → k.(fs).(inodes) !! ip = Some x →
  file_at k.(fs).(disk).(disksize) lg x L ib ct → is_u32 off → is_u32 n →
  let m := Z.to_nat (Z.min n (Z.of_nat (length ct) - off)) in
  let bytes := take m (drop (Z.to_nat off) ct) in
  let mem' := put_at f 0 bytes k.(mem) in
  window k dst (Z.of_nat m) f →
  (Z.of_nat (length ct) < off ∨ 2 ^ 32 <= off + n → readi ip dst off n k = Ok (-1) k) ∧
  (off <= Z.of_nat (length ct) → off + n < 2 ^ 32 → ∃ k',
     readi ip dst off n k = Ok (Z.of_nat m) k' ∧ fs_move (set_mem mem' k) c k' ∧ at_rest c i pr st nl bs k' bs lg ∧
     (∀ t b, bytes !! t = Some b → rd k'.(mem) (f (Z.of_nat t)) = u8 b) ∧
     (∀ a, (∀ t, 0 <= t < Z.of_nat m → u32 (f t) ≠ u32 a) → rd k'.(mem) a = rd k.(mem) a)).
Proof. apply readi_ok. Qed.

(** ** The files of the image *)

(** The file of argument [t] of mkfs, as the kernel sees it. *)
Lemma built_file s F T t name ps : built s F T → F !! t = Some (name, ps) →
  ∃ L ib, ∀ y, y.(i_dev) = DISKDEV →
    let x := set_i_valid 1 (get_dinode (dino_off (Z.of_nat t + 2)) (s.(sect) (IBLOCK (Z.of_nat t + 2) Mkfs.sb)) y) in
    x.(i_type) = T_FILE ∧ file_at FSSIZE s.(sect) x L ib (concat ps).
Proof.
  intros [B1 B2 B3 B4 B5 B6 B7 B8 B9 B10] Ht.
  assert (∃ g, T !! S t = Some g ∧ g.(Mkfs.f_type) = T_FILE ∧ g.(f_data) = concat ps) as (g & Hg & Hty & Hd).
  { assert (Hl : data_of T !! S t = Some (T_FILE, concat ps)) by (rewrite B1; change (((λ f : list Z * list (list Z), (T_FILE, concat f.2)) <$> F) !! t = Some (T_FILE, concat ps)); by rewrite list_lookup_fmap, Ht).
    unfold data_of in Hl. rewrite list_lookup_fmap in Hl. destruct (T !! S t) as [g|]; [|done]. cbn in Hl. injection Hl as Hty Hd. by exists g. }
  destruct (B6 t g Hg) as [[[M1 M2 M3 M4 M5] R Nd] [] F3 F4 F5 F6].
  exists g.(f_blocks), g.(f_ib). intros y Hy x. assert (Hx : x.(i_type) = T_FILE) by (change (x.(i_type)) with (dino s (Z.of_nat t + 2)).(i_type); by rewrite F3).
  split; [done|]. split.
  - done.
  - by rewrite Hx.
  - rewrite <- Hd. exact F5.
  - by split.
  - intros b Hb. specialize (R b Hb). rewrite nmeta_eq in R. lia.
  - by rewrite <- Hd.
Qed.

(** C22: mkfs and the kernel agree. On a machine whose disk is an image that
    mkfs built, a process that locks the inode of a file, not read before, and
    calls readi() at its beginning gets the number of bytes asked for, or all
    there are; the file that mkfs was given is at the addresses from dst on and
    no other byte of memory has changed. *)
Theorem mkfs_readi c i pr st nl k s F T t name ps jp y dst n f :
  built s F T → F !! t = Some (name, ps) → (length F <= 198)%nat →
  at_rest c i pr st nl [] k [] s.(sect) → k.(fs).(disk).(disksize) = FSSIZE → k.(fs).(sb) = Mkfs.sb →
  k.(fs).(inodes) !! jp = Some y → y.(i_dev) = DISKDEV → y.(i_inum) = Z.of_nat t + 2 → 1 <= y.(i_ref) → y.(i_valid) = 0 →
  (k.(fs).(slocks) (SInode jp)).(sl_locked) = 0 → is_u32 n →
  let m := Z.to_nat (Z.min n (Z.of_nat (length (concat ps)))) in
  window k dst (Z.of_nat m) f →
  ∃ k', (ilock (Some jp);; readi jp dst 0 n) k = Ok (Z.of_nat m) k' ∧
    (∀ j b, (j < m)%nat → concat ps !! j = Some b → rd k'.(mem) (f (Z.of_nat j)) = u8 b) ∧
    (∀ a, (∀ j, 0 <= j < Z.of_nat m → u32 (f j) ≠ u32 a) → rd k'.(mem) a = rd k.(mem) a).
Proof.
  intros Hb Ht HF Hr Hsz Hsb Hy Hdev Hin Href Hval Hsl Hn m Hw. pose proof (lookup_lt_Some _ _ _ Ht) as Hlt.
  destruct (built_file s F T t name ps Hb Ht) as (L & ib & Hfile). destruct (Hfile y Hdev) as [Hty Hfa].
  destruct (IBLOCK_sb (Z.of_nat t + 2) ltac:(lia)) as [_ Rb].
  destruct (ilock_ok c i pr st nl k [] s.(sect) jp y) as (k1 & E1 & Ei1 & _ & _ & Hr1 & Ed1 & S1); rewrite ?Hsb, ?Hin; try done.
  { by rewrite Hty. }
  { rewrite Hsz. unfold FSSIZE. lia. }
  { apply Nat.lt_0_succ. }
  rewrite Hsb, Hin in Ei1. set (x := set_i_valid 1 _) in Ei1, Hty, Hfa.
  destruct (readi_ok c i pr st nl k1 [] s.(sect) jp x L ib (concat ps) dst 0 n f Hr1) as [_ Hread].
  { apply Nat.lt_0_succ. }
  { rewrite Ei1. apply list_lookup_insert_eq. by eapply lookup_lt_Some. }
  { by rewrite Ed1, Hsz. }
  { done. }
  { done. }
  { rewrite Z.sub_0_r. by eapply fs_step_window. }
  rewrite Z.sub_0_r in Hread. fold m in Hread. change (Z.to_nat 0) with 0%nat in Hread. rewrite drop_0 in Hread. unfold is_u32 in Hn.
  destruct Hread as (k2 & E2 & _ & _ & D1 & D2); [lia|lia|]. assert (Em : k1.(mem) = k.(mem)) by (by destruct S1 as (h & qs & -> & _)).
  exists k2. split_and!; [by mstep by exact E1| |by rewrite <- Em].
  intros j b Hj Hjb. apply D1. by rewrite lookup_take_lt.
Qed.

(** ** Examples *)

(** Kernel memory from [va] on. *)
Lemma kernel_window k va n : KERNBASE <= va → 0 <= n → va + n < 2 ^ 32 → window k va n (λ j, va + j).
Proof.
  unfold KERNBASE. intros Hva Hn Hend. split.
  - intros j Hj. rewrite u32_small by (unfold is_u32; lia). unfold xlate. rewrite u32_small by (unfold is_u32; lia).
    by rewrite (proj2 (Z.leb_le _ _)) by (unfold KERNBASE; lia).
  - intros j j' Hj Hj'. rewrite !u32_small by (unfold is_u32; lia). lia.
  - intros j j' Hj Hj'. rewrite u32_small by (unfold is_u32; lia). unfold KERNBASE. lia.
Qed.

(** A disk with a file of one block. *)
Definition demo_text : Z → list Z := <[50 := codes "hello" ++ replicate 507 0]> (λ _, replicate 512 0).
Definition demo_small : inode := mk_inode 1 9 1 1 T_FILE 0 0 1 5 (50 :: replicate 12 0).
Definition demo_reader : kernel := with_inodes (mk_superblock 100 50 64 30 2 32 40) [demo_small] (demo_boot (mk_disk 100 demo_text []) 30).

Lemma demo_text_len b : length (demo_text b) = Z.to_nat BSIZE.
Proof. unfold demo_text. destruct (decide (b = 50)) as [->|]; [by rewrite fn_lookup_insert|by rewrite fn_lookup_insert_ne]. Qed.

Lemma demo_small_file : file_at 100 demo_text demo_small [50] 0 (codes "hello").
Proof.
  split; try done.
  - split; try done; cbn [length]; try lia; intros j Hj. do 12 (destruct j as [|j]; [done|]). lia.
  - intros b Hb. unfold owned in Hb. rewrite decide_False, app_nil_r in Hb by (cbn; lia). apply list_elem_of_singleton in Hb as ->. lia.
  - split_and!; [cbn; lia|cbn; lia|]. intros k Hk. change (length [50]) with 1%nat in Hk. rewrite Nat.mod_small, Nat.div_small by lia. cbn [nth]. unfold demo_text.
    rewrite fn_lookup_insert. destruct (decide (k < 5)%nat) as [Hl|]; [by rewrite app_nth1 by done|]. rewrite app_nth2 by (cbn; lia).
    rewrite (nth_overflow (codes "hello")) by (cbn; lia). rewrite nth_lookup, lookup_replicate_2; [done|]. change (length (codes "hello")) with 5%nat. lia.
Qed.

Lemma readi_reads_witness : ∃ k', readi 0 0x80100000 1 10 demo_reader = Ok 4 k' ∧ rd k'.(mem) 0x80100001 = chr "l".
Proof.
  destruct (demo_boot_ok (mk_disk 100 demo_text []) 30 demo_text_len ltac:(lia) ltac:(cbn; lia)) as [Hr Ed].
  destruct (readi_reads 0 0 demo_pr 2 30 demo_reader [] demo_text 0 demo_small [50] 0 (codes "hello") 0x80100000 1 10 (λ j, 0x80100000 + j)) as [_ H].
  - exact (with_inodes_rest _ _ _ _ _ _ _ _ _ _ _ Hr).
  - apply Nat.lt_0_succ.
  - reflexivity.
  - unfold demo_reader. rewrite with_inodes_disk, Ed. exact demo_small_file.
  - unfold is_u32. lia.
  - unfold is_u32. lia.
  - apply kernel_window; unfold KERNBASE; cbn; lia.
  - destruct H as (k' & E & _ & _ & D & _); [cbn; lia|lia|]. exists k'. split; [exact E|]. exact (D 1%nat (chr "l") eq_refl).
Defined.

(** The machine started on the image [s]. *)
Definition on_image (s : image) (l : list inode) : kernel := with_inodes Mkfs.sb l (demo_boot (mk_disk FSSIZE s.(sect) []) 30).

Lemma mkfs_readi_witness : ∃ s k',
  mkfs_main [(codes "_sh", Some [[1; 2; 3]; [4]]); (codes "README", Some [])] (mk_image (λ _, zeroes) 0 1 0) = URet tt s ∧
  (ilock (Some 0%nat);; readi 0 0x80100000 0 10) (on_image s [mk_inode 1 2 1 0 0 0 0 0 0 (replicate 13 0)]) = Ok 4 k' ∧ rd k'.(mem) 0x80100002 = 3.
Proof.
  destruct (mkfs_image [(codes "_sh", [[1; 2; 3]; [4]]); (codes "README", [])] (mk_image (λ _, zeroes) 0 1 0)) as (s & T & E & Hb).
  - split_and!; reflexivity.
  - cbn. lia.
  - apply Forall_cons. split; [split; [reflexivity|cbn [fst snd concat app length]; lia]|].
    apply Forall_cons. split; [split; [reflexivity|cbn [fst snd concat app length]; lia]|]. by apply Forall_nil.
  - by vm_compute.
  - destruct (demo_boot_ok (mk_disk FSSIZE s.(sect) []) 30 (bu_len _ _ _ Hb) ltac:(lia) ltac:(cbn; unfold FSSIZE; lia)) as [Hr Ed].
    destruct (mkfs_readi 0 0 demo_pr 2 30 (on_image s [mk_inode 1 2 1 0 0 0 0 0 0 (replicate 13 0)]) s _ T 0 (codes "_sh") [[1; 2; 3]; [4]] 0
      (mk_inode 1 2 1 0 0 0 0 0 0 (replicate 13 0)) 0x80100000 10 (λ j, 0x80100000 + j) Hb) as (k' & E' & D & _).
    + reflexivity.
    + cbn. lia.
    + exact (with_inodes_rest _ _ _ _ _ _ _ _ _ _ _ Hr).
    + unfold on_image. rewrite with_inodes_disk, Ed. reflexivity.
    + reflexivity.
    + reflexivity.
    + reflexivity.
    + reflexivity.
    + cbn. lia.
    + reflexivity.
    + reflexivity.
    + unfold is_u32. lia.
    + apply kernel_window; unfold KERNBASE; cbn; lia.
    + exists s, k'. split; [exact E|]. split; [exact E'|]. exact (D 2%nat 3 ltac:(cbn; lia) eq_refl).
Defined.
