(* ===== verification/Ktests.v ===== *)
(** * The tests on the kernel

    A process that makes system calls, on the model of the kernel started on an
    image that mkfs built: a world for the user programs whose system calls are
    trap() with the trap frame of an int $T_SYSCALL. The arguments are in the
    process's memory, which four pages of a page table map. The calls that take
    no other process are there; the others stop the run. *)
From S2P Require Import Prelude.
From S2P Require Import Ulib.
From S2P Require Import Sh.
From S2P Require Import Uproc.
From S2P Require Import Usertests.
From S2P Require Import Mkfs.
From S2P Require Import Cprintf.
From S2P Require Import Kernel.
From S2P Require Import Memory.
From S2P Require Import Sched.
From S2P Require Import SchedProps.
From S2P Require Import Log.
From S2P Require Import LogProps.
From S2P Require Import InodeProps.
From S2P Require Import FsProps.
From S2P Require Import Proc.
From S2P Require Import Trap.

(** ** The process's memory *)

(** Where the process keeps the strings, the data and its stack, and the
    kernel's address of its pages. *)
Definition UPATH : Z := 0x100.
Definition UPATH2 : Z := 0x200.
Definition UBUF : Z := 0x1000.
Definition UESP : Z := 0x3f00.
Definition USZ : Z := 0x4000.
Definition UPAGES : Z := 0x80400000.

Fixpoint stored (data : list (Z * list Z)) (a : Z) : Z :=
  match data with
  | [] => 0
  | (d, l) :: data' => if (d <=? a) && (a <? d + Z.of_nat (length l)) then nth (Z.to_nat (a - d)) l 0 else stored data' a
  end.

(** The process has stored [data], and the arguments on its stack. *)
Definition user_stores (args : list Z) (data : list (Z * list Z)) (m : Z → Z) : Z → Z :=
  let data := (UESP + 4, concat (word_bytes ∘ u32 <$> args)) :: data in
  λ a, if a <? UPAGES then m a else if a <? UPAGES + USZ then stored data (a - UPAGES) else m a.

Fixpoint user_load (a : Z) (n : nat) : K (list Z) :=
  match n with
  | O => mret []
  | S n' => b ← ldb a; l ← user_load (a + 1) n'; mret (b :: l)
  end.

(** ** System calls *)

Definition user_tf (num : Z) : trapframe := set_tf_trapno T_SYSCALL (set_tf_eax num (set_tf_esp UESP init_tf)).

Definition ucall (num : Z) (args : list Z) (data : list (Z * list Z)) : K Z :=
  modify (λ k, set_mem (user_stores args data k.(mem)) k);;
  trap 10 (λ _, []) 0 (mret tt) (user_tf num);;
  p ← proc_get 0;
  mret (s32 p.(tf).(tf_eax)).

(** A state holds functions, and every change of one of them is a new function
    that asks the old one. Between two calls [settle] rebuilds them from their
    values; the state is the same, which [settle_id] proves. *)
Definition slid_table {A} (f : slid → A) : slid → A :=
  let b := (λ n, f (SBuf n)) <$> seq 0 NBUF in
  let i := (λ n, f (SInode n)) <$> seq 0 NINODE in
  λ s, match s with
       | SBuf n => match b !! n with Some v => v | None => f s end
       | SInode n => match i !! n with Some v => v | None => f s end
       end.

Definition lock_table (f : lockid → spinlock) : lockid → spinlock :=
  let a1 := f LPtable in let a2 := f LTicks in let a3 := f LKmem in let a4 := f LFtable in let a5 := f LCons in
  let a6 := f LBcache in let a7 := f LIcache in let a8 := f LLog in let a9 := f LIde in
  let s := slid_table (λ x, f (LSleep x)) in
  λ l, match l with
       | LPtable => a1 | LTicks => a2 | LKmem => a3 | LFtable => a4 | LCons => a5
       | LBcache => a6 | LIcache => a7 | LLog => a8 | LIde => a9
       | LPipe _ => f l
       | LSleep x => s x
       end.

(** [n] bytes from [a] on. *)
Definition mem_table (a : Z) (n : nat) (f : Z → Z) : Z → Z :=
  let t := (λ j, f (a + Z.of_nat j)) <$> seq 0 n in
  λ x, if (a <=? x) then match t !! Z.to_nat (x - a) with Some v => v | None => f x end else f x.

Definition settle (k : kernel) : kernel :=
  let h := k.(hw) in
  let e := h.(eflags_if) 0 in
  set_mem (mem_table 0x80300000 4 (mem_table 0x80301000 16 k.(mem)))
    (set_hw (set_locks (lock_table h.(locks)) (set_eflags_if (λ i, if i =? 0 then e else h.(eflags_if) i) h))
      (set_fs (set_slocks (slid_table k.(fs).(slocks)) k.(fs)) k)).

Lemma slid_table_id {A} (f : slid → A) : slid_table f = f.
Proof.
  apply functional_extensionality. intros [n|n]; unfold slid_table; rewrite list_lookup_fmap;
    (destruct (_ !! n) as [m|] eqn:E; [|done]); cbn [fmap option_fmap option_map]; by apply lookup_seq in E as [-> _].
Qed.

Lemma lock_table_id f : lock_table f = f.
Proof. apply functional_extensionality. intros []; cbn; try done. by rewrite slid_table_id. Qed.

Lemma mem_table_id a n f : mem_table a n f = f.
Proof.
  apply functional_extensionality. intros x. unfold mem_table. destruct (Z.leb_spec a x); [|done]. rewrite list_lookup_fmap.
  destruct (_ !! _) as [m|] eqn:E; [|done]. apply lookup_seq in E as [-> _]. cbn. f_equal. lia.
Qed.

Lemma settle_id k : settle k = k.
Proof.
  unfold settle. rewrite !mem_table_id, lock_table_id, slid_table_id.
  assert (E : (λ i, if i =? 0 then k.(hw).(eflags_if) 0 else k.(hw).(eflags_if) i) = k.(hw).(eflags_if)).
  { apply functional_extensionality. intros i. by destruct (Z.eqb_spec i 0) as [->|]. }
  rewrite E. by destruct k as [[] ? ? ? ? ? ? ? ? ? ? ? []].
Qed.

(** The kernel, how it stopped, and the program's buf[]. *)
Record kworld : Type := mk_kworld { kw_kern : kernel; kw_fault : option fault; kw_buf : list Z }.

Definition krun {A} (d : A) (m : K A) (w : kworld) : A * kworld :=
  match w.(kw_fault) with
  | Some _ => (d, w)
  | None =>
      match m w.(kw_kern) with
      | Ok a k => (a, mk_kworld (settle k) None w.(kw_buf))
      | Err e k => (d, mk_kworld k (Some e) w.(kw_buf))
      | Swtch k => (d, mk_kworld k (Some Hang) w.(kw_buf))
      end
  end.
Definition stopped {A} (d : A) (w : kworld) : A * kworld := krun d (fail Hang) w.

#[export] Instance kworld_sys : Sys kworld := {
  Ulib.sys_open := λ p m, krun (-1) (ucall 15 [UPATH; m] [(UPATH, p ++ [0])]);
  Ulib.sys_close := λ fd, krun (-1) (ucall 21 [fd] []);
  Ulib.sys_read := λ fd n, krun (-1, []) (r ← ucall 5 [fd; UBUF; n] []; l ← user_load UBUF (Z.to_nat r); mret (r, l));
  Ulib.sys_write := λ fd b, krun (-1) (ucall 16 [fd; UBUF; Z.of_nat (length b)] [(UBUF, b)]);
  Ulib.sys_fstat := λ fd, stopped (-1, mk_stat 0 0 0 0 0);
  Ulib.sys_link := λ p q, krun (-1) (ucall 19 [UPATH; UPATH2] [(UPATH, p ++ [0]); (UPATH2, q ++ [0])]);
  Ulib.sys_unlink := λ p, krun (-1) (ucall 18 [UPATH] [(UPATH, p ++ [0])]);
  Ulib.sys_mkdir := λ p, krun (-1) (ucall 20 [UPATH] [(UPATH, p ++ [0])]);
  Ulib.sys_kill := λ _, stopped (-1);
}.

#[export] Instance kworld_shsys : ShSys kworld := {
  Sh.sys_fork := stopped (-1);
  Sh.sys_wait := stopped (-1);
  Sh.sys_exec := λ _ _, stopped false;
  Sh.sys_pipe := stopped (-1, (0, 0));
  Sh.sys_dup := λ fd, krun (-1) (ucall 10 [fd] []);
  Sh.sys_chdir := λ p, krun (-1) (ucall 9 [UPATH] [(UPATH, p ++ [0])]);
  Sh.user_malloc := λ _, stopped 0;
}.

#[export] Instance kworld_procsys : ProcSys kworld := {
  Uproc.sys_mknod := λ p a b, krun (-1) (ucall 17 [UPATH; a; b] [(UPATH, p ++ [0])]);
  Uproc.sys_sleep := λ _, stopped (-1);
  Uproc.sys_getpid := krun (-1) (ucall 11 [] []);
  Uproc.sys_setpriority := λ _, stopped (-1);
  Uproc.sys_getpriority := stopped (-1);
}.

#[export] Instance kworld_testsys : TestSys kworld := {
  prog_buf := kw_buf;
  set_prog_buf := λ b w, mk_kworld w.(kw_kern) w.(kw_fault) b;
  prog_uninit := λ _, [];
  Usertests.sys_sbrk := λ _, stopped (-1);
  load_byte := λ _, stopped None;
  store_byte := λ _ _, stopped false;
  user_free := λ _ w, w;
  bare_sleep := λ _, stopped (-1);
  link_ptr := λ _ _, stopped (-1);
  read_ptr := λ _ _ _, stopped (-1);
  port_out := λ _ _, stopped false;
  port_in := λ _, stopped None;
}.

(** ** The machine *)

(** A page directory and a page table for the four pages. *)
Definition user_table : Z → Z :=
  stored [(0x80300000, word_bytes 0x301007); (0x80301000, concat (word_bytes <$> [0x400007; 0x401007; 0x402007; 0x403007]))].

(** The root directory, not read yet. *)
Definition root_inode : inode := mk_inode 1 1 1 0 0 0 0 0 0 (replicate 13 0).

(** The kernel on the image [s], with one process in the root directory. *)
Definition kstart (s : image) : kworld :=
  let k := on_image s (root_inode :: replicate 49 zero_inode) in
  mk_kworld (set_mem user_table (set_hw (set_cr3 (λ _, 0x300000) k.(hw))
    (set_pt (set_procs (alter (λ p, set_sz USZ (set_cwd (Some 0%nat) p)) 0%nat k.(pt).(procs)) k.(pt)) k))) None (replicate (16 * 512) 0).

(** mkfs with two of the files of the Makefile, the second empty. *)
Definition ktest_files : list (list Z * option (list (list Z))) := [(codes "_echo", Some [[1; 2; 3]; [4]]); (codes "README", Some [])].

Definition ktests : U kworld unit :=
  init_console;;
  iputtest;;
  opentest;;
  dirtest;;
  rmdot;;
  fourteen;;
  linktest;;
  unlinkread;;
  dirfile;;
  subdir.

(** Two runs, the second from what the first leaves, and what is seen of its end. *)
Definition run_then {S W A} (m : ures S unit) (f : S → ures W unit) (g : W → A) : option A :=
  match m with
  | URet _ s => match f s with URet _ w => Some (g w) | _ => None end
  | _ => None
  end.

Lemma run_then_inv {S W A} (m : ures S unit) (f : S → ures W unit) (g : W → A) o :
  run_then m f g = Some o → ∃ s w, m = URet tt s ∧ f s = URet tt w ∧ g w = o.
Proof.
  unfold run_then. destruct m as [[] s| | |]; try discriminate.
  destruct (f s) as [[] w| | |] eqn:E; try discriminate. intros [= <-]. by exists s, w.
Qed.

(** How the kernel stopped, and what it sent to the serial port. *)
Definition seen (w : kworld) : option fault * list Z := (w.(kw_fault), w.(kw_kern).(cons).(uart_out)).

(** The lines of the tests. *)
Definition ktests_lines : list string :=
  ["iput test"; "iput test ok"; "open test"; "open test ok"; "mkdir test"; "mkdir test ok"; "rmdot test"; "rmdot ok";
   "fourteen test"; "fourteen ok"; "linktest"; "linktest ok"; "unlinkread test"; "unlinkread ok";
   "dir vs file"; "dir vs file OK"; "subdir test"; "subdir ok"]%string.

Definition ktests_seen : option fault * list Z := (None, concat ((λ l, codes (l +:+ nl)) <$> ktests_lines)).

Lemma ktests_run_ok :
  run_then (mkfs_main ktest_files (mk_image (λ _, zeroes) 0 1 0)) (λ s, ktests (kstart s)) seen = Some ktests_seen.
Proof. vm_compute. reflexivity. Qed.

