(* ===== verification/FsWrite.v ===== *)
(** * fs.c: writing files

    bmap() when it has to allocate, and writei(), by one process inside a
    transaction. The file grows by blocks that the bitmap does not mark; its
    old blocks, the other blocks in use and the other inodes are left alone. *)
From S2P Require Import Prelude.
From S2P Require Import Cprintf.
From S2P Require Import Ulib.
From S2P Require Import Mkfs.
From S2P Require Import Kernel.
From S2P Require Import Spinlock.
From S2P Require Import Memory.
From S2P Require Import Sched.
From S2P Require Import SchedProps.
From S2P Require Import Sleeplock.
From S2P Require Import Bio.
From S2P Require Import BioProps.
From S2P Require Import Log.
From S2P Require Import LogProps.
From S2P Require Import Inode.
From S2P Require Import InodeProps.
From S2P Require Import Console.
From S2P Require Import Fs.
From S2P Require Import FsProps.

(** ** Free blocks *)

(** At least [n] blocks are not marked. *)
Definition has_free (s : superblock) (lg : Z → list Z) (n : nat) : Prop :=
  ∃ l, NoDup l ∧ length l = n ∧ ∀ b, b ∈ l → 0 <= b < s.(sb_size) ∧ in_use s lg b = false.

Lemma first_free s lg n : has_free s lg (S n) →
  ∃ f, 0 <= f < s.(sb_size) ∧ in_use s lg f = false ∧ ∀ b, 0 <= b < f → in_use s lg b = true.
Proof.
  intros (l & _ & Hl & Hf). destruct l as [|b l]; [done|]. destruct (Hf b ltac:(by left)) as [Hb Hu]. clear l Hl Hf.
  assert (H : ∀ m, (Z.to_nat b < m)%nat → ∃ f, 0 <= f <= b ∧ in_use s lg f = false ∧ ∀ b, 0 <= b < f → in_use s lg b = true).
  { intros _ _. revert Hb Hu. induction (Z.to_nat b) as [j IH] eqn:Ej using (well_founded_induction_type lt_wf) in b |- *.
    intros Hb Hu. destruct (decide (Exists (λ t, in_use s lg (Z.of_nat t) = false) (seq 0 j))) as [He|Hn].
    - apply Exists_exists in He as (t & Ht & Hut). apply elem_of_seq in Ht.
      destruct (IH t ltac:(lia) (Z.of_nat t) ltac:(by rewrite Nat2Z.id) ltac:(lia) Hut) as (f & Hf & ?). exists f. split; [lia|done].
    - exists b. split_and!; [lia|lia|done|]. intros b' Hb'. destruct (in_use s lg b') eqn:E; [done|]. exfalso. apply Hn, Exists_exists.
      exists (Z.to_nat b'). split; [apply elem_of_seq; lia|]. by rewrite Z2Nat.id by lia. }
  destruct (H (S (Z.to_nat b)) ltac:(lia)) as (f & Hf & H1 & H2). exists f. split; [lia|done].
Qed.

Lemma has_free_take s lg lg' n f : has_free s lg (S n) →
  (∀ b, 0 <= b < s.(sb_size) → in_use s lg' b = if bool_decide (b = f) then true else in_use s lg b) → has_free s lg' n.
Proof.
  intros (l & Hnd & Hl & Hf) Hu. destruct (decide (f ∈ l)) as [Hin|Hout].
  - apply list_elem_of_split in Hin as (l1 & l2 & ->). exists (l1 ++ l2). apply NoDup_app in Hnd as (N1 & N2 & N3). apply NoDup_cons in N3 as [N3 N4].
    split_and!.
    + apply NoDup_app. split_and!; [done| |done]. intros b Hb Hb2. apply (N2 b Hb). by right.
    + rewrite length_app in Hl |- *. cbn in Hl. lia.
    + intros b Hb. destruct (Hf b) as [H1 H2]; [apply elem_of_app in Hb as [?|?]; apply elem_of_app; [by left|right; by right]|].
      split; [done|]. rewrite Hu, bool_decide_false; [done| |done]. intros ->. apply elem_of_app in Hb as [Hb|Hb]; [|done]. apply (N2 f Hb). by left.
  - destruct l as [|b l]; [done|]. exists l. apply NoDup_cons in Hnd as [_ Hnd]. cbn in Hl. split_and!; [done|lia|].
    intros b' Hb'. destruct (Hf b') as [H1 H2]; [by right|]. split; [done|]. rewrite Hu, bool_decide_false; [done| |done]. intros ->. apply Hout. by right.
Qed.

Lemma has_free_le s lg n m : (m <= n)%nat → has_free s lg n → has_free s lg m.
Proof.
  intros Hm (l & Hnd & Hl & Hf). exists (take m l). split_and!.
  - rewrite <- (take_drop m l) in Hnd. by apply NoDup_app in Hnd as (? & _).
  - rewrite length_take. lia.
  - intros b Hb. apply Hf. rewrite <- (take_drop m l). apply elem_of_app. by left.
Qed.

(** The bitmap stays as it has to be when blocks get marked. *)
Lemma map_ok_mono s st nl size lg lg' : map_ok s st nl size lg →
  (∀ b, 0 <= b < s.(sb_size) → in_use s lg b = true → in_use s lg' b = true) → map_ok s st nl size lg'.
Proof.
  intros [M1 M2 M3] Hu. split; [done|done|]. intros b Hb Hf. apply M3; [done|]. destruct (in_use s lg b) eqn:E; [|done].
  rewrite (Hu b Hb E) in Hf. done.
Qed.

(** ** balloc() *)

(** What a call leaves of the rest of the kernel. *)
Record ran (c : nat) (k k' : kernel) : Prop := {
  rn_step : fs_step c k k'.(fs) k';
  rn_sb : k'.(fs).(sb) = k.(fs).(sb);
  rn_slocks : ∀ n, k'.(fs).(slocks) (SInode n) = k.(fs).(slocks) (SInode n);
  rn_disk : k'.(fs).(disk) = k.(fs).(disk);
  rn_open : k'.(fs).(log).(lg_outstanding) = k.(fs).(log).(lg_outstanding);
}.

Lemma ran_refl c k : ran c k k.
Proof. split; try done. apply (fm_step _ _ _ (fs_move_refl k c)). Qed.

Lemma ran_trans c k k1 k2 : ran c k k1 → ran c k1 k2 → ran c k k2.
Proof. intros [S1 A1 B1 C1 D1] [S2 A2 B2 C2 D2]. split; [by eapply fs_step_trans|congruence|intros n; by rewrite B2, B1|congruence|congruence]. Qed.

Lemma move_ran c k k' : fs_move k c k' → k'.(fs).(disk) = k.(fs).(disk) → ran c k k'.
Proof. intros [S (R1 & R2 & R3 & R4) D] E. split; try done. by rewrite R2. Qed.

Lemma run_ran c k k' : fs_run k c k' → k'.(fs).(disk) = k.(fs).(disk) → k'.(fs).(log).(lg_outstanding) = k.(fs).(log).(lg_outstanding) → ran c k k'.
Proof. intros [S R1 R2 R3 D] E Ho. by split. Qed.

Section writing.
  Context (c i : nat) (pr : proc) (st nl : Z).

(** What is asked of the state: an open operation and a bitmap in order, with
    the boot block and the buffers that are held in use. *)
Record ready (H bs : list Z) (k : kernel) (lg : Z → list Z) : Prop := {
  rd_work : at_work c i pr st nl H bs k lg;
  rd_map : map_ok k.(fs).(sb) st nl k.(fs).(disk).(disksize) lg;
  rd_boot : in_use k.(fs).(sb) lg 0 = true;
  rd_open : 1 <= k.(fs).(log).(lg_outstanding);
}.

(** A block that was free, with what is known of it. *)
Record fresh (s : superblock) (size : Z) (lg : Z → list Z) (f : Z) : Prop := {
  fr_range : 0 < f < s.(sb_size);
  fr_disk : f < size;
  fr_home : home st nl f;
  fr_map : ∀ b, 0 <= b < s.(sb_size) → f ≠ BBLOCK b s;
  fr_free : in_use s lg f = false;
}.

Lemma balloc_work H bs k lg n :
  let s := k.(fs).(sb) in
  ready H bs k lg → (∀ b, 0 <= b < s.(sb_size) → BBLOCK b s ∉ H) → (∀ b, b ∈ H → in_use s lg b = true) →
  (length H + S (length bs) < NBUF)%nat → Z.of_nat (S (length bs)) < nl - 1 → has_free s lg (S n) →
  ∃ f k', balloc DISKDEV k = Ok f k' ∧ fresh s k.(fs).(disk).(disksize) lg f ∧ ran c k k' ∧ k'.(fs).(inodes) = k.(fs).(inodes) ∧
    ready H (taken_blocks s f bs) k' (taken s f lg) ∧ stay H k k' ∧ has_free s (taken s f lg) n ∧
    (∀ b, 0 <= b < s.(sb_size) → in_use s (taken s f lg) b = if bool_decide (b = f) then true else in_use s lg b).
Proof using.
  intros s [Hw Hm Hboot Ho] HbH HuH Hn1 Hn2 Hfree. pose proof Hm as [Hsz Hmaps Hfr]. fold s in Hsz, Hmaps, Hfr.
  destruct (first_free s lg n Hfree) as (f & Hf & Hu & Hall). destruct (Hfr f Hf Hu) as (F1 & F2 & F3).
  assert (HfH : f ∉ H) by (intros Hin; rewrite (HuH f Hin) in Hu; done).
  assert (Hf0 : f ≠ 0) by (intros ->; fold s in Hboot; congruence).
  destruct (balloc_loop c i pr st nl H (Z.to_nat (s.(sb_size) / BPB + 2)) k bs lg 0 f) as (k' & E & R & Ed & Hw' & Hlo & _ & St); try done.
  { assert (HB : 0 < BPB) by done. pose proof (Z.div_le_mono f s.(sb_size) BPB HB ltac:(lia)). pose proof (Z.div_pos f BPB). lia. }
  assert (Hlen : ∀ b, length (lg b) = Z.to_nat BSIZE) by apply (co_size _ _ _ _ _ (aw_cache _ _ _ _ _ _ _ _ _ Hw)).
  assert (Huse : ∀ b, 0 <= b < s.(sb_size) → in_use s (taken s f lg) b = if bool_decide (b = f) then true else in_use s lg b).
  { intros b Hb. rewrite <- (marked s lg f b) by (lia || done). unfold taken. unfold in_use at 1. rewrite fn_lookup_insert_ne; [done|]. by apply F3. }
  exists f, k'. split_and!; [unfold balloc; mstep; exact E|split; done || lia|by apply run_ran|apply R| |done|by eapply has_free_take|done].
  split.
  - done.
  - rewrite Ed, (fr_sb _ _ _ R). eapply map_ok_mono; [exact Hm|]. intros b Hb Hub. fold s. rewrite Huse by done. by case_bool_decide.
  - rewrite (fr_sb _ _ _ R). fold s. rewrite Huse by lia. by case_bool_decide.
  - lia.
Qed.

(** ** bmap() *)

Lemma ready_inodes H bs k lg l : ready H bs k lg → ready H bs (set_fs (set_inodes l k.(fs)) k) lg.
Proof using.
  intros [[He Hc Hl Ht] Hm Hb Ho]. split; try done. split; try done.
  - eapply env_step; [exact He|]. apply fs_step_here.
  - by apply (cache_ok_frame k.(fs)).
Qed.

(** Giving entry [j] of the inode a block. *)
Lemma addr_alloc_new bs k lg ip x j n :
  let s := k.(fs).(sb) in
  ready [] bs k lg → k.(fs).(inodes) !! ip = Some x → x.(i_dev) = DISKDEV → length x.(i_addrs) = 13%nat → (j < 13)%nat → nth j x.(i_addrs) 0 = 0 →
  (S (length bs) < NBUF)%nat → Z.of_nat (S (length bs)) < nl - 1 → has_free s lg (S n) →
  ∃ f k', addr_alloc ip (Z.of_nat j) k = Ok f k' ∧ fresh s k.(fs).(disk).(disksize) lg f ∧ ran c k k' ∧
    k'.(fs).(inodes) = <[ip := set_i_addrs (<[j := f]> x.(i_addrs)) x]> k.(fs).(inodes) ∧
    ready [] (taken_blocks s f bs) k' (taken s f lg) ∧ has_free s (taken s f lg) n ∧
    (∀ b, 0 <= b < s.(sb_size) → in_use s (taken s f lg) b = if bool_decide (b = f) then true else in_use s lg b).
Proof using.
  intros s Hr Hx Hd Hl Hj H0 Hn1 Hn2 Hfree.
  destruct (balloc_work [] bs k lg n Hr) as (f & k1 & E1 & F1 & R1 & I1 & Hr1 & _ & Hf1 & Hu1);
    [intros; apply not_elem_of_nil|by intros b ?%elem_of_nil|cbn; lia|done|done|].
  set (k2 := set_fs (alter_ino ip (λ x, set_i_addrs (<[j := f]> x.(i_addrs)) x) k1.(fs)) k1).
  assert (Ei : k2.(fs).(inodes) = <[ip := set_i_addrs (<[j := f]> x.(i_addrs)) x]> k.(fs).(inodes)).
  { cbn. rewrite I1. apply list_eq. intros m. destruct (decide (m = ip)) as [->|Hm].
    - rewrite list_lookup_alter_eq, Hx, list_lookup_insert_eq; [done|by eapply lookup_lt_Some].
    - by rewrite list_lookup_alter_ne, list_lookup_insert_ne. }
  exists f, k2. split_and!; try done.
  - unfold addr_alloc. mstep by (by eapply addr_get_ok). rewrite Z.eqb_refl. unfold ino_get. mstep by (by rewrite Hx). rewrite Hd.
    mstep by exact E1. unfold addr_set. rewrite Nat2Z.id. by mstep.
  - eapply ran_trans; [exact R1|]. split; try done. apply fs_step_here.
  - apply (ready_inodes [] _ k1), Hr1.
Qed.

(** Giving entry [j] of the indirect block [ib] a block. *)
Lemma indirect_add bs k lg ip x ib j n :
  let s := k.(fs).(sb) in
  ready [] bs k lg → k.(fs).(inodes) !! ip = Some x → x.(i_dev) = DISKDEV → (j < 128)%nat →
  0 <= ib < k.(fs).(disk).(disksize) → ib < s.(sb_size) → home st nl ib → in_use s lg ib = true → (∀ b, 0 <= b < s.(sb_size) → ib ≠ BBLOCK b s) →
  word_at (lg ib) (4 * Z.of_nat j) = 0 →
  (length bs + 3 < NBUF)%nat → Z.of_nat (length bs + 3) < nl - 1 → has_free s lg (S n) →
  ∃ f k' bs', (bp ← bread x.(i_dev) ib;
      d ← buf_data bp;
      let addr := word_at d (4 * Z.of_nat j) in
      addr ← (if addr =? 0 then
          x ← ino_get ip;
          addr ← balloc x.(i_dev);
          buf_upd bp (λ b, set_b_data (put_word (4 * Z.of_nat j) addr b.(b_data)) b);;
          log_write bp;;
          mret addr
        else mret addr);
      brelse bp;;
      mret addr) k = Ok f k' ∧ fresh s k.(fs).(disk).(disksize) lg f ∧ ran c k k' ∧ k'.(fs).(inodes) = k.(fs).(inodes) ∧
    (length bs' <= length bs + 3)%nat ∧ ready [] bs' k' (<[ib := put_word (4 * Z.of_nat j) f (lg ib)]> (taken s f lg)) ∧
    has_free s (<[ib := put_word (4 * Z.of_nat j) f (lg ib)]> (taken s f lg)) n ∧
    (∀ b, 0 <= b < s.(sb_size) → in_use s (<[ib := put_word (4 * Z.of_nat j) f (lg ib)]> (taken s f lg)) b = if bool_decide (b = f) then true else in_use s lg b).
Proof using.
  intros s Hr Hx Hd Hj Hib Hibs Hibh Hibu Hibm Hw0 Hn1 Hn2 Hfree. pose proof Hr as [Hwork Hm Hboot Ho]. pose proof Hwork as [He Hc Hl Ht].
  destruct (bread_ok k c i pr [] bs lg ib) as (m & k1 & E1 & G1); [done|done|done|apply not_elem_of_nil|left; apply work_room; cbn; lia|].
  pose proof (got_move _ _ _ _ _ _ _ _ _ G1) as M1. pose proof (gt_rest _ _ _ _ _ _ _ _ _ G1) as (Ei1 & El1 & Es1 & _). pose proof (gt_disk _ _ _ _ _ _ _ _ _ G1) as Ed1.
  assert (Hr1 : ready [ib] bs k1 lg).
  { split; [split; [by eapply env_move|apply G1|by rewrite El1|by rewrite Ed1]|by rewrite Es1, Ed1|by rewrite Es1|by rewrite El1]. }
  destruct (balloc_work [ib] bs k1 lg n Hr1) as (f & k2 & E2 & F2 & R2 & I2 & Hr2 & St2 & Hf2 & Hu2); rewrite ?Es1; fold s.
  { intros b Hb Hin%list_elem_of_singleton. by apply (Hibm b Hb). }
  { by intros b ->%list_elem_of_singleton. }
  { cbn. lia. }
  { lia. }
  { done. }
  rewrite Es1, Ed1 in *. fold s in F2, Hr2, Hf2, Hu2. set (bs2 := taken_blocks s f bs) in *. set (lg2 := taken s f lg) in *.
  assert (Hne : ib ≠ f) by (intros ->; rewrite (fr_free _ _ _ _ F2) in Hibu; done).
  assert (Elg : lg2 ib = lg ib) by (unfold lg2, taken; rewrite !fn_lookup_insert_ne; [done|apply not_eq_sym, Hibm; pose proof (fr_range _ _ _ _ F2); lia|done]).
  assert (Hb2 : (length bs2 <= length bs + 2)%nat).
  { unfold bs2, taken_blocks. pose proof (length_with_block (BBLOCK f s) bs). pose proof (length_with_block f (with_block (BBLOCK f s) bs)). lia. }
  pose proof Hr2 as [[He2 Hc2 Hl2 Ht2] Hm2 Hboot2 Ho2]. assert (Hat2 : buf_at k2.(fs) m ib) by (apply St2; [by left|apply G1]).
  assert (Hlen : ∀ b, length (lg b) = Z.to_nat BSIZE) by apply (co_size _ _ _ _ _ Hc).
  destruct (buf_set_ok k2 c m ib pr.(pid) [ib] bs2 lg2 (put_word (4 * Z.of_nat j) f)) as (k3 & E3 & K3 & Hc3 & Ed3);
    [done|by left|done|rewrite length_put_word, Elg; apply Hlen|]. rewrite Elg in Hc3. set (lg3 := <[ib := _]> lg2) in *.
  pose proof (kept_move _ _ _ K3) as M3. pose proof (move_log _ _ _ M3) as El3.
  destruct (log_write_ok k3 c i pr m ib [ib] st nl bs2 lg3) as (k4 & l4 & E4 & El4 & R4 & A4 & Hc4 & Ed4 & Hl4 & Ht4 & Ho4 & _);
    [by eapply env_move|done|by left|by apply (kp_at _ _ _ K3)|by rewrite El3|by rewrite Ed3|done|by rewrite El3|change LOGSIZE with 30; unfold NBUF in Hn1; lia|lia|].
  destruct (brelse_ok k4 c i pr m ib [] (with_block ib bs2) lg3) as (k5 & E5 & K5 & Hc5 & Ed5);
    [eapply env_step; [eapply env_move; [exact He2|exact M3]|apply R4]|done|apply not_elem_of_nil|by apply A4, (kp_at _ _ _ K3)|left; apply elem_of_with_block; by left|].
  assert (R : ran c k k5).
  { eapply ran_trans; [by apply (move_ran c k k1)|]. eapply ran_trans; [exact R2|]. eapply ran_trans; [by apply (move_ran c k2 k3)|].
    eapply ran_trans; [apply (run_ran c k3 k4); [done|done|by rewrite El4]|]. apply (move_ran c k4 k5); [by apply kept_move|done]. }
  assert (Ei5 : k5.(fs).(inodes) = k.(fs).(inodes)).
  { destruct (kp_rest _ _ _ K5) as (-> & _). rewrite (fr_inodes _ _ _ R4). destruct (kp_rest _ _ _ K3) as (-> & _). by rewrite I2. }
  assert (Hu3 : ∀ b, 0 <= b < s.(sb_size) → in_use s lg3 b = if bool_decide (b = f) then true else in_use s lg b).
  { intros b Hb. rewrite <- Hu2 by done. unfold in_use, lg3. by rewrite fn_lookup_insert_ne by (apply Hibm; done). }
  exists f, k5, (with_block ib bs2). split_and!; try done.
  - rewrite Hd. mstep by exact E1. mstep by (unfold buf_data; apply (buf_data_ok k1 m ib pr.(pid) [ib] bs lg); [apply G1|by left|apply G1]).
    cbv zeta. rewrite Hw0, Z.eqb_refl. erewrite bind_Ok; [|unfold ino_get; mstep by (by rewrite Ei1, Hx); rewrite Hd; mstep by exact E2; mstep by exact E3; by mstep by exact E4].
    by mstep by exact E5.
  - pose proof (length_with_block ib bs2). lia.
  - pose proof (move_log _ _ _ (kept_move _ _ _ K5)) as El5. destruct R as [_ Rs _ Rd Ro]. split.
    + split; [|done|by rewrite El5, El4|by rewrite Rd; rewrite Ed3, (rn_disk _ _ _ R2), Ed1 in Ht4].
      eapply env_move; [|by apply kept_move]. eapply env_step; [eapply env_move; [exact He2|exact M3]|apply R4].
    + rewrite Rs, Rd. eapply map_ok_mono; [exact Hm|]. intros b Hb Hub. fold s. rewrite Hu3 by done. by case_bool_decide.
    + rewrite Rs. fold s. rewrite Hu3 by (pose proof (fr_range _ _ _ _ F2); lia). by case_bool_decide.
    + by rewrite Ro.
  - destruct Hf2 as (l & L1 & L2 & L3). exists l. split_and!; [done|done|]. intros b Hb. destruct (L3 b Hb) as [H1 H2]. split; [done|]. by rewrite Hu3, <- Hu2.
Qed.

(** A block of the file system that is in use and is neither a bitmap block
    nor the block [inob] of the inode. *)
Record mine (s : superblock) (size inob : Z) (lg : Z → list Z) (b : Z) : Prop := {
  mi_range : 0 < b < s.(sb_size);
  mi_disk : b < size;
  mi_home : home st nl b;
  mi_map : ∀ b', 0 <= b' < s.(sb_size) → b ≠ BBLOCK b' s;
  mi_use : in_use s lg b = true;
  mi_inode : b ≠ inob;
}.

(** The inode [x] with its blocks. *)
Record wfile (s : superblock) (size inob : Z) (lg : Z → list Z) (x : inode) (L : list Z) (ib : Z) : Prop := {
  wf_dev : x.(i_dev) = DISKDEV;
  wf_type : x.(i_type) ≠ T_DEV;
  wf_map : bmap_ok lg x L ib;
  wf_nodup : NoDup (owned L ib);
  wf_mine : ∀ b, b ∈ owned L ib → mine s size inob lg b;
  wf_inob : 0 <= inob < s.(sb_size) ∧ in_use s lg inob = true;
}.

(** bmap() was called for block [b] of the file. *)
Record mapped (ip : nat) (inob : Z) (bs : list Z) (k : kernel) (lg : Z → list Z) (x : inode) (L : list Z) (ib : Z)
    (bs' : list Z) (k' : kernel) (lg' : Z → list Z) (x' : inode) (L' : list Z) (ib' : Z) : Prop := {
  mp_ran : ran c k k';
  mp_inodes : k'.(fs).(inodes) = <[ip := x']> k.(fs).(inodes);
  mp_inode : x' = set_i_addrs x'.(i_addrs) x;
  mp_ready : ready [] bs' k' lg';
  mp_file : wfile k.(fs).(sb) k.(fs).(disk).(disksize) inob lg' x' L' ib';
  mp_log : (length bs' <= length bs + 5)%nat;
  mp_data : ∀ y, y ∈ L → lg' y = lg y;
  mp_other : ∀ y, 0 <= y < k.(fs).(sb).(sb_size) → in_use k.(fs).(sb) lg y = true → y ∉ owned L ib →
    (∀ b, 0 <= b < k.(fs).(sb).(sb_size) → y ≠ BBLOCK b k.(fs).(sb)) → lg' y = lg y;
  mp_use : ∀ y, 0 <= y < k.(fs).(sb).(sb_size) → in_use k.(fs).(sb) lg y = true → in_use k.(fs).(sb) lg' y = true;
  mp_owned : ∀ y, y ∈ owned L' ib' → y ∈ owned L ib ∨ 0 <= y < k.(fs).(sb).(sb_size) ∧ in_use k.(fs).(sb) lg y = false;
}.

Lemma fresh_mine s size inob lg lg' f : fresh s size lg f → in_use s lg' f = true → in_use s lg inob = true → mine s size inob lg' f.
Proof using. intros [F1 F2 F3 F4 F5] Hu Hi. split; try done. intros ->. congruence. Qed.

Lemma mine_mono s size inob lg lg' b : mine s size inob lg b → (∀ y, 0 <= y < s.(sb_size) → in_use s lg y = true → in_use s lg' y = true) → mine s size inob lg' b.
Proof using. intros [M1 M2 M3 M4 M5 M6] Hu. split; try done. apply Hu; [lia|done]. Qed.

Lemma use_mono s lg lg' f : (∀ b, 0 <= b < s.(sb_size) → in_use s lg' b = if bool_decide (b = f) then true else in_use s lg b) →
  ∀ y, 0 <= y < s.(sb_size) → in_use s lg y = true → in_use s lg' y = true.
Proof using. intros Hu y Hy Hl. rewrite Hu by done. by case_bool_decide. Qed.

(** A block other than the one taken and the bitmap's. *)
Lemma taken_ne s f lg y : y ≠ f → y ≠ BBLOCK f s → taken s f lg y = lg y.
Proof using. intros H1 H2. unfold taken. by rewrite !fn_lookup_insert_ne by done. Qed.

Lemma bmap_direct bs k lg ip inob x L ib n :
  let s := k.(fs).(sb) in
  ready [] bs k lg → k.(fs).(inodes) !! ip = Some x → wfile s k.(fs).(disk).(disksize) inob lg x L ib → (length L < 12)%nat →
  (S (length bs) < NBUF)%nat → Z.of_nat (S (length bs)) < nl - 1 → has_free s lg (S n) →
  ∃ f bs' k' lg' x', bmap ip (Z.of_nat (length L)) k = Ok f k' ∧ mapped ip inob bs k lg x L ib bs' k' lg' x' (L ++ [f]) ib ∧
    lg' f = replicate (Z.to_nat BSIZE) 0 ∧ has_free s lg' n.
Proof using.
  intros s Hr Hx [W1 W2 W3 W4 W5 W6] HL Hn1 Hn2 Hfree. pose proof W3 as [M1 M2 M3 M4 M5].
  destruct (addr_alloc_new bs k lg ip x (length L) n) as (f & k' & E & F & R & Ei & Hr' & Hf' & Hu'); try done; [lia|rewrite M2 by lia; by apply nth_overflow|].
  fold s in F, Hr', Hf', Hu'. set (x' := set_i_addrs _ x) in Ei. destruct (owned_snoc_direct L ib f HL) as [O1 O2].
  assert (Hold : ∀ y, y ∈ owned L ib → taken s f lg y = lg y).
  { intros y Hy. destruct (W5 y Hy) as [P1 P2 P3 P4 P5 P6]. apply taken_ne; [intros ->; by rewrite (fr_free _ _ _ _ F) in P5|]. apply P4. destruct F. lia. }
  exists f, (taken_blocks s f bs), k', (taken s f lg), x'. split_and!; [|split| |done]; try done.
  - unfold bmap. rewrite (proj2 (Z.ltb_lt _ _)) by (unfold NDIRECT; lia). exact E.
  - split; try done.
    + by apply (bmap_add_direct lg).
    + rewrite O1. rewrite O2 in W4. apply NoDup_app. split_and!; [done| |apply NoDup_singleton]. intros b Hb ->%list_elem_of_singleton.
      rewrite <- O2 in Hb. apply W5 in Hb. destruct Hb, F. congruence.
    + rewrite O1. intros b [Hb| ->]%elem_snoc.
      * rewrite <- O2 in Hb. eapply mine_mono; [by apply W5|]. by eapply use_mono.
      * eapply fresh_mine; [exact F| |apply W6]. rewrite Hu' by (destruct F; lia). by rewrite bool_decide_true.
    + split; [apply W6|]. eapply use_mono; [exact Hu'|apply W6|apply W6].
  - unfold taken_blocks. pose proof (length_with_block (BBLOCK f s) bs). pose proof (length_with_block f (with_block (BBLOCK f s) bs)). lia.
  - intros y Hy. apply Hold. by rewrite O2.
  - fold s. intros y Hy Hu Hn Hb. destruct F. apply taken_ne; [intros ->; congruence|]. apply Hb. lia.
  - by eapply use_mono.
  - fold s. rewrite O1, O2. intros y [Hy| ->]%elem_snoc; [by left|right]. destruct F. split; [lia|done].
  - unfold taken. by rewrite fn_lookup_insert.
Qed.

(** A new entry of the indirect block, which the file has already. *)
Lemma bmap_indirect bs k lg ip inob x L ib n :
  let s := k.(fs).(sb) in
  ready [] bs k lg → k.(fs).(inodes) !! ip = Some x → wfile s k.(fs).(disk).(disksize) inob lg x L ib → (12 < length L < 140)%nat →
  (length bs + 3 < NBUF)%nat → Z.of_nat (length bs + 3) < nl - 1 → has_free s lg (S n) →
  ∃ f bs' k' lg', bmap ip (Z.of_nat (length L)) k = Ok f k' ∧ mapped ip inob bs k lg x L ib bs' k' lg' x (L ++ [f]) ib ∧
    lg' f = replicate (Z.to_nat BSIZE) 0 ∧ has_free s lg' n.
Proof using.
  intros s Hr Hx [W1 W2 W3 W4 W5 W6] HL Hn1 Hn2 Hfree. pose proof W3 as [M1 M2 M3 M4 M5]. rewrite decide_True in M3 by lia.
  assert (Eo : owned L ib = L ++ [ib]) by (unfold owned; by rewrite decide_True by lia).
  assert (Hib : mine s k.(fs).(disk).(disksize) inob lg ib) by (apply W5; rewrite Eo; apply elem_snoc; by right).
  pose proof Hib as [P1 P2 P3 P4 P5 P6].
  destruct (indirect_add bs k lg ip x ib (length L - 12) n) as (f & k' & bs' & E & F & R & Ei & Hb' & Hr' & Hf' & Hu'); try done; try lia.
  { fold s. lia. }
  { rewrite M4 by lia. apply nth_overflow. lia. }
  fold s in F, Hr', Hf', Hu'. set (lg' := <[ib := _]> _) in *.
  assert (Hold : ∀ y, y ∈ L → lg' y = lg y).
  { intros y Hy. destruct (W5 y ltac:(rewrite Eo; apply elem_snoc; by left)) as [Q1 Q2 Q3 Q4 Q5 Q6]. unfold lg'. rewrite fn_lookup_insert_ne.
    - destruct F. apply taken_ne; [intros ->; congruence|]. apply Q4. lia.
    - intros <-. rewrite Eo in W4. apply NoDup_app in W4 as (_ & N & _). by apply (N ib Hy), list_elem_of_singleton. }
  exists f, bs', k', lg'. split_and!; [|split| |done]; try done.
  - unfold bmap. rewrite (proj2 (Z.ltb_ge _ _)) by (unfold NDIRECT; lia). cbv zeta. rewrite (proj2 (Z.ltb_lt _ _)) by (change NINDIRECT with 128; change NDIRECT with 12; lia).
    erewrite bind_Ok; [|unfold addr_alloc; change NDIRECT with (Z.of_nat 12); erewrite bind_Ok by (eapply addr_get_ok; [done|done|lia|done]); cbv beta;
      rewrite (proj2 (Z.eqb_neq ib 0)) by lia; reflexivity]. cbv beta.
    mstep by (unfold ino_get; by rewrite Hx). change NDIRECT with 12. replace (4 * (Z.of_nat (length L) - 12)) with (4 * Z.of_nat (length L - 12)) by lia. exact E.
  - rewrite Ei. symmetry. by apply list_insert_id.
  - by destruct x.
  - split; try done.
    + apply (bmap_add_entry lg); try done; try lia.
      * apply (co_size _ _ _ _ _ (aw_cache _ _ _ _ _ _ _ _ _ (rd_work _ _ _ _ Hr))).
      * by apply M4; lia.
      * destruct F. pose proof (mo_size _ _ _ _ _ (rd_map _ _ _ _ Hr)) as Hsz. fold s in Hsz. unfold is_u32. lia.
      * unfold lg'. by rewrite fn_lookup_insert.
    + rewrite owned_indirect by lia. rewrite <- (Permutation_middle L [ib] f), <- Eo. apply NoDup_cons. split; [|done].
      intros Hin%W5. destruct Hin, F. congruence.
    + rewrite owned_indirect by lia. intros b Hb. rewrite <- (Permutation_middle L [ib] f), <- Eo in Hb. apply elem_of_cons in Hb as [->|Hb].
      * eapply fresh_mine; [exact F| |apply W6]. rewrite Hu' by (destruct F; lia). by rewrite bool_decide_true.
      * eapply mine_mono; [by apply W5|]. by eapply use_mono.
    + split; [apply W6|]. eapply use_mono; [exact Hu'|apply W6|apply W6].
  - lia.
  - fold s. intros y Hy Hu Hn Hb. rewrite Eo in Hn. unfold lg'. rewrite fn_lookup_insert_ne by (intros <-; apply Hn, elem_snoc; by right).
    destruct F. apply taken_ne; [intros ->; congruence|]. apply Hb. lia.
  - by eapply use_mono.
  - fold s. rewrite owned_indirect, Eo by lia. intros y [Hy|[->| ->]]%elem_snoc2; [left; apply elem_snoc; by left| |left; apply elem_snoc; by right].
    right. destruct F. split; [lia|done].
  - unfold lg'. destruct F. rewrite fn_lookup_insert_ne by (intros ->; congruence). unfold taken. by rewrite fn_lookup_insert.
Qed.

(** The first entry of an indirect block, which is allocated too. *)
Lemma bmap_first bs k lg ip inob x L ib n :
  let s := k.(fs).(sb) in
  ready [] bs k lg → k.(fs).(inodes) !! ip = Some x → wfile s k.(fs).(disk).(disksize) inob lg x L ib → length L = 12%nat →
  (length bs + 5 < NBUF)%nat → Z.of_nat (length bs + 5) < nl - 1 → has_free s lg (S (S n)) →
  ∃ f bs' k' lg' x' ib', bmap ip (Z.of_nat (length L)) k = Ok f k' ∧ mapped ip inob bs k lg x L ib bs' k' lg' x' (L ++ [f]) ib' ∧
    lg' f = replicate (Z.to_nat BSIZE) 0 ∧ has_free s lg' n.
Proof using.
  intros s Hr Hx [W1 W2 W3 W4 W5 W6] HL Hn1 Hn2 Hfree. pose proof W3 as [M1 M2 M3 M4 M5]. rewrite decide_False in M3 by lia.
  assert (Eo : owned L ib = L) by (unfold owned; by rewrite decide_False, app_nil_r by lia). rewrite Eo in W4, W5.
  destruct (addr_alloc_new bs k lg ip x 12 (S n)) as (ib' & k1 & E1 & F1 & R1 & Ei1 & Hr1 & Hf1 & Hu1); try done; try lia.
  fold s in F1, Hr1, Hf1, Hu1. set (x' := set_i_addrs _ x) in Ei1. pose proof R1 as [_ Es1 _ Ed1 _]. set (lg1 := taken s ib' lg) in *.
  set (bs1 := taken_blocks s ib' bs) in *. assert (Hb1 : (length bs1 <= length bs + 2)%nat).
  { unfold bs1, taken_blocks. pose proof (length_with_block (BBLOCK ib' s) bs). pose proof (length_with_block ib' (with_block (BBLOCK ib' s) bs)). lia. }
  assert (Hm1 : mine s k.(fs).(disk).(disksize) inob lg1 ib').
  { eapply fresh_mine; [exact F1| |apply W6]. rewrite Hu1 by (destruct F1; lia). by rewrite bool_decide_true. }
  assert (Hx1 : k1.(fs).(inodes) !! ip = Some x') by (rewrite Ei1; apply list_lookup_insert_eq; by eapply lookup_lt_Some).
  assert (Hz : lg1 ib' = zeroes) by (unfold lg1, taken; by rewrite fn_lookup_insert).
  pose proof Hm1 as [P1 P2 P3 P4 P5 P6].
  destruct (indirect_add bs1 k1 lg1 ip x' ib' 0 n) as (f & k' & bs' & E & F & R & Ei & Hb' & Hr' & Hf' & Hu'); rewrite ?Es1, ?Ed1; try done; try lia.
  { fold s. lia. }
  { rewrite Hz. by apply zero_entry; lia. }
  rewrite Es1, Ed1 in *. fold s in F, Hr', Hf', Hu'. set (lg' := <[ib' := _]> _) in *.
  assert (Hu2 : ∀ y, 0 <= y < s.(sb_size) → in_use s lg y = true → in_use s lg' y = true).
  { intros y Hy Hly. eapply use_mono; [exact Hu'|done|]. by eapply use_mono. }
  assert (Hff : in_use s lg f = false).
  { destruct F. destruct (in_use s lg f) eqn:Eu; [|done]. rewrite (use_mono s lg lg1 ib' Hu1 f ltac:(lia) Eu) in *. done. }
  assert (Hold : ∀ y, 0 <= y < s.(sb_size) → in_use s lg y = true → (∀ b, 0 <= b < s.(sb_size) → y ≠ BBLOCK b s) → lg' y = lg y).
  { intros y Hy Hly Hyb. destruct F, F1. unfold lg'. rewrite fn_lookup_insert_ne by (intros ->; congruence).
    rewrite taken_ne; [|intros ->; congruence|apply Hyb; lia]. unfold lg1. apply taken_ne; [intros ->; congruence|apply Hyb; lia]. }
  assert (Hold2 : ∀ y, y ∈ L → lg' y = lg y) by (intros y Hy; destruct (W5 y Hy); apply Hold; [lia|done|done]).
  exists f, bs', k', lg', x', ib'. split_and!; [|split| |done]; try done.
  - unfold bmap. rewrite (proj2 (Z.ltb_ge _ _)) by (unfold NDIRECT; lia). cbv zeta. rewrite (proj2 (Z.ltb_lt _ _)) by (change NINDIRECT with 128; change NDIRECT with 12; lia).
    change NDIRECT with (Z.of_nat 12). mstep by exact E1. mstep by (unfold ino_get; by rewrite Hx1).
    replace (4 * (Z.of_nat (length L) - Z.of_nat 12)) with (4 * Z.of_nat 0) by lia. exact E.
  - by eapply ran_trans.
  - rewrite Ei. done.
  - split; try done.
    + apply (bmap_add_entry lg1); try done; try lia; cbn [x' i_addrs set_i_addrs].
      * by rewrite Hz.
      * by rewrite length_insert.
      * intros j Hj. rewrite nth_insert_ne by lia. by apply M2.
      * apply nth_insert_eq. lia.
      * intros j Hj. rewrite Hz, zero_entry by done. by rewrite nth_overflow by lia.
      * destruct F. pose proof (mo_size _ _ _ _ _ (rd_map _ _ _ _ Hr)) as Hsz. fold s in Hsz. unfold is_u32. lia.
      * unfold lg'. rewrite fn_lookup_insert, HL. done.
    + rewrite owned_indirect by lia. apply NoDup_app. split_and!; [done| |].
      * intros b Hb [->|Hb2]%elem_of_cons; [by destruct (W5 _ Hb), F; congruence|]. apply list_elem_of_singleton in Hb2 as ->. destruct (W5 _ Hb), F1. congruence.
      * apply NoDup_cons. split; [|apply NoDup_singleton]. intros ->%list_elem_of_singleton. destruct F. congruence.
    + rewrite owned_indirect by lia. intros b [Hb|[->| ->]]%elem_snoc2.
      * eapply mine_mono; [by apply W5|done].
      * eapply (fresh_mine s _ inob lg1 lg'); [exact F| |]; [rewrite Hu' by (destruct F; lia); by rewrite bool_decide_true|]. eapply use_mono; [exact Hu1|apply W6|apply W6].
      * eapply mine_mono; [exact Hm1|]. by eapply use_mono.
    + split; [apply W6|]. apply Hu2; apply W6.
  - lia.
  - fold s. intros y Hy Hu _ Hb. by apply Hold.
  - fold s. rewrite owned_indirect, Eo by lia. intros y [Hy|[->| ->]]%elem_snoc2; [by left|right|right]; [destruct F|destruct F1]; split; lia || done.
  - unfold lg'. destruct F. rewrite fn_lookup_insert_ne by (intros ->; congruence). unfold taken. by rewrite fn_lookup_insert.
Qed.

(** The other blocks that a file of one more block takes. *)
Definition more (n : nat) : nat := if decide (n = 12)%nat then 2 else 1.

(** bmap() for a block of the file or the one after the last. *)
Lemma bmap_any bs k lg ip inob x L ib q n :
  let s := k.(fs).(sb) in
  let new := bool_decide (q = length L) in
  ready [] bs k lg → k.(fs).(inodes) !! ip = Some x → wfile s k.(fs).(disk).(disksize) inob lg x L ib →
  (q <= length L)%nat → (q < 140)%nat → (length bs + 5 < NBUF)%nat → Z.of_nat (length bs + 5) < nl - 1 →
  has_free s lg ((if new then more (length L) else 0) + n) →
  ∃ f bs' k' lg' x' ib', let L' := if new then L ++ [f] else L in
    bmap ip (Z.of_nat q) k = Ok f k' ∧ mapped ip inob bs k lg x L ib bs' k' lg' x' L' ib' ∧ f = nth q L' 0 ∧
    (new = true → lg' f = replicate (Z.to_nat BSIZE) 0) ∧ (new = false → x' = x) ∧ has_free s lg' n.
Proof using.
  intros s new Hr Hx Hf Hq Hq2 Hn1 Hn2 Hfree. unfold new in *. clear new. case_bool_decide as Eq.
  - subst q. assert (Hnth : ∀ f, f = nth (length L) (L ++ [f]) 0) by (intros f; by rewrite app_nth2, Nat.sub_diag by lia). unfold more in Hfree. case_decide as E12.
    + destruct (bmap_first bs k lg ip inob x L ib n) as (f & bs' & k' & lg' & x' & ib' & H1 & H2 & H3 & H4); try done. exists f, bs', k', lg', x', ib'. by split_and!.
    + destruct (decide (length L < 12)%nat) as [Hlt|Hge].
      * destruct (bmap_direct bs k lg ip inob x L ib n) as (f & bs' & k' & lg' & x' & H1 & H2 & H3 & H4); try done; try lia. exists f, bs', k', lg', x', ib. by split_and!.
      * destruct (bmap_indirect bs k lg ip inob x L ib n) as (f & bs' & k' & lg' & H1 & H2 & H3 & H4); try done; try lia. exists f, bs', k', lg', x, ib. by split_and!.
  - pose proof Hf as [W1 W2 W3 W4 W5 W6]. pose proof Hr as [Hw Hm Hb Ho].
    destruct (bmap_old c i pr st nl k bs lg ip x L ib q) as (k' & E & M & Hr' & Ed); [by apply work_rest|lia|done|done|done|intros b Hb2; destruct (W5 b Hb2); lia|lia|].
    pose proof M as [_ (Ei & El & Es & _) _]. exists (nth q L 0), bs, k', lg, x, ib. split_and!; try done. split; try done.
    + by apply move_ran.
    + by rewrite Ei, list_insert_id.
    + by destruct x.
    + split; [by apply work_rest|by rewrite Es, Ed|by rewrite Es|by rewrite El].
    + lia.
    + intros y Hy. by left.
Qed.

End writing.

(** ** The bytes of the file *)

(** [p] written over [ct] from offset [o] on. *)
Definition put_range (ct : list Z) (o : nat) (p : list Z) : list Z := take o ct ++ p ++ drop (o + length p) ct.

Lemma length_put_range ct o p : (o <= length ct)%nat → length (put_range ct o p) = Nat.max (length ct) (o + length p).
Proof. intros Ho. unfold put_range. rewrite !length_app, length_take, length_drop. lia. Qed.

Lemma put_range_lookup ct o p k : (o <= length ct)%nat →
  put_range ct o p !! k = if decide (o <= k < o + length p)%nat then p !! (k - o)%nat else ct !! k.
Proof.
  intros Ho. unfold put_range. case_decide as Hk.
  - rewrite lookup_app_r, length_take, Nat.min_l by (rewrite ?length_take; lia). by rewrite lookup_app_l by lia.
  - destruct (decide (k < o)%nat) as [Hlt|Hge].
    + rewrite lookup_app_l by (rewrite length_take; lia). by apply lookup_take_lt.
    + rewrite lookup_app_r, length_take, Nat.min_l by (rewrite ?length_take; lia). rewrite lookup_app_r by lia. rewrite lookup_drop. f_equal. lia.
Qed.

Lemma put_range_nth ct o p k : (o <= length ct)%nat →
  nth k (put_range ct o p) 0 = if decide (o <= k < o + length p)%nat then nth (k - o) p 0 else nth k ct 0.
Proof. intros Ho. rewrite !nth_lookup, put_range_lookup by done. by case_decide. Qed.

Lemma put_range_nil ct o : put_range ct o [] = ct.
Proof. unfold put_range. cbn. rewrite Nat.add_0_r. apply take_drop. Qed.

Lemma put_range_app ct o p1 p2 : (o <= length ct)%nat → put_range (put_range ct o p1) (o + length p1) p2 = put_range ct o (p1 ++ p2).
Proof.
  intros Ho. apply list_eq. intros k. rewrite !put_range_lookup by (rewrite ?length_put_range; lia). rewrite length_app.
  repeat case_decide; try lia; try done.
  - rewrite lookup_app_r by lia. f_equal. lia.
  - rewrite lookup_app_l by lia. done.
Qed.

Lemma nth_splice d a p j : (a + length p <= length d)%nat → nth j (splice d a p) 0 = if decide (a <= j < a + length p)%nat then nth (j - a) p 0 else nth j d 0.
Proof.
  intros Hd. rewrite !nth_lookup. case_decide as Hj; [|by rewrite splice_ne by lia].
  replace j with (a + (j - a))%nat at 1 by lia. by rewrite splice_eq by lia.
Qed.

(** Writing a part of one block. *)
Lemma content_put lg lg1 L L' ct o p :
  let b := nth (o / 512) L' 0 in
  content lg L ct → (o <= length ct)%nat → (0 < length p)%nat → (o mod 512 + length p <= 512)%nat → (∀ b, length (lg1 b) = 512%nat) →
  (∀ y, y ∈ L → lg1 y = lg y) → NoDup L' → (if bool_decide (o / 512 = length L)%nat then L' = L ++ [b] ∧ lg1 b = replicate 512 0 else L' = L) →
  content (<[b := splice (lg1 b) (o mod 512) p]> lg1) L' (put_range ct o p).
Proof.
  intros b (C1 & C2 & C3) Ho Hp Hm Hl Hold Hnd HL. pose proof (Nat.div_mod_eq o 512) as Hdm. pose proof (Nat.mod_upper_bound o 512 ltac:(done)) as Hmu.
  set (q := (o / 512)%nat) in *. assert (HL' : length L' = if bool_decide (q = length L) then S (length L) else length L).
  { case_bool_decide; [destruct HL as [HL _]; rewrite HL, length_app; cbn; lia|by rewrite HL]. }
  assert (Hq : (q < length L')%nat) by (rewrite HL'; case_bool_decide; lia).
  assert (Hdat : ∀ k, (k < 512 * length L')%nat → nth (k mod 512) (lg1 (nth (k / 512) L' 0)) 0 = nth k ct 0).
  { intros k Hk. destruct (decide (k < 512 * length L)%nat) as [Hlt|Hge].
    - assert (Hkq : (k / 512 < length L)%nat) by (apply Nat.Div0.div_lt_upper_bound; lia). rewrite <- C3 by done.
      assert (nth (k / 512) L' 0 = nth (k / 512) L 0) as ->; [|by rewrite Hold by by apply nth_elem].
      case_bool_decide; [destruct HL as [HL _]; by rewrite HL, app_nth1|by rewrite HL].
    - case_bool_decide as Eq; [|lia]. destruct (block_of q k ltac:(lia)) as [-> _]. fold b. destruct HL as [_ ->].
      rewrite (nth_overflow ct) by lia. rewrite nth_lookup, lookup_replicate_2; [done|]. by apply Nat.mod_upper_bound. }
  unfold content. rewrite length_put_range by done. split_and!; [rewrite HL'; case_bool_decide; lia|rewrite HL'; case_bool_decide; lia|].
  intros k Hk. rewrite put_range_nth by done. destruct (decide (k / 512 = q)%nat) as [Ek|Ek].
  - rewrite Ek. fold b. rewrite fn_lookup_insert, nth_splice by (rewrite Hl; lia). pose proof (Nat.div_mod_eq k 512).
    assert (Hmk : (k mod 512 < 512)%nat) by by apply Nat.mod_upper_bound. specialize (Hdat k Hk). rewrite Ek in Hdat. fold b in Hdat.
    destruct (decide (o <= k < o + length p)%nat) as [Hin|Hout].
    + rewrite decide_True by lia. f_equal. lia.
    + rewrite decide_False by lia. exact Hdat.
  - rewrite fn_lookup_insert_ne.
    + rewrite decide_False; [by apply Hdat|]. intros Hin. apply Ek. symmetry. apply (Nat.div_unique _ _ _ (k - 512 * q)); lia.
    + intros E. apply Ek. assert (Hkq : (k / 512 < length L')%nat) by (apply Nat.Div0.div_lt_upper_bound; lia).
      destruct (nth_lookup_or_length L' q 0) as [E1|]; [|lia]. destruct (nth_lookup_or_length L' (k / 512) 0) as [E2|]; [|lia].
      eapply (NoDup_lookup L'); [done|exact E2|]. rewrite <- E. exact E1.
Qed.

(** ** writei() *)

Section writei.
  Context (c i : nat) (pr : proc) (st nl : Z).

(** Where the bytes [p] come from; no step of the file system changes them. *)
Definition source (fetch : Z → K Z) (k : kernel) (p : list Z) : Prop :=
  ∀ k' t m, fs_step c k k'.(fs) k' → (t + m <= length p)%nat → fetch_list fetch (Z.of_nat t) m k' = Ok (take m (drop t p)) k'.

(** Bytes are fetched, stored in a block and the block is logged. *)
Lemma write_block k bs lg b o p (fetch : K (list Z)) :
  let s := k.(fs).(sb) in
  ready c i pr st nl [] bs k lg → 0 <= b < k.(fs).(disk).(disksize) → home st nl b → (∀ b', 0 <= b' < s.(sb_size) → b ≠ BBLOCK b' s) →
  (∀ k', fs_step c k k'.(fs) k' → fetch k' = Ok p k') → 0 < s.(sb_size) → (length bs < NBUF)%nat → Z.of_nat (length bs) < nl - 1 →
  ∃ n k1 k', bread DISKDEV b k = Ok n k1 ∧ k1.(fs).(inodes) = k.(fs).(inodes) ∧ fetch k1 = Ok p k1 ∧
    (buf_upd n (λ v, set_b_data (splice v.(b_data) o p) v);; log_write n;; brelse n) k1 = Ok tt k' ∧
    ran c k k' ∧ k'.(fs).(inodes) = k.(fs).(inodes) ∧ ready c i pr st nl [] (with_block b bs) k' (<[b := splice (lg b) o p]> lg) ∧
    (∀ y, 0 <= y < s.(sb_size) → in_use s (<[b := splice (lg b) o p]> lg) y = in_use s lg y).
Proof using.
  intros s [Hw Hm Hboot Ho] Hb Hh Hbm Hfetch Hs0 Hn1 Hn2. pose proof Hw as [He Hc _ _].
  destruct (update_work c i pr st nl [] k bs lg b (λ d, splice d o p)) as (k' & E & R & Ed & Hw' & Hlo & _); try done.
  { apply not_elem_of_nil. }
  { rewrite length_splice. apply (co_size _ _ _ _ _ Hc). }
  destruct (bread_ok k c i pr [] bs lg b) as (n & k1 & E1 & G1); [done|done|done|apply not_elem_of_nil|left; by apply work_room|].
  unfold update in E. rewrite (bind_Ok _ _ _ _ _ E1) in E. set (lg' := <[b := _]> lg) in *.
  assert (Hu : ∀ y, 0 <= y < s.(sb_size) → in_use s lg' y = in_use s lg y) by (intros y Hy; unfold in_use, lg'; by rewrite fn_lookup_insert_ne by by apply Hbm).
  exists n, k1, k'. split_and!; try done; [apply (gt_rest _ _ _ _ _ _ _ _ _ G1)|apply Hfetch, G1|by apply run_ran|apply R|].
  split; [done|rewrite Ed, (fr_sb _ _ _ R)|rewrite (fr_sb _ _ _ R)|lia].
  - eapply map_ok_mono; [exact Hm|]. intros y Hy. fold s. by rewrite Hu.
  - fold s. rewrite Hu; [done|lia].
Qed.

(** The state in the loop of writei() of [ip], the file [ct] with inode [x],
    after [t] turns that wrote [acc] from offset [off] on. *)
Record wrote (ip : nat) (inob : Z) (k : kernel) (bs : list Z) (lg : Z → list Z) (x : inode) (L : list Z) (ib : Z) (ct : list Z) (off : nat) (acc : list Z) (t : nat)
    (kt : kernel) (bs' : list Z) (lg' : Z → list Z) (x' : inode) (L' : list Z) (ib' : Z) : Prop := {
  wr_ran : ran c k kt;
  wr_inodes : kt.(fs).(inodes) = <[ip := x']> k.(fs).(inodes);
  wr_inode : x' = set_i_addrs x'.(i_addrs) x;
  wr_same : (off + length acc <= length ct)%nat → x' = x;
  wr_ready : ready c i pr st nl [] bs' kt lg';
  wr_file : wfile st nl k.(fs).(sb) k.(fs).(disk).(disksize) inob lg' x' L' ib';
  wr_data : content lg' L' (put_range ct off acc);
  wr_log : (length bs' <= length bs + 6 * t)%nat;
  wr_other : ∀ y, 0 <= y < k.(fs).(sb).(sb_size) → in_use k.(fs).(sb) lg y = true → y ∉ owned L ib →
    (∀ b, 0 <= b < k.(fs).(sb).(sb_size) → y ≠ BBLOCK b k.(fs).(sb)) → lg' y = lg y;
  wr_use : ∀ y, 0 <= y < k.(fs).(sb).(sb_size) → in_use k.(fs).(sb) lg y = true → in_use k.(fs).(sb) lg' y = true;
  wr_owned : ∀ y, y ∈ owned L' ib' → y ∈ owned L ib ∨ 0 <= y < k.(fs).(sb).(sb_size) ∧ in_use k.(fs).(sb) lg y = false;
}.

Lemma wrote_nil ip inob k bs lg x L ib ct off :
  ready c i pr st nl [] bs k lg → k.(fs).(inodes) !! ip = Some x → wfile st nl k.(fs).(sb) k.(fs).(disk).(disksize) inob lg x L ib → content lg L ct →
  wrote ip inob k bs lg x L ib ct off [] 0 k bs lg x L ib.
Proof using.
  intros Hr Hx Hf Hc. split; try done; [apply ran_refl|by rewrite list_insert_id|by destruct x|by rewrite put_range_nil|lia|intros y Hy; by left].
Qed.

Lemma bmap_ok_ext lg lg' x L ib : bmap_ok lg x L ib → ((12 < length L)%nat → lg' ib = lg ib) → bmap_ok lg' x L ib.
Proof using. intros [M1 M2 M3 M4 M5] H. split; try done. intros HL. rewrite H by done. by apply M4. Qed.

(** A data block of the file is not its indirect block. *)
Lemma data_not_ib L ib b : NoDup (owned L ib) → b ∈ L → (12 < length L)%nat → b ≠ ib.
Proof using.
  unfold owned. intros Hnd Hb HL ->. rewrite decide_True in Hnd by done. apply NoDup_app in Hnd as (_ & N & _). by apply (N ib Hb), list_elem_of_singleton.
Qed.

(** The file after its block [b] was written. *)
Lemma wfile_put s size inob lg x L ib b d : wfile st nl s size inob lg x L ib → b ∈ L →
  (∀ y, 0 <= y < s.(sb_size) → in_use s (<[b := d]> lg) y = in_use s lg y) → wfile st nl s size inob (<[b := d]> lg) x L ib.
Proof using.
  intros [W1 W2 W3 W4 W5 W6] Hb Hu. split; try done.
  - eapply bmap_ok_ext; [done|]. intros HL. apply fn_lookup_insert_ne. by apply (data_not_ib L).
  - intros y Hy. eapply mine_mono; [by apply W5|]. intros z Hz. by rewrite Hu.
  - split; [apply W6|]. rewrite Hu; apply W6.
Qed.

(** One turn: bmap() and a write into the block. *)
Lemma wrote_step ip inob k bs lg x L ib ct off acc t kt bs1 lg1 x1 L1 ib1 k2 bs2 lg2 x2 L2 ib2 b o p k3 :
  let s := k.(fs).(sb) in
  wrote ip inob k bs lg x L ib ct off acc t kt bs1 lg1 x1 L1 ib1 → o = (off + length acc)%nat → (off <= length ct)%nat → b = nth (o / 512) L2 0 →
  mapped c i pr st nl ip inob bs1 kt lg1 x1 L1 ib1 bs2 k2 lg2 x2 L2 ib2 → (bool_decide (o / 512 = length L1)%nat = false → x2 = x1) →
  (if bool_decide (o / 512 = length L1)%nat then L2 = L1 ++ [b] ∧ lg2 b = replicate 512 0 else L2 = L1) → b ∈ L2 → (0 < length p)%nat → (o mod 512 + length p <= 512)%nat →
  ran c k2 k3 → k3.(fs).(inodes) = k2.(fs).(inodes) → ready c i pr st nl [] (with_block b bs2) k3 (<[b := splice (lg2 b) (o mod 512) p]> lg2) →
  (∀ y, 0 <= y < s.(sb_size) → in_use s (<[b := splice (lg2 b) (o mod 512) p]> lg2) y = in_use s lg2 y) →
  wrote ip inob k bs lg x L ib ct off (acc ++ p) (S t) k3 (with_block b bs2) (<[b := splice (lg2 b) (o mod 512) p]> lg2) x2 L2 ib2.
Proof using.
  intros s [R1 I1 X1 S1 Y1 F1 D1 G1 O1 U1 W1] -> Hoff Eb [R2 I2 X2 Y2 F2 G2 D2 O2 U2 W2] Hnew HL Hb Hp Hm R3 I3 Hr Hu.
  pose proof R1 as [_ Es1 _ Ed1 _]. rewrite Es1, Ed1 in *. fold s in O1, U1, W1, O2, U2, W2, F1, F2 |- *.
  assert (Hbo : b ∈ owned L2 ib2) by (apply elem_of_app; by left). assert (Hnd : NoDup L2) by (destruct F2 as [_ _ _ N _ _]; unfold owned in N; by apply NoDup_app in N as (? & _)).
  split; fold s; try done.
  - eapply ran_trans; [exact R1|]. by eapply ran_trans.
  - by rewrite I3, I2, I1, list_insert_insert_eq.
  - rewrite X2, X1. done.
  - rewrite length_app. intros Hle. assert (Hx1 : x1 = x) by (apply S1; lia). rewrite <- Hx1. apply Hnew, bool_decide_false.
    destruct D1 as (_ & C & _). rewrite length_put_range in C by done. intros E. pose proof (Nat.div_mod_eq (off + length acc) 512). lia.
  - by apply wfile_put.
  - rewrite <- put_range_app by done. rewrite Eb in HL |- *. apply (content_put lg1 lg2 L1); try done.
    + rewrite length_put_range by done. lia.
    + intros y. apply (co_size _ _ _ _ _ (aw_cache _ _ _ _ _ _ _ _ _ (rd_work _ _ _ _ _ _ _ _ _ Y2))).
  - pose proof (length_with_block b bs2). lia.
  - intros y Hy Hyu Hyo Hyb. assert (Hyo1 : y ∉ owned L1 ib1) by (intros [?|[_ ?]]%W1; congruence).
    rewrite fn_lookup_insert_ne; [rewrite O2, O1; auto|]. intros ->. apply W2 in Hbo as [?|[_ Hbf]]; [done|]. rewrite U1 in Hbf; done.
  - intros y Hy Hyu. rewrite Hu by done. auto.
  - intros y Hy. apply W2 in Hy as [Hy|[Hy Hyf]]; [auto|right]. split; [done|]. destruct (in_use s lg y) eqn:E; [|done]. rewrite U1 in Hyf; done.
Qed.

(** The blocks needed to grow from [a] data blocks to [N]. *)
Definition need (a N : nat) : nat := list_sum (more <$> seq a (N - a)).

Lemma need_step a N : (a < N)%nat → need a N = (more a + need (S a) N)%nat.
Proof using. intros H. unfold need. by replace (N - a)%nat with (S (N - S a)) by lia. Qed.

Lemma writei_turn_ok fetch ip inob k bs lg x L ib ct off acc t kt bs1 lg1 x1 L1 ib1 p N :
  let s := k.(fs).(sb) in
  let n := length p in
  let o := (off + length acc)%nat in
  let m := Nat.min (n - length acc) (512 - o mod 512) in
  let bytes := take m (drop (length acc) p) in
  wrote ip inob k bs lg x L ib ct off acc t kt bs1 lg1 x1 L1 ib1 → source fetch k p → k.(fs).(inodes) !! ip = Some x →
  (off <= length ct)%nat → (length acc < n)%nat → (off + n <= 140 * 512)%nat → N = nblk (Nat.max (length ct) (off + n)) →
  (length bs1 + 5 < NBUF)%nat → Z.of_nat (length bs1 + 5) < nl - 1 → has_free s lg1 (need (length L1) N) →
  ∃ k3 bs3 lg3 x3 L3 ib3, writei_turn fetch ip (Z.of_nat n) (Z.of_nat (length acc), Z.of_nat o) kt = Ok (inl (Z.of_nat (length acc + m), Z.of_nat (o + m))) k3 ∧
    wrote ip inob k bs lg x L ib ct off (acc ++ bytes) (S t) k3 bs3 lg3 x3 L3 ib3 ∧ has_free s lg3 (need (length L3) N).
Proof using.
  intros s n o m bytes Hw Hsrc Hx Hoff Ha Hmax HN Hn1 Hn2 Hfree. pose proof Hw as [R1 I1 X1 S1 Y1 F1 D1 G1 O1 U1 W1]. pose proof R1 as [St1 Es1 _ Ed1 _].
  pose proof D1 as (C1 & C2 & _). rewrite length_put_range in C1, C2 by done. fold o in C1, C2. pose proof (Nat.div_mod_eq o 512) as Hdm.
  pose proof (Nat.mod_upper_bound o 512 ltac:(done)) as Hmu. set (q := (o / 512)%nat) in *.
  assert (HNlt : q = length L1 → (length L1 < N)%nat).
  { intros Eq. rewrite HN. unfold nblk. enough (S (length L1) <= (Nat.max (length ct) (off + n) + 511) / 512)%nat by lia. apply Nat.div_le_lower_bound; lia. }
  destruct (bmap_any c i pr st nl bs1 kt lg1 ip inob x1 L1 ib1 q (need (if bool_decide (q = length L1) then S (length L1) else length L1) N))
    as (b & bs2 & k2 & lg2 & x2 & ib2 & E2 & M2 & Eb & Hz & Hsame & Hf2); rewrite ?Es1, ?Ed1; try done; try lia.
  { rewrite I1. apply list_lookup_insert_eq. by eapply lookup_lt_Some. }
  { fold s. case_bool_decide; [rewrite <- need_step by auto|]; exact Hfree. }
  rewrite Es1 in Hf2. fold s in Hf2. set (L2 := if bool_decide (q = length L1) then L1 ++ [b] else L1) in *.
  pose proof M2 as [R2 I2 X2 Y2 F2 G2 D2 O2 U2 W2]. pose proof R2 as [St2 Es2 _ Ed2 _]. rewrite Es1, Ed1 in *. fold s in F2, U2.
  assert (HL2 : length L2 = if bool_decide (q = length L1) then S (length L1) else length L1).
  { unfold L2. case_bool_decide; [rewrite length_app; cbn; lia|done]. }
  assert (HbL : b ∈ L2) by (rewrite Eb; apply nth_elem; rewrite HL2; case_bool_decide; lia).
  destruct (wf_mine _ _ _ _ _ _ _ _ _ F2 b) as [P1 P2 P3 P4 P5 P6]; [apply elem_of_app; by left|].
  assert (Hlb : length bytes = m) by (unfold bytes; rewrite length_take, length_drop; lia).
  destruct (write_block k2 bs2 lg2 b (o mod 512) bytes (fetch_list fetch (Z.of_nat (length acc)) m)) as (bp & k2' & k3 & E3 & I3' & E4 & E5 & R3 & I3 & Y3 & Hu); rewrite ?Es2, ?Ed2; try done; try lia.
  { fold s. intros k' Hk'. apply Hsrc; [|lia]. eapply fs_step_trans; [exact St1|]. by eapply fs_step_trans. }
  { fold s. lia. }
  rewrite Es2 in Hu. fold s in Hu. exists k3, (with_block b bs2), (<[b := splice (lg2 b) (o mod 512) bytes]> lg2), x2, L2, ib2. split_and!.
  - unfold writei_turn. rewrite (proj2 (Z.ltb_lt _ _)) by lia. cbn [negb]. replace (Z.of_nat o / BSIZE) with (Z.of_nat q) by (unfold q; rewrite Nat2Z.inj_div; done).
    mstep by exact E2. unfold ino_get. mstep by (rewrite I2, I1, list_insert_insert_eq; rewrite list_lookup_insert_eq by (by eapply lookup_lt_Some); reflexivity).
    rewrite (wf_dev _ _ _ _ _ _ _ _ _ F2). mstep by exact E3. cbv zeta.
    replace (Z.of_nat o `mod` BSIZE) with (Z.of_nat (o mod 512)) by (rewrite Nat2Z.inj_mod; done).
    replace (Z.min (Z.of_nat n - Z.of_nat (length acc)) (BSIZE - Z.of_nat (o mod 512))) with (Z.of_nat m) by (unfold m, BSIZE; lia).
    rewrite !Nat2Z.id. mstep by exact E4. apply bind_Ok_inv in E5 as ([] & k4 & E5 & E6). apply bind_Ok_inv in E6 as ([] & k5 & E6 & E7).
    mstep by exact E5. mstep by exact E6. mstep by exact E7. by rewrite <- !Nat2Z.inj_add.
  - eapply (wrote_step ip inob k bs lg x L ib ct off acc t kt bs1 lg1 x1 L1 ib1 k2); try done; try lia.
    fold o q. unfold L2. case_bool_decide; [|done]. split; [done|]. by apply Hz.
  - rewrite HL2. destruct Hf2 as (l & Q1 & Q2 & Q3). exists l. split_and!; [done|done|]. intros y Hy. destruct (Q3 y Hy) as [H1 H2]. split; [done|]. by rewrite Hu.
Qed.

Lemma writei_loop_ok fetch ip inob k bs lg x L ib ct off p N r : ∀ fuel acc t kt bs1 lg1 x1 L1 ib1,
  let s := k.(fs).(sb) in
  let n := length p in
  let o := (off + length acc)%nat in
  wrote ip inob k bs lg x L ib ct off acc t kt bs1 lg1 x1 L1 ib1 → source fetch k p → k.(fs).(inodes) !! ip = Some x → acc = take (length acc) p →
  (off <= length ct)%nat → (length acc <= n)%nat → (off + n <= 140 * 512)%nat → N = nblk (Nat.max (length ct) (off + n)) → has_free s lg1 (need (length L1) N) →
  (r < fuel)%nat → (length acc < n → n - length acc + o mod 512 <= 512 * r)%nat →
  (length bs + 6 * (t + r) < NBUF)%nat → Z.of_nat (length bs + 6 * (t + r)) < nl - 1 →
  ∃ t' k3 bs3 lg3 x3 L3 ib3, while_fuel fuel (writei_turn fetch ip (Z.of_nat n)) (Z.of_nat (length acc), Z.of_nat o) kt = Ok (Z.of_nat (off + n)) k3 ∧
    wrote ip inob k bs lg x L ib ct off p t' k3 bs3 lg3 x3 L3 ib3 ∧ (t' <= t + r)%nat.
Proof using.
  induction r as [r IH] using (well_founded_induction_type lt_wf). intros fuel acc t kt bs1 lg1 x1 L1 ib1 s n o Hw Hsrc Hx Hacc Hoff Hle Hmax HN Hfree Hfuel Hr Hn1 Hn2.
  destruct fuel as [|fuel]; [lia|]. cbn [while_fuel]. destruct (decide (length acc = n)) as [E|Hne].
  - exists t, kt, bs1, lg1, x1, L1, ib1. assert (Hp : acc = p) by (rewrite Hacc, E; apply take_ge; lia). split_and!; [|by rewrite <- Hp|lia].
    erewrite bind_Ok; [|unfold writei_turn; rewrite (proj2 (Z.ltb_ge _ _)) by lia; reflexivity]. cbv beta iota. unfold o. by rewrite E.
  - destruct r as [|r]; [lia|]. pose proof (wr_log _ _ _ _ _ _ _ _ _ _ _ _ _ _ _ _ _ _ Hw) as Hlog.
    destruct (writei_turn_ok fetch ip inob k bs lg x L ib ct off acc t kt bs1 lg1 x1 L1 ib1 p N) as (k3 & bs3 & lg3 & x3 & L3 & ib3 & E3 & Hw3 & Hf3); try done; try lia.
    fold n o in E3, Hw3, Hf3. rewrite (bind_Ok _ _ _ _ _ E3). cbv beta iota. set (m := Nat.min (n - length acc) (512 - o mod 512)) in *.
    set (bytes := take m (drop (length acc) p)) in *. assert (Hlb : length bytes = m) by (unfold bytes; rewrite length_take, length_drop; lia).
    assert (Hla : length (acc ++ bytes) = (length acc + m)%nat) by (rewrite length_app; lia).
    pose proof (Nat.mod_upper_bound o 512 ltac:(done)). pose proof (Nat.div_mod_eq o 512).
    replace (o + m)%nat with (off + length (acc ++ bytes))%nat by (rewrite Hla; unfold o; lia). rewrite <- Hla.
    destruct (IH r ltac:(lia) fuel (acc ++ bytes) (S t) k3 bs3 lg3 x3 L3 ib3) as (t' & k4 & bs4 & lg4 & x4 & L4 & ib4 & E4 & Hw4 & Ht'); try done; try lia.
    + rewrite Hla. rewrite Hacc at 1. unfold bytes. by rewrite take_take_drop.
    + fold n. rewrite Hla. intros Hlt. replace (off + (length acc + m))%nat with (512 * S (o / 512))%nat by (unfold m, o in *; lia).
      rewrite Nat.mul_comm, Nat.Div0.mod_mul. unfold m in *. lia.
    + exists t', k4, bs4, lg4, x4, L4, ib4. split_and!; [done|done|lia].
Qed.

(** The file [ct] of inode [x], in block [inob], has become [ct']. *)
Record written (ip : nat) (inob : Z) (k : kernel) (lg : Z → list Z) (x : inode) (L : list Z) (ib : Z) (ct ct' : list Z)
    (k' : kernel) (bs' : list Z) (lg' : Z → list Z) (x' : inode) (L' : list Z) (ib' : Z) : Prop := {
  wn_ran : ran c k k';
  wn_inodes : k'.(fs).(inodes) = <[ip := x']> k.(fs).(inodes);
  wn_inode : x' = set_i_size (Z.of_nat (length ct')) (set_i_addrs x'.(i_addrs) x);
  wn_ready : ready c i pr st nl [] bs' k' lg';
  wn_file : wfile st nl k.(fs).(sb) k.(fs).(disk).(disksize) inob lg' x' L' ib';
  wn_data : content lg' L' ct';
  wn_saved : lg' inob = if bool_decide (length ct < length ct')%nat then put_dinode (dino_off x.(i_inum)) x' (lg inob) else lg inob;
  wn_same : (length ct' <= length ct)%nat → x' = x;
  wn_other : ∀ y, 0 <= y < k.(fs).(sb).(sb_size) → in_use k.(fs).(sb) lg y = true → y ∉ owned L ib → y ≠ inob →
    (∀ b, 0 <= b < k.(fs).(sb).(sb_size) → y ≠ BBLOCK b k.(fs).(sb)) → lg' y = lg y;
  wn_use : ∀ y, 0 <= y < k.(fs).(sb).(sb_size) → in_use k.(fs).(sb) lg y = true → in_use k.(fs).(sb) lg' y = true;
  wn_owned : ∀ y, y ∈ owned L' ib' → y ∈ owned L ib ∨ 0 <= y < k.(fs).(sb).(sb_size) ∧ in_use k.(fs).(sb) lg y = false;
}.

(** The inode's block is not one of the file's. *)
Lemma wfile_other s size inob lg x L ib d : wfile st nl s size inob lg x L ib →
  (∀ y, 0 <= y < s.(sb_size) → in_use s (<[inob := d]> lg) y = in_use s lg y) → wfile st nl s size inob (<[inob := d]> lg) x L ib.
Proof using.
  intros [W1 W2 W3 W4 W5 W6] Hu. split; try done.
  - eapply bmap_ok_ext; [done|]. intros HL. apply fn_lookup_insert_ne, not_eq_sym. destruct (W5 ib); [|done]. unfold owned. rewrite decide_True by done. apply elem_snoc. by right.
  - intros y Hy. eapply mine_mono; [by apply W5|]. intros z Hz. by rewrite Hu.
  - split; [apply W6|]. rewrite Hu; apply W6.
Qed.

Lemma content_other lg lg' L ct : content lg L ct → (∀ y, y ∈ L → lg' y = lg y) → content lg' L ct.
Proof using.
  intros (C1 & C2 & C3) H. split_and!; [done|done|]. intros k Hk. rewrite H; [by apply C3|]. apply nth_elem, Nat.Div0.div_lt_upper_bound. lia.
Qed.

(** The inode with its new size is written back. *)
Lemma written_grown ip inob k bs lg x L ib ct off p t k1 bs1 lg1 x1 L1 ib1 :
  let s := k.(fs).(sb) in
  let z := (off + length p)%nat in
  wrote ip inob k bs lg x L ib ct off p t k1 bs1 lg1 x1 L1 ib1 → k.(fs).(inodes) !! ip = Some x → (off <= length ct)%nat → (length ct < z)%nat →
  inob = IBLOCK x.(i_inum) s → inob < k.(fs).(disk).(disksize) → home st nl inob → (∀ b, 0 <= b < s.(sb_size) → inob ≠ BBLOCK b s) → inob ∉ owned L ib → in_use s lg inob = true →
  (length bs1 < NBUF)%nat → Z.of_nat (length bs1) < nl - 1 →
  ∃ k' bs' lg' x', (ino_upd ip (set_i_size (Z.of_nat z));; iupdate ip) k1 = Ok tt k' ∧ written ip inob k lg x L ib ct (put_range ct off p) k' bs' lg' x' L1 ib1 ∧ (length bs' <= S (length bs1))%nat.
Proof using.
  intros s z [R1 I1 X1 S1 Y1 F1 D1 G1 O1 U1 W1] Hx Hoff Hz Hin Hd Hh Hnb Hno Hiu Hn1 Hn2. pose proof R1 as [_ Es1 _ Ed1 _]. fold s in F1, O1, U1, W1.
  pose proof F1 as [Q1 Q2 Q3 Q4 Q5 Q6]. set (x' := set_i_size (Z.of_nat z) x1).
  set (k2 := set_fs (set_inodes (<[ip := x']> k.(fs).(inodes)) k1.(fs)) k1). pose proof (ready_inodes c i pr st nl [] bs1 k1 lg1 (<[ip := x']> k.(fs).(inodes)) Y1) as Y2. fold k2 in Y2.
  pose proof (lookup_lt_Some _ _ _ Hx) as Hlt. pose proof Y2 as [Hw2 Hm2 Hb2 Ho2]. apply work_rest in Hw2.
  destruct (iupdate_ok c i pr st nl k2 bs1 lg1 ip x') as (k' & E & R & Ed & Hw' & Hlo & _); try done.
  { by apply list_lookup_insert_eq. }
  { cbn. rewrite X1, Es1, Ed1. cbn. fold s. rewrite <- Hin. lia. }
  { cbn. rewrite X1, Es1. cbn. fold s. by rewrite <- Hin. }
  assert (Ei1 : x'.(i_inum) = x.(i_inum)) by (cbn; by rewrite X1). cbn [fs k2 set_fs set_inodes sb] in Hw'. rewrite Ei1, Es1 in Hw'. fold s in Hw'. rewrite <- Hin in Hw'.
  assert (Elg : lg1 inob = lg inob) by (apply O1; [apply Q6|done|done|done]). rewrite Elg in Hw'. set (lg' := <[inob := _]> lg1) in Hw'.
  assert (Hu : ∀ y, 0 <= y < s.(sb_size) → in_use s lg' y = in_use s lg1 y) by (intros y Hy; unfold in_use, lg'; by rewrite fn_lookup_insert_ne by by apply Hnb).
  assert (Hr' : ran c k k').
  { eapply ran_trans; [exact R1|]. apply (ran_trans c k1 k2); [split; try done; apply fs_step_here|]. by apply run_ran. }
  assert (Hlen : length (put_range ct off p) = z) by (rewrite length_put_range by done; unfold z; lia).
  exists k', (with_block inob bs1), lg', x'. split_and!; [| |apply length_with_block].
  - mstep. replace (set_fs _ k1) with k2; [exact E|]. unfold k2, alter_ino. do 2 f_equal. rewrite I1.
    apply list_eq. intros j. destruct (decide (j = ip)) as [->|Hj]; [by rewrite list_lookup_alter_eq, !list_lookup_insert_eq|].
    by rewrite list_lookup_alter_ne, !list_lookup_insert_ne by done.
  - split; fold s; rewrite ?Hlen; try done.
    + by rewrite (fr_inodes _ _ _ R).
    + unfold x'. rewrite X1. done.
    + destruct Hr' as [_ Hs' _ Hd' _]. split; [by apply work_rest|rewrite Hs', Hd'|rewrite Hs'|by rewrite Hlo]; fold s.
      * cbn in Hm2. rewrite Es1, Ed1 in Hm2. eapply map_ok_mono; [exact Hm2|]. intros y Hy. fold s. by rewrite Hu.
      * cbn in Hb2. rewrite Es1 in Hb2. fold s in Hb2. rewrite Hu by (destruct Q6; lia). done.
    + apply (wfile_other s _ inob lg1); [|done]. split; try done. by destruct Q3.
    + apply (content_other lg1); [done|]. intros y Hy. unfold lg'. apply fn_lookup_insert_ne. apply not_eq_sym, (mi_inode _ _ _ _ _ _ _ (Q5 y ltac:(apply elem_of_app; by left))).
    + unfold lg'. rewrite fn_lookup_insert, bool_decide_true by done. done.
    + lia.
    + intros y Hy Hyu Hyo Hyi Hyb. unfold lg'. rewrite fn_lookup_insert_ne by done. auto.
    + intros y Hy Hyu. rewrite Hu by done. auto.
Qed.

(** An inode in memory with its file, and the block it is kept in. *)
Record file_open (k : kernel) (lg : Z → list Z) (ip : nat) (inob : Z) (x : inode) (L : list Z) (ib : Z) (ct : list Z) : Prop := {
  fo_inode : k.(fs).(inodes) !! ip = Some x;
  fo_file : wfile st nl k.(fs).(sb) k.(fs).(disk).(disksize) inob lg x L ib;
  fo_size : x.(i_size) = Z.of_nat (length ct);
  fo_data : content lg L ct;
  fo_block : inob = IBLOCK x.(i_inum) k.(fs).(sb);
  fo_disk : inob < k.(fs).(disk).(disksize);
  fo_home : home st nl inob;
  fo_map : ∀ b, 0 <= b < k.(fs).(sb).(sb_size) → inob ≠ BBLOCK b k.(fs).(sb);
}.

(** Blocks of the file that a write touches. *)
Definition touched (off n : nat) : nat := (off mod 512 + n + 511) / 512.

Lemma writei_gen_ok fetch k bs lg ip inob x L ib ct off p :
  let s := k.(fs).(sb) in
  let n := length p in
  ready c i pr st nl [] bs k lg → file_open k lg ip inob x L ib ct → source fetch k p → Z.of_nat n < 2 ^ 32 → is_u32 (Z.of_nat off) →
  ((length ct < off)%nat ∨ MAXFILE * BSIZE < Z.of_nat (off + n) → writei_gen fetch ip (Z.of_nat off) (Z.of_nat n) k = Ok (-1) k) ∧
  ((off <= length ct)%nat → Z.of_nat (off + n) <= MAXFILE * BSIZE →
   (length bs + 6 * touched off n < NBUF)%nat → Z.of_nat (length bs + 6 * touched off n) < nl - 1 →
   has_free s lg (need (length L) (nblk (Nat.max (length ct) (off + n)))) →
   ∃ k' bs' lg' x' L' ib', writei_gen fetch ip (Z.of_nat off) (Z.of_nat n) k = Ok (Z.of_nat n) k' ∧
     written ip inob k lg x L ib ct (put_range ct off p) k' bs' lg' x' L' ib' ∧ (length bs' <= length bs + 6 * touched off n + 1)%nat).
Proof using.
  intros s n Hr [Hx Hf Hsz Hdat Hin Hd Hh Hnb] Hsrc Hn32 Ho32. pose proof Hf as [Q1 Q2 Q3 Q4 Q5 Q6]. fold s in Q5, Q6, Hin, Hnb.
  change (MAXFILE * BSIZE) with 71680. unfold is_u32 in Ho32. split.
  - intros Hbad. unfold writei_gen, ino_get. mstep by (by rewrite Hx). rewrite (proj2 (Z.eqb_neq _ _) Q2), Hsz. fold n in Hbad.
    destruct ((Z.of_nat (length ct) <? Z.of_nat off) || (u32 (Z.of_nat off + Z.of_nat n) <? Z.of_nat off)) eqn:Eb; [done|].
    apply orb_false_iff in Eb as [E1%Z.ltb_ge E2%Z.ltb_ge]. change (MAXFILE * BSIZE) with 71680.
    rewrite (proj2 (Z.ltb_lt 71680 _)); [done|]. destruct Hbad as [?|Hbad]; [lia|]. words_mod. Z.to_euclidean_division_equations. lia.
  - intros Hoff Hmax Hn1 Hn2 Hfree. unfold touched in Hn1, Hn2. set (r := ((off mod 512 + n + 511) / 512)%nat) in *.
    assert (Hu : u32 (Z.of_nat off + Z.of_nat n) = Z.of_nat (off + n)) by (rewrite u32_small; [lia|unfold is_u32; lia]).
    pose proof (Nat.mod_upper_bound off 512 ltac:(done)) as Hmu. pose proof (Nat.div_mod_eq (off mod 512 + n + 511) 512) as Hdm. fold r in Hdm.
    pose proof (Nat.mod_upper_bound (off mod 512 + n + 511) 512 ltac:(done)) as Hmu2.
    destruct (writei_loop_ok fetch ip inob k bs lg x L ib ct off p (nblk (Nat.max (length ct) (off + n))) r (Z.to_nat (Z.of_nat n / BSIZE + 3)) [] 0 k bs lg x L ib) as (t' & k1 & bs1 & lg1 & x1 & L1 & ib1 & E1 & Hw1 & Ht');
      [by apply wrote_nil|done|done|done|done|cbn; lia|lia|reflexivity|done| |cbn [length]; rewrite Nat.add_0_r; fold n; lia|lia|lia|].
    { unfold BSIZE. Z.to_euclidean_division_equations. lia. }
    cbn [length] in E1. rewrite Nat.add_0_r in E1. fold n in E1. pose proof (wr_log _ _ _ _ _ _ _ _ _ _ _ _ _ _ _ _ _ _ Hw1) as Hlog.
    assert (Hx1 : k1.(fs).(inodes) !! ip = Some x1) by (rewrite (wr_inodes _ _ _ _ _ _ _ _ _ _ _ _ _ _ _ _ _ _ Hw1); apply list_lookup_insert_eq; by eapply lookup_lt_Some).
    assert (Hsz1 : x1.(i_size) = Z.of_nat (length ct)) by (rewrite (wr_inode _ _ _ _ _ _ _ _ _ _ _ _ _ _ _ _ _ _ Hw1); done).
    assert (Hrun : ∀ kz, when ((0 <? Z.of_nat n) && (Z.of_nat (length ct) <? Z.of_nat (off + n))) (ino_upd ip (set_i_size (Z.of_nat (off + n)));; iupdate ip) k1 = Ok tt kz →
      writei_gen fetch ip (Z.of_nat off) (Z.of_nat n) k = Ok (Z.of_nat n) kz).
    { intros kz Ez. unfold writei_gen, ino_get. mstep by (by rewrite Hx). rewrite (proj2 (Z.eqb_neq _ _) Q2), Hsz, Hu. change (MAXFILE * BSIZE) with 71680.
      rewrite !(proj2 (Z.ltb_ge _ _)) by lia. cbn [orb]. mstep by exact E1. mstep by (by rewrite Hx1). rewrite Hsz1. mstep by exact Ez. rewrite s32_small; [done|]. unfold is_s32. lia. }
    destruct (decide (length ct < off + n)%nat) as [Hgrow|Hin2].
    + destruct (written_grown ip inob k bs lg x L ib ct off p t' k1 bs1 lg1 x1 L1 ib1) as (k' & bs' & lg' & x' & E2 & Hwn & Hbs'); try done; try lia.
      { intros Hino. by destruct (Q5 inob Hino). }
      { apply Q6. }
      exists k', bs', lg', x', L1, ib1. split_and!; [|done|unfold touched; fold r; lia]. apply Hrun. rewrite !(proj2 (Z.ltb_lt _ _)) by lia. exact E2.
    + exists k1, bs1, lg1, x1, L1, ib1. split_and!; [apply Hrun; by rewrite (proj2 (Z.ltb_ge (Z.of_nat (length ct)) _)), andb_false_r by lia| |unfold touched; fold r; lia].
      destruct Hw1 as [R1 I1 X1 S1 Y1 F1 D1 G1 O1 U1 W1]. assert (Hxx : x1 = x) by (apply S1; fold n; lia).
      assert (Hlen : length (put_range ct off p) = length ct) by (rewrite length_put_range by done; fold n; lia).
      split; fold s; try done.
      * rewrite Hlen, <- Hsz. rewrite Hxx. by destruct x.
      * rewrite bool_decide_false by (rewrite Hlen; lia). apply O1; [apply Q6|apply Q6| |done]. intros Hino. by destruct (Q5 inob Hino).
      * intros y Hy Hyu Hyo _ Hyb. by apply O1.
Qed.

Lemma fs_step_reads k f k' va p : fs_step c k f k' → reads k va p → reads k' va p.
Proof using.
  intros (h & ps & -> & Hs & _) Hp j b Hb. destruct (Hp j b Hb) as (a & Ha & Hr). exists a. split; [|done]. unfold xlate in *. cbn.
  assert (h.(cr3) = k.(hw).(cr3)) as -> by (destruct Hs as [->|[_ ->]]; done). by assert (h.(lapic) = k.(hw).(lapic)) as -> by (destruct Hs as [->|[_ ->]]; done).
Qed.

(** Bytes in memory, and in a variable of the kernel. *)
Lemma source_memory k va p : reads k va p → source (λ j, ldb (u32 (va + j))) k p.
Proof using.
  intros Hp k' t m Hs Htm. eapply fs_step_reads in Hp; [|exact Hs]. revert t Htm. induction m as [|m IH]; intros t Htm; [done|]. cbn [fetch_list].
  destruct (lookup_lt_is_Some_2 p t ltac:(lia)) as [b Hb]. destruct (Hp t b Hb) as (a & Ha & Hrd).
  mstep by exact (ldb_xlate _ _ _ Ha). rewrite Hrd. replace (Z.of_nat t + 1) with (Z.of_nat (S t)) by lia. mstep by (apply IH; lia). by rewrite (drop_S p b t Hb).
Qed.

Lemma source_local k p : source (byte_at p) k p.
Proof using.
  intros k' t m _ Htm. revert t Htm. induction m as [|m IH]; intros t Htm; [done|]. cbn [fetch_list].
  destruct (lookup_lt_is_Some_2 p t ltac:(lia)) as [b Hb]. mstep by (unfold byte_at; rewrite Nat2Z.id, Hb; by rewrite (proj2 (Z.leb_le 0 _)) by lia).
  replace (Z.of_nat t + 1) with (Z.of_nat (S t)) by lia. mstep by (apply IH; lia). by rewrite (drop_S p b t Hb).
Qed.

End writei.

(** What writei() leaves is a file that readi() accepts. *)
Lemma written_file_at c i pr st nl ip inob k lg x L ib ct ct' k' bs' lg' x' L' ib' :
  written c i pr st nl ip inob k lg x L ib ct ct' k' bs' lg' x' L' ib' → file_at k.(fs).(disk).(disksize) lg' x' L' ib' ct'.
Proof.
  intros [_ _ Hx _ [F1 F2 F3 F4 F5 F6] Hd _ _ _ _ _]. split; try done; [by rewrite Hx|]. intros b Hb. destruct (F5 b Hb). lia.
Qed.

Lemma writei_ok c i pr st nl k bs lg ip inob x L ib ct src off p :
  let s := k.(fs).(sb) in
  let n := length p in
  ready c i pr st nl [] bs k lg → file_open st nl k lg ip inob x L ib ct → reads k src p → Z.of_nat n < 2 ^ 32 → is_u32 (Z.of_nat off) →
  ((length ct < off)%nat ∨ MAXFILE * BSIZE < Z.of_nat (off + n) → writei ip src (Z.of_nat off) (Z.of_nat n) k = Ok (-1) k) ∧
  ((off <= length ct)%nat → Z.of_nat (off + n) <= MAXFILE * BSIZE →
   (length bs + 6 * touched off n < NBUF)%nat → Z.of_nat (length bs + 6 * touched off n) < nl - 1 →
   has_free s lg (need (length L) (nblk (Nat.max (length ct) (off + n)))) →
   ∃ k' bs' lg' x' L' ib', writei ip src (Z.of_nat off) (Z.of_nat n) k = Ok (Z.of_nat n) k' ∧
     written c i pr st nl ip inob k lg x L ib ct (put_range ct off p) k' bs' lg' x' L' ib' ∧ (length bs' <= length bs + 6 * touched off n + 1)%nat).
Proof. intros s n Hr Hf Hp Hn Ho. apply writei_gen_ok; try done. by apply source_memory. Qed.

(** C20: writei() on every branch, inside a transaction, for a file of bytes
    [ct]. It fails, with nothing changed, when the offset is past the end or the
    file would pass MAXFILE blocks. Otherwise, with room in the log and free
    blocks enough, it returns n, and the file is [ct] with the n bytes at src
    written over it from the offset on, across direct and indirect blocks. New
    blocks were free ones and are now in use; a longer file has its inode
    updated in the inode's block; no other block in use and no other inode has
    changed. *)
Theorem writei_writes c i pr st nl k bs lg ip inob x L ib ct src off p :
  let s := k.(fs).(sb) in
  let n := length p in
  ready c i pr st nl [] bs k lg → file_open st nl k lg ip inob x L ib ct → reads k src p → Z.of_nat n < 2 ^ 32 → is_u32 (Z.of_nat off) →
  ((length ct < off)%nat ∨ MAXFILE * BSIZE < Z.of_nat (off + n) → writei ip src (Z.of_nat off) (Z.of_nat n) k = Ok (-1) k) ∧
  ((off <= length ct)%nat → Z.of_nat (off + n) <= MAXFILE * BSIZE →
   (length bs + 6 * touched off n < NBUF)%nat → Z.of_nat (length bs + 6 * touched off n) < nl - 1 →
   has_free s lg (need (length L) (nblk (Nat.max (length ct) (off + n)))) →
   ∃ k' bs' lg' x' L' ib', writei ip src (Z.of_nat off) (Z.of_nat n) k = Ok (Z.of_nat n) k' ∧
     written c i pr st nl ip inob k lg x L ib ct (put_range ct off p) k' bs' lg' x' L' ib' ∧ (length bs' <= length bs + 6 * touched off n + 1)%nat).
Proof. apply writei_ok. Qed.

(** Writei() and then readi() at the same offset: both return n, and the
    bytes that were at src are at dst. *)
Theorem writei_readi c i pr st nl k bs lg ip inob x L ib ct src dst off p f :
  let s := k.(fs).(sb) in
  let n := length p in
  ready c i pr st nl [] bs k lg → file_open st nl k lg ip inob x L ib ct → reads k src p → window k dst (Z.of_nat n) f →
  (off <= length ct)%nat → Z.of_nat (off + n) <= MAXFILE * BSIZE →
  (length bs + 6 * touched off n + 1 < NBUF)%nat → Z.of_nat (length bs + 6 * touched off n) < nl - 1 →
  has_free s lg (need (length L) (nblk (Nat.max (length ct) (off + n)))) →
  ∃ k', (w ← writei ip src (Z.of_nat off) (Z.of_nat n); r ← readi ip dst (Z.of_nat off) (Z.of_nat n); mret (w, r)) k = Ok (Z.of_nat n, Z.of_nat n) k' ∧
    ∀ t b, p !! t = Some b → rd k'.(mem) (f (Z.of_nat t)) = u8 b.
Proof.
  intros s n Hr Hf Hp Hw Hoff Hmax Hn1 Hn2 Hfree. change (MAXFILE * BSIZE) with 71680 in Hmax.
  destruct (writei_ok c i pr st nl k bs lg ip inob x L ib ct src off p Hr Hf Hp) as [_ H]; [fold n; lia|unfold is_u32; lia|].
  destruct H as (k1 & bs1 & lg1 & x1 & L1 & ib1 & E1 & Hwn & Hbs1); try done; [fold n; lia|]. fold n in E1. pose proof (written_file_at _ _ _ _ _ _ _ _ _ _ _ _ _ _ _ _ _ _ _ _ Hwn) as Hfa.
  destruct Hwn as [[Hst Hsb _ Hd _] Hi _ Hr1 _ _ _ _ _ _ _].
  assert (Hlen : length (put_range ct off p) = Nat.max (length ct) (off + n)) by by apply length_put_range.
  assert (Hm : Z.to_nat (Z.min (Z.of_nat n) (Z.of_nat (length (put_range ct off p)) - Z.of_nat off)) = n) by lia.
  assert (Hb : take n (drop off (put_range ct off p)) = p).
  { apply list_eq. intros j. destruct (decide (j < n)%nat) as [Hj|]; [|rewrite lookup_take_ge by lia; symmetry; by apply lookup_ge_None_2; fold n; lia].
    rewrite lookup_take_lt, lookup_drop, put_range_lookup by done. rewrite decide_True by (fold n; lia). f_equal. lia. }
  destruct (readi_ok c i pr st nl k1 bs1 lg1 ip x1 L1 ib1 (put_range ct off p) dst (Z.of_nat off) (Z.of_nat n) f) as [_ H2].
  { apply work_rest, Hr1. }
  { fold n in Hbs1. lia. }
  { rewrite Hi. apply list_lookup_insert_eq. eapply lookup_lt_Some, Hf. }
  { by rewrite Hd. }
  { unfold is_u32. lia. }
  { unfold is_u32. lia. }
  { rewrite Hm. by eapply fs_step_window. }
  rewrite Hm, Nat2Z.id, Hb in H2. destruct H2 as (k2 & E2 & _ & _ & D & _); [lia|lia|].
  exists k2. split; [by mstep by exact E1; mstep by exact E2|done].
Qed.

(** ** An example *)

(** A file of five bytes in block 49, blocks from 50 on free, and memory full of
    letters from 0x80100000 on. *)
Definition demo_wdisk : disk_t := mk_disk 100 (<[49 := codes "hello" ++ replicate 507 0]> demo_map.(dk_block)) [].
Definition demo_wino : inode := mk_inode 1 1 1 1 T_FILE 0 0 1 5 (49 :: replicate 12 0).
Definition demo_letters : list Z := replicate 600 65.
Definition demo_wbase : kernel := with_inodes demo_sb [demo_wino] (demo_open demo_wdisk 0 30).
Definition demo_writer : kernel := set_mem (put_at (λ j, 0x80100000 + j) 0 demo_letters demo_wbase.(mem)) demo_wbase.

Lemma demo_wdisk_len b : length (demo_wdisk.(dk_block) b) = Z.to_nat BSIZE.
Proof.
  unfold demo_wdisk, demo_map. cbn [dk_block]. destruct (decide (b = 49)) as [->|]; [by rewrite fn_lookup_insert|]. rewrite fn_lookup_insert_ne by done.
  destruct (decide (b = 40)) as [->|]; [by rewrite fn_lookup_insert|]. by rewrite fn_lookup_insert_ne.
Qed.

Lemma demo_wuse b : 0 <= b < demo_sb.(sb_size) → in_use demo_sb demo_wdisk.(dk_block) b = (b <? 50).
Proof.
  intros Hb. destruct (demo_use b Hb) as [E <-]. unfold in_use. rewrite E. unfold demo_wdisk. cbn [dk_block]. by rewrite fn_lookup_insert_ne.
Qed.

Lemma set_mem_fs m k : (set_mem m k).(fs) = k.(fs).
Proof. done. Qed.

Lemma demo_writer_ready : ready 0 0 demo_pr 2 30 [] [] demo_writer demo_wdisk.(dk_block) ∧ demo_writer.(fs).(disk) = demo_wdisk.
Proof.
  destruct (demo_open_ok demo_wdisk 0 30 demo_wdisk_len eq_refl ltac:(lia) ltac:(lia) eq_refl) as [Hr Ed].
  assert (Ed2 : demo_writer.(fs).(disk) = demo_wdisk) by (unfold demo_writer, demo_wbase; rewrite set_mem_fs, with_inodes_disk; exact Ed). assert (Esb : demo_writer.(fs).(sb) = demo_sb) by reflexivity.
  split; [|exact Ed2]. split.
  - apply work_rest, at_rest_mem. exact (with_inodes_rest _ _ _ _ _ _ _ _ _ _ _ Hr).
  - rewrite Ed2, Esb. split.
    + cbn. lia.
    + intros b Hb. destruct (demo_use b Hb) as [-> _]. unfold home. cbn. lia.
    + intros b Hb Hu. rewrite demo_wuse in Hu by done. apply Z.ltb_ge in Hu.
      cbn in Hb. split_and!; [cbn; lia|unfold home; lia|]. intros b' Hb'. destruct (demo_use b' Hb') as [-> _]. lia.
  - rewrite Esb. apply demo_wuse. cbn. lia.
  - vm_compute. discriminate.
Qed.

Lemma demo_writer_file : file_open 2 30 demo_writer demo_wdisk.(dk_block) 0 32 demo_wino [49] 0 (codes "hello").
Proof.
  destruct demo_writer_ready as [_ Ed]. assert (Esb : demo_writer.(fs).(sb) = demo_sb) by reflexivity. split; rewrite ?Esb, ?Ed; try reflexivity.
  - split; [reflexivity|discriminate| | | |].
    + split; [reflexivity|intros j Hj; do 12 (destruct j as [|j]; [reflexivity|]); lia|reflexivity|cbn [length]; lia|cbn [length]; lia].
    + apply NoDup_singleton.
    + unfold owned. rewrite decide_False, app_nil_r by (cbn; lia). intros b ->%list_elem_of_singleton.
      split; [cbn; lia|cbn; lia|unfold home; lia| |rewrite demo_wuse by (cbn; lia); reflexivity|lia]. intros b' Hb'. destruct (demo_use b' Hb') as [-> _]. lia.
    + split; [cbn; lia|]. rewrite demo_wuse by (cbn; lia). reflexivity.
  - split_and!; [cbn; lia|cbn; lia|]. intros k Hk. change (length [49]) with 1%nat in Hk. rewrite Nat.mod_small, Nat.div_small by lia. cbn [nth]. unfold demo_wdisk. cbn [dk_block].
    rewrite fn_lookup_insert. destruct (decide (k < 5)%nat) as [Hl|]; [by rewrite app_nth1 by done|]. rewrite app_nth2 by (cbn; lia).
    rewrite (nth_overflow (codes "hello")) by (cbn; lia). rewrite nth_lookup, lookup_replicate_2; [done|]. change (length (codes "hello")) with 5%nat. lia.
  - unfold home. lia.
  - intros b Hb. destruct (demo_use b Hb) as [-> _]. lia.
Qed.

Lemma demo_writer_reads : reads demo_writer 0x80100000 demo_letters.
Proof.
  intros j b Hb. assert (Hj : (j < 600)%nat) by (apply lookup_lt_Some in Hb; unfold demo_letters in Hb; by rewrite length_replicate in Hb).
  exists (0x80100000 + Z.of_nat j). split.
  - rewrite u32_small by (unfold is_u32; lia). unfold xlate. rewrite u32_small by (unfold is_u32; lia). by rewrite (proj2 (Z.leb_le _ _)) by (unfold KERNBASE; lia).
  - unfold demo_writer. cbn [mem set_mem]. rewrite (put_at_rd demo_wbase 0x80100000 600 (λ j, 0x80100000 + j) _ j b); [| |unfold demo_letters; rewrite length_replicate; lia|done].
    + unfold demo_letters in Hb. apply lookup_replicate in Hb as [-> _]. done.
    + apply kernel_window; unfold KERNBASE; lia.
Qed.

Lemma demo_writer_free n : (n <= 10)%nat → has_free demo_sb demo_wdisk.(dk_block) n.
Proof.
  intros Hn. exists ((λ j, 50 + Z.of_nat j) <$> seq 0 n). split_and!.
  - apply NoDup_fmap; [intros a b H; lia|apply NoDup_seq].
  - by rewrite length_fmap, length_seq.
  - intros b (j & -> & Hj%elem_of_seq)%list_elem_of_fmap. split; [cbn; lia|]. rewrite demo_wuse by (cbn; lia). apply Z.ltb_ge. lia.
Qed.

Lemma writei_writes_witness : ∃ k' x', writei 0 0x80100000 4 600 demo_writer = Ok 600 k' ∧ k'.(fs).(inodes) !! 0%nat = Some x' ∧ x'.(i_size) = 604 ∧
  writei 0 0x80100000 6 600 demo_writer = Ok (-1) demo_writer.
Proof.
  destruct demo_writer_ready as [Hr Ed].
  destruct (writei_writes 0 0 demo_pr 2 30 demo_writer [] demo_wdisk.(dk_block) 0 32 demo_wino [49] 0 (codes "hello") 0x80100000 4 demo_letters Hr demo_writer_file demo_writer_reads) as [_ H].
  - reflexivity.
  - unfold is_u32. lia.
  - destruct (writei_writes 0 0 demo_pr 2 30 demo_writer [] demo_wdisk.(dk_block) 0 32 demo_wino [49] 0 (codes "hello") 0x80100000 6 demo_letters Hr demo_writer_file demo_writer_reads) as [H6 _].
    + reflexivity.
    + unfold is_u32. lia.
    + destruct H as (k' & bs' & lg' & x' & L' & ib' & E & Hw & _).
      * cbn. lia.
      * vm_compute. discriminate.
      * apply Nat.ltb_lt. vm_compute. reflexivity.
      * vm_compute. reflexivity.
      * apply demo_writer_free. apply Nat.leb_le. vm_compute. reflexivity.
      * exists k', x'. split; [exact E|]. split; [rewrite (wn_inodes _ _ _ _ _ _ _ _ _ _ _ _ _ _ _ _ _ _ _ _ Hw); reflexivity|]. split; [rewrite (wn_inode _ _ _ _ _ _ _ _ _ _ _ _ _ _ _ _ _ _ _ _ Hw); reflexivity|].
        apply H6. left. cbn. lia.
Defined.

Lemma writei_readi_witness : ∃ k', (w ← writei 0 0x80100000 4 600; r ← readi 0 0x80200000 4 600; mret (w, r)) demo_writer = Ok (600, 600) k' ∧ rd k'.(mem) 0x802001ff = 65.
Proof.
  destruct demo_writer_ready as [Hr Ed].
  destruct (writei_readi 0 0 demo_pr 2 30 demo_writer [] demo_wdisk.(dk_block) 0 32 demo_wino [49] 0 (codes "hello") 0x80100000 0x80200000 4 demo_letters (λ j, 0x80200000 + j)
    Hr demo_writer_file demo_writer_reads) as (k' & E & D).
  - apply kernel_window; unfold KERNBASE; cbn; lia.
  - cbn. lia.
  - vm_compute. discriminate.
  - apply Nat.ltb_lt. vm_compute. reflexivity.
  - vm_compute. reflexivity.
  - apply demo_writer_free. apply Nat.leb_le. vm_compute. reflexivity.
  - exists k'. split; [exact E|]. exact (D 511%nat 65 eq_refl).
Defined.
