(* ===== verification/Types.v ===== *)
(** * Types: the kernel's tables and the pointers into them

    [typed n] is the type of the kernel's state on a machine of [n]
    processors: every table has its declared size, integer fields are in the
    range of their C types, and every pointer to an object of a table (an open
    file of a process, its current directory, the inode of a file, the links of
    the buffer list, ...) is null or points into that table. [keeps n Q m] is
    the triple of that invariant: started in a typed state, [m] ends in one
    however it ends (returning, panicking, faulting or giving the processor
    away), what it returns satisfies [Q], and it does not access a table
    outside its bounds. The rules and the tactic [keeps] follow the structure
    of the code; the lemmas here are for the processors, locks, memory and
    processes. *)
From S2P Require Import Prelude.
From S2P Require Import Kernel.
From S2P Require Import Spinlock.
From S2P Require Import Memory.
From S2P Require Import Libstr.
From S2P Require Import Cprintf.
From S2P Require Import Kalloc.
From S2P Require Import Sched.
From S2P Require Import Sleeplock.
From S2P Require Import Vm.
From S2P Require Import Proc.

(** ** The types *)

(** A pointer into a table of [n] objects, or null. *)
Definition below (n : nat) (o : option nat) : Prop :=
  match o with Some i => (i < n)%nat | None => True end.

Definition bufptr_ty (p : bufptr) : Prop :=
  match p with BBuf i => (i < NBUF)%nat | BHead => True end.

Record cpu_ty (x : cpu) : Prop := {
  cty_ncli : is_s32 x.(ncli);
  cty_proc : below NPROC x.(cproc);
}.

Record proc_ty (x : proc) : Prop := {
  pty_sz : is_u32 x.(sz);
  pty_pid : is_s32 x.(pid);
  pty_parent : below NPROC x.(parent);
  pty_killed : is_s32 x.(killed);
  pty_ofile : length x.(ofile) = NOFILE;
  pty_files : Forall (below NFILE) x.(ofile);
  pty_cwd : below NINODE x.(cwd);
  pty_name : length x.(name) = NAMELEN;
  pty_prio : is_u32 x.(prio);
}.

Record inode_ty (x : inode) : Prop := {
  ity_ref : is_s32 x.(i_ref);
  ity_type : is_s16 x.(i_type);
  ity_major : is_s16 x.(i_major);
  ity_minor : is_s16 x.(i_minor);
  ity_nlink : is_s16 x.(i_nlink);
  ity_addrs : length x.(i_addrs) = 13%nat;
}.

Record file_ty (x : file) : Prop := {
  fty_ref : is_s32 x.(f_ref);
  fty_ip : below NINODE x.(f_ip);
  fty_off : is_u32 x.(f_off);
}.

Record buf_ty (x : buf) : Prop := {
  bty_refcnt : is_u32 x.(b_refcnt);
  bty_prev : bufptr_ty x.(b_prev);
  bty_next : bufptr_ty x.(b_next);
  bty_qnext : below NBUF x.(b_qnext);
}.

(** A table of [n] objects of type [P]. *)
Definition table {A} (n : nat) (P : A → Prop) (l : list A) : Prop := length l = n ∧ Forall P l.

Record typed (n : nat) (k : kernel) : Prop := {
  ty_cpus : table n cpu_ty k.(hw).(cpus);
  ty_procs : table NPROC proc_ty k.(pt).(procs);
  ty_nextpid : is_s32 k.(pt).(nextpid);
  ty_initproc : below NPROC k.(pt).(initproc);
  ty_ticks : is_u32 k.(ticks);
  ty_files : table NFILE file_ty k.(ftable);
  ty_inodes : table NINODE inode_ty k.(fs).(inodes);
  ty_bufs : table NBUF buf_ty k.(fs).(bufs);
  ty_bhead_prev : bufptr_ty k.(fs).(bhead_prev);
  ty_bhead_next : bufptr_ty k.(fs).(bhead_next);
  ty_log : length k.(fs).(log).(lh_block) = Z.to_nat LOGSIZE;
  ty_idequeue : below NBUF k.(ide).(idequeue);
}.

(** The faults of an access outside a table. *)
Definition wild (e : fault) : bool :=
  match e with
  | CpuFault w => bool_decide (w ∈ ["cpus"; "ptable.proc"; "ofile"; "ftable.file"; "icache.inode"; "bcache.buf"]%string)
  | _ => false
  end.

Lemma table_alter {A} n (P : A → Prop) f i l : (∀ x, P x → P (f x)) → table n P l → table n P (alter f i l).
Proof. intros Hf [Hl HP]. split; [by rewrite length_alter|]. apply Forall_alter; [done|]. intros x _ Hx. by apply Hf. Qed.

Lemma table_lookup {A} n (P : A → Prop) l i : table n P l → (i < n)%nat → ∃ x, l !! i = Some x ∧ P x.
Proof.
  intros [Hl HP] Hi. destruct (lookup_lt_is_Some_2 l i) as [x Hx]; [by rewrite Hl|].
  exists x. split; [done|]. by eapply Forall_lookup_1.
Qed.

Lemma below_lookup m l i : Forall (below m) l → below m (default None (l !! i)).
Proof. intros HP. destruct (l !! i) eqn:E; [|done]. exact (Forall_lookup_1 _ _ _ _ HP E). Qed.

(** ** The triple *)

Definition keeps {A} (n : nat) (Q : A → Prop) (m : K A) : Prop := ∀ k, typed n k →
  match m k with
  | Ok a k' => typed n k' ∧ Q a
  | Err e k' => typed n k' ∧ wild e = false
  | Swtch k' => typed n k'
  end.

(** The result does not matter. *)
Definition any {A} (_ : A) : Prop := True.
#[export] Hint Extern 0 (any _) => exact I : core.

Section rules.
Context {A B : Type} (n : nat).
Implicit Types (Q : A → Prop) (R : B → Prop).

Lemma keeps_ret Q a : Q a → keeps n Q (mret a).
Proof. intros HQ k Hk. done. Qed.

Lemma keeps_weaken Q Q' (m : K A) : keeps n Q m → (∀ a, Q a → Q' a) → keeps n Q' m.
Proof. intros Hm HQ k Hk. specialize (Hm k Hk). destruct (m k) as [a k'|e k'|k']; naive_solver. Qed.

Lemma keeps_any Q (m : K A) : keeps n Q m → keeps n any m.
Proof. intros Hm. by eapply keeps_weaken. Qed.

Lemma keeps_bind Q R (m : K A) (f : A → K B) : keeps n Q m → (∀ a, Q a → keeps n R (f a)) → keeps n R (m ≫= f).
Proof.
  intros Hm Hf k Hk. specialize (Hm k Hk). unfold mbind, M_bind. destruct (m k) as [a k'|e k'|k']; try done.
  destruct Hm as [Hk' HQ]. by apply (Hf a HQ).
Qed.

Lemma keeps_fail Q e : wild e = false → keeps n Q (fail e : K A).
Proof. intros He k Hk. done. Qed.

Lemma keeps_swtch Q : keeps n Q (swtch_away : K A).
Proof. intros k Hk. done. Qed.

Lemma keeps_get (f : kernel → A) : keeps n (λ a, ∃ k, typed n k ∧ a = f k) (get f).
Proof. intros k Hk. split; [done|]. by exists k. Qed.

End rules.

Lemma keeps_modify n f : (∀ k, typed n k → typed n (f k)) → keeps n any (modify f).
Proof. intros Hf k Hk. split; [by apply Hf|done]. Qed.

Lemma keeps_when n (b : bool) m : (b = true → keeps n any m) → keeps n any (when b m).
Proof. intros Hm. destruct b; [by apply Hm|]. by apply keeps_ret. Qed.

Lemma keeps_for_range n {R} (Q : R → Prop) cnt from body :
  (∀ i, (i < from + cnt)%nat → keeps n (λ o, ∀ v, o = Some v → Q v) (body i)) →
  keeps n (λ o, ∀ v, o = Some v → Q v) (for_range cnt from body).
Proof.
  revert from. induction cnt as [|cnt IH]; intros from Hb; cbn [for_range]; [by apply keeps_ret|].
  eapply keeps_bind; [apply Hb; lia|]. intros [v|] Hv; [by apply keeps_ret|].
  apply IH. intros i Hi. apply Hb. lia.
Qed.

Lemma keeps_for_acc n {L} (P : L → Prop) cnt from body acc :
  (∀ i a, (i < from + cnt)%nat → P a → keeps n P (body i a)) → P acc → keeps n P (for_acc cnt from body acc).
Proof.
  revert from acc. induction cnt as [|cnt IH]; intros from acc Hb Ha; cbn [for_acc]; [by apply keeps_ret|].
  eapply keeps_bind; [apply Hb; [lia|done]|]. intros a' Ha'. apply IH; [|done]. intros i a Hi. apply Hb. lia.
Qed.

(** The value of a loop turn: the next variables or the result. *)
Definition turn_ty {L R} (P : L → Prop) (Q : R → Prop) (r : L + R) : Prop :=
  match r with inl l => P l | inr v => Q v end.

Lemma keeps_while_fuel n {L R} (P : L → Prop) (Q : R → Prop) fuel body l :
  (∀ l, P l → keeps n (turn_ty P Q) (body l)) → P l → keeps n Q (while_fuel fuel body l).
Proof.
  intros Hb. revert l. induction fuel as [|fuel IH]; intros l Hl; cbn [while_fuel]; [by apply keeps_fail|].
  eapply keeps_bind; [by apply Hb|]. intros [l'|v] Hr; [by apply IH|by apply keeps_ret].
Qed.

Lemma keeps_while32 n {L R} (P : L → Prop) (Q : R → Prop) body l :
  (∀ l, P l → keeps n (turn_ty P Q) (body l)) → P l → keeps n Q (while32 body l).
Proof.
  intros Hb Hl. unfold while32. apply (keeps_bind n (turn_ty P Q)).
  - generalize 32%nat as p. intros p. revert l Hl. induction p as [|p IH]; intros l Hl; cbn [while_pow]; [by apply Hb|].
    eapply keeps_bind; [by apply IH|]. intros [l'|v] Hr; [by apply IH|by apply keeps_ret].
  - intros [l'|v] Hr; [by apply keeps_fail|by apply keeps_ret].
Qed.

(** ** Automation

    [kside] proves what the rules leave: that a value is in the range of its
    type, that a modified record or state is typed, that an index is in range. *)
Create HintDb keeps discriminated.
#[export] Hint Constants Opaque : keeps.
Create HintDb kty.

Ltac kfacts :=
  cbn [fst snd] in *;
  repeat match goal with
  | H : any _ |- _ => clear H
  | H : _ ∧ _ |- _ => destruct H
  | H : ∃ _, _ |- _ => destruct H
  | H : Some _ = Some _ |- _ => injection H as H
  | H : ∀ v, Some ?a = Some v → _ |- _ => specialize (H a eq_refl); cbv beta in H
  | H : ∀ v, None = Some v → _ |- _ => clear H
  | H : turn_ty _ _ _ |- _ => unfold turn_ty in H
  | H : Forall (below ?m) ?l, E : ?l !! _ = Some (Some ?i) |- _ =>
      lazymatch goal with
      | _ : (i < m)%nat |- _ => fail
      | _ => assert (i < m)%nat by exact (Forall_lookup_1 _ _ _ _ H E)
      end
  end; subst; cbv beta in *.

(** The priority of a new process. *)
Lemma prio_range z : is_u32 (z `mod` 10 + 1).
Proof. pose proof (Z.mod_pos_bound z 10). unfold is_u32. lia. Qed.

Ltac krange :=
  first [ assumption | apply prio_range | apply u32_range | apply s32_range | apply s16_range
        | solve [unfold is_u32, is_s32, is_s16, KERNBASE, PGSIZE in *; rewrite ?Z.ltb_ge in *; lia] ].

(** The facts of the types in the context. *)
Ltac ktypes :=
  repeat match goal with
  | H : cpu_ty _ |- _ => destruct H
  | H : proc_ty _ |- _ => destruct H
  | H : inode_ty _ |- _ => destruct H
  | H : file_ty _ |- _ => destruct H
  | H : buf_ty _ |- _ => destruct H
  | H : typed _ _ |- _ => destruct H
  end.

Ltac krecord :=
  ktypes; split; cbn -[Z.pow] in *;
  rewrite ?length_insert; try assumption; try exact I; try krange;
  try solve [eauto with kty].

Ltac kside :=
  intros; kfacts; unfold any, turn_ty in *; cbv beta iota; intros; kfacts;
  lazymatch goal with
  | |- True => exact I
  | |- is_u32 _ => first [krange | repeat case_match; simplify_eq/=; ktypes; krange]
  | |- is_s32 _ => first [krange | repeat case_match; simplify_eq/=; ktypes; krange]
  | |- is_s16 _ => first [krange | repeat case_match; simplify_eq/=; ktypes; krange]
  | H : cpu_ty ?x |- cpu_ty _ => krecord
  | H : proc_ty ?x |- proc_ty _ => krecord
  | H : inode_ty ?x |- inode_ty _ => krecord
  | H : file_ty ?x |- file_ty _ => krecord
  | H : buf_ty ?x |- buf_ty _ => krecord
  | H : typed _ ?x |- typed _ _ => krecord
  | |- _ => first [ assumption | exact I | done
                  | repeat case_match; simplify_eq/=; kfacts; ktypes;
                    first [assumption | lia | done | krange | solve [eauto 4 with kty]] ]
  end.

Ltac khead m := lazymatch m with ?f _ => khead f | _ => unfold m end.

Ltac kleaf := solve [eauto 3 with keeps nocore].

Ltac kstep :=
  lazymatch goal with
  | |- keeps _ _ (mret _) => apply keeps_ret; try solve [kside]
  | |- keeps _ _ (fail _) => apply keeps_fail; reflexivity
  | |- keeps _ _ (panic _) => apply keeps_fail; reflexivity
  | |- keeps _ _ swtch_away => apply keeps_swtch
  | |- keeps _ _ (when ?b _) => apply keeps_when; intros ?
  | |- keeps _ _ (_ ≫= _) =>
      first [ eapply keeps_bind; [kleaf | intros ? ?; kfacts]
            | eapply (keeps_bind _ any); [ | intros ? _] ]
  | |- keeps _ _ (match (if ?c then _ else _) with _ => _ end) => destruct c eqn:?; kfacts
  | |- keeps _ _ (match ?x with _ => _ end) => first [is_var x; destruct x | destruct x eqn:?]; kfacts; try (exfalso; first [assumption | discriminate])
  | |- keeps _ any (modify _) => apply keeps_modify; try solve [kside]
  | |- keeps _ _ (for_acc _ _ _ ?a) =>
      first [ kleaf | apply (keeps_any _ any), (keeps_for_acc _ any); [intros ? ? ? _; simpl in * | exact I] ]
  | |- keeps _ _ (for_range _ _ _) =>
      first [ kleaf | apply (keeps_any _ (λ o, ∀ v, o = Some v → any v)), keeps_for_range; intros ? ?; simpl in * ]
  | |- keeps _ ?Q (while_fuel _ _ _) =>
      first [ kleaf | eapply keeps_any; kleaf | apply (keeps_while_fuel _ any Q); [intros ? _ | exact I] ]
  | |- keeps _ ?Q (while32 _ _) =>
      first [ kleaf | eapply keeps_any; kleaf | apply (keeps_while32 _ any Q); [intros ? _ | exact I] ]
  | |- keeps _ any ?m => first [ kleaf | eapply keeps_any; kleaf | khead m ]
  | |- keeps _ _ ?m => first [ kleaf | eapply keeps_weaken; [kleaf | solve [kside]] | khead m ]
  end.

Ltac keeps := intros; repeat kstep.

#[export] Hint Extern 5 ((_ < _)%nat) => solve [kside] : keeps.
#[export] Hint Extern 5 (below _ _) => solve [kside] : keeps.
#[export] Hint Extern 5 (bufptr_ty _) => solve [kside] : keeps.
#[export] Hint Extern 5 (is_u32 _) => solve [kside] : keeps.
#[export] Hint Extern 5 (cpu_ty _) => solve [kside] : keeps.
#[export] Hint Extern 5 (proc_ty _) => solve [kside] : keeps.
#[export] Hint Extern 5 (inode_ty _) => solve [kside] : keeps.
#[export] Hint Extern 5 (file_ty _) => solve [kside] : keeps.
#[export] Hint Extern 5 (buf_ty _) => solve [kside] : keeps.
#[export] Hint Resolve table_alter below_lookup : kty.
#[export] Hint Extern 1 (keeps _ _ (get _)) => apply keeps_get : keeps.

(** ** Tables *)

Lemma keeps_cpu_get n i : (i < n)%nat → keeps n cpu_ty (cpu_get i).
Proof. intros Hi k Hk. unfold cpu_get. by destruct (table_lookup _ _ _ _ (ty_cpus _ _ Hk) Hi) as (x & -> & Hx). Qed.

Lemma keeps_proc_get n i : (i < NPROC)%nat → keeps n proc_ty (proc_get i).
Proof. intros Hi k Hk. unfold proc_get. by destruct (table_lookup _ _ _ _ (ty_procs _ _ Hk) Hi) as (x & -> & Hx). Qed.

Lemma keeps_cpu_upd n i f : (∀ x, cpu_ty x → cpu_ty (f x)) → keeps n any (cpu_upd i f).
Proof. intros Hf. apply keeps_modify. intros k Hk. krecord. Qed.

Lemma keeps_proc_upd n i f : (∀ x, proc_ty x → proc_ty (f x)) → keeps n any (proc_upd i f).
Proof. intros Hf. apply keeps_modify. intros k Hk. krecord. Qed.

#[export] Hint Resolve keeps_cpu_get keeps_proc_get keeps_cpu_upd keeps_proc_upd : keeps.

(** ** Processors and locks *)

Lemma keeps_mycpu n : keeps n (λ i, i < n)%nat mycpu.
Proof.
  unfold mycpu, readeflags_IF. do 4 kstep. eapply keeps_bind with (Q := λ o, ∀ i, o = Some i → (i < n)%nat); [|keeps].
  match goal with H : typed n ?k |- context [cpus (hw ?k)] => rewrite (proj1 (ty_cpus _ _ H)) end.
  apply keeps_for_range. intros i Hi. keeps.
Qed.

#[export] Hint Resolve keeps_mycpu : keeps.

Lemma keeps_pushcli n : keeps n any pushcli.
Proof. keeps. Qed.

Lemma keeps_popcli n : keeps n any popcli.
Proof. keeps. Qed.

#[export] Hint Resolve keeps_pushcli keeps_popcli : keeps.

Lemma keeps_myproc n : keeps n (below NPROC) myproc.
Proof. unfold myproc. keeps. Qed.

#[export] Hint Resolve keeps_myproc : keeps.

Lemma keeps_curproc n : keeps n (λ i, i < NPROC)%nat curproc.
Proof. unfold curproc. keeps. Qed.

Lemma keeps_holding n l : keeps n any (holding l).
Proof. keeps. Qed.

#[export] Hint Resolve keeps_curproc keeps_holding : keeps.

Lemma keeps_acquire n l : keeps n any (acquire l).
Proof. keeps. Qed.

Lemma keeps_release n l : keeps n any (release l).
Proof. keeps. Qed.

#[export] Hint Resolve keeps_acquire keeps_release : keeps.

(** ** Memory, the string library and the page allocator *)

Lemma keeps_translate n va w : keeps n any (translate va w).
Proof. intros k Hk. unfold translate. repeat case_match; by simplify_eq/=. Qed.

#[export] Hint Resolve keeps_translate : keeps.

Lemma keeps_ldb n va : keeps n any (ldb va).
Proof. keeps. Qed.

Lemma keeps_stb n va v : keeps n any (stb va v).
Proof. keeps. Qed.

#[export] Hint Resolve keeps_ldb keeps_stb : keeps.

Lemma keeps_ld32 n va : keeps n any (ld32 va).
Proof. keeps. Qed.

Lemma keeps_st32 n va v : keeps n any (st32 va v).
Proof. keeps. Qed.

#[export] Hint Resolve keeps_ld32 keeps_st32 : keeps.

Lemma keeps_memset n d c m : keeps n any (memset d c m).
Proof.
  assert (Hb : ∀ j a v, keeps n any (rep_stosb j a v)) by (induction j; keeps).
  assert (Hl : ∀ j a v, keeps n any (rep_stosl j a v)) by (induction j; keeps).
  keeps; auto.
Qed.

Lemma keeps_memmove n d s m : keeps n any (memmove d s m).
Proof.
  assert (Hu : ∀ j a v, keeps n any (copy_up j a v)) by (induction j; keeps).
  assert (Hd : ∀ j a v, keeps n any (copy_down j a v)) by (induction j; keeps).
  keeps; auto.
Qed.

#[export] Hint Resolve keeps_memset keeps_memmove : keeps.

Lemma keeps_kfree n v : keeps n any (kfree v).
Proof. keeps. Qed.

Lemma keeps_kalloc n : keeps n any kalloc.
Proof. keeps. Qed.

#[export] Hint Resolve keeps_kfree keeps_kalloc : keeps.

(** ** Console output *)

Lemma keeps_consputc n c : keeps n any (consputc c).
Proof. keeps. Qed.

#[export] Hint Resolve keeps_consputc : keeps.

Lemma keeps_putchars n l : keeps n any (putchars l).
Proof. induction l; keeps. Qed.

#[export] Hint Resolve keeps_putchars : keeps.

Lemma keeps_cprintf n fmt args : keeps n any (cprintf fmt args).
Proof.
  assert (H : ∀ m f l, (length f <= m)%nat → keeps n any (cprintf_loop f l)).
  { induction m as [|m IH]; intros [|c f] l Hm; simpl in Hm; try lia; try (by apply keeps_ret).
    cbn [cprintf_loop]. destruct f as [|c' f]; [keeps; apply IH; simpl; lia|].
    keeps; apply IH; simpl in *; lia. }
  keeps. by eapply H.
Qed.

#[export] Hint Resolve keeps_cprintf : keeps.

(** ** Scheduling, sleeping, sleep locks *)

Lemma keeps_cmos_readss n r : keeps n any (cmos_readss r).
Proof. intros k Hk. split; [|done]. kside. Qed.

Lemma keeps_sched n ctx : keeps n any (sched ctx).
Proof. keeps. Qed.

Lemma keeps_wakeup1 n ch : keeps n any (wakeup1 ch).
Proof. keeps. Qed.

#[export] Hint Resolve keeps_cmos_readss keeps_sched keeps_wakeup1 : keeps.

Lemma keeps_cmostimess n fuel : keeps n any (cmostimess fuel).
Proof. keeps. Qed.

Lemma keeps_yield n : keeps n any yield.
Proof. keeps. Qed.

Lemma keeps_sleep n ch lk : keeps n any (sleep ch lk).
Proof. keeps. Qed.

Lemma keeps_wakeup n ch : keeps n any (wakeup ch).
Proof. keeps. Qed.

Lemma keeps_switchuvm n p : below NPROC p → keeps n any (switchuvm p).
Proof. keeps. Qed.

Lemma keeps_adjust_prio st e x : proc_ty x → proc_ty (adjust_prio st e x).
Proof. intros Hx. unfold adjust_prio. repeat case_match; first [done | kside]. Qed.

#[export] Hint Resolve keeps_cmostimess keeps_yield keeps_sleep keeps_wakeup keeps_switchuvm keeps_adjust_prio : keeps.

Lemma keeps_scan_plist n mn : keeps n (λ r, Forall (below NPROC) r.1) (scan_plist mn).
Proof.
  unfold scan_plist. apply keeps_for_acc with (P := λ r : list (option nat) * Z, Forall (below NPROC) r.1).
  - intros i [l idx] Hi Hl. keeps. simpl in *. by apply Forall_insert.
  - apply Forall_replicate. done.
Qed.

#[export] Hint Resolve keeps_scan_plist : keeps.

Lemma keeps_scheduler_iter n c :
  keeps n (λ r, ∀ v, r = Some v → v.1 < NPROC)%nat (scheduler_iter c).
Proof. unfold scheduler_iter. keeps. Qed.

Lemma keeps_scheduler_back n c p start : keeps n any (scheduler_back c p start).
Proof. keeps. Qed.

Lemma keeps_resume n p : (p < NPROC)%nat → keeps n any (resume p).
Proof. keeps. Qed.

#[export] Hint Resolve keeps_scheduler_iter keeps_scheduler_back keeps_resume : keeps.

Lemma keeps_acquiresleep n s : keeps n any (acquiresleep s).
Proof. keeps. Qed.

Lemma keeps_releasesleep n s : keeps n any (releasesleep s).
Proof. keeps. Qed.

Lemma keeps_holdingsleep n s : keeps n any (holdingsleep s).
Proof. keeps. Qed.

#[export] Hint Resolve keeps_acquiresleep keeps_releasesleep keeps_holdingsleep : keeps.

(** ** Address spaces *)

Lemma keeps_walkpgdir n pd va a : keeps n any (walkpgdir pd va a).
Proof. keeps. Qed.

#[export] Hint Resolve keeps_walkpgdir : keeps.

Lemma keeps_mappages n pd va sz_ pa perm : keeps n any (mappages pd va sz_ pa perm).
Proof. keeps. Qed.

(** deallocuvm() and allocuvm() return 0 or one of the two sizes. *)
Lemma keeps_deallocuvm n pd o w : keeps n (λ r, r = o ∨ r = w) (deallocuvm pd o w).
Proof. keeps; auto. Qed.

#[export] Hint Resolve keeps_mappages : keeps.

Lemma keeps_allocuvm n pd o w : keeps n (λ r, r = 0 ∨ r = o ∨ r = w) (allocuvm pd o w).
Proof. pose proof (keeps_deallocuvm n). keeps; auto. Qed.

Lemma keeps_deallocuvm_u32 n pd o w : is_u32 o → is_u32 w → keeps n is_u32 (deallocuvm pd o w).
Proof. intros. eapply keeps_weaken; [apply keeps_deallocuvm|]. by intros r [->| ->]. Qed.

Lemma keeps_allocuvm_u32 n pd o w : is_u32 o → is_u32 w → keeps n is_u32 (allocuvm pd o w).
Proof. intros. eapply keeps_weaken; [apply keeps_allocuvm|]. by intros r [->|[->| ->]]. Qed.

#[export] Hint Resolve keeps_deallocuvm_u32 keeps_allocuvm_u32 : keeps.

Lemma keeps_freevm n pd : keeps n any (freevm pd).
Proof. keeps. Qed.

#[export] Hint Resolve keeps_freevm : keeps.

Lemma keeps_setupkvm n : keeps n any setupkvm.
Proof.
  assert (H : ∀ pd l, keeps n any (kmap_loop pd l)).
  { intros pd l. induction l as [|[[[v ps] pe] pm] l IH]; keeps; done. }
  unfold setupkvm. keeps.
Qed.

#[export] Hint Resolve keeps_setupkvm : keeps.

Lemma keeps_copyuvm n pd z : keeps n any (copyuvm pd z).
Proof. keeps. Qed.

Lemma keeps_copyout n pd va p len : keeps n any (copyout pd va p len).
Proof. keeps. Qed.

#[export] Hint Resolve keeps_copyuvm keeps_copyout : keeps.
