(* ===== verification/Safety.v ===== *)
(** * Safety: no entry into the kernel leaves the kernel's types

    The triples of Types.v for the file system, the devices, the processes and
    the system calls, up to trap(), the scheduler and the functions that start
    the system. The theorem at the end says that whatever sequence of entries
    the machine makes and whatever a user program passes in registers and
    memory, the tables stay typed and no table is accessed outside its bounds. *)
From S2P Require Import Prelude.
From S2P Require Import Kernel.
From S2P Require Import Spinlock.
From S2P Require Import Memory.
From S2P Require Import Libstr.
From S2P Require Import Cprintf.
From S2P Require Import Kalloc.
From S2P Require Import Sched.
From S2P Require Import Sleeplock.
From S2P Require Import Vm.
From S2P Require Import Bio.
From S2P Require Import Log.
From S2P Require Import Inode.
From S2P Require Import Console.
From S2P Require Import Fs.
From S2P Require Import Pipe.
From S2P Require Import File.
From S2P Require Import Proc.
From S2P Require Import Syscall.
From S2P Require Import Sysproc.
From S2P Require Import Exec.
From S2P Require Import Sysfile.
From S2P Require Import Trap.
From S2P Require Import Types.
From S2P Require Import Ide.

(** ** Buffers *)

Lemma keeps_buf_get n i : (i < NBUF)%nat → keeps n buf_ty (buf_get i).
Proof. intros Hi k Hk. unfold buf_get. by destruct (table_lookup _ _ _ _ (ty_bufs _ _ Hk) Hi) as (x & -> & Hx). Qed.

Lemma keeps_buf_upd n i f : (∀ x, buf_ty x → buf_ty (f x)) → keeps n any (buf_upd i f).
Proof. intros Hf. apply keeps_modify. intros k Hk. krecord. Qed.

#[export] Hint Resolve keeps_buf_get keeps_buf_upd : keeps.

Lemma keeps_next_of n p : bufptr_ty p → keeps n bufptr_ty (next_of p).
Proof. intros. unfold next_of. keeps. Qed.

Lemma keeps_prev_of n p : bufptr_ty p → keeps n bufptr_ty (prev_of p).
Proof. intros. unfold prev_of. keeps. Qed.

Lemma keeps_set_next n p v : bufptr_ty v → keeps n any (set_next p v).
Proof. keeps. Qed.

Lemma keeps_set_prev n p v : bufptr_ty v → keeps n any (set_prev p v).
Proof. keeps. Qed.

#[export] Hint Resolve keeps_next_of keeps_prev_of keeps_set_next keeps_set_prev : keeps.

(** The two searches of bget() follow typed links. *)
Lemma keeps_bget_hit n fuel dv b p :
  bufptr_ty p → keeps n (below NBUF) (while_fuel fuel (bget_hit dv b) p).
Proof. apply (keeps_while_fuel _ bufptr_ty). intros q Hq. unfold bget_hit. keeps. Qed.

Lemma keeps_bget_victim n fuel p : bufptr_ty p → keeps n (below NBUF) (while_fuel fuel bget_victim p).
Proof. apply (keeps_while_fuel _ bufptr_ty). intros q Hq. unfold bget_victim. keeps. Qed.

#[export] Hint Resolve keeps_bget_hit keeps_bget_victim : keeps.

Lemma keeps_bget n dv b : keeps n (λ i, i < NBUF)%nat (bget dv b).
Proof. unfold bget. keeps. Qed.

#[export] Hint Resolve keeps_bget : keeps.

Lemma keeps_iderw_mem n i : (i < NBUF)%nat → keeps n any (Bio.iderw i).
Proof. keeps. Qed.

#[export] Hint Resolve keeps_iderw_mem : keeps.

Lemma keeps_bread n dv b : keeps n (λ i, i < NBUF)%nat (bread dv b).
Proof. unfold bread. keeps. Qed.

Lemma keeps_bwrite n i : (i < NBUF)%nat → keeps n any (bwrite i).
Proof. keeps. Qed.

Lemma keeps_brelse n i : (i < NBUF)%nat → keeps n any (brelse i).
Proof. keeps. Qed.

Lemma keeps_binit n : keeps n any binit.
Proof. keeps. Qed.

#[export] Hint Resolve keeps_bread keeps_bwrite keeps_brelse keeps_binit : keeps.

(** ** The log *)

Lemma keeps_byte_at n l i : keeps n any (byte_at l i).
Proof. intros k Hk. unfold byte_at. repeat case_match; by simplify_eq/=. Qed.

Lemma keeps_lh_get n i : keeps n any (lh_get i).
Proof. intros k Hk. unfold lh_get. repeat case_match; by simplify_eq/=. Qed.

Lemma keeps_lh_set n i v : keeps n any (lh_set i v).
Proof.
  intros k Hk. unfold lh_set. destruct (_ && _); [|done]. split; [|done]. kside.
Qed.

#[export] Hint Resolve keeps_byte_at keeps_lh_get keeps_lh_set : keeps.

Lemma keeps_install_trans n : keeps n any install_trans.
Proof. keeps. Qed.

Lemma keeps_write_head n : keeps n any write_head.
Proof. keeps. Qed.

Lemma keeps_readsb n dv : keeps n any (readsb dv).
Proof. keeps. Qed.

#[export] Hint Resolve keeps_install_trans keeps_write_head keeps_readsb : keeps.

Lemma keeps_initlog n dv : keeps n any (initlog dv).
Proof. keeps. Qed.

Lemma keeps_begin_op n : keeps n any begin_op.
Proof. keeps. Qed.

Lemma keeps_end_op n : keeps n any end_op.
Proof. keeps. Qed.

Lemma keeps_log_write n i : (i < NBUF)%nat → keeps n any (log_write i).
Proof. keeps. Qed.

#[export] Hint Resolve keeps_initlog keeps_begin_op keeps_end_op keeps_log_write : keeps.

(** ** Blocks and inodes *)

Lemma keeps_ino_get n i : (i < NINODE)%nat → keeps n inode_ty (ino_get i).
Proof. intros Hi k Hk. unfold ino_get. by destruct (table_lookup _ _ _ _ (ty_inodes _ _ Hk) Hi) as (x & -> & Hx). Qed.

Lemma keeps_ino_upd n i f : (∀ x, inode_ty x → inode_ty (f x)) → keeps n any (ino_upd i f).
Proof. intros Hf. apply keeps_modify. intros k Hk. krecord. Qed.

Lemma keeps_deref n m o : below m o → keeps n (λ i, i < m)%nat (deref o).
Proof. intros Ho k Hk. unfold deref. by destruct o. Qed.

#[export] Hint Resolve keeps_ino_get keeps_ino_upd keeps_deref : keeps.

Lemma keeps_bzero n dv b : keeps n any (bzero dv b).
Proof. keeps. Qed.

#[export] Hint Resolve keeps_bzero : keeps.

Lemma keeps_balloc n dv : keeps n any (balloc dv).
Proof. keeps. Qed.

Lemma keeps_bfree n dv b : keeps n any (bfree dv b).
Proof. keeps. Qed.

#[export] Hint Resolve keeps_balloc keeps_bfree : keeps.

Lemma keeps_iinit n dv : keeps n any (iinit dv).
Proof. keeps. Qed.

Lemma keeps_iget n dv inum : keeps n (λ i, i < NINODE)%nat (iget dv inum).
Proof.
  assert (H : ∀ c i e, (i + c <= NINODE)%nat → below NINODE e →
    keeps n (λ r, match r with inl o => below NINODE o | inr i => (i < NINODE)%nat end) (iget_loop c i dv inum e)).
  { induction c as [|c IH]; intros i e Hi He; cbn [iget_loop]; [by apply keeps_ret|].
    kstep. unfold iget_scan. destruct (_ && _); [apply keeps_ret; lia|]. apply IH; [lia|].
    destruct e; [done|]. case_match; [simpl; lia|done]. }
  unfold iget. kstep. eapply keeps_bind; [apply H; [lia|done]|]. intros [[i|]|i] Hi; keeps.
Qed.

#[export] Hint Resolve keeps_iinit keeps_iget : keeps.

Lemma keeps_ialloc n dv t : keeps n (λ i, i < NINODE)%nat (ialloc dv t).
Proof.
  unfold ialloc. kstep; [keeps|]. apply (keeps_while_fuel _ any); [|done]. intros inum _. unfold ialloc_turn. keeps.
Qed.

Lemma keeps_iupdate n i : (i < NINODE)%nat → keeps n any (iupdate i).
Proof. keeps. Qed.

Lemma keeps_idup n o : below NINODE o → keeps n (λ i, i < NINODE)%nat (idup o).
Proof. intros. unfold idup. keeps. Qed.

Lemma keeps_get_dinode off d x : inode_ty x → inode_ty (get_dinode off d x).
Proof. intros []. split; simpl; try krange. Qed.

#[export] Hint Resolve keeps_ialloc keeps_iupdate keeps_idup keeps_get_dinode : keeps.

Lemma keeps_ilock n o : below NINODE o → keeps n any (ilock o).
Proof. keeps. Qed.

Lemma keeps_iunlock n o : below NINODE o → keeps n any (iunlock o).
Proof. keeps. Qed.

Lemma keeps_addr_get n ip i : (ip < NINODE)%nat → keeps n any (addr_get ip i).
Proof. keeps. Qed.

Lemma keeps_addr_set n ip i v : keeps n any (addr_set ip i v).
Proof. keeps. Qed.

#[export] Hint Resolve keeps_ilock keeps_iunlock keeps_addr_get keeps_addr_set : keeps.

Lemma keeps_bmap n ip b : (ip < NINODE)%nat → keeps n any (bmap ip b).
Proof. keeps. Qed.

Lemma keeps_itrunc n ip : (ip < NINODE)%nat → keeps n any (itrunc ip).
Proof. keeps. Qed.

#[export] Hint Resolve keeps_bmap keeps_itrunc : keeps.

Lemma keeps_iput n o : below NINODE o → keeps n any (iput o).
Proof. keeps. Qed.

#[export] Hint Resolve keeps_iput : keeps.

Lemma keeps_iunlockput n o : below NINODE o → keeps n any (iunlockput o).
Proof. keeps. Qed.

#[export] Hint Resolve keeps_iunlockput : keeps.

(** ** Console and disk interrupts *)

Lemma keeps_kbdgetc n : keeps n any kbdgetc.
Proof. keeps. Qed.

Lemma keeps_uartgetc n : keeps n any uartgetc.
Proof. keeps. Qed.

#[export] Hint Resolve keeps_kbdgetc keeps_uartgetc : keeps.

Lemma keeps_procdump n cs : keeps n any (procdump cs).
Proof.
  assert (H : ∀ l, keeps n any (print_pcs l)) by (induction l; keeps).
  keeps.
Qed.

#[export] Hint Resolve keeps_procdump : keeps.

Lemma keeps_consoleintr n cs g : keeps n any g → keeps n any (consoleintr cs g).
Proof. keeps. Qed.

#[export] Hint Resolve keeps_consoleintr : keeps.

Lemma keeps_port_in n p : keeps n any (port_in p).
Proof. intros k Hk. split; [|done]. kside. Qed.

Lemma keeps_outb n p v : keeps n any (outb p v).
Proof. keeps. Qed.

Lemma keeps_outsl n p d c : keeps n any (outsl p d c).
Proof. keeps. Qed.

#[export] Hint Resolve keeps_port_in keeps_outb keeps_outsl : keeps.

Lemma keeps_idewait n fuel c : keeps n any (idewait fuel c).
Proof. keeps. Qed.

#[export] Hint Resolve keeps_idewait : keeps.

Lemma keeps_idestart n fuel o : below NBUF o → keeps n any (idestart fuel o).
Proof. keeps. Qed.

#[export] Hint Resolve keeps_idestart : keeps.

Lemma keeps_get_idequeue n : keeps n (below NBUF) (get (λ k, k.(ide).(idequeue))).
Proof. intros k Hk. split; [done|]. apply Hk. Qed.

#[export] Hint Resolve keeps_get_idequeue | 0 : keeps.

Lemma keeps_ideintr n fuel : keeps n any (ideintr fuel).
Proof.
  assert (H : ∀ p c, keeps n any (insl p c)) by (induction c; keeps).
  keeps.
Qed.

Lemma keeps_queue n fuel q :
  below NBUF q → keeps n (below NBUF) (while_fuel fuel queue_turn (None, q)).
Proof.
  intros Hq. apply (keeps_while_fuel _ (λ v, below NBUF v.1 ∧ below NBUF v.2)); [|done].
  intros [o p] [Ho Hp]. unfold queue_turn. keeps.
Qed.

#[export] Hint Resolve keeps_ideintr keeps_queue : keeps.

Lemma keeps_iderw n fuel i : (i < NBUF)%nat → keeps n any (Ide.iderw fuel i).
Proof. keeps. Qed.

(** ** File contents, directories, paths *)

Section copies.
Context (n : nat) (put : Z → Z → K unit) (fetch : Z → K Z).
Context (Hput : ∀ i b, keeps n any (put i b)) (Hfetch : ∀ i, keeps n any (fetch i)).

Lemma keeps_put_list l i : keeps n any (put_list put i l).
Proof. revert i. induction l; keeps. Qed.

Lemma keeps_fetch_list c i : keeps n any (fetch_list fetch i c).
Proof. revert i. induction c; keeps. Qed.

#[local] Hint Resolve keeps_put_list keeps_fetch_list : keeps.

Lemma keeps_consoleread ip c : below NINODE ip → keeps n any (consoleread put ip c).
Proof. keeps. Qed.

Lemma keeps_consolewrite ip c : below NINODE ip → keeps n any (consolewrite fetch ip c).
Proof. keeps. Qed.

#[local] Hint Resolve keeps_consoleread keeps_consolewrite : keeps.

Lemma keeps_readi_gen ip off c : (ip < NINODE)%nat → keeps n any (readi_gen put ip off c).
Proof. unfold readi_gen, devsw_read. keeps. Qed.

Lemma keeps_writei_gen ip off c : (ip < NINODE)%nat → keeps n any (writei_gen fetch ip off c).
Proof. unfold writei_gen, devsw_write. keeps. Qed.

End copies.

#[export] Hint Resolve keeps_fetch_list : keeps.

Lemma keeps_readi n ip d off c : (ip < NINODE)%nat → keeps n any (readi ip d off c).
Proof. intros. unfold readi. eapply keeps_bind; [apply keeps_readi_gen; [keeps|done]|keeps]. Qed.

Lemma keeps_readi_local n ip off c : (ip < NINODE)%nat → keeps n any (readi_local ip off c).
Proof. intros. apply keeps_readi_gen; [keeps|done]. Qed.

Lemma keeps_writei n ip d off c : (ip < NINODE)%nat → keeps n any (writei ip d off c).
Proof. intros. apply keeps_writei_gen; [keeps|done]. Qed.

Lemma keeps_writei_local n ip l off c : (ip < NINODE)%nat → keeps n any (writei_local ip l off c).
Proof. intros. apply keeps_writei_gen; [keeps|done]. Qed.

#[export] Hint Resolve keeps_readi keeps_readi_local keeps_writei keeps_writei_local : keeps.

(** The inode a lookup finds. *)
Definition entry_ty (r : option (nat * Z)) : Prop :=
  match r with Some (i, _) => (i < NINODE)%nat | None => True end.

Lemma keeps_dirlookup n dp nm : (dp < NINODE)%nat → keeps n entry_ty (dirlookup dp nm).
Proof.
  intros. unfold dirlookup. do 2 kstep; [keeps|]. apply (keeps_while_fuel _ any); [|done].
  intros off _. unfold dirlookup_turn. keeps.
Qed.

#[export] Hint Resolve keeps_dirlookup : keeps.

Lemma keeps_dirlink n dp nm i : (dp < NINODE)%nat → keeps n any (dirlink dp nm i).
Proof. keeps. Qed.

Lemma keeps_skipelem n p nm : keeps n any (skipelem p nm).
Proof. keeps. Qed.

#[export] Hint Resolve keeps_dirlink keeps_skipelem : keeps.

Lemma keeps_namex n p b nm : keeps n (λ r, below NINODE r.1) (namex p b nm).
Proof.
  unfold namex. kstep. eapply (keeps_bind _ (λ i, i < NINODE)%nat); [keeps|]. intros ip Hip.
  apply (keeps_while32 _ (λ v : nat * Z * list Z, v.1.1 < NINODE)%nat); [|done].
  intros [[i q] nm'] Hi. unfold namex_turn. keeps.
Qed.

#[export] Hint Resolve keeps_namex : keeps.

Lemma keeps_namei n p : keeps n (below NINODE) (namei p).
Proof. unfold namei. keeps. Qed.

Lemma keeps_nameiparent n p nm : keeps n (λ r, below NINODE r.1) (nameiparent p nm).
Proof. apply keeps_namex. Qed.

#[export] Hint Resolve keeps_namei keeps_nameiparent : keeps.

(** ** Pipes and files *)

Lemma keeps_am_killed n : keeps n any am_killed.
Proof. keeps. Qed.

#[export] Hint Resolve keeps_am_killed : keeps.

Lemma keeps_file_get n i : (i < NFILE)%nat → keeps n file_ty (file_get i).
Proof. intros Hi k Hk. unfold file_get. by destruct (table_lookup _ _ _ _ (ty_files _ _ Hk) Hi) as (x & -> & Hx). Qed.

Lemma keeps_file_upd n i f : (∀ x, file_ty x → file_ty (f x)) → keeps n any (file_upd i f).
Proof. intros Hf. apply keeps_modify. intros k Hk. krecord. Qed.

Lemma keeps_pipeclose n p w : keeps n any (pipeclose p w).
Proof. keeps. Qed.

Lemma keeps_piperead n p a c : keeps n any (piperead p a c).
Proof. keeps. Qed.

Lemma keeps_pipewrite n p a c : keeps n any (pipewrite p a c).
Proof. keeps. Qed.

#[export] Hint Resolve keeps_file_get keeps_file_upd keeps_pipeclose keeps_piperead keeps_pipewrite : keeps.

Lemma keeps_filealloc n : keeps n (below NFILE) filealloc.
Proof.
  unfold filealloc. kstep.
  eapply (keeps_bind _ (λ o, ∀ f, o = Some f → (f < NFILE)%nat)); [|keeps].
  apply keeps_for_range. intros i Hi. simpl in Hi. keeps.
Qed.

Lemma keeps_filedup n f : (f < NFILE)%nat → keeps n (λ i, i < NFILE)%nat (filedup f).
Proof. intros. unfold filedup. keeps. Qed.

Lemma keeps_fileclose n f : (f < NFILE)%nat → keeps n any (fileclose f).
Proof. keeps. Qed.

#[export] Hint Resolve keeps_filealloc keeps_filedup keeps_fileclose : keeps.

Lemma keeps_filestat n f st : (f < NFILE)%nat → keeps n any (filestat f st).
Proof. keeps. Qed.

Lemma keeps_fileread n f a c : (f < NFILE)%nat → keeps n any (fileread f a c).
Proof. keeps. Qed.

Lemma keeps_filewrite n f a c : (f < NFILE)%nat → keeps n any (filewrite f a c).
Proof. keeps. Qed.

(** Two new files. *)
Definition files_ty (r : option (nat * nat)) : Prop :=
  match r with Some (a, b) => (a < NFILE)%nat ∧ (b < NFILE)%nat | None => True end.

Lemma keeps_pipealloc n : keeps n files_ty pipealloc.
Proof. unfold pipealloc, pipealloc_bad. keeps. Qed.

#[export] Hint Resolve keeps_filestat keeps_fileread keeps_filewrite keeps_pipealloc : keeps.

(** ** Processes *)

Lemma keeps_allocproc n fuel : keeps n (below NPROC) (allocproc fuel).
Proof.
  unfold allocproc. kstep.
  eapply (keeps_bind _ (λ o, ∀ f, o = Some f → (f < NPROC)%nat)); [|keeps].
  apply keeps_for_range. intros i Hi. simpl in Hi. keeps.
Qed.

Lemma keeps_safestrcpy_into n c fetch i s :
  (∀ j, keeps n any (fetch j)) → keeps n (λ l, length l = length s) (safestrcpy_into c fetch i s).
Proof.
  intros Hf. revert i s. induction c as [|[|c] IH]; intros i s; cbn [safestrcpy_into].
  - by apply keeps_ret.
  - apply keeps_ret. by rewrite length_insert.
  - kstep. destruct (_ =? _); [apply keeps_ret; by rewrite !length_insert|].
    eapply keeps_weaken; [apply IH|]. intros l ->. by rewrite length_insert.
Qed.

#[export] Hint Resolve keeps_allocproc keeps_safestrcpy_into : keeps.

Lemma keeps_growproc n c : keeps n any (growproc c).
Proof.
  unfold growproc. do 2 kstep.
  eapply (keeps_bind _ (λ o, ∀ v, o = Some v → is_u32 v)); [|keeps].
  keeps.
Qed.

Lemma keeps_ofile_get n p fd : (p < NPROC)%nat → (fd < NOFILE)%nat → keeps n (below NFILE) (ofile_get p fd).
Proof.
  intros Hp Hfd. unfold ofile_get. eapply keeps_bind; [by apply keeps_proc_get|]. intros x Hx.
  destruct (lookup_lt_is_Some_2 x.(ofile) fd) as [v Hv]; [by rewrite (pty_ofile _ Hx)|]. rewrite Hv.
  apply keeps_ret. exact (Forall_lookup_1 _ _ _ _ (pty_files _ Hx) Hv).
Qed.

Lemma keeps_ofile_set n p fd o : (p < NPROC)%nat → (fd < NOFILE)%nat → below NFILE o → keeps n any (ofile_set p fd o).
Proof.
  intros. eapply keeps_bind; [by apply keeps_ofile_get|]. intros _ _. apply keeps_proc_upd. intros x []. split; simpl; rewrite ?length_insert; try done. by apply Forall_insert.
Qed.

#[export] Hint Resolve keeps_growproc keeps_ofile_get keeps_ofile_set : keeps.

Lemma keeps_fork n fuel : keeps n any (fork fuel).
Proof. keeps. Qed.

Lemma keeps_userinit n fuel code sz_ root : keeps n any (userinit fuel code sz_ root).
Proof. keeps. Qed.

Lemma keeps_get_initproc n : keeps n (below NPROC) (get (λ k, k.(pt).(initproc))).
Proof. intros k Hk. split; [done|]. apply Hk. Qed.

#[export] Hint Resolve keeps_get_initproc | 0 : keeps.

Lemma keeps_exit n : keeps n any exit.
Proof. keeps. Qed.

Lemma keeps_wait_scan n c i p b : (i + c <= NPROC)%nat → keeps n any (wait_scan c i p b).
Proof.
  revert i b. induction c as [|c IH]; intros i b Hi; cbn [wait_scan]; [by apply keeps_ret|].
  keeps; apply IH; lia.
Qed.

Lemma keeps_wait_turn n p u : (p < NPROC)%nat → keeps n any (wait_turn p u).
Proof. intros. unfold wait_turn. eapply keeps_bind; [by apply keeps_wait_scan|keeps]. Qed.

#[export] Hint Resolve keeps_wait_turn : keeps.

Lemma keeps_wait n : keeps n any wait.
Proof. keeps. Qed.

Lemma keeps_forkret n : keeps n any forkret.
Proof. keeps. Qed.

#[export] Hint Resolve keeps_userinit keeps_fork keeps_exit keeps_wait keeps_forkret : keeps.

(** ** System calls *)

Lemma keeps_fetchint n a : keeps n any (fetchint a).
Proof. keeps. Qed.

Lemma keeps_fetchstr n a : keeps n any (fetchstr a).
Proof. keeps. Qed.

#[export] Hint Resolve keeps_fetchint keeps_fetchstr : keeps.

Lemma keeps_argint n i : keeps n any (argint i).
Proof. keeps. Qed.

#[export] Hint Resolve keeps_argint : keeps.

Lemma keeps_argptr n i z : keeps n any (argptr i z).
Proof. keeps. Qed.

Lemma keeps_argstr n i : keeps n any (argstr i).
Proof. keeps. Qed.

#[export] Hint Resolve keeps_argptr keeps_argstr : keeps.

Lemma keeps_kill n p : keeps n any (kill p).
Proof. keeps. Qed.

Lemma keeps_gp n p : keeps n any (gp p).
Proof. keeps. Qed.

Lemma keeps_sp n p v : keeps n any (sp p v).
Proof. keeps. Qed.

Lemma keeps_cmos_reads n r : keeps n any (cmos_reads r).
Proof. intros k Hk. split; [|done]. kside. Qed.

#[export] Hint Resolve keeps_kill keeps_gp keeps_sp keeps_cmos_reads : keeps.

(** exec(): the size the segments leave is a 32-bit integer. *)
Lemma keeps_exec_bad n pd o : below NINODE o → keeps n any (exec_bad pd o).
Proof. keeps. Qed.

Lemma keeps_load n fuel pd ip elf v : (ip < NINODE)%nat → is_u32 v.2 →
  keeps n (λ o, ∀ s, o = Some s → is_u32 s) (while_fuel fuel (load_turn pd ip elf) v).
Proof.
  intros Hip Hv. apply (keeps_while_fuel _ (λ v : Z * Z * Z, is_u32 v.2)); [|done].
  intros [[i off] s] Hs. unfold load_turn. keeps.
Qed.

Lemma keeps_exec_commit n p pd s sp_ elf path : (p < NPROC)%nat → is_u32 s → keeps n any (exec_commit p pd s sp_ elf path).
Proof. keeps. Qed.

#[export] Hint Resolve keeps_exec_bad keeps_load keeps_exec_commit : keeps.

Lemma PGROUNDUP_range z : is_u32 (PGROUNDUP z).
Proof.
  unfold PGROUNDUP. pose proof (u32_range (z + PGSIZE - 1)) as Hr. change (PGSIZE - 1) with 0xFFF. rewrite (land_page _ Hr).
  unfold is_u32 in *. pose proof (Z.mul_div_le (u32 (z + PGSIZE - 1)) (2 ^ 12)).
  pose proof (Z.div_pos (u32 (z + PGSIZE - 1)) (2 ^ 12)). lia.
Qed.

#[export] Hint Resolve PGROUNDUP_range : keeps.

Lemma keeps_exec n us path argv : keeps n any (exec us path argv).
Proof. keeps. Qed.

#[export] Hint Resolve keeps_exec : keeps.

(** The descriptor argument and the file it names; the other arguments of
    read() and write(). *)
Definition fd_ty (r : option (nat * nat)) : Prop :=
  match r with Some (fd, f) => (fd < NOFILE)%nat ∧ (f < NFILE)%nat | None => True end.

Definition rw_ty (r : option (nat * Z * Z)) : Prop :=
  match r with Some (f, _, _) => (f < NFILE)%nat | None => True end.

Lemma keeps_argfd n i : keeps n fd_ty (argfd i).
Proof. unfold argfd. keeps. Qed.

Lemma keeps_fdalloc n f : (f < NFILE)%nat → keeps n (below NOFILE) (fdalloc f).
Proof.
  intros Hf. unfold fdalloc. kstep. eapply keeps_weaken; [apply (keeps_for_range _ (λ fd, fd < NOFILE)%nat); intros i Hi; simpl in Hi; keeps|].
  intros [v|] Hv; [exact (Hv _ eq_refl)|done].
Qed.

#[export] Hint Resolve keeps_argfd keeps_fdalloc : keeps.

Lemma keeps_rw_args n : keeps n rw_ty rw_args.
Proof. unfold rw_args. keeps. Qed.

Lemma keeps_isdirempty n dp : (dp < NINODE)%nat → keeps n any (isdirempty dp).
Proof. keeps. Qed.

#[export] Hint Resolve keeps_rw_args keeps_isdirempty : keeps.

Lemma keeps_create n path t ma mi : is_s16 ma → is_s16 mi → keeps n (below NINODE) (create path t ma mi).
Proof. intros. unfold create, create_new. keeps. Qed.

#[export] Hint Extern 5 (is_s16 _) => solve [kside] : keeps.
#[export] Hint Resolve keeps_create : keeps.

Lemma keeps_open_inode n path m : keeps n (below NINODE) (open_inode path m).
Proof. unfold open_inode. keeps. Qed.

(** The file and the descriptor of open(). *)
Definition open_ty (r : option (nat * nat)) : Prop :=
  match r with Some (f, _) => (f < NFILE)%nat | None => True end.

Lemma keeps_open_fd n : keeps n open_ty open_fd.
Proof. unfold open_fd. keeps. Qed.

#[export] Hint Resolve keeps_open_inode keeps_open_fd : keeps.

Lemma keeps_sys_link n : keeps n any sys_link.
Proof. keeps. Qed.

Lemma keeps_sys_unlink n : keeps n any sys_unlink.
Proof. keeps. Qed.

Lemma keeps_sys_open n : keeps n any sys_open.
Proof. keeps. Qed.

Lemma keeps_sys_chdir n : keeps n any sys_chdir.
Proof. unfold sys_chdir. do 3 kstep. eapply (keeps_bind _ (below NINODE)); keeps. Qed.

Lemma keeps_sys_pipe n : keeps n any sys_pipe.
Proof. keeps. Qed.

#[export] Hint Resolve keeps_sys_link keeps_sys_unlink keeps_sys_open keeps_sys_chdir keeps_sys_pipe : keeps.

Lemma keeps_syscalls n fuel us num f : syscalls fuel us num = Some f → keeps n any f.
Proof.
  unfold syscalls. intros E. repeat case_match; simplify_eq; keeps.
Qed.

(** ** Entries into the kernel *)

Section entries.
Context (n fuel : nat) (callers : nat → list Z) (ustack : Z) (ideintr : K unit).
Context (Hide : keeps n any ideintr).

Lemma keeps_syscall : keeps n any (syscall fuel ustack).
Proof.
  unfold syscall. do 2 kstep. destruct (syscalls _ _ _) as [f|] eqn:E; [|keeps].
  pose proof (keeps_syscalls n _ _ _ _ E). keeps.
Qed.

#[local] Hint Resolve keeps_syscall : keeps.

Lemma keeps_trap f : keeps n any (trap fuel callers ustack ideintr f).
Proof. keeps. Qed.

End entries.

(** What makes the kernel run: a trap (system call, interrupt or exception),
    a turn of the scheduler of processor [c] before and after its swtch(), a
    process that is switched to, the first run of a process, and a process
    that goes on in the loop in which it slept; at start-up, binit() and
    userinit(). *)
Inductive entry : Type :=
| ETrap (f : trapframe)
| ESched (c : nat)
| EBack (c p : nat) (start : Z)
| EResume (p : nat)
| EForkret
| EAcquiresleep (s : slid)
| EBegin_op
| EWait (p : nat)
| ESleep (t ticks0 : Z)
| EPiperead (p addr c : Z)
| EPipewrite (p addr c i : Z)
| EIderw (b : nat)
| EBinit
| EUserinit (initcode initsize root : Z).

(** Its pointers point into the tables. *)
Definition entry_ok (e : entry) : Prop :=
  match e with
  | EResume p | EWait p => (p < NPROC)%nat
  | EIderw b => (b < NBUF)%nat
  | _ => True
  end.

Section machine.
Context (n fuel : nat) (callers : nat → list Z) (ustack : Z) (ideintr : K unit).

Definition enter (e : entry) : K unit :=
  match e with
  | ETrap f => trap fuel callers ustack ideintr f
  | ESched c => scheduler_iter c;; mret tt
  | EBack c p start => scheduler_back c p start
  | EResume p => resume p
  | EForkret => forkret
  | EAcquiresleep s => acquiresleep_loop s
  | EBegin_op => begin_op_loop
  | EWait p => while32 (wait_turn p) tt;; mret tt
  | ESleep t ticks0 => while32 (sys_sleep_turn t ticks0) tt;; mret tt
  | EPiperead p addr c => piperead_loop p addr c;; mret tt
  | EPipewrite p addr c i => pipewrite_loop p addr c i;; mret tt
  | EIderw b => iderw_wait b
  | EBinit => binit
  | EUserinit code size root => userinit fuel code size root
  end.

(** What happens outside the kernel leaves its tables alone: user programs run
    and store into memory, another processor executes, interrupts are switched
    on and off, devices have input. *)
Definition outside (k k' : kernel) : Prop :=
  k'.(hw).(cpus) = k.(hw).(cpus) ∧ k'.(pt) = k.(pt) ∧ k'.(ticks) = k.(ticks) ∧
  k'.(ftable) = k.(ftable) ∧ k'.(fs) = k.(fs) ∧ k'.(ide).(idequeue) = k.(ide).(idequeue).

Inductive kernel_step : kernel → kernel → Prop :=
| kernel_step_return e k k' : entry_ok e → enter e k = Ok tt k' → kernel_step k k'
| kernel_step_swtch e k k' : entry_ok e → enter e k = Swtch k' → kernel_step k k'
| kernel_step_outside k k' : outside k k' → kernel_step k k'.

End machine.

Lemma typed_boot n : typed n (boot_kernel n).
Proof.
  split; try done.
  - split; [simpl; by rewrite length_fmap, length_seq|]. apply Forall_fmap, Forall_forall. intros i _. by split.
  - split; [done|]. apply Forall_replicate. split; try done. by apply Forall_replicate.
  - split; [done|]. apply Forall_replicate. by split.
  - split; [done|]. apply Forall_replicate. by split.
  - split; [done|]. apply Forall_replicate. by split.
Qed.

Lemma typed_outside n k k' : typed n k → outside k k' → typed n k'.
Proof. intros [] (E1 & E2 & E3 & E4 & E5 & E6). split; rewrite ?E1, ?E2, ?E3, ?E4, ?E5, ?E6; done. Qed.

Lemma keeps_enter n fuel callers ustack intr e :
  keeps n any intr → entry_ok e → keeps n any (enter fuel callers ustack intr e).
Proof.
  intros Hi He. destruct e; cbn [enter entry_ok] in *; [by apply keeps_trap|..]; keeps.
Qed.

(** The disk interrupt of the two kernels: memide.c ignores it, ide.c handles it. *)
Lemma keeps_intr n fuel intr : intr ∈ [mret tt; ideintr fuel] → keeps n any intr.
Proof. intros [->|[->|[]%elem_of_nil]%elem_of_cons]%elem_of_cons; keeps. Qed.

Lemma reach_typed n fuel callers ustack intr k : intr ∈ [mret tt; ideintr fuel] →
  reach (λ k, k = boot_kernel n) (kernel_step fuel callers ustack intr) k → typed n k.
Proof.
  intros Hi. induction 1 as [k ->|k k' _ IH Hs]; [apply typed_boot|].
  destruct Hs as [e k k' He E|e k k' He E|k k' Ho]; [| |by eapply typed_outside].
  all: pose proof (keeps_enter n fuel callers ustack intr e (keeps_intr n fuel intr Hi) He k IH) as H; rewrite E in H.
  - apply H.
  - exact H.
Qed.


